(* ===== verification/_CoqProject ===== *)
-Q . S2P
Prelude.v
Hoare.v
Bytes.v
BlockStore.v
BlockCache.v
BlockFile.v
Bitmap.v
Layout.v
Inode.v
InodeSpec.v
InodeData.v
Efs.v
Vfs.v
VfsSpec.v
Address.v
FrameAlloc.v
PageTable.v
Dma.v
MemorySet.v
MemorySpec.v
AddressSpace.v
KernelSpace.v
Ids.v
TaskRes.v
UserMem.v
Files.v
UserRange.v
FilesSpec.v
Packer.v
Pipe.v
FileCalls.v
Text.v
FileCallsSpec.v
Threads.v
Sync.v
SyncSpec.v
Concurrency.v
SyncCalls.v
ThreadCalls.v
ThreadSpec.v
Processes.v
ProcessSpec.v
ForkSpec.v
ExitSpec.v
ExecSpec.v
Traps.v
TrapSpec.v
KernelInv.v
Deadlock.v
