(* ===== verification/Prelude.v ===== *)
(** * A verification of the rCore-Tutorial kernel and of its file system easy-fs

    The program is a small multitasking kernel for RISC-V (os/) with a file system
    library (easy-fs/) and the host tool that packs a disk image (easy-fs-fuse/).
    Pure functions of the source are Rocq functions; code with effects is a
    function in the state and error monad [M] of this file, over the state of the
    component it works on; loops that are not structural take fuel.  Machine
    integers are [Z] with the wrap-around of the release build written out ([u64],
    [+ᵤ], [-ᵤ], [*ᵤ]).  A panic ([assert!], [unwrap], an index out of range) is the
    outcome [Fail Panic].

    ** The parts and the files that model them

    Common: [Prelude] (this file: outcomes, monad, machine integers, tactics, hint
    databases), [Hoare] (what an operation gives and keeps, with its automation),
    [Bytes] (slices, little-endian fields).

    The file system, from the disk upwards:
    - [BlockStore]: the class of what block caches promise to their clients;
    - [BlockCache] (easy-fs/src/block_dev.rs, block_cache.rs): the class of block
      devices, the bounded queue of caches, and the instance of [BlockStore];
      [BlockFile] (easy-fs-fuse/src/main.rs): a file as a device;
    - [Bitmap] (bitmap.rs): allocation of bits;
    - [Layout], [Inode], [InodeSpec], [InodeData] (layout.rs): on-disk structures,
      the index of the blocks of an inode, its growth and clearing, and reading and
      writing of contents;
    - [Efs] (efs.rs): creation and opening of a file system, inodes and data blocks;
    - [Vfs], [VfsSpec] (vfs.rs): directories and files, and what they promise;
    - [Files], [FilesSpec] (os/src/fs/inode.rs): open files, over user buffers;
    - [FileCalls], [FileCallsSpec] (os/src/syscall/fs.rs, fs/stdio.rs): descriptors and
      the system calls on them, for files, pipes and the console; [Text]: the
      characters of UTF-8 text;
    - [Packer] (easy-fs-fuse/src/main.rs): the image with the user programs.
    All of them are functions over any instance of [BlockStore]; the packer as a whole
    runs on the caches over [BlockFile].

    The memory of the kernel:
    - [Address] (os/src/mm/address.rs, config.rs), [FrameAlloc] (frame_allocator.rs:
      physical memory as a map from page numbers to 4096 bytes, with the allocator),
      [PageTable] (page_table.rs: Sv39 tables in that memory), [UserMem]
      (page_table.rs: access to user memory), [UserRange] (ranges of user memory);
      [Dma] (os/src/drivers/block/virtio_blk.rs: the memory of the disk driver);
    - [MemorySet] (memory_set.rs: areas and address spaces), [MemorySpec] (their
      invariant), [AddressSpace] (their guarantees), [KernelSpace] (the address space
      of the kernel itself).

    Threads:
    - [Ids], [TaskRes] (os/src/task/id.rs, task.rs, trap/context.rs): numbers,
      stacks, trap contexts and control blocks of threads;
    - [Threads] (task/manager.rs, processor.rs, mod.rs): ready queue, current task,
      blocking and waking; [Sync] (os/src/sync, timer.rs): mutexes, semaphores,
      condition variables, timers, and the machine they form with the scheduler;
      [SyncSpec], [Concurrency]: what holds in every history of the machine;
    - [Pipe] (os/src/fs/pipe.rs): pipes as sequences of activations of their two ends;
    - [SyncCalls], [Deadlock] (os/src/syscall/sync.rs): the synchronisation system
      calls with the tables of a process and the search for deadlocks;
    - [ThreadCalls], [ThreadSpec] (os/src/syscall/thread.rs): creating threads and
      waiting for them.

    Processes:
    - [Processes] (os/src/task/process.rs, mod.rs, manager.rs, signal.rs,
      syscall/process.rs): control blocks, creation, fork, exec, exit, waiting,
      signals, the clock;
    - [ProcessSpec], [ForkSpec], [ExitSpec] (the exit of threads and processes),
      [ExecSpec]: what they promise;
    - [Traps] (os/src/trap/mod.rs, syscall/mod.rs, main.rs, fs/inode.rs): the dispatch of
      traps and system calls and the end of the start of the kernel; [TrapSpec]: what
      programs see of it; [KernelInv]: what holds in every history of the machine.

    ** What the theorems show

    The block cache is invisible: every sequence of operations on it gives what it
    would give on a plain map of blocks, and synchronising leaves that map on the
    device.  Bitmaps return the lowest free bit.  Inodes grow and are cleared
    without losing or sharing blocks; clearing a file frees its blocks; a created file
    system can be opened again; directories are searched by name.  Files grow when
    they are written, what is written is read back, new files are added to the
    directory, and no operation changes another file; open files move such contents
    from and to user memory at their offset, and the system calls do the same through
    descriptors, page tables and the shared table of open files.  The image
    file that the packer leaves on the host, without its block caches, is opened by the
    kernel with the same names and contents.

    Page tables refine finite maps from pages to entries.  Address spaces own their
    frames; inserting, removing, copying and loading map exactly the pages they
    name, to fresh frames with the right contents, and touch no other frame.  The
    kernel's own address space maps each section to itself with its permissions, no
    page both writable and executable.  The driver gets contiguous zeroed memory.

    The scheduler loses no task; mutexes exclude each other's holders; semaphores
    pass as many tasks as they have units; timers wake what is due; pipes are
    bounded queues that deliver everything.  The deadlock searches are compared with
    the safety condition they implement.  Threads get and give back their numbers,
    stacks and trap contexts.  A forked process has copies of the pages of its parent
    and returns 0 from the call; exec leaves the program, its arguments and its
    registers where the new program expects them and frees the old one; a process
    that ends gives its pages back and its children away, and waiting for it frees
    its page table and its number and delivers the exit code.  A task is freed with
    the last reference to it, which [Processes] counts ([task_referenced]: queues,
    processes, and the stack of a task that waits).

    Traps: a system call returns its result in the register of the caller, after the
    instruction; both threads return from a fork, each with its own result; a fault
    of a main thread ends its process with the number of the signal.  From the
    start of the kernel on, in every history of traps and idle turns, the queues of
    the scheduler, of the timers and of the synchronisation objects stay in order.

    Some theorems state behaviour that the source does not intend: data blocks past
    the end of the device, translation of unmapped pages, deadlocks that are not
    reported or reported wrongly, sleeps that stop all timers, exit codes that get lost,
    kernel stacks of waiting threads that are not freed, signals that end one thread
    only, a clock that is written to a wrong page, and calls that panic the kernel.

    ** Fuel and bounds

    The fuel of a loop is computed from its input and covers every turn the loop can
    make (the length of a buffer, the number of blocks or pages of a range, the
    number of threads), and the theorems show that it does not run out: they state
    an outcome [Ok].  The strings of user memory are read with a fuel that the
    theorem bounds by the position of the terminating zero.  Page numbers are below
    2^27 (Sv39), physical pages below 2^44, thread and stack numbers below 2^24, so
    that stacks fit the address space.  The geometry of a packed image is the one of
    the source (16 MiB, one block of inode bitmap); 143 free frames are enough for
    the tables of the kernel's address space.

    ** What is not modelled

    Hardware and firmware: [__switch] and the trap code in assembly (a switch is the
    place where a task is saved), the activation of page tables, interrupts (a trap is
    an event with its cause), the clock (an argument), the console device, the
    registers of the virtio disk and the library that drives it (a block device is a
    class with laws), the SBI.  The ELF parser and the symbols of the linker are
    parameters.  [UPSafeCell] and the locks of single operations are the state passing
    itself.  The kernel heap is a third-party allocator; log messages, the panic
    handler, tests and the command line of the image packer have no counterpart here:
    they only print, stop, or call code outside the repository.  These parts are
    not modelled. *)

From stdpp Require Export base gmap list strings numbers sorting.
From Stdlib Require Export Permutation.

#[global] Open Scope Z_scope.

(** ** Outcomes of kernel code

    The kernel is compiled in release mode, so machine arithmetic wraps; what
    stops a computation is an explicit or implicit panic ([assert!],
    [unwrap], an index out of range), taking a [spin::Mutex] that the same
    thread already holds, and, in the model only, a loop that ran out of the
    fuel it was given. *)

Inductive fault :=
  | Panic
  | Deadlock
  | OutOfFuel.

#[export] Instance fault_eq_dec : EqDecision fault.
Proof. solve_decision. Defined.

Inductive result (A : Type) :=
  | Ok (a : A)
  | Fail (f : fault).
Arguments Ok {A} a.
Arguments Fail {A} f.

#[export] Instance result_eq_dec `{EqDecision A} : EqDecision (result A).
Proof. solve_decision. Defined.

#[export] Instance result_ret : MRet result := λ A a, Ok a.

#[export] Instance result_bind : MBind result := λ A B k m,
  match m with Ok a => k a | Fail f => Fail f end.

(** Stateful code: a function from the state to a result and the next state. *)
Definition M (S A : Type) : Type := S → result (A * S).

#[export] Instance M_ret S : MRet (M S) := λ A a s, Ok (a, s).

#[export] Instance M_bind S : MBind (M S) := λ A B k m s,
  match m s with Ok (a, s') => k a s' | Fail f => Fail f end.

Definition throw {S A} (f : fault) : M S A := λ _, Fail f.
Definition gets {S A} (f : S → A) : M S A := λ s, Ok (f s, s).
Definition puts {S} (f : S → S) : M S unit := λ s, Ok (tt, f s).
Definition lift {S A} (r : result A) : M S A := λ s,
  match r with Ok a => Ok (a, s) | Fail f => Fail f end.

(** [Option::unwrap] and [assert!]. *)
Definition unwrap {A} (o : option A) : result A :=
  match o with Some a => Ok a | None => Fail Panic end.
Definition assert_ (b : bool) : result unit :=
  if b then Ok tt else Fail Panic.

(** Indexing of a Rust array, slice or vector by a [usize]. *)
Definition idx {A} (l : list A) (i : Z) : result A :=
  unwrap (l !! Z.to_nat i).
Definition upd {A} (l : list A) (i : Z) (x : A) : result (list A) :=
  if (Z.to_nat i <? length l)%nat then Ok (<[Z.to_nat i := x]> l) else Fail Panic.

(** ** Machine integers *)

Declare Scope rcore_scope.
Delimit Scope rcore_scope with rcore.
#[global] Open Scope rcore_scope.

Definition u8 (x : Z) : Z := x mod 2 ^ 8.
Definition u32 (x : Z) : Z := x mod 2 ^ 32.
Definition u64 (x : Z) : Z := x mod 2 ^ 64.
(** [x as isize] for a 64-bit [x]. *)
Definition i64 (x : Z) : Z := (x + 2 ^ 63) mod 2 ^ 64 - 2 ^ 63.

(** Wrapping [usize] arithmetic, as the release build computes it. *)
Notation "x +ᵤ y" := (u64 (x + y)) (at level 50, left associativity) : rcore_scope.
Notation "x -ᵤ y" := (u64 (x - y)) (at level 50, left associativity) : rcore_scope.
Notation "x *ᵤ y" := (u64 (x * y)) (at level 40, left associativity) : rcore_scope.

Lemma u8_small x : 0 ≤ x < 2 ^ 8 → u8 x = x.
Proof. intros. by apply Z.mod_small. Qed.
Lemma u32_small x : 0 ≤ x < 2 ^ 32 → u32 x = x.
Proof. intros. by apply Z.mod_small. Qed.
Lemma i64_small x : - 2 ^ 63 ≤ x < 2 ^ 63 → i64 x = x.
Proof. intros Hx. unfold i64. rewrite Z.mod_small by lia. lia. Qed.

Lemma u64_small x : 0 ≤ x < 2 ^ 64 → u64 x = x.
Proof. intros. by apply Z.mod_small. Qed.
Lemma u8_range x : 0 ≤ u8 x < 2 ^ 8.
Proof. by apply Z.mod_pos_bound. Qed.
Lemma u32_range x : 0 ≤ u32 x < 2 ^ 32.
Proof. by apply Z.mod_pos_bound. Qed.
Lemma u64_range x : 0 ≤ u64 x < 2 ^ 64.
Proof. by apply Z.mod_pos_bound. Qed.

Create HintDb rcore.
Create Rewrite HintDb rcore.
#[export] Hint Resolve u8_range u32_range u64_range : rcore.
#[export] Hint Rewrite u8_small u32_small u64_small using lia : rcore.

(** ** Tactics *)

(** Closes an arithmetic goal with the machine operations that do not
    overflow rewritten away, and with divisions by constants. *)
Ltac mach_lia :=
  intros; autorewrite with rcore in *; Z.to_euclidean_division_equations; lia.

(** Runs the monadic code of the goal or of a hypothesis one step. *)
Ltac mstep :=
  cbv [mbind mret M_bind M_ret result_bind result_ret throw gets puts lift] in *;
  cbn beta iota in *.

(** One step of a computation. *)
Lemma bind_run {St A B} (m : M St A) (f : A → M St B) s a s' : m s = Ok (a, s') → (m ≫= f) s = f a s'.
Proof. intros E. mstep. by rewrite E. Qed.

Lemma lift_run {St A} (r : result A) a (s : St) : r = Ok a → lift r s = Ok (a, s).
Proof. by intros ->. Qed.

(** Splits the scrutinee of a result-valued match in a hypothesis. *)
Ltac res_inv :=
  repeat (mstep; match goal with
  | H : Ok _ = Ok _ |- _ => injection H as H
  | H : Ok _ = Fail _ |- _ => discriminate H
  | H : Fail _ = Ok _ |- _ => discriminate H
  | H : (_, _) = (_, _) |- _ => injection H as H
  | H : match ?x with Ok _ => _ | Fail _ => _ end = _ |- _ =>
      let E := fresh "E" in destruct x eqn:E
  | H : (let (_, _) := ?x in _) = _ |- _ => is_var x; destruct x
  end); simplify_eq.

(** ** Indexing lemmas *)

Lemma idx_Ok {A} (l : list A) i x : l !! Z.to_nat i = Some x → idx l i = Ok x.
Proof. unfold idx. by intros ->. Qed.

Lemma idx_inv {A} (l : list A) i x : idx l i = Ok x → l !! Z.to_nat i = Some x.
Proof. unfold idx. destruct (l !! _); simpl; congruence. Qed.

Lemma idx_None {A} (l : list A) i : idx l i = Fail Panic ↔ (length l ≤ Z.to_nat i)%nat.
Proof.
  unfold idx. rewrite <- lookup_ge_None. destruct (l !! _); simpl; split; congruence.
Qed.

Lemma upd_Ok {A} (l : list A) i x :
  (Z.to_nat i < length l)%nat → upd l i x = Ok (<[Z.to_nat i := x]> l).
Proof. unfold upd. intros ?%Nat.ltb_lt. by case_match. Qed.

Lemma upd_inv {A} (l l' : list A) i x :
  upd l i x = Ok l' → (Z.to_nat i < length l)%nat ∧ l' = <[Z.to_nat i := x]> l.
Proof. unfold upd. destruct (Nat.ltb_spec (Z.to_nat i) (length l)); naive_solver. Qed.

(** ** Lists *)

Lemma filter_all {A} (P : A → Prop) `{∀ x, Decision (P x)} (l : list A) :
  (∀ x, x ∈ l → P x) → filter P l = l.
Proof.
  induction l as [|x l IH]; intros Hall; [done|].
  rewrite filter_cons_True by (apply Hall; set_solver).
  f_equal. apply IH. set_solver.
Qed.

Lemma filter_none {A} (P : A → Prop) `{∀ x, Decision (P x)} (l : list A) :
  (∀ x, x ∈ l → ¬ P x) → filter P l = [].
Proof.
  intros Hl. destruct (filter P l) as [|x r] eqn:E; [done|]. exfalso.
  assert (Hx : x ∈ filter P l) by (rewrite E; apply list_elem_of_here).
  apply list_elem_of_filter in Hx as [Hp Hx]. by apply (Hl x).
Qed.

Lemma filter_ext_in {A} (P Q : A → Prop) `{∀ x, Decision (P x), ∀ x, Decision (Q x)} (l : list A) :
  (∀ x, x ∈ l → P x ↔ Q x) → filter P l = filter Q l.
Proof.
  induction l as [|x l IH]; intros Hpq; [done|]. rewrite !filter_cons.
  specialize (Hpq x (list_elem_of_here _ _)) as Hx.
  rewrite IH by (intros y Hy; by apply Hpq, list_elem_of_further).
  repeat case_decide; tauto.
Qed.

Lemma elem_of_take_weak {A} (x : A) n l : x ∈ take n l → x ∈ l.
Proof. intros (i & Hi & _)%elem_of_take. by eapply list_elem_of_lookup_2. Qed.

Lemma elem_of_drop_weak {A} (x : A) n l : x ∈ drop n l → x ∈ l.
Proof.
  intros Hx. rewrite <- (take_drop n l). apply elem_of_app. by right.
Qed.

Lemma NoDup_drop {A} n (l : list A) : NoDup l → NoDup (drop n l).
Proof. rewrite <- (take_drop n l) at 1. by intros (_ & _ & ?)%NoDup_app. Qed.

(** [Vec::pop] *)
Definition pop {A} (l : list A) : option (A * list A) :=
  match reverse l with
  | [] => None
  | x :: r => Some (x, reverse r)
  end.

Lemma pop_Some {A} (l : list A) x r : pop l = Some (x, r) ↔ l = r ++ [x].
Proof.
  unfold pop. rewrite <- (reverse_involutive l). rewrite reverse_involutive.
  destruct (reverse l) as [|y k] eqn:E.
  - split; [done|]. intros El. by destruct r.
  - rewrite reverse_cons. split; [by intros [= -> <-]|].
    intros [-> [= ->]]%app_inj_2; done.
Qed.

Lemma pop_None {A} (l : list A) : pop l = None ↔ l = [].
Proof.
  unfold pop. destruct (reverse l) as [|y k] eqn:E.
  - split; [|done]. intros _. by rewrite <- (reverse_involutive l), E.
  - split; [done|]. by intros ->.
Qed.
