(* ===== verification/Hoare.v ===== *)
(** * Pre- and postconditions of code with effects

    [gives P m Q]: when [m] is run in a state with [P] and ends, the value and the
    state have [Q].  The rules follow the structure of the code; [steps] applies
    them, with what the database [hoare] has for the operations. *)

From S2P Require Import Prelude.

Definition gives {S A} (P : S → Prop) (m : M S A) (Q : A → S → Prop) : Prop :=
  ∀ s a s', P s → m s = Ok (a, s') → Q a s'.

(** Code that keeps an invariant. *)
Definition keeps {S A} (I : S → Prop) (m : M S A) : Prop := gives I m (λ _, I).

Section rules.
Context {S : Type}.
Implicit Types P : S → Prop.

Lemma gives_bind {A B} P (m : M S A) R (f : A → M S B) Q :
  gives P m R → (∀ a, gives (R a) (f a) Q) → gives P (m ≫= f) Q.
Proof. intros Hm Hf s b s' HP E. mstep. destruct (m s) as [[a s1]|] eqn:E1; [|done]. by eapply Hf; [eapply Hm|]. Qed.

Lemma gives_ret {A} P (a : A) (Q : A → S → Prop) : (∀ s, P s → Q a s) → gives P (mret a) Q.
Proof. intros HQ s b s' HP E. mstep. injection E as <- <-. auto. Qed.

Lemma gives_gets {A} P (f : S → A) (Q : A → S → Prop) : (∀ s, P s → Q (f s) s) → gives P (gets f) Q.
Proof. intros HQ s b s' HP E. mstep. injection E as <- <-. auto. Qed.

Lemma gives_puts P (f : S → S) (Q : unit → S → Prop) : (∀ s, P s → Q tt (f s)) → gives P (puts f) Q.
Proof. intros HQ s b s' HP E. mstep. injection E as <- <-. auto. Qed.

Lemma gives_lift {A} P (r : result A) (Q : A → S → Prop) : (∀ s a, P s → r = Ok a → Q a s) → gives P (lift r) Q.
Proof. intros HQ s b s' HP E. mstep. destruct r; [|done]. injection E as <- <-. auto. Qed.

Lemma gives_throw {A} P f (Q : A → S → Prop) : gives P (throw f) Q.
Proof. by intros s a s' _ E. Qed.

Lemma gives_weaken {A} (P' P : S → Prop) (m : M S A) (Q Q' : A → S → Prop) :
  gives P' m Q' → (∀ s, P s → P' s) → (∀ a s, Q' a s → Q a s) → gives P m Q.
Proof. intros Hm HP HQ s a s' Hs E. eapply HQ, Hm, E. auto. Qed.

Lemma keeps_bind {A B} P (m : M S A) (f : A → M S B) : keeps P m → (∀ a, keeps P (f a)) → keeps P (m ≫= f).
Proof. intros. by eapply gives_bind. Qed.

Lemma keeps_ret {A} P (a : A) : keeps P (mret a).
Proof. by apply gives_ret. Qed.
Lemma keeps_gets {A} P (f : S → A) : keeps P (gets f).
Proof. by apply gives_gets. Qed.
Lemma keeps_lift {A} P (r : result A) : keeps P (lift r).
Proof. by apply gives_lift. Qed.
Lemma keeps_throw {A} P f : keeps (A:=A) P (throw f).
Proof. apply gives_throw. Qed.
Lemma keeps_puts P (f : S → S) : (∀ s, P s → P (f s)) → keeps P (puts f).
Proof. intros. by apply gives_puts. Qed.
End rules.

Create HintDb hoare.
#[export] Hint Resolve keeps_ret keeps_gets keeps_lift keeps_throw : hoare.

(** Follows the structure of code that keeps an invariant. *)
Ltac step_keeps :=
  match goal with
  | |- keeps _ (mbind _ _) => apply keeps_bind; [|intros ?]
  | |- keeps _ (let '(_, _) := ?x in _) => destruct x
  | |- keeps _ (match ?x with _ => _ end) => destruct x
  | |- keeps _ (if ?x then _ else _) => destruct x
  | |- keeps _ _ => solve [eauto with hoare]
  end.
Ltac steps := repeat (cbv zeta; step_keeps).
