(* ===== verification/Bytes.v ===== *)
(** * Bytes, slices and little-endian fields

    Disk blocks and physical pages are arrays of bytes; the code reinterprets
    them as [repr(C)] structures and arrays of words.  This file gives the
    sub-slice operations ([slice], [splice]) and the little-endian accessors
    ([rd], [wr]) those reinterpretations amount to on the 64-bit RISC-V
    target, with the framing lemmas the components use. *)

From S2P Require Import Prelude.

#[local] Open Scope nat_scope.

Definition is_byte (b : Z) : Prop := (0 ≤ b < 256)%Z.
Definition bytes (bs : list Z) : Prop := Forall is_byte bs.

#[export] Instance is_byte_dec b : Decision (is_byte b).
Proof. unfold is_byte. apply _. Defined.
#[export] Instance bytes_dec bs : Decision (bytes bs).
Proof. unfold bytes. apply _. Defined.

(** [&l[off .. off + n]] and [l[off .. off + len].copy_from_slice(new)]. *)
Definition slice {A} (off n : nat) (l : list A) : list A := take n (drop off l).
Definition splice {A} (off : nat) (new l : list A) : list A :=
  take off l ++ new ++ drop (off + length new) l.

Fixpoint le_get (bs : list Z) : Z :=
  match bs with
  | [] => 0
  | b :: r => b + 256 * le_get r
  end.

Fixpoint le_put (n : nat) (z : Z) : list Z :=
  match n with
  | O => []
  | S n => (z mod 256)%Z :: le_put n (z / 256)%Z
  end.

(** The [n]-byte little-endian field of [l] at byte offset [off]. *)
Definition rd (n off : nat) (l : list Z) : Z := le_get (slice off n l).
Definition wr (n off : nat) (z : Z) (l : list Z) : list Z := splice off (le_put n z) l.

(** ** Slices *)

Section slices.
Context {A : Type}.
Implicit Types l new : list A.

Lemma length_slice off n l : off + n ≤ length l → length (slice off n l) = n.
Proof. unfold slice. rewrite length_take, length_drop. lia. Qed.

Lemma length_splice off new l :
  off + length new ≤ length l → length (splice off new l) = length l.
Proof. unfold splice. rewrite !length_app, length_take, length_drop. lia. Qed.

Lemma lookup_slice off n l i :
  slice off n l !! i = if decide (i < n) then l !! (off + i) else None.
Proof.
  unfold slice. case_decide.
  - by rewrite lookup_take_lt, lookup_drop.
  - apply lookup_take_ge. lia.
Qed.

Lemma lookup_splice off new l i :
  off + length new ≤ length l →
  splice off new l !! i =
    if decide (off ≤ i < off + length new) then new !! (i - off) else l !! i.
Proof.
  intros Hlen. unfold splice.
  destruct (decide (i < off)) as [Hlt|Hge].
  - rewrite lookup_app_l by (rewrite length_take; lia).
    rewrite lookup_take_lt by lia. case_decide; [lia|done].
  - rewrite lookup_app_r by (rewrite length_take; lia).
    rewrite length_take, Nat.min_l by lia.
    case_decide as Hin.
    + rewrite lookup_app_l by lia. done.
    + rewrite lookup_app_r by lia. rewrite lookup_drop. f_equal. lia.
Qed.

Lemma slice_splice_eq off new l :
  off + length new ≤ length l → slice off (length new) (splice off new l) = new.
Proof.
  intros Hlen. apply list_eq. intros i. rewrite lookup_slice.
  case_decide as Hi.
  - rewrite lookup_splice by done. rewrite decide_True by lia. f_equal. lia.
  - symmetry. apply lookup_ge_None. lia.
Qed.

Lemma slice_splice_ne off off' n new l :
  off + length new ≤ length l →
  off' + n ≤ off ∨ off + length new ≤ off' →
  slice off' n (splice off new l) = slice off' n l.
Proof.
  intros Hlen Hdis. apply list_eq. intros i. rewrite !lookup_slice.
  case_decide as Hi; [|done]. rewrite lookup_splice by done.
  by rewrite decide_False by lia.
Qed.

Lemma splice_slice off n l : off + n ≤ length l → splice off (slice off n l) l = l.
Proof.
  intros Hlen. apply list_eq. intros i.
  rewrite lookup_splice by (rewrite length_slice; lia).
  rewrite length_slice by lia. case_decide; [|done].
  rewrite lookup_slice. rewrite decide_True by lia. f_equal. lia.
Qed.

Lemma splice_splice off new new' l :
  length new = length new' → off + length new ≤ length l →
  splice off new (splice off new' l) = splice off new l.
Proof.
  intros He Hlen. apply list_eq. intros i.
  rewrite !lookup_splice by (rewrite ?length_splice by lia; lia).
  case_decide; [done|]. rewrite decide_False by lia. done.
Qed.

Lemma splice_nil off l : off ≤ length l → splice off [] l = l.
Proof. intros. unfold splice. simpl. by rewrite Nat.add_0_r, take_drop. Qed.

Lemma splice_cons off b new l :
  off + S (length new) ≤ length l →
  splice (S off) new (<[off := b]> l) = splice off (b :: new) l.
Proof.
  intros Hl. apply list_eq. intros i.
  rewrite !lookup_splice by (simpl; rewrite ?length_insert; lia). simpl.
  destruct (decide (i = off)) as [->|Hne].
  - rewrite decide_False, decide_True by lia. rewrite list_lookup_insert_eq by lia.
    by rewrite Nat.sub_diag.
  - rewrite list_lookup_insert_ne by done.
    destruct (decide (S off ≤ i < S (off + length new))).
    + rewrite !decide_True by lia. by replace (i - off) with (S (i - S off)) by lia.
    + by rewrite !decide_False by lia.
Qed.

Lemma slice_all n l : n = length l → slice 0 n l = l.
Proof. intros ->. unfold slice. rewrite drop_0. by apply take_ge. Qed.

Lemma splice_all new l : length new = length l → splice 0 new l = new.
Proof.
  intros E. unfold splice. rewrite take_0. simpl. rewrite drop_ge by lia. apply app_nil_r.
Qed.

Lemma slice_slice off n off' n' l :
  off' + n' ≤ n → slice off' n' (slice off n l) = slice (off + off') n' l.
Proof.
  intros. apply list_eq. intros i. rewrite !lookup_slice.
  case_decide; [|done]. rewrite decide_True by lia. f_equal. lia.
Qed.
End slices.

(** ** Little-endian fields *)

Lemma length_le_put n z : length (le_put n z) = n.
Proof. revert z. induction n; intros; simpl; auto. Qed.

Lemma le_put_bytes n z : bytes (le_put n z).
Proof.
  revert z. induction n; intros; simpl; constructor; [|apply IHn].
  unfold is_byte. apply Z.mod_pos_bound. lia.
Qed.

Lemma le_get_range bs : bytes bs → (0 ≤ le_get bs < 256 ^ Z.of_nat (length bs))%Z.
Proof.
  induction 1 as [|b bs Hb _ IH]; cbn [le_get length]; [simpl; lia|].
  rewrite Nat2Z.inj_succ, Z.pow_succ_r by lia. unfold is_byte in Hb. lia.
Qed.

Lemma le_get_put n z : le_get (le_put n z) = (z mod 256 ^ Z.of_nat n)%Z.
Proof.
  revert z. induction n as [|n IH]; intros z; cbn [le_get le_put].
  - by rewrite Z.pow_0_r, Z.mod_1_r.
  - rewrite IH, Nat2Z.inj_succ, Z.pow_succ_r by lia.
    rewrite Z.rem_mul_r by lia. done.
Qed.

Lemma le_put_get bs : bytes bs → le_put (length bs) (le_get bs) = bs.
Proof.
  induction 1 as [|b bs Hb _ IH]; cbn [le_get le_put length]; [done|].
  unfold is_byte in Hb. f_equal.
  - rewrite Z.mul_comm, Z_mod_plus_full. apply Z.mod_small. lia.
  - rewrite Z.mul_comm, Z.div_add, (Z.div_small b) by lia. by rewrite Z.add_0_l.
Qed.

Lemma bytes_slice off n bs : bytes bs → bytes (slice off n bs).
Proof. intros. by apply Forall_take, Forall_drop. Qed.

Lemma bytes_splice off new bs : bytes new → bytes bs → bytes (splice off new bs).
Proof.
  intros. apply Forall_app. split; [by apply Forall_take|].
  apply Forall_app. split; [done|by apply Forall_drop].
Qed.

Lemma bytes_replicate n : bytes (replicate n 0%Z).
Proof. apply Forall_replicate. unfold is_byte. lia. Qed.

Lemma bytes_wr n off z bs : bytes bs → bytes (wr n off z bs).
Proof. intros. apply bytes_splice; [apply le_put_bytes|done]. Qed.

Lemma length_wr n off z l : off + n ≤ length l → length (wr n off z l) = length l.
Proof. intros. apply length_splice. by rewrite length_le_put. Qed.

Lemma rd_wr_mod n off z l :
  off + n ≤ length l → rd n off (wr n off z l) = (z mod 256 ^ Z.of_nat n)%Z.
Proof.
  intros. unfold rd, wr. rewrite <- (length_le_put n z) at 1.
  rewrite slice_splice_eq by (by rewrite length_le_put). apply le_get_put.
Qed.

Lemma rd_wr_eq n off z l :
  off + n ≤ length l → (0 ≤ z < 256 ^ Z.of_nat n)%Z → rd n off (wr n off z l) = z.
Proof. intros. rewrite rd_wr_mod by done. by apply Z.mod_small. Qed.

Lemma rd_wr_ne n off n' off' z l :
  off + n ≤ length l → off' + n' ≤ off ∨ off + n ≤ off' →
  rd n' off' (wr n off z l) = rd n' off' l.
Proof.
  intros. unfold rd, wr. by rewrite slice_splice_ne by (rewrite length_le_put; lia).
Qed.

Lemma rd_splice_ne n' off' off new l :
  off + length new ≤ length l → off' + n' ≤ off ∨ off + length new ≤ off' →
  rd n' off' (splice off new l) = rd n' off' l.
Proof. intros. unfold rd. by rewrite slice_splice_ne. Qed.

Lemma wr_rd n off l : off + n ≤ length l → bytes l → wr n off (rd n off l) l = l.
Proof.
  intros Hl Hb. unfold wr, rd.
  rewrite <- (length_slice off n l Hl) at 1.
  rewrite le_put_get by (by apply bytes_slice). by apply splice_slice.
Qed.

Lemma rd_range n off l :
  off + n ≤ length l → bytes l → (0 ≤ rd n off l < 256 ^ Z.of_nat n)%Z.
Proof.
  intros Hl Hb. unfold rd. rewrite <- (length_slice off n l Hl) at 3.
  by apply le_get_range, bytes_slice.
Qed.

Lemma le_get_replicate n : le_get (replicate n 0%Z) = 0%Z.
Proof. induction n; cbn [le_get replicate]; lia. Qed.

Lemma slice_replicate {A} off n m (x : A) :
  off + n ≤ m → slice off n (replicate m x) = replicate n x.
Proof. intros. unfold slice. rewrite drop_replicate, take_replicate. f_equal. lia. Qed.

Lemma rd_replicate n off m : off + n ≤ m → rd n off (replicate m 0%Z) = 0%Z.
Proof. intros. unfold rd. rewrite slice_replicate by done. apply le_get_replicate. Qed.

#[export] Hint Resolve bytes_slice bytes_splice bytes_replicate bytes_wr le_put_bytes : rcore.
#[export] Hint Rewrite @length_slice @length_splice length_le_put length_wr using lia : rcore.
