(* ===== verification/BlockStore.v ===== *)
(** * The block store interface of easy-fs

    Every layer of easy-fs above the block cache (bitmaps, inodes,
    directories, the file system itself) touches the disk in one way only:
    [get_block_cache(id, dev).lock().read(off, |x| ..)] and the same with
    [modify], plus [block_cache_sync_all()].  [BlockStore] is that interface:
    the operations, and the laws the block cache promises to its clients.
    The laws speak of a ghost view of the store, the map from block ids to the
    512 bytes a client sees, and of the set of blocks whose lock is held.

    The closure passed to [read] and [modify] runs with the block's
    [spin::Mutex] held and its [Arc] pinned, and the code nests such closures;
    the interface keeps the set of held blocks so that taking a block twice is
    the deadlock it is on the machine.

    [runs m v h a v'] is the total-correctness judgement the clients'
    theorems are stated with: from any well-formed store whose view is [v] and
    whose held blocks are [h], the code [m] returns [a] (it does not panic,
    deadlock or run out of fuel), leaves the view [v'] and holds [h] again.
    [settles m v h a v'] says more: at the end the device holds the view, so that
    nothing is lost when the machine is switched off; [stays] says this of code
    that starts from such a store. *)

From S2P Require Import Prelude Bytes.

(** [BLOCK_SZ] (easy-fs/src/lib.rs) and [BLOCK_CACHE_SIZE]
    (easy-fs/src/block_cache.rs). *)
Definition BLOCK_SZ : nat := 512.
Definition BLOCK_CACHE_SIZE : nat := 16.

(** A structure of [size] bytes at [off] is inside of the block.  Its first byte is
    looked up in any case, so that also an empty structure starts inside. *)
Definition fits_block (off size : nat) : Prop := (off + Nat.max 1 size ≤ BLOCK_SZ)%nat.
#[export] Instance fits_block_dec off size : Decision (fits_block off size).
Proof. unfold fits_block. apply _. Defined.

Class BlockStore (S : Type) := {
  (** [get_block_cache(b, dev).lock()] *)
  lock_block : Z → M S unit;
  (** [get_ref] at an offset, for a type of a given size, on the locked cache of [b] *)
  read_bytes : Z → nat → nat → S → result (list Z);
  (** the final bytes of a structure obtained with [get_mut] at an offset *)
  write_bytes : Z → nat → list Z → S → result S;
  (** the guard and the [Arc] go out of scope *)
  unlock_block : Z → S → S;
  (** [block_cache_sync_all()] *)
  sync_all : M S unit;
  view : S → gmap Z (list Z);
  held : S → gset Z;
  store_wf : S → Prop;
  durable : S → Prop;
}.

Class BlockStoreLaws (S : Type) `{BlockStore S} := {
  view_block s b blk :
    store_wf s → view s !! b = Some blk → length blk = BLOCK_SZ ∧ bytes blk;
  lock_block_ok s b :
    store_wf s → is_Some (view s !! b) → b ∉ held s →
    (size (held s) < BLOCK_CACHE_SIZE)%nat →
    ∃ s', lock_block b s = Ok (tt, s') ∧ store_wf s' ∧ view s' = view s ∧
          held s' = {[b]} ∪ held s;
  lock_block_held s b : store_wf s → b ∈ held s → lock_block b s = Fail Deadlock;
  lock_block_missing s b :
    store_wf s → 0 ≤ b < 2 ^ 32 → view s !! b = None → lock_block b s = Fail Panic;
  read_bytes_ok s b off size blk :
    store_wf s → b ∈ held s → view s !! b = Some blk → fits_block off size →
    read_bytes b off size s = Ok (slice off size blk);
  read_bytes_range s b off size :
    store_wf s → b ∈ held s → ¬ fits_block off size →
    read_bytes b off size s = Fail Panic;
  write_bytes_ok s b off new blk :
    store_wf s → b ∈ held s → view s !! b = Some blk →
    fits_block off (length new) → bytes new →
    ∃ s', write_bytes b off new s = Ok s' ∧ store_wf s' ∧
          view s' = <[b := splice off new blk]> (view s) ∧ held s' = held s;
  unlock_block_ok s b :
    store_wf s → b ∈ held s →
    store_wf (unlock_block b s) ∧ view (unlock_block b s) = view s ∧
    held (unlock_block b s) = held s ∖ {[b]};
  sync_all_ok s :
    store_wf s → held s = ∅ →
    ∃ s', sync_all s = Ok (tt, s') ∧ store_wf s' ∧ view s' = view s ∧ held s' = ∅ ∧
          durable s';
}.

(** ** The two ways clients use a block *)

Section clients.
Context {S : Type} `{BlockStore S}.

(** [get_block_cache(b, dev).lock().read(off, |x: &T| f(x))] with
    [size_of::<T>() = size] *)
Definition bc_read {A} (b : Z) (off size : nat) (f : list Z → M S A) : M S A :=
  lock_block b;;
  x ← (λ s, lift (read_bytes b off size s) s);
  r ← f x;
  puts (unlock_block b);;
  mret r.

(** [get_block_cache(b, dev).lock().modify(off, |x: &mut T| f(x))]; [f]
    returns the closure's value and the final bytes of the structure *)
Definition bc_modify {A} (b : Z) (off size : nat)
    (f : list Z → M S (A * list Z)) : M S A :=
  lock_block b;;
  x ← (λ s, lift (read_bytes b off size s) s);
  '(r, new) ← f x;
  (λ s, s' ← write_bytes b off new s; Ok (tt, s'));;
  puts (unlock_block b);;
  mret r.

Definition runs {A} (m : M S A) (v : gmap Z (list Z)) (h : gset Z)
    (a : A) (v' : gmap Z (list Z)) : Prop :=
  ∀ s, store_wf s → view s = v → held s = h →
    ∃ s', m s = Ok (a, s') ∧ store_wf s' ∧ view s' = v' ∧ held s' = h.

(** The same, and what the client sees at the end is on the device. *)
Definition settles {A} (m : M S A) (v : gmap Z (list Z)) (h : gset Z)
    (a : A) (v' : gmap Z (list Z)) : Prop :=
  ∀ s, store_wf s → view s = v → held s = h →
    ∃ s', m s = Ok (a, s') ∧ store_wf s' ∧ view s' = v' ∧ held s' = h ∧ durable s'.
Definition stays {A} (m : M S A) (v : gmap Z (list Z)) (h : gset Z)
    (a : A) (v' : gmap Z (list Z)) : Prop :=
  ∀ s, store_wf s → view s = v → held s = h → durable s →
    ∃ s', m s = Ok (a, s') ∧ store_wf s' ∧ view s' = v' ∧ held s' = h ∧ durable s'.

(** [m] stops with the fault [f] from every store with view [v]. *)
Definition faults {A} (m : M S A) (v : gmap Z (list Z)) (h : gset Z) (f : fault) : Prop :=
  ∀ s, store_wf s → view s = v → held s = h → m s = Fail f.
End clients.

(** Every block has 512 bytes. *)
Definition view_ok (v : gmap Z (list Z)) : Prop :=
  ∀ b blk, v !! b = Some blk → length blk = BLOCK_SZ ∧ bytes blk.

(** ** Rules of the judgement *)

Section rules.
Context {S : Type} `{HS : BlockStore S, HL : !BlockStoreLaws S}.
Implicit Types (v : gmap Z (list Z)) (h : gset Z).

Lemma runs_ret {A} v h (a : A) : runs (S:=S) (mret a) v h a v.
Proof. intros s ???. exists s. done. Qed.

Lemma runs_bind {A B} (m : M S A) (k : A → M S B) v h a v1 b v2 :
  runs m v h a v1 → runs (k a) v1 h b v2 → runs (m ≫= k) v h b v2.
Proof.
  intros Hm Hk s Hwf Hv Hh. destruct (Hm s Hwf Hv Hh) as (s1 & E & ? & ? & ?).
  destruct (Hk s1) as (s2 & E2 & ? & ? & ?); [done..|].
  exists s2. split; [|done]. unfold mbind, M_bind. by rewrite E.
Qed.

(** A well-formed store has a well-formed view. *)
Lemma runs_view_ok {A} (m : M S A) v h a v' :
  (view_ok v → runs m v h a v') → runs m v h a v'.
Proof.
  intros Hm s Hwf Hv Hh. apply Hm; [|done..]. intros b blk Hb. subst v.
  by eapply view_block.
Qed.

Lemma faults_view_ok {A} (m : M S A) v h f :
  (view_ok v → faults m v h f) → faults m v h f.
Proof.
  intros Hm s Hwf Hv Hh. apply Hm; [|done..]. intros b blk Hb. subst v.
  by eapply view_block.
Qed.

Lemma runs_lift {A} v h (r : result A) a : r = Ok a → runs (S:=S) (lift r) v h a v.
Proof. intros -> s ???. exists s. done. Qed.

Lemma faults_lift {A} v h (r : result A) f : r = Fail f → faults (S:=S) (lift r) v h f.
Proof. by intros -> s ???. Qed.

Lemma faults_bind_l {A B} (m : M S A) (k : A → M S B) v h f :
  faults m v h f → faults (m ≫= k) v h f.
Proof. intros Hm s ???. unfold mbind, M_bind. by rewrite Hm. Qed.

Lemma faults_bind_r {A B} (m : M S A) (k : A → M S B) v h a v1 f :
  runs m v h a v1 → faults (k a) v1 h f → faults (m ≫= k) v h f.
Proof.
  intros Hm Hk s Hwf Hv Hh. destruct (Hm s Hwf Hv Hh) as (s1 & E & ? & ? & ?).
  unfold mbind, M_bind. rewrite E. by apply Hk.
Qed.

(** Executions are deterministic in the view. *)
Lemma runs_det {A} (m : M S A) v h a1 v1 a2 v2 s :
  store_wf s → view s = v → held s = h →
  runs m v h a1 v1 → runs m v h a2 v2 → a1 = a2 ∧ v1 = v2.
Proof.
  intros Hwf Hv Hh H1 H2. destruct (H1 s) as (s1 & E1 & _ & V1 & _); [done..|].
  destruct (H2 s) as (s2 & E2 & _ & V2 & _); [done..|].
  rewrite E1 in E2. by simplify_eq.
Qed.

Lemma runs_read {A} b off size (f : list Z → M S A) v h blk a v' :
  v !! b = Some blk → b ∉ h → (base.size h < BLOCK_CACHE_SIZE)%nat →
  (off + Nat.max 1 size ≤ BLOCK_SZ)%nat →
  runs (f (slice off size blk)) v ({[b]} ∪ h) a v' →
  runs (bc_read b off size f) v h a v'.
Proof.
  intros Hb Hnh Hcap Hsz Hf s Hwf Hv Hh. subst v h.
  destruct (lock_block_ok s b) as (s1 & E1 & Hwf1 & Hv1 & Hh1); [by eauto..|].
  destruct (Hf s1) as (s2 & E2 & Hwf2 & Hv2 & Hh2); [done..|].
  destruct (unlock_block_ok s2 b) as (Hwf3 & Hv3 & Hh3); [done|set_solver|].
  exists (unlock_block b s2). unfold bc_read. mstep. rewrite E1.
  rewrite (read_bytes_ok s1 b off size blk) by (first [done|congruence|set_solver]).
  rewrite E2. split; [done|]. split; [done|]. split; [by rewrite Hv3|].
  rewrite Hh3, Hh2. set_solver.
Qed.

Lemma runs_modify {A} b off size (f : list Z → M S (A * list Z)) v h blk a new v1 blk1 :
  v !! b = Some blk → b ∉ h → (base.size h < BLOCK_CACHE_SIZE)%nat →
  (off + Nat.max 1 size ≤ BLOCK_SZ)%nat →
  runs (f (slice off size blk)) v ({[b]} ∪ h) (a, new) v1 →
  v1 !! b = Some blk1 → length new = size → bytes new →
  runs (bc_modify b off size f) v h a (<[b := splice off new blk1]> v1).
Proof.
  intros Hb Hnh Hcap Hsz Hf Hb1 Hlen Hbytes s Hwf Hv Hh. subst v h.
  destruct (lock_block_ok s b) as (s1 & E1 & Hwf1 & Hv1 & Hh1); [by eauto..|].
  destruct (Hf s1) as (s2 & E2 & Hwf2 & Hv2 & Hh2); [done..|].
  destruct (write_bytes_ok s2 b off new blk1) as (s3 & E3 & Hwf3 & Hv3 & Hh3);
    [done|set_solver|congruence|by subst size|done|].
  destruct (unlock_block_ok s3 b) as (Hwf4 & Hv4 & Hh4); [done|set_solver|].
  exists (unlock_block b s3). unfold bc_modify. mstep. rewrite E1.
  rewrite (read_bytes_ok s1 b off size blk) by (first [done|congruence|set_solver]).
  rewrite E2, E3. split; [done|]. split; [done|]. split; [by rewrite Hv4, Hv3, Hv2|].
  rewrite Hh4, Hh3, Hh2. set_solver.
Qed.

(** A closure over a whole block. *)
Lemma runs_modify_full {A} b (f : list Z → M S (A * list Z)) v h blk a new v1 :
  v !! b = Some blk → b ∉ h → (base.size h < BLOCK_CACHE_SIZE)%nat →
  runs (f blk) v ({[b]} ∪ h) (a, new) v1 →
  is_Some (v1 !! b) → length new = BLOCK_SZ → bytes new →
  runs (bc_modify b 0 BLOCK_SZ f) v h a (<[b := new]> v1).
Proof.
  intros Hb Hnh Hcap Hf [blk1 Hb1] Hlen Hbytes s Hwf Hv Hh.
  assert (length blk = BLOCK_SZ) as Hl by (subst v; by eapply view_block).
  assert (runs (bc_modify b 0 BLOCK_SZ f) v h a (<[b := splice 0 new blk1]> v1)) as Hr.
  { eapply runs_modify; [done..| |done|done|done]. by rewrite slice_all. }
  destruct (lock_block_ok s b) as (s1 & E1 & Hwf1 & Hv1 & Hh1); [subst; by eauto..|].
  destruct (Hf s1) as (s2 & _ & Hwf2 & Hv2 & _); [congruence..|].
  rewrite splice_all in Hr; [by apply Hr|].
  rewrite Hlen. symmetry. eapply (view_block s2 b); [done|]. by rewrite Hv2.
Qed.

Lemma faults_missing_read {A} b off size (f : list Z → M S A) v h :
  0 ≤ b < 2 ^ 32 → v !! b = None → faults (bc_read b off size f) v h Panic.
Proof.
  intros Hr Hb s Hwf Hv Hh. unfold bc_read. mstep.
  by rewrite lock_block_missing by (by rewrite ?Hv).
Qed.

Lemma faults_held_read {A} b off size (f : list Z → M S A) v h :
  b ∈ h → faults (bc_read b off size f) v h Deadlock.
Proof.
  intros Hb s Hwf Hv Hh. unfold bc_read. mstep.
  by rewrite lock_block_held by (by rewrite ?Hh).
Qed.
Lemma faults_modify {A} b off size (f : list Z → M S (A * list Z)) v h blk e :
  v !! b = Some blk → b ∉ h → (base.size h < BLOCK_CACHE_SIZE)%nat →
  (off + Nat.max 1 size ≤ BLOCK_SZ)%nat →
  faults (f (slice off size blk)) v ({[b]} ∪ h) e →
  faults (bc_modify b off size f) v h e.
Proof.
  intros Hb Hnh Hcap Hsz Hf s Hwf Hv Hh. subst v h.
  destruct (lock_block_ok s b) as (s1 & E1 & Hwf1 & Hv1 & Hh1); [by eauto..|].
  unfold bc_modify. mstep. rewrite E1.
  rewrite (read_bytes_ok s1 b off size blk) by (first [done|congruence|set_solver]).
  by rewrite Hf.
Qed.

Lemma runs_sync_all v : runs (S:=S) sync_all v ∅ tt v.
Proof.
  intros s Hwf Hv Hh. destruct (sync_all_ok s) as (s' & E & ? & ? & ? & ?); [done..|].
  exists s'. rewrite H0. done.
Qed.

(** ** What is on the device *)

Lemma settles_runs {A} (m : M S A) v h a v' : settles m v h a v' → runs m v h a v'.
Proof. intros Hm s Hwf Hv Hh. destruct (Hm s Hwf Hv Hh) as (s' & ? & ? & ? & ? & _). by exists s'. Qed.

Lemma settles_stays {A} (m : M S A) v h a v' : settles m v h a v' → stays m v h a v'.
Proof. intros Hm s Hwf Hv Hh _. by apply Hm. Qed.

(** The last writes are those of the second part .. *)
Lemma settles_after {A B} (m : M S A) (k : A → M S B) v h a v1 b v2 :
  runs m v h a v1 → settles (k a) v1 h b v2 → settles (m ≫= k) v h b v2.
Proof.
  intros Hm Hk s Hwf Hv Hh. destruct (Hm s Hwf Hv Hh) as (s1 & E & ? & ? & ?).
  destruct (Hk s1) as (s2 & E2 & ?); [done..|]. exists s2. split; [|done]. unfold mbind, M_bind. by rewrite E.
Qed.

(** .. or those of the first, and the second part leaves nothing behind. *)
Lemma settles_then {A B} (m : M S A) (k : A → M S B) v h a v1 b v2 :
  settles m v h a v1 → stays (k a) v1 h b v2 → settles (m ≫= k) v h b v2.
Proof.
  intros Hm Hk s Hwf Hv Hh. destruct (Hm s Hwf Hv Hh) as (s1 & E & ? & ? & ? & ?).
  destruct (Hk s1) as (s2 & E2 & ?); [done..|]. exists s2. split; [|done]. unfold mbind, M_bind. by rewrite E.
Qed.

Lemma stays_ret {A} v h (a : A) : stays (S:=S) (mret a) v h a v.
Proof. intros s ????. by exists s. Qed.

Lemma stays_lift {A} v h (r : result A) a : r = Ok a → stays (S:=S) (lift r) v h a v.
Proof. intros -> s ????. by exists s. Qed.

Lemma stays_bind {A B} (m : M S A) (k : A → M S B) v h a v1 b v2 :
  stays m v h a v1 → stays (k a) v1 h b v2 → stays (m ≫= k) v h b v2.
Proof.
  intros Hm Hk s Hwf Hv Hh Hd. destruct (Hm s Hwf Hv Hh Hd) as (s1 & E & ? & ? & ? & ?).
  destruct (Hk s1) as (s2 & E2 & ?); [done..|]. exists s2. split; [|done]. unfold mbind, M_bind. by rewrite E.
Qed.

Lemma settles_sync_all v : settles (S:=S) sync_all v ∅ tt v.
Proof.
  intros s Hwf Hv Hh. destruct (sync_all_ok s) as (s' & E & ? & ? & ? & ?); [done..|].
  exists s'. rewrite H0. done.
Qed.

(** Code that ends with [block_cache_sync_all]. *)
Lemma settles_synced {A B} (m : M S A) (f : A → B) v a v1 :
  runs m v ∅ a v1 → settles (a ← m; sync_all;; mret (f a)) v ∅ (f a) v1.
Proof.
  intros Hm. eapply settles_after; [exact Hm|]. eapply settles_then; [apply settles_sync_all|apply stays_ret].
Qed.
End rules.
