(* ===== verification/BlockCache.v ===== *)
(** * The block cache (easy-fs/src/block_dev.rs, easy-fs/src/block_cache.rs)

    The [BlockDevice] trait with the behaviour easy-fs relies on, the cache of
    one block ([BlockCache]), and the manager with its bounded queue of shared
    caches ([BlockCacheManager]).  A queue slot holds the block id, the cache,
    the strong count of its [Arc] (1 when only the queue holds it) and whether
    its [spin::Mutex] is locked.  A cache leaves the queue only when its strong
    count is 1, so every live cache is in the queue and the block id identifies
    it.  The last part shows that the cache implements [BlockStore]: eviction,
    write-back and synchronisation are invisible to clients. *)

From S2P Require Import Prelude Bytes BlockStore.

(** ** Block devices *)

(** [trait BlockDevice]; [dev_view] is the ghost contents of the device and
    [dev_wf] its invariant. *)
Class BlockDevice (D : Type) := {
  read_block : D → Z → result (list Z);
  write_block : D → Z → list Z → result D;
  dev_view : D → gmap Z (list Z);
  dev_wf : D → Prop;
}.

Class BlockDeviceLaws (D : Type) `{BlockDevice D} := {
  dev_view_block d b blk :
    dev_wf d → dev_view d !! b = Some blk → length blk = BLOCK_SZ ∧ bytes blk;
  read_block_ok d b blk : dev_wf d → dev_view d !! b = Some blk → read_block d b = Ok blk;
  read_block_missing d b :
    dev_wf d → 0 ≤ b < 2 ^ 32 → dev_view d !! b = None → read_block d b = Fail Panic;
  write_block_ok d b blk :
    dev_wf d → is_Some (dev_view d !! b) → length blk = BLOCK_SZ → bytes blk →
    ∃ d', write_block d b blk = Ok d' ∧ dev_view d' = <[b := blk]> (dev_view d) ∧ dev_wf d';
}.

(** ** The cache of one block *)

Record BlockCache := mkBlockCache {
  cache : list Z;
  block_id : Z;
  modified : bool;
}.

Section cache.
Context {D : Type} `{BlockDevice D}.

Definition BlockCache_new (d : D) (id : Z) : result BlockCache :=
  blk ← read_block d id;
  mret {| cache := blk; block_id := id; modified := false |}.

Definition sync (bc : BlockCache) (d : D) : result (BlockCache * D) :=
  if modified bc then
    d' ← write_block d (block_id bc) (cache bc);
    mret ({| cache := cache bc; block_id := block_id bc; modified := false |}, d')
  else mret (bc, d).

(** ** The manager *)

Record slot := mkSlot {
  slot_id : Z;
  slot_cache : BlockCache;
  strong_count : nat;
  locked : bool;
}.

Record CacheState := mkCacheState {
  device : D;
  queue : list slot;
}.

Definition find_slot (b : Z) (q : list slot) : option slot :=
  snd <$> list_find (λ e, slot_id e = b) q.

Definition alter_slot (b : Z) (f : slot → slot) (q : list slot) : list slot :=
  match list_find (λ e, slot_id e = b) q with
  | Some (i, _) => alter f i q
  | None => q
  end.

Definition clone_arc (e : slot) : slot :=
  mkSlot (slot_id e) (slot_cache e) (S (strong_count e)) (locked e).

(** Substitution: the first slot from the front that nobody else holds is
    drained, and dropping it writes it back. *)
Definition evict (s : CacheState) : result CacheState :=
  match list_find (λ e, strong_count e = 1%nat) (queue s) with
  | Some (i, e) =>
      '(_, d') ← sync (slot_cache e) (device s);
      mret {| device := d'; queue := delete i (queue s) |}
  | None => Fail Panic
  end.

Definition get_block_cache (b : Z) (s : CacheState) : result CacheState :=
  match find_slot b (queue s) with
  | Some _ => mret {| device := device s; queue := alter_slot b clone_arc (queue s) |}
  | None =>
      s1 ← (if (length (queue s) =? BLOCK_CACHE_SIZE)%nat then evict s else mret s);
      bc ← BlockCache_new (device s1) b;
      mret {| device := device s1; queue := queue s1 ++ [mkSlot b bc 2 false] |}
  end.

(** [.lock()] on the cache just obtained. *)
Definition lock_slot (b : Z) (s : CacheState) : result CacheState :=
  match find_slot b (queue s) with
  | Some e =>
      if locked e then Fail Deadlock
      else mret {| device := device s;
                   queue := alter_slot b (λ e, mkSlot (slot_id e) (slot_cache e)
                                                 (strong_count e) true) (queue s) |}
  | None => Fail Panic
  end.

(** The guard and the clone of the [Arc] are dropped. *)
Definition drop_guard (b : Z) (s : CacheState) : CacheState :=
  {| device := device s;
     queue := alter_slot b (λ e, mkSlot (slot_id e) (slot_cache e)
                                   (pred (strong_count e)) false) (queue s) |}.

(** [&self.cache[offset]]: indexing panics behind the last byte. *)
Definition addr_of_offset (bc : BlockCache) (off : nat) : result nat :=
  assert_ (off <? length (cache bc))%nat;;
  mret off.

(** [get_ref] and [get_mut] of [BlockCache]: the size check, the address, then the
    bytes. *)
Definition get_ref (bc : BlockCache) (off size : nat) : result (list Z) :=
  assert_ (off + size <=? BLOCK_SZ)%nat;;
  addr ← addr_of_offset bc off;
  mret (slice addr size (cache bc)).

Definition get_mut (bc : BlockCache) (off size : nat) (new : list Z) : result BlockCache :=
  assert_ (off + size <=? BLOCK_SZ)%nat;;
  addr ← addr_of_offset bc off;
  mret {| cache := splice addr new (cache bc); block_id := block_id bc; modified := true |}.

Definition slot_ref (b : Z) (off size : nat) (s : CacheState) : result (list Z) :=
  match find_slot b (queue s) with
  | Some e => get_ref (slot_cache e) off size
  | None => Fail Panic
  end.

Definition slot_mut (b : Z) (off : nat) (new : list Z) (s : CacheState) : result CacheState :=
  match find_slot b (queue s) with
  | Some e =>
      bc ← get_mut (slot_cache e) off (length new) new;
      mret {| device := device s;
              queue := alter_slot b (λ e, mkSlot (slot_id e) bc
                                            (strong_count e) (locked e)) (queue s) |}
  | None => Fail Panic
  end.

(** [block_cache_sync_all]: the caches in queue order, each locked and
    written back if it was modified. *)
Fixpoint sync_slots (q : list slot) (d : D) : result (list slot * D) :=
  match q with
  | [] => mret ([], d)
  | e :: q =>
      if locked e then Fail Deadlock else
      '(bc, d1) ← sync (slot_cache e) d;
      '(q', d2) ← sync_slots q d1;
      mret (mkSlot (slot_id e) bc (strong_count e) (locked e) :: q', d2)
  end.

Definition block_cache_sync_all (s : CacheState) : result CacheState :=
  '(q, d) ← sync_slots (queue s) (device s);
  mret {| device := d; queue := q |}.

(** ** Ghost state and well-formedness *)

Definition overlay (q : list slot) (m : gmap Z (list Z)) : gmap Z (list Z) :=
  foldr (λ e m, <[slot_id e := cache (slot_cache e)]> m) m q.

Definition cache_view (s : CacheState) : gmap Z (list Z) :=
  overlay (queue s) (dev_view (device s)).

Definition cache_held (s : CacheState) : gset Z :=
  list_to_set (slot_id <$> filter (λ e, locked e = true) (queue s)).

Definition slot_ok (d : D) (e : slot) : Prop :=
  block_id (slot_cache e) = slot_id e ∧
  length (cache (slot_cache e)) = BLOCK_SZ ∧ bytes (cache (slot_cache e)) ∧
  is_Some (dev_view d !! slot_id e) ∧
  (modified (slot_cache e) = false → dev_view d !! slot_id e = Some (cache (slot_cache e))) ∧
  strong_count e = (if locked e then 2 else 1)%nat.

Definition cache_wf (s : CacheState) : Prop :=
  NoDup (slot_id <$> queue s) ∧
  (length (queue s) ≤ BLOCK_CACHE_SIZE)%nat ∧
  Forall (slot_ok (device s)) (queue s) ∧
  dev_wf (device s).
End cache.
Arguments CacheState : clear implicits.
Arguments mkCacheState {D} _ _.

(** ** Lemmas on the queue *)

Section queue.
Context {D : Type} `{BlockDevice D}.
Implicit Types (q : list slot) (e : slot) (b : Z).

Lemma find_slot_cons b e q :
  find_slot b (e :: q) = if decide (slot_id e = b) then Some e else find_slot b q.
Proof.
  unfold find_slot. cbn [list_find]. case_decide; [done|].
  by destruct (list_find _ q) as [[]|].
Qed.

Lemma alter_slot_cons b f e q :
  alter_slot b f (e :: q) =
    if decide (slot_id e = b) then f e :: q else e :: alter_slot b f q.
Proof.
  unfold alter_slot. cbn [list_find]. case_decide; [done|].
  by destruct (list_find _ q) as [[]|].
Qed.

Lemma find_slot_app b q1 q2 :
  find_slot b (q1 ++ q2) =
    match find_slot b q1 with Some e => Some e | None => find_slot b q2 end.
Proof.
  induction q1 as [|e q1 IH]; simpl; [done|].
  rewrite !find_slot_cons. by case_decide.
Qed.

Lemma find_slot_Some b e q : find_slot b q = Some e → e ∈ q ∧ slot_id e = b.
Proof.
  unfold find_slot. rewrite fmap_Some. intros ([i x] & Hf & ->).
  apply list_find_Some in Hf as (? & ? & _). split; [|done].
  apply list_elem_of_lookup. eauto.
Qed.

Lemma find_slot_None b q : find_slot b q = None ↔ b ∉ slot_id <$> q.
Proof.
  induction q as [|e q IH]; [unfold find_slot; set_solver|].
  rewrite find_slot_cons, fmap_cons, not_elem_of_cons, <- IH.
  case_decide; naive_solver.
Qed.

Lemma find_slot_NoDup e q :
  NoDup (slot_id <$> q) → e ∈ q → find_slot (slot_id e) q = Some e.
Proof.
  induction q as [|x q IH]; [set_solver|].
  rewrite fmap_cons, NoDup_cons, find_slot_cons. intros [Hx Hnd] Hin.
  case_decide as Heq; [|set_solver].
  apply elem_of_cons in Hin as [->|Hin]; [done|].
  destruct Hx. rewrite Heq. by apply list_elem_of_fmap_2.
Qed.

Lemma alter_slot_ids b f q :
  (∀ e, slot_id (f e) = slot_id e) → slot_id <$> alter_slot b f q = slot_id <$> q.
Proof.
  intros Hf. induction q as [|e q IH]; [done|]. rewrite alter_slot_cons.
  case_decide; rewrite !fmap_cons; by f_equal.
Qed.

Lemma alter_slot_length b f q : length (alter_slot b f q) = length q.
Proof.
  induction q as [|e q IH]; [done|]. rewrite alter_slot_cons.
  case_decide; simpl; by f_equal.
Qed.

Lemma find_alter_slot b b' f q :
  (∀ e, slot_id (f e) = slot_id e) →
  find_slot b' (alter_slot b f q) =
    if decide (b = b') then f <$> find_slot b q else find_slot b' q.
Proof.
  intros Hf. induction q as [|e q IH].
  { unfold alter_slot, find_slot. simpl. by case_decide. }
  rewrite alter_slot_cons.
  destruct (decide (slot_id e = b)) as [<-|He]; rewrite !find_slot_cons.
  - rewrite Hf. repeat case_decide; naive_solver.
  - rewrite IH. repeat case_decide; naive_solver.
Qed.

Lemma alter_slot_Forall b f q (P : slot → Prop) :
  Forall P q → (∀ e, find_slot b q = Some e → P (f e)) → Forall P (alter_slot b f q).
Proof.
  intros HP Hf. induction HP as [|e q He Hq IH]; [done|].
  rewrite alter_slot_cons. case_decide as Hd.
  - constructor; [|done]. apply Hf. rewrite find_slot_cons. by rewrite decide_True.
  - constructor; [done|]. apply IH. intros x Hx. apply Hf.
    rewrite find_slot_cons. by rewrite decide_False.
Qed.

Lemma alter_slot_compose b f g q :
  (∀ e, slot_id (f e) = slot_id e) →
  alter_slot b g (alter_slot b f q) = alter_slot b (g ∘ f) q.
Proof.
  intros Hf. induction q as [|e q IH]; [done|]. rewrite !alter_slot_cons.
  case_decide as Hd; rewrite alter_slot_cons.
  - by rewrite decide_True by (by rewrite Hf).
  - rewrite decide_False by done. by rewrite IH.
Qed.

Lemma alter_slot_app b f q e :
  find_slot b q = None → slot_id e = b → alter_slot b f (q ++ [e]) = q ++ [f e].
Proof.
  intros Hq He. induction q as [|x q IH]; simpl; rewrite alter_slot_cons.
  - by rewrite decide_True.
  - rewrite find_slot_cons in Hq. case_decide; [done|]. by rewrite IH.
Qed.

Lemma find_slot_delete b i e q :
  NoDup (slot_id <$> q) → q !! i = Some e →
  find_slot b (delete i q) = if decide (slot_id e = b) then None else find_slot b q.
Proof.
  revert i. induction q as [|x q IH]; intros i; [done|].
  rewrite fmap_cons, NoDup_cons. intros [Hx Hnd] Hi. destruct i as [|i].
  - injection Hi as ->. change (delete 0%nat (e :: q)) with q. rewrite find_slot_cons.
    case_decide as Hd; [|done]. apply find_slot_None. by rewrite <- Hd.
  - simpl in Hi. change (delete (S i) (x :: q)) with (x :: delete i q).
    rewrite !find_slot_cons, (IH i) by done.
    repeat case_decide; try done. destruct Hx. subst.
    apply list_elem_of_fmap. exists e. split; [congruence|].
    apply list_elem_of_lookup. eauto.
Qed.

Lemma overlay_lookup q m b :
  overlay q m !! b =
    match find_slot b q with Some e => Some (cache (slot_cache e)) | None => m !! b end.
Proof.
  induction q as [|e q IH]; [done|]. cbn [overlay foldr].
  change (foldr _ m q) with (overlay q m). rewrite find_slot_cons.
  case_decide as Hd; subst; [by rewrite lookup_insert_eq|by rewrite lookup_insert_ne].
Qed.

Lemma cache_held_spec (s : CacheState D) b :
  NoDup (slot_id <$> queue s) →
  b ∈ cache_held s ↔ ∃ e, find_slot b (queue s) = Some e ∧ locked e = true.
Proof.
  intros Hnd. unfold cache_held. rewrite elem_of_list_to_set, list_elem_of_fmap.
  setoid_rewrite list_elem_of_filter. split.
  - intros (e & -> & ? & ?). exists e. split; [by apply find_slot_NoDup|done].
  - intros (e & Hf & ?). apply find_slot_Some in Hf as [? <-]. eauto.
Qed.

Lemma cache_view_lookup (s : CacheState D) b :
  cache_view s !! b =
    match find_slot b (queue s) with
    | Some e => Some (cache (slot_cache e))
    | None => dev_view (device s) !! b
    end.
Proof. apply overlay_lookup. Qed.

(** Two queues that find the same blocks locked hold the same set. *)
Lemma cache_held_ext (s s' : CacheState D) :
  NoDup (slot_id <$> queue s) → NoDup (slot_id <$> queue s') →
  (∀ b, locked <$> find_slot b (queue s) = Some true ↔
        locked <$> find_slot b (queue s') = Some true) →
  cache_held s = cache_held s'.
Proof.
  intros H1 H2 Hext. apply set_eq. intros b. rewrite !cache_held_spec by done.
  specialize (Hext b). rewrite !fmap_Some in Hext. naive_solver.
Qed.
End queue.

(** ** The cache operations *)

Section operations.
Context {D : Type} `{HD : BlockDevice D, HDL : !BlockDeviceLaws D}.
Implicit Types (s : CacheState D) (e : slot) (b : Z).

Lemma wf_slot s b e :
  cache_wf s → find_slot b (queue s) = Some e → slot_ok (device s) e ∧ slot_id e = b.
Proof.
  intros (_ & _ & Hok & _) Hf. apply find_slot_Some in Hf as [Hin <-].
  split; [|done]. by eapply Forall_forall in Hok.
Qed.

(** Writing a cache back leaves the device with the cached bytes. *)
Lemma sync_ok d e :
  dev_wf d → slot_ok d e →
  ∃ bc d', sync (slot_cache e) d = Ok (bc, d') ∧
    dev_view d' = <[slot_id e := cache (slot_cache e)]> (dev_view d) ∧ dev_wf d' ∧
    bc = {| cache := cache (slot_cache e); block_id := slot_id e; modified := false |}.
Proof.
  intros Hdwf (Hid & Hlen & Hby & Hdev & Hclean & _). unfold sync.
  destruct (modified (slot_cache e)) eqn:Hm.
  - destruct (write_block_ok d (slot_id e) (cache (slot_cache e)))
      as (d' & Ew & Ed & ?); [done..|].
    rewrite Hid. mstep. rewrite Ew. eauto 10.
  - eexists _, _. split; [done|]. split; [by rewrite insert_id by auto|].
    split; [done|]. destruct (slot_cache e); simpl in *. by subst.
Qed.

(** A synced slot does not disturb the well-formedness of another one. *)
Lemma slot_ok_insert d d' b blk e :
  dev_view d' = <[b := blk]> (dev_view d) → slot_id e ≠ b →
  slot_ok d e → slot_ok d' e.
Proof.
  intros Hd Hne (?&?&?&?&?&?). unfold slot_ok. rewrite Hd, lookup_insert_ne by done. done.
Qed.

Lemma held_full s :
  cache_wf s → Forall (λ e, strong_count e ≠ 1%nat) (queue s) →
  size (cache_held s) = length (queue s).
Proof.
  intros (Hnd & _ & Hok & _) Hall. unfold cache_held.
  rewrite filter_all.
  - rewrite size_list_to_set by done. by rewrite length_fmap.
  - intros e Hin. eapply Forall_forall in Hok; [|done].
    eapply Forall_forall in Hall; [|done]. simpl in Hall.
    destruct Hok as (_&_&_&_&_&Hs). destruct (locked e); done.
Qed.

Lemma evict_ok s :
  cache_wf s → (size (cache_held s) < length (queue s))%nat →
  ∃ s', evict s = Ok s' ∧ cache_wf s' ∧ cache_view s' = cache_view s ∧
    cache_held s' = cache_held s ∧ S (length (queue s')) = length (queue s) ∧
    (∀ b, find_slot b (queue s) = None → find_slot b (queue s') = None).
Proof.
  intros Hwf Hheld. pose proof Hwf as (Hnd & Hlen & Hok & Hdwf). unfold evict.
  destruct (list_find _ (queue s)) as [[i e]|] eqn:Hfind; last first.
  { apply list_find_None in Hfind. rewrite (held_full s) in Hheld; [lia|done|done]. }
  apply list_find_Some in Hfind as (Hi & Hs1 & _).
  assert (Hoke : slot_ok (device s) e) by (by eapply Forall_lookup_1 in Hok).
  destruct (sync_ok (device s) e Hdwf Hoke) as (bc & d' & E & Hd' & Hdwf' & _).
  mstep. rewrite E. eexists. split; [done|].
  assert (Hfs := λ b, find_slot_delete b i e (queue s) Hnd Hi).
  assert (Hperm : queue s ≡ₚ e :: delete i (queue s)) by (by apply delete_Permutation).
  assert (Hnd' : NoDup (slot_id <$> delete i (queue s))).
  { rewrite Hperm, fmap_cons, NoDup_cons in Hnd. naive_solver. }
  split_and!; simpl.
  - split_and!; simpl; [done|rewrite length_delete by eauto; lia| |done].
    rewrite Hperm in Hok, Hnd. rewrite fmap_cons, NoDup_cons in Hnd.
    apply Forall_cons in Hok as [_ Hok]. destruct Hnd as [Hni _].
    apply Forall_forall. intros x Hx. eapply slot_ok_insert; [done| |].
    + intros Heq. destruct Hni. rewrite <- Heq. by apply list_elem_of_fmap_2.
    + by eapply Forall_forall in Hok.
  - apply map_eq. intros b. rewrite !cache_view_lookup. simpl. rewrite Hfs, Hd'.
    case_decide as Hb; subst.
    + rewrite lookup_insert_eq, find_slot_NoDup; [done|done|].
      apply list_elem_of_lookup. eauto.
    + by rewrite lookup_insert_ne.
  - apply cache_held_ext; [done..|]. intros b. simpl. rewrite Hfs.
    case_decide as Hb; [|done]. subst b. split; [done|].
    rewrite find_slot_NoDup by (done || (apply list_elem_of_lookup; eauto)).
    simpl. intros [= Hl]. destruct Hoke as (_&_&_&_&_&Hs). rewrite Hl in Hs. lia.
  - rewrite length_delete by eauto. apply lookup_lt_Some in Hi. lia.
  - intros b Hb. rewrite Hfs. by case_decide.
Qed.

(** Replacing the slot of [b] by an acceptable one with the same id. *)
Lemma alter_ok s b e f :
  cache_wf s → find_slot b (queue s) = Some e → (∀ x, slot_id (f x) = slot_id x) →
  slot_ok (device s) (f e) →
  let s' := mkCacheState (device s) (alter_slot b f (queue s)) in
  cache_wf s' ∧
  cache_view s' = <[b := cache (slot_cache (f e))]> (cache_view s) ∧
  cache_held s' = if locked (f e) then {[b]} ∪ cache_held s else cache_held s ∖ {[b]}.
Proof.
  intros (Hnd & Hlen & Hok & Hdwf) Hfs Hid Hoke s'.
  assert (Hnd' : NoDup (slot_id <$> queue s')) by (simpl; by rewrite alter_slot_ids).
  split_and!.
  - split_and!; simpl; [done|by rewrite alter_slot_length| |done].
    apply alter_slot_Forall; [done|]. intros x Hx. by simplify_eq.
  - apply map_eq. intros b'. rewrite cache_view_lookup. simpl.
    rewrite find_alter_slot by done. destruct (decide (b = b')) as [<-|Hne].
    + rewrite lookup_insert_eq, Hfs. done.
    + by rewrite lookup_insert_ne, cache_view_lookup by done.
  - apply set_eq. intros b'. rewrite cache_held_spec by done. simpl.
    rewrite find_alter_slot by done. pose proof (cache_held_spec s b' Hnd) as Hh.
    destruct (decide (b = b')) as [<-|Hne].
    + rewrite Hfs. clear Hh. simpl. destruct (locked (f e)) eqn:Hl.
      * split; [intros _; by apply elem_of_union_l, elem_of_singleton|eauto].
      * rewrite elem_of_difference, elem_of_singleton. split; [|naive_solver].
        intros (x & ? & ?). congruence.
    + rewrite <- Hh. destruct (locked (f e));
        rewrite ?elem_of_union, ?elem_of_difference, elem_of_singleton; naive_solver.
Qed.

(** [get_block_cache(b, dev).lock()] *)
Definition cache_lock b : M (CacheState D) unit := λ s,
  s1 ← get_block_cache b s; s2 ← lock_slot b s1; Ok (tt, s2).

Lemma cache_lock_hit s b e :
  cache_wf s → find_slot b (queue s) = Some e → locked e = false →
  ∃ s', cache_lock b s = Ok (tt, s') ∧ cache_wf s' ∧ cache_view s' = cache_view s ∧
    cache_held s' = {[b]} ∪ cache_held s.
Proof.
  intros Hwf Hf Hl. unfold cache_lock, get_block_cache, lock_slot. rewrite Hf. mstep.
  simpl. rewrite find_alter_slot by done. rewrite decide_True by done. rewrite Hf.
  simpl. rewrite Hl, alter_slot_compose by done. eexists. split; [done|].
  destruct (wf_slot s b e Hwf Hf) as [Hok _].
  destruct (alter_ok s b e ((λ x, mkSlot (slot_id x) (slot_cache x) (strong_count x) true)
    ∘ clone_arc)) as (? & Hv & Hh); [done..| |].
  { destruct Hok as (?&?&?&?&?&Hs). rewrite Hl in Hs. unfold slot_ok. simpl.
    rewrite Hs. done. }
  split_and!; [done| |done]. rewrite Hv. simpl. apply insert_id.
  by rewrite cache_view_lookup, Hf.
Qed.

Lemma cache_append_ok s b blk :
  cache_wf s → (length (queue s) < BLOCK_CACHE_SIZE)%nat → find_slot b (queue s) = None →
  dev_view (device s) !! b = Some blk →
  let s' := mkCacheState (device s) (queue s ++
    [mkSlot b {| cache := blk; block_id := b; modified := false |} 2 true]) in
  cache_wf s' ∧ cache_view s' = cache_view s ∧ cache_held s' = {[b]} ∪ cache_held s.
Proof.
  intros (Hnd & Hlen & Hok & Hdwf) Hlt Hnone Hdev s'.
  destruct (dev_view_block _ _ _ Hdwf Hdev) as [Hbl Hby].
  assert (Hnd' : NoDup (slot_id <$> queue s')).
  { simpl. rewrite fmap_app. apply NoDup_app. split_and!; [done| |].
    - intros x Hx. apply find_slot_None in Hnone. set_solver.
    - apply NoDup_singleton. }
  assert (Hfs : ∀ b', find_slot b' (queue s') =
    if decide (b = b') then Some (mkSlot b {| cache := blk; block_id := b; modified := false |} 2 true)
    else find_slot b' (queue s)).
  { intros b'. simpl. rewrite find_slot_app, find_slot_cons. simpl.
    destruct (decide (b = b')) as [<-|Hne].
    - by rewrite Hnone.
    - by destruct (find_slot b' (queue s)). }
  split_and!.
  - split_and!; [done|simpl; rewrite length_app; simpl; lia| |done].
    simpl. apply Forall_app. split; [done|]. apply Forall_singleton.
    unfold slot_ok. simpl. rewrite Hdev. eauto 10.
  - apply map_eq. intros b'. rewrite !cache_view_lookup, Hfs. simpl.
    destruct (decide (b = b')) as [<-|Hne]; [by rewrite Hnone|done].
  - apply set_eq. intros b'. rewrite elem_of_union, elem_of_singleton.
    rewrite !cache_held_spec by done. rewrite Hfs.
    destruct (decide (b = b')) as [<-|Hne]; [|naive_solver]. simpl. naive_solver.
Qed.

Lemma cache_lock_miss s b blk :
  cache_wf s → find_slot b (queue s) = None → dev_view (device s) !! b = Some blk →
  (size (cache_held s) < BLOCK_CACHE_SIZE)%nat →
  ∃ s', cache_lock b s = Ok (tt, s') ∧ cache_wf s' ∧ cache_view s' = cache_view s ∧
    cache_held s' = {[b]} ∪ cache_held s.
Proof.
  intros Hwf Hf Hdev Hcap.
  assert (∃ s1, (if (length (queue s) =? BLOCK_CACHE_SIZE)%nat then evict s else mret s)
      = Ok s1 ∧ cache_wf s1 ∧ cache_view s1 = cache_view s ∧ cache_held s1 = cache_held s ∧
      (length (queue s1) < BLOCK_CACHE_SIZE)%nat ∧ find_slot b (queue s1) = None)
    as (s1 & E1 & Hwf1 & Hv1 & Hh1 & Hl1 & Hf1).
  { destruct (Nat.eqb_spec (length (queue s)) BLOCK_CACHE_SIZE) as [Hfull|Hnf].
    - destruct (evict_ok s) as (s1 & ? & ? & ? & ? & ? & Hn); [done|lia|].
      exists s1. split_and!; auto. lia.
    - exists s. destruct Hwf as (? & ? & ? & ?). split_and!; auto; [done|lia]. }
  assert (Hdev1 : dev_view (device s1) !! b = Some blk).
  { pose proof (cache_view_lookup s1 b) as Hl. rewrite Hf1 in Hl.
    rewrite <- Hl, Hv1, cache_view_lookup. by rewrite Hf. }
  unfold cache_lock, get_block_cache, BlockCache_new. rewrite Hf. mstep. rewrite E1.
  rewrite (read_block_ok _ _ _ (proj2 (proj2 (proj2 Hwf1))) Hdev1). unfold lock_slot. simpl.
  rewrite find_slot_app, Hf1, find_slot_cons. simpl.
  rewrite decide_True by done. simpl. rewrite alter_slot_app by done. simpl.
  eexists. split; [done|]. rewrite <- Hv1, <- Hh1. by apply cache_append_ok.
Qed.

Definition clean (e : slot) : slot :=
  mkSlot (slot_id e) {| cache := cache (slot_cache e); block_id := slot_id e; modified := false |}
    (strong_count e) (locked e).

Lemma sync_slots_ok q d :
  dev_wf d →
  NoDup (slot_id <$> q) → Forall (slot_ok d) q → Forall (λ e, locked e = false) q →
  ∃ d', sync_slots q d = Ok (clean <$> q, d') ∧ dev_view d' = overlay q (dev_view d) ∧
    dev_wf d'.
Proof.
  revert d. induction q as [|e q IH]; intros d Hdwf Hnd Hok Hun; [by eexists|].
  rewrite fmap_cons, NoDup_cons in Hnd. destruct Hnd as [He Hnd].
  apply Forall_cons in Hok as [Hoke Hok]. apply Forall_cons in Hun as [Hune Hun].
  destruct (sync_ok d e Hdwf Hoke) as (bc & d1 & E & Hd1 & Hdwf1 & Hbc).
  destruct (IH d1) as (d2 & E2 & Hd2 & Hdwf2); [done|done| |done|].
  { apply Forall_forall. intros x Hx. eapply slot_ok_insert; [done| |].
    - intros Heq. destruct He. rewrite <- Heq. by apply list_elem_of_fmap_2.
    - by eapply Forall_forall in Hok. }
  exists d2. cbn [sync_slots]. rewrite Hune. mstep. rewrite E, E2, Hbc. split.
  { unfold clean at 2. by rewrite fmap_cons, Hune. }
  split; [|done]. rewrite Hd2. apply map_eq. intros b. rewrite !overlay_lookup, find_slot_cons, Hd1.
  apply find_slot_None in He. case_decide as Hb.
  - subst. by rewrite He, lookup_insert_eq.
  - by rewrite lookup_insert_ne.
Qed.

Lemma find_slot_clean b q : find_slot b (clean <$> q) = clean <$> find_slot b q.
Proof.
  induction q as [|e q IH]; [done|]. rewrite fmap_cons, !find_slot_cons. simpl.
  by case_decide.
Qed.

Lemma sync_all_cache s :
  cache_wf s → cache_held s = ∅ →
  ∃ s', block_cache_sync_all s = Ok s' ∧ cache_wf s' ∧ cache_view s' = cache_view s ∧
    cache_held s' = ∅ ∧ dev_view (device s') = cache_view s'.
Proof.
  intros (Hnd & Hlen & Hok & Hdwf) Hh.
  assert (Hun : Forall (λ e, locked e = false) (queue s)).
  { apply Forall_forall. intros e Hin. destruct (locked e) eqn:Hl; [|done].
    assert (slot_id e ∈ cache_held s) as Hx.
    { apply cache_held_spec; [done|]. exists e. split; [by apply find_slot_NoDup|done]. }
    rewrite Hh in Hx. set_solver. }
  destruct (sync_slots_ok (queue s) (device s)) as (d' & E & Hd' & Hdwf'); [done..|].
  unfold block_cache_sync_all. mstep. rewrite E. eexists. split; [done|].
  assert (Hids : slot_id <$> (clean <$> queue s) = slot_id <$> queue s).
  { rewrite <- list_fmap_compose. done. }
  assert (Hv : cache_view (mkCacheState d' (clean <$> queue s)) = cache_view s).
  { apply map_eq. intros b. rewrite !cache_view_lookup. simpl.
    rewrite find_slot_clean, Hd', overlay_lookup. by destruct (find_slot b (queue s)). }
  split_and!; [|done| |by rewrite Hv].
  - split_and!; simpl; [by rewrite Hids|by rewrite length_fmap| |done].
    apply Forall_fmap, Forall_forall. intros e Hin.
    assert (dev_view d' !! slot_id e = Some (cache (slot_cache e))) as Hdev.
    { rewrite Hd', overlay_lookup, find_slot_NoDup by done. done. }
    eapply Forall_forall in Hok; [|done]. destruct Hok as (?&?&?&?&?&?).
    unfold slot_ok. simpl. rewrite Hdev. eauto 10.
  - rewrite <- Hh. apply cache_held_ext; simpl; [by rewrite Hids|done|].
    intros b. rewrite find_slot_clean. by destruct (find_slot b (queue s)).
Qed.

Lemma slot_ref_ok s b off n blk :
  cache_wf s → b ∈ cache_held s → cache_view s !! b = Some blk →
  slot_ref b off n s =
    if decide (fits_block off n) then Ok (slice off n blk) else Fail Panic.
Proof.
  intros Hwf Hh Hv. pose proof Hwf as (Hnd & _). apply cache_held_spec in Hh as (e & He & _); [|done].
  rewrite cache_view_lookup, He in Hv. simplify_eq. destruct (wf_slot s b e Hwf He) as [(_ & Hlen & _) _].
  unfold slot_ref, get_ref, addr_of_offset, assert_, fits_block. rewrite He. mstep. rewrite Hlen.
  destruct (Nat.leb_spec (off + n) BLOCK_SZ), (Nat.ltb_spec off BLOCK_SZ); case_decide; (done || lia).
Qed.

Lemma slot_mut_ok s b off new blk :
  cache_wf s → b ∈ cache_held s → cache_view s !! b = Some blk →
  fits_block off (length new) → bytes new →
  ∃ s', slot_mut b off new s = Ok s' ∧ cache_wf s' ∧
    cache_view s' = <[b := splice off new blk]> (cache_view s) ∧
    cache_held s' = cache_held s.
Proof.
  intros Hwf Hh Hv Hle Hby. pose proof Hwf as (Hnd & _).
  pose proof Hh as Hh'. apply cache_held_spec in Hh' as (e & He & Hl); [|done].
  rewrite cache_view_lookup, He in Hv. injection Hv as <-.
  destruct (wf_slot s b e Hwf He) as [(Hid&Hlen&Hbe&Hdev&Hclean&Hs) Hslot].
  unfold fits_block in Hle. unfold slot_mut, get_mut, addr_of_offset, assert_. rewrite He. mstep. rewrite Hlen.
  rewrite (proj2 (Nat.leb_le _ _)), (proj2 (Nat.ltb_lt _ _)) by lia. eexists. split; [done|].
  edestruct (alter_ok s b e (λ x, mkSlot (slot_id x)
    {| cache := splice off new (cache (slot_cache e)); block_id := block_id (slot_cache e);
       modified := true |} (strong_count x) (locked x))) as (Hwf' & Hv' & Hh'); [done..| |].
  { unfold slot_ok. simpl. rewrite length_splice by lia.
    split_and!; [done|done|by apply bytes_splice|done|done|done]. }
  split_and!; [done|exact Hv'|]. rewrite Hh'. simpl. rewrite Hl. set_solver.
Qed.

Lemma drop_guard_ok s b :
  cache_wf s → b ∈ cache_held s →
  cache_wf (drop_guard b s) ∧ cache_view (drop_guard b s) = cache_view s ∧
  cache_held (drop_guard b s) = cache_held s ∖ {[b]}.
Proof.
  intros Hwf Hh. pose proof Hwf as (Hnd & _).
  pose proof Hh as Hh'. apply cache_held_spec in Hh' as (e & He & Hl); [|done].
  destruct (wf_slot s b e Hwf He) as [(Hid&Hlen&Hbe&Hdev&Hclean&Hs) Hslot].
  edestruct (alter_ok s b e (λ x, mkSlot (slot_id x) (slot_cache x)
    (pred (strong_count x)) false)) as (Hwf' & Hv' & Hh'); [done..| |].
  { unfold slot_ok. simpl. rewrite Hs, Hl. done. }
  split_and!; [done| |exact Hh']. etransitivity; [exact Hv'|]. simpl.
  apply insert_id. by rewrite cache_view_lookup, He.
Qed.
End operations.

(** ** The cache implements the store interface *)

#[export] Instance cache_store {D} `{BlockDevice D} : BlockStore (CacheState D) := {
  lock_block := cache_lock;
  read_bytes := slot_ref;
  write_bytes := slot_mut;
  unlock_block := drop_guard;
  sync_all := λ s, s' ← block_cache_sync_all s; Ok (tt, s');
  view := cache_view;
  held := cache_held;
  store_wf := cache_wf;
  durable := λ s, dev_view (device s) = cache_view s;
}.

#[export] Instance cache_store_laws {D} `{BlockDevice D, !BlockDeviceLaws D} :
  BlockStoreLaws (CacheState D).
Proof.
  split; simpl.
  - intros s b blk Hwf Hv. rewrite cache_view_lookup in Hv.
    destruct (find_slot b (queue s)) as [e|] eqn:He.
    + destruct (wf_slot s b e Hwf He) as [(?&?&?&?&?&?) _]. by simplify_eq.
    + eapply dev_view_block; [apply Hwf|done].
  - intros s b Hwf [blk Hv] Hh Hcap. rewrite cache_view_lookup in Hv.
    destruct (find_slot b (queue s)) as [e|] eqn:He.
    + apply (cache_lock_hit s b e); [done..|]. destruct (locked e) eqn:Hl; [|done].
      destruct Hh. apply cache_held_spec; [apply Hwf|eauto].
    + by apply (cache_lock_miss s b blk).
  - intros s b Hwf Hh. pose proof Hwf as (Hnd & _).
    apply cache_held_spec in Hh as (e & He & Hl); [|done].
    unfold cache_lock, get_block_cache, lock_slot. rewrite He. mstep. simpl.
    rewrite find_alter_slot, decide_True, He by done. simpl. by rewrite Hl.
  - intros s b Hwf Hr Hv. rewrite cache_view_lookup in Hv.
    destruct (find_slot b (queue s)) as [e|] eqn:He; [done|].
    unfold cache_lock, get_block_cache, BlockCache_new. rewrite He. mstep.
    destruct (Nat.eqb_spec (length (queue s)) BLOCK_CACHE_SIZE) as [Hfull|_];
      [|by rewrite read_block_missing by (done || apply Hwf)].
    destruct (decide (size (cache_held s) < length (queue s))%nat) as [Hlt|Hge].
    + destruct (evict_ok s) as (s1 & E & Hwf1 & Hv1 & _ & _ & Hn); [done..|].
      rewrite E, read_block_missing; [done|apply Hwf1|done|].
      pose proof (cache_view_lookup s1 b) as Hl. rewrite (Hn b He) in Hl.
      rewrite <- Hl, Hv1, cache_view_lookup. by rewrite He.
    + unfold evict. destruct (list_find _ (queue s)) as [[i e]|] eqn:Hfind; [|done].
      exfalso. apply Hge. apply list_find_Some in Hfind as (Hi & Hs1 & _).
      unfold cache_held. rewrite size_list_to_set.
      * rewrite length_fmap. apply length_filter_lt with e.
        { apply list_elem_of_lookup. eauto. }
        intros Hl. destruct Hwf as (_ & _ & Hok & _).
        eapply Forall_lookup_1 in Hok as (_&_&_&_&_&Hs); [|done]. rewrite Hl in Hs. lia.
      * destruct Hwf as (Hnd & _). eapply sublist_NoDup; [exact Hnd|].
        apply fmap_sublist, sublist_filter.
  - intros s b off size blk Hwf Hh Hv Hle. rewrite (slot_ref_ok s b off size blk) by done.
    by rewrite decide_True.
  - intros s b off size Hwf Hh Hgt. pose proof Hwf as (Hnd & _).
    pose proof Hh as Hh'. apply cache_held_spec in Hh' as (e & He & _); [|done].
    rewrite (slot_ref_ok s b off size (cache (slot_cache e))); [|done..|].
    + by rewrite decide_False.
    + by rewrite cache_view_lookup, He.
  - intros. by apply slot_mut_ok.
  - intros. by apply drop_guard_ok.
  - intros s Hwf Hh. destruct (sync_all_cache s) as (s' & E & ?); [done..|].
    exists s'. mstep. by rewrite E.
Qed.

(** The cache before the first access. *)
Lemma fresh_cache_wf {D} `{BlockDevice D} (d : D) :
  dev_wf d → cache_wf (mkCacheState d []) ∧ cache_held (mkCacheState d []) = ∅.
Proof.
  intros Hd. split; [|done]. split_and!; [constructor|simpl; lia|constructor|exact Hd].
Qed.
