(* ===== verification/BlockFile.v ===== *)
(** * The disk image behind easy-fs (easy-fs-fuse/src/main.rs)

    [BlockFile] is the block device of the image packer: block [b] is the 512
    bytes of the host file at offset [b * 512].  It discharges the laws of
    [BlockDevice].  The last part states what clients of the block cache see:
    any sequence of reads, writes and synchronisations gives the results it
    would give on a plain map of blocks, and a final synchronisation leaves
    exactly that map on the device. *)

From S2P Require Import Prelude Bytes BlockStore BlockCache.

(** The contents of the host file. *)
Record BlockFile := mkBlockFile { file : list Z }.

(** [Seek::seek] and [Read::read] on a regular file: at most 512 bytes, fewer at
    the end of the file. *)
Definition BlockFile_read_block (d : BlockFile) (block_id : Z) : result (list Z) :=
  let buf := slice (Z.to_nat (block_id *ᵤ 512)) BLOCK_SZ (file d) in
  assert_ (length buf =? BLOCK_SZ)%nat;;
  mret buf.

(** [Write::write] overwrites, and extends the file when it ends before. *)
Definition BlockFile_write_block (d : BlockFile) (block_id : Z) (buf : list Z) :
    result BlockFile :=
  let pos := Z.to_nat (block_id *ᵤ 512) in
  let base := file d ++ replicate (pos + length buf - length (file d)) 0 in
  assert_ (length buf =? BLOCK_SZ)%nat;;
  mret {| file := splice pos buf base |}.

Definition file_blocks (d : BlockFile) : nat := (length (file d) / BLOCK_SZ)%nat.

Definition file_view (d : BlockFile) : gmap Z (list Z) :=
  list_to_map ((λ i : nat, (Z.of_nat i, slice (i * BLOCK_SZ) BLOCK_SZ (file d)))
                 <$> seq 0 (file_blocks d)).

#[export] Instance BlockFile_device : BlockDevice BlockFile := {
  read_block := BlockFile_read_block;
  write_block := BlockFile_write_block;
  dev_view := file_view;
  dev_wf d := bytes (file d) ∧ Z.of_nat (length (file d)) < 2 ^ 40;
}.

Lemma file_view_lookup d b :
  file_view d !! b =
    if decide (0 ≤ b < Z.of_nat (file_blocks d))
    then Some (slice (Z.to_nat b * BLOCK_SZ) BLOCK_SZ (file d)) else None.
Proof.
  unfold file_view. case_decide as Hb.
  - apply elem_of_list_to_map_1.
    + rewrite <- list_fmap_compose. apply NoDup_fmap_2; [|apply NoDup_seq].
      intros x y. simpl. lia.
    + apply list_elem_of_fmap. exists (Z.to_nat b). split; [|apply elem_of_seq; lia].
      by rewrite Z2Nat.id by lia.
  - apply not_elem_of_list_to_map_1. intros Hin.
    apply list_elem_of_fmap in Hin as ([x y] & ? & Hin).
    apply list_elem_of_fmap in Hin as (i & ? & Hi%elem_of_seq). simplify_eq/=. lia.
Qed.

Lemma file_pos d b :
  Z.of_nat (length (file d)) < 2 ^ 40 → 0 ≤ b < Z.of_nat (file_blocks d) →
  Z.to_nat (b *ᵤ 512) = (Z.to_nat b * BLOCK_SZ)%nat ∧
  (Z.to_nat b * BLOCK_SZ + BLOCK_SZ ≤ length (file d))%nat.
Proof.
  unfold file_blocks. intros Hlen Hb.
  pose proof (Nat.div_mod (length (file d)) BLOCK_SZ ltac:(done)) as Hdiv.
  unfold BLOCK_SZ in *. rewrite u64_small by lia. lia.
Qed.

#[export] Instance BlockFile_laws : BlockDeviceLaws BlockFile.
Proof.
  split; simpl.
  - intros d b blk [Hby Hlen]. rewrite file_view_lookup. case_decide as Hb; [|done].
    destruct (file_pos d b) as [_ Hle]; [done..|].
    intros [= <-]. split; [by apply length_slice|by apply bytes_slice].
  - intros d b blk [Hby Hlen]. rewrite file_view_lookup. case_decide as Hb; [|done].
    destruct (file_pos d b) as [Hp Hle]; [done..|]. intros [= <-].
    unfold BlockFile_read_block, assert_. rewrite Hp, length_slice by done.
    by rewrite Nat.eqb_refl.
  - intros d b [Hby Hlen] Hr. rewrite file_view_lookup. case_decide as Hb; [done|].
    intros _. unfold BlockFile_read_block, assert_.
    assert (length (slice (Z.to_nat (b *ᵤ 512)) BLOCK_SZ (file d)) ≠ BLOCK_SZ) as Hne.
    { rewrite u64_small by lia. unfold slice. rewrite length_take, length_drop.
      unfold file_blocks, BLOCK_SZ in *.
      pose proof (Nat.div_mod (length (file d)) 512 ltac:(done)).
      pose proof (Nat.mod_upper_bound (length (file d)) 512 ltac:(done)). lia. }
    by rewrite (proj2 (Nat.eqb_neq _ _) Hne).
  - intros d b blk [Hby Hlen] [old Hv] Hbl Hbb. rewrite file_view_lookup in Hv.
    case_decide as Hb; [|done]. destruct (file_pos d b) as [Hp Hle]; [done..|].
    unfold BlockFile_write_block, assert_. rewrite Hp, Hbl, Nat.eqb_refl.
    rewrite (proj2 (Nat.sub_0_le _ _)) by lia. simpl. rewrite app_nil_r.
    eexists. split; [done|]. simpl.
    assert (length (splice (Z.to_nat b * BLOCK_SZ) blk (file d)) = length (file d)) as Hl
      by (apply length_splice; lia).
    split; [|split; [by apply bytes_splice|by rewrite Hl]].
    apply map_eq. intros b'. rewrite file_view_lookup.
    replace (file_blocks _) with (file_blocks d)
      by (unfold file_blocks; cbn [file]; by rewrite Hl). cbn [file].
    destruct (decide (b = b')) as [<-|Hne].
    + rewrite decide_True, lookup_insert_eq by done. f_equal. rewrite <- Hbl at 2.
      apply slice_splice_eq. lia.
    + rewrite lookup_insert_ne, file_view_lookup by done. case_decide as Hb'; [|done].
      f_equal. apply slice_splice_ne; unfold BLOCK_SZ in *; lia.
Qed.

(** ** What clients of the cache see *)

Inductive op :=
  | OpRead (b : Z) (off n : nat)
  | OpWrite (b : Z) (off : nat) (new : list Z)
  | OpSync.

Section trace.
Context {D : Type} `{BlockDevice D, !BlockDeviceLaws D}.

(** One client transaction on the cache. *)
Definition exec_cache (o : op) : M (CacheState D) (list Z) :=
  match o with
  | OpRead b off n => bc_read b off n (λ x, mret x)
  | OpWrite b off new => bc_modify b off (length new) (λ _, mret ([], new))
  | OpSync => sync_all;; mret []
  end.

Fixpoint exec_cache_all (os : list op) : M (CacheState D) (list (list Z)) :=
  match os with
  | [] => mret []
  | o :: os => r ← exec_cache o; rs ← exec_cache_all os; mret (r :: rs)
  end.
End trace.

(** The reference: the same transaction on a map from block ids to bytes. *)
Definition exec_map (o : op) (m : gmap Z (list Z)) : option (list Z * gmap Z (list Z)) :=
  match o with
  | OpRead b off n =>
      blk ← m !! b;
      if decide (fits_block off n) then Some (slice off n blk, m) else None
  | OpWrite b off new =>
      blk ← m !! b;
      if decide (fits_block off (length new) ∧ bytes new)
      then Some ([], <[b := splice off new blk]> m) else None
  | OpSync => Some ([], m)
  end.

Fixpoint exec_map_all (os : list op) (m : gmap Z (list Z)) :
    option (list (list Z) * gmap Z (list Z)) :=
  match os with
  | [] => Some ([], m)
  | o :: os =>
      '(r, m1) ← exec_map o m;
      '(rs, m2) ← exec_map_all os m1;
      Some (r :: rs, m2)
  end.

Section refinement.
Context {D : Type} `{BlockDevice D, !BlockDeviceLaws D}.

Lemma exec_refines o m r m' :
  exec_map o m = Some (r, m') → runs (exec_cache (D:=D) o) m ∅ r m'.
Proof.
  destruct o as [b off n|b off new|]; cbn [exec_map exec_cache]; intros Hm.
  - destruct (m !! b) as [blk|] eqn:Hb; [|done]. simpl in Hm. case_decide; simplify_eq/=.
    eapply runs_read; [done|set_solver|rewrite size_empty; unfold BLOCK_CACHE_SIZE; lia|done|].
    apply runs_ret.
  - destruct (m !! b) as [blk|] eqn:Hb; [|done]. simpl in Hm.
    case_decide as Hd; simplify_eq/=. destruct Hd.
    eapply runs_modify;
      [done|set_solver|rewrite size_empty; unfold BLOCK_CACHE_SIZE; lia|done|
       apply runs_ret|done..].
  - injection Hm as <- <-. eapply runs_bind; [apply runs_sync_all|apply runs_ret].
Qed.

Lemma exec_all_refines os m rs m' :
  exec_map_all os m = Some (rs, m') → runs (exec_cache_all (D:=D) os) m ∅ rs m'.
Proof.
  revert m rs. induction os as [|o os IH]; intros m rs; cbn [exec_map_all exec_cache_all].
  - intros [= <- <-]. apply runs_ret.
  - destruct (exec_map o m) as [[r m1]|] eqn:E1; [|done]. simpl.
    destruct (exec_map_all os m1) as [[rs' m2]|] eqn:E2; [|done]. simpl.
    intros [= <- <-]. eapply runs_bind; [by eapply exec_refines|].
    eapply runs_bind; [by apply IH|]. apply runs_ret.
Qed.

(** C1: the block cache refines the disk.  From a well-formed cache with no
    lock held, any sequence of client reads, writes and synchronisations
    that is legal on a plain map from block ids to 512-byte blocks runs on
    the cache without a panic or a deadlock, whatever is evicted on the
    way, returns exactly the results of the map, and one more
    [block_cache_sync_all] leaves exactly that map on the device. *)
Theorem cache_trace_refinement (os : list op) (s : CacheState D) rs m' :
  cache_wf s → cache_held s = ∅ →
  exec_map_all os (cache_view s) = Some (rs, m') →
  ∃ s' s'', exec_cache_all os s = Ok (rs, s') ∧ cache_view s' = m' ∧
    block_cache_sync_all s' = Ok s'' ∧ dev_view (device s'') = m' ∧ cache_wf s''.
Proof.
  intros Hwf Hh Hm. destruct (exec_all_refines os _ _ _ Hm s Hwf eq_refl Hh)
    as (s' & E & Hwf' & Hv' & Hh').
  destruct (sync_all_cache s' Hwf' Hh') as (s'' & E' & Hwf'' & Hv'' & _ & Hd).
  exists s', s''. split_and!; [done..| |done]. rewrite Hd, Hv''. done.
Qed.
End refinement.

(** The cache just after boot over a given disk image, for concrete runs. *)
Definition boot (img : list Z) : CacheState BlockFile := mkCacheState {| file := img |} [].

Lemma boot_wf img :
  bytes img → Z.of_nat (length img) < 2 ^ 40 →
  cache_wf (boot img) ∧ cache_held (boot img) = ∅.
Proof. intros. apply fresh_cache_wf. by split. Qed.

Lemma boot_runs {A} (m : M (CacheState BlockFile) A) img a v' :
  bytes img → Z.of_nat (length img) < 2 ^ 40 →
  runs m (cache_view (boot img)) ∅ a v' →
  ∃ s', m (boot img) = Ok (a, s') ∧ cache_view s' = v'.
Proof.
  intros Hb Hl Hr. destruct (boot_wf img Hb Hl) as [Hwf Hh].
  destruct (Hr (boot img) Hwf eq_refl Hh) as (s' & E & _ & Hv & _). by exists s'.
Qed.

Lemma boot_faults {A} (m : M (CacheState BlockFile) A) img f :
  bytes img → Z.of_nat (length img) < 2 ^ 40 →
  faults m (cache_view (boot img)) ∅ f → m (boot img) = Fail f.
Proof. intros Hb Hl Hr. destruct (boot_wf img Hb Hl) as [Hwf Hh]. by apply Hr. Qed.

Lemma boot_view_ok img :
  bytes img → Z.of_nat (length img) < 2 ^ 40 → view_ok (cache_view (boot img)).
Proof.
  intros Hb Hl b blk E. destruct (boot_wf img Hb Hl) as [Hwf _].
  by apply (view_block (boot img) b).
Qed.

(** Twenty blocks, sixteen cache slots: writing one byte to each block in turn
    evicts modified caches, and reading the first one back loads it again. *)
Definition demo_file : BlockFile := {| file := replicate (20 * 512) 7 |}.
Definition demo_state : CacheState BlockFile := mkCacheState demo_file [].
Definition demo_ops : list op :=
  ((λ i : nat, OpWrite (Z.of_nat i) i [Z.of_nat i]) <$> seq 0 20) ++
  [OpRead 0 0 2; OpSync; OpRead 19 18 2].

Lemma demo_state_wf : cache_wf demo_state ∧ cache_held demo_state = ∅.
Proof.
  apply fresh_cache_wf. split; [by apply Forall_replicate|vm_compute; reflexivity].
Qed.

Lemma cache_trace_refinement_witness :
  ∃ s' s'', exec_cache_all demo_ops demo_state =
      Ok (replicate 20 [] ++ [[0; 7]; []; [7; 19]], s') ∧
    block_cache_sync_all s' = Ok s''.
Proof.
  destruct (exec_map_all demo_ops (cache_view demo_state)) as [[rs m']|] eqn:E;
    [|vm_compute in E; discriminate E].
  destruct (cache_trace_refinement demo_ops demo_state rs m'
    (proj1 demo_state_wf) (proj2 demo_state_wf) E) as (s' & s'' & E1 & _ & E2 & _).
  assert (rs = replicate 20 [] ++ [[0; 7]; []; [7; 19]]) as Hrs
    by (vm_compute in E; injection E as E _; symmetry; exact E).
  exists s', s''. rewrite <- Hrs. split; [exact E1|exact E2].
Defined.
