(* ===== verification/Bitmap.v ===== *)
(** * Bitmaps (easy-fs/src/bitmap.rs)

    A bitmap is a run of blocks, each read as 64 little-endian [u64] words; bit
    [k] records whether inode or data block [k] is allocated.  [alloc] takes the
    lowest clear bit, [dealloc] clears a set one.  The code runs against the
    [BlockStore] interface. *)

From S2P Require Import Prelude Bytes BlockStore BlockCache BlockFile.

Definition BLOCK_BITS : Z := 4096.

Record Bitmap := mkBitmap {
  start_block_id : Z;
  blocks : Z;
}.

(** (block_pos, bits64_pos, inner_pos) *)
Definition decomposition (bit : Z) : Z * Z * Z :=
  let block_pos := bit / BLOCK_BITS in
  let bit := bit mod BLOCK_BITS in
  (block_pos, bit / 64, bit mod 64).

(** [u64::trailing_ones] *)
Fixpoint count_ones (fuel : nat) (w : Z) : Z :=
  match fuel with
  | O => 0
  | S fuel => if Z.odd w then 1 + count_ones fuel (w / 2) else 0
  end.
Definition trailing_ones (w : Z) : Z := count_ones 64 w.

(** [bitmap_block[i]] and [bitmap_block[i] = w] *)
Definition word (i : nat) (blk : list Z) : Z := rd 8 (8 * i) blk.
Definition set_word (i : nat) (w : Z) (blk : list Z) : list Z := wr 8 (8 * i) w blk.

Definition U64_MAX : Z := 2 ^ 64 - 1.

(** The closure of [alloc] on one bitmap block. *)
Definition alloc_in_block (block_id : Z) (blk : list Z) : option Z * list Z :=
  match list_find (λ i, word i blk ≠ U64_MAX) (seq 0 64) with
  | Some (_, bits64_pos) =>
      let inner_pos := trailing_ones (word bits64_pos blk) in
      (Some (block_id *ᵤ BLOCK_BITS +ᵤ Z.of_nat bits64_pos * 64 +ᵤ inner_pos),
       set_word bits64_pos (Z.lor (word bits64_pos blk) (Z.shiftl 1 inner_pos)) blk)
  | None => (None, blk)
  end.

Section bitmap.
Context {St : Type} `{BlockStore St}.

(** [for block_id in 0..self.blocks], [n] iterations left *)
Fixpoint alloc_from (bm : Bitmap) (n : nat) (block_id : Z) : M St (option Z) :=
  match n with
  | O => mret None
  | S n =>
      pos ← bc_modify (block_id +ᵤ start_block_id bm) 0 BLOCK_SZ
              (λ blk, mret (alloc_in_block block_id blk));
      match pos with
      | Some p => mret (Some p)
      | None => alloc_from bm n (block_id + 1)
      end
  end.

Definition alloc (bm : Bitmap) : M St (option Z) :=
  alloc_from bm (Z.to_nat (blocks bm)) 0.

Definition dealloc_in_block (bits64_pos inner_pos : Z) (blk : list Z) : result (unit * list Z) :=
  let w := word (Z.to_nat bits64_pos) blk in
  assert_ (0 <? Z.land w (Z.shiftl 1 inner_pos));;
  mret (tt, set_word (Z.to_nat bits64_pos) (w -ᵤ Z.shiftl 1 inner_pos) blk).

Definition dealloc (bm : Bitmap) (bit : Z) : M St unit :=
  let '(block_pos, bits64_pos, inner_pos) := decomposition bit in
  bc_modify (block_pos +ᵤ start_block_id bm) 0 BLOCK_SZ
    (λ blk, lift (dealloc_in_block bits64_pos inner_pos blk)).
End bitmap.

(** the number of bits of the bitmap *)
Definition maximum (bm : Bitmap) : Z := blocks bm *ᵤ BLOCK_BITS.

(** ** Specification: a bitmap as a set of bits *)

Definition block_of (bm : Bitmap) (k : Z) : Z := start_block_id bm + k / BLOCK_BITS.

(** Bit [k] of the bitmap in the view [v]. *)
Definition bit (bm : Bitmap) (v : gmap Z (list Z)) (k : Z) : bool :=
  Z.testbit (word (Z.to_nat (k mod BLOCK_BITS / 64)) (v !!! block_of bm k)) (k mod 64).

(** The view with bit [k] set to [b]. *)
Definition set_bit (bm : Bitmap) (k : Z) (b : bool) (v : gmap Z (list Z)) : gmap Z (list Z) :=
  let blk := v !!! block_of bm k in
  let i := Z.to_nat (k mod BLOCK_BITS / 64) in
  let w := word i blk in
  let w' := if b then Z.setbit w (k mod 64) else Z.clearbit w (k mod 64) in
  <[block_of bm k := set_word i w' blk]> v.

(** The blocks of the bitmap. *)
Definition bm_block (bm : Bitmap) (b : Z) : Prop :=
  start_block_id bm ≤ b < start_block_id bm + blocks bm.

Definition bm_ok (bm : Bitmap) (v : gmap Z (list Z)) : Prop :=
  0 ≤ start_block_id bm ∧ 0 ≤ blocks bm ∧ start_block_id bm + blocks bm ≤ 2 ^ 32 ∧
  ∀ b, bm_block bm b → is_Some (v !! b).

(** [k] is the lowest clear bit. *)
Definition first_free (bm : Bitmap) (v : gmap Z (list Z)) (k : Z) : Prop :=
  0 ≤ k < maximum bm ∧ bit bm v k = false ∧ ∀ j, 0 ≤ j < k → bit bm v j = true.

(** ** Words *)

Lemma word_range i blk :
  length blk = BLOCK_SZ → bytes blk → (i < 64)%nat → 0 ≤ word i blk < 2 ^ 64.
Proof. intros. apply (rd_range 8); [unfold BLOCK_SZ in *; lia|done]. Qed.

Lemma word_set_word i j w blk :
  length blk = BLOCK_SZ → (i < 64)%nat → (j < 64)%nat → 0 ≤ w < 2 ^ 64 →
  word j (set_word i w blk) = if decide (i = j) then w else word j blk.
Proof.
  intros Hl Hi Hj Hw. unfold word, set_word, BLOCK_SZ in *. case_decide as Hd.
  - subst. apply rd_wr_eq; [lia|done].
  - apply rd_wr_ne; lia.
Qed.

Lemma set_word_same i blk :
  length blk = BLOCK_SZ → bytes blk → (i < 64)%nat → set_word i (word i blk) blk = blk.
Proof. intros. apply wr_rd; [unfold BLOCK_SZ in *; lia|done]. Qed.

Lemma set_word_set_word i w w' blk :
  length blk = BLOCK_SZ → (i < 64)%nat → set_word i w (set_word i w' blk) = set_word i w blk.
Proof.
  intros. apply splice_splice; rewrite !length_le_put; [done|unfold BLOCK_SZ in *; lia].
Qed.

Lemma set_word_length i w blk :
  length blk = BLOCK_SZ → (i < 64)%nat → length (set_word i w blk) = BLOCK_SZ.
Proof. intros Hl ?. unfold set_word, BLOCK_SZ in *. rewrite length_wr; lia. Qed.

Lemma testbit_range w i : 0 ≤ w < 2 ^ 64 → 64 ≤ i → Z.testbit w i = false.
Proof.
  intros. rewrite <- (Z.mod_small w (2 ^ 64)) by done. by apply Z.mod_pow2_bits_high.
Qed.

Lemma range_of_testbit w :
  0 ≤ w → (∀ i, 64 ≤ i → Z.testbit w i = false) → w < 2 ^ 64.
Proof.
  intros Hw Ht. enough (w mod 2 ^ 64 = w) by (pose proof (Z.mod_pos_bound w (2 ^ 64)); lia).
  apply Z.bits_inj'. intros i Hi. destruct (decide (i < 64)).
  - by rewrite Z.mod_pow2_bits_low by lia.
  - rewrite Z.mod_pow2_bits_high by lia. symmetry. apply Ht. lia.
Qed.

Lemma setbit_range w i : 0 ≤ w < 2 ^ 64 → 0 ≤ i < 64 → 0 ≤ Z.setbit w i < 2 ^ 64.
Proof.
  intros Hw Hi. assert (0 ≤ Z.setbit w i).
  { unfold Z.setbit. apply Z.lor_nonneg. split; [lia|apply Z.shiftl_nonneg; lia]. }
  split; [done|]. apply range_of_testbit; [done|]. intros j Hj.
  rewrite Z.setbit_neq by lia. by apply testbit_range.
Qed.

Lemma clearbit_range w i : 0 ≤ w < 2 ^ 64 → 0 ≤ i < 64 → 0 ≤ Z.clearbit w i < 2 ^ 64.
Proof.
  intros Hw Hi. assert (0 ≤ Z.clearbit w i).
  { unfold Z.clearbit. apply Z.ldiff_nonneg. lia. }
  split; [done|]. apply range_of_testbit; [done|]. intros j Hj.
  rewrite Z.clearbit_neq by lia. by apply testbit_range.
Qed.

Lemma full_word w : 0 ≤ w < 2 ^ 64 → (∀ i, 0 ≤ i < 64 → Z.testbit w i = true) → w = U64_MAX.
Proof.
  intros Hw Hb. change U64_MAX with (Z.ones 64). apply Z.bits_inj'. intros i Hi.
  destruct (decide (i < 64)).
  - rewrite Hb, Z.ones_spec_low by lia. done.
  - rewrite testbit_range, Z.ones_spec_high by lia. done.
Qed.

Lemma count_ones_spec fuel w i :
  0 ≤ i < Z.of_nat fuel → Z.testbit w i = false →
  (∀ j, 0 ≤ j < i → Z.testbit w j = true) → count_ones fuel w = i.
Proof.
  revert w i. induction fuel as [|fuel IH]; intros w i Hi Hf Hlow; [lia|].
  cbn [count_ones]. rewrite <- Z.bit0_odd. destruct (decide (i = 0)) as [->|Hne].
  - by rewrite Hf.
  - rewrite Hlow by lia. rewrite (IH (w / 2) (i - 1)); [lia|lia| |].
    + rewrite Z.div2_bits by lia. by replace (Z.succ (i - 1)) with i by lia.
    + intros j Hj. rewrite Z.div2_bits by lia. apply Hlow. lia.
Qed.

Lemma land_shiftl_pos w i :
  0 ≤ w → 0 ≤ i → (0 <? Z.land w (Z.shiftl 1 i)) = Z.testbit w i.
Proof.
  intros Hw Hi. rewrite Z.shiftl_1_l.
  assert (Z.land w (2 ^ i) = if Z.testbit w i then 2 ^ i else 0) as ->.
  { apply Z.bits_inj'. intros j Hj. rewrite Z.land_spec, Z.pow2_bits_eqb by done.
    destruct (Z.eqb_spec i j) as [->|Hne].
    - destruct (Z.testbit w j); rewrite ?Z.pow2_bits_true, ?Z.bits_0 by done; done.
    - rewrite andb_false_r. destruct (Z.testbit w i);
        rewrite ?Z.pow2_bits_false, ?Z.bits_0 by done; done. }
  destruct (Z.testbit w i); [|done]. apply Z.ltb_lt. by apply Z.pow_pos_nonneg.
Qed.

Lemma sub_shiftl_clearbit w i :
  0 ≤ w → 0 ≤ i → Z.testbit w i = true → w - Z.shiftl 1 i = Z.clearbit w i.
Proof.
  intros Hw Hi Hb. unfold Z.clearbit. apply Z.sub_nocarry_ldiff.
  apply Z.bits_inj'. intros j Hj. rewrite Z.ldiff_spec, Z.shiftl_1_l, Z.bits_0.
  rewrite Z.pow2_bits_eqb by done. destruct (Z.eqb_spec i j) as [<-|]; [by rewrite Hb|done].
Qed.

(** ** One bitmap block *)

(** Bit [k] of one block. *)
Definition blk_bit (blk : list Z) (k : Z) : bool :=
  Z.testbit (word (Z.to_nat (k / 64)) blk) (k mod 64).

Lemma blk_bit_word blk i j :
  0 ≤ j < 64 → blk_bit blk (Z.of_nat i * 64 + j) = Z.testbit (word i blk) j.
Proof.
  intros Hj. unfold blk_bit.
  replace ((Z.of_nat i * 64 + j) / 64) with (Z.of_nat i) by (Z.to_euclidean_division_equations; lia).
  replace ((Z.of_nat i * 64 + j) mod 64) with j by (Z.to_euclidean_division_equations; lia).
  by rewrite Nat2Z.id.
Qed.

Lemma blk_bit_nat k :
  0 ≤ k → ∃ i j, k = Z.of_nat i * 64 + j ∧ 0 ≤ j < 64 ∧
                 i = Z.to_nat (k / 64) ∧ j = k mod 64.
Proof.
  intros. exists (Z.to_nat (k / 64)), (k mod 64). Z.to_euclidean_division_equations; lia.
Qed.

Lemma alloc_in_block_some id blk k :
  length blk = BLOCK_SZ → bytes blk → 0 ≤ id < 2 ^ 32 → 0 ≤ k < BLOCK_BITS →
  blk_bit blk k = false → (∀ j, 0 ≤ j < k → blk_bit blk j = true) →
  alloc_in_block id blk =
    (Some (id * BLOCK_BITS + k),
     set_word (Z.to_nat (k / 64)) (Z.setbit (word (Z.to_nat (k / 64)) blk) (k mod 64)) blk).
Proof.
  intros Hl Hb Hid Hk Hf Hlow. unfold BLOCK_BITS in *.
  destruct (blk_bit_nat k) as (i & j & Ek & Hj & <- & <-); [lia|].
  rewrite Ek, blk_bit_word in Hf by done.
  assert (Hi : (i < 64)%nat) by lia.
  unfold alloc_in_block.
  assert (list_find (λ i, word i blk ≠ U64_MAX) (seq 0 64) = Some (i, i)) as ->.
  { apply list_find_Some. split_and!.
    - by apply lookup_seq_lt.
    - intros E. rewrite E in Hf. change U64_MAX with (Z.ones 64) in Hf.
      by rewrite Z.ones_spec_low in Hf by lia.
    - intros i' y Hy Hlt. apply lookup_seq in Hy as [-> Hi']. intros E. apply E.
      apply full_word; [by apply word_range|]. intros j' Hj'.
      rewrite <- blk_bit_word by done. apply Hlow. simpl. lia. }
  assert (trailing_ones (word i blk) = j) as ->.
  { apply count_ones_spec; [lia|done|]. intros j' Hj'.
    rewrite <- blk_bit_word by lia. apply Hlow. lia. }
  rewrite (u64_small (id * BLOCK_BITS)), (u64_small (_ + Z.of_nat i * 64)), u64_small
    by (unfold BLOCK_BITS; lia).
  unfold Z.setbit, BLOCK_BITS. do 2 f_equal. lia.
Qed.

Lemma alloc_in_block_none id blk :
  length blk = BLOCK_SZ → bytes blk → (∀ j, 0 ≤ j < BLOCK_BITS → blk_bit blk j = true) →
  alloc_in_block id blk = (None, blk).
Proof.
  intros Hl Hb Hall. unfold alloc_in_block.
  destruct (list_find _ _) as [[i x]|] eqn:E; [|done]. exfalso.
  apply list_find_Some in E as (Hx & Hne & _). apply lookup_seq in Hx as [-> Hi].
  apply Hne, full_word; [by apply word_range|]. intros j Hj.
  rewrite <- blk_bit_word by done. apply Hall. unfold BLOCK_BITS. simpl. lia.
Qed.

Lemma dealloc_in_block_ok blk k :
  length blk = BLOCK_SZ → bytes blk → 0 ≤ k < BLOCK_BITS → blk_bit blk k = true →
  dealloc_in_block (k / 64) (k mod 64) blk =
    Ok (tt, set_word (Z.to_nat (k / 64))
              (Z.clearbit (word (Z.to_nat (k / 64)) blk) (k mod 64)) blk).
Proof.
  intros Hl Hb Hk Ht. unfold BLOCK_BITS, blk_bit in *.
  destruct (blk_bit_nat k) as (i & j & Ek & Hj & Ei & Ej); [lia|].
  unfold dealloc_in_block. rewrite <- Ei, <- Ej in *.
  assert (Hw := word_range i blk Hl Hb ltac:(lia)).
  rewrite land_shiftl_pos, Ht by lia. mstep.
  rewrite sub_shiftl_clearbit by (done || lia).
  rewrite u64_small by (apply clearbit_range; lia). done.
Qed.

Lemma dealloc_in_block_clear blk k :
  length blk = BLOCK_SZ → bytes blk → 0 ≤ k < BLOCK_BITS → blk_bit blk k = false →
  dealloc_in_block (k / 64) (k mod 64) blk = Fail Panic.
Proof.
  intros Hl Hb Hk Ht. unfold BLOCK_BITS, blk_bit in *.
  destruct (blk_bit_nat k) as (i & j & Ek & Hj & Ei & Ej); [lia|].
  unfold dealloc_in_block. rewrite <- Ei, <- Ej in *.
  assert (Hw := word_range i blk Hl Hb ltac:(lia)).
  by rewrite land_shiftl_pos, Ht by lia.
Qed.

(** ** The bitmap in the view *)

Lemma bit_blk bm v k : bit bm v k = blk_bit (v !!! block_of bm k) (k mod BLOCK_BITS).
Proof.
  unfold bit, blk_bit, BLOCK_BITS. f_equal. Z.to_euclidean_division_equations; lia.
Qed.

Lemma bit_at bm v id j :
  0 ≤ id → 0 ≤ j < BLOCK_BITS →
  bit bm v (id * BLOCK_BITS + j) = blk_bit (v !!! (start_block_id bm + id)) j.
Proof.
  intros. rewrite bit_blk. unfold block_of, BLOCK_BITS in *.
  replace ((id * 4096 + j) / 4096) with id by (Z.to_euclidean_division_equations; lia).
  by replace ((id * 4096 + j) mod 4096) with j by (Z.to_euclidean_division_equations; lia).
Qed.

Lemma set_bit_at bm v id j b :
  0 ≤ id → 0 ≤ j < BLOCK_BITS →
  let blk := v !!! (start_block_id bm + id) in
  let w := word (Z.to_nat (j / 64)) blk in
  set_bit bm (id * BLOCK_BITS + j) b v =
    <[start_block_id bm + id :=
        set_word (Z.to_nat (j / 64))
          (if b then Z.setbit w (j mod 64) else Z.clearbit w (j mod 64)) blk]> v.
Proof.
  intros. unfold set_bit, block_of, w, blk, BLOCK_BITS in *.
  replace ((id * 4096 + j) / 4096) with id by (Z.to_euclidean_division_equations; lia).
  replace ((id * 4096 + j) mod 4096) with j by (Z.to_euclidean_division_equations; lia).
  by replace ((id * 4096 + j) mod 64) with (j mod 64) by (Z.to_euclidean_division_equations; lia).
Qed.

Lemma block_of_range bm k :
  0 ≤ k < blocks bm * BLOCK_BITS → bm_block bm (block_of bm k).
Proof. unfold bm_block, block_of, BLOCK_BITS. Z.to_euclidean_division_equations; lia. Qed.

Lemma bm_ok_maximum bm v : bm_ok bm v → maximum bm = blocks bm * BLOCK_BITS.
Proof. intros (?&?&?&?). apply u64_small. unfold BLOCK_BITS. lia. Qed.

Lemma bm_ok_lookup bm v k :
  bm_ok bm v → 0 ≤ k < maximum bm → v !! block_of bm k = Some (v !!! block_of bm k).
Proof.
  intros Hok Hk. erewrite bm_ok_maximum in Hk by done. destruct Hok as (_&_&_&Hv).
  destruct (Hv (block_of bm k)) as [blk E]; [by apply block_of_range|].
  by rewrite (lookup_total_correct _ _ _ E).
Qed.

Lemma set_bit_view_ok bm k b v :
  view_ok v → bm_ok bm v → 0 ≤ k < maximum bm → view_ok (set_bit bm k b v).
Proof.
  intros Hv Hok Hk c blk. unfold set_bit. rewrite lookup_insert_Some.
  destruct (Hv _ _ (bm_ok_lookup bm v k Hok Hk)) as [Hl Hb].
  assert (Hi : (Z.to_nat (k mod BLOCK_BITS / 64) < 64)%nat)
    by (unfold BLOCK_BITS; Z.to_euclidean_division_equations; lia).
  intros [[<- <-]|[_ ?]]; [|by apply (Hv c)].
  split; [by apply set_word_length|by apply bytes_wr].
Qed.

Lemma bm_ok_set_bit bm k b v : bm_ok bm v → bm_ok bm (set_bit bm k b v).
Proof.
  intros (?&?&?&Hv). split_and!; [done..|]. intros c Hc. unfold set_bit.
  rewrite lookup_insert_is_Some. destruct (decide (block_of bm k = c)); auto.
Qed.

(** [set_bit] changes one bit. *)
Lemma bit_set_bit bm k b v j :
  view_ok v → bm_ok bm v → 0 ≤ k < maximum bm → 0 ≤ j < maximum bm →
  bit bm (set_bit bm k b v) j = if decide (j = k) then b else bit bm v j.
Proof.
  intros Hv Hok Hk Hj.
  destruct (Hv _ _ (bm_ok_lookup bm v k Hok Hk)) as [Hl Hb].
  assert (Hi : ∀ x, (Z.to_nat (x mod BLOCK_BITS / 64) < 64)%nat)
    by (intros x; unfold BLOCK_BITS; Z.to_euclidean_division_equations; lia).
  assert (Hw := word_range _ _ Hl Hb (Hi k)).
  assert (Hm : 0 ≤ k mod 64 < 64) by (apply Z.mod_pos_bound; lia).
  assert (Hm' : 0 ≤ j mod 64 < 64) by (apply Z.mod_pos_bound; lia).
  unfold bit, set_bit.
  destruct (decide (block_of bm k = block_of bm j)) as [Eb|Nb];
    [|rewrite lookup_total_insert_ne by done; by destruct (decide (j = k)) as [->|]].
  rewrite <- Eb, lookup_total_insert_eq.
  rewrite word_set_word; [|done..|destruct b; [by apply setbit_range|by apply clearbit_range]].
  destruct (decide (_ = _)) as [Ei|Ni];
    [|by destruct (decide (j = k)) as [->|]].
  rewrite <- Ei. destruct (decide (j = k)) as [->|Hne].
  - destruct b; [by apply Z.setbit_eq; lia|by apply Z.clearbit_eq].
  - assert (k mod 64 ≠ j mod 64).
    { unfold block_of, BLOCK_BITS in *. clear -Eb Ei Hne Hj Hk.
      Z.to_euclidean_division_equations; lia. }
    destruct b; [by apply Z.setbit_neq; lia|by apply Z.clearbit_neq].
Qed.

Lemma set_bit_set_bit bm k b b' v :
  view_ok v → bm_ok bm v → 0 ≤ k < maximum bm →
  bit bm v k = b' → set_bit bm k b' (set_bit bm k b v) = v.
Proof.
  intros Hv Hok Hk Hbit.
  assert (Hlk := bm_ok_lookup bm v k Hok Hk). destruct (Hv _ _ Hlk) as [Hl Hb].
  assert (Hi : (Z.to_nat (k mod BLOCK_BITS / 64) < 64)%nat)
    by (unfold BLOCK_BITS; Z.to_euclidean_division_equations; lia).
  assert (Hw := word_range _ _ Hl Hb Hi).
  assert (Hm : 0 ≤ k mod 64 < 64) by (apply Z.mod_pos_bound; lia).
  unfold set_bit, bit in *. rewrite lookup_total_insert_eq, insert_insert_eq.
  rewrite word_set_word, decide_True by
    (done || (destruct b; [by apply setbit_range|by apply clearbit_range])).
  rewrite set_word_set_word by done.
  set (w := word _ _) in *. set (i := k mod 64) in *.
  assert ((if b' then Z.setbit (if b then Z.setbit w i else Z.clearbit w i) i
           else Z.clearbit (if b then Z.setbit w i else Z.clearbit w i) i) = w) as ->.
  { apply Z.bits_inj'. intros j Hj. destruct (decide (i = j)) as [<-|];
      destruct b', b; rewrite ?Z.setbit_eq, ?Z.clearbit_eq by lia;
      rewrite ?Z.setbit_neq, ?Z.clearbit_neq by lia; try done;
      rewrite ?Z.setbit_neq, ?Z.clearbit_neq by lia; done. }
  unfold w. rewrite set_word_same by done. by apply insert_id.
Qed.

(** ** Allocation and deallocation over any block store *)

Section spec.
Context {St : Type} `{HS : BlockStore St, HL : !BlockStoreLaws St}.
Context (bm : Bitmap) (v : gmap Z (list Z)) (h : gset Z).
Context (Hok : bm_ok bm v) (Hh : ∀ b, bm_block bm b → b ∉ h)
        (Hcap : (size h < BLOCK_CACHE_SIZE)%nat).

Lemma alloc_from_step n id r blk' a v' :
  0 ≤ id < blocks bm →
  alloc_in_block id (v !!! (start_block_id bm + id)) = (r, blk') →
  length blk' = BLOCK_SZ → bytes blk' →
  runs (match r with Some p => mret (Some p) | None => alloc_from bm n (id + 1) end)
       (<[start_block_id bm + id := blk']> v) h a v' →
  runs (alloc_from bm (S n) id) v h a v'.
Proof.
  intros Hid Ha Hl Hb Hk. apply runs_view_ok. intros Hv. cbn [alloc_from].
  destruct Hok as (?&?&?&Hs). destruct (Hs (start_block_id bm + id)) as [blk E];
    [unfold bm_block; lia|].
  rewrite (lookup_total_correct _ _ _ E) in Ha. destruct (Hv _ _ E) as [Hlb _].
  rewrite u64_small by lia. rewrite (Z.add_comm id (start_block_id bm)).
  eapply runs_bind; [|exact Hk].
  rewrite <- (splice_all blk' blk) by congruence.
  eapply runs_modify; [done|apply Hh; unfold bm_block; lia|done|unfold BLOCK_SZ; lia| |done..].
  rewrite slice_all by done. rewrite Ha. apply runs_ret.
Qed.

Lemma bm_block_at id :
  view_ok v → 0 ≤ id < blocks bm →
  v !! (start_block_id bm + id) = Some (v !!! (start_block_id bm + id)) ∧
  length (v !!! (start_block_id bm + id)) = BLOCK_SZ ∧ bytes (v !!! (start_block_id bm + id)).
Proof.
  intros Hv Hid. destruct Hok as (?&?&?&Hs).
  destruct (Hs (start_block_id bm + id)) as [blk E]; [unfold bm_block; lia|].
  rewrite (lookup_total_correct _ _ _ E). split; [done|]. by apply (Hv (start_block_id bm + id)).
Qed.

Lemma alloc_from_skip n id a v' :
  0 ≤ id < blocks bm →
  (∀ j, id * BLOCK_BITS ≤ j < (id + 1) * BLOCK_BITS → bit bm v j = true) →
  runs (alloc_from bm n (id + 1)) v h a v' → runs (alloc_from bm (S n) id) v h a v'.
Proof.
  intros Hid Hall Hr. apply runs_view_ok. intros Hv.
  destruct (bm_block_at id Hv Hid) as (E & Hl & Hb).
  eapply alloc_from_step; [done|apply alloc_in_block_none; [done..|]|done..|].
  - intros j Hj. rewrite <- bit_at by (done || lia). apply Hall. unfold BLOCK_BITS in *. lia.
  - by rewrite insert_id.
Qed.

Lemma alloc_from_some n id k :
  0 ≤ id → id + Z.of_nat n = blocks bm → id * BLOCK_BITS ≤ k → first_free bm v k →
  runs (alloc_from bm n id) v h (Some k) (set_bit bm k true v).
Proof.
  revert id. induction n as [|n IH]; intros id Hid Hn Hk Hff; apply runs_view_ok; intros Hv;
    assert (Hff' := Hff); destruct Hff as (Hr & Hf & Hlow);
    rewrite (bm_ok_maximum _ _ Hok) in Hr; [unfold BLOCK_BITS in *; lia|].
  destruct (decide (k < (id + 1) * BLOCK_BITS)) as [Hlt|Hge].
  - destruct (bm_block_at id Hv ltac:(lia)) as (E & Hl & Hb).
    assert (Hid' : 0 ≤ id < 2 ^ 32) by (destruct Hok; lia).
    assert (∃ k', k = id * BLOCK_BITS + k' ∧ 0 ≤ k' < BLOCK_BITS) as (k' & -> & Hk')
      by (exists (k - id * BLOCK_BITS); lia).
    rewrite bit_at in Hf by done.
    eapply alloc_from_step; [lia|apply (alloc_in_block_some id _ k'); try done|..].
    + intros j Hj. rewrite <- bit_at by (done || lia). apply Hlow. unfold BLOCK_BITS in *. lia.
    + apply set_word_length; [done|]. unfold BLOCK_BITS in *. Z.to_euclidean_division_equations; lia.
    + by apply bytes_wr.
    + rewrite set_bit_at by done. apply runs_ret.
  - apply alloc_from_skip; [lia| |by apply IH; [lia..|]].
    intros j Hj. apply Hlow. unfold BLOCK_BITS in *. lia.
Qed.

Lemma alloc_from_none n id :
  0 ≤ id → id + Z.of_nat n = blocks bm →
  (∀ j, 0 ≤ j < maximum bm → bit bm v j = true) →
  runs (alloc_from bm n id) v h None v.
Proof.
  intros Hid Hn Hall. rewrite (bm_ok_maximum _ _ Hok) in Hall.
  revert id Hid Hn. induction n as [|n IH]; intros id Hid Hn; [apply runs_ret|].
  apply alloc_from_skip; [lia| |apply IH; lia].
  intros j Hj. apply Hall. unfold BLOCK_BITS in *. nia.
Qed.

Lemma dealloc_modify k :
  0 ≤ k < maximum bm →
  dealloc (St:=St) bm k =
    bc_modify (block_of bm k) 0 BLOCK_SZ
      (λ blk, lift (dealloc_in_block (k mod BLOCK_BITS / 64) (k mod BLOCK_BITS mod 64) blk)).
Proof.
  intros Hk. assert (Hb := block_of_range bm k). rewrite <- (bm_ok_maximum _ _ Hok) in Hb.
  specialize (Hb Hk). unfold dealloc, decomposition.
  replace (k / BLOCK_BITS +ᵤ start_block_id bm) with (block_of bm k); [done|].
  rewrite Z.add_comm. destruct Hok as (?&?&?&?). unfold block_of, bm_block in *.
  rewrite u64_small by lia. done.
Qed.

Lemma dealloc_set k :
  0 ≤ k < maximum bm → bit bm v k = true →
  runs (dealloc bm k) v h tt (set_bit bm k false v).
Proof.
  intros Hk Hb. apply runs_view_ok. intros Hv. rewrite dealloc_modify by done.
  assert (E := bm_ok_lookup _ _ _ Hok Hk). destruct (Hv _ _ E) as [Hl Hby].
  assert (Hm : 0 ≤ k mod BLOCK_BITS < BLOCK_BITS) by by apply Z.mod_pos_bound.
  unfold set_bit. rewrite <- (splice_all (set_word _ _ _) (v !!! block_of bm k)).
  2:{ rewrite set_word_length; [done..|]. unfold BLOCK_BITS in *.
      Z.to_euclidean_division_equations; lia. }
  rewrite bit_blk in Hb.
  replace (k mod 64) with (k mod BLOCK_BITS mod 64)
    by (unfold BLOCK_BITS; Z.to_euclidean_division_equations; lia).
  eapply runs_modify; [done| |done|done| |done|..].
  - apply Hh, block_of_range. by rewrite <- (bm_ok_maximum _ _ Hok).
  - apply runs_lift. rewrite slice_all by done. by apply dealloc_in_block_ok.
  - apply set_word_length; [done|]. unfold BLOCK_BITS in *. Z.to_euclidean_division_equations; lia.
  - by apply bytes_wr.
Qed.

Lemma dealloc_clear k :
  0 ≤ k < maximum bm → bit bm v k = false → faults (dealloc (St:=St) bm k) v h Panic.
Proof.
  intros Hk Hb. apply faults_view_ok. intros Hv. rewrite dealloc_modify by done.
  assert (E := bm_ok_lookup _ _ _ Hok Hk). destruct (Hv _ _ E) as [Hl Hby].
  rewrite bit_blk in Hb. eapply faults_modify; [done| |done|done|].
  - apply Hh, block_of_range. by rewrite <- (bm_ok_maximum _ _ Hok).
  - apply faults_lift. rewrite slice_all by done. apply dealloc_in_block_clear; [done..| |done].
    by apply Z.mod_pos_bound.
Qed.
End spec.

(** ** Theorems *)

(** [Bitmap::alloc] returns the lowest clear bit and sets that bit and no
    other; when every bit is set it returns [None] and changes nothing.  It
    neither panics nor deadlocks, whatever blocks the caller keeps locked
    outside the bitmap. *)
Theorem alloc_lowest {St} `{HS : BlockStore St, HL : !BlockStoreLaws St} bm v h :
  view_ok v → bm_ok bm v → (∀ b, bm_block bm b → b ∉ h) → (size h < BLOCK_CACHE_SIZE)%nat →
  (∀ k, first_free bm v k →
     runs (alloc (St:=St) bm) v h (Some k) (set_bit bm k true v) ∧
     ∀ j, 0 ≤ j < maximum bm →
       bit bm (set_bit bm k true v) j = (bool_decide (j = k) || bit bm v j)) ∧
  ((∀ j, 0 ≤ j < maximum bm → bit bm v j = true) → runs (alloc (St:=St) bm) v h None v).
Proof.
  intros Hv Hok Hh Hcap. assert (Hn : 0 + Z.of_nat (Z.to_nat (blocks bm)) = blocks bm)
    by (destruct Hok; lia).
  split.
  - intros k Hk. assert (0 ≤ k < maximum bm) by apply Hk. split.
    + apply alloc_from_some; [done..|lia|done].
    + intros j Hj. rewrite bit_set_bit by done.
      case_decide; [by rewrite bool_decide_true|by rewrite bool_decide_false].
  - by apply alloc_from_none.
Qed.

(** A disk of two blocks with a bitmap in block 1: bits 0, 1, 2 and 4 are set. *)
Definition demo_bitmap : Bitmap := mkBitmap 1 1.
Definition demo_image : list Z := replicate 512 0 ++ 23 :: replicate 511 0.
Definition demo_bits : gmap Z (list Z) := cache_view (boot demo_image).

Lemma demo_image_ok : bytes demo_image ∧ Z.of_nat (length demo_image) < 2 ^ 40.
Proof.
  split; [|vm_compute; reflexivity]. apply Forall_app_2; [apply bytes_replicate|].
  constructor; [done|apply bytes_replicate].
Qed.

Lemma demo_bits_ok : view_ok demo_bits.
Proof. apply boot_view_ok; apply demo_image_ok. Qed.

Lemma demo_bitmap_ok : bm_ok demo_bitmap demo_bits.
Proof.
  split_and!; [done..|]. intros b Hb. unfold bm_block in Hb. simpl in Hb.
  replace b with 1 by lia. vm_compute. by eexists.
Qed.

Lemma demo_first_free : first_free demo_bitmap demo_bits 3.
Proof.
  split_and!; [done..|vm_compute; reflexivity|]. intros j Hj.
  assert (j = 0 ∨ j = 1 ∨ j = 2) as [->|[->| ->]] by lia; vm_compute; reflexivity.
Qed.

Lemma alloc_lowest_witness :
  ∃ s', alloc demo_bitmap (boot demo_image) = Ok (Some 3, s') ∧
        cache_view s' = set_bit demo_bitmap 3 true demo_bits.
Proof.
  apply boot_runs; [apply demo_image_ok..|].
  apply (alloc_lowest demo_bitmap demo_bits ∅ demo_bits_ok demo_bitmap_ok
           (λ b _, not_elem_of_empty b)).
  - vm_compute. lia.
  - apply demo_first_free.
Defined.

(** [Bitmap::dealloc] clears a set bit and no other; on a clear bit (a
    double free) its assertion panics. *)
Theorem dealloc_clears {St} `{HS : BlockStore St, HL : !BlockStoreLaws St} bm v h k :
  view_ok v → bm_ok bm v → (∀ b, bm_block bm b → b ∉ h) → (size h < BLOCK_CACHE_SIZE)%nat →
  0 ≤ k < maximum bm →
  if bit bm v k then
    runs (dealloc (St:=St) bm k) v h tt (set_bit bm k false v) ∧
    ∀ j, 0 ≤ j < maximum bm →
      bit bm (set_bit bm k false v) j = (negb (bool_decide (j = k)) && bit bm v j)
  else faults (dealloc (St:=St) bm k) v h Panic.
Proof.
  intros Hv Hok Hh Hcap Hk. destruct (bit bm v k) eqn:E; [|by apply dealloc_clear].
  split; [by apply dealloc_set|]. intros j Hj. rewrite bit_set_bit by done.
  case_decide; [by rewrite bool_decide_true|by rewrite bool_decide_false].
Qed.

Lemma dealloc_clears_witness :
  (∃ s', dealloc demo_bitmap 4 (boot demo_image) = Ok (tt, s') ∧
         cache_view s' = set_bit demo_bitmap 4 false demo_bits) ∧
  dealloc demo_bitmap 3 (boot demo_image) = Fail Panic.
Proof.
  split.
  - apply boot_runs; [apply demo_image_ok..|].
    assert (E : bit demo_bitmap demo_bits 4 = true) by (vm_compute; reflexivity).
    pose proof (dealloc_clears (St:=CacheState BlockFile) demo_bitmap demo_bits ∅ 4
      demo_bits_ok demo_bitmap_ok (λ b _, not_elem_of_empty b)) as H.
    rewrite E in H. apply H; [vm_compute; lia|done].
  - apply boot_faults; [apply demo_image_ok..|].
    assert (E : bit demo_bitmap demo_bits 3 = false) by (vm_compute; reflexivity).
    pose proof (dealloc_clears (St:=CacheState BlockFile) demo_bitmap demo_bits ∅ 3
      demo_bits_ok demo_bitmap_ok (λ b _, not_elem_of_empty b)) as H.
    rewrite E in H. apply H; [vm_compute; lia|done].
Defined.

(** Allocating a bit and freeing it again restores the disk exactly. *)
Theorem alloc_dealloc_roundtrip {St} `{HS : BlockStore St, HL : !BlockStoreLaws St} bm v h k :
  bm_ok bm v → (∀ b, bm_block bm b → b ∉ h) → (size h < BLOCK_CACHE_SIZE)%nat →
  first_free bm v k →
  runs (o ← alloc (St:=St) bm; k ← lift (unwrap o); dealloc bm k) v h tt v.
Proof.
  intros Hok Hh Hcap Hk. assert (0 ≤ k < maximum bm) by apply Hk.
  apply runs_view_ok. intros Hv. eapply runs_bind.
  { apply alloc_from_some; [done..|destruct Hok; lia| |done]. unfold BLOCK_BITS. lia. }
  eapply runs_bind; [by apply runs_lift|].
  rewrite <- (set_bit_set_bit bm k true false v) at 2 by (done || apply Hk).
  apply dealloc_set; [by apply bm_ok_set_bit|done..|].
  rewrite bit_set_bit by done. by rewrite decide_True.
Qed.

Lemma alloc_dealloc_roundtrip_witness :
  ∃ s', (o ← alloc demo_bitmap; k ← lift (unwrap o); dealloc demo_bitmap k)
          (boot demo_image) = Ok (tt, s') ∧ cache_view s' = demo_bits.
Proof.
  apply boot_runs; [apply demo_image_ok..|].
  apply (alloc_dealloc_roundtrip demo_bitmap demo_bits ∅ 3 demo_bitmap_ok
           (λ b _, not_elem_of_empty b)); [vm_compute; lia|apply demo_first_free].
Defined.
