(* ===== verification/Layout.v ===== *)
(** * On-disk structures (easy-fs/src/layout.rs, the data)

    The structures easy-fs overlays on block bytes: the super block, the
    inode, the directory entry and the block of 128 indices.  Each has a
    decoder and an encoder between its bytes and a record, with the field
    offsets of its [repr(C)] layout, and the arithmetic on block counts. *)

From S2P Require Import Prelude Bytes BlockStore.

Definition EFS_MAGIC : Z := 0x3b800001.
Definition INODE_DIRECT_COUNT : Z := 28.
Definition NAME_LENGTH_LIMIT : nat := 27.
Definition INODE_INDIRECT1_COUNT : Z := 128.
Definition INODE_INDIRECT2_COUNT : Z := 16384.
Definition INDIRECT1_BOUND : Z := 156.
Definition INDIRECT2_BOUND : Z := 16540.
Definition BSZ : Z := 512.

(** ** The super block *)

Record SuperBlock := mkSuperBlock {
  magic : Z;
  sb_total_blocks : Z;
  inode_bitmap_blocks : Z;
  inode_area_blocks : Z;
  data_bitmap_blocks : Z;
  data_area_blocks : Z;
}.

Definition SuperBlock_SZ : nat := 24.

Definition SuperBlock_initialize (total ib ia db da : Z) : SuperBlock :=
  mkSuperBlock EFS_MAGIC total ib ia db da.

Definition is_valid (sb : SuperBlock) : bool := magic sb =? EFS_MAGIC.

Definition SuperBlock_decode (bs : list Z) : SuperBlock :=
  mkSuperBlock (rd 4 0 bs) (rd 4 4 bs) (rd 4 8 bs) (rd 4 12 bs) (rd 4 16 bs) (rd 4 20 bs).

Definition SuperBlock_encode (sb : SuperBlock) : list Z :=
  le_put 4 (magic sb) ++ le_put 4 (sb_total_blocks sb) ++ le_put 4 (inode_bitmap_blocks sb) ++
  le_put 4 (inode_area_blocks sb) ++ le_put 4 (data_bitmap_blocks sb) ++
  le_put 4 (data_area_blocks sb).

(** ** Arrays of [u32] *)

(** The [n] words from the front of [bs], and the bytes of such an array. *)
Fixpoint words (n : nat) (bs : list Z) : list Z :=
  match n with
  | O => []
  | S n => le_get (take 4 bs) :: words n (drop 4 bs)
  end.
Fixpoint unwords (l : list Z) : list Z :=
  match l with
  | [] => []
  | x :: l => le_put 4 x ++ unwords l
  end.

(** ** The inode *)

Inductive DiskInodeType := File | Directory.

#[export] Instance DiskInodeType_eq_dec : EqDecision DiskInodeType.
Proof. solve_decision. Defined.

Record DiskInode := mkDiskInode {
  di_size : Z;
  direct : list Z;
  indirect1 : Z;
  indirect2 : Z;
  type_ : DiskInodeType;
}.

Definition DiskInode_SZ : nat := 128.

Definition DiskInode_initialize (ty : DiskInodeType) : DiskInode :=
  mkDiskInode 0 (replicate 28 0) 0 0 ty.

Definition is_dir (di : DiskInode) : bool := bool_decide (type_ di = Directory).
Definition is_file (di : DiskInode) : bool := bool_decide (type_ di = File).

Definition type_byte (ty : DiskInodeType) : Z :=
  match ty with File => 0 | Directory => 1 end.

Definition DiskInode_decode (bs : list Z) : DiskInode :=
  mkDiskInode (rd 4 0 bs) (words 28 (drop 4 bs)) (rd 4 116 bs) (rd 4 120 bs)
    (if rd 1 124 bs =? 0 then File else Directory).

(** The three bytes after [type_] are padding; writes to the fields keep them. *)
Definition DiskInode_encode (di : DiskInode) (old : list Z) : list Z :=
  le_put 4 (di_size di) ++ unwords (direct di) ++ le_put 4 (indirect1 di) ++
  le_put 4 (indirect2 di) ++ [type_byte (type_ di)] ++ drop 125 old.

Definition _data_blocks (size : Z) : Z := u32 (u32 (size + BSZ) - 1) / BSZ.
Definition data_blocks (di : DiskInode) : Z := _data_blocks (di_size di).

Definition total_blocks (size : Z) : Z :=
  let data_blocks := _data_blocks size in
  let total := data_blocks in
  let total := if INODE_DIRECT_COUNT <? data_blocks then total + 1 else total in
  let total :=
    if INDIRECT1_BOUND <? data_blocks then
      total + 1 + (data_blocks - INDIRECT1_BOUND + INODE_INDIRECT1_COUNT - 1)
                    / INODE_INDIRECT1_COUNT
    else total in
  u32 total.

Definition blocks_num_needed (di : DiskInode) (new_size : Z) : result Z :=
  assert_ (di_size di <=? new_size);;
  mret (u32 (total_blocks new_size - total_blocks (di_size di))).

(** ** The directory entry *)

Record DirEntry := mkDirEntry {
  de_name : list Z;   (* 28 bytes *)
  de_inode_id : Z;
}.

Definition DIRENT_SZ : nat := 32.

Definition DirEntry_empty : DirEntry := mkDirEntry (replicate 28 0) 0.

(** [bytes[..name.len()]] panics when the name is longer than the array. *)
Definition DirEntry_new (name : list Z) (inode_id : Z) : result DirEntry :=
  assert_ (length name <=? 28)%nat;;
  mret (mkDirEntry (name ++ replicate (28 - length name) 0) inode_id).

Definition DirEntry_as_bytes (e : DirEntry) : list Z := de_name e ++ le_put 4 (de_inode_id e).

(** A write through [as_bytes_mut] of all 32 bytes. *)
Definition DirEntry_of_bytes (bs : list Z) : DirEntry :=
  mkDirEntry (take 28 bs) (rd 4 28 bs).

(** [core::str::from_utf8]: the well-formed byte sequences of the Unicode
    standard's table 3-7. *)
Definition between (lo hi b : Z) : bool := (lo <=? b) && (b <=? hi).

Definition utf8_2 (b0 b1 : Z) : bool := between 0xC2 0xDF b0 && between 0x80 0xBF b1.
Definition utf8_3 (b0 b1 b2 : Z) : bool :=
  (((b0 =? 0xE0) && between 0xA0 0xBF b1) || (between 0xE1 0xEC b0 && between 0x80 0xBF b1) ||
   ((b0 =? 0xED) && between 0x80 0x9F b1) || (between 0xEE 0xEF b0 && between 0x80 0xBF b1)) &&
  between 0x80 0xBF b2.
Definition utf8_4 (b0 b1 b2 b3 : Z) : bool :=
  (((b0 =? 0xF0) && between 0x90 0xBF b1) || (between 0xF1 0xF3 b0 && between 0x80 0xBF b1) ||
   ((b0 =? 0xF4) && between 0x80 0x8F b1)) &&
  between 0x80 0xBF b2 && between 0x80 0xBF b3.

Fixpoint from_utf8 (bs : list Z) : bool :=
  match bs with
  | [] => true
  | b0 :: r0 =>
      if b0 <? 0x80 then from_utf8 r0 else
      match r0 with
      | [] => false
      | b1 :: r1 =>
          if utf8_2 b0 b1 then from_utf8 r1 else
          match r1 with
          | [] => false
          | b2 :: r2 =>
              if utf8_3 b0 b1 b2 then from_utf8 r2 else
              match r2 with
              | [] => false
              | b3 :: r3 => if utf8_4 b0 b1 b2 b3 then from_utf8 r3 else false
              end
          end
      end
  end.

(** [name()]: the bytes before the first zero; without one, indexing beyond the
    array panics. *)
Definition DirEntry_name (e : DirEntry) : result (list Z) :=
  len ← unwrap (list_find (λ b, b = 0) (de_name e));
  assert_ (from_utf8 (take (fst len) (de_name e)));;
  mret (take (fst len) (de_name e)).

(** ** Arrays of [u32]: lemmas *)

Lemma length_words n bs : length (words n bs) = n.
Proof. revert bs. induction n as [|n IH]; intros bs; simpl; [done|by rewrite IH]. Qed.

Lemma lookup_words n bs i : (i < n)%nat → words n bs !! i = Some (rd 4 (4 * i) bs).
Proof.
  revert bs i. induction n as [|n IH]; intros bs i Hi; [lia|].
  destruct i as [|i]; [done|]. simpl words. cbn [lookup list_lookup]. rewrite IH by lia.
  unfold rd, slice. rewrite drop_drop. by replace (4 + 4 * i)%nat with (4 * S i)%nat by lia.
Qed.

Lemma length_unwords l : length (unwords l) = (4 * length l)%nat.
Proof.
  induction l as [|x l IH]; [done|]. cbn [unwords]. rewrite length_app, length_le_put, IH.
  simpl. lia.
Qed.

Lemma unwords_bytes l : bytes (unwords l).
Proof.
  induction l as [|x l IH]; [constructor|]. cbn [unwords].
  apply Forall_app_2; [apply le_put_bytes|done].
Qed.

Definition is_u32 (x : Z) : Prop := 0 ≤ x < 2 ^ 32.

#[export] Instance is_u32_dec x : Decision (is_u32 x).
Proof. unfold is_u32. apply _. Defined.

Lemma get_put_u32 x : is_u32 x → le_get (le_put 4 x) = x.
Proof. intros Hx. rewrite le_get_put. by apply Z.mod_small. Qed.

Lemma words_unwords l tl : Forall is_u32 l → words (length l) (unwords l ++ tl) = l.
Proof.
  intros Hl. induction Hl as [|x l Hx Hl IH]; [done|]. cbn [unwords length words].
  rewrite <- app_assoc. rewrite take_app_length' by by rewrite length_le_put.
  rewrite drop_app_length' by by rewrite length_le_put. by rewrite get_put_u32, IH.
Qed.

Lemma words_unwords_all l : Forall is_u32 l → words (length l) (unwords l) = l.
Proof. intros. rewrite <- (app_nil_r (unwords l)). by apply words_unwords. Qed.

Lemma unwords_words n bs : bytes bs → length bs = (4 * n)%nat → unwords (words n bs) = bs.
Proof.
  revert bs. induction n as [|n IH]; intros bs Hb Hl; [by apply nil_length_inv in Hl|].
  cbn [words unwords].
  rewrite IH by (first [by apply Forall_drop|rewrite length_drop; lia]).
  assert (length (take 4 bs) = 4%nat) as E by (rewrite length_take; lia).
  rewrite <- E at 1. rewrite le_put_get by by apply Forall_take. apply take_drop.
Qed.

Lemma words_u32 n bs : bytes bs → (4 * n ≤ length bs)%nat → Forall is_u32 (words n bs).
Proof.
  intros Hb Hl. apply Forall_lookup. intros i x Hx.
  assert (Hi : (i < n)%nat) by (rewrite <- (length_words n bs); by eapply lookup_lt_Some).
  rewrite lookup_words in Hx by done. injection Hx as <-.
  apply (rd_range 4); [lia|done].
Qed.

(** ** Round trips *)

Definition sb_ok (sb : SuperBlock) : Prop :=
  is_u32 (magic sb) ∧ is_u32 (sb_total_blocks sb) ∧ is_u32 (inode_bitmap_blocks sb) ∧
  is_u32 (inode_area_blocks sb) ∧ is_u32 (data_bitmap_blocks sb) ∧ is_u32 (data_area_blocks sb).

Lemma SuperBlock_decode_encode sb : sb_ok sb → SuperBlock_decode (SuperBlock_encode sb) = sb.
Proof.
  intros (?&?&?&?&?&?). destruct sb as [a b c d e f]. unfold SuperBlock_decode, SuperBlock_encode.
  cbn [magic sb_total_blocks inode_bitmap_blocks inode_area_blocks data_bitmap_blocks
       data_area_blocks] in *.
  f_equal; [rewrite <- (get_put_u32 a) at 2|rewrite <- (get_put_u32 b) at 2
           |rewrite <- (get_put_u32 c) at 2|rewrite <- (get_put_u32 d) at 2
           |rewrite <- (get_put_u32 e) at 2|rewrite <- (get_put_u32 f) at 2]; done.
Qed.

Lemma SuperBlock_encode_length sb : length (SuperBlock_encode sb) = SuperBlock_SZ.
Proof. done. Qed.

(** An inode whose fields fit their types. *)
Definition di_ok (di : DiskInode) : Prop :=
  is_u32 (di_size di) ∧ length (direct di) = 28%nat ∧ Forall is_u32 (direct di) ∧
  is_u32 (indirect1 di) ∧ is_u32 (indirect2 di).

Lemma DiskInode_encode_length di old :
  di_ok di → length old = DiskInode_SZ → length (DiskInode_encode di old) = DiskInode_SZ.
Proof.
  intros (_ & Hl & _) Ho. unfold DiskInode_encode.
  rewrite !length_app, !length_le_put, length_unwords, Hl, length_drop, Ho. done.
Qed.

Lemma DiskInode_encode_bytes di old : bytes old → bytes (DiskInode_encode di old).
Proof.
  intros Ho. unfold DiskInode_encode. repeat apply Forall_app_2;
    try apply le_put_bytes; [apply unwords_bytes| |by apply Forall_drop].
  constructor; [by destruct (type_ di)|constructor].
Qed.

Lemma slice_app_r {A} off n (a b : list A) :
  (length a ≤ off)%nat → slice off n (a ++ b) = slice (off - length a) n b.
Proof. intros. unfold slice. by rewrite drop_app_ge. Qed.

Lemma slice_app_l {A} n (a b : list A) : n = length a → slice 0 n (a ++ b) = a.
Proof. intros ->. unfold slice. rewrite drop_0. by apply take_app_length. Qed.

Lemma DiskInode_decode_encode di old :
  di_ok di → DiskInode_decode (DiskInode_encode di old) = di.
Proof.
  intros (Hs & Hl & Hd & H1 & H2). destruct di as [sz dir i1 i2 ty].
  cbn [di_size direct indirect1 indirect2 type_] in *.
  unfold DiskInode_decode, DiskInode_encode, rd.
  cbn [di_size direct indirect1 indirect2 type_].
  assert (Hu : length (unwords dir) = 112%nat) by (rewrite length_unwords, Hl; done).
  f_equal.
  - rewrite slice_app_l by (by rewrite length_le_put). by apply get_put_u32.
  - rewrite drop_app_length' by by rewrite length_le_put. rewrite <- Hl. by apply words_unwords.
  - do 2 (rewrite slice_app_r by (rewrite ?length_le_put, ?Hu; lia)).
    rewrite length_le_put, Hu. rewrite slice_app_l by (by rewrite length_le_put).
    by apply get_put_u32.
  - do 3 (rewrite slice_app_r by (rewrite ?length_le_put, ?Hu; lia)).
    rewrite !length_le_put, Hu. rewrite slice_app_l by (by rewrite length_le_put).
    by apply get_put_u32.
  - do 4 (rewrite slice_app_r by (rewrite ?length_le_put, ?Hu; lia)).
    rewrite !length_le_put, Hu. by destruct ty.
Qed.

Lemma DiskInode_decode_ok bs :
  bytes bs → length bs = DiskInode_SZ → di_ok (DiskInode_decode bs).
Proof.
  intros Hb Hl. unfold DiskInode_SZ in Hl. unfold di_ok, DiskInode_decode.
  cbn [di_size direct indirect1 indirect2]. split_and!.
  - apply (rd_range 4); [lia|done].
  - apply length_words.
  - apply words_u32; [by apply Forall_drop|rewrite length_drop; lia].
  - apply (rd_range 4); [lia|done].
  - apply (rd_range 4); [lia|done].
Qed.

Lemma DirEntry_of_as e :
  length (de_name e) = 28%nat → is_u32 (de_inode_id e) →
  DirEntry_of_bytes (DirEntry_as_bytes e) = e.
Proof.
  intros Hl Hi. destruct e as [nm id]. unfold DirEntry_of_bytes, DirEntry_as_bytes, rd.
  cbn [de_name de_inode_id] in *. f_equal; [by rewrite take_app_length'|].
  rewrite slice_app_r, Hl by lia. rewrite slice_all by done. by apply get_put_u32.
Qed.

(** The name of an entry padded with zeros. *)
Lemma padded_name (name : list Z) (id : Z) :
  (0 ∉ name) → from_utf8 name = true → (length name ≤ 27)%nat →
  DirEntry_name (mkDirEntry (name ++ replicate (28 - length name) 0) id) = Ok name.
Proof.
  intros Hnz Hu Hl. unfold DirEntry_name. cbn [de_name].
  assert (list_find (λ b, b = 0) (name ++ replicate (28 - length name) 0)
          = Some (length name, 0)) as ->.
  { apply list_find_Some. split_and!; [|done|].
    - rewrite lookup_app_r, Nat.sub_diag by lia. rewrite lookup_replicate. split; [done|lia].
    - intros j y Hy Hj ->. rewrite lookup_app_l in Hy by done.
      by apply Hnz, list_elem_of_lookup_2 with j. }
  mstep. cbn [fst unwrap]. by rewrite take_app_length, Hu.
Qed.

(** A directory entry made of a valid file name is read back from its 32
    bytes with that name and inode number; the name may have at most 27 bytes
    and no NUL.  A 28-byte name is stored but makes [name()] panic, and a
    longer one makes [DirEntry::new] panic. *)
Theorem DirEntry_roundtrip (name : list Z) (inode_id : Z) :
  (0 ∉ name) → from_utf8 name = true → is_u32 inode_id →
  if (length name <=? NAME_LENGTH_LIMIT)%nat then
    ∃ e, DirEntry_new name inode_id = Ok e ∧ length (DirEntry_as_bytes e) = DIRENT_SZ ∧
      DirEntry_name (DirEntry_of_bytes (DirEntry_as_bytes e)) = Ok name ∧
      de_inode_id (DirEntry_of_bytes (DirEntry_as_bytes e)) = inode_id
  else (e ← DirEntry_new name inode_id; DirEntry_name e) = Fail Panic.
Proof.
  intros Hnz Hu Hi. unfold NAME_LENGTH_LIMIT, DirEntry_new.
  destruct (Nat.leb_spec (length name) 27) as [Hl|Hl].
  - rewrite (proj2 (Nat.leb_le _ _)) by lia. eexists. split; [done|].
    rewrite DirEntry_of_as; cbn [de_name de_inode_id];
      [|rewrite length_app, length_replicate; lia|done].
    split_and!; [| |done].
    + unfold DirEntry_as_bytes. cbn [de_name de_inode_id].
      rewrite !length_app, length_replicate, length_le_put. unfold DIRENT_SZ. lia.
    + by apply padded_name.
  - destruct (Nat.leb_spec (length name) 28); [|done].
    assert (length name = 28%nat) as E by lia. rewrite E. mstep.
    assert (list_find (λ b, b = 0) name = None) as F.
    { apply list_find_None, Forall_forall. by intros x Hx ->. }
    cbn [assert_ Nat.leb Nat.sub replicate]. unfold DirEntry_name. cbn [de_name].
    by rewrite app_nil_r, F.
Qed.

Lemma DirEntry_roundtrip_witness :
  ∃ e, DirEntry_new [104; 105] 7 = Ok e ∧ length (DirEntry_as_bytes e) = DIRENT_SZ ∧
    DirEntry_name (DirEntry_of_bytes (DirEntry_as_bytes e)) = Ok [104; 105] ∧
    de_inode_id (DirEntry_of_bytes (DirEntry_as_bytes e)) = 7.
Proof.
  apply (DirEntry_roundtrip [104; 105] 7).
  - rewrite !not_elem_of_cons. split_and!; [done..|apply not_elem_of_nil].
  - reflexivity.
  - done.
Defined.
