(* ===== verification/Inode.v ===== *)
(** * The block index of an inode (easy-fs/src/layout.rs, [DiskInode])

    An inode names its data blocks through 28 direct entries, one block of 128
    entries, and one block of 128 blocks of 128 entries.  [get_block_id] looks
    an entry up, [increase_size] appends entries, allocating index blocks on
    the way, and [clear_size] gives every block back.  The specification is the
    list of data blocks [data_ids] and the list of index blocks [index_ids] of
    an inode in a view. *)

From S2P Require Import Prelude Bytes BlockStore BlockCache BlockFile Layout.
From Stdlib Require Import ZifyNat.

Definition set_size (n : Z) (di : DiskInode) : DiskInode :=
  mkDiskInode n (direct di) (indirect1 di) (indirect2 di) (type_ di).
Definition set_direct (l : list Z) (di : DiskInode) : DiskInode :=
  mkDiskInode (di_size di) l (indirect1 di) (indirect2 di) (type_ di).
Definition set_indirect1 (b : Z) (di : DiskInode) : DiskInode :=
  mkDiskInode (di_size di) (direct di) b (indirect2 di) (type_ di).
Definition set_indirect2 (b : Z) (di : DiskInode) : DiskInode :=
  mkDiskInode (di_size di) (direct di) (indirect1 di) b (type_ di).

(** [new_blocks.next().unwrap()] *)
Definition next (it : list Z) : result (Z * list Z) :=
  match it with
  | [] => Fail Panic
  | b :: it => Ok (b, it)
  end.

(** [while current < bound { arr[current] = new_blocks.next().unwrap(); current += 1 }] *)
Fixpoint fill (fuel : nat) (current bound : Z) (arr it : list Z) :
    result (list Z * Z * list Z) :=
  if current <? bound then
    match fuel with
    | O => Fail OutOfFuel
    | S fuel =>
        '(b, it) ← next it;
        arr ← upd arr current b;
        fill fuel (current + 1) bound arr it
    end
  else mret (arr, current, it).

Section inode.
Context {St : Type} `{BlockStore St}.

Definition get_block_id (di : DiskInode) (inner_id : Z) : M St Z :=
  if inner_id <? INODE_DIRECT_COUNT then lift (idx (direct di) inner_id)
  else if inner_id <? INDIRECT1_BOUND then
    bc_read (indirect1 di) 0 BLOCK_SZ
      (λ bs, lift (idx (words 128 bs) (inner_id - INODE_DIRECT_COUNT)))
  else
    let last := inner_id - INDIRECT1_BOUND in
    i1 ← bc_read (indirect2 di) 0 BLOCK_SZ
           (λ bs, lift (idx (words 128 bs) (last / INODE_INDIRECT1_COUNT)));
    bc_read i1 0 BLOCK_SZ
      (λ bs, lift (idx (words 128 bs) (last mod INODE_INDIRECT1_COUNT))).

(** The loop that fills the second level from (a0, b0) to (a1, b1); [ind2] is
    the array the enclosing closure modifies. *)
Fixpoint fill2 (fuel : nat) (a0 b0 a1 b1 : Z) (ind2 it : list Z) :
    M St (list Z * list Z) :=
  if (a0 <? a1) || ((a0 =? a1) && (b0 <? b1)) then
    match fuel with
    | O => throw OutOfFuel
    | S fuel =>
        '(ind2, it) ← lift (if b0 =? 0 then
                              '(b, it) ← next it;
                              ind2 ← upd ind2 a0 b;
                              mret (ind2, it)
                            else mret (ind2, it));
        i1 ← lift (idx ind2 a0);
        it ← bc_modify i1 0 BLOCK_SZ
               (λ bs, lift ('(b, it) ← next it;
                            ind1 ← upd (words 128 bs) b0 b;
                            mret (it, unwords ind1)));
        let b0 := b0 + 1 in
        if b0 =? INODE_INDIRECT1_COUNT then fill2 fuel (a0 + 1) 0 a1 b1 ind2 it
        else fill2 fuel a0 b0 a1 b1 ind2 it
    end
  else mret (ind2, it).

(** "fill direct" *)
Definition increase_direct (di : DiskInode) (current total : Z) (it : list Z) :
    result (DiskInode * Z * list Z) :=
  let bound := Z.min total INODE_DIRECT_COUNT in
  '(dir, current, it) ← fill (Z.to_nat (bound - current)) current bound (direct di) it;
  mret (set_direct dir di, current, it).

(** "alloc indirect1" and "fill indirect1" *)
Definition increase_indirect1 (di : DiskInode) (current total : Z) (it : list Z) :
    M St (DiskInode * Z * Z * list Z) :=
  '(di, it) ← lift (if current =? INODE_DIRECT_COUNT then
                      '(b, it) ← next it; mret (set_indirect1 b di, it)
                    else mret (di, it));
  let current := u32 (current - INODE_DIRECT_COUNT) in
  let total := u32 (total - INODE_DIRECT_COUNT) in
  let bound := Z.min total INODE_INDIRECT1_COUNT in
  '(current, it) ←
    bc_modify (indirect1 di) 0 BLOCK_SZ
      (λ bs, lift ('(ind1, current, it) ←
                     fill (Z.to_nat (bound - current)) current bound (words 128 bs) it;
                   mret ((current, it), unwords ind1)));
  mret (di, current, total, it).

(** "alloc indirect2" and "fill indirect2 from (a0, b0) -> (a1, b1)" *)
Definition increase_indirect2 (di : DiskInode) (current total : Z) (it : list Z) :
    M St DiskInode :=
  '(di, it) ← lift (if current =? INODE_INDIRECT1_COUNT then
                      '(b, it) ← next it; mret (set_indirect2 b di, it)
                    else mret (di, it));
  let current := u32 (current - INODE_INDIRECT1_COUNT) in
  let total := u32 (total - INODE_INDIRECT1_COUNT) in
  let a0 := current / INODE_INDIRECT1_COUNT in
  let b0 := current mod INODE_INDIRECT1_COUNT in
  let a1 := total / INODE_INDIRECT1_COUNT in
  let b1 := total mod INODE_INDIRECT1_COUNT in
  bc_modify (indirect2 di) 0 BLOCK_SZ
    (λ bs, '(ind2, it) ← fill2 (Z.to_nat (total - current)) a0 b0 a1 b1 (words 128 bs) it;
           mret (it, unwords ind2));;
  mret di.

Definition increase_size (di : DiskInode) (new_size : Z) (new_blocks : list Z) : M St DiskInode :=
  let current := data_blocks di in
  let di := set_size new_size di in
  let total := data_blocks di in
  '(di, current, it) ← lift (increase_direct di current total new_blocks);
  if INODE_DIRECT_COUNT <? total then
    '(di, current, total, it) ← increase_indirect1 di current total it;
    if INODE_INDIRECT1_COUNT <? total then increase_indirect2 di current total it
    else mret di
  else mret di.

(** [for entry in indirect2.iter_mut().take(a1)]: each full second-level block
    is pushed with its 128 entries. *)
Fixpoint clear_full (entries v : list Z) : M St (list Z) :=
  match entries with
  | [] => mret v
  | entry :: entries =>
      v ← bc_modify entry 0 BLOCK_SZ
            (λ bs, mret ((v ++ [entry]) ++ words 128 bs, bs));
      clear_full entries v
  end.

(** [while current < bound { v.push(direct[current]); direct[current] = 0; .. }] *)
Fixpoint clear_direct (fuel : nat) (current bound : Z) (dir v : list Z) :
    result (list Z * list Z) :=
  if current <? bound then
    match fuel with
    | O => Fail OutOfFuel
    | S fuel =>
        b ← idx dir current;
        dir ← upd dir current 0;
        clear_direct fuel (current + 1) bound dir (v ++ [b])
    end
  else mret (dir, v).

(** [while current < bound { v.push(indirect1[current]); current += 1 }] *)
Fixpoint push_indirect1 (fuel : nat) (current bound : Z) (ind1 v : list Z) :
    result (list Z) :=
  if current <? bound then
    match fuel with
    | O => Fail OutOfFuel
    | S fuel =>
        b ← idx ind1 current;
        push_indirect1 fuel (current + 1) bound ind1 (v ++ [b])
    end
  else mret v.

Definition clear_size (di : DiskInode) : M St (DiskInode * list Z) :=
  let data_blocks := data_blocks di in
  let di := set_size 0 di in
  (* direct *)
  let bound := Z.min data_blocks INODE_DIRECT_COUNT in
  '(dir, v) ← lift (clear_direct (Z.to_nat bound) 0 bound (direct di) []);
  let di := set_direct dir di in
  (* indirect1 block *)
  if negb (INODE_DIRECT_COUNT <? data_blocks) then mret (di, v) else
  let v := v ++ [indirect1 di] in
  let data_blocks := data_blocks - INODE_DIRECT_COUNT in
  let bound := Z.min data_blocks INODE_INDIRECT1_COUNT in
  v ← bc_modify (indirect1 di) 0 BLOCK_SZ
        (λ bs, lift (v ← push_indirect1 (Z.to_nat bound) 0 bound (words 128 bs) v;
                     mret (v, bs)));
  let di := set_indirect1 0 di in
  (* indirect2 block *)
  if negb (INODE_INDIRECT1_COUNT <? data_blocks) then mret (di, v) else
  let v := v ++ [indirect2 di] in
  let data_blocks := data_blocks - INODE_INDIRECT1_COUNT in
  lift (assert_ (data_blocks <=? INODE_INDIRECT2_COUNT));;
  let a1 := data_blocks / INODE_INDIRECT1_COUNT in
  let b1 := data_blocks mod INODE_INDIRECT1_COUNT in
  v ← bc_modify (indirect2 di) 0 BLOCK_SZ
        (λ bs2,
           v ← clear_full (take (Z.to_nat a1) (words 128 bs2)) v;
           v ← (if 0 <? b1 then
                  entry ← lift (idx (words 128 bs2) a1);
                  bc_modify entry 0 BLOCK_SZ
                    (λ bs, mret ((v ++ [entry]) ++ take (Z.to_nat b1) (words 128 bs), bs))
                else mret v);
           mret (v, bs2));
  mret (set_indirect2 0 di, v).
End inode.

(** ** Specification: the blocks an inode names *)

(** The 128 entries of an index block. *)
Definition ids_of (v : gmap Z (list Z)) (b : Z) : list Z := words 128 (v !!! b).

Definition nth_id (di : DiskInode) (v : gmap Z (list Z)) (i : nat) : Z :=
  if (i <? 28)%nat then direct di !!! i
  else if (i <? 156)%nat then ids_of v (indirect1 di) !!! (i - 28)%nat
  else ids_of v (ids_of v (indirect2 di) !!! ((i - 156) / 128)%nat) !!! ((i - 156) mod 128)%nat.

(** The number of second-level index blocks behind [n] data blocks. *)
Definition nsubs (n : nat) : nat := ((n - 156 + 127) / 128)%nat.

Definition data_ids (n : nat) (di : DiskInode) (v : gmap Z (list Z)) : list Z :=
  nth_id di v <$> seq 0 n.

Definition subs (k : nat) (di : DiskInode) (v : gmap Z (list Z)) : list Z :=
  (λ a, ids_of v (indirect2 di) !!! a) <$> seq 0 k.

Definition index_ids (n : nat) (di : DiskInode) (v : gmap Z (list Z)) : list Z :=
  (if (28 <? n)%nat then [indirect1 di] else []) ++
  (if (156 <? n)%nat then [indirect2 di] else []) ++ subs (nsubs n) di v.

(** The data blocks the size calls for. *)
Definition nblocks (di : DiskInode) : nat := Z.to_nat (data_blocks di).

Definition all_ids (di : DiskInode) (v : gmap Z (list Z)) : list Z :=
  data_ids (nblocks di) di v ++ index_ids (nblocks di) di v.

(** An inode all of whose blocks are distinct blocks of the disk. *)
Definition inode_wf (di : DiskInode) (v : gmap Z (list Z)) : Prop :=
  di_ok di ∧ di_size di ≤ INDIRECT2_BOUND * BSZ ∧
  NoDup (all_ids di v) ∧ ∀ b, b ∈ all_ids di v → is_Some (v !! b).

(** ** Block counts *)

Definition MAX_SIZE : Z := INDIRECT2_BOUND * BSZ.

Lemma data_blocks_eq size : 0 ≤ size ≤ MAX_SIZE → _data_blocks size = (size + 511) / 512.
Proof.
  intros Hs. unfold _data_blocks, MAX_SIZE, INDIRECT2_BOUND, BSZ in *.
  rewrite (u32_small (size + 512)), u32_small by lia. f_equal. lia.
Qed.

Lemma data_blocks_bound size : 0 ≤ size ≤ MAX_SIZE → 0 ≤ _data_blocks size ≤ 16540.
Proof.
  intros Hs. rewrite data_blocks_eq by done. unfold MAX_SIZE, INDIRECT2_BOUND, BSZ in *.
  Z.to_euclidean_division_equations; lia.
Qed.

Lemma data_blocks_mono s1 s2 :
  0 ≤ s1 ≤ s2 → s2 ≤ MAX_SIZE → _data_blocks s1 ≤ _data_blocks s2.
Proof.
  intros Hs Hm. rewrite !data_blocks_eq by lia. apply Z.div_le_mono; lia.
Qed.

(** Data and index blocks behind [n] data blocks. *)
Definition nall (n : nat) : nat :=
  (n + (if 28 <? n then 1 else 0) + (if 156 <? n then 1 else 0) + nsubs n)%nat.

Lemma length_data_ids n di v : length (data_ids n di v) = n.
Proof. unfold data_ids. by rewrite length_fmap, length_seq. Qed.

Lemma length_subs k di v : length (subs k di v) = k.
Proof. unfold subs. by rewrite length_fmap, length_seq. Qed.

Lemma length_all_ids n di v : length (data_ids n di v ++ index_ids n di v) = nall n.
Proof.
  unfold index_ids, nall. rewrite !length_app, length_data_ids, length_subs.
  destruct (28 <? n)%nat, (156 <? n)%nat; simpl; lia.
Qed.

Lemma total_blocks_nall size :
  0 ≤ size ≤ MAX_SIZE → total_blocks size = Z.of_nat (nall (Z.to_nat (_data_blocks size))).
Proof.
  intros Hs. assert (Hb := data_blocks_bound size Hs). unfold total_blocks, nall, nsubs.
  unfold INODE_DIRECT_COUNT, INDIRECT1_BOUND, INODE_INDIRECT1_COUNT.
  set (d := _data_blocks size) in *.
  rewrite !Nat2Z.inj_add, Nat2Z.inj_div.
  destruct (Z.ltb_spec 28 d), (Nat.ltb_spec 28 (Z.to_nat d)); try lia;
    destruct (Z.ltb_spec 156 d), (Nat.ltb_spec 156 (Z.to_nat d)); try lia;
    (rewrite u32_small by (Z.to_euclidean_division_equations; lia));
    Z.to_euclidean_division_equations; lia.
Qed.

Lemma nall_mono n m : (n ≤ m)%nat → (nall n ≤ nall m)%nat.
Proof.
  intros Hn. unfold nall, nsubs.
  assert ((n - 156 + 127) / 128 ≤ (m - 156 + 127) / 128)%nat by (apply Nat.Div0.div_le_mono; lia).
  destruct (Nat.ltb_spec 28 n), (Nat.ltb_spec 28 m), (Nat.ltb_spec 156 n),
    (Nat.ltb_spec 156 m); lia.
Qed.

(** ** Lookup *)

Lemma length_ids_of v b : length (ids_of v b) = 128%nat.
Proof. apply length_words. Qed.

Lemma words_slice_all n blk : length blk = BLOCK_SZ → words n (slice 0 BLOCK_SZ blk) = words n blk.
Proof. intros. by rewrite slice_all. Qed.

Lemma idx_total (l : list Z) i : 0 ≤ i < Z.of_nat (length l) → idx l i = Ok (l !!! Z.to_nat i).
Proof.
  intros Hi. apply idx_Ok. destruct (lookup_lt_is_Some_2 l (Z.to_nat i)) as [x E]; [lia|].
  by rewrite (list_lookup_total_correct _ _ _ E), E.
Qed.

Lemma elem_of_subs di v k a :
  (a < k)%nat → ids_of v (indirect2 di) !!! a ∈ subs k di v.
Proof. intros. apply list_elem_of_fmap. exists a. rewrite elem_of_seq. split; [done|lia]. Qed.

Lemma sub_elem_of n di v i :
  (156 ≤ i < n)%nat →
  ids_of v (indirect2 di) !!! ((i - 156) / 128)%nat ∈ index_ids n di v.
Proof.
  intros Hi. unfold index_ids. rewrite !elem_of_app. right. right. apply elem_of_subs.
  unfold nsubs. zify. Z.to_euclidean_division_equations; lia.
Qed.

Section lookup.
Context {St : Type} `{HS : BlockStore St, HL : !BlockStoreLaws St}.

Lemma read_ids b i v h :
  is_Some (v !! b) → b ∉ h → (size h < BLOCK_CACHE_SIZE)%nat → 0 ≤ i < 128 →
  runs (S:=St) (bc_read b 0 BLOCK_SZ (λ bs, lift (idx (words 128 bs) i))) v h
    (ids_of v b !!! Z.to_nat i) v.
Proof.
  intros [blk E] Hh Hc Hi. apply runs_view_ok. intros Hv. destruct (Hv _ _ E) as [Hl _].
  eapply runs_read; [done..|]. apply runs_lift. rewrite words_slice_all by done.
  rewrite idx_total by (rewrite length_words; lia).
  unfold ids_of. by rewrite (lookup_total_correct _ _ _ E).
Qed.

Lemma get_block_id_run di v h i n :
  di_ok di → (i < n)%nat → Z.of_nat n ≤ 16540 → (∀ b, b ∈ index_ids n di v → is_Some (v !! b) ∧ b ∉ h) →
  (size h < BLOCK_CACHE_SIZE)%nat →
  runs (get_block_id (St:=St) di (Z.of_nat i)) v h (nth_id di v i) v.
Proof.
  intros Hok Hi Hn Hix Hc. unfold get_block_id, nth_id, INODE_DIRECT_COUNT, INDIRECT1_BOUND,
    INODE_INDIRECT1_COUNT.
  destruct (Z.ltb_spec (Z.of_nat i) 28), (Nat.ltb_spec i 28); try lia.
  { apply runs_lift. rewrite idx_total by (destruct Hok as (_&->&_); lia). by rewrite Nat2Z.id. }
  destruct (Z.ltb_spec (Z.of_nat i) 156), (Nat.ltb_spec i 156); try lia.
  { replace (i - 28)%nat with (Z.to_nat (Z.of_nat i - 28)) by lia.
    apply read_ids; [| |done|lia]; apply Hix; unfold index_ids;
      rewrite (proj2 (Nat.ltb_lt 28 n)) by lia; set_solver. }
  assert (Hs := sub_elem_of n di v i ltac:(lia)).
  replace ((i - 156) / 128)%nat with (Z.to_nat ((Z.of_nat i - 156) / 128)) in *
    by (zify; Z.to_euclidean_division_equations; lia).
  replace ((i - 156) mod 128)%nat with (Z.to_nat ((Z.of_nat i - 156) mod 128))
    by (zify; Z.to_euclidean_division_equations; lia).
  assert (indirect2 di ∈ index_ids n di v).
  { unfold index_ids. rewrite (proj2 (Nat.ltb_lt 156 n)) by lia. set_solver. }
  eapply runs_bind; apply read_ids; try by apply Hix.
  - done.
  - Z.to_euclidean_division_equations; lia.
  - done.
  - Z.to_euclidean_division_equations; lia.
Qed.
End lookup.

(** ** Growth *)

Lemma fill_ok n k arr it :
  (n + k ≤ length arr)%nat → (k ≤ length it)%nat →
  fill k (Z.of_nat n) (Z.of_nat (n + k)) arr it =
    Ok (splice n (take k it) arr, Z.of_nat (n + k), drop k it).
Proof.
  revert n arr it. induction k as [|k IH]; intros n arr it Ha Hi; cbn [fill].
  { rewrite (proj2 (Z.ltb_ge _ _)) by lia. rewrite Nat.add_0_r, take_0, drop_0.
    rewrite splice_nil by lia. done. }
  destruct it as [|b it]; [simpl in Hi; lia|]. simpl in Hi.
  rewrite (proj2 (Z.ltb_lt _ _)) by lia. mstep. cbn [next].
  rewrite (upd_Ok arr (Z.of_nat n) b) by lia. rewrite Nat2Z.id.
  replace (Z.of_nat n + 1) with (Z.of_nat (S n)) by lia.
  replace (n + S k)%nat with (S n + k)%nat by lia.
  rewrite IH by (rewrite ?length_insert; lia). cbn [take drop].
  by rewrite splice_cons by (rewrite ?length_take; lia).
Qed.

Lemma fill_done (n m : nat) arr it :
  (m ≤ n)%nat →
  fill (Z.to_nat (Z.of_nat m - Z.of_nat n)) (Z.of_nat n) (Z.of_nat m) arr it
  = Ok (arr, Z.of_nat n, it).
Proof.
  intros. replace (Z.to_nat _) with 0%nat by lia. cbn [fill].
  by rewrite (proj2 (Z.ltb_ge _ _)) by lia.
Qed.

Lemma fill_bound (n m : nat) arr it :
  (n ≤ m ≤ length arr)%nat → (m - n ≤ length it)%nat →
  fill (Z.to_nat (Z.of_nat m - Z.of_nat n)) (Z.of_nat n) (Z.of_nat m) arr it
  = Ok (splice n (take (m - n) it) arr, Z.of_nat m, drop (m - n) it).
Proof.
  intros Hm Hi. replace (Z.to_nat (Z.of_nat m - Z.of_nat n)) with (m - n)%nat by lia.
  pose proof (fill_ok n (m - n) arr it) as E.
  replace (n + (m - n))%nat with m in E by lia. apply E; lia.
Qed.

Lemma data_ids_grow n di v di' v' l :
  (∀ i, (i < n)%nat → nth_id di' v' i = nth_id di v i) →
  (∀ k x, l !! k = Some x → nth_id di' v' (n + k) = x) →
  data_ids (n + length l) di' v' = data_ids n di v ++ l.
Proof.
  intros Hold Hnew. unfold data_ids. rewrite seq_app, fmap_app. f_equal.
  - apply list_fmap_ext. intros i j Hj. apply lookup_seq in Hj as [-> Hj]. by apply Hold.
  - apply list_eq. intros k. rewrite list_lookup_fmap. simpl.
    destruct (l !! k) as [x|] eqn:E.
    + assert (k < length l)%nat by by eapply lookup_lt_Some.
      rewrite lookup_seq_lt by done. simpl. f_equal. by apply Hnew.
    + apply lookup_ge_None in E. by rewrite lookup_seq_ge.
Qed.

Lemma subs_ext k di v di' v' :
  (∀ a, (a < k)%nat →
     ids_of v' (indirect2 di') !!! a = ids_of v (indirect2 di) !!! a) →
  subs k di' v' = subs k di v.
Proof.
  intros Ha. apply list_fmap_ext. intros i a Hi. apply lookup_seq in Hi as [-> Hi].
  by apply Ha.
Qed.

(** Direct entries: [n] entries become [m] of the 28. *)
Lemma grow_direct n m di v it :
  (n ≤ m ≤ 28)%nat → length (direct di) = 28%nat → (m - n ≤ length it)%nat →
  data_ids m (set_direct (splice n (take (m - n) it) (direct di)) di) v =
    data_ids n di v ++ take (m - n) it.
Proof.
  intros Hnm Hl Hit.
  assert (Hk : length (take (m - n) it) = (m - n)%nat) by (rewrite length_take; lia).
  replace m with (n + length (take (m - n) it))%nat at 1 by lia. apply data_ids_grow.
  - intros i Hi. unfold nth_id. rewrite (proj2 (Nat.ltb_lt i 28)) by lia. cbn [direct set_direct].
    rewrite !list_lookup_total_alt. f_equal. rewrite lookup_splice by lia.
    by rewrite decide_False by lia.
  - intros k x Hx. assert (k < m - n)%nat by (rewrite <- Hk; by eapply lookup_lt_Some).
    unfold nth_id. rewrite (proj2 (Nat.ltb_lt (n + k) 28)) by lia. cbn [direct set_direct].
    apply list_lookup_total_correct. rewrite lookup_splice by lia.
    rewrite decide_True by lia. rewrite <- Hx. f_equal. lia.
Qed.

Lemma ids_of_insert s l v b :
  length l = 128%nat → Forall is_u32 l →
  ids_of (<[s := unwords l]> v) b = if decide (b = s) then l else ids_of v b.
Proof.
  intros Hl Hu. unfold ids_of. case_decide as Hd.
  - subst. rewrite lookup_total_insert_eq, <- Hl. by apply words_unwords_all.
  - by rewrite lookup_total_insert_ne by done.
Qed.

Lemma ids_of_u32 v b : view_ok v → is_Some (v !! b) → Forall is_u32 (ids_of v b).
Proof.
  intros Hv [blk E]. destruct (Hv _ _ E) as [Hl Hb]. unfold ids_of.
  rewrite (lookup_total_correct _ _ _ E). apply words_u32; [done|unfold BLOCK_SZ in Hl; lia].
Qed.

Lemma unwords_ids_of v b : view_ok v → is_Some (v !! b) → v !! b = Some (unwords (ids_of v b)).
Proof.
  intros Hv [blk E]. destruct (Hv _ _ E) as [Hl Hb]. unfold ids_of.
  rewrite (lookup_total_correct _ _ _ E). rewrite unwords_words; [done..|]. done.
Qed.

Lemma Forall_splice {A} (P : A → Prop) off new l :
  Forall P new → Forall P l → Forall P (splice off new l).
Proof.
  intros. unfold splice. repeat apply Forall_app_2; [by apply Forall_take|done|by apply Forall_drop].
Qed.

(** First-level entries: [n] entries become [m], all within the first-level block. *)
Lemma grow_indirect1 n m di v it :
  let l := splice (n - 28) (take (m - n) it) (ids_of v (indirect1 di)) in
  (28 ≤ n ≤ m)%nat → (m ≤ 156)%nat → (m - n ≤ length it)%nat → Forall is_u32 l →
  data_ids m di (<[indirect1 di := unwords l]> v) = data_ids n di v ++ take (m - n) it.
Proof.
  intros l Hnm Hm Hit Hu.
  assert (Hk : length (take (m - n) it) = (m - n)%nat) by (rewrite length_take; lia).
  assert (Hl : length l = 128%nat).
  { unfold l. rewrite length_splice; rewrite length_ids_of; lia. }
  replace m with (n + length (take (m - n) it))%nat at 1 by lia. apply data_ids_grow.
  - intros i Hi. unfold nth_id. destruct (i <? 28)%nat eqn:E; [done|].
    apply Nat.ltb_ge in E. rewrite (proj2 (Nat.ltb_lt i 156)) by lia.
    rewrite ids_of_insert, decide_True by done. unfold l.
    rewrite !list_lookup_total_alt. f_equal. rewrite lookup_splice by (rewrite length_ids_of; lia).
    by rewrite decide_False by lia.
  - intros k x Hx. assert (k < m - n)%nat by (rewrite <- Hk; by eapply lookup_lt_Some).
    unfold nth_id. rewrite (proj2 (Nat.ltb_ge (n + k) 28)) by lia.
    rewrite (proj2 (Nat.ltb_lt (n + k) 156)) by lia.
    rewrite ids_of_insert, decide_True by done. unfold l.
    apply list_lookup_total_correct. rewrite lookup_splice by (rewrite length_ids_of; lia).
    rewrite decide_True by lia. rewrite <- Hx. f_equal. lia.
Qed.

(** One second-level entry: entry [j] of the [a]-th second-level block [s]. *)
Definition put2 (di : DiskInode) (a j : nat) (s b : Z) (v : gmap Z (list Z)) :
    gmap Z (list Z) :=
  <[s := unwords (<[j := b]> (ids_of v s))]>
    (<[indirect2 di := unwords (<[a := s]> (ids_of v (indirect2 di)))]> v).

Section put2.
Context (di : DiskInode) (v : gmap Z (list Z)) (a j : nat) (s b : Z).
Context (Ha : (a < 128)%nat) (Hj : (j < 128)%nat).
Context (H1 : s ≠ indirect1 di) (H2 : s ≠ indirect2 di) (H12 : indirect1 di ≠ indirect2 di).
Context (Hold : ∀ a', (a' < a)%nat →
           ids_of v (indirect2 di) !!! a' ≠ s ∧ ids_of v (indirect2 di) !!! a' ≠ indirect2 di).
Context (Hcur : j = 0%nat ∨ ids_of v (indirect2 di) !!! a = s).
Context (Hs : is_u32 s) (Hb : is_u32 b) (Hus : Forall is_u32 (ids_of v s))
        (Hu2 : Forall is_u32 (ids_of v (indirect2 di))).

Lemma ids_of_put2 c :
  ids_of (put2 di a j s b v) c =
    if decide (c = s) then <[j := b]> (ids_of v s)
    else if decide (c = indirect2 di) then <[a := s]> (ids_of v (indirect2 di))
    else ids_of v c.
Proof.
  unfold put2. rewrite ids_of_insert by (rewrite ?length_insert, ?length_ids_of; auto using Forall_insert).
  rewrite ids_of_insert by (rewrite ?length_insert, ?length_ids_of; auto using Forall_insert).
  done.
Qed.

Lemma subs_put2 : subs (S a) di (put2 di a j s b v) = subs a di v ++ [s].
Proof.
  unfold subs. rewrite seq_S, fmap_app. simpl. rewrite ids_of_put2, decide_False, decide_True by done.
  f_equal.
  - apply list_fmap_ext. intros i x Hi. apply lookup_seq in Hi as [-> Hi]. simpl.
    by rewrite list_lookup_total_insert_ne by lia.
  - by rewrite list_lookup_total_insert_eq by (rewrite length_ids_of; lia).
Qed.

Lemma data_ids_put2 n :
  n = (156 + 128 * a + j)%nat →
  data_ids (S n) di (put2 di a j s b v) = data_ids n di v ++ [b].
Proof.
  intros En. replace (S n) with (n + length [b])%nat by (simpl; lia). apply data_ids_grow.
  - intros i Hi. unfold nth_id. destruct (i <? 28)%nat eqn:E28; [done|].
    rewrite !ids_of_put2. rewrite !(decide_False (P:=indirect1 di = _)) by done.
    destruct (i <? 156)%nat eqn:E156; [done|]. apply Nat.ltb_ge in E156.
    rewrite (decide_False (P:=indirect2 di = s)), (decide_True (P:=indirect2 di = indirect2 di))
      by done.
    set (a' := ((i - 156) / 128)%nat). set (j' := ((i - 156) mod 128)%nat).
    assert (i = 156 + 128 * a' + j')%nat by (unfold a', j'; clear -E156; lia).
    assert (j' < 128)%nat by (unfold j'; lia).
    destruct (decide (a' = a)) as [->|Hne].
    + rewrite list_lookup_total_insert_eq by (rewrite length_ids_of; lia).
      rewrite decide_True by done. destruct Hcur as [->|Hc]; [lia|]. rewrite Hc.
      by rewrite list_lookup_total_insert_ne by lia.
    + assert (a' < a)%nat by lia. rewrite list_lookup_total_insert_ne by done.
      destruct (Hold a' ltac:(done)) as [??].
      by rewrite (decide_False (P:=_ = s)), (decide_False (P:=_ = indirect2 di)) by done.
  - intros k x Hx. destruct k as [|k]; [|done]. injection Hx as <-. rewrite Nat.add_0_r.
    unfold nth_id. rewrite (proj2 (Nat.ltb_ge n 28)), (proj2 (Nat.ltb_ge n 156)) by lia.
    replace ((n - 156) / 128)%nat with a by lia. replace ((n - 156) mod 128)%nat with j by lia.
    rewrite (ids_of_put2 (indirect2 di)), decide_False, decide_True by done.
    rewrite list_lookup_total_insert_eq by (rewrite length_ids_of; lia).
    rewrite ids_of_put2, decide_True by done.
    by rewrite list_lookup_total_insert_eq by (rewrite length_ids_of; lia).
Qed.

Lemma dom_put2 :
  is_Some (v !! s) → is_Some (v !! indirect2 di) → dom (put2 di a j s b v) = dom v.
Proof.
  intros Hvs Hv2. unfold put2. rewrite !dom_insert_L.
  apply elem_of_dom in Hvs. apply elem_of_dom in Hv2.
  apply set_eq. intros x. rewrite !elem_of_union, !elem_of_singleton.
  split; [intros [->|[->|?]]; done|auto].
Qed.
End put2.

(** The state while second-level entries are filled: [n] data blocks are in
    place, [it] are the blocks left, and together they are the blocks [T]. *)
Record inv2 (T D0 : list Z) (v0 : gmap Z (list Z)) (di : DiskInode)
    (n : nat) (it : list Z) (w : gmap Z (list Z)) : Prop := {
  inv2_perm :
    data_ids n di w ++ (indirect1 di :: indirect2 di :: subs (nsubs n) di w) ++ it ≡ₚ T;
  inv2_prefix : D0 `prefix_of` data_ids n di w;
  inv2_dom : dom w = dom v0;
  inv2_ok : view_ok w;
  inv2_frame : ∀ b, b ∉ indirect1 di :: indirect2 di :: subs (nsubs n) di w → w !! b = v0 !! b;
}.

(** What is fixed while an inode grows: the blocks it owns or is given. *)
Definition pool (T : list Z) (v0 : gmap Z (list Z)) : Prop :=
  NoDup T ∧ Forall is_u32 T ∧ ∀ b, b ∈ T → b ∈ dom v0.

Lemma nsubs_step n a j :
  n = (156 + 128 * a + j)%nat → (j < 128)%nat →
  nsubs (S n) = S a ∧ nsubs n = if decide (j = 0%nat) then a else S a.
Proof. intros -> Hj. unfold nsubs. case_decide; lia. Qed.

Lemma view_ok_insert v b l :
  view_ok v → length l = 128%nat → view_ok (<[b := unwords l]> v).
Proof.
  intros Hv Hl c blk. rewrite lookup_insert_Some. intros [[<- <-]|[_ E]]; [|by eapply Hv].
  split; [rewrite length_unwords, Hl; done|apply unwords_bytes].
Qed.

(** The blocks taken in one step. *)
Definition step2 (di : DiskInode) (w : gmap Z (list Z)) (a j : nat) (s b : Z)
    (it it' : list Z) : Prop :=
  if decide (j = 0%nat) then it = s :: b :: it'
  else ids_of w (indirect2 di) !!! a = s ∧ it = b :: it'.

Lemma step2_subs di w n a j s b it it' :
  step2 di w a j s b it it' → n = (156 + 128 * a + j)%nat → (j < 128)%nat →
  subs (nsubs n) di w ++ it ≡ₚ subs a di w ++ s :: b :: it' ∧
  ∀ x, x ∈ subs (nsubs n) di w → x ∈ subs a di w ++ [s].
Proof.
  intros Hit En Hj. destruct (nsubs_step n a j En Hj) as [_ ->]. unfold step2 in Hit.
  case_decide as Hd0.
  - rewrite Hit. split; [done|]. intros x Hx. apply elem_of_app. by left.
  - destruct Hit as [<- ->]. assert (subs (S a) di w = subs a di w ++ [ids_of w (indirect2 di) !!! a])
      as -> by (unfold subs; by rewrite seq_S, fmap_app).
    split; [by rewrite <- app_assoc|done].
Qed.

Lemma inv2_facts T D0 v0 di n a j s b it it' w :
  pool T v0 → inv2 T D0 v0 di n it w → n = (156 + 128 * a + j)%nat → (j < 128)%nat →
  step2 di w a j s b it it' →
  data_ids n di w ++ indirect1 di :: indirect2 di :: subs a di w ++ s :: b :: it' ≡ₚ T ∧
  is_u32 s ∧ is_u32 b ∧ is_Some (w !! s) ∧ is_Some (w !! indirect2 di) ∧
  s ≠ indirect1 di ∧ s ≠ indirect2 di ∧ indirect1 di ≠ indirect2 di ∧
  ∀ a', (a' < a)%nat →
    ids_of w (indirect2 di) !!! a' ≠ s ∧ ids_of w (indirect2 di) !!! a' ≠ indirect2 di.
Proof.
  intros (HT & Hu & Hin) [Hp _ Hd _ _] En Hj Hit.
  destruct (step2_subs _ _ _ _ _ _ _ _ _ Hit En Hj) as [Hsub _].
  assert (Hp' : data_ids n di w ++ indirect1 di :: indirect2 di :: subs a di w ++ s :: b :: it'
            ≡ₚ T) by (rewrite <- Hp; simpl; by rewrite Hsub).
  assert (Hnd : NoDup (indirect1 di :: indirect2 di :: subs a di w ++ s :: b :: it')).
  { eapply NoDup_app. rewrite Hp'. done. }
  assert (HinT : ∀ x, x ∈ indirect1 di :: indirect2 di :: subs a di w ++ s :: b :: it' →
            is_u32 x ∧ is_Some (w !! x)).
  { intros x Hx. assert (x ∈ T) as HxT by (rewrite <- Hp', elem_of_app; by right).
    split; [by eapply Forall_forall in Hu|]. apply elem_of_dom. rewrite Hd. by apply Hin. }
  apply NoDup_cons in Hnd as [Hi1 Hnd]. apply NoDup_cons in Hnd as [Hi2 Hnd].
  apply NoDup_app in Hnd as (_ & Hdisj & _).
  rewrite not_elem_of_cons, not_elem_of_app, !not_elem_of_cons in Hi1.
  rewrite not_elem_of_app, !not_elem_of_cons in Hi2.
  destruct Hi1 as (H12 & _ & H1 & _). destruct Hi2 as (H2s & H2 & _).
  destruct (HinT s) as [Hsu Hsw]; [by rewrite !elem_of_cons, elem_of_app, !elem_of_cons; auto|].
  destruct (HinT b) as [Hbu _]; [by rewrite !elem_of_cons, elem_of_app, !elem_of_cons; auto 10|].
  destruct (HinT (indirect2 di)) as [_ Hi2w]; [by rewrite !elem_of_cons; auto|].
  split_and!; try done.
  intros a' Ha'. assert (He := elem_of_subs di w a a' Ha'). split; intros E; rewrite E in He.
  - apply (Hdisj _ He). by rewrite elem_of_cons; left.
  - done.
Qed.

Lemma inv2_step T D0 v0 di n a j s b it it' w :
  pool T v0 → inv2 T D0 v0 di n it w → n = (156 + 128 * a + j)%nat → (j < 128)%nat →
  (a < 128)%nat → step2 di w a j s b it it' →
  inv2 T D0 v0 di (S n) it' (put2 di a j s b w).
Proof.
  intros Hpool Hinv En Hj Ha Hit.
  destruct (inv2_facts _ _ _ _ _ _ _ _ _ _ _ _ Hpool Hinv En Hj Hit)
    as (Hp' & Hsu & Hbu & Hsw & Hi2w & H1 & H2 & H12 & Hold).
  destruct Hinv as [_ Hpre Hd Hok Hfr]. destruct (nsubs_step n a j En Hj) as [EsS _].
  destruct (step2_subs _ _ _ _ _ _ _ _ _ Hit En Hj) as [_ Hsub].
  assert (Hcur : j = 0%nat ∨ ids_of w (indirect2 di) !!! a = s)
    by (unfold step2 in Hit; case_decide; [by left|right; apply Hit]).
  assert (Hus := ids_of_u32 w s Hok Hsw). assert (Hu2 := ids_of_u32 w _ Hok Hi2w).
  assert (ED : data_ids (S n) di (put2 di a j s b w) = data_ids n di w ++ [b])
    by by apply data_ids_put2.
  assert (ES : subs (nsubs (S n)) di (put2 di a j s b w) = subs a di w ++ [s])
    by by rewrite EsS; apply subs_put2.
  split.
  - rewrite ED, ES, <- Hp', <- app_assoc. apply Permutation_app_head. solve_Permutation.
  - rewrite ED. by apply prefix_app_r.
  - rewrite <- Hd. by apply dom_put2.
  - unfold put2. apply view_ok_insert; [apply view_ok_insert; [done|]|];
      by rewrite length_insert, length_ids_of.
  - intros c Hc. rewrite ES in Hc. rewrite !not_elem_of_cons, not_elem_of_app in Hc.
    destruct Hc as (Hc1 & Hc2 & Hc3 & Hc4). rewrite not_elem_of_cons in Hc4.
    unfold put2. rewrite !lookup_insert_ne; [apply Hfr|by intros <-|by intros <-; destruct Hc4].
    rewrite !not_elem_of_cons. split_and!; [done..|]. intros Hx%Hsub.
    rewrite elem_of_app, elem_of_cons in Hx. destruct Hc4 as [Hc4 _].
    destruct Hx as [Hx|[Hx|Hx%elem_of_nil]]; done.
Qed.

Section grow.
Context {St : Type} `{HS : BlockStore St, HL : !BlockStoreLaws St}.

(** [indirect1[i] = new_blocks.next().unwrap()] on one index block. *)
Lemma put_id_run s j b it v h :
  is_Some (v !! s) → s ∉ h → (size h < BLOCK_CACHE_SIZE)%nat → (j < 128)%nat →
  runs (S:=St) (bc_modify s 0 BLOCK_SZ
          (λ bs, lift ('(b, it) ← next (b :: it);
                       ind1 ← upd (words 128 bs) (Z.of_nat j) b;
                       mret (it, unwords ind1)))) v h it
       (<[s := unwords (<[j := b]> (ids_of v s))]> v).
Proof.
  intros [blk E] Hh Hc Hj. apply runs_view_ok. intros Hv. destruct (Hv _ _ E) as [Hl Hb].
  assert (Hlen : length (unwords (<[j := b]> (words 128 blk))) = BLOCK_SZ)
    by (rewrite length_unwords, length_insert, length_words; done).
  unfold ids_of. rewrite (lookup_total_correct _ _ _ E).
  rewrite <- (splice_all (unwords _) blk) by by rewrite Hlen.
  eapply runs_modify; [done..| |done|done|apply unwords_bytes].
  apply runs_lift. rewrite words_slice_all by done. mstep. cbn [next].
  rewrite upd_Ok by (rewrite length_words; lia). by rewrite Nat2Z.id.
Qed.

Context (T D0 : list Z) (v0 : gmap Z (list Z)) (di : DiskInode) (h : gset Z).
Context (Hpool : pool T v0) (Hh : ∀ b, b ∈ T → b ∉ h)
        (Hcap : (2 + size h ≤ BLOCK_CACHE_SIZE)%nat).

Definition state2 (n : nat) (ind2 it : list Z) (v : gmap Z (list Z)) : Prop :=
  length ind2 = 128%nat ∧ Forall is_u32 ind2 ∧ is_Some (v !! indirect2 di) ∧
  inv2 T D0 v0 di n it (<[indirect2 di := unwords ind2]> v).

(** The view after one step, with the array of the closure written back. *)
Lemma put2_virtual a j s b ind2 v :
  length ind2 = 128%nat → Forall is_u32 ind2 → s ≠ indirect2 di →
  <[indirect2 di := unwords (<[a := s]> ind2)]> (<[s := unwords (<[j := b]> (ids_of v s))]> v) =
  put2 di a j s b (<[indirect2 di := unwords ind2]> v).
Proof.
  intros Hl Hu Hs. unfold put2. rewrite !ids_of_insert by done.
  rewrite (decide_False (P := s = _)), decide_True by done.
  rewrite insert_insert_eq. by apply insert_insert_ne.
Qed.

Lemma fill2_step n a j s b it it' ind2 v :
  state2 n ind2 it v → n = (156 + 128 * a + j)%nat → (j < 128)%nat → (a < 128)%nat →
  step2 di (<[indirect2 di := unwords ind2]> v) a j s b it it' →
  runs (S:=St) (bc_modify s 0 BLOCK_SZ
          (λ bs, lift ('(b, it) ← next (b :: it');
                       ind1 ← upd (words 128 bs) (Z.of_nat j) b;
                       mret (it, unwords ind1)))) v ({[indirect2 di]} ∪ h) it'
       (<[s := unwords (<[j := b]> (ids_of v s))]> v) ∧
  state2 (S n) (<[a := s]> ind2) it' (<[s := unwords (<[j := b]> (ids_of v s))]> v).
Proof.
  intros (Hl & Hu & Hi2 & Hinv) En Hj Ha Hst.
  destruct (inv2_facts _ _ _ _ _ _ _ _ _ _ _ _ Hpool Hinv En Hj Hst)
    as (Hp' & Hsu & Hbu & Hsw & _ & H1 & H2 & H12 & Hold).
  rewrite lookup_insert_ne in Hsw by done.
  assert (s ∈ T) by (rewrite <- Hp', !elem_of_app, !elem_of_cons, elem_of_app, elem_of_cons; auto 10).
  split.
  - apply put_id_run; [done| | |done].
    + rewrite elem_of_union, elem_of_singleton. intros [?|?]; [done|]. by apply (Hh s).
    + rewrite size_union_alt, size_singleton.
      assert (size (h ∖ {[indirect2 di]}) ≤ size h)%nat by (apply subseteq_size, subseteq_difference_l; done). lia.
  - split_and!.
    + by rewrite length_insert.
    + by apply Forall_insert.
    + by rewrite lookup_insert_ne.
    + rewrite put2_virtual by done. eapply inv2_step; done.
Qed.

(** The iterator is not empty before the last data block is in place. *)
Lemma step2_exists n m a j ind2 it v :
  state2 n ind2 it v → length T = nall m → n = (156 + 128 * a + j)%nat → (j < 128)%nat →
  (a < 128)%nat → (n < m)%nat →
  ∃ s b it', step2 di (<[indirect2 di := unwords ind2]> v) a j s b it it'.
Proof.
  intros (Hl & Hu & Hi2 & Hinv) HT En Hj Ha Hnm. destruct (nsubs_step n a j En Hj) as [EsS Es].
  assert (Hlen := inv2_perm _ _ _ _ _ _ _ Hinv). apply Permutation_length in Hlen.
  rewrite !length_app, length_data_ids in Hlen. cbn [length] in Hlen.
  rewrite length_subs, HT in Hlen.
  assert (nall (S n) ≤ nall m)%nat as Hm by (apply nall_mono; lia).
  unfold nall in Hm at 1. rewrite EsS in Hm.
  rewrite (proj2 (Nat.ltb_lt 28 (S n))), (proj2 (Nat.ltb_lt 156 (S n))) in Hm by lia.
  unfold step2. case_decide as Hd.
  - destruct it as [|s [|b it']]; cbn [length] in Hlen; [lia..|]. by exists s, b, it'.
  - destruct it as [|b it']; cbn [length] in Hlen; [lia|].
    by exists (ids_of (<[indirect2 di := unwords ind2]> v) (indirect2 di) !!! a), b, it'.
Qed.

Lemma fill2_run k n m a j a1 b1 ind2 it v :
  length T = nall m → k = (m - n)%nat → (n ≤ m)%nat → Z.of_nat m ≤ 16540 →
  n = (156 + 128 * a + j)%nat → (j < 128)%nat →
  m = (156 + 128 * a1 + b1)%nat → (b1 < 128)%nat →
  state2 n ind2 it v →
  ∃ ind2' it' v',
    runs (fill2 (St:=St) k (Z.of_nat a) (Z.of_nat j) (Z.of_nat a1) (Z.of_nat b1) ind2 it)
      v ({[indirect2 di]} ∪ h) (ind2', it') v' ∧ state2 m ind2' it' v'.
Proof.
  intros HT Ek Hnm Hm En Hj Em Hb. revert n a j ind2 it v Ek Hnm En Hj.
  induction k as [|k IH]; intros n a j ind2 it v Ek Hnm En Hj Hst; cbn [fill2].
  { assert (n = m) as -> by lia. exists ind2, it, v.
    replace (_ || _) with false; [split; [apply runs_ret|done]|].
    symmetry. apply orb_false_iff. split; [apply Z.ltb_ge; lia|].
    apply andb_false_iff. right. apply Z.ltb_ge. lia. }
  replace (_ || _) with true.
  2:{ symmetry. apply orb_true_iff. destruct (decide (a < a1)%nat); [left; apply Z.ltb_lt; lia|].
      right. apply andb_true_iff. split; [apply Z.eqb_eq|apply Z.ltb_lt]; lia. }
  assert (Ha : (a < 128)%nat) by lia.
  destruct (step2_exists n m a j ind2 it v Hst HT En Hj Ha ltac:(lia)) as (s & b & it' & Hs2).
  destruct (fill2_step n a j s b it it' ind2 v Hst En Hj Ha Hs2) as [Hrun Hst'].
  destruct (IH (S n) (if decide (j = 127) then S a else a)%nat
               (if decide (j = 127) then 0 else S j)%nat _ _ _
               ltac:(lia) ltac:(lia) ltac:(case_decide; lia) ltac:(case_decide; lia) Hst')
    as (ind2' & it'' & v' & Hrest & Hst'').
  destruct Hst as (Hl & Hu & _). exists ind2', it'', v'. split; [|done].
  eapply (runs_bind _ _ _ _ (<[a := s]> ind2, b :: it')).
  { apply runs_lift. unfold step2 in Hs2. destruct (decide (j = 0%nat)) as [Hd|Hd].
    - rewrite Hs2, Hd. mstep. cbn [next Z.of_nat Z.eqb].
      rewrite upd_Ok by lia. by rewrite Nat2Z.id.
    - rewrite (proj2 (Z.eqb_neq _ _)) by lia. destruct Hs2 as [<- ->].
      rewrite ids_of_insert, decide_True by done. mstep.
      rewrite list_insert_id; [done|]. apply list_lookup_lookup_total_lt. lia. }
  eapply runs_bind.
  { apply runs_lift. rewrite idx_total by (rewrite length_insert; lia).
    rewrite Nat2Z.id, list_lookup_total_insert_eq by lia. done. }
  eapply runs_bind; [exact Hrun|].
  unfold INODE_INDIRECT1_COUNT. destruct (decide (j = 127%nat)) as [Hd|Hd].
  - rewrite Hd at 1. cbn [Z.of_nat Z.add Z.eqb]. replace (Z.of_nat a + 1) with (Z.of_nat (S a)) by lia.
    exact Hrest.
  - rewrite (proj2 (Z.eqb_neq _ _)) by lia.
    replace (Z.of_nat j + 1) with (Z.of_nat (S j)) by lia. exact Hrest.
Qed.
End grow.

(** ** The phases of [increase_size] *)

Lemma nth_id_direct di di' v i : direct di' = direct di → (i < 28)%nat → nth_id di' v i = nth_id di v i.
Proof. intros E Hi. unfold nth_id. by rewrite (proj2 (Nat.ltb_lt i 28)), E by lia. Qed.

Lemma data_ids_ext n di v di' v' :
  (∀ i, (i < n)%nat → nth_id di' v' i = nth_id di v i) → data_ids n di' v' = data_ids n di v.
Proof.
  intros Hi. rewrite <- (app_nil_r (data_ids n di v)), <- (Nat.add_0_r n) at 1.
  apply (data_ids_grow n di v di' v' []); [done|by intros].
Qed.

(** The direct entries take the first blocks given. *)
Lemma increase_direct_ok di n m it v :
  di_ok di → Forall is_u32 it → (n ≤ m)%nat → (Nat.min m 28 - n ≤ length it)%nat →
  ∃ dir, let di' := set_direct dir di in let k := (Nat.min m 28 - n)%nat in
    increase_direct di (Z.of_nat n) (Z.of_nat m) it =
      Ok (di', Z.of_nat (Nat.max n (Nat.min m 28)), drop k it) ∧
    di_ok di' ∧
    data_ids (Nat.max n (Nat.min m 28)) di' v = data_ids n di v ++ take k it.
Proof.
  intros Hok Hu Hnm Hit. destruct Hok as (Hs & Hl & Hd & H1 & H2).
  unfold increase_direct, INODE_DIRECT_COUNT.
  replace (Z.min (Z.of_nat m) 28) with (Z.of_nat (Nat.min m 28)) by lia.
  destruct (decide (n ≤ Nat.min m 28)%nat) as [Hle|Hgt].
  - exists (splice n (take (Nat.min m 28 - n) it) (direct di)). cbn zeta.
    rewrite fill_bound by lia. rewrite Nat.max_r by lia. split_and!; [done| |].
    + unfold di_ok, set_direct. cbn [di_size direct indirect1 indirect2].
      split_and!; try done; try apply Hs; try apply H1; try apply H2.
      * rewrite length_splice; rewrite ?length_take; lia.
      * apply Forall_splice; [by apply Forall_take|done].
    + by apply grow_direct; [lia|..].
  - exists (direct di). cbn zeta. rewrite fill_done by lia. rewrite Nat.max_l by lia.
    replace (Nat.min m 28 - n)%nat with 0%nat by lia. rewrite take_0, drop_0, app_nil_r.
    by destruct di.
Qed.

(** The state when the entries up to the first-level block are in place. *)
Record inv1 (T D0 : list Z) (v0 : gmap Z (list Z)) (di : DiskInode)
    (n : nat) (it : list Z) (w : gmap Z (list Z)) : Prop := {
  inv1_perm : data_ids n di w ++ indirect1 di :: it ≡ₚ T;
  inv1_prefix : D0 `prefix_of` data_ids n di w;
  inv1_dom : dom w = dom v0;
  inv1_ok : view_ok w;
  inv1_frame : ∀ b, b ≠ indirect1 di → w !! b = v0 !! b;
}.

Lemma inv1_take T D0 v0 di n m it w :
  pool T v0 → inv1 T D0 v0 di n it w → (28 ≤ n ≤ m)%nat → (m ≤ 156)%nat →
  (m - n ≤ length it)%nat →
  inv1 T D0 v0 di m (drop (m - n) it)
    (<[indirect1 di := unwords (splice (n - 28) (take (m - n) it) (ids_of w (indirect1 di)))]> w).
Proof.
  intros (HT & Hu & Hin) [Hp Hpre Hd Hok Hfr] Hnm Hm Hit.
  assert (HinT : ∀ x, x ∈ indirect1 di :: it → x ∈ T)
    by (intros x Hx; rewrite <- Hp, elem_of_app; by right).
  assert (H1 : indirect1 di ∈ dom w) by (rewrite Hd; apply Hin, HinT, list_elem_of_here).
  assert (Hids : Forall is_u32 (ids_of w (indirect1 di)))
    by (apply ids_of_u32; [done|by apply elem_of_dom]).
  assert (Hitu : Forall is_u32 it).
  { apply Forall_forall. intros x Hx. eapply Forall_forall; [apply Hu|].
    apply HinT, list_elem_of_further, Hx. }
  assert (Hlen : length (splice (n - 28) (take (m - n) it) (ids_of w (indirect1 di))) = 128%nat)
    by (rewrite length_splice; rewrite ?length_take, ?length_ids_of; lia).
  assert (ED := grow_indirect1 n m di w it). cbn zeta in ED.
  specialize (ED ltac:(lia) ltac:(lia) ltac:(lia)
    ltac:(apply Forall_splice; [by apply Forall_take|done])).
  split.
  - rewrite ED, <- Hp, <- app_assoc. apply Permutation_app_head.
    rewrite <- (take_drop (m - n) it) at 3. solve_Permutation.
  - rewrite ED. by apply prefix_app_r.
  - rewrite dom_insert_L, Hd in *. apply set_eq. intros x.
    rewrite elem_of_union, elem_of_singleton. split; [intros [->|?]; done|auto].
  - by apply view_ok_insert.
  - intros b Hb. rewrite lookup_insert_ne by done. by apply Hfr.
Qed.

Section grow1.
Context {St : Type} `{HS : BlockStore St, HL : !BlockStoreLaws St}.

(** A closure that computes a new index array. *)
Lemma modify_ids_run {A} s (f : list Z → result (A * list Z)) v h a l :
  is_Some (v !! s) → s ∉ h → (size h < BLOCK_CACHE_SIZE)%nat →
  f (ids_of v s) = Ok (a, unwords l) → length l = 128%nat →
  runs (S:=St) (bc_modify s 0 BLOCK_SZ (λ bs, lift (f (words 128 bs)))) v h a
       (<[s := unwords l]> v).
Proof.
  intros [blk E] Hh Hc Hf Hl. apply runs_view_ok. intros Hv. destruct (Hv _ _ E) as [Hlb Hb].
  assert (Hlen : length (unwords l) = BLOCK_SZ) by (rewrite length_unwords, Hl; done).
  rewrite <- (splice_all (unwords l) blk) by by rewrite Hlen.
  eapply runs_modify; [done..| |done|done|apply unwords_bytes].
  apply runs_lift. rewrite words_slice_all by done.
  unfold ids_of in Hf. by rewrite (lookup_total_correct _ _ _ E) in Hf.
Qed.

(** Taking the first-level block when the direct entries are full. *)
Definition take1 (n : nat) (di : DiskInode) (it : list Z) (di' : DiskInode) (it' : list Z) : Prop :=
  if decide (n = 28%nat) then ∃ b, it = b :: it' ∧ di' = set_indirect1 b di
  else di' = di ∧ it' = it.

Lemma increase_indirect1_low T D0 v0 di di' n m it it' w h :
  pool T v0 → (∀ b, b ∈ T → b ∉ h) → (size h < BLOCK_CACHE_SIZE)%nat →
  (28 ≤ n ≤ 156)%nat → (n ≤ m)%nat → Z.of_nat m ≤ 16540 →
  take1 n di it di' it' → inv1 T D0 v0 di' n it' w →
  (Nat.min m 156 - n ≤ length it')%nat →
  ∃ w', runs (increase_indirect1 (St:=St) di (Z.of_nat n) (Z.of_nat m) it) w h
          (di', Z.of_nat (Nat.min m 156 - 28), Z.of_nat (m - 28),
           drop (Nat.min m 156 - n) it') w' ∧
        inv1 T D0 v0 di' (Nat.min m 156) (drop (Nat.min m 156 - n) it') w'.
Proof.
  intros Hpool Hh Hc Hn Hnm Hm Ht Hinv Hit. eexists. split; [|apply inv1_take; try done; lia].
  destruct Hpool as (HT & Hu & Hin). destruct Hinv as [Hp _ Hd _ _].
  assert (H1 : indirect1 di' ∈ T)
    by (rewrite <- Hp, elem_of_app; right; apply list_elem_of_here).
  unfold increase_indirect1, INODE_DIRECT_COUNT, INODE_INDIRECT1_COUNT.
  eapply (runs_bind _ _ _ _ (di', it')).
  { apply runs_lift. unfold take1 in Ht. destruct (decide (n = 28%nat)) as [->|Hne].
    - destruct Ht as (b & -> & ->). done.
    - rewrite (proj2 (Z.eqb_neq _ _)) by lia. destruct Ht as [-> ->]. done. }
  rewrite !u32_small by lia.
  replace (Z.of_nat n - 28) with (Z.of_nat (n - 28)) by lia.
  replace (Z.of_nat m - 28) with (Z.of_nat (m - 28)) by lia.
  replace (Z.min (Z.of_nat (m - 28)) 128) with (Z.of_nat (Nat.min m 156 - 28)) by lia.
  eapply (runs_bind _ _ _ _ (Z.of_nat (Nat.min m 156 - 28), drop (Nat.min m 156 - n) it'));
    [|apply runs_ret].
  apply (modify_ids_run _ (λ l, '(ind1, current, it) ← fill _ _ _ l it'; mret (_, _, unwords ind1))).
  - apply elem_of_dom. rewrite Hd. by apply Hin.
  - by apply Hh.
  - done.
  - rewrite fill_bound by (rewrite ?length_ids_of; lia).
    by replace (Nat.min m 156 - 28 - (n - 28))%nat with (Nat.min m 156 - n)%nat by lia.
  - rewrite length_splice; rewrite ?length_take, ?length_ids_of; lia.
Qed.

Lemma increase_indirect1_high di n m it v h :
  is_Some (v !! indirect1 di) → indirect1 di ∉ h → (size h < BLOCK_CACHE_SIZE)%nat →
  (156 < n ≤ m)%nat → Z.of_nat m ≤ 16540 →
  runs (increase_indirect1 (St:=St) di (Z.of_nat n) (Z.of_nat m) it) v h
    (di, Z.of_nat (n - 28), Z.of_nat (m - 28), it) v.
Proof.
  intros H1 Hh Hc Hn Hm. apply runs_view_ok. intros Hv.
  unfold increase_indirect1, INODE_DIRECT_COUNT, INODE_INDIRECT1_COUNT.
  rewrite (proj2 (Z.eqb_neq _ _)) by lia.
  eapply runs_bind; [by apply runs_lift|]. rewrite !u32_small by lia.
  replace (Z.of_nat n - 28) with (Z.of_nat (n - 28)) by lia.
  replace (Z.of_nat m - 28) with (Z.of_nat (m - 28)) by lia.
  replace (Z.min (Z.of_nat (m - 28)) 128) with (Z.of_nat 128) by lia.
  eapply (runs_bind _ _ _ _ (Z.of_nat (n - 28), it)); [|apply runs_ret].
  rewrite <- (insert_id v (indirect1 di) (unwords (ids_of v (indirect1 di)))) at 2
    by by apply unwords_ids_of.
  apply (modify_ids_run _ (λ l, '(ind1, current, it) ← fill _ _ _ l it; mret (_, _, unwords ind1)));
    [done..| |apply length_ids_of].
  by rewrite fill_done by lia.
Qed.
End grow1.

Definition take2 (n : nat) (di : DiskInode) (it : list Z) (di' : DiskInode) (it' : list Z) : Prop :=
  if decide (n = 156%nat) then ∃ b, it = b :: it' ∧ di' = set_indirect2 b di
  else di' = di ∧ it' = it.

Section grow2.
Context {St : Type} `{HS : BlockStore St, HL : !BlockStoreLaws St}.

Lemma increase_indirect2_run T D0 v0 di di' n m it it' w h :
  pool T v0 → (∀ b, b ∈ T → b ∉ h) → (2 + size h ≤ BLOCK_CACHE_SIZE)%nat →
  length T = nall m → (156 ≤ n ≤ m)%nat → Z.of_nat m ≤ 16540 →
  take2 n di it di' it' → inv2 T D0 v0 di' n it' w →
  ∃ it'' w', runs (increase_indirect2 (St:=St) di (Z.of_nat (n - 28)) (Z.of_nat (m - 28)) it) w h
               di' w' ∧ inv2 T D0 v0 di' m it'' w'.
Proof.
  intros Hpool Hh Hc HT Hn Hm Ht Hinv.
  assert (H2T : indirect2 di' ∈ T).
  { rewrite <- (inv2_perm _ _ _ _ _ _ _ Hinv), elem_of_app. right. simpl.
    rewrite !elem_of_cons. auto. }
  assert (H2 : is_Some (w !! indirect2 di')).
  { apply elem_of_dom. rewrite (inv2_dom _ _ _ _ _ _ _ Hinv). by apply Hpool. }
  assert (Hok := inv2_ok _ _ _ _ _ _ _ Hinv).
  assert (Hst : state2 T D0 v0 di' n (ids_of w (indirect2 di')) it' w).
  { split_and!; [apply length_ids_of|by apply ids_of_u32|done|].
    rewrite insert_id by by apply unwords_ids_of. done. }
  destruct (fill2_run (St:=St) T D0 v0 di' h Hpool Hh Hc (m - n) n m ((n - 156) / 128)
    ((n - 156) mod 128) ((m - 156) / 128) ((m - 156) mod 128) (ids_of w (indirect2 di')) it' w)
    as (ind2' & it'' & w' & Hrun & Hl' & Hu' & [blk' E'] & Hinv'); [done || lia..|].
  exists it'', (<[indirect2 di' := unwords ind2']> w'). split; [|done].
  unfold increase_indirect2, INODE_INDIRECT1_COUNT.
  eapply (runs_bind _ _ _ _ (di', it')).
  { apply runs_lift. unfold take2 in Ht. destruct (decide (n = 156%nat)) as [->|Hne].
    - destruct Ht as (b & -> & ->). done.
    - rewrite (proj2 (Z.eqb_neq _ _)) by lia. destruct Ht as [-> ->]. done. }
  rewrite !u32_small by lia.
  replace (Z.of_nat (n - 28) - 128) with (Z.of_nat (n - 156)) by lia.
  replace (Z.of_nat (m - 28) - 128) with (Z.of_nat (m - 156)) by lia.
  rewrite <- !(Nat2Z.inj_div _ 128), <- !(Nat2Z.inj_mod _ 128).
  replace (Z.to_nat (Z.of_nat (m - 156) - Z.of_nat (n - 156))) with (m - n)%nat by lia.
  eapply runs_bind; [|apply runs_ret].
  destruct H2 as [blk E].
  eapply runs_modify_full; [exact E|by apply Hh|lia| |by eexists| |apply unwords_bytes].
  - unfold ids_of in Hrun. rewrite (lookup_total_correct _ _ _ E) in Hrun.
    eapply runs_bind; [exact Hrun|apply runs_ret].
  - rewrite length_unwords, Hl'. done.
Qed.
End grow2.

(** ** [increase_size] as a whole *)

(** The inode [di'] of view [v'] is [di] of view [v], grown to [new_size] with
    the blocks [nb]: it owns exactly its old blocks and the new ones, its data
    blocks extend the old ones in order, and only index blocks have changed. *)
Record grown (di : DiskInode) (v : gmap Z (list Z)) (new_size : Z) (nb : list Z)
    (di' : DiskInode) (v' : gmap Z (list Z)) : Prop := {
  grown_ok : di_ok di';
  grown_size : di_size di' = new_size;
  grown_type : type_ di' = type_ di;
  grown_prefix : data_ids (nblocks di) di v `prefix_of` data_ids (nblocks di') di' v';
  grown_perm : all_ids di' v' ≡ₚ all_ids di v ++ nb;
  grown_dom : dom v' = dom v;
  grown_view : view_ok v';
  grown_frame : ∀ b, b ∉ index_ids (nblocks di') di' v' → v' !! b = v !! b;
}.

Lemma index_ids_low n di v : (n ≤ 28)%nat → index_ids n di v = [].
Proof.
  intros Hn. unfold index_ids, nsubs.
  rewrite (proj2 (Nat.ltb_ge 28 n)), (proj2 (Nat.ltb_ge 156 n)) by lia.
  by replace ((n - 156 + 127) / 128)%nat with 0%nat by lia.
Qed.

Lemma index_ids_mid n di v : (28 < n ≤ 156)%nat → index_ids n di v = [indirect1 di].
Proof.
  intros Hn. unfold index_ids, nsubs.
  rewrite (proj2 (Nat.ltb_lt 28 n)), (proj2 (Nat.ltb_ge 156 n)) by lia.
  by replace ((n - 156 + 127) / 128)%nat with 0%nat by lia.
Qed.

Lemma index_ids_high n di v :
  (156 < n)%nat → index_ids n di v = indirect1 di :: indirect2 di :: subs (nsubs n) di v.
Proof.
  intros Hn. unfold index_ids.
  by rewrite (proj2 (Nat.ltb_lt 28 n)), (proj2 (Nat.ltb_lt 156 n)) by lia.
Qed.

Lemma nth_id_set_indirect1 b di v i : (i < 28)%nat → nth_id (set_indirect1 b di) v i = nth_id di v i.
Proof. by apply nth_id_direct. Qed.

Lemma nth_id_set_indirect2 b di v i :
  (i < 156)%nat → nth_id (set_indirect2 b di) v i = nth_id di v i.
Proof. intros Hi. unfold nth_id. rewrite (proj2 (Nat.ltb_lt i 156)) by lia. done. Qed.

Lemma di_ok_set_size n di : di_ok di → is_u32 n → di_ok (set_size n di).
Proof. intros (?&?&?&?&?) ?. by split_and!. Qed.

Lemma di_ok_set_indirect1 b di : di_ok di → is_u32 b → di_ok (set_indirect1 b di).
Proof. intros (?&?&?&?&?) ?. by split_and!. Qed.

Lemma di_ok_set_indirect2 b di : di_ok di → is_u32 b → di_ok (set_indirect2 b di).
Proof. intros (?&?&?&?&?) ?. by split_and!. Qed.

#[export] Hint Resolve di_ok_set_size di_ok_set_indirect1 di_ok_set_indirect2 : rcore.

Lemma data_ids_set_size n k di v : data_ids n (set_size k di) v = data_ids n di v.
Proof. done. Qed.

(** From the first-level phase to the second-level one. *)
Lemma inv1_inv2 T D0 v0 di b it w :
  inv1 T D0 v0 di 156 (b :: it) w → inv2 T D0 v0 (set_indirect2 b di) 156 it w.
Proof.
  intros [Hp Hpre Hd Hok Hfr].
  assert (E : data_ids 156 (set_indirect2 b di) w = data_ids 156 di w)
    by (apply data_ids_ext; intros i Hi; by apply nth_id_set_indirect2).
  split; rewrite ?E; try done.
  intros c Hc. apply Hfr. rewrite not_elem_of_cons in Hc. apply Hc.
Qed.

Lemma nall_low n : (n ≤ 28)%nat → nall n = n.
Proof.
  intros. unfold nall, nsubs.
  rewrite (proj2 (Nat.ltb_ge 28 n)), (proj2 (Nat.ltb_ge 156 n)) by lia. lia.
Qed.

Lemma nall_mid n : (28 < n ≤ 156)%nat → nall n = S n.
Proof.
  intros. unfold nall, nsubs.
  rewrite (proj2 (Nat.ltb_lt 28 n)), (proj2 (Nat.ltb_ge 156 n)) by lia. lia.
Qed.

Lemma nall_high n : (156 < n)%nat → nall n = (2 + n + nsubs n)%nat.
Proof.
  intros. unfold nall.
  rewrite (proj2 (Nat.ltb_lt 28 n)), (proj2 (Nat.ltb_lt 156 n)) by lia. lia.
Qed.

Lemma nall_above n : (28 < n)%nat → (S n ≤ nall n)%nat.
Proof.
  intros. destruct (decide (n ≤ 156)%nat); [rewrite nall_mid by lia; lia|].
  rewrite nall_high by lia. lia.
Qed.

(** The start of the first-level phase, for an inode with at most 156 blocks. *)
Lemma start1 di n m nb v :
  let n1 := Nat.max n 28 in
  view_ok v → di_ok di → pool (data_ids n di v ++ index_ids n di v ++ nb) v →
  (n ≤ 156)%nat → (28 < m)%nat → (n ≤ m)%nat → length nb = (nall m - nall n)%nat →
  ∃ di1 it1 di' it',
    increase_direct di (Z.of_nat n) (Z.of_nat m) nb = Ok (di1, Z.of_nat n1, it1) ∧
    take1 n1 di1 it1 di' it' ∧
    inv1 (data_ids n di v ++ index_ids n di v ++ nb) (data_ids n di v) v di' n1 it' v ∧
    di_ok di' ∧ di_size di' = di_size di ∧ type_ di' = type_ di.
Proof.
  intros n1 Hv Hok (HT & Hu & Hin) Hn Hm Hnm Hnb.
  assert (Hnbu : Forall is_u32 nb) by (rewrite !Forall_app in Hu; apply Hu).
  assert (Hab := nall_above m Hm).
  assert (Hlow : (n ≤ 28)%nat → nall n = n) by apply nall_low.
  destruct (increase_direct_ok di n m nb v Hok Hnbu Hnm) as (dir & E & Hok' & ED); [lia|].
  replace (Nat.max n (Nat.min m 28)) with n1 in * by (unfold n1; lia).
  exists (set_direct dir di), (drop (Nat.min m 28 - n) nb).
  destruct (decide (n1 = 28%nat)) as [En|En].
  - assert (Hn28 : (n ≤ 28)%nat) by lia. rewrite index_ids_low by done. simpl.
    destruct (drop (Nat.min m 28 - n) nb) as [|b it'] eqn:Ed.
    { apply (f_equal length) in Ed. rewrite length_drop in Ed. simpl in Ed. lia. }
    exists (set_indirect1 b (set_direct dir di)), it'. split; [exact E|].
    assert (Hb : is_u32 b).
    { apply (Forall_drop is_u32 (Nat.min m 28 - n)) in Hnbu. rewrite Ed in Hnbu.
      by apply Forall_cons in Hnbu as [??]. }
    assert (ED' : data_ids n1 (set_indirect1 b (set_direct dir di)) v
                  = data_ids n di v ++ take (Nat.min m 28 - n) nb).
    { rewrite <- ED. apply data_ids_ext. intros i Hi. apply nth_id_set_indirect1. lia. }
    split_and!; [unfold take1; rewrite decide_True by done; by exists b| |auto with rcore|done..].
    split; [|by rewrite ED'; apply prefix_app_r|done..].
    rewrite ED', <- app_assoc. cbn [indirect1 set_indirect1]. by rewrite <- Ed, take_drop.
  - exists (set_direct dir di), nb. replace (Nat.min m 28 - n)%nat with 0%nat in * by lia.
    rewrite drop_0 in E. rewrite take_0, app_nil_r in ED. split; [exact E|].
    rewrite index_ids_mid by lia.
    split_and!; [unfold take1; by rewrite decide_False| |done..].
    split; [by rewrite ED|by rewrite ED|done..].
Qed.

Section increase.
Context {St : Type} `{HS : BlockStore St, HL : !BlockStoreLaws St}.
Context (di : DiskInode) (v : gmap Z (list Z)) (h : gset Z) (new_size : Z) (nb : list Z).
Context (Hwf : inode_wf di v) (Hsz : di_size di ≤ new_size ≤ MAX_SIZE).
Context (Hlen : length nb = (nall (Z.to_nat (_data_blocks new_size)) - nall (nblocks di))%nat).
Context (Hpool : pool (all_ids di v ++ nb) v) (Hv : view_ok v).
Context (Hh : ∀ b, b ∈ all_ids di v ++ nb → b ∉ h) (Hcap : (2 + size h ≤ BLOCK_CACHE_SIZE)%nat).

Let n := nblocks di.
Let m := Z.to_nat (_data_blocks new_size).
Let di0 := set_size new_size di.

Lemma increase_counts :
  data_blocks di = Z.of_nat n ∧ data_blocks di0 = Z.of_nat m ∧ (n ≤ m)%nat ∧
  Z.of_nat m ≤ 16540 ∧ di_ok di0.
Proof.
  destruct Hwf as ((Hs & Hok) & Hm & _). unfold is_u32 in Hs.
  assert (0 ≤ di_size di ≤ MAX_SIZE) as H0 by lia.
  assert (H1 := data_blocks_bound _ H0). assert (H2 := data_blocks_bound new_size ltac:(lia)).
  assert (H3 := data_blocks_mono (di_size di) new_size ltac:(lia) ltac:(lia)).
  unfold n, m, nblocks, data_blocks, di0. cbn [di_size set_size]. split_and!; try lia.
  apply di_ok_set_size; [by split|]. unfold is_u32, MAX_SIZE, INDIRECT2_BOUND, BSZ in *. lia.
Qed.

Lemma all_ids_app : all_ids di v ++ nb = data_ids n di0 v ++ index_ids n di0 v ++ nb.
Proof. unfold all_ids. by rewrite <- app_assoc. Qed.

Lemma nblocks_di0 di' : di_size di' = new_size → nblocks di' = m.
Proof. intros E. unfold nblocks, data_blocks. by rewrite E. Qed.

Lemma grown_intro di' v' it :
  di_ok di' → di_size di' = new_size → type_ di' = type_ di →
  data_ids n di v `prefix_of` data_ids m di' v' →
  data_ids m di' v' ++ index_ids m di' v' ++ it ≡ₚ all_ids di v ++ nb →
  dom v' = dom v → view_ok v' → (∀ b, b ∉ index_ids m di' v' → v' !! b = v !! b) →
  grown di v new_size nb di' v'.
Proof.
  intros Hok Hs Ht Hp Hperm Hd Hvo Hf. assert (it = []) as ->.
  { apply nil_length_inv. apply Permutation_length in Hperm.
    rewrite app_assoc, !length_app, <- length_app, length_all_ids in Hperm.
    unfold all_ids in Hperm. rewrite length_all_ids, Hlen in Hperm.
    destruct increase_counts as (_ & _ & Hnm & _). apply nall_mono in Hnm.
    fold m n in Hperm, Hnm. lia. }
  rewrite app_nil_r in Hperm. split; try done; unfold all_ids; by rewrite (nblocks_di0 di' Hs).
Qed.

Lemma increase_low : (m ≤ 28)%nat →
  ∃ di' v', runs (increase_size (St:=St) di new_size nb) v h di' v' ∧
            grown di v new_size nb di' v'.
Proof.
  intros Hm. destruct increase_counts as (En & Em & Hnm & _ & Hok).
  assert (Hnbu : Forall is_u32 nb) by (destruct Hpool as (_&Hu&_); by apply Forall_app in Hu as [_ ?]).
  assert (Hl := Hlen). rewrite !nall_low in Hl by (fold m n; lia). fold m n in Hl.
  destruct (increase_direct_ok di0 n m nb v Hok Hnbu Hnm) as (dir & E & Hok' & ED); [lia|].
  replace (Nat.max n (Nat.min m 28)) with m in * by lia.
  replace (Nat.min m 28 - n)%nat with (length nb) in * by lia.
  rewrite drop_all, take_ge in * by lia.
  exists (set_direct dir di0), v. split.
  - unfold increase_size. fold di0. rewrite En, Em. eapply runs_bind; [by apply runs_lift|].
    unfold INODE_DIRECT_COUNT. rewrite (proj2 (Z.ltb_ge _ _)) by lia. apply runs_ret.
  - apply (grown_intro _ _ []); try done.
    + rewrite ED. by apply prefix_app_r.
    + rewrite ED, index_ids_low, app_nil_r by done. rewrite all_ids_app, index_ids_low by lia. done.
Qed.

(** The first two phases, for an inode with at most 156 blocks. *)
Lemma increase_phases12 : (n ≤ 156)%nat → (28 < m)%nat →
  ∃ di1 it1 di' it' w,
    increase_direct di0 (Z.of_nat n) (Z.of_nat m) nb = Ok (di1, Z.of_nat (Nat.max n 28), it1) ∧
    runs (increase_indirect1 (St:=St) di1 (Z.of_nat (Nat.max n 28)) (Z.of_nat m) it1) v h
      (di', Z.of_nat (Nat.min m 156 - 28), Z.of_nat (m - 28), it') w ∧
    inv1 (all_ids di v ++ nb) (data_ids n di v) v di' (Nat.min m 156) it' w ∧
    di_ok di' ∧ di_size di' = new_size ∧ type_ di' = type_ di.
Proof.
  intros Hn Hm. destruct increase_counts as (_ & _ & Hnm & Hmax & Hok).
  assert (HT := Hpool). rewrite all_ids_app in HT. assert (Hl := Hlen). fold n m in Hl.
  destruct (start1 di0 n m nb v Hv Hok HT Hn Hm Hnm Hl)
    as (di1 & it1 & di' & it' & E & Ht & Hinv & Hok' & Es & Ety).
  rewrite <- all_ids_app in Hinv.
  assert (Hpl := inv1_perm _ _ _ _ _ _ _ Hinv). apply Permutation_length in Hpl.
  rewrite !length_app, length_data_ids in Hpl. cbn [length] in Hpl.
  unfold all_ids in Hpl. rewrite length_all_ids, Hl in Hpl. fold n in Hpl.
  assert (nall n ≤ nall m)%nat by by apply nall_mono.
  assert (Hab := nall_above m Hm).
  destruct (increase_indirect1_low (St:=St) _ (data_ids n di v) _ di1 di' (Nat.max n 28) m it1 it' v h Hpool Hh)
    as (w & Hrun & Hinv'); [lia|lia|lia|done|done|done|lia|].
  exists di1, it1, di', (drop (Nat.min m 156 - Nat.max n 28) it'), w. by split_and!.
Qed.

Lemma increase_mid : (28 < m ≤ 156)%nat →
  ∃ di' v', runs (increase_size (St:=St) di new_size nb) v h di' v' ∧
            grown di v new_size nb di' v'.
Proof.
  intros Hm. destruct increase_counts as (En & Em & Hnm & _ & Hok).
  destruct increase_phases12 as (di1 & it1 & di' & it' & w & E & Hrun & Hinv & Hok' & Es & Ety);
    [lia..|].
  rewrite Nat.min_l in * by lia. exists di', w. split.
  - unfold increase_size. fold di0. rewrite En, Em. eapply runs_bind; [by apply runs_lift|].
    unfold INODE_DIRECT_COUNT. rewrite (proj2 (Z.ltb_lt _ _)) by lia.
    eapply runs_bind; [exact Hrun|]. cbv beta iota.
    unfold INODE_INDIRECT1_COUNT. rewrite (proj2 (Z.ltb_ge _ _)) by lia. apply runs_ret.
  - destruct Hinv as [Hp Hpre Hd Hvo Hf]. apply (grown_intro _ _ it'); try done;
      rewrite index_ids_mid by done; [done|].
    intros b Hb. apply Hf. by apply not_elem_of_cons in Hb as [? _].
Qed.

(** The start of the last phase. *)
Lemma increase_start2 : (156 < m)%nat →
  ∃ di1 it1 di2 it2 di' it' w,
    let n2 := Nat.max n 156 in
    increase_direct di0 (Z.of_nat n) (Z.of_nat m) nb = Ok (di1, Z.of_nat (Nat.max n 28), it1) ∧
    runs (increase_indirect1 (St:=St) di1 (Z.of_nat (Nat.max n 28)) (Z.of_nat m) it1) v h
      (di2, Z.of_nat (n2 - 28), Z.of_nat (m - 28), it2) w ∧
    take2 n2 di2 it2 di' it' ∧
    inv2 (all_ids di v ++ nb) (data_ids n di v) v di' n2 it' w ∧
    di_ok di' ∧ di_size di' = new_size ∧ type_ di' = type_ di.
Proof.
  intros Hm. destruct increase_counts as (_ & _ & Hnm & Hmax & Hok).
  destruct (decide (n ≤ 156)%nat) as [Hn|Hn].
  - destruct increase_phases12 as (di1 & it1 & di2 & it2 & w & E & Hrun & Hinv & Hok' & Es & Ety);
      [lia..|].
    rewrite Nat.min_r in * by lia. rewrite (Nat.max_r n 156) by lia.
    assert (Hpl := inv1_perm _ _ _ _ _ _ _ Hinv). assert (Hpl' := Permutation_length Hpl).
    rewrite !length_app, length_data_ids in Hpl'. cbn [length] in Hpl'.
    unfold all_ids in Hpl'. rewrite length_all_ids, Hlen in Hpl'. fold n m in Hpl'.
    assert (nall n ≤ nall m)%nat by by apply nall_mono. rewrite (nall_high m) in * by lia.
    destruct it2 as [|b it']; [cbn [length] in Hpl'; lia|].
    exists di1, it1, di2, (b :: it'), (set_indirect2 b di2), it', w. cbn zeta.
    split_and!; [done..| | | |done|done].
    + unfold take2. rewrite decide_True by done. by exists b.
    + by apply inv1_inv2.
    + apply di_ok_set_indirect2; [done|]. destruct Hpool as (_ & Hu & _).
      eapply Forall_forall; [exact Hu|]. rewrite <- Hpl, elem_of_app, !elem_of_cons. auto.
  - rewrite !Nat.max_l by lia.
    destruct (increase_direct_ok di0 n m nb v Hok) as (dir & E & Hok' & ED); [|done|lia|].
    { destruct Hpool as (_&Hu&_). by apply Forall_app in Hu as [_ ?]. }
    rewrite Nat.max_l in * by lia. replace (Nat.min m 28 - n)%nat with 0%nat in * by lia.
    rewrite drop_0, take_0, app_nil_r in *.
    assert (Hix : index_ids n (set_direct dir di0) v
                  = indirect1 di :: indirect2 di :: subs (nsubs n) di v) by exact (index_ids_high n (set_direct dir di0) v ltac:(lia)).
    assert (H1 : indirect1 di ∈ all_ids di v ++ nb).
    { rewrite all_ids_app. change (index_ids n di0 v) with (index_ids n (set_direct dir di0) v).
      rewrite Hix, !elem_of_app, elem_of_cons. auto. }
    exists (set_direct dir di0), nb, (set_direct dir di0), nb, (set_direct dir di0), nb, v. cbn zeta.
    split_and!; [done| | | |done..].
    + apply increase_indirect1_high; [|by apply Hh|lia|lia|done].
      apply elem_of_dom. by apply Hpool.
    + unfold take2. by rewrite decide_False by lia.
    + split; [|by rewrite ED|done..]. rewrite ED, all_ids_app.
      change (index_ids n di0 v) with (index_ids n (set_direct dir di0) v). by rewrite Hix.
Qed.

Lemma increase_high : (156 < m)%nat →
  ∃ di' v', runs (increase_size (St:=St) di new_size nb) v h di' v' ∧
            grown di v new_size nb di' v'.
Proof.
  intros Hm. destruct increase_counts as (En & Em & Hnm & Hmax & Hok).
  destruct (increase_start2 Hm) as
    (di1 & it1 & di2 & it2 & di' & it' & w & E & Hrun & Ht & Hinv & Hok' & Es & Ety).
  destruct (increase_indirect2_run (St:=St) _ (data_ids n di v) _ di2 di' (Nat.max n 156) m it2 it' w h Hpool Hh)
    as (it'' & w' & Hrun2 & [Hp Hpre Hd Hvo Hf]); [done| |lia|done..|].
  { rewrite length_app, Hlen. unfold all_ids. rewrite length_all_ids. fold n m.
    apply nall_mono in Hnm. lia. }
  exists di', w'. split.
  - unfold increase_size. fold di0. rewrite En, Em. eapply runs_bind; [by apply runs_lift|].
    unfold INODE_DIRECT_COUNT. rewrite (proj2 (Z.ltb_lt _ _)) by lia.
    eapply runs_bind; [exact Hrun|]. cbv beta iota.
    unfold INODE_INDIRECT1_COUNT. rewrite (proj2 (Z.ltb_lt _ _)) by lia. exact Hrun2.
  - apply (grown_intro _ _ it''); try done; by rewrite index_ids_high by done.
Qed.

Lemma increase_size_run :
  ∃ di' v', runs (increase_size (St:=St) di new_size nb) v h di' v' ∧
            grown di v new_size nb di' v'.
Proof.
  destruct (decide (m ≤ 28)%nat); [by apply increase_low|].
  destruct (decide (m ≤ 156)%nat); [apply increase_mid; lia|apply increase_high; lia].
Qed.
End increase.
