(* ===== verification/InodeSpec.v ===== *)
(** * Theorems on the inode's block index

    The proofs about [clear_size], and the theorems about [get_block_id],
    [total_blocks], [increase_size] and [clear_size] (easy-fs/src/layout.rs). *)

From S2P Require Import Prelude Bytes BlockStore BlockCache BlockFile Layout Inode.
From Stdlib Require Import ZifyNat.

(** ** [clear_size] *)

Lemma slice_S {A} `{Inhabited A} off n (l : list A) :
  (off < length l)%nat → slice off (S n) l = l !!! off :: slice (S off) n l.
Proof.
  intros Hl. unfold slice. destruct (lookup_lt_is_Some_2 l off Hl) as [x E].
  rewrite (drop_S l x off E). simpl. by rewrite (list_lookup_total_correct _ _ _ E).
Qed.

Lemma clear_direct_ok n k dir acc :
  (n + k ≤ length dir)%nat →
  clear_direct k (Z.of_nat n) (Z.of_nat (n + k)) dir acc =
    Ok (splice n (replicate k 0) dir, acc ++ slice n k dir).
Proof.
  revert n dir acc. induction k as [|k IH]; intros n dir acc Hl; cbn [clear_direct].
  { rewrite (proj2 (Z.ltb_ge _ _)) by lia. cbn [replicate]. rewrite splice_nil by lia.
    unfold slice. by rewrite take_0, app_nil_r. }
  rewrite (proj2 (Z.ltb_lt _ _)) by lia. mstep.
  rewrite idx_total, Nat2Z.id by lia. rewrite upd_Ok, Nat2Z.id by lia.
  replace (Z.of_nat n + 1) with (Z.of_nat (S n)) by lia.
  replace (n + S k)%nat with (S n + k)%nat by lia.
  rewrite IH by (rewrite ?length_insert; lia). cbn [replicate].
  rewrite splice_cons by (rewrite ?length_replicate; lia).
  rewrite slice_S by lia. unfold slice at 1. rewrite drop_insert_lt by lia.
  by rewrite <- app_assoc.
Qed.

Lemma push_indirect1_ok n k l acc :
  (n + k ≤ length l)%nat →
  push_indirect1 k (Z.of_nat n) (Z.of_nat (n + k)) l acc = Ok (acc ++ slice n k l).
Proof.
  revert n acc. induction k as [|k IH]; intros n acc Hl; cbn [push_indirect1].
  { rewrite (proj2 (Z.ltb_ge _ _)) by lia. unfold slice. by rewrite take_0, app_nil_r. }
  rewrite (proj2 (Z.ltb_lt _ _)) by lia. mstep.
  rewrite idx_total, Nat2Z.id by lia.
  replace (Z.of_nat n + 1) with (Z.of_nat (S n)) by lia.
  replace (n + S k)%nat with (S n + k)%nat by lia.
  rewrite IH by lia. rewrite slice_S by lia. by rewrite <- app_assoc.
Qed.

Lemma data_ids_direct n di v :
  (n ≤ 28)%nat → length (direct di) = 28%nat → data_ids n di v = take n (direct di).
Proof.
  intros Hn Hl. change (data_ids n di v = data_ids 0 di v ++ take n (direct di)).
  assert (En : length (take n (direct di)) = n) by (rewrite length_take; lia).
  rewrite <- En at 1. apply (data_ids_grow 0); [lia|]. intros k x Hx.
  assert (k < n)%nat by (rewrite <- En; by eapply lookup_lt_Some).
  rewrite lookup_take in Hx by done. rewrite decide_True in Hx by done. unfold nth_id. simpl.
  rewrite (proj2 (Nat.ltb_lt k 28)) by lia. by apply list_lookup_total_correct.
Qed.

Lemma data_ids_ind1 k di v :
  (k ≤ 128)%nat →
  data_ids (28 + k) di v = data_ids 28 di v ++ take k (ids_of v (indirect1 di)).
Proof.
  intros Hk. assert (En : length (take k (ids_of v (indirect1 di))) = k)
    by (rewrite length_take, length_ids_of; lia).
  rewrite <- En at 1. apply data_ids_grow; [done|]. intros i x Hx.
  assert (i < k)%nat by (rewrite <- En; by eapply lookup_lt_Some).
  rewrite lookup_take in Hx. rewrite decide_True in Hx by done. unfold nth_id.
  rewrite (proj2 (Nat.ltb_ge (28 + i) 28)), (proj2 (Nat.ltb_lt (28 + i) 156)) by lia.
  replace (28 + i - 28)%nat with i by lia. by apply list_lookup_total_correct.
Qed.

Lemma data_ids_ind2 a k di v :
  (k ≤ 128)%nat →
  data_ids (156 + 128 * a + k) di v =
    data_ids (156 + 128 * a) di v ++ take k (ids_of v (ids_of v (indirect2 di) !!! a)).
Proof.
  intros Hk. set (s := ids_of v (indirect2 di) !!! a).
  assert (En : length (take k (ids_of v s)) = k) by (rewrite length_take, length_ids_of; lia).
  rewrite <- En at 1. apply data_ids_grow; [done|]. intros i x Hx.
  assert (i < k)%nat by (rewrite <- En; by eapply lookup_lt_Some).
  rewrite lookup_take in Hx. rewrite decide_True in Hx by done. unfold nth_id.
  rewrite (proj2 (Nat.ltb_ge _ 28)), (proj2 (Nat.ltb_ge _ 156)) by lia.
  replace ((156 + 128 * a + i - 156) / 128)%nat with a by lia.
  replace ((156 + 128 * a + i - 156) mod 128)%nat with i by lia.
  by apply list_lookup_total_correct.
Qed.

Lemma subs_S a di v : subs (S a) di v = subs a di v ++ [ids_of v (indirect2 di) !!! a].
Proof. unfold subs. by rewrite seq_S, fmap_app. Qed.

(** What [clear_size] pushes for a list of full second-level blocks. *)
Definition with_ids (v : gmap Z (list Z)) (ss : list Z) : list Z := ss ≫= λ s, s :: ids_of v s.

Lemma with_ids_snoc v ss s : with_ids v (ss ++ [s]) = with_ids v ss ++ s :: ids_of v s.
Proof. unfold with_ids. rewrite bind_app. f_equal. Qed.

Lemma perm_push {A} (ss w d0 d l : list A) s :
  ss ++ d ≡ₚ d0 ++ w → (ss ++ [s]) ++ d ++ l ≡ₚ d0 ++ w ++ s :: l.
Proof. intros E. rewrite (app_assoc d0), <- E. solve_Permutation. Qed.

Lemma perm_clear {A} (d0 t1 ss w d l1 l2 : list A) i1 i2 :
  ss ++ d ≡ₚ (d0 ++ t1) ++ w →
  (d0 ++ [i1]) ++ (t1 ++ [i2]) ++ w ++ l1 ++ l2 ≡ₚ (d ++ l2) ++ i1 :: i2 :: ss ++ l1.
Proof.
  intros E. transitivity (i1 :: i2 :: ((d0 ++ t1) ++ w) ++ l1 ++ l2); [solve_Permutation|].
  rewrite <- E. solve_Permutation.
Qed.

Lemma with_ids_data a di v n :
  n = (156 + 128 * a)%nat →
  subs a di v ++ data_ids n di v ≡ₚ data_ids 156 di v ++ with_ids v (subs a di v).
Proof.
  revert n. induction a as [|a IH]; intros n En.
  { replace n with 156%nat by lia. symmetry. apply Permutation_app_comm. }
  replace n with (156 + 128 * a + 128)%nat by lia.
  rewrite subs_S, data_ids_ind2, with_ids_snoc by lia.
  rewrite take_ge by by rewrite length_ids_of.
  apply perm_push. by apply IH.
Qed.

Section clear.
Context {St : Type} `{HS : BlockStore St, HL : !BlockStoreLaws St}.

(** A closure that only reads an index block, through [modify]. *)
Lemma modify_same_run {A} s (f : list Z → M St (A * list Z)) v h a blk :
  v !! s = Some blk → s ∉ h → (size h < BLOCK_CACHE_SIZE)%nat →
  runs (f blk) v ({[s]} ∪ h) (a, blk) v →
  runs (bc_modify s 0 BLOCK_SZ f) v h a v.
Proof.
  intros E Hh Hc Hf. apply runs_view_ok. intros Hv. destruct (Hv _ _ E) as [Hl Hb].
  rewrite <- (insert_id v s blk) at 2 by done. by eapply runs_modify_full.
Qed.

Lemma clear_full_run ss acc v h :
  (∀ s, s ∈ ss → is_Some (v !! s) ∧ s ∉ h) → (size h < BLOCK_CACHE_SIZE)%nat →
  runs (clear_full (St:=St) ss acc) v h (acc ++ with_ids v ss) v.
Proof.
  revert acc. induction ss as [|s ss IH]; intros acc Hss Hc; cbn [clear_full].
  { unfold with_ids. simpl. rewrite app_nil_r. apply runs_ret. }
  destruct (Hss s) as [[blk E] Hs]; [apply list_elem_of_here|]. eapply runs_bind.
  { eapply modify_same_run; [done..|]. apply runs_ret. }
  replace (acc ++ with_ids v (s :: ss)) with (((acc ++ [s]) ++ words 128 blk) ++ with_ids v ss).
  2:{ assert (words 128 blk = ids_of v s) as -> by (unfold ids_of; by rewrite (lookup_total_correct _ _ _ E)).
      rewrite <- !app_assoc. done. }
  apply IH; [|done]. intros s' Hs'. apply Hss. by apply list_elem_of_further.
Qed.

Lemma clear_direct_run di n v h :
  length (direct di) = 28%nat →
  runs (S:=St) (lift (clear_direct (Z.to_nat (Z.min (Z.of_nat n) 28)) 0
                        (Z.min (Z.of_nat n) 28) (direct di) [])) v h
    (splice 0 (replicate (Nat.min n 28) 0) (direct di), data_ids (Nat.min n 28) di v) v.
Proof.
  intros Hl. apply runs_lift.
  replace (Z.min (Z.of_nat n) 28) with (Z.of_nat (Nat.min n 28)) by lia. rewrite Nat2Z.id.
  rewrite (clear_direct_ok 0 (Nat.min n 28)) by lia.
  rewrite data_ids_direct by lia. unfold slice. by rewrite drop_0.
Qed.

Lemma push_indirect1_run di k acc v h :
  is_Some (v !! indirect1 di) → indirect1 di ∉ h → (size h < BLOCK_CACHE_SIZE)%nat →
  (k ≤ 128)%nat →
  runs (S:=St) (bc_modify (indirect1 di) 0 BLOCK_SZ
          (λ bs, lift (l ← push_indirect1 (Z.to_nat (Z.of_nat k)) 0 (Z.of_nat k) (words 128 bs) acc;
                       mret (l, bs)))) v h
    (acc ++ take k (ids_of v (indirect1 di))) v.
Proof.
  intros [blk E] Hh Hc Hk. eapply modify_same_run; [done..|]. apply runs_lift.
  rewrite Nat2Z.id, (push_indirect1_ok 0 k) by (rewrite length_words; lia).
  unfold slice, ids_of. by rewrite drop_0, (lookup_total_correct _ _ _ E).
Qed.

(** The second-level part of [clear_size]. *)
Lemma clear_indirect2_run di a1 b1 acc v h :
  ((a1 < 128)%nat ∨ (a1 = 128%nat ∧ b1 = 0%nat)) → (b1 < 128)%nat →
  is_Some (v !! indirect2 di) → indirect2 di ∉ h → (2 + size h ≤ BLOCK_CACHE_SIZE)%nat →
  (∀ s, s ∈ subs (if decide (b1 = 0%nat) then a1 else S a1) di v →
     is_Some (v !! s) ∧ (s ∉ h) ∧ s ≠ indirect2 di) →
  let sa := ids_of v (indirect2 di) !!! a1 in
  runs (S:=St) (bc_modify (indirect2 di) 0 BLOCK_SZ
    (λ bs2,
       l ← clear_full (take (Z.to_nat (Z.of_nat a1)) (words 128 bs2)) acc;
       l ← (if 0 <? Z.of_nat b1 then
              entry ← lift (idx (words 128 bs2) (Z.of_nat a1));
              bc_modify entry 0 BLOCK_SZ
                (λ bs, mret ((l ++ [entry]) ++ take (Z.to_nat (Z.of_nat b1)) (words 128 bs), bs))
            else mret l);
       mret (l, bs2))) v h
    (acc ++ with_ids v (subs a1 di v) ++
     (if decide (b1 = 0%nat) then [] else sa :: take b1 (ids_of v sa))) v.
Proof.
  intros Ha Hb [blk E] Hh Hc Hss sa.
  assert (Hids : words 128 blk = ids_of v (indirect2 di))
    by (unfold ids_of; by rewrite (lookup_total_correct _ _ _ E)).
  assert (Hcap : (size ({[indirect2 di]} ∪ h) < BLOCK_CACHE_SIZE)%nat).
  { rewrite size_union_alt, size_singleton.
    assert (size (h ∖ {[indirect2 di]}) ≤ size h)%nat
      by (apply subseteq_size, subseteq_difference_l; done). lia. }
  assert (Hs : ∀ s, s ∈ subs (if decide (b1 = 0%nat) then a1 else S a1) di v →
                is_Some (v !! s) ∧ s ∉ {[indirect2 di]} ∪ h).
  { intros s (?&?&?)%Hss. split; [done|]. by rewrite elem_of_union, elem_of_singleton; intros [?|?]. }
  eapply modify_same_run; [done|done|lia|]. rewrite Hids, !Nat2Z.id.
  assert (take a1 (ids_of v (indirect2 di)) = subs a1 di v) as ->.
  { unfold subs. apply list_eq. intros i. rewrite list_lookup_fmap.
    destruct (decide (i < a1)%nat) as [Hi|Hi].
    - rewrite lookup_take, decide_True, lookup_seq_lt by done. simpl.
      apply list_lookup_lookup_total_lt. rewrite length_ids_of. lia.
    - rewrite lookup_take_ge, lookup_seq_ge by lia. done. }
  eapply runs_bind.
  { apply clear_full_run; [|done]. intros s Hin. apply Hs. case_decide; [done|].
    rewrite subs_S, elem_of_app. by left. }
  eapply (runs_bind _ _ _ _ _ v); [|apply runs_ret].
  destruct (decide (b1 = 0%nat)) as [->|Hne].
  { cbn [Z.of_nat Z.ltb Z.compare]. rewrite app_nil_r. apply runs_ret. }
  rewrite (proj2 (Z.ltb_lt _ _)) by lia.
  eapply runs_bind; [by apply runs_lift; rewrite idx_total by (rewrite length_ids_of; lia)|].
  rewrite Nat2Z.id. fold sa.
  destruct (Hs sa) as [[blk' E'] Hsa]; [rewrite subs_S, elem_of_app, elem_of_cons; auto|].
  eapply modify_same_run; [done..|].
  assert (ids_of v sa = words 128 blk') as ->
    by (unfold ids_of; by rewrite (lookup_total_correct _ _ _ E')).
  rewrite <- !app_assoc. apply runs_ret.
Qed.

Context (di : DiskInode) (v : gmap Z (list Z)) (h : gset Z).
Context (Hwf : inode_wf di v) (Hh : ∀ b, b ∈ index_ids (nblocks di) di v → b ∉ h)
        (Hcap : (2 + size h ≤ BLOCK_CACHE_SIZE)%nat).

Let n := nblocks di.

Lemma clear_counts :
  data_blocks di = Z.of_nat n ∧ Z.of_nat n ≤ 16540 ∧ length (direct di) = 28%nat.
Proof.
  destruct Hwf as ((Hs & Hl & _) & Hm & _). unfold is_u32 in Hs.
  assert (H1 := data_blocks_bound (di_size di) ltac:(unfold MAX_SIZE; lia)).
  unfold n, nblocks, data_blocks. lia.
Qed.

Lemma index_present b : b ∈ index_ids n di v → is_Some (v !! b) ∧ b ∉ h.
Proof.
  intros Hb. split; [|by apply Hh]. apply Hwf. unfold all_ids. apply elem_of_app. by right.
Qed.

(** The blocks returned, in the order [clear_size] pushes them. *)
Definition cleared : list Z :=
  if decide (n ≤ 28)%nat then data_ids n di v
  else (data_ids 28 di v ++ [indirect1 di]) ++
    (if decide (n ≤ 156)%nat then take (n - 28) (ids_of v (indirect1 di))
     else (take 128 (ids_of v (indirect1 di)) ++ [indirect2 di]) ++
       with_ids v (subs ((n - 156) / 128) di v) ++
       (if decide (((n - 156) mod 128)%nat = 0%nat) then []
        else let sa := ids_of v (indirect2 di) !!! ((n - 156) / 128)%nat in
             sa :: take ((n - 156) mod 128) (ids_of v sa))).

Lemma cleared_perm : cleared ≡ₚ all_ids di v.
Proof.
  unfold cleared, all_ids. fold n. destruct clear_counts as (_ & _ & Hl).
  destruct (decide (n ≤ 28)%nat) as [Hn|Hn]; [by rewrite index_ids_low, app_nil_r|].
  destruct (decide (n ≤ 156)%nat) as [Hn'|Hn'].
  { rewrite index_ids_mid by lia. rewrite <- app_assoc.
    replace (data_ids n di v) with (data_ids (28 + (n - 28)) di v) by (f_equal; lia).
    rewrite data_ids_ind1 by lia. rewrite <- app_assoc. apply Permutation_app_head.
    apply Permutation_app_comm. }
  rewrite index_ids_high by lia.
  set (a := ((n - 156) / 128)%nat). set (b := ((n - 156) mod 128)%nat).
  assert (En : n = (156 + 128 * a + b)%nat) by (unfold a, b; clear -Hn'; lia).
  assert (Hb : (b < 128)%nat) by (unfold b; clear; lia).
  destruct (nsubs_step n a b En Hb) as [_ Es].
  assert (E156 : data_ids 156 di v = data_ids 28 di v ++ take 128 (ids_of v (indirect1 di)))
    by (by rewrite <- (data_ids_ind1 128)).
  assert (Hw := with_ids_data a di v _ eq_refl). rewrite E156 in Hw.
  assert (ED : data_ids n di v = data_ids (156 + 128 * a) di v ++
                 take b (ids_of v (ids_of v (indirect2 di) !!! a)))
    by (rewrite En; apply data_ids_ind2; lia).
  assert (ES : subs (nsubs n) di v = subs a di v ++
                 if decide (b = 0%nat) then [] else [ids_of v (indirect2 di) !!! a])
    by (rewrite Es; case_decide; [by rewrite app_nil_r|apply subs_S]).
  rewrite ED, ES. destruct (decide (b = 0%nat)) as [Hb0|Hb0].
  - rewrite Hb0, take_0. by apply (perm_clear _ _ _ _ _ [] []).
  - by apply (perm_clear _ _ _ _ _ [_]).
Qed.

Lemma clear_size_run :
  ∃ di' l, runs (clear_size (St:=St) di) v h (di', l) v ∧ l ≡ₚ all_ids di v ∧
           di_size di' = 0 ∧ type_ di' = type_ di ∧ di_ok di'.
Proof.
  destruct clear_counts as (En & Hmax & Hl).
  set (dir := splice 0 (replicate (Nat.min n 28) 0) (direct di)).
  assert (Hdir : di_ok (set_direct dir (set_size 0 di))).
  { destruct Hwf as ((Hs & _ & Hd & H1 & H2) & _). unfold dir.
    split; [done|]. split; [|split; [|by split]]; cbn [direct set_direct set_size].
    - rewrite length_splice; rewrite ?length_replicate; lia.
    - apply Forall_splice; [|done]. by apply Forall_replicate. }
  assert (Hrun := clear_direct_run di n v h Hl). fold dir in Hrun.
  assert (Hp := cleared_perm). unfold cleared in Hp. fold n in Hp.
  destruct (decide (n ≤ 28)%nat) as [Hn|Hn].
  { eexists (set_direct dir (set_size 0 di)), _. split; [|by split_and!].
    unfold clear_size, INODE_DIRECT_COUNT. rewrite En.
    eapply runs_bind; [exact Hrun|]. cbv beta iota.
    rewrite (proj2 (Z.ltb_ge _ _)) by lia. rewrite Nat.min_l by lia. apply runs_ret. }
  rewrite Nat.min_r in Hrun by lia.
  assert (H1 : indirect1 di ∈ index_ids n di v).
  { unfold index_ids. rewrite (proj2 (Nat.ltb_lt 28 n)) by lia. apply list_elem_of_here. }
  apply index_present in H1 as [H1 H1h].
  destruct (decide (n ≤ 156)%nat) as [Hn'|Hn'].
  { eexists (set_indirect1 0 (set_direct dir (set_size 0 di))), _. split;
      [|split; [exact Hp|split; [done|split; [done|by apply di_ok_set_indirect1]]]].
    unfold clear_size, INODE_DIRECT_COUNT, INODE_INDIRECT1_COUNT. rewrite En.
    eapply runs_bind; [exact Hrun|]. cbv beta iota. rewrite (proj2 (Z.ltb_lt _ _)) by lia.
    cbn [negb]. eapply runs_bind.
    { replace (Z.min (Z.of_nat n - 28) 128) with (Z.of_nat (n - 28)) by lia.
      apply (push_indirect1_run (set_direct dir (set_size 0 di))); [done|done|lia|lia]. }
    rewrite (proj2 (Z.ltb_ge _ _)) by lia. apply runs_ret. }
  assert (H2 : indirect2 di ∈ index_ids n di v).
  { rewrite index_ids_high by lia. apply list_elem_of_further, list_elem_of_here. }
  assert (Hss : ∀ s, s ∈ subs (nsubs n) di v → is_Some (v !! s) ∧ (s ∉ h) ∧ s ≠ indirect2 di).
  { intros s Hs. assert (Hsi : s ∈ index_ids n di v)
      by (rewrite index_ids_high by lia; by do 2 apply list_elem_of_further).
    split_and!; [by apply index_present..|]. intros ->.
    destruct Hwf as (_ & _ & Hnd & _). unfold all_ids in Hnd. fold n in Hnd.
    apply NoDup_app in Hnd as (_ & _ & Hnd). rewrite index_ids_high in Hnd by lia.
    apply NoDup_cons in Hnd as [_ Hnd]. by apply NoDup_cons in Hnd as [? _]. }
  apply index_present in H2 as [H2 H2h].
  eexists (set_indirect2 0 (set_indirect1 0 (set_direct dir (set_size 0 di)))), _. split;
    [|split; [exact Hp|split; [done|split; [done|
      by apply di_ok_set_indirect2; [apply di_ok_set_indirect1|]]]]].
  unfold clear_size, INODE_DIRECT_COUNT, INODE_INDIRECT1_COUNT, INODE_INDIRECT2_COUNT. rewrite En.
  eapply runs_bind; [exact Hrun|]. cbv beta iota. rewrite (proj2 (Z.ltb_lt _ _)) by lia.
  cbn [negb]. eapply runs_bind.
  { replace (Z.min (Z.of_nat n - 28) 128) with (Z.of_nat 128) by lia.
    apply (push_indirect1_run (set_direct dir (set_size 0 di))); [done|done|lia|lia]. }
  rewrite (proj2 (Z.ltb_lt _ _)) by lia. cbn [negb].
  eapply runs_bind; [by apply runs_lift; rewrite (proj2 (Z.leb_le _ _)) by lia|].
  replace (Z.of_nat n - 28 - 128) with (Z.of_nat (n - 156)) by lia.
  rewrite <- (Nat2Z.inj_div _ 128), <- (Nat2Z.inj_mod _ 128).
  eapply runs_bind; [|rewrite app_assoc; apply runs_ret].
  set (a := ((n - 156) / 128)%nat). set (b := ((n - 156) mod 128)%nat).
  assert (Enn : n = (156 + 128 * a + b)%nat) by (unfold a, b; clear -Hn'; lia).
  assert (Hb : (b < 128)%nat) by (unfold b; clear; lia).
  destruct (nsubs_step n a b Enn Hb) as [_ Es]. rewrite Es in Hss.
  rewrite (app_assoc (data_ids 28 di v ++ [indirect1 di]) (take 128 _) [indirect2 di]).
  apply (clear_indirect2_run (set_indirect1 0 (set_direct dir (set_size 0 di)))); try done. lia.
Qed.
End clear.

(** ** Theorems *)

(** Everything the inode owns is outside the blocks the caller keeps locked,
    and the cache has room for the two blocks an operation pins at once. *)
Definition room (own : list Z) (h : gset Z) : Prop :=
  (∀ b, b ∈ own → b ∉ h) ∧ (2 + size h ≤ BLOCK_CACHE_SIZE)%nat.

Lemma inode_wf_nblocks di v : inode_wf di v → Z.of_nat (nblocks di) ≤ 16540.
Proof.
  intros ((Hs & _) & Hm & _). unfold is_u32 in Hs.
  assert (H1 := data_blocks_bound (di_size di) ltac:(unfold MAX_SIZE; lia)).
  unfold nblocks, data_blocks. lia.
Qed.

Lemma nall_le n : (nall n ≤ 2 * n + 3)%nat.
Proof.
  unfold nall, nsubs. destruct (28 <? n)%nat, (156 <? n)%nat; lia.
Qed.

(** The lookup [get_block_id] finds the [i]-th data block of an inode, through
    the direct entries, the first-level block or the two levels, without
    changing the disk. *)
Theorem get_block_id_correct {St} `{HS : BlockStore St, HL : !BlockStoreLaws St} di v h i b :
  inode_wf di v → room (all_ids di v) h → data_ids (nblocks di) di v !! i = Some b →
  runs (get_block_id (St:=St) di (Z.of_nat i)) v h b v.
Proof.
  intros Hwf [Hh Hc] Hb. assert (Hn := inode_wf_nblocks _ _ Hwf).
  assert (Hi : (i < nblocks di)%nat).
  { rewrite <- (length_data_ids (nblocks di) di v). by eapply lookup_lt_Some. }
  unfold data_ids in Hb. rewrite list_lookup_fmap, lookup_seq_lt in Hb by done.
  injection Hb as <-. apply (get_block_id_run di v h i (nblocks di)); [apply Hwf|done|done| |lia].
  intros b Hb. assert (b ∈ all_ids di v) by (apply elem_of_app; by right).
  split; [by apply Hwf|by apply Hh].
Qed.

Lemma increase_wf_run {St} `{HS : BlockStore St, HL : !BlockStoreLaws St}
    di v h new_size needed nb :
  view_ok v → inode_wf di v → new_size ≤ MAX_SIZE →
  blocks_num_needed di new_size = Ok needed → Z.of_nat (length nb) = needed →
  NoDup (all_ids di v ++ nb) → Forall is_u32 (all_ids di v ++ nb) →
  (∀ b, b ∈ nb → is_Some (v !! b)) → room (all_ids di v ++ nb) h →
  ∃ di' v', runs (increase_size (St:=St) di new_size nb) v h di' v' ∧
    grown di v new_size nb di' v' ∧ inode_wf di' v'.
Proof.
  intros Hv Hwf Hsz Hneed Hlen Hnd Hu Hnb [Hh Hc]. unfold blocks_num_needed in Hneed.
  destruct (Z.leb_spec (di_size di) new_size) as [Hle|]; [|done]. mstep.
  injection Hneed as <-. assert (H0 : 0 ≤ di_size di) by (destruct Hwf as ((Hs&_)&_); apply Hs).
  rewrite !total_blocks_nall in Hlen by lia.
  assert (Hmono : (nall (nblocks di) ≤ nall (Z.to_nat (_data_blocks new_size)))%nat)
    by (apply nall_mono, Z2Nat.inj_le; try apply data_blocks_bound; try apply data_blocks_mono; lia).
  assert (Hb := data_blocks_bound new_size ltac:(lia)).
  assert (Hmax := nall_le (Z.to_nat (_data_blocks new_size))).
  unfold nblocks, data_blocks in *. rewrite u32_small in Hlen by lia.
  assert (Hpool : pool (all_ids di v ++ nb) v).
  { split_and!; [done..|]. intros b. rewrite elem_of_app, elem_of_dom.
    intros [?|?]; [by apply Hwf|by apply Hnb]. }
  destruct (increase_size_run (St:=St) di v h new_size nb Hwf (conj Hle Hsz))
    as (di' & v' & Hrun & Hg); [unfold nblocks, data_blocks; lia|done..|].
  exists di', v'. split_and!; [done..|]. destruct Hg as [Hok Es _ _ Hp Hd _ _].
  split_and!; [done|by rewrite Es|by rewrite Hp|].
  intros b. rewrite Hp, <- elem_of_dom, Hd. apply Hpool.
Qed.

(** [increase_size] with exactly the [blocks_num_needed] fresh blocks grows
    the inode to the new size: the data blocks it had keep their places, the
    inode owns its old blocks and the given ones and nothing else, no block is
    used twice, and no block but the inode's index blocks is written.  It never
    panics on an exhausted iterator or a bad index. *)
Theorem increase_size_grows {St} `{HS : BlockStore St, HL : !BlockStoreLaws St}
    di v h new_size needed nb :
  view_ok v → inode_wf di v → new_size ≤ MAX_SIZE →
  blocks_num_needed di new_size = Ok needed → Z.of_nat (length nb) = needed →
  NoDup (all_ids di v ++ nb) → Forall is_u32 (all_ids di v ++ nb) →
  (∀ b, b ∈ nb → is_Some (v !! b)) → room (all_ids di v ++ nb) h →
  ∃ di' v', runs (increase_size (St:=St) di new_size nb) v h di' v' ∧
    grown di v new_size nb di' v' ∧ inode_wf di' v'.
Proof. apply increase_wf_run. Qed.

(** [clear_size] returns every block the inode owns, data and index blocks,
    each once; their number is [total_blocks] of the old size, as
    [Inode::clear] asserts.  The disk is unchanged and the size is 0. *)
Theorem clear_size_returns_all {St} `{HS : BlockStore St, HL : !BlockStoreLaws St} di v h :
  inode_wf di v → room (all_ids di v) h →
  ∃ di' l, runs (clear_size (St:=St) di) v h (di', l) v ∧
    l ≡ₚ all_ids di v ∧ NoDup l ∧ Z.of_nat (length l) = total_blocks (di_size di) ∧
    di_size di' = 0 ∧ type_ di' = type_ di.
Proof.
  intros Hwf [Hh Hc]. assert (Hb : ∀ b, b ∈ index_ids (nblocks di) di v → b ∉ h)
    by (intros b Hb; apply Hh, elem_of_app; by right).
  destruct (clear_size_run (St:=St) di v h Hwf Hb Hc) as (di' & l & Hrun & Hp & Hs & Ht & _).
  assert (0 ≤ di_size di ≤ MAX_SIZE) as Hr
    by (destruct Hwf as ((Hs'&_)&?&_); unfold is_u32 in Hs'; unfold MAX_SIZE; lia).
  exists di', l. split_and!; [done..|by rewrite Hp; apply Hwf| |done|done].
  rewrite (Permutation_length Hp). unfold all_ids. rewrite length_all_ids.
  by rewrite total_blocks_nall.
Qed.

(** ** Concrete runs *)

(** A disk of 40 blocks, and a file of 29 blocks on it: blocks 1 to 28 are its
    direct blocks, block 29 its first-level block, which names block 30. *)
Definition inode_image : list Z := replicate (29 * 512) 7 ++ 30 :: replicate (11 * 512 - 1) 0.
Definition inode_view : gmap Z (list Z) := cache_view (boot inode_image).
Definition demo_inode : DiskInode :=
  mkDiskInode (29 * 512) (seqZ 1 28) 29 0 File.

Lemma inode_image_ok : bytes inode_image ∧ Z.of_nat (length inode_image) < 2 ^ 40.
Proof.
  split; [|vm_compute; reflexivity]. apply Forall_app_2; [by apply Forall_replicate|].
  constructor; [done|by apply Forall_replicate].
Qed.

Lemma inode_view_ok : view_ok inode_view.
Proof. apply boot_view_ok; apply inode_image_ok. Qed.

Lemma demo_inode_ids : all_ids demo_inode inode_view = seqZ 1 28 ++ [30; 29].
Proof. vm_compute. reflexivity. Qed.

Lemma present_bool (v : gmap Z (list Z)) l :
  forallb (λ b, bool_decide (is_Some (v !! b))) l = true → ∀ b, b ∈ l → is_Some (v !! b).
Proof.
  intros Hf b Hb. apply forallb_forall with (x := b) in Hf; [by apply bool_decide_eq_true in Hf|].
  by apply list_elem_of_In.
Qed.

Lemma demo_inode_wf : inode_wf demo_inode inode_view.
Proof.
  split_and!.
  - split_and!; try done. apply Forall_forall. intros x Hx%elem_of_seqZ. unfold is_u32. lia.
  - vm_compute. discriminate.
  - rewrite demo_inode_ids. apply (bool_decide_unpack _). vm_compute. exact I.
  - rewrite demo_inode_ids. apply present_bool. vm_compute. reflexivity.
Qed.

Lemma room_empty l : room l ∅.
Proof. split; [intros b _; apply not_elem_of_empty|vm_compute; lia]. Qed.

Lemma get_block_id_correct_witness :
  ∃ s', get_block_id demo_inode 28 (boot inode_image) = Ok (30, s') ∧
        cache_view s' = inode_view.
Proof.
  apply boot_runs; [apply inode_image_ok..|].
  apply (get_block_id_correct demo_inode inode_view ∅ 28 30 demo_inode_wf (room_empty _)).
  vm_compute. reflexivity.
Defined.

Lemma increase_size_grows_witness :
  ∃ di' s', increase_size demo_inode (31 * 512) [31; 32] (boot inode_image) = Ok (di', s') ∧
    grown demo_inode inode_view (31 * 512) [31; 32] di' (cache_view s').
Proof.
  assert (Hnd : NoDup (all_ids demo_inode inode_view ++ [31; 32]))
    by (rewrite demo_inode_ids; apply (bool_decide_unpack _); vm_compute; exact I).
  assert (Hu : Forall is_u32 (all_ids demo_inode inode_view ++ [31; 32]))
    by (rewrite demo_inode_ids; apply (bool_decide_unpack _); vm_compute; exact I).
  destruct (increase_size_grows (St:=CacheState BlockFile) demo_inode inode_view ∅
    (31 * 512) 2 [31; 32] inode_view_ok demo_inode_wf) as (di' & v' & Hrun & Hg & _).
  - vm_compute. discriminate.
  - vm_compute. reflexivity.
  - reflexivity.
  - exact Hnd.
  - exact Hu.
  - apply present_bool. vm_compute. reflexivity.
  - apply room_empty.
  - destruct (boot_runs _ inode_image di' v' (proj1 inode_image_ok) (proj2 inode_image_ok) Hrun)
      as (s' & E & <-).
    exists di', s'. split; [exact E|exact Hg].
Defined.

Lemma clear_size_returns_all_witness :
  ∃ di' l s', clear_size demo_inode (boot inode_image) = Ok (di', l, s') ∧
    l ≡ₚ seqZ 1 28 ++ [30; 29].
Proof.
  destruct (clear_size_returns_all (St:=CacheState BlockFile) demo_inode inode_view ∅
    demo_inode_wf (room_empty _)) as (di' & l & Hrun & Hp & _).
  rewrite demo_inode_ids in Hp.
  destruct (boot_runs _ inode_image _ _ (proj1 inode_image_ok) (proj2 inode_image_ok) Hrun)
    as (s' & E & _).
  exists di', l, s'. split; [exact E|exact Hp].
Defined.
