(* ===== verification/InodeData.v ===== *)
(** * Reading and writing file contents (easy-fs/src/layout.rs)

    [DiskInode::read_at] and [DiskInode::write_at] walk a byte range block by
    block.  The specification is the content of the file, the list of its
    bytes: a read returns a slice of it, a write replaces one. *)

From S2P Require Import Prelude Bytes BlockStore BlockCache BlockFile Layout Inode InodeSpec.
From Stdlib Require Import ZifyNat.

Section data.
Context {St : Type} `{BlockStore St}.

(** The loop of [read_at]; returns [read_size] and the buffer. *)
Fixpoint read_loop (fuel : nat) (di : DiskInode) (start end_ start_block read_size : Z)
    (buf : list Z) : M St (Z * list Z) :=
  match fuel with
  | O => throw OutOfFuel
  | S fuel =>
      (* calculate end of current block *)
      let end_current_block := (start / BSZ + 1) * BSZ in
      let end_current_block := Z.min end_current_block end_ in
      (* read and update read size *)
      let block_read_size := end_current_block - start in
      lift (assert_ (read_size + block_read_size <=? Z.of_nat (length buf)));;
      b ← get_block_id di (u32 start_block);
      buf ← bc_read b 0 BLOCK_SZ (λ data_block, lift (
              assert_ (start mod BSZ + block_read_size <=? BSZ);;
              let src := slice (Z.to_nat (start mod BSZ)) (Z.to_nat block_read_size) data_block in
              mret (splice (Z.to_nat read_size) src buf)));
      let read_size := read_size + block_read_size in
      (* move to next block *)
      if end_current_block =? end_ then mret (read_size, buf)
      else read_loop fuel di end_current_block end_ (start_block + 1) read_size buf
  end.

Definition read_at (di : DiskInode) (offset : Z) (buf : list Z) : M St (Z * list Z) :=
  let start := offset in
  let end_ := Z.min (offset +ᵤ Z.of_nat (length buf)) (di_size di) in
  if end_ <=? start then mret (0, buf)
  else read_loop (S (length buf)) di start end_ (start / BSZ) 0 buf.

(** The loop of [write_at]; returns [write_size]. *)
Fixpoint write_loop (fuel : nat) (di : DiskInode) (start end_ start_block write_size : Z)
    (buf : list Z) : M St Z :=
  match fuel with
  | O => throw OutOfFuel
  | S fuel =>
      (* calculate end of current block *)
      let end_current_block := (start / BSZ + 1) * BSZ in
      let end_current_block := Z.min end_current_block end_ in
      (* write and update write size *)
      let block_write_size := end_current_block - start in
      b ← get_block_id di (u32 start_block);
      bc_modify b 0 BLOCK_SZ (λ data_block, lift (
        assert_ (write_size + block_write_size <=? Z.of_nat (length buf));;
        let src := slice (Z.to_nat write_size) (Z.to_nat block_write_size) buf in
        assert_ (start mod BSZ + block_write_size <=? BSZ);;
        mret (tt, splice (Z.to_nat (start mod BSZ)) src data_block)));;
      let write_size := write_size + block_write_size in
      (* move to next block *)
      if end_current_block =? end_ then mret write_size
      else write_loop fuel di end_current_block end_ (start_block + 1) write_size buf
  end.

Definition write_at (di : DiskInode) (offset : Z) (buf : list Z) : M St Z :=
  let start := offset in
  let end_ := Z.min (offset +ᵤ Z.of_nat (length buf)) (di_size di) in
  lift (assert_ (start <=? end_));;
  write_loop (S (length buf)) di start end_ (start / BSZ) 0 buf.
End data.

(** ** Specification: the bytes of a file *)

(** The bytes of the data blocks, and the file's content. *)
Definition all_bytes (di : DiskInode) (v : gmap Z (list Z)) : list Z :=
  data_ids (nblocks di) di v ≫= λ b, v !!! b.
Definition content (di : DiskInode) (v : gmap Z (list Z)) : list Z :=
  take (Z.to_nat (di_size di)) (all_bytes di v).

(** ** Lists of blocks of one length *)

Lemma lookup_bind_fixed {A B} (f : A → list B) (k : nat) (l : list A) i j :
  (∀ x, x ∈ l → length (f x) = k) → (j < k)%nat →
  (l ≫= f) !! (i * k + j)%nat = l !! i ≫= λ x, f x !! j.
Proof.
  revert i. induction l as [|x l IH]; intros i Hl Hj; [done|].
  rewrite bind_cons. assert (Hx : length (f x) = k) by (apply Hl, list_elem_of_here).
  destruct i as [|i].
  - simpl. by rewrite lookup_app_l by lia.
  - change ((x :: l) !! S i) with (l !! i).
    rewrite lookup_app_r by lia. rewrite <- IH; [f_equal; lia| |done].
    intros y Hy. apply Hl. by apply list_elem_of_further.
Qed.

Lemma length_bind_fixed {A B} (f : A → list B) (k : nat) (l : list A) :
  (∀ x, x ∈ l → length (f x) = k) → length (l ≫= f) = (length l * k)%nat.
Proof.
  induction l as [|x l IH]; intros Hl; [done|]. rewrite bind_cons, length_app.
  rewrite (Hl x) by apply list_elem_of_here. cbn [length]. rewrite IH; [lia|].
  intros y Hy. apply Hl. by apply list_elem_of_further.
Qed.

Lemma slice_app {A} off n m (l : list A) :
  slice off n l ++ slice (off + n) m l = slice off (n + m) l.
Proof. unfold slice. rewrite <- drop_drop. by rewrite take_take_drop. Qed.

Lemma splice_next {A} p q a b (l : list A) :
  q = (p + length a)%nat → (q + length b ≤ length l)%nat →
  splice q b (splice p a l) = splice p (a ++ b) l.
Proof.
  intros -> Hl. assert (length (splice p a l) = length l) by (apply length_splice; lia).
  apply list_eq. intros i.
  rewrite !lookup_splice by (rewrite ?length_app; lia). rewrite length_app.
  destruct (decide (p + length a ≤ i < p + length a + length b)%nat).
  - rewrite decide_True by lia. rewrite lookup_app_r by lia. f_equal. lia.
  - destruct (decide (p ≤ i < p + length a)%nat).
    + rewrite decide_True by lia. by rewrite lookup_app_l by lia.
    + by rewrite decide_False by lia.
Qed.

(** ** Blocks of a file *)

Section file.
Context (di : DiskInode) (v : gmap Z (list Z)).
Context (Hv : view_ok v) (Hwf : inode_wf di v).

Lemma data_block_length b : b ∈ data_ids (nblocks di) di v → length (v !!! b) = BLOCK_SZ.
Proof.
  intros Hb. destruct Hwf as (_ & _ & _ & Hin).
  destruct (Hin b) as [blk E]; [apply elem_of_app; by left|].
  rewrite (lookup_total_correct _ _ _ E). by eapply Hv.
Qed.

Lemma length_all_bytes : length (all_bytes di v) = (nblocks di * 512)%nat.
Proof.
  unfold all_bytes. rewrite (length_bind_fixed _ 512); [by rewrite length_data_ids|].
  apply data_block_length.
Qed.

Lemma lookup_data_ids i :
  (i < nblocks di)%nat → data_ids (nblocks di) di v !! i = Some (nth_id di v i).
Proof. intros Hi. unfold data_ids. by rewrite list_lookup_fmap, lookup_seq_lt. Qed.

(** A range within one block. *)
Lemma slice_block p n :
  (p / 512 < nblocks di)%nat → (p mod 512 + n ≤ 512)%nat →
  slice p n (all_bytes di v) = slice (p mod 512) n (v !!! nth_id di v (p / 512)).
Proof.
  intros Hp Hn. apply list_eq. intros j. rewrite !lookup_slice.
  destruct (decide (j < n)%nat) as [Hj|Hj]; [|done].
  replace (p + j)%nat with (p / 512 * 512 + (p mod 512 + j))%nat by lia.
  unfold all_bytes. rewrite (lookup_bind_fixed _ 512) by (apply data_block_length || lia).
  rewrite lookup_data_ids by done. reflexivity.
Qed.

Lemma nblocks_size : (Z.to_nat (di_size di) ≤ nblocks di * 512)%nat.
Proof.
  destruct Hwf as ((Hs & _) & Hm & _). unfold is_u32 in Hs. fold MAX_SIZE in Hm.
  unfold nblocks, data_blocks. rewrite data_blocks_eq by lia.
  Z.to_euclidean_division_equations; lia.
Qed.

Lemma length_content : length (content di v) = Z.to_nat (di_size di).
Proof.
  unfold content. rewrite length_take, length_all_bytes. pose proof nblocks_size. lia.
Qed.

Lemma slice_content p n :
  (p + n ≤ Z.to_nat (di_size di))%nat →
  slice p n (content di v) = slice p n (all_bytes di v).
Proof.
  intros Hn. apply list_eq. intros i. rewrite !lookup_slice.
  destruct (decide (i < n)%nat); [|done]. unfold content.
  by rewrite lookup_take, decide_True by lia.
Qed.
End file.

(** ** Reading *)

Section read.
Context {St : Type} `{HS : BlockStore St, HL : !BlockStoreLaws St}.
Context (di : DiskInode) (v : gmap Z (list Z)) (h : gset Z) (buf0 : list Z) (off : nat).
Context (Hwf : inode_wf di v) (Hroom : room (all_ids di v) h).

Lemma block_id_run i :
  (i < nblocks di)%nat →
  runs (get_block_id (St:=St) di (u32 (Z.of_nat i))) v h (nth_id di v i) v.
Proof.
  intros Hi. assert (Hn := inode_wf_nblocks _ _ Hwf). rewrite u32_small by lia.
  destruct Hroom as [Hh Hc].
  apply (get_block_id_run di v h i (nblocks di)); [apply Hwf|done|done| |lia].
  intros b Hb. assert (b ∈ all_ids di v) by (apply elem_of_app; by right).
  split; [by apply Hwf|by apply Hh].
Qed.

Lemma nth_id_present i :
  (i < nblocks di)%nat →
  nth_id di v i ∈ all_ids di v ∧ is_Some (v !! nth_id di v i) ∧ nth_id di v i ∉ h.
Proof.
  intros Hi. assert (nth_id di v i ∈ all_ids di v).
  { apply elem_of_app. left. eapply list_elem_of_lookup_2. by apply lookup_data_ids. }
  split_and!; [done|by apply Hwf|by apply Hroom].
Qed.

(** The end of the block that holds byte [p]. *)
Lemma block_end (p e : nat) :
  Z.min ((Z.of_nat p / BSZ + 1) * BSZ) (Z.of_nat e) =
    Z.of_nat (Nat.min ((p / 512 + 1) * 512) e).
Proof. unfold BSZ. lia. Qed.

Lemma read_loop_run fuel (p e : nat) :
  (off ≤ p < e)%nat → (e ≤ Z.to_nat (di_size di))%nat → (e - p ≤ fuel)%nat →
  (e - off ≤ length buf0)%nat →
  runs (read_loop (St:=St) fuel di (Z.of_nat p) (Z.of_nat e) (Z.of_nat (p / 512))
          (Z.of_nat (p - off)) (splice 0 (slice off (p - off) (all_bytes di v)) buf0)) v h
    (Z.of_nat (e - off), splice 0 (slice off (e - off) (all_bytes di v)) buf0) v.
Proof.
  revert p. induction fuel as [|fuel IH]; intros p Hp He Hf Hb; [lia|].
  apply runs_view_ok. intros Hv. assert (Hns := nblocks_size di v Hwf).
  assert (Hal := length_all_bytes di v Hv Hwf).
  cbn [read_loop]. rewrite block_end. set (q := Nat.min ((p / 512 + 1) * 512) e).
  assert (Hq : (p < q ≤ e)%nat) by (unfold q; lia).
  assert (Hpq : (p mod 512 + (q - p) ≤ 512)%nat) by (unfold q; lia).
  assert (Hpn : (p / 512 < nblocks di)%nat) by lia.
  assert (Hsl : length (splice 0 (slice off (p - off) (all_bytes di v)) buf0) = length buf0)
    by (rewrite length_splice; rewrite ?length_slice; lia).
  eapply (runs_bind _ _ _ _ tt).
  { apply runs_lift. rewrite Hsl. by rewrite (proj2 (Z.leb_le _ _)) by lia. }
  eapply runs_bind; [by apply block_id_run|].
  destruct (nth_id_present _ Hpn) as (_ & [blk E] & Hnh).
  destruct (Hv _ _ E) as [Hbl _].
  eapply (runs_bind _ _ _ _ (splice 0 (slice off (q - off) (all_bytes di v)) buf0)).
  { eapply runs_read; [done..|destruct Hroom; lia|done|]. apply runs_lift.
    rewrite slice_all by done. rewrite (proj2 (Z.leb_le _ _)) by (unfold BSZ; lia). mstep.
    cbn [assert_]. f_equal.
    replace (Z.to_nat (Z.of_nat p mod BSZ)) with (p mod 512)%nat by (unfold BSZ; lia).
    replace (Z.to_nat (Z.of_nat q - Z.of_nat p)) with (q - p)%nat by lia.
    rewrite <- (lookup_total_correct _ _ _ E), <- slice_block by done.
    rewrite Nat2Z.id.
    assert (El : length (slice off (p - off) (all_bytes di v)) = (p - off)%nat)
      by (apply length_slice; lia).
    rewrite splice_next by (rewrite ?length_slice; lia). clear El.
    f_equal. replace p with (off + (p - off))%nat at 2 by lia. rewrite slice_app. f_equal. lia. }
  cbv beta zeta. replace (Z.of_nat (p - off) + (Z.of_nat q - Z.of_nat p)) with (Z.of_nat (q - off)) by lia.
  destruct (Z.eqb_spec (Z.of_nat q) (Z.of_nat e)) as [Eq|Ne].
  { assert (q = e) as -> by lia. apply runs_ret. }
  replace (Z.of_nat (p / 512) + 1) with (Z.of_nat (q / 512)) by lia.
  apply IH; lia.
Qed.
End read.

(** ** Writing *)

Lemma ids_of_same v v' b : v' !! b = v !! b → ids_of v' b = ids_of v b.
Proof. intros E. unfold ids_of. by rewrite !lookup_total_alt, E. Qed.

(** Changes outside the index blocks change no block id. *)
Lemma ids_frame n di v v' :
  (∀ b, b ∈ index_ids n di v → v' !! b = v !! b) →
  data_ids n di v' = data_ids n di v ∧ index_ids n di v' = index_ids n di v.
Proof.
  intros Hf.
  assert (H1 : (28 < n)%nat → ids_of v' (indirect1 di) = ids_of v (indirect1 di)).
  { intros Hn. apply ids_of_same, Hf. unfold index_ids.
    rewrite (proj2 (Nat.ltb_lt 28 n)) by lia. apply list_elem_of_here. }
  assert (H2 : (156 < n)%nat → ids_of v' (indirect2 di) = ids_of v (indirect2 di)).
  { intros Hn. apply ids_of_same, Hf. rewrite index_ids_high by lia.
    apply list_elem_of_further, list_elem_of_here. }
  split.
  - apply data_ids_ext. intros i Hi. unfold nth_id.
    destruct (Nat.ltb_spec i 28); [done|]. destruct (Nat.ltb_spec i 156); [by rewrite H1 by lia|].
    rewrite H2 by lia. f_equal. apply ids_of_same, Hf, sub_elem_of. lia.
  - unfold index_ids. destruct (Nat.ltb_spec 156 n); [|].
    + unfold subs. by rewrite H2 by lia.
    + by replace (nsubs n) with 0%nat by (unfold nsubs; lia).
Qed.

Lemma all_ids_frame di v b blk :
  (b ∉ index_ids (nblocks di) di v) →
  data_ids (nblocks di) di (<[b := blk]> v) = data_ids (nblocks di) di v ∧
  all_ids di (<[b := blk]> v) = all_ids di v.
Proof.
  intros Hb. destruct (ids_frame (nblocks di) di v (<[b := blk]> v)) as [E1 E2].
  { intros c Hc. by rewrite lookup_insert_ne by (by intros ->). }
  unfold all_ids. by rewrite E1, E2.
Qed.

Lemma inode_wf_insert di v b blk :
  inode_wf di v → (b ∉ index_ids (nblocks di) di v) → inode_wf di (<[b := blk]> v).
Proof.
  intros (Hok & Hs & Hnd & Hin) Hb. destruct (all_ids_frame di v b blk Hb) as [_ E].
  split_and!; [done..|by rewrite E|]. intros c. rewrite E, lookup_insert_is_Some. intros Hc.
  destruct (decide (b = c)); [by left|right; auto].
Qed.

Lemma data_not_index di v b :
  inode_wf di v → b ∈ data_ids (nblocks di) di v → b ∉ index_ids (nblocks di) di v.
Proof.
  intros (_ & _ & Hnd & _) Hb Hi. unfold all_ids in Hnd.
  apply NoDup_app in Hnd as (_ & Hd & _). by apply (Hd b).
Qed.

Lemma lookup_all_bytes di v i :
  view_ok v → inode_wf di v → (i / 512 < nblocks di)%nat →
  all_bytes di v !! i = (v !!! nth_id di v (i / 512)) !! (i mod 512)%nat.
Proof.
  intros Hv Hwf Hi. replace i with (i / 512 * 512 + i mod 512)%nat at 1 by lia.
  unfold all_bytes.
  rewrite (lookup_bind_fixed _ 512) by ((intros; by apply (data_block_length di)) || lia).
  by rewrite lookup_data_ids.
Qed.

Lemma nth_id_inj di v i j :
  inode_wf di v → (i < nblocks di)%nat → (j < nblocks di)%nat →
  nth_id di v i = nth_id di v j → i = j.
Proof.
  intros (_ & _ & Hnd & _) Hi Hj E. apply NoDup_app in Hnd as (Hnd & _).
  eapply NoDup_lookup; [exact Hnd|by apply lookup_data_ids|]. rewrite E. by apply lookup_data_ids.
Qed.

Lemma view_ok_write v b off src :
  view_ok v → is_Some (v !! b) → (off + length src ≤ 512)%nat → bytes src →
  view_ok (<[b := splice off src (v !!! b)]> v).
Proof.
  intros Hv [blk E] Hl Hb c blk'. rewrite (lookup_total_correct _ _ _ E).
  destruct (Hv _ _ E) as [Hbl Hbb]. unfold BLOCK_SZ in *.
  rewrite lookup_insert_Some. intros [[<- <-]|[_ ?]]; [|by apply (Hv c)].
  split; [rewrite length_splice; unfold BLOCK_SZ; lia|by apply bytes_splice].
Qed.

(** Writing inside one block replaces a range of the file's bytes. *)
Lemma all_bytes_write di v p src :
  view_ok v → inode_wf di v → (p / 512 < nblocks di)%nat →
  (p mod 512 + length src ≤ 512)%nat → bytes src →
  let b := nth_id di v (p / 512) in
  all_bytes di (<[b := splice (p mod 512) src (v !!! b)]> v) = splice p src (all_bytes di v).
Proof.
  intros Hv Hwf Hp Hs Hsb b.
  assert (Hb : b ∈ data_ids (nblocks di) di v)
    by (eapply list_elem_of_lookup_2; by apply lookup_data_ids).
  assert (Hbi := data_not_index _ _ _ Hwf Hb).
  assert (Hbl := data_block_length _ _ Hv Hwf _ Hb). unfold BLOCK_SZ in Hbl.
  set (v' := <[b := splice (p mod 512) src (v !!! b)]> v).
  assert (Hv' : view_ok v') by (apply view_ok_write; try done; apply Hwf, elem_of_app; by left).
  assert (Hwf' : inode_wf di v') by by apply inode_wf_insert.
  destruct (all_ids_frame di v b (splice (p mod 512) src (v !!! b)) Hbi) as [ED _]. fold v' in ED.
  assert (Hlen := length_all_bytes _ _ Hv Hwf). assert (Hlen' := length_all_bytes _ _ Hv' Hwf').
  apply list_eq. intros i. destruct (decide (i < nblocks di * 512)%nat) as [Hi|Hi].
  2:{ rewrite !lookup_ge_None_2; [done|rewrite length_splice; lia|lia]. }
  assert (Hin : (i / 512 < nblocks di)%nat) by lia.
  rewrite lookup_splice by lia. rewrite !lookup_all_bytes by done.
  assert (nth_id di v' (i / 512) = nth_id di v (i / 512)) as ->.
  { apply (inj Some). rewrite <- !lookup_data_ids by done. by rewrite ED. }
  unfold v'. destruct (decide (i / 512 = p / 512)%nat) as [E|E].
  - rewrite E. fold b. rewrite lookup_total_insert_eq, lookup_splice by lia.
    destruct (decide (p ≤ i < p + length src)%nat).
    + rewrite decide_True by lia. f_equal. lia.
    + by rewrite decide_False by lia.
  - rewrite lookup_total_insert_ne by (intros Eb; apply E; symmetry; exact (nth_id_inj di v _ _ Hwf Hp Hin Eb)).
    by rewrite decide_False by lia.
Qed.

Section write.
Context {St : Type} `{HS : BlockStore St, HL : !BlockStoreLaws St}.
Context (di : DiskInode) (h : gset Z) (buf : list Z) (off : nat) (ids : list Z).
Context (Hroom : room ids h) (Hbytes : bytes buf).

(** What one write of the range [p, e) leaves. *)
Definition written (v : gmap Z (list Z)) (p e : nat) (v' : gmap Z (list Z)) : Prop :=
  view_ok v' ∧ inode_wf di v' ∧ all_ids di v' = ids ∧
  data_ids (nblocks di) di v' = data_ids (nblocks di) di v ∧
  all_bytes di v' = splice p (slice (p - off) (e - p) buf) (all_bytes di v) ∧
  (∀ b, b ∉ data_ids (nblocks di) di v → v' !! b = v !! b).

Lemma written_trans v p q e v1 v2 :
  view_ok v → inode_wf di v → (off ≤ p ≤ q)%nat → (q ≤ e)%nat →
  (e ≤ nblocks di * 512)%nat → (e - off ≤ length buf)%nat →
  written v p q v1 → written v1 q e v2 → written v p e v2.
Proof.
  intros Hv Hwf Hp Hq He Hb (Hv1 & Hwf1 & Hi1 & Hd1 & Hb1 & Hf1) (Hv2 & Hwf2 & Hi2 & Hd2 & Hb2 & Hf2).
  assert (Hlen := length_all_bytes _ _ Hv Hwf).
  split_and!; [done..|congruence| |].
  - rewrite Hb2, Hb1.
    rewrite splice_next by (rewrite ?length_slice; lia).
    f_equal. replace (q - off)%nat with (p - off + (q - p))%nat by lia.
    rewrite slice_app. f_equal. lia.
  - intros b Hbn. rewrite Hf2 by by rewrite Hd1. by apply Hf1.
Qed.

Lemma write_step v (p q : nat) :
  view_ok v → inode_wf di v → all_ids di v = ids → (off ≤ p ≤ q)%nat →
  (p / 512 < nblocks di)%nat → (p mod 512 + (q - p) ≤ 512)%nat → (q - off ≤ length buf)%nat →
  ∃ v1, written v p q v1 ∧
    runs (S:=St) (bc_modify (nth_id di v (p / 512)) 0 BLOCK_SZ (λ data_block, lift (
        assert_ (Z.of_nat (p - off) + (Z.of_nat q - Z.of_nat p) <=? Z.of_nat (length buf));;
        let src := slice (Z.to_nat (Z.of_nat (p - off))) (Z.to_nat (Z.of_nat q - Z.of_nat p)) buf in
        assert_ (Z.of_nat p mod BSZ + (Z.of_nat q - Z.of_nat p) <=? BSZ);;
        mret (tt, splice (Z.to_nat (Z.of_nat p mod BSZ)) src data_block)))) v h tt v1.
Proof.
  intros Hv Hwf Hids Hpq Hpn Hm Hb.
  assert (Hr : room (all_ids di v) h) by by rewrite Hids.
  destruct (nth_id_present di v h Hwf Hr _ Hpn) as (_ & [blk E] & Hnh).
  set (b := nth_id di v (p / 512)) in *. set (src := slice (p - off) (q - p) buf).
  assert (Hsl : length src = (q - p)%nat) by (apply length_slice; lia).
  assert (Hsb : bytes src) by by apply bytes_slice.
  assert (Hbd : b ∈ data_ids (nblocks di) di v)
    by (eapply list_elem_of_lookup_2; by apply lookup_data_ids).
  assert (Hbi := data_not_index _ _ _ Hwf Hbd). destruct (Hv _ _ E) as [Hbl Hbb].
  unfold BLOCK_SZ in Hbl.
  exists (<[b := splice (p mod 512) src (v !!! b)]> v).
  destruct (all_ids_frame di v b (splice (p mod 512) src (v !!! b)) Hbi) as [ED EA].
  split.
  - split_and!; [|by apply inode_wf_insert|by rewrite EA|done| |].
    + apply view_ok_write; [done|by eexists|lia|done].
    + apply (all_bytes_write di v p src); try done; lia.
    + intros c Hc. apply lookup_insert_ne. by intros ->.
  - eapply runs_modify_full; [done|done|destruct Hroom; lia| |by eexists| |].
    + apply runs_lift. rewrite (proj2 (Z.leb_le _ _)) by (unfold BSZ; lia). mstep. cbn [assert_].
      rewrite (proj2 (Z.leb_le _ _)) by (unfold BSZ; lia). cbn [assert_].
      rewrite (lookup_total_correct _ _ _ E), Nat2Z.id. do 3 f_equal; [unfold BSZ; lia|].
      unfold src. f_equal. lia.
    + rewrite (lookup_total_correct _ _ _ E), length_splice; unfold BLOCK_SZ; lia.
    + rewrite (lookup_total_correct _ _ _ E). by apply bytes_splice.
Qed.

Lemma write_loop_run fuel (p e : nat) v :
  view_ok v → inode_wf di v → all_ids di v = ids →
  (off ≤ p ≤ e)%nat → (p < Z.to_nat (di_size di))%nat → (e ≤ Z.to_nat (di_size di))%nat →
  (e - p < fuel)%nat → (e - off ≤ length buf)%nat →
  ∃ v', written v p e v' ∧
    runs (write_loop (St:=St) fuel di (Z.of_nat p) (Z.of_nat e) (Z.of_nat (p / 512))
            (Z.of_nat (p - off)) buf) v h (Z.of_nat (e - off)) v'.
Proof.
  revert p v. induction fuel as [|fuel IH]; intros p v Hv Hwf Hids Hp Hps He Hf Hb; [lia|].
  assert (Hns := nblocks_size di v Hwf).
  cbn [write_loop]. rewrite block_end. set (q := Nat.min ((p / 512 + 1) * 512) e).
  assert (Hq : (p ≤ q ≤ e)%nat) by (unfold q; lia).
  assert (Hpn : (p / 512 < nblocks di)%nat) by lia.
  destruct (write_step v p q) as (v1 & Hw1 & Hrun); [done..|lia|done|unfold q; lia|lia|].
  assert (Hr : room (all_ids di v) h) by by rewrite Hids.
  assert (Hrest : ∃ v', written v p e v' ∧
    runs (if Z.of_nat q =? Z.of_nat e then mret (Z.of_nat (q - off))
          else write_loop (St:=St) fuel di (Z.of_nat q) (Z.of_nat e) (Z.of_nat (p / 512) + 1)
                 (Z.of_nat (q - off)) buf) v1 h (Z.of_nat (e - off)) v').
  { destruct (Z.eqb_spec (Z.of_nat q) (Z.of_nat e)) as [Eq|Ne].
    { assert (Hqe : q = e) by lia. rewrite Hqe in *. exists v1. split; [done|apply runs_ret]. }
    destruct Hw1 as (Hv1 & Hwf1 & Hi1 & Hrest1).
    destruct (IH q v1) as (v' & Hw & Hrun'); [done..|lia|lia|lia|lia|lia|].
    exists v'. split; [eapply (written_trans v p q e v1); try done; lia|].
    by replace (Z.of_nat (p / 512) + 1) with (Z.of_nat (q / 512)) by lia. }
  destruct Hrest as (v' & Hw & Hrest). exists v'. split; [done|].
  eapply runs_bind; [by apply block_id_run|]. eapply runs_bind; [exact Hrun|].
  by replace (Z.of_nat (p - off) + (Z.of_nat q - Z.of_nat p)) with (Z.of_nat (q - off)) by lia.
Qed.
End write.

Lemma take_splice {A} p src n (l : list A) :
  (p + length src ≤ n)%nat → (n ≤ length l)%nat →
  take n (splice p src l) = splice p src (take n l).
Proof.
  intros Hp Hn. apply list_eq. intros i. rewrite lookup_splice by (rewrite length_take; lia).
  rewrite !lookup_take. rewrite lookup_splice by lia.
  destruct (decide (i < n)%nat); [done|]. by rewrite decide_False by lia.
Qed.

Section whole.
Context {St : Type} `{HS : BlockStore St, HL : !BlockStoreLaws St}.
Context (di : DiskInode) (v : gmap Z (list Z)) (h : gset Z) (off : Z) (buf : list Z).
Context (Hwf : inode_wf di v) (Hroom : room (all_ids di v) h).
Context (Ho : 0 ≤ off) (Hov : off + Z.of_nat (length buf) < 2 ^ 64).

(** How much of the buffer lies inside the file. *)
Definition inside : nat := Nat.min (length buf) (Z.to_nat (di_size di) - Z.to_nat off).

Lemma inside_end :
  off ≤ di_size di →
  Z.min (off + Z.of_nat (length buf)) (di_size di) = Z.of_nat (Z.to_nat off + inside).
Proof. unfold inside. lia. Qed.

Lemma read_at_run :
  runs (read_at (St:=St) di off buf) v h
    (Z.of_nat inside, splice 0 (slice (Z.to_nat off) inside (all_bytes di v)) buf) v.
Proof.
  assert (Hs : 0 ≤ di_size di) by (destruct Hwf as ((H&_)&_); apply H).
  unfold read_at. rewrite u64_small by lia.
  destruct (Z.leb_spec (Z.min (off + Z.of_nat (length buf)) (di_size di)) off) as [Hle|Hlt].
  { assert (inside = 0%nat) as -> by (unfold inside; lia).
    unfold slice. rewrite take_0, splice_nil by lia. apply runs_ret. }
  rewrite inside_end by lia.
  pose proof (read_loop_run (St:=St) di v h buf (Z.to_nat off) Hwf Hroom (S (length buf))
    (Z.to_nat off) (Z.to_nat off + inside)) as Hr.
  rewrite Nat.sub_diag, Z2Nat.id in Hr by lia. unfold slice in Hr at 1.
  rewrite take_0, splice_nil in Hr by lia.
  replace (Z.to_nat off + inside - Z.to_nat off)%nat with inside in Hr by lia.
  replace (Z.of_nat (Z.to_nat off / 512)) with (off / BSZ) in Hr by (unfold BSZ; lia).
  apply Hr; unfold inside; lia.
Qed.

Lemma write_at_run :
  view_ok v → bytes buf → off < di_size di →
  ∃ v', runs (write_at (St:=St) di off buf) v h (Z.of_nat inside) v' ∧
    all_bytes di v' = splice (Z.to_nat off) (take inside buf) (all_bytes di v) ∧
    inode_wf di v' ∧ view_ok v' ∧ all_ids di v' = all_ids di v ∧
    ∀ b, b ∉ data_ids (nblocks di) di v → v' !! b = v !! b.
Proof.
  intros Hv Hb Hlt. assert (Hns := nblocks_size di v Hwf).
  destruct (write_loop_run (St:=St) di h buf (Z.to_nat off) _ Hroom Hb (S (length buf))
    (Z.to_nat off) (Z.to_nat off + inside) v) as (v' & (Hv' & Hwf' & Hi' & Hd' & Hc' & Hf') & Hrun);
    [done|done|done|unfold inside; lia..|].
  rewrite Nat.sub_diag in *.
  replace (Z.to_nat off + inside - Z.to_nat off)%nat with inside in * by lia.
  unfold slice in Hc'. rewrite drop_0 in Hc'.
  exists v'. split_and!; try done. unfold write_at. rewrite u64_small by lia.
  rewrite inside_end by lia.
  eapply runs_bind; [by apply runs_lift; rewrite (proj2 (Z.leb_le _ _)) by lia|].
  rewrite Z2Nat.id in Hrun by lia.
  by replace (Z.of_nat (Z.to_nat off / 512)) with (off / BSZ) in Hrun by (unfold BSZ; lia).
Qed.
End whole.

(** ** Theorems *)

(** [read_at] copies into the front of the buffer the bytes of the file from
    the offset on, as many as the file and the buffer have, returns their
    number and leaves the rest of the buffer and the disk as they were; past
    the end of the file it returns 0. *)
Theorem read_at_content {St} `{HS : BlockStore St, HL : !BlockStoreLaws St} di v h off buf :
  inode_wf di v → room (all_ids di v) h → 0 ≤ off → off + Z.of_nat (length buf) < 2 ^ 64 →
  let n := Nat.min (length buf) (Z.to_nat (di_size di) - Z.to_nat off) in
  runs (read_at (St:=St) di off buf) v h
    (Z.of_nat n, splice 0 (slice (Z.to_nat off) n (content di v)) buf) v.
Proof.
  intros Hwf Hroom Ho Hov n. assert (n = inside di off buf) as -> by done.
  destruct (decide (inside di off buf = 0%nat)) as [E|E].
  - pose proof (read_at_run (St:=St) di v h off buf Hwf Hroom Ho Hov) as Hr. rewrite E in *.
    exact Hr.
  - rewrite slice_content by (unfold inside in *; lia). by apply read_at_run.
Qed.

(** [write_at] at an offset inside the file replaces the bytes of the file
    from the offset on, up to the end of the file, and nothing else: not the
    inode's block map, no other block; it returns the number of bytes
    written.  Beyond the end of the file its assertion panics. *)
Theorem write_at_content {St} `{HS : BlockStore St, HL : !BlockStoreLaws St} di v h off buf :
  view_ok v → inode_wf di v → room (all_ids di v) h → bytes buf →
  0 ≤ off → off + Z.of_nat (length buf) < 2 ^ 64 →
  let n := Nat.min (length buf) (Z.to_nat (di_size di) - Z.to_nat off) in
  (off < di_size di →
   ∃ v', runs (write_at (St:=St) di off buf) v h (Z.of_nat n) v' ∧
     content di v' = splice (Z.to_nat off) (take n buf) (content di v) ∧
     inode_wf di v' ∧ view_ok v' ∧ all_ids di v' = all_ids di v ∧
     ∀ b, b ∉ data_ids (nblocks di) di v → v' !! b = v !! b) ∧
  (di_size di < off → faults (write_at (St:=St) di off buf) v h Panic).
Proof.
  intros Hv Hwf Hroom Hb Ho Hov n.
  assert (Hs : 0 ≤ di_size di) by (destruct Hwf as ((H&_)&_); apply H). split.
  - intros Hlt. destruct (write_at_run (St:=St) di v h off buf Hwf Hroom Ho Hov Hv Hb Hlt)
      as (v' & Hrun & Hc & Hwf' & Hrest). exists v'. split_and!; try apply Hrest; [done| |done].
    unfold content. rewrite Hc. pose proof (nblocks_size di v Hwf).
    apply take_splice; [rewrite length_take; unfold inside; lia|].
    rewrite length_all_bytes by done. lia.
  - intros Hlt. unfold write_at. rewrite u64_small by lia. apply faults_bind_l, faults_lift.
    by rewrite (proj2 (Z.leb_gt _ _)) by lia.
Qed.

(** What [write_at] wrote is what [read_at] reads back, also across block
    boundaries. *)
Theorem write_read_roundtrip {St} `{HS : BlockStore St, HL : !BlockStoreLaws St} di v h off buf buf' :
  view_ok v → inode_wf di v → room (all_ids di v) h → bytes buf → 0 ≤ off → off < di_size di →
  off + Z.of_nat (length buf) ≤ di_size di → length buf' = length buf →
  ∃ v', runs (n ← write_at (St:=St) di off buf; '(m, out) ← read_at di off buf'; mret (n, m, out))
          v h (Z.of_nat (length buf), Z.of_nat (length buf), buf) v'.
Proof.
  intros Hv Hwf Hroom Hb Ho Hlt Hfit Hl. pose proof (nblocks_size di v Hwf).
  assert (Hov : off + Z.of_nat (length buf) < 2 ^ 64)
    by (destruct Hwf as (_&Hm&_); unfold INDIRECT2_BOUND, BSZ in Hm; lia).
  destruct (write_at_run (St:=St) di v h off buf Hwf Hroom Ho Hov Hv Hb Hlt)
    as (v' & Hw & Hc & Hwf' & Hv' & Ei & _).
  assert (Hr := read_at_run (St:=St) di v' h off buf' Hwf' ltac:(by rewrite Ei) Ho ltac:(by rewrite Hl)).
  assert (E1 : inside di off buf = length buf) by (unfold inside; lia).
  assert (E2 : inside di off buf' = length buf) by (unfold inside; lia).
  rewrite E1 in *. rewrite E2, Hc, take_ge, slice_splice_eq, splice_all in Hr
    by (rewrite ?length_all_bytes; done || lia).
  exists v'. eapply runs_bind; [exact Hw|]. eapply runs_bind; [exact Hr|apply runs_ret].
Qed.

(** ** Concrete runs *)

Lemma read_at_content_witness :
  ∃ s', read_at demo_inode 14334 [1; 1; 1; 1] (boot inode_image) = Ok (4, [7; 7; 0; 0], s') ∧
        cache_view s' = inode_view.
Proof.
  apply boot_runs; [apply inode_image_ok..|].
  apply (read_at_content demo_inode inode_view ∅ 14334 [1; 1; 1; 1] demo_inode_wf (room_empty _)).
  - vm_compute. discriminate.
  - vm_compute. reflexivity.
Defined.

Lemma write_at_content_witness :
  ∃ s', write_at demo_inode 14334 [1; 2; 3; 4] (boot inode_image) = Ok (4, s') ∧
        content demo_inode (cache_view s') =
          splice (Z.to_nat 14334) [1; 2; 3; 4] (content demo_inode inode_view).
Proof.
  destruct (write_at_content (St:=CacheState BlockFile) demo_inode inode_view ∅ 14334 [1; 2; 3; 4]
    inode_view_ok demo_inode_wf (room_empty _)) as [(v' & Hrun & Hc & _) _].
  - by repeat constructor.
  - vm_compute. discriminate.
  - vm_compute. reflexivity.
  - vm_compute. reflexivity.
  - destruct (boot_runs _ inode_image _ v' (proj1 inode_image_ok) (proj2 inode_image_ok) Hrun)
      as (s' & E & <-).
    exists s'. split; [exact E|exact Hc].
Defined.

Lemma write_read_roundtrip_witness :
  ∃ s', (n ← write_at demo_inode 14334 [1; 2; 3; 4];
         '(m, out) ← read_at demo_inode 14334 [0; 0; 0; 0]; mret (n, m, out)) (boot inode_image)
        = Ok (4, 4, [1; 2; 3; 4], s').
Proof.
  destruct (write_read_roundtrip (St:=CacheState BlockFile) demo_inode inode_view ∅ 14334
    [1; 2; 3; 4] [0; 0; 0; 0] inode_view_ok demo_inode_wf (room_empty _)) as (v' & Hrun).
  - by repeat constructor.
  - vm_compute. discriminate.
  - vm_compute. reflexivity.
  - vm_compute. discriminate.
  - reflexivity.
  - destruct (boot_runs _ inode_image _ v' (proj1 inode_image_ok) (proj2 inode_image_ok) Hrun)
      as (s' & E & _).
    exists s'. exact E.
Defined.
