(* ===== verification/Efs.v ===== *)
(** * The disk block manager (easy-fs/src/efs.rs)

    [EasyFileSystem] knows where the areas of the disk are: the super block,
    the inode bitmap, the inode area, the data bitmap and the data area.  Its
    fields never change after [create] or [open]; everything that does is on
    the disk.  The block device is the [BlockStore] the code runs on. *)

From S2P Require Import Prelude Bytes BlockStore BlockCache BlockFile Bitmap Layout.
From Stdlib Require Import ZifyNat.

Record EasyFileSystem := mkEfs {
  inode_bitmap : Bitmap;
  data_bitmap : Bitmap;
  inode_area_start_block : Z;
  data_area_start_block : Z;
}.

(** The numbers [create] computes from its arguments, in [u32]/[usize] arithmetic. *)
Record geometry := mkGeometry {
  g_inode_area_blocks : Z;
  g_data_bitmap_blocks : Z;
  g_data_area_blocks : Z;
  g_efs : EasyFileSystem;
}.

Definition compute_geometry (total_blocks inode_bitmap_blocks : Z) : geometry :=
  let inode_bitmap := mkBitmap 1 inode_bitmap_blocks in
  let inode_num := maximum inode_bitmap in
  let inode_area_blocks := u32 ((inode_num *ᵤ 128 +ᵤ 512 -ᵤ 1) / 512) in
  let inode_total_blocks := u32 (inode_bitmap_blocks + inode_area_blocks) in
  let data_total_blocks := u32 (u32 (total_blocks - 1) - inode_total_blocks) in
  let data_bitmap_blocks := u32 (data_total_blocks + 4096) / 4097 in
  let data_area_blocks := u32 (data_total_blocks - data_bitmap_blocks) in
  let data_bitmap := mkBitmap (u32 (u32 (1 + inode_bitmap_blocks) + inode_area_blocks))
                              data_bitmap_blocks in
  mkGeometry inode_area_blocks data_bitmap_blocks data_area_blocks
    (mkEfs inode_bitmap data_bitmap (u32 (1 + inode_bitmap_blocks))
       (u32 (u32 (1 + inode_total_blocks) + data_bitmap_blocks))).

Definition get_disk_inode_pos (efs : EasyFileSystem) (inode_id : Z) : Z * Z :=
  let inode_size := 128 in
  let inodes_per_block := 512 / inode_size in
  let block_id := u32 (inode_area_start_block efs + inode_id / inodes_per_block) in
  (block_id, inode_id mod inodes_per_block *ᵤ inode_size).

Definition get_data_block_id (efs : EasyFileSystem) (data_block_id : Z) : Z :=
  u32 (data_area_start_block efs + data_block_id).

Section efs.
Context {St : Type} `{BlockStore St}.

Definition alloc_inode (efs : EasyFileSystem) : M St Z :=
  o ← alloc (inode_bitmap efs);
  k ← lift (unwrap o);
  mret (u32 k).

Definition alloc_data (efs : EasyFileSystem) : M St Z :=
  o ← alloc (data_bitmap efs);
  k ← lift (unwrap o);
  mret (u32 (u32 k + data_area_start_block efs)).

(** Zeroes a block: the closure of [create] and of [dealloc_data]. *)
Definition zero_block (block_id : Z) : M St unit :=
  bc_modify block_id 0 BLOCK_SZ (λ _, mret (tt, replicate BLOCK_SZ 0)).

Definition dealloc_data (efs : EasyFileSystem) (block_id : Z) : M St unit :=
  zero_block block_id;;
  dealloc (data_bitmap efs) (u32 (block_id - data_area_start_block efs)).

(** [for i in 0..total_blocks], [n] iterations left *)
Fixpoint clear_blocks (n : nat) (i : Z) : M St unit :=
  match n with
  | O => mret tt
  | S n => zero_block i;; clear_blocks n (i + 1)
  end.

Definition init_inode (block_id offset : Z) (ty : DiskInodeType) : M St unit :=
  bc_modify block_id (Z.to_nat offset) DiskInode_SZ
    (λ bs, mret (tt, DiskInode_encode (DiskInode_initialize ty) bs)).

Definition create (total_blocks inode_bitmap_blocks : Z) : M St EasyFileSystem :=
  let g := compute_geometry total_blocks inode_bitmap_blocks in
  let efs := g_efs g in
  (* clear all blocks *)
  clear_blocks (Z.to_nat total_blocks) 0;;
  (* initialize SuperBlock *)
  bc_modify 0 0 SuperBlock_SZ
    (λ _, mret (tt, SuperBlock_encode (SuperBlock_initialize total_blocks inode_bitmap_blocks
                     (g_inode_area_blocks g) (g_data_bitmap_blocks g) (g_data_area_blocks g))));;
  (* create a inode for root node "/" *)
  root ← alloc_inode efs;
  lift (assert_ (root =? 0));;
  let '(root_inode_block_id, root_inode_offset) := get_disk_inode_pos efs 0 in
  init_inode root_inode_block_id root_inode_offset Directory;;
  sync_all;;
  mret efs.

(** The closure of [open] on the super block. *)
Definition efs_of_super (sb : SuperBlock) : EasyFileSystem :=
  let inode_total_blocks := u32 (inode_bitmap_blocks sb + inode_area_blocks sb) in
  mkEfs (mkBitmap 1 (inode_bitmap_blocks sb))
        (mkBitmap (u32 (1 + inode_total_blocks)) (data_bitmap_blocks sb))
        (u32 (1 + inode_bitmap_blocks sb))
        (u32 (u32 (1 + inode_total_blocks) + data_bitmap_blocks sb)).

Definition open : M St EasyFileSystem :=
  bc_read 0 0 SuperBlock_SZ (λ bs, lift (
    let sb := SuperBlock_decode bs in
    assert_ (is_valid sb);;
    mret (efs_of_super sb))).

(** [root_inode]: the position of inode 0. *)
Definition root_inode (efs : EasyFileSystem) : Z * Z := get_disk_inode_pos efs 0.
End efs.

(** ** The layout *)

(** A disk large enough for the areas [create] lays out. *)
Definition fits (total ib : Z) : Prop := 0 < ib ∧ 1 + 1025 * ib ≤ total < 2 ^ 32 - 4096.

Definition data_total (total ib : Z) : Z := total - 1 - 1025 * ib.
Definition data_bits (total ib : Z) : Z := (data_total total ib + 4096) / 4097.

Lemma geometry_eq total ib :
  fits total ib →
  let db := data_bits total ib in
  compute_geometry total ib =
    mkGeometry (1024 * ib) db (data_total total ib - db)
      (mkEfs (mkBitmap 1 ib) (mkBitmap (1 + 1025 * ib) db) (1 + ib) (1 + 1025 * ib + db)) ∧
  0 ≤ db ≤ data_total total ib.
Proof.
  intros [Hib Ht] db. unfold data_total in *.
  assert (Hdb : 0 ≤ db ≤ total - 1 - 1025 * ib)
    by (unfold db, data_bits, data_total; Z.to_euclidean_division_equations; lia).
  split; [|done]. unfold compute_geometry, maximum. cbn [blocks].
  unfold BLOCK_BITS. rewrite (u64_small (ib * 4096)) by lia.
  rewrite (u64_small (ib * 4096 * 128)), (u64_small (_ + 512)), (u64_small (_ - 1)) by lia.
  replace ((ib * 4096 * 128 + 512 - 1) / 512) with (1024 * ib) by (Z.to_euclidean_division_equations; lia).
  rewrite (u32_small (1024 * ib)) by lia. rewrite (u32_small (ib + 1024 * ib)) by lia.
  rewrite (u32_small (total - 1)) by lia.
  replace (total - 1 - (ib + 1024 * ib)) with (data_total total ib) by (unfold data_total; lia).
  rewrite (u32_small (data_total total ib)) by (unfold data_total; lia).
  rewrite (u32_small (data_total total ib + 4096)) by (unfold data_total; lia).
  fold (data_bits total ib). fold db.
  rewrite (u32_small (data_total total ib - db)) by (unfold data_total; lia).
  rewrite (u32_small (1 + ib)) by lia. rewrite (u32_small (1 + ib + 1024 * ib)) by lia.
  rewrite (u32_small (1 + (ib + 1024 * ib))) by lia.
  rewrite (u32_small (_ + db)) by lia.
  unfold data_total. do 2 f_equal; [f_equal; lia|lia].
Qed.

(** ** Formatting a disk *)

Definition zeros : list Z := replicate BLOCK_SZ 0.

Lemma zeros_ok : length zeros = BLOCK_SZ ∧ bytes zeros.
Proof. split; [apply length_replicate|apply bytes_replicate]. Qed.

Lemma word_zeros i : (i < 64)%nat → word i zeros = 0.
Proof. intros. apply rd_replicate. unfold BLOCK_SZ. lia. Qed.

Lemma bit_zeros bm v k :
  v !! block_of bm k = Some zeros → bit bm v k = false.
Proof.
  intros E. unfold bit. rewrite (lookup_total_correct _ _ _ E), word_zeros.
  - apply Z.bits_0.
  - unfold BLOCK_BITS. Z.to_euclidean_division_equations; lia.
Qed.

Section format.
Context {St : Type} `{HS : BlockStore St, HL : !BlockStoreLaws St}.

Lemma zero_block_run b v h :
  is_Some (v !! b) → b ∉ h → (size h < BLOCK_CACHE_SIZE)%nat →
  runs (zero_block (St:=St) b) v h tt (<[b := zeros]> v).
Proof.
  intros [blk E] Hh Hc. unfold zero_block.
  eapply runs_modify_full; [done|done|done|apply runs_ret|by eexists|apply zeros_ok|apply zeros_ok].
Qed.

Lemma clear_blocks_run n i v h :
  (∀ b, i ≤ b < i + Z.of_nat n → is_Some (v !! b) ∧ b ∉ h) → (size h < BLOCK_CACHE_SIZE)%nat →
  ∃ v', runs (clear_blocks (St:=St) n i) v h tt v' ∧
    ∀ b, v' !! b = if decide (i ≤ b < i + Z.of_nat n) then Some zeros else v !! b.
Proof.
  revert i v. induction n as [|n IH]; intros i v Hb Hc; cbn [clear_blocks].
  { exists v. split; [apply runs_ret|]. intros b. by rewrite decide_False by lia. }
  destruct (Hb i) as [Hi Hih]; [lia|].
  destruct (IH (i + 1) (<[i := zeros]> v)) as (v' & Hrun & Hv'); [|done|].
  { intros b Hbr. destruct (Hb b) as [Hs ?]; [lia|]. split; [|done].
    by rewrite lookup_insert_ne by lia. }
  exists v'. split; [eapply runs_bind; [by apply zero_block_run|done]|].
  intros b. rewrite Hv'. destruct (decide (i + 1 ≤ b < i + 1 + Z.of_nat n)).
  - by rewrite decide_True by lia.
  - destruct (decide (b = i)) as [->|Hne].
    + rewrite decide_True by lia. by rewrite lookup_insert_eq.
    + rewrite decide_False by lia. by rewrite lookup_insert_ne.
Qed.

Lemma init_inode_run b off ty v h blk :
  view_ok v → v !! b = Some blk → b ∉ h → (size h < BLOCK_CACHE_SIZE)%nat → 0 ≤ off ≤ 384 →
  let o := Z.to_nat off in
  ∃ new, runs (init_inode (St:=St) b off ty) v h tt (<[b := splice o new blk]> v) ∧
    length new = 128%nat ∧ bytes new ∧ DiskInode_decode new = DiskInode_initialize ty.
Proof.
  intros Hv E Hh Hc Ho o. unfold init_inode. destruct (Hv _ _ E) as [Hl Hb].
  assert (Hok : di_ok (DiskInode_initialize ty)).
  { split; [done|]. split; [apply length_replicate|]. split; [by apply Forall_replicate|done]. }
  assert (Ho' : (o + DiskInode_SZ ≤ BLOCK_SZ)%nat) by (unfold o, DiskInode_SZ, BLOCK_SZ; lia).
  assert (Hlen : length (DiskInode_encode (DiskInode_initialize ty) (slice o DiskInode_SZ blk))
                 = DiskInode_SZ).
  { apply DiskInode_encode_length; [done|]. apply length_slice. by rewrite Hl. }
  exists (DiskInode_encode (DiskInode_initialize ty) (slice o DiskInode_SZ blk)).
  assert (Hbn : bytes (DiskInode_encode (DiskInode_initialize ty) (slice o DiskInode_SZ blk)))
    by (apply DiskInode_encode_bytes; by apply bytes_slice).
  split_and!; [|done|done|by apply DiskInode_decode_encode].
  eapply runs_modify; [done|done|done|done|apply runs_ret|done|done|done].
Qed.
End format.

(** What a freshly formatted disk holds. *)
Record formatted (total ib : Z) (efs : EasyFileSystem) (v : gmap Z (list Z)) : Prop := {
  fmt_root_bit : bit (inode_bitmap efs) v 0 = true;
  fmt_inode_bits k : 0 < k < maximum (inode_bitmap efs) → bit (inode_bitmap efs) v k = false;
  fmt_data_bits k : 0 ≤ k < maximum (data_bitmap efs) → bit (data_bitmap efs) v k = false;
  fmt_root : DiskInode_decode (slice (Z.to_nat (snd (root_inode efs))) DiskInode_SZ
                                 (v !!! fst (root_inode efs))) = DiskInode_initialize Directory;
  fmt_super : ∃ blk, v !! 0 = Some blk ∧
    SuperBlock_decode (slice 0 SuperBlock_SZ blk) =
      SuperBlock_initialize total ib (1024 * ib) (data_bits total ib)
        (data_total total ib - data_bits total ib);
  fmt_data b : data_area_start_block efs ≤ b < total → v !! b = Some zeros;
  fmt_present b : 0 ≤ b < total → is_Some (v !! b);
}.

Lemma bit_ext bm v v' k : v' !! block_of bm k = v !! block_of bm k → bit bm v' k = bit bm v k.
Proof. intros E. unfold bit. by rewrite !lookup_total_alt, E. Qed.

Lemma set_bit_lookup_ne bm k b v c : c ≠ block_of bm k → set_bit bm k b v !! c = v !! c.
Proof. intros Hc. unfold set_bit. by rewrite lookup_insert_ne. Qed.

Lemma view_ok_zeros v v' (P : Z → Prop) `{∀ b, Decision (P b)} :
  view_ok v → (∀ b, v' !! b = if decide (P b) then Some zeros else v !! b) → view_ok v'.
Proof.
  intros Hv Hv' b blk. rewrite Hv'. case_decide; [|apply Hv].
  intros [= <-]. apply zeros_ok.
Qed.

Lemma view_ok_splice v b off new blk :
  view_ok v → v !! b = Some blk → (off + length new ≤ BLOCK_SZ)%nat → bytes new →
  view_ok (<[b := splice off new blk]> v).
Proof.
  intros Hv E Hl Hb c blk'. destruct (Hv _ _ E) as [Hbl Hbb].
  rewrite lookup_insert_Some. intros [[<- <-]|[_ ?]]; [|by apply (Hv c)].
  split; [rewrite length_splice; lia|by apply bytes_splice].
Qed.

Section create.
Context {St : Type} `{HS : BlockStore St, HL : !BlockStoreLaws St}.
Context (total ib : Z) (v : gmap Z (list Z)).
Context (Hfits : fits total ib) (Hv : view_ok v) (Hdisk : ∀ b, 0 ≤ b < total → is_Some (v !! b)).

Let efs := g_efs (compute_geometry total ib).
Let db := data_bits total ib.
Let sbytes := SuperBlock_encode (SuperBlock_initialize total ib (1024 * ib) db
                                   (data_total total ib - db)).

Lemma sbytes_ok : bytes sbytes ∧ length sbytes = SuperBlock_SZ.
Proof.
  split; [|done]. unfold sbytes, SuperBlock_encode. repeat apply Forall_app_2; apply le_put_bytes.
Qed.

(** The disk after the blocks are cleared and the super block written. *)
Lemma create_blank :
  ∃ v1 v2, runs (clear_blocks (St:=St) (Z.to_nat total) 0) v ∅ tt v1 ∧
    runs (S:=St) (bc_modify 0 0 SuperBlock_SZ (λ _, mret (tt, sbytes))) v1 ∅ tt v2 ∧
    view_ok v2 ∧ v2 !! 0 = Some (splice 0 sbytes zeros) ∧
    (∀ b, 0 < b < total → v2 !! b = Some zeros).
Proof.
  destruct Hfits as [Hib Ht].
  destruct (clear_blocks_run (St:=St) (Z.to_nat total) 0 v ∅) as (v1 & Hrun & Hv1).
  { intros b Hb. split; [apply Hdisk; lia|apply not_elem_of_empty]. }
  { vm_compute. lia. }
  assert (Hok1 : view_ok v1) 
    by exact (view_ok_zeros v v1 (λ b, 0 ≤ b < 0 + Z.of_nat (Z.to_nat total)) Hv Hv1).
  assert (H0 : v1 !! 0 = Some zeros) by (by rewrite Hv1, decide_True by lia).
  exists v1, (<[0 := splice 0 sbytes zeros]> v1). split_and!.
  - exact Hrun.
  - eapply runs_modify; [exact H0|apply not_elem_of_empty|vm_compute; lia|vm_compute; lia
      |apply runs_ret|done|apply sbytes_ok..].
  - apply view_ok_splice; [done..|vm_compute; lia|apply sbytes_ok].
  - apply lookup_insert_eq.
  - intros b Hb. rewrite lookup_insert_ne by lia. by rewrite Hv1, decide_True by lia.
Qed.

Let ibm := mkBitmap 1 ib.

Lemma efs_eq :
  efs = mkEfs ibm (mkBitmap (1 + 1025 * ib) db) (1 + ib) (1 + 1025 * ib + db) ∧
  0 ≤ db ≤ total - 1 - 1025 * ib ∧ 0 < ib ∧ total < 2 ^ 32 - 4096.
Proof.
  destruct (geometry_eq total ib Hfits) as [Hg Hdb]. unfold efs. rewrite Hg.
  destruct Hfits. unfold data_total in Hdb. split; [done|]. fold db in Hdb. lia.
Qed.

Lemma ibm_block k : 0 ≤ k < ib * 4096 → 1 ≤ block_of ibm k < 1 + ib.
Proof.
  intros Hk. unfold block_of, BLOCK_BITS, ibm. cbn [start_block_id].
  Z.to_euclidean_division_equations; lia.
Qed.

(** The first inode allocated is inode 0. *)
Lemma create_root_bit v2 :
  view_ok v2 → (∀ b, 0 < b < total → v2 !! b = Some zeros) →
  let v3 := set_bit ibm 0 true v2 in
  runs (alloc_inode (St:=St) efs) v2 ∅ 0 v3 ∧ view_ok v3 ∧ maximum ibm = ib * 4096 ∧
  (∀ b, 1 < b < total → v3 !! b = Some zeros) ∧ v3 !! 0 = v2 !! 0 ∧
  (∀ k, 0 ≤ k < ib * 4096 → bit ibm v3 k = bool_decide (k = 0)).
Proof.
  intros Hv2 Hz v3. destruct efs_eq as (Eefs & Hdb & Hib & Ht).
  assert (Hbm : bm_ok ibm v2).
  { split_and!; cbn [start_block_id blocks ibm]; [lia..|]. intros b Hb. unfold bm_block in Hb.
    cbn [start_block_id blocks ibm] in Hb. rewrite Hz by lia. by eexists. }
  assert (Hmax : maximum ibm = ib * 4096) by by erewrite bm_ok_maximum.
  assert (Hbit2 : ∀ k, 0 ≤ k < ib * 4096 → bit ibm v2 k = false).
  { intros k Hk. assert (Hb := ibm_block k Hk). apply bit_zeros, Hz. lia. }
  split_and!; [|by apply set_bit_view_ok; [..|lia]|done| | |].
  - unfold alloc_inode. rewrite Eefs. cbn [inode_bitmap]. eapply runs_bind.
    { apply (alloc_from_some ibm v2 ∅) with (k := 0); [done|intros; apply not_elem_of_empty|vm_compute; lia|lia| | |].
      - cbn [blocks ibm]. lia.
      - unfold BLOCK_BITS. lia.
      - split_and!; [lia|lia|apply Hbit2; lia|lia]. }
    eapply runs_bind; [by apply runs_lift|]. apply runs_ret.
  - intros b Hb. unfold v3. rewrite set_bit_lookup_ne; [apply Hz; lia|].
    change (block_of ibm 0) with 1. lia.
  - unfold v3. apply set_bit_lookup_ne. done.
  - intros k Hk. unfold v3. rewrite bit_set_bit by (done || lia). case_decide; [by rewrite bool_decide_true|].
    rewrite bool_decide_false by done. by apply Hbit2.
Qed.

Lemma create_run :
  ∃ v', settles (create (St:=St) total ib) v ∅ efs v' ∧ view_ok v' ∧ formatted total ib efs v'.
Proof.
  destruct create_blank as (v1 & v2 & Hrun1 & Hrun2 & Hv2 & H0 & Hz).
  destruct (create_root_bit v2 Hv2 Hz) as (Hrun3 & Hv3 & Hmax & Hz3 & H03 & Hbit3).
  destruct efs_eq as (Eefs & Hdb & Hib & Ht). set (v3 := set_bit ibm 0 true v2) in *.
  destruct (init_inode_run (St:=St) (1 + ib) 0 Directory v3 ∅ zeros) as (new & Hrun4 & Hnl & Hnb & Hnd);
    [done|apply Hz3; lia|apply not_elem_of_empty|vm_compute; lia|lia|]. cbn zeta in *.
  assert (Hpos : get_disk_inode_pos efs 0 = (1 + ib, 0)).
  { rewrite Eefs. unfold get_disk_inode_pos. cbn [inode_area_start_block].
    change (0 / (512 / 128)) with 0. change (0 mod (512 / 128) *ᵤ 128) with 0.
    rewrite u32_small by lia. f_equal. lia. }
  exists (<[1 + ib := splice 0 new zeros]> v3). split_and!.
  - unfold create. rewrite (proj1 (geometry_eq total ib Hfits)). cbn zeta.
    cbn [g_efs g_inode_area_blocks g_data_bitmap_blocks g_data_area_blocks].
    fold db. fold sbytes. change (mkBitmap 1 ib) with ibm. rewrite <- Eefs.
    eapply settles_after; [exact Hrun1|]. eapply settles_after; [exact Hrun2|].
    eapply settles_after; [exact Hrun3|]. eapply settles_after; [by apply runs_lift|]. rewrite Hpos.
    eapply (settles_synced _ (λ _, efs)). exact Hrun4.
  - apply view_ok_splice; [done|apply Hz3; lia|rewrite Hnl; vm_compute; lia|done].
  - rewrite Eefs. split; cbn [inode_bitmap data_bitmap data_area_start_block].
    + rewrite (bit_ext _ v3); [by rewrite Hbit3 by lia|].
      rewrite lookup_insert_ne; [done|]. change (block_of ibm 0) with 1. lia.
    + rewrite Hmax. intros k Hk. rewrite (bit_ext _ v3).
      * rewrite Hbit3 by lia. by rewrite bool_decide_false by lia.
      * rewrite lookup_insert_ne; [done|]. pose proof (ibm_block k). lia.
    + unfold maximum. cbn [blocks]. unfold BLOCK_BITS. rewrite u64_small by lia.
      intros k Hk. apply bit_zeros. unfold block_of, BLOCK_BITS. cbn [start_block_id].
      assert (0 ≤ k / 4096 < db) by (Z.to_euclidean_division_equations; lia).
      rewrite lookup_insert_ne by lia. apply Hz3. lia.
    + unfold root_inode. rewrite <- Eefs, Hpos. cbn [fst snd].
      rewrite lookup_total_insert_eq. change (Z.to_nat 0) with 0%nat. unfold DiskInode_SZ.
      rewrite <- Hnl at 1. rewrite slice_splice_eq; [done|]. rewrite Hnl. vm_compute. lia.
    + exists (splice 0 sbytes zeros). rewrite lookup_insert_ne, H03 by lia. split; [done|].
      rewrite <- (proj2 sbytes_ok), slice_splice_eq by (vm_compute; lia).
      apply SuperBlock_decode_encode. unfold sb_ok, SuperBlock_initialize, is_u32, data_total.
      cbn [magic sb_total_blocks inode_bitmap_blocks inode_area_blocks data_bitmap_blocks
           data_area_blocks]. unfold EFS_MAGIC. lia.
    + intros b Hb. rewrite lookup_insert_ne by lia. apply Hz3. lia.
    + intros b Hb. rewrite lookup_insert_is_Some'. right. unfold v3, set_bit. rewrite lookup_insert_is_Some'. right.
      destruct (decide (b = 0)) as [->|]; [by rewrite H0; eexists|]. rewrite Hz by lia. by eexists.
Qed.
End create.

(** The super block of a formatted disk is enough to open it. *)
Lemma open_run {St} `{HS : BlockStore St, HL : !BlockStoreLaws St} total ib v blk :
  fits total ib → v !! 0 = Some blk →
  SuperBlock_decode (slice 0 SuperBlock_SZ blk) =
    SuperBlock_initialize total ib (1024 * ib) (data_bits total ib) (data_total total ib - data_bits total ib) →
  runs (open (St:=St)) v ∅ (g_efs (compute_geometry total ib)) v.
Proof.
  intros Hf E Hsb. unfold open. eapply runs_read; [exact E|apply not_elem_of_empty|vm_compute; lia|vm_compute; lia|].
  apply runs_lift. rewrite Hsb. mstep. unfold is_valid, SuperBlock_initialize.
  cbn [magic]. rewrite Z.eqb_refl. cbn [assert_]. f_equal.
  destruct (geometry_eq total ib Hf) as [-> Hdb]. destruct Hf as [Hib Ht]. unfold data_total in Hdb.
  unfold efs_of_super.
  cbn [inode_bitmap_blocks inode_area_blocks data_bitmap_blocks g_efs].
  rewrite (u32_small (ib + 1024 * ib)), (u32_small (1 + ib)) by lia.
  rewrite (u32_small (1 + (ib + 1024 * ib))) by lia. rewrite (u32_small (_ + data_bits total ib)) by lia.
  f_equal; [f_equal; lia|lia].
Qed.

(** ** Theorems *)

(** C18: [create] formats a disk: on a device with [total] blocks, of which the
    areas take [1 + 1025 * ib] at least, it returns without a panic; the super
    block describes the areas, inode 0 is an empty directory and the only inode
    allocated, no data block is allocated and the data area is zero; and
    [open] on the result returns the same file system, reading only. *)
Theorem create_then_open {St} `{HS : BlockStore St, HL : !BlockStoreLaws St} total ib v :
  fits total ib → view_ok v → (∀ b, 0 ≤ b < total → is_Some (v !! b)) →
  ∃ efs v', runs (create (St:=St) total ib) v ∅ efs v' ∧ formatted total ib efs v' ∧
            runs (open (St:=St)) v' ∅ efs v'.
Proof.
  intros Hf Hv Hd. destruct (create_run (St:=St) total ib v Hf Hv Hd) as (v' & Hrun%settles_runs & Hv' & Hfmt).
  eexists _, v'. split_and!; [exact Hrun|done|].
  destruct (fmt_super _ _ _ _ Hfmt) as (blk & E & Hsb). by eapply open_run.
Qed.

(** The smallest geometry with a data area: one inode bitmap block, 1027 blocks. *)
Definition efs_image : list Z := replicate (Z.to_nat (1028 * 512)) 5.

Lemma efs_image_ok : bytes efs_image ∧ Z.of_nat (length efs_image) < 2 ^ 40.
Proof.
  split; [by apply Forall_replicate|]. unfold efs_image. rewrite length_replicate. lia.
Qed.

Lemma efs_image_blocks b : 0 ≤ b < 1028 → is_Some (cache_view (boot efs_image) !! b).
Proof.
  intros Hb. unfold cache_view. cbn [boot device queue]. cbn [overlay].
  change (is_Some (file_view {| file := efs_image |} !! b)).
  rewrite file_view_lookup. unfold file_blocks. cbn [file]. unfold efs_image.
  rewrite length_replicate. rewrite decide_True; [by eexists|]. unfold BLOCK_SZ. lia.
Qed.

Lemma create_then_open_witness :
  ∃ efs s', create 1028 1 (boot efs_image) = Ok (efs, s') ∧
            formatted 1028 1 efs (cache_view s').
Proof.
  destruct (create_then_open (St:=CacheState BlockFile) 1028 1 (cache_view (boot efs_image)))
    as (efs & v' & Hrun & Hf & _).
  - split; lia.
  - apply boot_view_ok; apply efs_image_ok.
  - apply efs_image_blocks.
  - destruct (boot_runs _ efs_image efs v' (proj1 efs_image_ok) (proj2 efs_image_ok) Hrun)
      as (s' & E & <-).
    exists efs, s'. split; [exact E|exact Hf].
Defined.

(** The areas [create] lays out follow one another from block 1 to the end
    of the disk without a gap or an overlap; the inode area has room for every
    inode of its bitmap, the data bitmap has a bit for every data block, and
    distinct inode numbers have disjoint 128-byte slots inside the inode area. *)
Theorem efs_layout total ib :
  fits total ib →
  let g := compute_geometry total ib in
  let efs := g_efs g in
  start_block_id (inode_bitmap efs) = 1 ∧
  inode_area_start_block efs = 1 + blocks (inode_bitmap efs) ∧
  start_block_id (data_bitmap efs) = inode_area_start_block efs + g_inode_area_blocks g ∧
  data_area_start_block efs = start_block_id (data_bitmap efs) + blocks (data_bitmap efs) ∧
  data_area_start_block efs + g_data_area_blocks g = total ∧
  maximum (inode_bitmap efs) * 128 = g_inode_area_blocks g * 512 ∧
  g_data_area_blocks g ≤ maximum (data_bitmap efs) ∧
  (∀ i, 0 ≤ i < maximum (inode_bitmap efs) →
     let '(b, off) := get_disk_inode_pos efs i in
     inode_area_start_block efs ≤ b < start_block_id (data_bitmap efs) ∧
     0 ≤ off ≤ 384 ∧ b * 512 + off = inode_area_start_block efs * 512 + 128 * i).
Proof.
  intros Hf g efs. destruct (geometry_eq total ib Hf) as [Hg Hdb].
  unfold efs, g. rewrite Hg. destruct Hf as [Hib Ht]. unfold data_total in *.
  cbn [g_efs g_inode_area_blocks g_data_area_blocks inode_bitmap data_bitmap
       inode_area_start_block data_area_start_block start_block_id blocks].
  unfold maximum, BLOCK_BITS. cbn [blocks]. rewrite !u64_small by lia.
  assert (Hcap : total - 1 - 1025 * ib - data_bits total ib ≤ data_bits total ib * 4096)
    by (unfold data_bits, data_total in *; Z.to_euclidean_division_equations; lia).
  split_and!; try lia.
  intros i Hi. unfold get_disk_inode_pos. cbn [inode_area_start_block].
  change (512 / 128) with 4.
  rewrite (u32_small (1 + ib + i / 4)) by (Z.to_euclidean_division_equations; lia).
  rewrite u64_small by (Z.to_euclidean_division_equations; lia).
  Z.to_euclidean_division_equations; lia.
Qed.

Lemma efs_layout_witness :
  data_area_start_block (g_efs (compute_geometry 32768 1)) = 1034 ∧
  data_area_start_block (g_efs (compute_geometry 32768 1)) +
    g_data_area_blocks (compute_geometry 32768 1) = 32768.
Proof.
  split; [vm_compute; reflexivity|]. apply (efs_layout 32768 1). split; lia.
Defined.

Section data.
Context {St : Type} `{HS : BlockStore St, HL : !BlockStoreLaws St}.
Context (efs : EasyFileSystem) (v : gmap Z (list Z)) (h : gset Z).
Context (Hok : bm_ok (data_bitmap efs) v) (Hh : ∀ b, bm_block (data_bitmap efs) b → b ∉ h)
        (Hcap : (size h < BLOCK_CACHE_SIZE)%nat).

Lemma alloc_data_run k :
  first_free (data_bitmap efs) v k → 0 ≤ data_area_start_block efs →
  data_area_start_block efs + k < 2 ^ 32 →
  runs (alloc_data (St:=St) efs) v h (data_area_start_block efs + k)
    (set_bit (data_bitmap efs) k true v).
Proof.
  intros Hk Hs Hr. assert (0 ≤ k) by (destruct Hk; lia). unfold alloc_data. eapply runs_bind.
  { apply alloc_from_some; [done|done|done|lia|destruct Hok; lia| |exact Hk].
    unfold BLOCK_BITS. lia. }
  eapply runs_bind; [by apply runs_lift|]. rewrite (u32_small k) by lia.
  rewrite u32_small by lia. rewrite Z.add_comm. apply runs_ret.
Qed.

Lemma dealloc_data_run k :
  let b := data_area_start_block efs + k in
  0 ≤ k < maximum (data_bitmap efs) → bit (data_bitmap efs) v k = true →
  0 ≤ data_area_start_block efs → b < 2 ^ 32 → ¬ bm_block (data_bitmap efs) b →
  is_Some (v !! b) → b ∉ h →
  runs (dealloc_data (St:=St) efs b) v h tt
    (set_bit (data_bitmap efs) k false (<[b := zeros]> v)).
Proof.
  intros b Hk Hb Hs Hr Hnb Hsome Hbh. unfold dealloc_data.
  eapply runs_bind; [by apply zero_block_run|].
  replace (b - data_area_start_block efs) with k by (unfold b; lia). rewrite u32_small by lia.
  assert (Hblk : bm_block (data_bitmap efs) (block_of (data_bitmap efs) k)).
  { apply block_of_range. by rewrite <- (bm_ok_maximum _ _ Hok). }
  apply dealloc_set; [|done..|].
  - destruct Hok as (?&?&?&Hp). split_and!; try done. intros c Hc. rewrite lookup_insert_ne; [by apply Hp|].
    by intros ->.
  - rewrite <- Hb. apply bit_ext. rewrite lookup_insert_ne; [done|]. by intros ->.
Qed.
End data.

Lemma set_bit_insert bm k x v b blk :
  b ≠ block_of bm k → set_bit bm k x (<[b := blk]> v) = <[b := blk]> (set_bit bm k x v).
Proof.
  intros Hb. unfold set_bit. rewrite lookup_total_insert_ne by done. by apply insert_insert_ne.
Qed.

Lemma space_geometry total ib v :
  fits total ib → (∀ b, 0 ≤ b < total → is_Some (v !! b)) →
  let g := compute_geometry total ib in
  let efs := g_efs g in
  bm_ok (data_bitmap efs) v ∧ 0 ≤ data_area_start_block efs ∧
  data_area_start_block efs + g_data_area_blocks g = total ∧ total < 2 ^ 32 ∧
  (∀ b, data_area_start_block efs ≤ b → ¬ bm_block (data_bitmap efs) b).
Proof.
  intros Hfits Hdisk g efs.
  destruct (geometry_eq total ib Hfits) as [Hg Hdb]. unfold efs, g. rewrite Hg.
  destruct Hfits as [Hib Ht]. unfold data_total in *.
  cbn [g_efs g_data_area_blocks data_bitmap data_area_start_block].
  unfold bm_ok, bm_block. cbn [start_block_id blocks]. split_and!; try lia.
  intros b Hb. apply Hdisk. lia.
Qed.

(** [alloc_data] takes the lowest free data block and returns its block
    number in the data area, and [dealloc_data] gives it back: the only trace
    the pair leaves on the disk is that the block is zero. *)
Theorem data_block_lifecycle {St} `{HS : BlockStore St, HL : !BlockStoreLaws St} total ib v h k :
  fits total ib → (∀ b, 0 ≤ b < total → is_Some (v !! b)) →
  let g := compute_geometry total ib in
  let efs := g_efs g in
  let b := data_area_start_block efs + k in
  (∀ c, bm_block (data_bitmap efs) c → c ∉ h) → b ∉ h → (size h < BLOCK_CACHE_SIZE)%nat →
  first_free (data_bitmap efs) v k → k < g_data_area_blocks g →
  runs (alloc_data (St:=St) efs) v h b (set_bit (data_bitmap efs) k true v) ∧
  runs (c ← alloc_data (St:=St) efs; dealloc_data efs c) v h tt (<[b := zeros]> v).
Proof.
  intros Hf Hd g efs b Hh Hbh Hcap Hk Hkd. destruct Hk as [Hkr Hk'].
  destruct (space_geometry total ib v Hf Hd) as (Hok & Hs & Ht & Htm & Hnb).
  fold g efs in Hok, Hs, Ht, Hnb.
  assert (Hal : runs (alloc_data (St:=St) efs) v h b (set_bit (data_bitmap efs) k true v))
    by (apply alloc_data_run; (done || lia)).
  split; [exact Hal|]. apply runs_view_ok. intros Hv. eapply runs_bind; [exact Hal|].
  assert (Hblk : bm_block (data_bitmap efs) (block_of (data_bitmap efs) k)).
  { apply block_of_range. by rewrite <- (bm_ok_maximum _ _ Hok). }
  assert (Hbne : b ≠ block_of (data_bitmap efs) k).
  { intros E. apply (Hnb b); [unfold b; lia|]. by rewrite E. }
  replace (<[b := zeros]> v) with
    (set_bit (data_bitmap efs) k false (<[b := zeros]> (set_bit (data_bitmap efs) k true v))).
  2:{ rewrite set_bit_insert, set_bit_set_bit; try done. apply Hk'. }
  apply dealloc_data_run; try done; try (unfold b; lia).
  - by apply bm_ok_set_bit.
  - rewrite bit_set_bit by done. by rewrite decide_True.
  - apply Hnb. unfold b. lia.
  - rewrite set_bit_lookup_ne by done. apply Hd. unfold b. lia.
Qed.

(** A disk of 1028 blocks with the given block 1026, its data bitmap; block 1027
    is its one data block. *)
Definition small_image (first : Z) : list Z :=
  replicate (Z.to_nat (1026 * 512)) 0 ++ first :: replicate 1023 0.

Lemma small_image_length first : length (small_image first) = Z.to_nat (1028 * 512).
Proof.
  unfold small_image. rewrite length_app. cbn [length]. rewrite !length_replicate. lia.
Qed.

Lemma small_image_ok first :
  is_byte first → bytes (small_image first) ∧ Z.of_nat (length (small_image first)) < 2 ^ 40.
Proof.
  intros Hf. split; [|rewrite small_image_length; lia].
  apply Forall_app_2; [apply bytes_replicate|]. constructor; [done|apply bytes_replicate].
Qed.

Lemma boot_lookup img b :
  cache_view (boot img) !! b =
    if decide (0 ≤ b < Z.of_nat (length img / BLOCK_SZ)%nat)
    then Some (slice (Z.to_nat b * BLOCK_SZ) BLOCK_SZ img) else None.
Proof. exact (file_view_lookup {| file := img |} b). Qed.

Lemma small_image_blocks first b :
  0 ≤ b < 1028 ↔ is_Some (cache_view (boot (small_image first)) !! b).
Proof.
  rewrite boot_lookup, small_image_length. unfold BLOCK_SZ.
  case_decide as Hd; (split; [intros Hb|intros [? Hb]]); try done; try (by eexists); lia.
Qed.

Lemma small_image_bitmap first :
  cache_view (boot (small_image first)) !! 1026 = Some (first :: replicate 511 0).
Proof.
  rewrite boot_lookup, small_image_length. rewrite decide_True by (unfold BLOCK_SZ; lia). apply f_equal.
  unfold slice, small_image. rewrite drop_app_length'; [done|].
  rewrite length_replicate. unfold BLOCK_SZ. lia.
Qed.

Lemma small_image_bit first j :
  0 ≤ j < 4096 →
  bit (data_bitmap (g_efs (compute_geometry 1028 1))) (cache_view (boot (small_image first))) j =
  blk_bit (first :: replicate 511 0) j.
Proof.
  intros Hj. assert (Eb : data_bitmap (g_efs (compute_geometry 1028 1)) = mkBitmap 1026 1)
    by (vm_compute; reflexivity).
  rewrite Eb, bit_blk.
  assert (block_of (mkBitmap 1026 1) j = 1026) as ->.
  { unfold block_of, BLOCK_BITS. cbn [start_block_id]. rewrite Z.div_small by lia. done. }
  rewrite (lookup_total_correct _ _ _ (small_image_bitmap first)).
  unfold BLOCK_BITS. by rewrite Z.mod_small.
Qed.

Lemma data_block_lifecycle_witness :
  ∃ s', alloc_data (g_efs (compute_geometry 1028 1)) (boot (small_image 0)) = Ok (1027, s').
Proof.
  destruct (data_block_lifecycle (St:=CacheState BlockFile) 1028 1
    (cache_view (boot (small_image 0))) ∅ 0) as [Hrun _].
  - split; lia.
  - apply small_image_blocks.
  - intros c _. apply not_elem_of_empty.
  - apply not_elem_of_empty.
  - vm_compute. lia.
  - split_and!; [done|vm_compute; reflexivity|rewrite small_image_bit by lia; done|intros; lia].
  - vm_compute. reflexivity.
  - destruct (small_image_ok 0) as [Hb Hl]; [done|].
    destruct (boot_runs _ (small_image 0) _ _ Hb Hl Hrun) as (s' & E & _).
    exists s'. exact E.
Defined.

(** C33: the data bitmap has more bits than the data area has blocks, and
    [alloc_data] does not compare: when every data block is taken it does not
    report a full disk but returns the number of the block after the last one
    of the disk; on a device of exactly [total] blocks, touching it panics. *)
Theorem alloc_data_past_the_end {St} `{HS : BlockStore St, HL : !BlockStoreLaws St} total ib v :
  fits total ib → (∀ b, 0 ≤ b < total ↔ is_Some (v !! b)) →
  let g := compute_geometry total ib in
  let efs := g_efs g in
  g_data_area_blocks g < maximum (data_bitmap efs) →
  (∀ j, 0 ≤ j < maximum (data_bitmap efs) →
     bit (data_bitmap efs) v j = bool_decide (j < g_data_area_blocks g)) →
  let v' := set_bit (data_bitmap efs) (g_data_area_blocks g) true v in
  runs (alloc_data (St:=St) efs) v ∅ total v' ∧
  ∀ A (f : list Z → M St A), faults (bc_read total 0 BLOCK_SZ f) v' ∅ Panic.
Proof.
  intros Hf Hd g efs Hfull Hbits v'.
  destruct (space_geometry total ib v Hf) as (Hok & Hs & Ht & Htm & Hnb); [by intros; apply Hd|].
  fold g efs in Hok, Hs, Ht, Hnb.
  assert (Hg : 0 ≤ g_data_area_blocks g).
  { destruct (geometry_eq total ib Hf) as [E Hdb]. unfold g. rewrite E. cbn [g_data_area_blocks]. lia. }
  split.
  - rewrite <- Ht at 1. apply alloc_data_run; [done|intros; apply not_elem_of_empty|vm_compute; lia| |done|lia].
    split_and!; [done|done| |].
    + rewrite Hbits by lia. by rewrite bool_decide_false by lia.
    + intros j Hj. rewrite Hbits by lia. by rewrite bool_decide_true by lia.
  - intros A f. apply faults_missing_read; [destruct Hf; lia|]. unfold v'.
    assert (Hb : bm_block (data_bitmap efs) (block_of (data_bitmap efs) (g_data_area_blocks g)))
      by (apply block_of_range; rewrite <- (bm_ok_maximum _ _ Hok); lia).
    rewrite set_bit_lookup_ne.
    + apply eq_None_not_Some. intros Hs'%Hd. lia.
    + intros E. apply (Hnb total); [lia|]. by rewrite E.
Qed.

Lemma full_bits j : 0 ≤ j < 4096 → blk_bit (1 :: replicate 511 0) j = bool_decide (j < 1).
Proof.
  intros Hj. assert (Hall : forallb (λ j, eqb (blk_bit (1 :: replicate 511 0) j) (bool_decide (j < 1)))
    (seqZ 0 4096) = true) by (vm_compute; reflexivity).
  rewrite forallb_forall in Hall. apply eqb_prop, Hall.
  apply list_elem_of_In, elem_of_seqZ. lia.
Qed.

Lemma alloc_data_past_the_end_witness :
  ∃ s', alloc_data (g_efs (compute_geometry 1028 1)) (boot (small_image 1)) = Ok (1028, s').
Proof.
  destruct (alloc_data_past_the_end (St:=CacheState BlockFile) 1028 1
    (cache_view (boot (small_image 1)))) as [Hrun _].
  - split; lia.
  - apply small_image_blocks.
  - vm_compute. reflexivity.
  - intros j Hj. change (0 ≤ j < 4096) in Hj. rewrite small_image_bit by lia. by apply full_bits.
  - destruct (small_image_ok 1) as [Hb Hl]; [done|].
    destruct (boot_runs _ (small_image 1) _ _ Hb Hl Hrun) as (s' & E & _).
    exists s'. exact E.
Defined.
