(* ===== verification/Vfs.v ===== *)
(** * The inode layer (easy-fs/src/vfs.rs)

    An [Inode] in memory is the position of a [DiskInode] on the disk; its
    operations run closures on that disk inode while the inode's block is
    locked.  The [Mutex<EasyFileSystem>] every operation takes first guards
    constant data and is never taken twice by one operation, so it does not
    appear. *)

From S2P Require Import Prelude Bytes BlockStore BlockCache BlockFile Bitmap Layout Inode.
From S2P Require Import InodeSpec InodeData Efs.
From Stdlib Require Import ZifyNat.

Record Inode := mkInode {
  block_id : Z;
  block_offset : Z;
}.

Section vfs.
Context {St : Type} `{BlockStore St}.

Definition read_disk_inode {V} (ino : Inode) (f : DiskInode → M St V) : M St V :=
  bc_read (block_id ino) (Z.to_nat (block_offset ino)) DiskInode_SZ
    (λ bs, f (DiskInode_decode bs)).

Definition modify_disk_inode {V} (ino : Inode) (f : DiskInode → M St (V * DiskInode)) : M St V :=
  bc_modify (block_id ino) (Z.to_nat (block_offset ino)) DiskInode_SZ
    (λ bs, '(r, di) ← f (DiskInode_decode bs); mret (r, DiskInode_encode di bs)).

(** [for i in 0..file_count], [n] iterations left; [dirent] is the reused buffer. *)
Fixpoint find_from (n : nat) (i : Z) (name : list Z) (di : DiskInode) (dirent : list Z) :
    M St (option Z) :=
  match n with
  | O => mret None
  | S n =>
      '(k, dirent) ← InodeData.read_at di (Z.of_nat DIRENT_SZ *ᵤ i) dirent;
      lift (assert_ (k =? Z.of_nat DIRENT_SZ));;
      nm ← lift (DirEntry_name (DirEntry_of_bytes dirent));
      if bool_decide (nm = name) then mret (Some (de_inode_id (DirEntry_of_bytes dirent)))
      else find_from n (i + 1) name di dirent
  end.

Definition find_inode_id (name : list Z) (di : DiskInode) : M St (option Z) :=
  lift (assert_ (is_dir di));;
  let file_count := di_size di / Z.of_nat DIRENT_SZ in
  find_from (Z.to_nat file_count) 0 name di (DirEntry_as_bytes DirEntry_empty).

Definition find (efs : EasyFileSystem) (ino : Inode) (name : list Z) : M St (option Inode) :=
  read_disk_inode ino (λ di,
    o ← find_inode_id name di;
    mret ((λ inode_id, let '(b, off) := get_disk_inode_pos efs inode_id in mkInode b off) <$> o)).

(** [for _ in 0..blocks_needed { v.push(fs.alloc_data()) }] *)
Fixpoint alloc_many (efs : EasyFileSystem) (n : nat) (v : list Z) : M St (list Z) :=
  match n with
  | O => mret v
  | S n => b ← alloc_data efs; alloc_many efs n (v ++ [b])
  end.

Definition Inode_increase_size (efs : EasyFileSystem) (new_size : Z) (di : DiskInode) :
    M St DiskInode :=
  if new_size <? di_size di then mret di else
  blocks_needed ← lift (blocks_num_needed di new_size);
  v ← alloc_many efs (Z.to_nat blocks_needed) [];
  increase_size di new_size v.

Definition Inode_create (efs : EasyFileSystem) (ino : Inode) (name : list Z) :
    M St (option Inode) :=
  found ← modify_disk_inode ino (λ root_inode,
            lift (assert_ (is_dir root_inode));;
            o ← find_inode_id name root_inode;
            mret (o, root_inode));
  match found with
  | Some _ => mret None
  | None =>
      (* alloc a inode with an indirect block *)
      new_inode_id ← alloc_inode efs;
      (* initialize inode *)
      let '(new_block, new_offset) := get_disk_inode_pos efs new_inode_id in
      init_inode new_block new_offset File;;
      modify_disk_inode ino (λ root_inode,
        (* append file in the dirent *)
        let file_count := di_size root_inode / Z.of_nat DIRENT_SZ in
        let new_size := (file_count + 1) * Z.of_nat DIRENT_SZ in
        root_inode ← Inode_increase_size efs (u32 new_size) root_inode;
        (* write dirent *)
        dirent ← lift (DirEntry_new name new_inode_id);
        InodeData.write_at root_inode (file_count * Z.of_nat DIRENT_SZ) (DirEntry_as_bytes dirent);;
        mret (tt, root_inode));;
      let '(b, off) := get_disk_inode_pos efs new_inode_id in
      sync_all;;
      mret (Some (mkInode b off))
  end.

(** [for i in 0..file_count], a fresh [dirent] for each *)
Fixpoint ls_from (n : nat) (i : Z) (di : DiskInode) (v : list (list Z)) : M St (list (list Z)) :=
  match n with
  | O => mret v
  | S n =>
      '(k, dirent) ← InodeData.read_at di (i *ᵤ Z.of_nat DIRENT_SZ)
                       (DirEntry_as_bytes DirEntry_empty);
      lift (assert_ (k =? Z.of_nat DIRENT_SZ));;
      nm ← lift (DirEntry_name (DirEntry_of_bytes dirent));
      ls_from n (i + 1) di (v ++ [nm])
  end.

Definition ls (ino : Inode) : M St (list (list Z)) :=
  read_disk_inode ino (λ di,
    let file_count := di_size di / Z.of_nat DIRENT_SZ in
    ls_from (Z.to_nat file_count) 0 di []).

Definition Inode_read_at (ino : Inode) (offset : Z) (buf : list Z) : M St (Z * list Z) :=
  read_disk_inode ino (λ di, InodeData.read_at di offset buf).

Definition Inode_write_at (efs : EasyFileSystem) (ino : Inode) (offset : Z) (buf : list Z) :
    M St Z :=
  size ← modify_disk_inode ino (λ di,
           di ← Inode_increase_size efs (u32 (offset +ᵤ Z.of_nat (length buf))) di;
           n ← InodeData.write_at di offset buf;
           mret (n, di));
  sync_all;;
  mret size.

(** [for data_block in data_blocks_dealloc.into_iter() { fs.dealloc_data(data_block) }] *)
Fixpoint dealloc_many (efs : EasyFileSystem) (l : list Z) : M St unit :=
  match l with
  | [] => mret tt
  | b :: l => dealloc_data efs b;; dealloc_many efs l
  end.

Definition Inode_clear (efs : EasyFileSystem) (ino : Inode) : M St unit :=
  modify_disk_inode ino (λ di,
    let size := di_size di in
    '(di, dealloced) ← clear_size di;
    lift (assert_ (Z.of_nat (length dealloced) =? total_blocks size));;
    dealloc_many efs dealloced;;
    mret (tt, di));;
  sync_all.
End vfs.

(** ** Specification *)

(** The in-memory inode [ino] names the disk inode [di], whose blocks are
    apart from the inode's own block. *)
Record inode_at (ino : Inode) (v : gmap Z (list Z)) (di : DiskInode) : Prop := {
  ia_offset : 0 ≤ block_offset ino ≤ 384;
  ia_block : is_Some (v !! block_id ino);
  ia_decode : DiskInode_decode
    (slice (Z.to_nat (block_offset ino)) DiskInode_SZ (v !!! block_id ino)) = di;
  ia_wf : inode_wf di v;
  ia_apart : block_id ino ∉ all_ids di v;
}.

(** A file name of a directory entry. *)
Definition name_ok (nm : list Z) : Prop :=
  (0 ∉ nm) ∧ from_utf8 nm = true ∧ (length nm ≤ NAME_LENGTH_LIMIT)%nat.

Definition entry (e : list Z * Z) : DirEntry :=
  mkDirEntry (fst e ++ replicate (28 - length (fst e)) 0) (snd e).

(** A directory with the entries [ents], in order. *)
Definition is_directory (di : DiskInode) (v : gmap Z (list Z)) (ents : list (list Z * Z)) : Prop :=
  is_dir di = true ∧ content di v = (ents ≫= λ e, DirEntry_as_bytes (entry e)) ∧
  Forall (λ e, name_ok (fst e) ∧ is_u32 (snd e)) ents.

(** The inode number of the first entry with a name. *)
Definition lookup_entry (ents : list (list Z * Z)) (name : list Z) : option Z :=
  snd ∘ snd <$> list_find (λ e, fst e = name) ents.

Lemma entry_length e : name_ok (fst e) → length (DirEntry_as_bytes (entry e)) = 32%nat.
Proof.
  intros (_ & _ & Hl). unfold DirEntry_as_bytes, entry, NAME_LENGTH_LIMIT in *. cbn [de_name de_inode_id].
  rewrite !length_app, length_replicate, length_le_put. lia.
Qed.

Lemma entry_decode e :
  name_ok (fst e) → is_u32 (snd e) →
  DirEntry_name (DirEntry_of_bytes (DirEntry_as_bytes (entry e))) = Ok (fst e) ∧
  de_inode_id (DirEntry_of_bytes (DirEntry_as_bytes (entry e))) = snd e.
Proof.
  intros (Hz & Hu & Hl) Hi. unfold NAME_LENGTH_LIMIT in Hl.
  rewrite DirEntry_of_as by (try done; unfold entry; cbn [de_name];
    rewrite length_app, length_replicate; lia).
  split; [|done]. by apply padded_name.
Qed.

Lemma slice_bind_fixed {A B} (f : A → list B) (k : nat) (l : list A) i x :
  (∀ y, y ∈ l → length (f y) = k) → l !! i = Some x → slice (i * k) k (l ≫= f) = f x.
Proof.
  intros Hl Hx. apply list_eq. intros j. rewrite lookup_slice. case_decide as Hj.
  - rewrite (lookup_bind_fixed f k) by done. by rewrite Hx.
  - rewrite lookup_ge_None_2; [done|]. rewrite (Hl x); [lia|]. by eapply list_elem_of_lookup_2.
Qed.

Section dir.
Context {St : Type} `{HS : BlockStore St, HL : !BlockStoreLaws St}.
Context (di : DiskInode) (v : gmap Z (list Z)) (h : gset Z) (ents : list (list Z * Z)).
Context (Hwf : inode_wf di v) (Hroom : room (all_ids di v) h) (Hdir : is_directory di v ents)
        (Hv : view_ok v).

Lemma dir_entry_length e : e ∈ ents → length (DirEntry_as_bytes (entry e)) = 32%nat.
Proof.
  intros He. destruct Hdir as (_ & _ & Hf). rewrite Forall_forall in Hf.
  apply entry_length, Hf, He.
Qed.

Lemma dir_size : di_size di = 32 * Z.of_nat (length ents).
Proof.
  destruct Hdir as (_ & Hc & _). apply (f_equal length) in Hc.
  rewrite length_content, (length_bind_fixed _ 32) in Hc by (done || apply dir_entry_length).
  assert (0 ≤ di_size di) by (destruct Hwf as ((H&_)&_); apply H). lia.
Qed.

(** Reading the [i]-th entry into any 32-byte buffer. *)
Lemma read_entry_run i e buf :
  ents !! i = Some e → length buf = 32%nat →
  runs (InodeData.read_at (St:=St) di (32 * Z.of_nat i) buf) v h
    (32, DirEntry_as_bytes (entry e)) v.
Proof.
  intros He Hb. assert (Hs := dir_size).
  assert (Hi : (i < length ents)%nat) by by eapply lookup_lt_Some.
  assert (Hmax : di_size di ≤ MAX_SIZE) by (destruct Hwf as (_&H&_); exact H).
  unfold MAX_SIZE, INDIRECT2_BOUND, BSZ in Hmax.
  assert (Hr := read_at_run (St:=St) di v h (32 * Z.of_nat i) buf Hwf Hroom).
  assert (Hin : inside di (32 * Z.of_nat i) buf = 32%nat) by (unfold inside; lia).
  rewrite Hin, <- slice_content in Hr by lia. destruct Hdir as (_ & Hc & _). rewrite Hc in Hr.
  replace (Z.to_nat (32 * Z.of_nat i)) with (i * 32)%nat in Hr by lia.
  rewrite (slice_bind_fixed _ 32 _ _ e) in Hr by (apply dir_entry_length || done).
  rewrite splice_all in Hr; [apply Hr; lia|].
  rewrite Hb. apply dir_entry_length. by eapply list_elem_of_lookup_2.
Qed.

Lemma dir_entry_ok i e : ents !! i = Some e → name_ok (fst e) ∧ is_u32 (snd e).
Proof.
  intros He. destruct Hdir as (_ & _ & Hf). eapply Forall_lookup in Hf; [exact Hf|exact He].
Qed.

Lemma dir_offset i :
  (i < length ents)%nat →
  Z.of_nat DIRENT_SZ *ᵤ Z.of_nat i = 32 * Z.of_nat i ∧
  Z.of_nat i *ᵤ Z.of_nat DIRENT_SZ = 32 * Z.of_nat i.
Proof.
  intros Hi. assert (Hs := dir_size).
  assert (Hmax : di_size di ≤ MAX_SIZE) by (destruct Hwf as (_&H&_); exact H).
  unfold MAX_SIZE, INDIRECT2_BOUND, BSZ in Hmax. change (Z.of_nat DIRENT_SZ) with 32.
  rewrite !u64_small by lia. lia.
Qed.

Lemma ls_from_run n i acc :
  (i + n = length ents)%nat →
  runs (ls_from (St:=St) n (Z.of_nat i) di acc) v h (acc ++ (fst <$> drop i ents)) v.
Proof.
  revert i acc. induction n as [|n IH]; intros i acc Hn; cbn [ls_from].
  { rewrite drop_ge by lia. simpl. rewrite app_nil_r. apply runs_ret. }
  destruct (lookup_lt_is_Some_2 ents i) as [e He]; [lia|].
  destruct (dir_entry_ok i e He) as [Hn' Hu]. destruct (entry_decode e Hn' Hu) as [En _].
  rewrite (proj2 (dir_offset i ltac:(lia))).
  eapply runs_bind; [by apply (read_entry_run i e)|]. cbv beta iota.
  eapply runs_bind; [by apply runs_lift|]. eapply runs_bind; [by apply runs_lift|].
  replace (Z.of_nat i + 1) with (Z.of_nat (S i)) by lia.
  rewrite (drop_S ents e i He), fmap_cons.
  replace (acc ++ fst e :: (fst <$> drop (S i) ents)) with ((acc ++ [fst e]) ++ (fst <$> drop (S i) ents))
    by by rewrite <- app_assoc.
  apply IH. lia.
Qed.

Lemma find_from_run n i name buf :
  (i + n = length ents)%nat → length buf = 32%nat →
  runs (find_from (St:=St) n (Z.of_nat i) name di buf) v h (lookup_entry (drop i ents) name) v.
Proof.
  revert i buf. induction n as [|n IH]; intros i buf Hn Hb; cbn [find_from].
  { rewrite drop_ge by lia. apply runs_ret. }
  destruct (lookup_lt_is_Some_2 ents i) as [e He]; [lia|].
  destruct (dir_entry_ok i e He) as [Hn' Hu]. destruct (entry_decode e Hn' Hu) as [En Ei].
  rewrite (proj1 (dir_offset i ltac:(lia))).
  eapply runs_bind; [by apply (read_entry_run i e)|]. cbv beta iota.
  eapply runs_bind; [by apply runs_lift|]. eapply runs_bind; [by apply runs_lift|].
  rewrite (drop_S ents e i He). unfold lookup_entry. cbn [list_find].
  case_bool_decide as Hd; [rewrite decide_True by done; rewrite Ei; apply runs_ret|].
  rewrite decide_False by done. replace (Z.of_nat i + 1) with (Z.of_nat (S i)) by lia.
  replace (snd ∘ snd <$> (prod_map S id <$> list_find (λ e, fst e = name) (drop (S i) ents)))
    with (lookup_entry (drop (S i) ents) name).
  - apply IH; [lia|]. apply dir_entry_length. by eapply list_elem_of_lookup_2.
  - unfold lookup_entry. by destruct (list_find _ _) as [[]|].
Qed.
End dir.

(** ** Giving blocks back *)

(** Block [b] is an allocated data block. *)
Definition allocated (efs : EasyFileSystem) (v : gmap Z (list Z)) (b : Z) : Prop :=
  let k := b - data_area_start_block efs in
  0 ≤ k < maximum (data_bitmap efs) ∧ bit (data_bitmap efs) v k = true ∧ b < 2 ^ 32 ∧
  ¬ bm_block (data_bitmap efs) b ∧ is_Some (v !! b).

(** The blocks [l] are free and zero, and nothing else has changed. *)
Record freed (efs : EasyFileSystem) (l : list Z) (v v' : gmap Z (list Z)) : Prop := {
  freed_zero b : b ∈ l → v' !! b = Some zeros;
  freed_bits k : 0 ≤ k < maximum (data_bitmap efs) →
    bit (data_bitmap efs) v' k =
      (bit (data_bitmap efs) v k && bool_decide (data_area_start_block efs + k ∉ l));
  freed_frame b : b ∉ l → ¬ bm_block (data_bitmap efs) b → v' !! b = v !! b;
}.

Section free.
Context {St : Type} `{HS : BlockStore St, HL : !BlockStoreLaws St}.
Context (efs : EasyFileSystem) (h : gset Z).
Context (Hh : ∀ b, bm_block (data_bitmap efs) b → b ∉ h) (Hcap : (size h < BLOCK_CACHE_SIZE)%nat).
Context (Hs : 0 ≤ data_area_start_block efs).

(** One block. *)
Lemma dealloc_one_run b v :
  view_ok v → bm_ok (data_bitmap efs) v → allocated efs v b → b ∉ h →
  ∃ v', runs (dealloc_data (St:=St) efs b) v h tt v' ∧ freed efs [b] v v' ∧
        view_ok v' ∧ bm_ok (data_bitmap efs) v'.
Proof.
  intros Hv Hok (Hk & Hbit & Hr & Hnb & Hsome) Hbh.
  set (k := b - data_area_start_block efs) in *.
  assert (Eb : b = data_area_start_block efs + k) by (unfold k; lia).
  assert (Hblk : bm_block (data_bitmap efs) (block_of (data_bitmap efs) k)).
  { apply block_of_range. by rewrite <- (bm_ok_maximum _ _ Hok). }
  assert (Hne : ∀ j, 0 ≤ j < maximum (data_bitmap efs) → b ≠ block_of (data_bitmap efs) j).
  { intros j Hj ->. apply Hnb, block_of_range. by rewrite <- (bm_ok_maximum _ _ Hok). }
  assert (Hv1 : view_ok (<[b := zeros]> v)).
  { intros c blk. rewrite lookup_insert_Some. intros [[<- <-]|[_ ?]]; [apply zeros_ok|by apply (Hv c)]. }
  assert (Hok1 : bm_ok (data_bitmap efs) (<[b := zeros]> v)).
  { destruct Hok as (?&?&?&Hp). split_and!; try done. intros c Hc.
    rewrite lookup_insert_ne; [by apply Hp|]. by intros ->. }
  exists (set_bit (data_bitmap efs) k false (<[b := zeros]> v)). split_and!.
  - rewrite Eb at 1 2. apply dealloc_data_run; try done; by rewrite <- Eb.
  - split.
    + intros c Hc%list_elem_of_singleton. subst c.
      rewrite set_bit_lookup_ne by by apply Hne. apply lookup_insert_eq.
    + intros j Hj. rewrite bit_set_bit by done.
      case_decide as Hd.
      * rewrite bool_decide_false; [by rewrite andb_false_r|].
        intros Hc. apply Hc, list_elem_of_singleton. rewrite Hd. lia.
      * rewrite bool_decide_true, andb_true_r.
        -- apply bit_ext. rewrite lookup_insert_ne; [done|]. by apply Hne.
        -- rewrite list_elem_of_singleton. lia.
    + intros c Hc Hcb. rewrite set_bit_lookup_ne by (by intros ->).
      rewrite lookup_insert_ne; [done|]. intros ->. apply Hc. by apply list_elem_of_singleton.
  - by apply set_bit_view_ok.
  - by apply bm_ok_set_bit.
Qed.

Lemma freed_cons b l v v1 v2 :
  freed efs [b] v v1 → freed efs l v1 v2 → b ∉ l → ¬ bm_block (data_bitmap efs) b →
  freed efs (b :: l) v v2.
Proof.
  intros [Hz1 Hb1 Hf1] [Hz2 Hb2 Hf2] Hbl Hbb. split.
  - intros c [->|Hc]%elem_of_cons; [|by apply Hz2].
    rewrite Hf2 by done. apply Hz1. by apply list_elem_of_singleton.
  - intros k Hk. rewrite Hb2, Hb1 by done. rewrite <- andb_assoc. f_equal.
    rewrite <- bool_decide_and. apply bool_decide_ext.
    rewrite list_elem_of_singleton, not_elem_of_cons. done.
  - intros c Hc Hcb. apply not_elem_of_cons in Hc as [Hc1 Hc2]. rewrite Hf2 by done.
    apply Hf1; [|done]. by rewrite list_elem_of_singleton.
Qed.

Lemma dealloc_many_run l v :
  view_ok v → bm_ok (data_bitmap efs) v → NoDup l →
  (∀ b, b ∈ l → allocated efs v b ∧ b ∉ h) →
  ∃ v', runs (dealloc_many (St:=St) efs l) v h tt v' ∧ freed efs l v v' ∧ view_ok v' ∧
    bm_ok (data_bitmap efs) v'.
Proof.
  revert v. induction l as [|b l IH]; intros v Hv Hok Hnd Hl; cbn [dealloc_many].
  { exists v. split; [apply runs_ret|]. split; [|done]. split; [by intros b ?%elem_of_nil| |done].
    intros k Hk. rewrite bool_decide_true; [by rewrite andb_true_r|apply not_elem_of_nil]. }
  apply NoDup_cons in Hnd as [Hbl Hnd].
  destruct (Hl b) as [Hab Hbh]; [apply list_elem_of_here|].
  destruct (dealloc_one_run b v Hv Hok Hab Hbh) as (v1 & Hrun1 & Hf1 & Hv1 & Hok1).
  destruct (IH v1 Hv1 Hok1 Hnd) as (v2 & Hrun2 & Hf2 & Hv2 & Hok2).
  { intros c Hc. destruct (Hl c) as [(Hk & Hbit & Hr & Hnb & Hsome) Hch];
      [by apply list_elem_of_further|]. split; [|done].
    assert (Hcb : c ≠ b) by (by intros ->).
    split; [done|]. split; [|split; [done|split; [done|]]].
    - rewrite (freed_bits _ _ _ _ Hf1) by done. rewrite Hbit, bool_decide_true; [done|].
      rewrite list_elem_of_singleton. lia.
    - rewrite (freed_frame _ _ _ _ Hf1); [done| |done]. by rewrite list_elem_of_singleton. }
  exists v2. split; [by eapply runs_bind|]. split; [|done].
  eapply freed_cons; [done..|]. apply Hab.
Qed.
End free.

(** ** Theorems *)

Section theorems.
Context {St : Type} `{HS : BlockStore St, HL : !BlockStoreLaws St}.

Lemma inode_room ino v di : inode_at ino v di → room (all_ids di v) ({[block_id ino]} ∪ ∅).
Proof.
  intros Hi. split.
  - intros b Hb. rewrite union_empty_r_L, elem_of_singleton. intros ->.
    by apply (ia_apart _ _ _ Hi).
  - rewrite union_empty_r_L, size_singleton. vm_compute. lia.
Qed.

Lemma read_disk_inode_run {V} ino v di (f : DiskInode → M St V) a :
  inode_at ino v di → runs (f di) v ({[block_id ino]} ∪ ∅) a v →
  runs (read_disk_inode ino f) v ∅ a v.
Proof.
  intros Hi Hf. destruct Hi as [Ho [blk E] Hd _ _]. unfold read_disk_inode.
  rewrite (lookup_total_correct _ _ _ E) in Hd.
  eapply runs_read; [exact E|apply not_elem_of_empty|vm_compute; lia| |by rewrite Hd].
  unfold DiskInode_SZ, BLOCK_SZ. lia.
Qed.
End theorems.

Lemma freed_perm efs l l' v v' : l ≡ₚ l' → freed efs l v v' → freed efs l' v v'.
Proof.
  intros Hp [Hz Hb Hf]. split.
  - intros b. rewrite <- Hp. apply Hz.
  - intros k Hk. rewrite Hb by done. f_equal. apply bool_decide_ext. by rewrite Hp.
  - intros b. rewrite <- Hp. apply Hf.
Qed.

Lemma empty_inode_ids di v : di_size di = 0 → all_ids di v = [].
Proof. intros E. unfold all_ids, nblocks, data_blocks. by rewrite E. Qed.

Lemma empty_inode_wf di v : di_ok di → di_size di = 0 → inode_wf di v.
Proof.
  intros Hok E. split_and!; [done|rewrite E; vm_compute; discriminate| |];
    rewrite empty_inode_ids by done; [constructor|by intros b ?%elem_of_nil].
Qed.

Lemma directory_run {St} `{HS : BlockStore St, HL : !BlockStoreLaws St}
    efs ino v di ents name :
  view_ok v → inode_at ino v di → is_directory di v ents →
  runs (ls (St:=St) ino) v ∅ (fst <$> ents) v ∧
  runs (find (St:=St) efs ino name) v ∅
    ((λ id, let '(b, off) := get_disk_inode_pos efs id in mkInode b off)
       <$> lookup_entry ents name) v.
Proof.
  intros Hv Hi Hd. assert (Hr := inode_room _ _ _ Hi). assert (Hwf := ia_wf _ _ _ Hi).
  assert (Hsz := dir_size di v ents Hwf Hd Hv).
  assert (Hn : di_size di / Z.of_nat DIRENT_SZ = Z.of_nat (length ents)).
  { rewrite Hsz. change (Z.of_nat DIRENT_SZ) with 32. Z.to_euclidean_division_equations; lia. }
  split; eapply read_disk_inode_run; try done; cbv beta zeta.
  - rewrite Hn, Nat2Z.id. apply (ls_from_run (St:=St) di v _ ents Hwf Hr Hd Hv (length ents) 0 []). lia.
  - eapply runs_bind; [|apply runs_ret]. unfold find_inode_id.
    eapply runs_bind; [by apply runs_lift; rewrite (proj1 Hd)|]. cbv beta zeta. rewrite Hn, Nat2Z.id.
    apply (find_from_run (St:=St) di v _ ents Hwf Hr Hd Hv (length ents) 0); [lia|done].
Qed.

(** On a directory, [ls] lists the names of its entries in order, and [find]
    returns the position of the inode of the first entry with the given name,
    or nothing when there is none; neither changes the disk. *)
Theorem directory_lookup {St} `{HS : BlockStore St, HL : !BlockStoreLaws St}
    efs ino v di ents name :
  view_ok v → inode_at ino v di → is_directory di v ents →
  runs (ls (St:=St) ino) v ∅ (fst <$> ents) v ∧
  runs (find (St:=St) efs ino name) v ∅
    ((λ id, let '(b, off) := get_disk_inode_pos efs id in mkInode b off)
       <$> lookup_entry ents name) v.
Proof. apply directory_run. Qed.

Section modify.
Context {St : Type} `{HS : BlockStore St, HL : !BlockStoreLaws St}.

(** The closure of [modify_disk_inode] leaves the block of the inode alone. *)
Lemma modify_disk_inode_run {V} ino v di (f : DiskInode → M St (V * DiskInode)) a di' v1 blk :
  view_ok v → inode_at ino v di → v !! block_id ino = Some blk →
  runs (f di) v ({[block_id ino]} ∪ ∅) (a, di') v1 → v1 !! block_id ino = Some blk → di_ok di' →
  let o := Z.to_nat (block_offset ino) in
  let new := DiskInode_encode di' (slice o DiskInode_SZ blk) in
  runs (modify_disk_inode ino f) v ∅ a (<[block_id ino := splice o new blk]> v1) ∧
  length new = DiskInode_SZ ∧ bytes new ∧ DiskInode_decode (slice o DiskInode_SZ (splice o new blk)) = di'.
Proof.
  intros Hv Hi E Hrun E1 Hok o new. destruct (Hv _ _ E) as [Hl Hb]. pose proof (ia_offset _ _ _ Hi) as Ho.
  assert (Ho' : (o + DiskInode_SZ ≤ BLOCK_SZ)%nat) by (unfold o, DiskInode_SZ, BLOCK_SZ; lia).
  assert (Hnl : length new = DiskInode_SZ).
  { apply DiskInode_encode_length; [done|]. apply length_slice. by rewrite Hl. }
  assert (Hnb : bytes new) by (apply DiskInode_encode_bytes; by apply bytes_slice).
  split; [|split; [done|split; [done|]]].
  - unfold modify_disk_inode. eapply runs_modify; [exact E|apply not_elem_of_empty|vm_compute; lia|done| |exact E1|done|done].
    pose proof (ia_decode _ _ _ Hi) as Hd. rewrite (lookup_total_correct _ _ _ E) in Hd. fold o in Hd. fold o.
    rewrite Hd. eapply runs_bind; [exact Hrun|]. apply runs_ret.
  - rewrite <- Hnl, slice_splice_eq by (rewrite Hnl; lia). by apply DiskInode_decode_encode.
Qed.
End modify.

Section clear.
Context {St : Type} `{HS : BlockStore St, HL : !BlockStoreLaws St}.
Context (efs : EasyFileSystem) (ino : Inode) (v : gmap Z (list Z)) (di : DiskInode).
Context (Hv : view_ok v) (Hi : inode_at ino v di) (Hbm : bm_ok (data_bitmap efs) v).
Context (Hs : 0 ≤ data_area_start_block efs) (Hnb : ¬ bm_block (data_bitmap efs) (block_id ino)).
Context (Hall : ∀ b, b ∈ all_ids di v → allocated efs v b).
Let h : gset Z := {[block_id ino]} ∪ ∅.

(** The closure: the blocks are taken from the inode and given back. *)
Lemma clear_body_run :
  ∃ vf di', runs ('(di', dealloced) ← clear_size (St:=St) di;
      lift (assert_ (Z.of_nat (length dealloced) =? total_blocks (di_size di)));;
      dealloc_many efs dealloced;;
      mret (tt, di')) v h (tt, di') vf ∧
    freed efs (all_ids di v) v vf ∧ view_ok vf ∧ bm_ok (data_bitmap efs) vf ∧
    vf !! block_id ino = v !! block_id ino ∧ di_size di' = 0 ∧ type_ di' = type_ di ∧ di_ok di'.
Proof.
  assert (Hr := inode_room _ _ _ Hi). assert (Hwf := ia_wf _ _ _ Hi). destruct Hr as [Hrh Hrc]. fold h in Hrh, Hrc.
  destruct (clear_size_run (St:=St) di v h Hwf) as (di' & l & Hrun & Hp & Hs' & Ht' & Hok').
  { intros b Hb. apply Hrh, elem_of_app. by right. }
  { exact Hrc. }
  assert (Hhb : ∀ b, bm_block (data_bitmap efs) b → b ∉ h).
  { intros b Hb. unfold h. rewrite union_empty_r_L, elem_of_singleton. by intros ->. }
  destruct (dealloc_many_run (St:=St) efs h Hhb ltac:(lia) Hs l v Hv Hbm) as (vf & Hrun2 & Hf & Hvf & Hbf).
  { rewrite Hp. apply Hwf. }
  { intros b Hb. rewrite Hp in Hb. split; [by apply Hall|by apply Hrh]. }
  assert (Hlen : Z.of_nat (length l) = total_blocks (di_size di)).
  { rewrite (Permutation_length Hp). unfold all_ids. rewrite length_all_ids.
    rewrite total_blocks_nall; [done|]. destruct Hwf as ((Hz&_)&Hm&_). unfold is_u32 in Hz. unfold MAX_SIZE. lia. }
  exists vf, di'. split; [|split; [by apply (freed_perm efs l)|]; split; [done|]; split; [done|]; split; [|done]].
  - eapply runs_bind; [exact Hrun|]. cbv beta iota.
    eapply (runs_bind _ _ _ _ tt); [apply runs_lift; by rewrite Hlen, Z.eqb_refl|]. eapply runs_bind; [exact Hrun2|apply runs_ret].
  - apply (freed_frame _ _ _ _ Hf); [|done]. rewrite Hp. apply (ia_apart _ _ _ Hi).
Qed.

Lemma clear_run :
  ∃ vf di' new, let o := Z.to_nat (block_offset ino) in
    let v' := <[block_id ino := splice o new (v !!! block_id ino)]> vf in
    runs (Inode_clear (St:=St) efs ino) v ∅ tt v' ∧ freed efs (all_ids di v) v vf ∧
    view_ok vf ∧ bm_ok (data_bitmap efs) vf ∧ length new = DiskInode_SZ ∧ bytes new ∧
    inode_at ino v' di' ∧ di_size di' = 0 ∧ type_ di' = type_ di.
Proof.
  destruct clear_body_run as (vf & di' & Hrun & Hf & Hvf & Hbf & Ef & Hs' & Ht' & Hok').
  destruct (ia_block _ _ _ Hi) as [blk E]. rewrite E in Ef.
  destruct (modify_disk_inode_run (St:=St) ino v di (λ di, let size := di_size di in
    '(di, dealloced) ← clear_size di;
    lift (assert_ (Z.of_nat (length dealloced) =? total_blocks size));;
    dealloc_many efs dealloced;;
    mret (tt, di)) tt di' vf blk Hv Hi E Hrun Ef Hok') as (Hrun' & Hnl & Hnb' & Hdec).
  exists vf, di'. eexists. rewrite (lookup_total_correct _ _ _ E). split; [|split; [done|]; split; [done|]; split; [done|];
    split; [exact Hnl|]; split; [exact Hnb'|]; split; [|done]].
  - unfold Inode_clear. eapply runs_bind; [exact Hrun'|apply runs_sync_all].
  - split; [apply Hi|rewrite lookup_insert_eq; by eexists|by rewrite lookup_total_insert_eq|by apply empty_inode_wf|].
    rewrite empty_inode_ids by done. apply not_elem_of_nil.
Qed.
End clear.

(** [Inode::clear] truncates a file whose blocks are allocated data blocks: it
    returns (its assertion on the number of blocks holds), the disk inode has
    size 0, every data and index block of the file is zero and free again, and
    every other bit of the data bitmap and every other block is as it was. *)
Theorem clear_frees {St} `{HS : BlockStore St, HL : !BlockStoreLaws St} efs ino v di :
  view_ok v → inode_at ino v di → bm_ok (data_bitmap efs) v → 0 ≤ data_area_start_block efs →
  ¬ bm_block (data_bitmap efs) (block_id ino) →
  (∀ b, b ∈ all_ids di v → allocated efs v b) →
  ∃ v' vf di', runs (Inode_clear (St:=St) efs ino) v ∅ tt v' ∧
    freed efs (all_ids di v) v vf ∧
    v' = <[block_id ino := v' !!! block_id ino]> vf ∧
    inode_at ino v' di' ∧ di_size di' = 0 ∧ type_ di' = type_ di.
Proof.
  intros Hv Hi Hbm Hs Hnb Hall.
  destruct (clear_run (St:=St) efs ino v di Hv Hi Hbm Hs Hnb Hall) as (vf & di' & new & Hrun & Hf & _ & _ & _ & _ & Hat & Hs' & Ht').
  eexists _, vf, di'. split; [exact Hrun|]. split; [done|]. split; [by rewrite lookup_total_insert_eq|by split].
Qed.

(** ** Concrete runs *)

(** Four blocks: the directory inode in block 1, the data bitmap in block 2, and
    block 3, its one data block, with the entries "a" and "bc". *)
Definition demo_dir : DiskInode := mkDiskInode 64 (3 :: replicate 27 0) 0 0 Directory.
Definition demo_ents : list (list Z * Z) := [([97], 1); ([98; 99], 2)].
Definition dir_image : list Z :=
  replicate 512 0 ++ (DiskInode_encode demo_dir (replicate 128 0) ++ replicate 384 0) ++
  (1 :: replicate 511 0) ++
  ((demo_ents ≫= λ e, DirEntry_as_bytes (entry e)) ++ replicate 448 0).
Definition dir_view : gmap Z (list Z) := cache_view (boot dir_image).
Definition demo_efs : EasyFileSystem := mkEfs (mkBitmap 0 0) (mkBitmap 2 1) 1 3.
Definition demo_root : Inode := mkInode 1 0.

Lemma dir_image_ok : bytes dir_image ∧ Z.of_nat (length dir_image) < 2 ^ 40.
Proof.
  split; [|vm_compute; reflexivity].
  apply (bool_decide_unpack (bytes dir_image)). vm_compute. exact I.
Qed.

Lemma dir_view_ok : view_ok dir_view.
Proof. apply boot_view_ok; apply dir_image_ok. Qed.

Lemma demo_dir_ids : all_ids demo_dir dir_view = [3].
Proof. vm_compute. reflexivity. Qed.

Lemma demo_root_at : inode_at demo_root dir_view demo_dir.
Proof.
  split.
  - vm_compute. split; discriminate.
  - vm_compute. by eexists.
  - vm_compute. reflexivity.
  - split; [|split; [|split]].
    + split; [done|]. split; [done|]. split; [|done]. by repeat constructor.
    + vm_compute. discriminate.
    + rewrite demo_dir_ids. apply NoDup_singleton.
    + rewrite demo_dir_ids. apply present_bool. vm_compute. reflexivity.
  - rewrite demo_dir_ids. rewrite list_elem_of_singleton. done.
Qed.

Lemma demo_is_directory : is_directory demo_dir dir_view demo_ents.
Proof.
  split; [done|]. split; [vm_compute; reflexivity|].
  repeat constructor; try done; cbn [fst]; rewrite ?not_elem_of_cons;
    try (split; [done|]); try apply not_elem_of_nil; try (split; [done|]);
    try apply not_elem_of_nil; vm_compute; lia.
Qed.

Lemma directory_lookup_witness :
  (∃ s', ls demo_root (boot dir_image) = Ok ([[97]; [98; 99]], s')) ∧
  (∃ s', find demo_efs demo_root [98; 99] (boot dir_image) = Ok (Some (mkInode 1 256), s')).
Proof.
  destruct (directory_lookup (St:=CacheState BlockFile) demo_efs demo_root dir_view demo_dir
    demo_ents [98; 99] dir_view_ok demo_root_at demo_is_directory) as [Hls Hfind].
  destruct (boot_runs _ dir_image _ _ (proj1 dir_image_ok) (proj2 dir_image_ok) Hls) as (s1 & E1 & _).
  destruct (boot_runs _ dir_image _ _ (proj1 dir_image_ok) (proj2 dir_image_ok) Hfind) as (s2 & E2 & _).
  split; [exists s1; exact E1|exists s2; exact E2].
Defined.

Lemma clear_frees_witness :
  ∃ s', Inode_clear demo_efs demo_root (boot dir_image) = Ok (tt, s').
Proof.
  destruct (clear_frees (St:=CacheState BlockFile) demo_efs demo_root dir_view demo_dir
    dir_view_ok demo_root_at) as (v' & vf & di' & Hrun & _).
  - split_and!; [done..|]. intros b Hb. unfold bm_block in Hb. simpl in Hb.
    replace b with 2 by lia. vm_compute. by eexists.
  - done.
  - unfold bm_block. simpl. lia.
  - intros b. rewrite demo_dir_ids, list_elem_of_singleton. intros ->.
    split_and!; try done. unfold bm_block. simpl. lia.
  - destruct (boot_runs _ dir_image _ v' (proj1 dir_image_ok) (proj2 dir_image_ok) Hrun) as (s' & E & _).
    exists s'. exact E.
Defined.
