(* ===== verification/VfsSpec.v ===== *)
(** * Files and directories that grow (easy-fs/src/vfs.rs)

    [Inode::write_at] and [Inode::create] take blocks and inodes from the bitmaps
    of the file system.  This file shows what they do to the file, to the
    directory, to the bitmaps, and that they do nothing to other files. *)

From S2P Require Import Prelude Bytes BlockStore BlockCache BlockFile Bitmap Layout Inode.
From S2P Require Import InodeSpec InodeData Efs Vfs.
From Stdlib Require Import ZifyNat.

Lemma bind_ext_in {A B} (f g : A → list B) l : (∀ x, x ∈ l → f x = g x) → l ≫= f = l ≫= g.
Proof.
  induction l as [|x l IH]; intros E; [done|]. cbn [mbind list_bind].
  rewrite (E x) by apply list_elem_of_here. f_equal. apply IH. intros y Hy. apply E. by apply list_elem_of_further.
Qed.

(** ** Taking data blocks *)

(** The clear bits of a bitmap, the lowest first. *)
Definition free_bits (bm : Bitmap) (v : gmap Z (list Z)) : list Z :=
  filter (λ k, bit bm v k = false) (seqZ 0 (maximum bm)).

Lemma filter_seqZ_first (P : Z → Prop) `{∀ k, Decision (P k)} n a k ks :
  filter P (seqZ a (Z.of_nat n)) = k :: ks → ∀ j, a ≤ j < k → ¬ P j.
Proof.
  revert a. induction n as [|n IH]; intros a E j Hj; [done|].
  rewrite seqZ_cons in E by lia. replace (Z.pred (Z.of_nat (S n))) with (Z.of_nat n) in E by lia.
  rewrite filter_cons in E. case_decide as Ha.
  - injection E as <- _. lia.
  - destruct (decide (j = a)) as [->|]; [done|]. apply (IH _ E). lia.
Qed.

Lemma elem_of_free_bits bm v k : k ∈ free_bits bm v ↔ 0 ≤ k < maximum bm ∧ bit bm v k = false.
Proof. unfold free_bits. rewrite list_elem_of_filter, elem_of_seqZ. naive_solver lia. Qed.

Lemma NoDup_free_bits bm v : NoDup (free_bits bm v).
Proof. apply NoDup_filter, NoDup_seqZ. Qed.

Lemma free_bits_first bm v k ks : 0 ≤ maximum bm → free_bits bm v = k :: ks → first_free bm v k.
Proof.
  intros Hm E. assert (Hk : k ∈ free_bits bm v) by (rewrite E; apply list_elem_of_here).
  apply elem_of_free_bits in Hk as [Hr Hb]. split; [done|]. split; [done|]. intros j Hj.
  unfold free_bits in E. rewrite <- (Z2Nat.id (maximum bm)) in E by done.
  pose proof (filter_seqZ_first _ _ _ _ _ E j ltac:(lia)) as Hn. by apply not_false_is_true.
Qed.

Lemma free_bits_take bm v k ks :
  view_ok v → bm_ok bm v → free_bits bm v = k :: ks → free_bits bm (set_bit bm k true v) = ks.
Proof.
  intros Hv Hok E. assert (Hk : k ∈ free_bits bm v) by (rewrite E; apply list_elem_of_here).
  apply elem_of_free_bits in Hk as [Hr _]. pose proof (NoDup_free_bits bm v) as Hnd. rewrite E in Hnd.
  apply NoDup_cons in Hnd as [Hks _].
  transitivity (filter (λ j, j ≠ k) (free_bits bm v)).
  - unfold free_bits. rewrite list_filter_filter. apply filter_ext_in. intros j Hj%elem_of_seqZ.
    rewrite bit_set_bit by (done || lia). case_decide; naive_solver.
  - rewrite E, filter_cons_False by (by intros []). apply filter_all. intros j Hj ->. done.
Qed.

(** The bits [ks] are set now; apart from the bitmap nothing has changed. *)
Record took (bm : Bitmap) (ks : list Z) (v v' : gmap Z (list Z)) : Prop := {
  tk_bits k : 0 ≤ k < maximum bm → bit bm v' k = (bit bm v k || bool_decide (k ∈ ks));
  tk_frame b : ¬ bm_block bm b → v' !! b = v !! b;
  tk_view : view_ok v';
  tk_bm : bm_ok bm v';
}.

Section alloc.
Context {St : Type} `{HS : BlockStore St, HL : !BlockStoreLaws St}.
Context (efs : EasyFileSystem) (h : gset Z).
Context (Hh : ∀ b, bm_block (data_bitmap efs) b → b ∉ h) (Hcap : (size h < BLOCK_CACHE_SIZE)%nat).
Context (Hs : 0 ≤ data_area_start_block efs).

Lemma took_cons k ks v v' :
  view_ok v → bm_ok (data_bitmap efs) v → 0 ≤ k < maximum (data_bitmap efs) →
  took (data_bitmap efs) ks (set_bit (data_bitmap efs) k true v) v' → took (data_bitmap efs) (k :: ks) v v'.
Proof.
  intros Hv Hok Hk [Hb Hf Hv' Hok']. split; try done.
  - intros j Hj. rewrite Hb, bit_set_bit by done. case_decide as E.
    + subst j. rewrite (bool_decide_true (k ∈ k :: ks)) by apply list_elem_of_here. by rewrite orb_true_r.
    + f_equal. apply bool_decide_ext. rewrite elem_of_cons. naive_solver.
  - intros b Hbb. rewrite Hf by done. apply set_bit_lookup_ne. intros ->. apply Hbb, block_of_range.
    by rewrite <- (bm_ok_maximum _ _ Hok).
Qed.

Lemma alloc_many_run n v acc :
  view_ok v → bm_ok (data_bitmap efs) v → (n ≤ length (free_bits (data_bitmap efs) v))%nat →
  (∀ k, k ∈ take n (free_bits (data_bitmap efs) v) → data_area_start_block efs + k < 2 ^ 32) →
  let ks := take n (free_bits (data_bitmap efs) v) in
  ∃ v', runs (alloc_many (St:=St) efs n acc) v h (acc ++ (Z.add (data_area_start_block efs) <$> ks)) v' ∧
        took (data_bitmap efs) ks v v'.
Proof.
  revert v acc. induction n as [|n IH]; intros v acc Hv Hok Hn Hr ks; cbn [alloc_many].
  { exists v. unfold ks. rewrite take_0. cbn [fmap list_fmap]. rewrite app_nil_r. split; [apply runs_ret|].
    split; try done. intros k Hk. rewrite bool_decide_false; [by rewrite orb_false_r|apply not_elem_of_nil]. }
  destruct (free_bits (data_bitmap efs) v) as [|k l] eqn:E; [cbn [length] in Hn; lia|].
  assert (Hm : 0 ≤ maximum (data_bitmap efs)).
  { rewrite (bm_ok_maximum _ _ Hok). destruct Hok as (_ & ? & _). unfold BLOCK_BITS. lia. }
  pose proof (free_bits_first _ _ _ _ Hm E) as Hff. pose proof (free_bits_take _ _ _ _ Hv Hok E) as E'.
  assert (Hk : 0 ≤ k < maximum (data_bitmap efs)) by apply Hff.
  assert (Hk32 : data_area_start_block efs + k < 2 ^ 32) by (apply Hr; apply list_elem_of_here).
  destruct (IH (set_bit (data_bitmap efs) k true v) (acc ++ [data_area_start_block efs + k])) as (v' & Hrun & Ht).
  { by apply set_bit_view_ok. } { by apply bm_ok_set_bit. } { rewrite E'. cbn [length] in Hn. lia. }
  { rewrite E'. intros j Hj. apply Hr. by apply list_elem_of_further. }
  rewrite E' in *. exists v'. unfold ks. cbn [take fmap list_fmap]. split; [|by apply took_cons].
  eapply runs_bind; [by apply alloc_data_run|]. by rewrite <- app_assoc in Hrun.
Qed.
End alloc.

(** ** Files *)

(** The file system as a whole: where the data area is. *)
Record disk_ok (efs : EasyFileSystem) (v : gmap Z (list Z)) : Prop := {
  dk_view : view_ok v;
  dk_bm : bm_ok (data_bitmap efs) v;
  dk_area : start_block_id (data_bitmap efs) + blocks (data_bitmap efs) ≤ data_area_start_block efs;
}.

(** A file: its disk inode lies below the data bitmap, and its blocks are
    allocated. *)
Record file_at (efs : EasyFileSystem) (ino : Inode) (v : gmap Z (list Z)) (di : DiskInode) : Prop := {
  fa_at : inode_at ino v di;
  fa_block : 0 ≤ block_id ino < start_block_id (data_bitmap efs);
  fa_alloc b : b ∈ all_ids di v → allocated efs v b;
}.

(** The next [n] free data blocks are blocks of the disk. *)
Definition available (efs : EasyFileSystem) (v : gmap Z (list Z)) (n : nat) : Prop :=
  (n ≤ length (free_bits (data_bitmap efs) v))%nat ∧
  ∀ k, k ∈ take n (free_bits (data_bitmap efs) v) →
    data_area_start_block efs + k < 2 ^ 32 ∧ is_Some (v !! (data_area_start_block efs + k)).

Definition blocks_for (di : DiskInode) (new_size : Z) : nat :=
  Z.to_nat (total_blocks new_size - total_blocks (di_size di)).

Lemma disk_start efs v : disk_ok efs v → 0 ≤ data_area_start_block efs.
Proof. intros [_ (? & ? & _) ?]. lia. Qed.

Lemma data_not_bm efs v k : disk_ok efs v → 0 ≤ k → ¬ bm_block (data_bitmap efs) (data_area_start_block efs + k).
Proof. intros [_ _ Ha] Hk. unfold bm_block. lia. Qed.

Lemma allocated_data efs v b : allocated efs v b → data_area_start_block efs ≤ b.
Proof. intros (Hk & _). lia. Qed.

Section grow.
Context {St : Type} `{HS : BlockStore St, HL : !BlockStoreLaws St}.
Context (efs : EasyFileSystem) (ino : Inode) (v : gmap Z (list Z)) (di : DiskInode) (new_size : Z).
Context (Hdisk : disk_ok efs v) (Hfile : file_at efs ino v di).
Context (Hnew : di_size di ≤ new_size ≤ MAX_SIZE) (Havail : available efs v (blocks_for di new_size)).
Let h : gset Z := {[block_id ino]} ∪ ∅.
Let ks := take (blocks_for di new_size) (free_bits (data_bitmap efs) v).
Let nb := Z.add (data_area_start_block efs) <$> ks.

Lemma grow_free k : k ∈ ks → 0 ≤ k < maximum (data_bitmap efs) ∧ bit (data_bitmap efs) v k = false.
Proof. intros Hk. apply elem_of_free_bits. by eapply elem_of_take_weak. Qed.

Lemma grow_blocks b : b ∈ nb ↔ ∃ k, b = data_area_start_block efs + k ∧ k ∈ ks.
Proof. unfold nb. by rewrite list_elem_of_fmap. Qed.

Lemma grow_fresh : NoDup (all_ids di v ++ nb).
Proof.
  apply NoDup_app. split; [apply (ia_wf _ _ _ (fa_at _ _ _ _ Hfile))|]. split.
  - intros b Hb (k & -> & Hk)%grow_blocks. apply (fa_alloc _ _ _ _ Hfile) in Hb as (_ & Hbit & _).
    apply grow_free in Hk as [_ Hk]. replace (_ + k - _) with k in Hbit by lia. congruence.
  - apply NoDup_fmap_2; [intros x y; lia|]. pose proof (NoDup_free_bits (data_bitmap efs) v) as Hnd.
    rewrite <- (take_drop (blocks_for di new_size)) in Hnd. by apply NoDup_app in Hnd as [? _].
Qed.

Lemma grow_u32 : Forall is_u32 (all_ids di v ++ nb).
Proof.
  pose proof (disk_start _ _ Hdisk) as Hs. apply Forall_forall. intros b [Hb|(k & -> & Hk)%grow_blocks]%elem_of_app.
  - apply (fa_alloc _ _ _ _ Hfile) in Hb as (? & _ & ? & _). unfold is_u32. lia.
  - destruct Havail as [_ Hav]. destruct (Hav k Hk) as [? _]. apply grow_free in Hk. unfold is_u32. lia.
Qed.

Lemma not_held b : data_area_start_block efs ≤ b ∨ bm_block (data_bitmap efs) b → b ∉ h.
Proof.
  intros Hb. unfold h. rewrite union_empty_r_L, elem_of_singleton. intros ->.
  pose proof (fa_block _ _ _ _ Hfile). pose proof (dk_area _ _ Hdisk). pose proof (dk_bm _ _ Hdisk) as (? & ? & _).
  unfold bm_block in Hb. lia.
Qed.

Lemma held_small : (2 + size h ≤ BLOCK_CACHE_SIZE)%nat.
Proof. unfold h. rewrite union_empty_r_L, size_singleton. vm_compute. lia. Qed.

(** A change of the bitmap keeps the blocks of the file. *)
Lemma took_ids v1 : took (data_bitmap efs) ks v v1 → data_ids (nblocks di) di v1 = data_ids (nblocks di) di v ∧
  all_ids di v1 = all_ids di v ∧ inode_wf di v1.
Proof.
  intros Ht. assert (Hfr : ∀ b, b ∈ all_ids di v → v1 !! b = v !! b).
  { intros b Hb. apply (tk_frame _ _ _ _ Ht). by apply (fa_alloc _ _ _ _ Hfile) in Hb as (_ & _ & _ & ? & _). }
  destruct (ids_frame (nblocks di) di v v1) as [E1 E2].
  { intros b Hb. apply Hfr, elem_of_app. by right. }
  assert (E : all_ids di v1 = all_ids di v) by (unfold all_ids; by rewrite E1, E2).
  split; [done|]. split; [done|]. destruct (ia_wf _ _ _ (fa_at _ _ _ _ Hfile)) as (Hok & Hsz & Hnd & Hin).
  split; [done|]. split; [done|]. rewrite E. split; [done|]. intros b Hb. rewrite Hfr by done. auto.
Qed.

Lemma increase_run :
  ∃ di' v1 v', runs (Inode_increase_size (St:=St) efs new_size di) v h di' v' ∧
    took (data_bitmap efs) ks v v1 ∧ grown di v1 new_size nb di' v' ∧ inode_wf di' v'.
Proof.
  pose proof (fa_at _ _ _ _ Hfile) as Hat. destruct (ia_wf _ _ _ Hat) as ((Hu & _) & Hsz & _).
  unfold is_u32 in Hu.
  assert (Hdiff : 0 ≤ total_blocks new_size - total_blocks (di_size di) < 2 ^ 32).
  { rewrite !total_blocks_nall by lia.
    pose proof (nall_le (Z.to_nat (_data_blocks new_size))).
    pose proof (data_blocks_bound new_size ltac:(lia)). pose proof (data_blocks_mono (di_size di) new_size ltac:(lia)).
    pose proof (nall_mono (Z.to_nat (_data_blocks (di_size di))) (Z.to_nat (_data_blocks new_size)) ltac:(lia)). lia. }
  assert (Hneed : blocks_num_needed di new_size = Ok (total_blocks new_size - total_blocks (di_size di))).
  { unfold blocks_num_needed. rewrite (proj2 (Z.leb_le _ _)) by lia. mstep. f_equal. by apply u32_small. }
  destruct Havail as [Hlen Hav].
  destruct (alloc_many_run (St:=St) efs h (λ b Hb, not_held b (or_intror Hb)) ltac:(pose proof held_small; lia)
    (disk_start _ _ Hdisk) (blocks_for di new_size) v []) as (v1 & Hrun1 & Ht).
  { apply Hdisk. } { apply Hdisk. } { done. } { intros k Hk. by apply Hav. }
  fold ks nb in Hrun1, Ht. destruct (took_ids v1 Ht) as (_ & Eids & Hwf1).
  destruct (increase_wf_run (St:=St) di v1 h new_size (total_blocks new_size - total_blocks (di_size di)) nb)
    as (di' & v' & Hrun2 & Hg & Hwf'); try done.
  { apply Ht. } { lia. } { unfold nb, ks. rewrite length_fmap, length_take. unfold blocks_for in *. lia. }
  { rewrite Eids. apply grow_fresh. } { rewrite Eids. apply grow_u32. }
  { intros b (k & -> & Hk)%grow_blocks. destruct (Hav k Hk) as [_ Hb].
    rewrite (tk_frame _ _ _ _ Ht); [done|]. apply (data_not_bm _ v); [done|]. apply grow_free in Hk. lia. }
  { rewrite Eids. split; [|apply held_small]. intros b Hb. apply not_held. left.
    apply elem_of_app in Hb as [Hb|(k & -> & Hk)%grow_blocks]; [by eapply allocated_data, Hfile|].
    apply grow_free in Hk. lia. }
  exists di', v1, v'. split; [|done]. unfold Inode_increase_size. rewrite (proj2 (Z.ltb_ge _ _)) by lia.
  eapply runs_bind; [by apply runs_lift|]. eapply runs_bind; [exact Hrun1|exact Hrun2].
Qed.

(** The bytes of the file stay at the front of its blocks. *)
Lemma grown_bytes v1 di' v' :
  took (data_bitmap efs) ks v v1 → grown di v1 new_size nb di' v' → inode_wf di' v' →
  all_bytes di v `prefix_of` all_bytes di' v'.
Proof.
  intros Ht Hg Hwf'. destruct (took_ids v1 Ht) as (Ed & Ea & _).
  destruct (grown_prefix _ _ _ _ _ _ Hg) as [rest Er]. rewrite Ed in Er.
  unfold all_bytes. rewrite Er, bind_app. exists (rest ≫= λ b, v' !!! b). f_equal.
  apply bind_ext_in. intros b Hb. rewrite !lookup_total_alt. f_equal.
  rewrite (grown_frame _ _ _ _ _ _ Hg).
  - apply (tk_frame _ _ _ _ Ht).
    assert (Hin : b ∈ all_ids di v) by (apply elem_of_app; by left).
    by apply (fa_alloc _ _ _ _ Hfile) in Hin as (_ & _ & _ & ? & _).
  - apply data_not_index; [done|]. rewrite Er. apply elem_of_app. by left.
Qed.
End grow.

(** ** Writing *)

(** What an operation on the file [ino] may change. *)
Record file_changed (efs : EasyFileSystem) (ino : Inode) (v : gmap Z (list Z)) (di : DiskInode)
    (v' : gmap Z (list Z)) (di' : DiskInode) : Prop := {
  fc_file : file_at efs ino v' di';
  fc_disk : disk_ok efs v';
  fc_type : type_ di' = type_ di;
  fc_own b : b ∈ all_ids di v → b ∈ all_ids di' v';
  fc_new b : b ∈ all_ids di' v' → b ∈ all_ids di v ∨ bit (data_bitmap efs) v (b - data_area_start_block efs) = false;
  fc_bits k : 0 ≤ k < maximum (data_bitmap efs) →
    bit (data_bitmap efs) v' k =
      (bit (data_bitmap efs) v k || bool_decide (data_area_start_block efs + k ∈ all_ids di' v'));
  fc_frame b : b ≠ block_id ino → ¬ bm_block (data_bitmap efs) b → (b ∉ all_ids di' v') → v' !! b = v !! b;
  fc_block : ∃ new, length new = DiskInode_SZ ∧
    v' !!! block_id ino = splice (Z.to_nat (block_offset ino)) new (v !!! block_id ino);
}.

(** The file [di] of view [v] after it has grown to [off + length buf], if it was
    shorter, and [buf] has been written at [off]: the data blocks [ks] are taken. *)
Record grew (efs : EasyFileSystem) (v : gmap Z (list Z)) (di : DiskInode) (off : Z) (buf ks : list Z)
    (di' : DiskInode) (v' : gmap Z (list Z)) : Prop := {
  gw_wf : inode_wf di' v';
  gw_view : view_ok v';
  gw_bm : bm_ok (data_bitmap efs) v';
  gw_size : di_size di' = Z.max (di_size di) (off + Z.of_nat (length buf));
  gw_type : type_ di' = type_ di;
  gw_ids : all_ids di' v' ≡ₚ all_ids di v ++ (Z.add (data_area_start_block efs) <$> ks);
  gw_bits k : 0 ≤ k < maximum (data_bitmap efs) →
    bit (data_bitmap efs) v' k = (bit (data_bitmap efs) v k || bool_decide (k ∈ ks));
  gw_frame b : ¬ bm_block (data_bitmap efs) b → (b ∉ all_ids di' v') → v' !! b = v !! b;
  gw_dom b : is_Some (v !! b) → is_Some (v' !! b);
  gw_bytes : ∃ rest, (Z.to_nat off + length buf ≤ length (all_bytes di v ++ rest))%nat ∧
    all_bytes di' v' = splice (Z.to_nat off) buf (all_bytes di v ++ rest);
}.

Section write.
Context {St : Type} `{HS : BlockStore St, HL : !BlockStoreLaws St}.
Context (efs : EasyFileSystem) (ino : Inode) (v : gmap Z (list Z)) (di : DiskInode) (off : Z) (buf : list Z).
Context (Hdisk : disk_ok efs v) (Hfile : file_at efs ino v di).
Context (Ho : 0 ≤ off) (Hne : buf ≠ []) (Hbuf : bytes buf) (Hmax : off + Z.of_nat (length buf) ≤ MAX_SIZE).
Let req := off + Z.of_nat (length buf).
Let sz := Z.max (di_size di) req.
Context (Havail : available efs v (blocks_for di sz)).
Let h : gset Z := {[block_id ino]} ∪ ∅.
Let ks := take (blocks_for di sz) (free_bits (data_bitmap efs) v).
Let nb := Z.add (data_area_start_block efs) <$> ks.

Lemma size_bounds : 0 ≤ di_size di ≤ MAX_SIZE.
Proof. destruct (ia_wf _ _ _ (fa_at _ _ _ _ Hfile)) as ((Hu & _) & Hs & _). unfold is_u32 in Hu. unfold MAX_SIZE. lia. Qed.

Lemma increase_max_run :
  ∃ di' v1 v', runs (Inode_increase_size (St:=St) efs req di) v h di' v' ∧
    took (data_bitmap efs) ks v v1 ∧ grown di v1 sz nb di' v' ∧ inode_wf di' v'.
Proof.
  pose proof size_bounds as Hsz. destruct (Z.lt_ge_cases req (di_size di)) as [Hlt|Hge].
  - assert (Es : sz = di_size di) by (unfold sz; lia).
    assert (Ek : ks = []) by (unfold ks, blocks_for; rewrite Es, Z.sub_diag; apply take_0).
    exists di, v, v. unfold nb. rewrite Ek, Es. cbn [fmap list_fmap].
    assert (Hwf := ia_wf _ _ _ (fa_at _ _ _ _ Hfile)). split; [|split; [|split; [|done]]].
    + unfold Inode_increase_size. rewrite (proj2 (Z.ltb_lt _ _)) by done. apply runs_ret.
    + split; try done; try apply Hdisk. intros k _. rewrite bool_decide_false by apply not_elem_of_nil.
      by rewrite orb_false_r.
    + split; try done; [apply Hwf|by rewrite app_nil_r|apply Hdisk].
  - assert (Es : sz = req) by (unfold sz; lia). unfold nb, ks. rewrite <- Es.
    apply increase_run; [done..|unfold sz, req in *; lia|done].
Qed.

Lemma grow_write_run :
  ∃ di' v' v2, runs (Inode_increase_size (St:=St) efs req di) v h di' v' ∧
    runs (InodeData.write_at (St:=St) di' off buf) v' h (Z.of_nat (length buf)) v2 ∧
    grew efs v di off buf ks di' v2.
Proof.
  pose proof size_bounds as Hsz. assert (Hlen : (0 < length buf)%nat) by (destruct buf; [done|cbn; lia]).
  destruct increase_max_run as (di' & v1 & v' & Hrun1 & Ht & Hg & Hwf').
  assert (Hszb : di_size di ≤ sz ≤ MAX_SIZE) by (unfold sz, req; lia).
  destruct (took_ids efs ino v di sz Hfile v1 Ht) as (_ & Eids & _).
  pose proof (grown_bytes efs ino v di sz Hfile v1 di' v' Ht Hg Hwf') as [rest Erest].
  pose proof (grown_perm _ _ _ _ _ _ Hg) as Hperm. rewrite Eids in Hperm.
  assert (Esz := grown_size _ _ _ _ _ _ Hg).
  assert (Hdata : ∀ b, b ∈ all_ids di' v' → data_area_start_block efs ≤ b ∧ ¬ bm_block (data_bitmap efs) b).
  { intros b. rewrite Hperm. intros [Hb|(k & -> & Hk)%grow_blocks]%elem_of_app.
    - pose proof (fa_alloc _ _ _ _ Hfile b Hb) as Hal. split; [by eapply allocated_data|apply Hal].
    - apply grow_free in Hk as [? _]. split; [lia|]. apply (data_not_bm _ v); [done|lia]. }
  assert (Hroom : room (all_ids di' v') h).
  { split; [|apply held_small]. intros b Hb. apply (not_held efs ino v di Hdisk Hfile). left. by apply Hdata. }
  unfold MAX_SIZE, INDIRECT2_BOUND, BSZ in Hmax.
  destruct (write_at_run (St:=St) di' v' h off buf Hwf' Hroom Ho ltac:(lia) (grown_view _ _ _ _ _ _ Hg) Hbuf)
    as (v2 & Hrun2 & Hbytes & Hwf2 & Hv2 & Eids2 & Hfr2); [unfold sz, req in *; lia|].
  assert (Hin : inside di' off buf = length buf) by (unfold inside, sz, req in *; lia).
  rewrite Hin in *. rewrite take_ge, Erest in Hbytes by lia.
  exists di', v', v2. split; [done|]. split; [done|].
  assert (Hfr : ∀ b, (b ∉ all_ids di' v') → v2 !! b = v1 !! b).
  { intros b Hb. apply not_elem_of_app in Hb as [Hb1 Hb2]. rewrite Hfr2 by done. by apply (grown_frame _ _ _ _ _ _ Hg). }
  assert (Hbmf : ∀ b, bm_block (data_bitmap efs) b → v2 !! b = v1 !! b).
  { intros b Hb. apply Hfr. by intros [_ ?]%Hdata. }
  destruct (tk_bm _ _ _ _ Ht) as (Hb1 & Hb2 & Hb3 & Hb4).
  split; try done; rewrite ?Eids2; try done.
  - split; [done|]. split; [done|]. split; [done|]. intros b Hb. rewrite Hbmf by done. auto.
  - apply Hg.
  - intros k Hk. rewrite <- (tk_bits _ _ _ _ Ht) by done. apply bit_ext, Hbmf, block_of_range.
    by rewrite <- (bm_ok_maximum _ _ (tk_bm _ _ _ _ Ht)).
  - intros b Hb Hn. rewrite Hfr by done. by apply (tk_frame _ _ _ _ Ht).
  - intros b Hb. destruct (decide (b ∈ all_ids di' v')) as [Hi|Hi].
    + apply Hwf2. by rewrite Eids2.
    + rewrite Hfr by done. destruct (decide (start_block_id (data_bitmap efs) ≤ b < start_block_id (data_bitmap efs) +
        blocks (data_bitmap efs))) as [Hbb|Hbb]; [by apply Hb4|]. by rewrite (tk_frame _ _ _ _ Ht).
  - exists rest. split; [|done]. rewrite <- Erest, (length_all_bytes di' v' (grown_view _ _ _ _ _ _ Hg) Hwf').
    pose proof (nblocks_size di' v' Hwf'). unfold sz, req in *. lia.
Qed.
End write.

(** Changes elsewhere keep the bytes of a file. *)
Lemma file_frame di v v' :
  (∀ b, b ∈ all_ids di v → v' !! b = v !! b) → inode_wf di v →
  all_ids di v' = all_ids di v ∧ all_bytes di v' = all_bytes di v ∧ inode_wf di v'.
Proof.
  intros Hf Hwf. destruct (ids_frame (nblocks di) di v v') as [E1 E2].
  { intros b Hb. apply Hf, elem_of_app. by right. }
  assert (E : all_ids di v' = all_ids di v) by (unfold all_ids; by rewrite E1, E2).
  split; [done|]. split.
  - unfold all_bytes. rewrite E1. apply bind_ext_in. intros b Hb. rewrite !lookup_total_alt, Hf; [done|].
    apply elem_of_app. by left.
  - destruct Hwf as (? & ? & Hnd & Hin). split; [done|]. split; [done|]. rewrite E. split; [done|].
    intros b Hb. rewrite Hf by done. auto.
Qed.

Section changed.
Context (efs : EasyFileSystem) (ino : Inode) (v : gmap Z (list Z)) (di : DiskInode) (off : Z) (buf : list Z) (n : nat).
Context (Hdisk : disk_ok efs v) (Hfile : file_at efs ino v di).
Let ks := take n (free_bits (data_bitmap efs) v).
Context (Hks : ∀ k, k ∈ ks → data_area_start_block efs + k < 2 ^ 32 ∧ is_Some (v !! (data_area_start_block efs + k))).
Context (di' : DiskInode) (v2 : gmap Z (list Z)) (Hgrew : grew efs v di off buf ks di' v2).

Lemma grew_elem b : b ∈ all_ids di' v2 ↔ b ∈ all_ids di v ∨ ∃ k, b = data_area_start_block efs + k ∧ k ∈ ks.
Proof. by rewrite (gw_ids _ _ _ _ _ _ _ _ Hgrew), elem_of_app, list_elem_of_fmap. Qed.

Lemma grew_data b : b ∈ all_ids di' v2 → allocated efs v2 b ∧ b ≠ block_id ino.
Proof.
  intros Hb. assert (Hsome : is_Some (v2 !! b)) by by apply Hgrew.
  assert (Hbd : data_area_start_block efs ≤ b ∧ 0 ≤ b - data_area_start_block efs < maximum (data_bitmap efs) ∧
    bit (data_bitmap efs) v2 (b - data_area_start_block efs) = true ∧ b < 2 ^ 32).
  { apply grew_elem in Hb as [Hb|(k & -> & Hk)].
    - destruct (fa_alloc _ _ _ _ Hfile b Hb) as (Hr & Hbit & H32 & _). split; [lia|]. split; [done|]. split; [|done].
      by rewrite (gw_bits _ _ _ _ _ _ _ _ Hgrew), Hbit.
    - assert (Hr : 0 ≤ k < maximum (data_bitmap efs)) by (apply elem_of_take_weak, elem_of_free_bits in Hk; tauto).
      replace (_ + k - _) with k by lia. split; [lia|]. split; [done|]. split; [|by apply Hks].
      rewrite (gw_bits _ _ _ _ _ _ _ _ Hgrew), bool_decide_true by done. apply orb_true_r. }
  pose proof (dk_area _ _ Hdisk). pose proof (fa_block _ _ _ _ Hfile). pose proof (dk_bm _ _ Hdisk) as (? & ? & _).
  split; [|lia]. split; [tauto|]. split; [tauto|]. split; [tauto|]. split; [|done]. unfold bm_block. lia.
Qed.

Lemma inode_not_bm : ¬ bm_block (data_bitmap efs) (block_id ino).
Proof. pose proof (fa_block _ _ _ _ Hfile). unfold bm_block. lia. Qed.

Lemma grew_inode_block : v2 !! block_id ino = v !! block_id ino.
Proof. apply (gw_frame _ _ _ _ _ _ _ _ Hgrew); [apply inode_not_bm|]. by intros [_ ?]%grew_data. Qed.

Lemma changed_intro blk new :
  v !! block_id ino = Some blk → length new = DiskInode_SZ → bytes new →
  let o := Z.to_nat (block_offset ino) in
  DiskInode_decode (slice o DiskInode_SZ (splice o new blk)) = di' →
  let v3 := <[block_id ino := splice o new blk]> v2 in
  file_changed efs ino v di v3 di' ∧ all_bytes di' v3 = all_bytes di' v2 ∧ all_ids di' v3 = all_ids di' v2.
Proof.
  intros E Hnl Hnb o Hdec v3. pose proof (ia_offset _ _ _ (fa_at _ _ _ _ Hfile)) as Ho.
  assert (E3 : ∀ b, b ≠ block_id ino → v3 !! b = v2 !! b) by (intros b Hb; by apply lookup_insert_ne).
  destruct (file_frame di' v2 v3) as (Eids & Ebytes & Hwf3); [intros b [_ ?]%grew_data; by apply E3|apply Hgrew|].
  assert (Hbm3 : ∀ k, 0 ≤ k < maximum (data_bitmap efs) → bit (data_bitmap efs) v3 k = bit (data_bitmap efs) v2 k).
  { intros k Hk. apply bit_ext, E3. intros Eb. apply inode_not_bm. rewrite <- Eb. apply block_of_range.
    by rewrite <- (bm_ok_maximum _ _ (gw_bm _ _ _ _ _ _ _ _ Hgrew)). }
  split; [|by split]. split; rewrite ?Eids.
  - split; [|apply Hfile|]; rewrite ?Eids.
    + split; rewrite ?Eids; [done|unfold v3; rewrite lookup_insert_eq; by eexists| |done|by intros [_ ?]%grew_data].
      unfold v3. by rewrite lookup_total_insert_eq.
    + intros b Hb. destruct (grew_data b Hb) as [(H1 & H2 & H3 & H4 & H5) Hne].
      split; [done|]. split; [by rewrite Hbm3|]. split; [done|]. split; [done|]. by rewrite E3.
  - destruct (gw_bm _ _ _ _ _ _ _ _ Hgrew) as (? & ? & ? & Hp). split; [|split; [done..|]|apply Hdisk].
    + intros b blk'. unfold v3. rewrite lookup_insert_Some. destruct (dk_view _ _ Hdisk _ _ E) as [Hl Hb].
      intros [[_ <-]|[_ Hb']]; [|by apply (gw_view _ _ _ _ _ _ _ _ Hgrew b)].
      rewrite length_splice by (rewrite Hnl, Hl; unfold o, DiskInode_SZ, BLOCK_SZ; lia). split; [done|].
      by apply bytes_splice.
    + split; [done|]. split; [done|]. intros b Hb. rewrite E3; [auto|]. intros ->. by apply inode_not_bm.
  - apply Hgrew.
  - intros b Hb. apply grew_elem. by left.
  - intros b [Hb|(k & -> & Hk)]%grew_elem; [by left|right]. replace (_ + k - _) with k by lia.
    by apply elem_of_take_weak, elem_of_free_bits in Hk as [_ ?].
  - intros k Hk. rewrite Hbm3, (gw_bits _ _ _ _ _ _ _ _ Hgrew) by done.
    destruct (bit (data_bitmap efs) v k) eqn:Eb; [done|]. cbn [orb]. apply bool_decide_ext. rewrite grew_elem. split.
    + intros Hin. right. by exists k.
    + intros [Hin|(k' & Ek & Hk')]; [|by replace k with k' by lia].
      apply (fa_alloc _ _ _ _ Hfile) in Hin as (_ & Hin & _). replace (_ + k - _) with k in Hin by lia. congruence.
  - intros b Hne Hnb' Hb. rewrite E3 by done. by apply (gw_frame _ _ _ _ _ _ _ _ Hgrew).
  - exists new. split; [done|]. unfold v3. by rewrite lookup_total_insert_eq, (lookup_total_correct _ _ _ E).
Qed.
End changed.

(** ** Other files *)

(** The disk inodes of two files do not overlap. *)
Definition inodes_apart (ino ino2 : Inode) : Prop :=
  block_id ino2 ≠ block_id ino ∨ block_offset ino2 + 128 ≤ block_offset ino ∨ block_offset ino + 128 ≤ block_offset ino2.

(** An operation on the file [ino] that touches its disk inode, the data bitmap
    and the data blocks [T]. *)
Record confined (efs : EasyFileSystem) (ino : Inode) (T : list Z) (v v' : gmap Z (list Z)) : Prop := {
  cf_slot : ∃ new, length new = DiskInode_SZ ∧
    v' !! block_id ino = Some (splice (Z.to_nat (block_offset ino)) new (v !!! block_id ino));
  cf_frame b : b ≠ block_id ino → ¬ bm_block (data_bitmap efs) b → (b ∉ T) → v' !! b = v !! b;
  cf_bits k : 0 ≤ k < maximum (data_bitmap efs) → (data_area_start_block efs + k ∉ T) →
    bit (data_bitmap efs) v k = true → bit (data_bitmap efs) v' k = true;
  cf_data b : b ∈ T → data_area_start_block efs ≤ b;
}.

Section other.
Context (efs : EasyFileSystem) (ino : Inode) (v : gmap Z (list Z)) (di : DiskInode) (v' : gmap Z (list Z)) (T : list Z).
Context (Hdisk : disk_ok efs v) (Hfile : file_at efs ino v di) (Hcf : confined efs ino T v v').

(** A disk inode elsewhere is as it was. *)
Lemma other_inode ino2 :
  inodes_apart ino ino2 → 0 ≤ block_id ino2 < start_block_id (data_bitmap efs) → 0 ≤ block_offset ino2 ≤ 384 →
  is_Some (v !! block_id ino2) →
  is_Some (v' !! block_id ino2) ∧
  slice (Z.to_nat (block_offset ino2)) DiskInode_SZ (v' !!! block_id ino2) =
    slice (Z.to_nat (block_offset ino2)) DiskInode_SZ (v !!! block_id ino2).
Proof.
  intros Hap Hb2 Ho2 Hs2. destruct (decide (block_id ino2 = block_id ino)) as [Eb|Hne].
  - rewrite Eb. destruct (cf_slot _ _ _ _ _ Hcf) as (new & Hl & En). split; [by eexists|].
    rewrite (lookup_total_correct _ _ _ En).
    pose proof (ia_offset _ _ _ (fa_at _ _ _ _ Hfile)) as Ho. destruct (ia_block _ _ _ (fa_at _ _ _ _ Hfile)) as [blk E].
    rewrite (lookup_total_correct _ _ _ E). destruct (dk_view _ _ Hdisk _ _ E) as [Hlen _].
    apply slice_splice_ne; [rewrite Hl, Hlen; unfold DiskInode_SZ, BLOCK_SZ; lia|].
    rewrite Hl. unfold DiskInode_SZ. destruct Hap as [?|?]; [done|lia].
  - assert (E : v' !! block_id ino2 = v !! block_id ino2).
    { apply (cf_frame _ _ _ _ _ Hcf); [done|unfold bm_block; lia|]. intros Hin%(cf_data _ _ _ _ _ Hcf).
      pose proof (dk_area _ _ Hdisk). pose proof (dk_bm _ _ Hdisk) as (? & ? & _). lia. }
    rewrite !lookup_total_alt, E. done.
Qed.

Lemma confined_file ino2 di2 :
  file_at efs ino2 v di2 → inodes_apart ino ino2 → (∀ b, b ∈ all_ids di2 v → b ∉ T) →
  file_at efs ino2 v' di2 ∧ content di2 v' = content di2 v ∧ all_ids di2 v' = all_ids di2 v.
Proof.
  intros Hf2 Hap Hdis. pose proof (fa_at _ _ _ _ Hf2) as Hat2.
  destruct (other_inode ino2 Hap (fa_block _ _ _ _ Hf2) (ia_offset _ _ _ Hat2) (ia_block _ _ _ Hat2)) as [Hs2 Hsl].
  assert (Hfr : ∀ b, b ∈ all_ids di2 v → v' !! b = v !! b).
  { intros b Hb. pose proof (fa_alloc _ _ _ _ Hf2 b Hb) as (Hk & Hbit & _ & Hnb & _).
    apply (cf_frame _ _ _ _ _ Hcf); [|done|by apply Hdis].
    intros ->. pose proof (fa_block _ _ _ _ Hfile). pose proof (dk_area _ _ Hdisk).
    pose proof (dk_bm _ _ Hdisk) as (? & ? & _). lia. }
  destruct (file_frame di2 v v' Hfr (ia_wf _ _ _ Hat2)) as (Eids & Ebytes & Hwf2).
  split; [|split; [unfold content; by rewrite Ebytes|done]]. split; [|apply Hf2|].
  - split; [apply Hat2|done| |done|rewrite Eids; apply Hat2]. rewrite Hsl. apply Hat2.
  - rewrite Eids. intros b Hb. destruct (fa_alloc _ _ _ _ Hf2 b Hb) as (Hk & Hbit & H32 & Hnb & Hs).
    split; [done|]. split; [|by rewrite Hfr]. apply (cf_bits _ _ _ _ _ Hcf); [done| |done].
    replace (_ + (b - _)) with b by lia. by apply Hdis.
Qed.
End other.

Lemma changed_confined efs ino v di v' di' : file_changed efs ino v di v' di' → confined efs ino (all_ids di' v') v v'.
Proof.
  intros Hch. pose proof (fc_file _ _ _ _ _ _ Hch) as Hf'. split.
  - destruct (fc_block _ _ _ _ _ _ Hch) as (new & Hl & E). exists new. split; [done|]. rewrite <- E.
    destruct (ia_block _ _ _ (fa_at _ _ _ _ Hf')) as [blk Eb]. by rewrite (lookup_total_correct _ _ _ Eb).
  - apply Hch.
  - intros k Hk _ Hb. by rewrite (fc_bits _ _ _ _ _ _ Hch), Hb.
  - intros b Hb. by apply (allocated_data efs v'), (fa_alloc _ _ _ _ Hf').
Qed.

Lemma other_file efs ino v di v' di' ino2 di2 :
  disk_ok efs v → file_at efs ino v di → file_changed efs ino v di v' di' →
  file_at efs ino2 v di2 → inodes_apart ino ino2 → (∀ b, b ∈ all_ids di2 v → b ∉ all_ids di v) →
  file_at efs ino2 v' di2 ∧ content di2 v' = content di2 v ∧ all_ids di2 v' = all_ids di2 v.
Proof.
  intros Hdisk Hfile Hch Hf2 Hap Hdis. apply (confined_file efs ino v di v' (all_ids di' v')); try done; [by eapply changed_confined|].
  intros b Hb [Hin|Hin]%(fc_new _ _ _ _ _ _ Hch); [by apply (Hdis b)|].
  pose proof (fa_alloc _ _ _ _ Hf2 b Hb) as (_ & Hbit & _). congruence.
Qed.

(** ** Contents after a write *)

Lemma written_content di v di' v' off buf ks efs :
  grew efs v di off buf ks di' v' → 0 ≤ off → inode_wf di v → view_ok v →
  slice (Z.to_nat off) (length buf) (content di' v') = buf ∧
  ∀ i, (i < Z.to_nat (di_size di))%nat → ¬ (off ≤ Z.of_nat i < off + Z.of_nat (length buf)) →
    content di' v' !! i = content di v !! i.
Proof.
  intros Hg Ho Hwf Hv. destruct (gw_bytes _ _ _ _ _ _ _ _ Hg) as (rest & Hlen & Eb). pose proof (gw_size _ _ _ _ _ _ _ _ Hg) as Es.
  pose proof (nblocks_size di' v' (gw_wf _ _ _ _ _ _ _ _ Hg)) as Hns.
  pose proof (length_all_bytes di' v' (gw_view _ _ _ _ _ _ _ _ Hg) (gw_wf _ _ _ _ _ _ _ _ Hg)) as Hlb.
  pose proof (length_all_bytes di v Hv Hwf) as Hl. pose proof (nblocks_size di v Hwf) as Hn.
  assert (0 ≤ di_size di) by (destruct Hwf as ((H0 & _) & _); apply H0).
  split.
  - rewrite slice_content by (done || lia). rewrite Eb. by apply slice_splice_eq.
  - intros i Hi Hout. unfold content. rewrite !lookup_take_lt by lia. rewrite Eb, lookup_splice by done.
    rewrite decide_False by lia. by rewrite lookup_app_l by lia.
Qed.

Section file_ops.
Context {St : Type} `{HS : BlockStore St, HL : !BlockStoreLaws St}.

Lemma file_read_run ino v di off buf :
  inode_at ino v di → 0 ≤ off → off + Z.of_nat (length buf) < 2 ^ 64 →
  let n := Nat.min (length buf) (Z.to_nat (di_size di) - Z.to_nat off) in
  runs (Inode_read_at (St:=St) ino off buf) v ∅
    (Z.of_nat n, splice 0 (slice (Z.to_nat off) n (all_bytes di v)) buf) v.
Proof.
  intros Hi Ho Hov n. unfold Inode_read_at. eapply read_disk_inode_run; [done|].
  by apply read_at_run; [apply Hi|apply inode_room|..].
Qed.

Lemma file_write_run efs ino v di off buf :
  disk_ok efs v → file_at efs ino v di → 0 ≤ off → buf ≠ [] → bytes buf →
  off + Z.of_nat (length buf) ≤ MAX_SIZE →
  available efs v (blocks_for di (Z.max (di_size di) (off + Z.of_nat (length buf)))) →
  let n := blocks_for di (Z.max (di_size di) (off + Z.of_nat (length buf))) in
  ∃ v' di' v2, settles (Inode_write_at (St:=St) efs ino off buf) v ∅ (Z.of_nat (length buf)) v' ∧
    file_changed efs ino v di v' di' ∧ grew efs v di off buf (take n (free_bits (data_bitmap efs) v)) di' v2 ∧
    all_bytes di' v' = all_bytes di' v2 ∧ all_ids di' v' = all_ids di' v2.
Proof.
  intros Hdisk Hfile Ho Hne Hbuf Hmax Hav. pose proof (fa_at _ _ _ _ Hfile) as Hat.
  destruct (grow_write_run (St:=St) efs ino v di off buf Hdisk Hfile Ho Hne Hbuf Hmax Hav)
    as (di' & v' & v2 & Hrun1 & Hrun2 & Hg).
  intros n. fold n in Hg, Hav. set (ks := take n _) in *.
  destruct (ia_block _ _ _ Hat) as [blk E].
  pose proof (grew_inode_block efs ino v di off buf n Hdisk Hfile (proj2 Hav) di' v2 Hg) as E2. rewrite E in E2.
  destruct (modify_disk_inode_run (St:=St) ino v di (λ di,
      di ← Inode_increase_size efs (u32 (off +ᵤ Z.of_nat (length buf))) di;
      n ← InodeData.write_at di off buf; mret (n, di)) (Z.of_nat (length buf)) di' v2 blk (dk_view _ _ Hdisk) Hat E)
    as (Hrun & Hnl & Hnb & Hdec).
  { unfold MAX_SIZE, INDIRECT2_BOUND, BSZ in Hmax. rewrite !(u64_small (off + _)), u32_small by lia.
    eapply runs_bind; [exact Hrun1|]. eapply runs_bind; [exact Hrun2|apply runs_ret]. }
  { exact E2. } { apply Hg. }
  destruct (changed_intro efs ino v di off buf n Hdisk Hfile (proj2 Hav) di' v2 Hg blk _ E Hnl Hnb Hdec) as (Hch & Eb & Ei).
  eexists _, di', v2. split; [|split; [exact Hch|split; [done|by split]]].
  eapply (settles_synced _ id). exact Hrun.
Qed.
End file_ops.

(** C19: [Inode::write_at] within the largest file size, with enough free data
    blocks on the disk, writes the whole buffer: the file ends where it ended or
    behind the buffer; the buffer is read back from there; the other bytes the
    file had are as before.  The file takes exactly the blocks it needs from the
    free ones.  No other file changes, neither its inode nor its contents, whether
    its inode shares a block with the inode of this file or not. *)
Theorem file_write_spec {St} `{HS : BlockStore St, HL : !BlockStoreLaws St} efs ino v di off buf :
  disk_ok efs v → file_at efs ino v di → 0 ≤ off → buf ≠ [] → bytes buf →
  off + Z.of_nat (length buf) ≤ MAX_SIZE →
  available efs v (blocks_for di (Z.max (di_size di) (off + Z.of_nat (length buf)))) →
  ∃ v' di', runs (Inode_write_at (St:=St) efs ino off buf) v ∅ (Z.of_nat (length buf)) v' ∧
    file_changed efs ino v di v' di' ∧ di_size di' = Z.max (di_size di) (off + Z.of_nat (length buf)) ∧
    (∀ buf0, length buf0 = length buf →
      runs (Inode_read_at (St:=St) ino off buf0) v' ∅ (Z.of_nat (length buf), buf) v') ∧
    (∀ i, (i < Z.to_nat (di_size di))%nat → ¬ (off ≤ Z.of_nat i < off + Z.of_nat (length buf)) →
      content di' v' !! i = content di v !! i) ∧
    (∀ ino2 di2, file_at efs ino2 v di2 → inodes_apart ino ino2 → (∀ b, b ∈ all_ids di2 v → b ∉ all_ids di v) →
      file_at efs ino2 v' di2 ∧ content di2 v' = content di2 v ∧ all_ids di2 v' = all_ids di2 v).
Proof.
  intros Hdisk Hfile Ho Hne Hbuf Hmax Hav.
  destruct (file_write_run (St:=St) efs ino v di off buf Hdisk Hfile Ho Hne Hbuf Hmax Hav)
    as (v' & di' & v2 & Hrun%settles_runs & Hch & Hg & Eb & _).
  pose proof (fa_at _ _ _ _ (fc_file _ _ _ _ _ _ Hch)) as Hat'.
  destruct (written_content di v di' v2 off buf _ efs Hg Ho) as [Hback Hold];
    [apply (ia_wf _ _ _ (fa_at _ _ _ _ Hfile))|apply Hdisk|].
  assert (Ec : content di' v' = content di' v2) by (unfold content; by rewrite Eb).
  pose proof (gw_size _ _ _ _ _ _ _ _ Hg) as Es.
  exists v', di'. split; [done|]. split; [done|]. split; [done|]. split; [|split].
  - intros buf0 Hl. unfold MAX_SIZE, INDIRECT2_BOUND, BSZ in Hmax.
    pose proof (file_read_run (St:=St) ino v' di' off buf0 Hat' Ho ltac:(lia)) as Hr. cbv zeta in Hr.
    rewrite Nat.min_l, Hl in Hr by lia. rewrite <- slice_content in Hr by (apply Hat' || lia || apply Hch).
    rewrite Ec, Hback, splice_all in Hr by done. exact Hr.
  - intros i Hi Hout. rewrite Ec. by apply Hold.
  - intros ino2 di2. by apply (other_file efs ino v di v' di').
Qed.

(** ** Creating a file *)

(** Nothing from the data bitmap on has changed. *)
Definition data_same (efs : EasyFileSystem) (v v' : gmap Z (list Z)) : Prop :=
  ∀ b, start_block_id (data_bitmap efs) ≤ b → v' !! b = v !! b.
(** The disk inode [ino] has not changed. *)
Definition inode_same (ino : Inode) (v v' : gmap Z (list Z)) : Prop :=
  is_Some (v' !! block_id ino) ∧
  slice (Z.to_nat (block_offset ino)) DiskInode_SZ (v' !!! block_id ino) =
    slice (Z.to_nat (block_offset ino)) DiskInode_SZ (v !!! block_id ino).

Lemma data_same_trans efs v1 v2 v3 : data_same efs v1 v2 → data_same efs v2 v3 → data_same efs v1 v3.
Proof. intros H1 H2 b Hb. by rewrite H2, H1. Qed.
Lemma inode_same_trans ino v1 v2 v3 : inode_same ino v1 v2 → inode_same ino v2 v3 → inode_same ino v1 v3.
Proof. intros [_ H1] [Hs H2]. split; [done|congruence]. Qed.

Section same.
Context (efs : EasyFileSystem) (v v' : gmap Z (list Z)) (Hdisk : disk_ok efs v) (Hsame : data_same efs v v').

Lemma same_bit k : 0 ≤ k < maximum (data_bitmap efs) → bit (data_bitmap efs) v' k = bit (data_bitmap efs) v k.
Proof.
  intros Hk. apply bit_ext, Hsame. rewrite (bm_ok_maximum _ _ (dk_bm _ _ Hdisk)) in Hk.
  apply block_of_range in Hk. unfold bm_block in Hk. lia.
Qed.

Lemma same_disk : view_ok v' → disk_ok efs v'.
Proof.
  intros Hv. destruct Hdisk as [_ (? & ? & ? & Hp) ?]. split; [done| |done]. split; [done|]. split; [done|].
  split; [done|]. intros b Hb. rewrite Hsame by (unfold bm_block in Hb; lia). auto.
Qed.

Lemma same_free : free_bits (data_bitmap efs) v' = free_bits (data_bitmap efs) v.
Proof. apply filter_ext_in. intros k Hk%elem_of_seqZ. rewrite same_bit by lia. done. Qed.

Lemma same_available n : available efs v n → available efs v' n.
Proof.
  intros [Hl Hk]. split; rewrite same_free; [done|]. intros k Hin. destruct (Hk k Hin) as [H32 Hs]. split; [done|].
  apply elem_of_take_weak, elem_of_free_bits in Hin as [? _]. rewrite Hsame; [done|].
  destruct Hdisk as [_ (? & ? & _) ?]. lia.
Qed.

Lemma same_alloc b : allocated efs v b → allocated efs v' b.
Proof.
  intros (Hk & Hbit & H32 & Hnb & Hs). split; [done|]. split; [by rewrite same_bit|]. split; [done|]. split; [done|].
  rewrite Hsame; [done|]. destruct Hdisk as [_ (? & ? & _) ?]. lia.
Qed.

Lemma same_file_ids ino di : file_at efs ino v di → all_ids di v' = all_ids di v ∧ all_bytes di v' = all_bytes di v.
Proof.
  intros Hf. destruct (file_frame di v v') as (? & ? & _); [|apply (ia_wf _ _ _ (fa_at _ _ _ _ Hf))|done].
  intros b Hb. apply (fa_alloc _ _ _ _ Hf), allocated_data in Hb. apply Hsame. destruct Hdisk as [_ (? & ? & _) ?]. lia.
Qed.

Lemma same_file ino di :
  file_at efs ino v di → inode_same ino v v' →
  file_at efs ino v' di ∧ all_bytes di v' = all_bytes di v ∧ all_ids di v' = all_ids di v.
Proof.
  intros Hf [Hs Hsl]. pose proof (fa_at _ _ _ _ Hf) as Hat.
  assert (Hfr : ∀ b, b ∈ all_ids di v → v' !! b = v !! b).
  { intros b Hb. apply (fa_alloc _ _ _ _ Hf), allocated_data in Hb. apply Hsame.
    destruct Hdisk as [_ (? & ? & _) ?]. lia. }
  destruct (file_frame di v v' Hfr (ia_wf _ _ _ Hat)) as (Eids & Ebytes & Hwf).
  split; [|done]. split; [|apply Hf|].
  - split; [apply Hat|done|rewrite Hsl; apply Hat|done|rewrite Eids; apply Hat].
  - rewrite Eids. intros b Hb. by apply same_alloc, Hf.
Qed.
End same.

(** Writing a slot of an inode block. *)
Lemma slot_write efs v ino blk new :
  view_ok v → v !! block_id ino = Some blk → length new = DiskInode_SZ → bytes new →
  0 ≤ block_offset ino ≤ 384 → block_id ino < start_block_id (data_bitmap efs) →
  let v' := <[block_id ino := splice (Z.to_nat (block_offset ino)) new blk]> v in
  view_ok v' ∧ data_same efs v v' ∧
  slice (Z.to_nat (block_offset ino)) DiskInode_SZ (v' !!! block_id ino) = new ∧
  ∀ ino2, inodes_apart ino ino2 → 0 ≤ block_offset ino2 ≤ 384 → is_Some (v !! block_id ino2) → inode_same ino2 v v'.
Proof.
  intros Hv E Hl Hb Ho Hlt v'. destruct (Hv _ _ E) as [Hbl Hbb].
  assert (Hfit : (Z.to_nat (block_offset ino) + length new ≤ length blk)%nat)
    by (rewrite Hl, Hbl; unfold DiskInode_SZ, BLOCK_SZ; lia).
  split; [|split; [|split]].
  - intros b blk'. unfold v'. rewrite lookup_insert_Some. intros [[_ <-]|[_ ?]]; [|by apply (Hv b)].
    rewrite length_splice by done. split; [done|by apply bytes_splice].
  - intros b Hge. unfold v'. rewrite lookup_insert_ne by lia. done.
  - unfold v'. rewrite lookup_total_insert_eq, <- Hl. by apply slice_splice_eq.
  - intros ino2 Hap Ho2 Hs2. unfold inode_same, v'. destruct (decide (block_id ino2 = block_id ino)) as [Eb|Hne].
    + rewrite Eb, lookup_insert_eq, lookup_total_insert_eq, (lookup_total_correct _ _ _ E). split; [by eexists|].
      apply slice_splice_ne; [done|]. rewrite Hl. unfold DiskInode_SZ. destruct Hap as [?|?]; [done|lia].
    + by rewrite lookup_insert_ne, lookup_total_insert_ne.
Qed.

(** Taking an inode number. *)
Lemma ibit_write efs v k :
  view_ok v → bm_ok (inode_bitmap efs) v → 0 ≤ k < maximum (inode_bitmap efs) →
  start_block_id (inode_bitmap efs) + blocks (inode_bitmap efs) ≤ start_block_id (data_bitmap efs) →
  let v' := set_bit (inode_bitmap efs) k true v in
  view_ok v' ∧ data_same efs v v' ∧
  ∀ ino, start_block_id (inode_bitmap efs) + blocks (inode_bitmap efs) ≤ block_id ino →
    is_Some (v !! block_id ino) → inode_same ino v v' ∧ v' !! block_id ino = v !! block_id ino.
Proof.
  intros Hv Hok Hk Hlay v'. assert (Hblk : bm_block (inode_bitmap efs) (block_of (inode_bitmap efs) k)).
  { apply block_of_range. by rewrite <- (bm_ok_maximum _ _ Hok). }
  unfold bm_block in Hblk. split; [by apply set_bit_view_ok|]. split.
  - intros b Hb. apply set_bit_lookup_ne. lia.
  - intros ino Hb Hs. assert (E : v' !! block_id ino = v !! block_id ino) by (apply set_bit_lookup_ne; lia).
    split; [|done]. split; [by rewrite E|]. by rewrite !lookup_total_alt, E.
Qed.

Definition inode_of (efs : EasyFileSystem) (id : Z) : Inode :=
  let '(b, off) := get_disk_inode_pos efs id in mkInode b off.

Lemma inode_of_offset efs id : 0 ≤ id → 0 ≤ block_offset (inode_of efs id) ≤ 384.
Proof.
  intros Hid. unfold inode_of, get_disk_inode_pos. cbn [block_offset]. change (512 / 128) with 4.
  pose proof (Z.mod_pos_bound id 4). rewrite u64_small by lia. lia.
Qed.

(** A file named [name] can be created in the directory [ino] with entries [ents];
    it gets the inode number [id]. *)
Record creatable (efs : EasyFileSystem) (ino : Inode) (v : gmap Z (list Z)) (di : DiskInode)
    (ents : list (list Z * Z)) (name : list Z) (id : Z) : Prop := {
  cr_disk : disk_ok efs v;
  cr_dir : file_at efs ino v di;
  cr_ents : is_directory di v ents;
  cr_name : name_ok name ∧ bytes name;
  cr_none : lookup_entry ents name = None;
  cr_ibm : bm_ok (inode_bitmap efs) v;
  cr_area : start_block_id (inode_bitmap efs) + blocks (inode_bitmap efs) ≤ start_block_id (data_bitmap efs);
  cr_id : first_free (inode_bitmap efs) v id ∧ id < 2 ^ 32;
  cr_block : start_block_id (inode_bitmap efs) + blocks (inode_bitmap efs) ≤ block_id ino;
  cr_new : start_block_id (inode_bitmap efs) + blocks (inode_bitmap efs) ≤ block_id (inode_of efs id)
    < start_block_id (data_bitmap efs);
  cr_present : is_Some (v !! block_id (inode_of efs id));
  cr_apart : inodes_apart ino (inode_of efs id);
  cr_size : di_size di + 32 ≤ MAX_SIZE;
  cr_avail : available efs v (blocks_for di (di_size di + 32));
}.

Lemma apart_sym ino ino2 : inodes_apart ino ino2 → inodes_apart ino2 ino.
Proof. intros [?|?]; [by left|right; tauto]. Qed.

Section create.
Context {St : Type} `{HS : BlockStore St, HL : !BlockStoreLaws St}.
Context (efs : EasyFileSystem) (ino : Inode) (v : gmap Z (list Z)) (di : DiskInode).
Context (ents : list (list Z * Z)) (name : list Z).

(** The first look at the directory writes the disk inode back. *)
Lemma lookup_phase_run :
  disk_ok efs v → file_at efs ino v di → is_directory di v ents →
  ∃ va, runs (modify_disk_inode (St:=St) ino (λ root_inode,
            lift (assert_ (is_dir root_inode));;
            o ← find_inode_id name root_inode;
            mret (o, root_inode))) v ∅ (lookup_entry ents name) va ∧
    view_ok va ∧ data_same efs v va ∧ file_at efs ino va di ∧ all_bytes di va = all_bytes di v ∧
    (∀ b, b ≠ block_id ino → va !! b = v !! b) ∧ is_Some (va !! block_id ino) ∧
    ∀ ino2, inodes_apart ino ino2 → 0 ≤ block_offset ino2 ≤ 384 → is_Some (v !! block_id ino2) → inode_same ino2 v va.
Proof.
  intros Hdisk Hf Hd. pose proof (fa_at _ _ _ _ Hf) as Hat. pose proof (dk_view _ _ Hdisk) as Hv.
  destruct (ia_block _ _ _ Hat) as [blk E]. pose proof (ia_wf _ _ _ Hat) as Hwf.
  assert (Hn : di_size di / Z.of_nat DIRENT_SZ = Z.of_nat (length ents)).
  { rewrite (dir_size di v ents Hwf Hd Hv). change (Z.of_nat DIRENT_SZ) with 32. Z.to_euclidean_division_equations; lia. }
  destruct (modify_disk_inode_run (St:=St) ino v di (λ root_inode,
      lift (assert_ (is_dir root_inode));; o ← find_inode_id name root_inode; mret (o, root_inode))
      (lookup_entry ents name) di v blk Hv Hat E) as (Hrun & Hl & Hb & Hdec); [|done|apply Hwf|].
  { eapply runs_bind; [apply runs_lift; by rewrite (proj1 Hd)|]. eapply runs_bind; [|apply runs_ret].
    unfold find_inode_id. eapply runs_bind; [apply runs_lift; by rewrite (proj1 Hd)|]. rewrite Hn, Nat2Z.id.
    apply (find_from_run (St:=St) di v _ ents Hwf (inode_room _ _ _ Hat) Hd Hv (length ents) 0); [lia|done]. }
  destruct (slot_write efs v ino blk _ Hv E Hl Hb (ia_offset _ _ _ Hat) (proj2 (fa_block _ _ _ _ Hf))) as (Hva & Hs & Hsl & Hoth).
  set (va := <[block_id ino := _]> v) in *. exists va. split; [done|]. split; [done|]. split; [done|].
  assert (Hfr : ∀ b, b ≠ block_id ino → va !! b = v !! b) by (intros b Hne; by apply lookup_insert_ne).
  assert (Hsome : is_Some (va !! block_id ino)) by (unfold va; rewrite lookup_insert_eq; by eexists).
  destruct (file_frame di v va) as (Eids & Eb & Hwfa); [|done|].
  { intros b Hin. apply Hfr. intros ->. by apply (ia_apart _ _ _ Hat). }
  split; [|done]. split; [|apply Hf|rewrite Eids; intros b Hin; by apply (same_alloc efs v va Hdisk Hs), Hf].
  split; [apply Hat|done| |done|rewrite Eids; apply Hat]. unfold va. by rewrite lookup_total_insert_eq.
Qed.

Lemma alloc_inode_run va id :
  bm_ok (inode_bitmap efs) va → first_free (inode_bitmap efs) va id → id < 2 ^ 32 →
  runs (alloc_inode (St:=St) efs) va ∅ id (set_bit (inode_bitmap efs) id true va).
Proof.
  intros Hok Hff H32. assert (0 ≤ id) by (destruct Hff; lia). unfold alloc_inode. eapply runs_bind.
  { apply alloc_from_some; [done|intros; apply not_elem_of_empty|vm_compute; lia|lia|destruct Hok; lia| |exact Hff].
    unfold BLOCK_BITS. lia. }
  eapply runs_bind; [by apply runs_lift|]. rewrite u32_small by lia. apply runs_ret.
Qed.

Context (id : Z) (Hcr : creatable efs ino v di ents name id).
Let new := inode_of efs id.

(** The directory and the new inode before the entry is written. *)
Lemma fresh_inode_run :
  ∃ va vb vc, runs (modify_disk_inode (St:=St) ino (λ root_inode,
            lift (assert_ (is_dir root_inode));;
            o ← find_inode_id name root_inode;
            mret (o, root_inode))) v ∅ None va ∧
    runs (alloc_inode (St:=St) efs) va ∅ id vb ∧
    runs (init_inode (St:=St) (block_id new) (block_offset new) File) vb ∅ tt vc ∧
    disk_ok efs vc ∧ data_same efs v vc ∧ file_at efs ino vc di ∧ all_bytes di vc = all_bytes di v ∧
    file_at efs new vc (DiskInode_initialize File) ∧
    (∀ k, 0 ≤ k < maximum (inode_bitmap efs) →
      bit (inode_bitmap efs) vc k = (bool_decide (k = id) || bit (inode_bitmap efs) v k)) ∧
    (∀ ino2, inodes_apart ino ino2 → inodes_apart new ino2 → 0 ≤ block_offset ino2 ≤ 384 →
      start_block_id (inode_bitmap efs) + blocks (inode_bitmap efs) ≤ block_id ino2 →
      is_Some (v !! block_id ino2) → inode_same ino2 v vc) ∧
    (∀ b, is_Some (v !! b) → is_Some (vc !! b)) ∧ (∀ b, b < start_block_id (inode_bitmap efs) → vc !! b = v !! b).
Proof.
  destruct Hcr as [Hdisk Hf Hd _ Hnone Hibm Harea [Hff H32] Hblk Hnew Hpres Hap _ _].
  destruct (lookup_phase_run Hdisk Hf Hd) as (va & Hrun1 & Hva & Hsa & Hfa & Eba & Hfra & Hsoma & Hotha).
  rewrite Hnone in Hrun1. assert (Hid : 0 ≤ id < maximum (inode_bitmap efs)) by apply Hff.
  assert (Hia : ∀ b, bm_block (inode_bitmap efs) b → va !! b = v !! b).
  { intros b Hb. apply Hfra. unfold bm_block in Hb. lia. }
  assert (Hbita : ∀ k, 0 ≤ k < maximum (inode_bitmap efs) → bit (inode_bitmap efs) va k = bit (inode_bitmap efs) v k).
  { intros k Hk. apply bit_ext, Hia, block_of_range. by rewrite <- (bm_ok_maximum _ _ Hibm). }
  assert (Hibma : bm_ok (inode_bitmap efs) va).
  { destruct Hibm as (? & ? & ? & Hp). split; [done|]. split; [done|]. split; [done|]. intros b Hb. rewrite Hia; auto. }
  assert (Hffa : first_free (inode_bitmap efs) va id).
  { destruct Hff as (? & Hb & Hlow). split; [done|]. split; [by rewrite Hbita|]. intros j Hj. rewrite Hbita by lia. auto. }
  pose proof (alloc_inode_run va id Hibma Hffa H32) as Hrun2.
  destruct (ibit_write efs va id Hva Hibma Hid Harea) as (Hvb & Hsb & Hothb). set (vb := set_bit _ id true va) in *.
  assert (Hpa : is_Some (va !! block_id new)).
  { destruct (decide (block_id new = block_id ino)) as [->|Hne]; [done|]. by rewrite Hfra. }
  destruct (Hothb new (proj1 Hnew) Hpa) as [Hnewb Enewb]. destruct Hpa as [blk Eblk]. rewrite Eblk in Enewb.
  assert (Hoff : 0 ≤ block_offset new ≤ 384) by (apply inode_of_offset; lia).
  destruct (init_inode_run (St:=St) (block_id new) (block_offset new) File vb ∅ blk Hvb Enewb)
    as (n128 & Hrun3 & Hn & Hnb & Hdec); [apply not_elem_of_empty|rewrite size_empty; unfold BLOCK_CACHE_SIZE; lia|done|].
  destruct (slot_write efs vb new blk n128 Hvb Enewb Hn Hnb Hoff (proj2 Hnew)) as (Hvc & Hsc & Hslc & Hothc).
  set (vc := <[block_id new := _]> vb) in *. exists va, vb, vc.
  assert (Hdiska := same_disk efs v va Hdisk Hsa Hva). assert (Hdiskb := same_disk efs va vb Hdiska Hsb Hvb).
  assert (Hsvc : data_same efs v vc) by (eapply data_same_trans; [exact Hsa|eapply data_same_trans; [exact Hsb|exact Hsc]]).
  destruct (same_file efs va vb Hdiska Hsb ino di Hfa) as (Hfb & Ebb & _); [by apply Hothb|].
  destruct (same_file efs vb vc Hdiskb Hsc ino di Hfb) as (Hfc & Ebc & _).
  { apply Hothc; [by apply apart_sym|apply (fa_at _ _ _ _ Hfa)|apply (fa_at _ _ _ _ Hfb)]. }
  split; [done|]. split; [done|]. split; [done|]. split; [by apply (same_disk efs vb)|]. split; [done|].
  split; [done|]. split; [congruence|]. split; [|split; [|split; [|split]]].
  - assert (Hsz : di_size (DiskInode_initialize File) = 0) by done.
    split; [|destruct (cr_ibm _ _ _ _ _ _ _ Hcr) as (? & ? & _); unfold new in *; lia|by rewrite empty_inode_ids by done;
      intros b ?%not_elem_of_nil].
    split; [done|unfold vc; rewrite lookup_insert_eq; by eexists|by rewrite Hslc| |].
    + apply empty_inode_wf; [|done]. rewrite <- Hdec. by apply DiskInode_decode_ok.
    + rewrite empty_inode_ids by done. apply not_elem_of_nil.
  - intros k Hk. transitivity (bit (inode_bitmap efs) vb k).
    + apply bit_ext. unfold vc. apply lookup_insert_ne. intros Eb.
      assert (Hb : bm_block (inode_bitmap efs) (block_of (inode_bitmap efs) k))
        by (apply block_of_range; by rewrite <- (bm_ok_maximum _ _ Hibm)).
      rewrite <- Eb in Hb. unfold bm_block, new in *. lia.
    + unfold vb. rewrite bit_set_bit, Hbita by done. case_decide; [by rewrite bool_decide_true|by rewrite bool_decide_false].
  - intros ino2 Hap1 Hap2 Ho2 Hb2 Hs2. pose proof (Hotha ino2 Hap1 Ho2 Hs2) as H1.
    destruct (Hothb ino2 Hb2 (proj1 H1)) as [H2 _].
    eapply inode_same_trans; [exact H1|]. eapply inode_same_trans; [exact H2|]. apply Hothc; [done|done|apply H2].
  - intros b Hb. unfold vc, vb, set_bit. rewrite !lookup_insert_is_Some'. do 2 right.
    destruct (decide (b = block_id ino)) as [->|Hne]; [done|by rewrite Hfra].
  - intros b Hb. unfold vc. rewrite lookup_insert_ne by (destruct Hibm as (_ & ? & _); unfold new in *; lia).
    assert (Hbk : bm_block (inode_bitmap efs) (block_of (inode_bitmap efs) id))
      by (apply block_of_range; by rewrite <- (bm_ok_maximum _ _ Hibm)).
    unfold vb. rewrite set_bit_lookup_ne by (unfold bm_block in Hbk; lia). apply Hfra. destruct Hibm as (_ & ? & _). lia.
Qed.

Definition new_entry : list Z := DirEntry_as_bytes (entry (name, id)).

Lemma new_entry_ok : length new_entry = 32%nat ∧ bytes new_entry ∧ DirEntry_new name id = Ok (entry (name, id)).
Proof.
  destruct (cr_name _ _ _ _ _ _ _ Hcr) as [Hn Hb]. split; [by apply entry_length|]. split.
  - unfold new_entry, DirEntry_as_bytes, entry. cbn [de_name de_inode_id fst snd]. repeat apply Forall_app_2;
      [done|by apply Forall_replicate|apply le_put_bytes].
  - destruct Hn as (_ & _ & Hl). unfold NAME_LENGTH_LIMIT in Hl. unfold DirEntry_new, entry.
    by rewrite (proj2 (Nat.leb_le _ _)) by lia.
Qed.

Lemma create_file_run :
  ∃ vc v2 v' di' ks, settles (Inode_create (St:=St) efs ino name) v ∅ (Some new) v' ∧
    disk_ok efs vc ∧ data_same efs v vc ∧ file_at efs ino vc di ∧ all_bytes di vc = all_bytes di v ∧
    file_at efs new vc (DiskInode_initialize File) ∧
    (∀ k, 0 ≤ k < maximum (inode_bitmap efs) →
      bit (inode_bitmap efs) vc k = (bool_decide (k = id) || bit (inode_bitmap efs) v k)) ∧
    (∀ ino2, inodes_apart ino ino2 → inodes_apart new ino2 → 0 ≤ block_offset ino2 ≤ 384 →
      start_block_id (inode_bitmap efs) + blocks (inode_bitmap efs) ≤ block_id ino2 →
      is_Some (v !! block_id ino2) → inode_same ino2 v vc) ∧
    file_changed efs ino vc di v' di' ∧ grew efs vc di (di_size di) new_entry ks di' v2 ∧
    all_bytes di' v' = all_bytes di' v2 ∧ all_ids di' v' = all_ids di' v2 ∧
    ks = take (blocks_for di (di_size di + 32)) (free_bits (data_bitmap efs) vc) ∧
    (∀ b, is_Some (v !! b) → is_Some (vc !! b)) ∧ (∀ b, b < start_block_id (inode_bitmap efs) → vc !! b = v !! b).
Proof.
  destruct fresh_inode_run as (va & vb & vc & Hrun1 & Hrun2 & Hrun3 & Hdc & Hsc & Hfc & Ebc & Hnc & Hbits & Hoth & Hpv & Hlow).
  destruct new_entry_ok as (Hnl & Hnb & Hnew). destruct Hcr as [Hdisk Hf Hd _ _ _ _ _ _ _ _ _ Hsz Hav].
  pose proof (fa_at _ _ _ _ Hfc) as Hat. destruct (ia_wf _ _ _ Hat) as ((Hu & _) & _). unfold is_u32 in Hu.
  pose proof (dir_size di v ents (ia_wf _ _ _ (fa_at _ _ _ _ Hf)) Hd (dk_view _ _ Hdisk)) as Hds.
  assert (Emax : Z.max (di_size di) (di_size di + Z.of_nat (length new_entry)) = di_size di + 32) by (rewrite Hnl; lia).
  assert (Havc : available efs vc (blocks_for di (Z.max (di_size di) (di_size di + Z.of_nat (length new_entry)))))
    by (rewrite Emax; by apply (same_available efs v vc Hdisk Hsc)).
  destruct (grow_write_run (St:=St) efs ino vc di (di_size di) new_entry Hdc Hfc ltac:(lia)) as
    (di' & vd & v2 & Hr1 & Hr2 & Hg); [by intros E; rewrite E in Hnl|done|by rewrite Hnl|done|].
  set (n := blocks_for di (Z.max (di_size di) (di_size di + Z.of_nat (length new_entry)))) in *.
  set (ks := take n (free_bits (data_bitmap efs) vc)) in *.
  destruct (ia_block _ _ _ Hat) as [blk E].
  pose proof (grew_inode_block efs ino vc di (di_size di) new_entry n Hdc Hfc (proj2 Havc) di' v2 Hg) as E2. rewrite E in E2.
  assert (Hn : di_size di / Z.of_nat DIRENT_SZ = Z.of_nat (length ents)).
  { rewrite Hds. change (Z.of_nat DIRENT_SZ) with 32. Z.to_euclidean_division_equations; lia. }
  destruct (modify_disk_inode_run (St:=St) ino vc di (λ root_inode,
      let file_count := di_size root_inode / Z.of_nat DIRENT_SZ in
      let new_size := (file_count + 1) * Z.of_nat DIRENT_SZ in
      root_inode ← Inode_increase_size efs (u32 new_size) root_inode;
      dirent ← lift (DirEntry_new name id);
      InodeData.write_at root_inode (file_count * Z.of_nat DIRENT_SZ) (DirEntry_as_bytes dirent);;
      mret (tt, root_inode)) tt di' v2 blk (dk_view _ _ Hdc) Hat E) as (Hrun & Hl128 & Hb128 & Hdec); [|done|apply Hg|].
  { cbv zeta. rewrite Hn. change (Z.of_nat DIRENT_SZ) with 32. unfold MAX_SIZE, INDIRECT2_BOUND, BSZ in Hsz.
    rewrite u32_small by lia. replace ((Z.of_nat (length ents) + 1) * 32) with (di_size di + Z.of_nat (length new_entry)) by lia.
    replace (Z.of_nat (length ents) * 32) with (di_size di) by lia.
    eapply runs_bind; [exact Hr1|]. eapply runs_bind; [by apply runs_lift|]. eapply runs_bind; [exact Hr2|apply runs_ret]. }
  destruct (changed_intro efs ino vc di (di_size di) new_entry n Hdc Hfc (proj2 Havc) di' v2 Hg blk _ E Hl128 Hb128 Hdec)
    as (Hch & Eb & Ei).
  eexists vc, v2, _, di', ks. split; [|split; [done|]; split; [done|]; split; [done|]; split; [done|]; split; [done|];
    split; [done|]; split; [done|]; split; [exact Hch|]; split; [done|]; split; [exact Eb|]; split; [exact Ei|];
    split; [unfold ks, n; by rewrite Emax|by split]].
  unfold Inode_create. eapply settles_after; [exact Hrun1|]. eapply settles_after; [exact Hrun2|].
  unfold new, inode_of in *. destruct (get_disk_inode_pos efs id) as [b off]. cbn [block_id block_offset] in *.
  eapply settles_after; [exact Hrun3|]. eapply (settles_synced _ (λ _, Some (mkInode b off))). exact Hrun.
Qed.
End create.

Lemma appended_directory efs v v' di di' ents name id ks v2 :
  is_directory di v ents → name_ok name → is_u32 id → inode_wf di v → view_ok v →
  grew efs v di (di_size di) (new_entry name id) ks di' v2 → length (new_entry name id) = 32%nat →
  all_bytes di' v' = all_bytes di' v2 → is_directory di' v' (ents ++ [(name, id)]).
Proof.
  intros (Hd & Hc & He) Hn Hid Hwf Hv Hg Hl Eb.
  assert (H0 : 0 ≤ di_size di) by (destruct Hwf as ((H0 & _) & _); apply H0).
  destruct (written_content di v di' v2 (di_size di) (new_entry name id) ks efs Hg H0 Hwf Hv) as [Hback Hold].
  pose proof (length_content di' v2 (gw_view _ _ _ _ _ _ _ _ Hg) (gw_wf _ _ _ _ _ _ _ _ Hg)) as Hlc.
  pose proof (length_content di v Hv Hwf) as Hlc0. rewrite (gw_size _ _ _ _ _ _ _ _ Hg), Hl in Hlc.
  split; [unfold is_dir; by rewrite (gw_type _ _ _ _ _ _ _ _ Hg)|]. split.
  - rewrite bind_app, <- Hc. cbn [mbind list_bind]. rewrite app_nil_r. change (DirEntry_as_bytes _) with (new_entry name id).
    transitivity (content di' v2); [unfold content; by rewrite Eb|]. rewrite <- Hback. apply list_eq. intros i.
    destruct (Nat.lt_ge_cases i (Z.to_nat (di_size di))) as [Hi|Hi].
    + rewrite lookup_app_l by lia. apply Hold; [done|lia].
    + rewrite lookup_app_r, lookup_slice, Hl by lia. case_decide as Hd32; [f_equal; lia|]. apply lookup_ge_None. lia.
  - apply Forall_app_2; [done|]. by apply Forall_singleton.
Qed.

Lemma lookup_entry_app ents name id : lookup_entry ents name = None → lookup_entry (ents ++ [(name, id)]) name = Some id.
Proof.
  unfold lookup_entry. intros E. destruct (list_find _ ents) as [[]|] eqn:Ef; [done|].
  rewrite list_find_app_r by done. cbn [list_find fst]. by rewrite decide_True by done.
Qed.

Lemma create_cases {St} `{HS : BlockStore St, HL : !BlockStoreLaws St} efs ino v di ents name id :
  (creatable efs ino v di ents name id →
   ∃ v' di' din, let new := inode_of efs id in
    runs (Inode_create (St:=St) efs ino name) v ∅ (Some new) v' ∧ disk_ok efs v' ∧
    file_at efs ino v' di' ∧ is_directory di' v' (ents ++ [(name, id)]) ∧
    file_at efs new v' din ∧ di_size din = 0 ∧ type_ din = File ∧
    runs (find (St:=St) efs ino name) v' ∅ (Some new) v' ∧
    (∀ k, 0 ≤ k < maximum (inode_bitmap efs) →
      bit (inode_bitmap efs) v' k = (bool_decide (k = id) || bit (inode_bitmap efs) v k)) ∧
    ∀ ino2 di2, file_at efs ino2 v di2 → inodes_apart ino ino2 → inodes_apart new ino2 →
      start_block_id (inode_bitmap efs) + blocks (inode_bitmap efs) ≤ block_id ino2 →
      (∀ b, b ∈ all_ids di2 v → b ∉ all_ids di v) → file_at efs ino2 v' di2 ∧ content di2 v' = content di2 v) ∧
  (disk_ok efs v → file_at efs ino v di → is_directory di v ents → is_Some (lookup_entry ents name) →
   ∃ v', runs (Inode_create (St:=St) efs ino name) v ∅ None v' ∧ disk_ok efs v' ∧ file_at efs ino v' di ∧
    content di v' = content di v ∧
    ∀ ino2 di2, file_at efs ino2 v di2 → inodes_apart ino ino2 → file_at efs ino2 v' di2 ∧ content di2 v' = content di2 v).
Proof.
  split.
  - intros Hcr. destruct (create_file_run (St:=St) efs ino v di ents name id Hcr) as
      (vc & v2 & v' & di' & ks & Hrun%settles_runs & Hdc & Hsc & Hfc & Ebc & Hnc & Hbits & Hoth & Hch & Hg & Eb & _).
    destruct (new_entry_ok efs ino v di ents name id Hcr) as (Hnl & _). pose proof Hcr as
      [Hdisk Hf Hd [Hn _] Hnone Hibm Harea [Hff H32] Hblk Hnew Hpres Hap _ _].
    assert (Hdc' : is_directory di vc ents).
    { destruct Hd as (? & Hc & ?). split; [done|]. split; [|done]. rewrite <- Hc. unfold content. by rewrite Ebc. }
    assert (Hdir : is_directory di' v' (ents ++ [(name, id)])).
    { eapply (appended_directory efs vc v' di); try done; [split; [apply Hff|done]|apply (fa_at _ _ _ _ Hfc)|apply Hdc]. }
    assert (Hnew' : file_at efs (inode_of efs id) v' (DiskInode_initialize File)).
    { apply (other_file efs ino vc di v' di'); try done. rewrite empty_inode_ids by done. by intros b ?%not_elem_of_nil. }
    exists v', di', (DiskInode_initialize File). split; [done|]. split; [apply Hch|]. split; [apply Hch|].
    split; [done|]. split; [done|]. split; [done|]. split; [done|]. split; [|split].
    + destruct (directory_run (St:=St) efs ino v' di' (ents ++ [(name, id)]) name) as [_ Hfind];
        [apply Hch|apply (fa_at _ _ _ _ (fc_file _ _ _ _ _ _ Hch))|done|].
      by rewrite lookup_entry_app in Hfind.
    + intros k Hk. rewrite <- Hbits by done. apply bit_ext.
      assert (Hb : bm_block (inode_bitmap efs) (block_of (inode_bitmap efs) k))
        by (apply block_of_range; by rewrite <- (bm_ok_maximum _ _ Hibm)).
      apply (fc_frame _ _ _ _ _ _ Hch); unfold bm_block in *; [lia..|]. intros Hin.
      apply (fa_alloc _ _ _ _ (fc_file _ _ _ _ _ _ Hch)), allocated_data in Hin.
      pose proof (dk_area _ _ Hdisk). pose proof (dk_bm _ _ Hdisk) as (? & ? & _). lia.
    + intros ino2 di2 Hf2 Hap1 Hap2 Hb2 Hdis. pose proof (fa_at _ _ _ _ Hf2) as Hat2.
      destruct (same_file efs v vc Hdisk Hsc ino2 di2 Hf2) as (Hf2c & Eb2 & Eids2).
      { apply Hoth; try done; apply Hat2. }
      destruct (same_file_ids efs v vc Hdisk Hsc ino di Hf) as [Eidsd _].
      destruct (other_file efs ino vc di v' di' ino2 di2 Hdc Hfc Hch Hf2c Hap1) as (Hf2' & Ec2 & _).
      { rewrite Eids2, Eidsd. exact Hdis. }
      split; [done|]. rewrite Ec2. unfold content. by rewrite Eb2.
  - intros Hdisk Hf Hd [x Hx]. destruct (lookup_phase_run (St:=St) efs ino v di ents name Hdisk Hf Hd) as
      (va & Hrun & Hva & Hsa & Hfa & Eba & _ & _ & Hoth). exists va. split.
    { unfold Inode_create. eapply runs_bind; [exact Hrun|]. rewrite Hx. apply runs_ret. }
    split; [by apply (same_disk efs v)|]. split; [done|]. split; [unfold content; by rewrite Eba|].
    intros ino2 di2 Hf2 Hap. pose proof (fa_at _ _ _ _ Hf2) as Hat2.
    destruct (same_file efs v va Hdisk Hsa ino2 di2 Hf2) as (Hf2a & Eb2 & _); [apply Hoth; [done|apply Hat2..]|].
    split; [done|]. unfold content. by rewrite Eb2.
Qed.

(** C20: [Inode::create] of a new name appends the entry with the first free inode
    number to the directory, initialises that disk inode as an empty file, sets
    its bit in the inode bitmap and returns its position, which [find] returns
    from then on.  No other file changes.  If the name exists, [create] returns
    [None], and every file is as before. *)
Theorem create_adds_file {St} `{HS : BlockStore St, HL : !BlockStoreLaws St} efs ino v di ents name id :
  (creatable efs ino v di ents name id →
   ∃ v' di' din, let new := inode_of efs id in
    runs (Inode_create (St:=St) efs ino name) v ∅ (Some new) v' ∧ disk_ok efs v' ∧
    file_at efs ino v' di' ∧ is_directory di' v' (ents ++ [(name, id)]) ∧
    file_at efs new v' din ∧ di_size din = 0 ∧ type_ din = File ∧
    runs (find (St:=St) efs ino name) v' ∅ (Some new) v' ∧
    (∀ k, 0 ≤ k < maximum (inode_bitmap efs) →
      bit (inode_bitmap efs) v' k = (bool_decide (k = id) || bit (inode_bitmap efs) v k)) ∧
    ∀ ino2 di2, file_at efs ino2 v di2 → inodes_apart ino ino2 → inodes_apart new ino2 →
      start_block_id (inode_bitmap efs) + blocks (inode_bitmap efs) ≤ block_id ino2 →
      (∀ b, b ∈ all_ids di2 v → b ∉ all_ids di v) → file_at efs ino2 v' di2 ∧ content di2 v' = content di2 v) ∧
  (disk_ok efs v → file_at efs ino v di → is_directory di v ents → is_Some (lookup_entry ents name) →
   ∃ v', runs (Inode_create (St:=St) efs ino name) v ∅ None v' ∧ disk_ok efs v' ∧ file_at efs ino v' di ∧
    content di v' = content di v ∧
    ∀ ino2 di2, file_at efs ino2 v di2 → inodes_apart ino ino2 → file_at efs ino2 v' di2 ∧ content di2 v' = content di2 v).
Proof. apply create_cases. Qed.

(** ** Concrete runs *)

(** Seven blocks: super block, inode bitmap, inodes (the root directory and the
    file "a"), data bitmap, the entries, the contents "hello", a free block. *)
Definition fs_root : DiskInode := mkDiskInode 32 (4 :: replicate 27 0) 0 0 Directory.
Definition fs_file : DiskInode := mkDiskInode 5 (5 :: replicate 27 0) 0 0 File.
Definition fs_ents : list (list Z * Z) := [([97], 1)].
Definition fs_image : list Z :=
  replicate 512 0 ++ (3 :: replicate 511 0) ++
  (DiskInode_encode fs_root (replicate 128 0) ++ DiskInode_encode fs_file (replicate 128 0) ++ replicate 256 0) ++
  (3 :: replicate 511 0) ++
  ((fs_ents ≫= λ e, DirEntry_as_bytes (entry e)) ++ replicate 480 0) ++
  ([104; 101; 108; 108; 111] ++ replicate 507 0) ++ replicate 512 0.
Definition fs_view : gmap Z (list Z) := cache_view (boot fs_image).
Definition fs_efs : EasyFileSystem := mkEfs (mkBitmap 1 1) (mkBitmap 3 1) 2 4.
Definition fs_a : Inode := mkInode 2 128.

Lemma fs_image_ok : bytes fs_image ∧ Z.of_nat (length fs_image) < 2 ^ 40.
Proof.
  split; [|vm_compute; reflexivity].
  apply (bool_decide_unpack (bytes fs_image)). vm_compute. exact I.
Qed.

Lemma fs_present b : 0 ≤ b < 7 → is_Some (fs_view !! b).
Proof.
  intros Hb. assert (b = 0 ∨ b = 1 ∨ b = 2 ∨ b = 3 ∨ b = 4 ∨ b = 5 ∨ b = 6) as H7 by lia.
  destruct H7 as [->|[->|[->|[->|[->|[->| ->]]]]]]; vm_compute; by eexists.
Qed.

Lemma fs_bm_ok s : 0 ≤ s < 7 → bm_ok (mkBitmap s 1) fs_view.
Proof.
  intros Hs. split; [cbn; lia|]. split; [cbn; lia|]. split; [cbn; lia|]. intros b Hb. unfold bm_block in Hb. cbn in Hb.
  apply fs_present. lia.
Qed.

Lemma fs_disk_ok : disk_ok fs_efs fs_view.
Proof. split; [apply boot_view_ok; apply fs_image_ok|by apply fs_bm_ok|cbn; lia]. Qed.

Lemma fs_allocated b : b = 4 ∨ b = 5 → allocated fs_efs fs_view b.
Proof.
  intros Hb. split; [destruct Hb as [-> | ->]; by vm_compute|]. split; [destruct Hb as [-> | ->]; by vm_compute|].
  split; [lia|]. split; [unfold bm_block; cbn; lia|]. apply fs_present. lia.
Qed.

Lemma fs_file_at ino di b :
  ino = inode_of fs_efs 0 ∧ di = fs_root ∧ b = 4 ∨ ino = fs_a ∧ di = fs_file ∧ b = 5 →
  all_ids di fs_view = [b] → file_at fs_efs ino fs_view di.
Proof.
  intros Hc Hids. split.
  - split; [destruct Hc as [(-> & _)|(-> & _)]; vm_compute; split; discriminate| | | |].
    + apply fs_present. destruct Hc as [(-> & _)|(-> & _)]; by vm_compute.
    + destruct Hc as [(-> & -> & _)|(-> & -> & _)]; vm_compute; reflexivity.
    + split; [|split; [|split]].
      * destruct Hc as [(_ & -> & _)|(_ & -> & _)]; (split; [done|]); (split; [done|]); (split; [|done]); by repeat constructor.
      * destruct Hc as [(_ & -> & _)|(_ & -> & _)]; vm_compute; discriminate.
      * rewrite Hids. apply NoDup_singleton.
      * rewrite Hids. intros c ->%list_elem_of_singleton. apply fs_present. lia.
    + rewrite Hids, list_elem_of_singleton. destruct Hc as [(-> & _ & ->)|(-> & _ & ->)]; by vm_compute.
  - destruct Hc as [(-> & _)|(-> & _)]; by vm_compute.
  - rewrite Hids. intros c ->%list_elem_of_singleton. apply fs_allocated. lia.
Qed.

Lemma fs_root_at : file_at fs_efs (inode_of fs_efs 0) fs_view fs_root.
Proof. apply (fs_file_at _ _ 4); [left; done|vm_compute; reflexivity]. Qed.
Lemma fs_a_at : file_at fs_efs fs_a fs_view fs_file.
Proof. apply (fs_file_at _ _ 5); [right; done|vm_compute; reflexivity]. Qed.

(** 600 bytes from the third byte on: the file grows by the last free block. *)
Lemma file_write_spec_witness :
  ∃ s', (Inode_write_at fs_efs fs_a 3 (replicate 600 7);; Inode_read_at fs_a 3 (replicate 600 0)) (boot fs_image) =
    Ok ((600, replicate 600 7), s').
Proof.
  destruct (file_write_spec (St:=CacheState BlockFile) fs_efs fs_a fs_view fs_file 3 (replicate 600 7))
    as (v' & di' & Hrun & _ & _ & Hread & _).
  - apply fs_disk_ok.
  - apply fs_a_at.
  - lia.
  - done.
  - by apply Forall_replicate.
  - vm_compute. discriminate.
  - split; [vm_compute; lia|]. intros k Hk. assert (k = 2) as ->; [|split; [vm_compute; reflexivity|by apply fs_present]].
    revert Hk. vm_compute (take _ _). apply list_elem_of_singleton.
  - specialize (Hread (replicate 600 0) eq_refl). pose proof (runs_bind _ (λ _, Inode_read_at fs_a 3 (replicate 600 0)) _ _ _ _ _ _ Hrun Hread) as Hboth.
    destruct (boot_runs _ fs_image _ v' (proj1 fs_image_ok) (proj2 fs_image_ok) Hboth) as (s' & E & _).
    exists s'. exact E.
Defined.

Lemma fs_directory : is_directory fs_root fs_view fs_ents.
Proof.
  split; [done|]. split; [vm_compute; reflexivity|]. apply Forall_singleton. split; [|done].
  split; [by apply (bool_decide_unpack (0 ∉ [97]))|]. split; [done|]. vm_compute. lia.
Qed.

Lemma fs_creatable : creatable fs_efs (inode_of fs_efs 0) fs_view fs_root fs_ents [99] 2.
Proof.
  split.
  - apply fs_disk_ok.
  - apply fs_root_at.
  - apply fs_directory.
  - split; [split; [by apply (bool_decide_unpack (0 ∉ [99]))|]; split; [done|]; vm_compute; lia|by apply Forall_singleton].
  - reflexivity.
  - by apply fs_bm_ok.
  - cbn. lia.
  - split; [|done]. split; [by vm_compute|]. split; [by vm_compute|]. intros j Hj.
    assert (j = 0 ∨ j = 1) as [-> | ->] by lia; by vm_compute.
  - by vm_compute.
  - by vm_compute.
  - apply fs_present. by vm_compute.
  - right. right. by vm_compute.
  - by vm_compute.
  - split; [vm_compute; lia|]. intros k Hk. exfalso. revert Hk. vm_compute (take _ _). apply not_elem_of_nil.
Qed.

(** The file "c" is created; "a" exists. *)
Lemma create_adds_file_witness :
  (∃ s', Inode_create fs_efs (inode_of fs_efs 0) [99] (boot fs_image) = Ok (Some (mkInode 2 256), s')) ∧
  (∃ s', Inode_create fs_efs (inode_of fs_efs 0) [97] (boot fs_image) = Ok (None, s')).
Proof.
  destruct (create_adds_file (St:=CacheState BlockFile) fs_efs (inode_of fs_efs 0) fs_view fs_root fs_ents [99] 2) as [H1 _].
  destruct (create_adds_file (St:=CacheState BlockFile) fs_efs (inode_of fs_efs 0) fs_view fs_root fs_ents [97] 2) as [_ H2].
  destruct (H1 fs_creatable) as (v1 & _ & _ & Hrun1 & _).
  destruct (H2 fs_disk_ok fs_root_at fs_directory ltac:(by exists 1)) as (v2 & Hrun2 & _).
  destruct (boot_runs _ fs_image _ v1 (proj1 fs_image_ok) (proj2 fs_image_ok) Hrun1) as (s1 & E1 & _).
  destruct (boot_runs _ fs_image _ v2 (proj1 fs_image_ok) (proj2 fs_image_ok) Hrun2) as (s2 & E2 & _).
  split; [exists s1; exact E1|exists s2; exact E2].
Defined.
