(* ===== verification/Address.v ===== *)
(** * Addresses and page numbers (os/src/mm/address.rs)

    [PhysAddr], [VirtAddr], [PhysPageNum] and [VirtPageNum] wrap a [usize]; a
    value of each is the number it wraps.  The conversions mask to the Sv39
    widths, and a virtual address becomes a [usize] again by sign extension. *)

From S2P Require Import Prelude.

(** os/src/config.rs *)
Definition PAGE_SIZE : Z := 0x1000.
Definition PAGE_SIZE_BITS : Z := 0xc.
Definition MEMORY_END : Z := 0x88000000.
Definition TRAMPOLINE : Z := 2 ^ 64 - 1 -ᵤ PAGE_SIZE +ᵤ 1.
Definition TRAP_CONTEXT_BASE : Z := TRAMPOLINE -ᵤ PAGE_SIZE.

Definition PA_WIDTH_SV39 : Z := 56.
Definition VA_WIDTH_SV39 : Z := 39.
Definition PPN_WIDTH_SV39 : Z := PA_WIDTH_SV39 - PAGE_SIZE_BITS.
Definition VPN_WIDTH_SV39 : Z := VA_WIDTH_SV39 - PAGE_SIZE_BITS.

(** [(1 << w) - 1] *)
Definition mask (w : Z) : Z := Z.shiftl 1 w - 1.

(** [From<usize>] *)
Definition PhysAddr_from (v : Z) : Z := Z.land v (mask PA_WIDTH_SV39).
Definition PhysPageNum_from (v : Z) : Z := Z.land v (mask PPN_WIDTH_SV39).
Definition VirtAddr_from (v : Z) : Z := Z.land v (mask VA_WIDTH_SV39).
Definition VirtPageNum_from (v : Z) : Z := Z.land v (mask VPN_WIDTH_SV39).

(** [From<VirtAddr> for usize]; [!x] on 64 bits is [2^64 - 1 - x] *)
Definition usize_of_VirtAddr (v : Z) : Z :=
  if Z.shiftl 1 (VA_WIDTH_SV39 - 1) <=? v then Z.lor v (2 ^ 64 - 1 - mask VA_WIDTH_SV39) else v.

(** [VirtAddr::floor] and friends; the [PhysAddr] ones are the same code. *)
Definition floor (v : Z) : Z := v / PAGE_SIZE.
Definition ceil (v : Z) : Z := (v -ᵤ 1 +ᵤ PAGE_SIZE) / PAGE_SIZE.
Definition page_offset (v : Z) : Z := Z.land v (PAGE_SIZE - 1).
Definition aligned (v : Z) : bool := page_offset v =? 0.

Definition PhysAddr_floor (v : Z) : Z := v / PAGE_SIZE.
Definition PhysAddr_ceil (v : Z) : Z := (v -ᵤ 1 +ᵤ PAGE_SIZE) / PAGE_SIZE.
Definition PhysAddr_page_offset (v : Z) : Z := Z.land v (PAGE_SIZE - 1).

(** [From<VirtAddr> for VirtPageNum] asserts alignment. *)
Definition VirtPageNum_of_VirtAddr (v : Z) : result Z :=
  assert_ (page_offset v =? 0);;
  mret (floor v).
Definition VirtAddr_of_VirtPageNum (v : Z) : Z := u64 (Z.shiftl v PAGE_SIZE_BITS).
Definition PhysPageNum_of_PhysAddr (v : Z) : result Z :=
  assert_ (PhysAddr_page_offset v =? 0);;
  mret (PhysAddr_floor v).
Definition PhysAddr_of_PhysPageNum (v : Z) : Z := u64 (Z.shiftl v PAGE_SIZE_BITS).

(** [VirtPageNum::indexes]: from the last index to the first, 9 bits each *)
Fixpoint indexes_loop (i : nat) (vpn : Z) (acc : list Z) : list Z :=
  match i with
  | O => acc
  | S i => indexes_loop i (Z.shiftr vpn 9) (Z.land vpn 511 :: acc)
  end.
Definition indexes (vpn : Z) : list Z := indexes_loop 3 vpn [].

(** [StepByOne] *)
Definition step (v : Z) : Z := v +ᵤ 1.

(** [SimpleRange] and its iterator *)
Record SimpleRange := mkRange { range_l : Z; range_r : Z }.

Definition SimpleRange_new (start end_ : Z) : result SimpleRange :=
  assert_ (start <=? end_);;
  mret (mkRange start end_).

(** [SimpleRangeIterator::next]; the iterator is the pair [(current, end)]. *)
Definition range_next (it : Z * Z) : option Z * (Z * Z) :=
  let '(current, end_) := it in
  if current =? end_ then (None, (current, end_))
  else (Some current, (step current, end_)).

(** A [for] loop over the range collects what the iterator yields. *)
Fixpoint range_collect (fuel : nat) (it : Z * Z) : result (list Z) :=
  match fuel with
  | O => Fail OutOfFuel
  | S fuel =>
      match range_next it with
      | (None, _) => mret []
      | (Some v, it) => l ← range_collect fuel it; mret (v :: l)
      end
  end.

(** ** Lemmas *)

Lemma mask_ones w : mask w = Z.ones w.
Proof. unfold mask. by rewrite Z.ones_equiv, Z.shiftl_1_l. Qed.

Lemma land_mask v w : 0 ≤ w → Z.land v (mask w) = v mod 2 ^ w.
Proof. intros Hw. rewrite mask_ones. by apply Z.land_ones. Qed.

Lemma page_offset_eq v : page_offset v = v mod 4096.
Proof. unfold page_offset, PAGE_SIZE. by apply (Z.land_ones v 12). Qed.

Lemma VirtAddr_from_eq v : VirtAddr_from v = v mod 2 ^ 39.
Proof. by apply land_mask. Qed.

Lemma ceil_eq v : 0 ≤ v ≤ 2 ^ 64 - 4096 → ceil v = (v + 4095) / 4096.
Proof.
  intros Hv. unfold ceil, PAGE_SIZE, u64. rewrite Zplus_mod_idemp_l.
  rewrite Z.mod_small by lia. f_equal. lia.
Qed.

Lemma VirtAddr_of_VirtPageNum_eq v :
  0 ≤ v < 2 ^ 52 → VirtAddr_of_VirtPageNum v = v * 4096.
Proof.
  intros Hv. unfold VirtAddr_of_VirtPageNum, PAGE_SIZE_BITS. rewrite Z.shiftl_mul_pow2 by lia.
  rewrite u64_small by lia. done.
Qed.

Lemma lor_high_mask v : 0 ≤ v < 2 ^ 39 → Z.lor v (2 ^ 64 - 1 - mask 39) = v + (2 ^ 64 - 2 ^ 39).
Proof.
  intros Hv. rewrite mask_ones. change (2 ^ 64 - 1 - Z.ones 39) with (Z.shiftl (Z.ones 25) 39).
  assert (E : Z.land v (Z.shiftl (Z.ones 25) 39) = 0).
  { apply Z.bits_inj'. intros i Hi. rewrite Z.land_spec, Z.bits_0.
    destruct (decide (i < 39)).
    - by rewrite Z.shiftl_spec_low, andb_false_r by lia.
    - rewrite <- (Z.mod_small v (2 ^ 39)) by done. by rewrite Z.mod_pow2_bits_high by lia. }
  rewrite <- Z.lxor_lor, <- Z.add_nocarry_lxor by done. done.
Qed.

Lemma indexes_eq vpn :
  indexes vpn = [vpn / 2 ^ 18 mod 512; vpn / 2 ^ 9 mod 512; vpn mod 512].
Proof.
  unfold indexes. cbn [indexes_loop]. change 511 with (Z.ones 9).
  rewrite !Z.land_ones, !Z.shiftr_div_pow2 by lia. rewrite Zdiv_Zdiv by lia. done.
Qed.

Lemma range_collect_seqZ n l fuel :
  0 ≤ l → l + Z.of_nat n < 2 ^ 64 → (n < fuel)%nat →
  range_collect fuel (l, l + Z.of_nat n) = Ok (seqZ l (Z.of_nat n)).
Proof.
  revert l fuel. induction n as [|n IH]; intros l fuel Hl Hr Hf; destruct fuel as [|fuel]; try lia.
  - cbn [range_collect range_next]. rewrite (proj2 (Z.eqb_eq _ _)) by lia. done.
  - cbn [range_collect range_next]. rewrite (proj2 (Z.eqb_neq _ _)) by lia.
    unfold step. rewrite u64_small by lia.
    replace (l + Z.of_nat (S n)) with ((l + 1) + Z.of_nat n) by lia.
    rewrite IH by lia. rewrite (seqZ_cons l) by lia.
    by replace (Z.pred (Z.of_nat (S n))) with (Z.of_nat n) by lia.
Qed.

(** ** Theorems *)

(** A canonical Sv39 address (its upper 26 bits all equal) survives the
    conversion to [VirtAddr] and back; [VirtAddr] keeps 39 bits of any
    [usize], and the two kernel constants at the top of the address space are
    canonical. *)
Theorem VirtAddr_roundtrip a :
  0 ≤ a < 2 ^ 38 ∨ 2 ^ 64 - 2 ^ 38 ≤ a < 2 ^ 64 →
  usize_of_VirtAddr (VirtAddr_from a) = a ∧ 0 ≤ VirtAddr_from a < 2 ^ 39 ∧
  usize_of_VirtAddr (VirtAddr_from TRAMPOLINE) = TRAMPOLINE ∧
  usize_of_VirtAddr (VirtAddr_from TRAP_CONTEXT_BASE) = TRAP_CONTEXT_BASE.
Proof.
  intros Ha. rewrite VirtAddr_from_eq.
  split; [|split; [by apply Z.mod_pos_bound|split; vm_compute; reflexivity]].
  unfold usize_of_VirtAddr, VA_WIDTH_SV39. change (Z.shiftl 1 (39 - 1)) with (2 ^ 38).
  destruct Ha as [Ha|Ha].
  - rewrite Z.mod_small by lia. by rewrite (proj2 (Z.leb_gt _ _)) by lia.
  - assert (E : a mod 2 ^ 39 = a - (2 ^ 64 - 2 ^ 39)).
    { rewrite <- (Z.mod_small (a - (2 ^ 64 - 2 ^ 39)) (2 ^ 39)) by lia.
      replace a with (a - (2 ^ 64 - 2 ^ 39) + (2 ^ 25 - 1) * 2 ^ 39) at 1 by lia.
      by rewrite Z.mod_add. }
    rewrite E, (proj2 (Z.leb_le _ _)), lor_high_mask by lia. lia.
Qed.

Lemma VirtAddr_roundtrip_witness :
  usize_of_VirtAddr (VirtAddr_from 0x10000) = 0x10000 ∧
  usize_of_VirtAddr (VirtAddr_from 0xffffffffffffe000) = 0xffffffffffffe000.
Proof.
  split; [apply (VirtAddr_roundtrip 0x10000); left; lia|].
  apply (VirtAddr_roundtrip 0xffffffffffffe000). right. lia.
Defined.

(** An address is its page number and its offset; [ceil] is the first page
    that starts at or above it; a page number survives the conversion to an
    address and back, and the conversion of an unaligned address panics. *)
Theorem page_arithmetic v n :
  0 ≤ v < 2 ^ 39 → 0 ≤ n ≤ 2 ^ 27 →
  v = floor v * PAGE_SIZE + page_offset v ∧ 0 ≤ page_offset v < PAGE_SIZE ∧
  (∀ k, ceil v ≤ k ↔ v ≤ k * PAGE_SIZE) ∧
  VirtPageNum_of_VirtAddr (VirtAddr_of_VirtPageNum n) = Ok n ∧
  VirtPageNum_of_VirtAddr v = if aligned v then Ok (floor v) else Fail Panic.
Proof.
  intros Hv Hn. rewrite page_offset_eq, ceil_eq by lia. unfold floor, PAGE_SIZE.
  split_and!; [Z.to_euclidean_division_equations; lia..| | |].
  - intros k. Z.to_euclidean_division_equations; lia.
  - rewrite VirtAddr_of_VirtPageNum_eq by lia. unfold VirtPageNum_of_VirtAddr.
    rewrite page_offset_eq, Z.mod_mul by lia. mstep. cbn [Z.eqb assert_]. unfold floor, PAGE_SIZE.
    by rewrite Z.div_mul by lia.
  - unfold VirtPageNum_of_VirtAddr, aligned. by destruct (page_offset v =? 0).
Qed.

Lemma page_arithmetic_witness :
  VirtPageNum_of_VirtAddr (VirtAddr_of_VirtPageNum 0x10) = Ok 0x10 ∧
  VirtPageNum_of_VirtAddr 0x10010 = Fail Panic.
Proof.
  destruct (page_arithmetic 0x10010 0x10) as (_ & _ & _ & E1 & E2); [lia..|].
  split; [exact E1|exact E2].
Defined.

(** The three page-table indexes of a page number are its three groups of
    nine bits, most significant first: each is below 512 and together they
    determine the page number. *)
Theorem indexes_decompose vpn :
  0 ≤ vpn < 2 ^ 27 →
  ∃ i0 i1 i2, indexes vpn = [i0; i1; i2] ∧
    0 ≤ i0 < 512 ∧ 0 ≤ i1 < 512 ∧ 0 ≤ i2 < 512 ∧ vpn = (i0 * 512 + i1) * 512 + i2.
Proof.
  intros Hv. rewrite indexes_eq. eexists _, _, _. split; [reflexivity|].
  Z.to_euclidean_division_equations; lia.
Qed.

Lemma indexes_decompose_witness :
  ∃ i0 i1 i2, indexes 0x7ffffff = [i0; i1; i2] ∧
    0 ≤ i0 < 512 ∧ 0 ≤ i1 < 512 ∧ 0 ≤ i2 < 512 ∧ 0x7ffffff = (i0 * 512 + i1) * 512 + i2.
Proof. apply (indexes_decompose 0x7ffffff). lia. Defined.

(** Iterating over a [VPNRange] yields every page number from its start up
    to, not including, its end, once each and in order, and stops; a range
    whose start is above its end cannot be made. *)
Theorem range_iterates l r :
  0 ≤ l < 2 ^ 64 → 0 ≤ r < 2 ^ 64 →
  (l ≤ r → (rg ← SimpleRange_new l r;
            range_collect (S (Z.to_nat (r - l))) (range_l rg, range_r rg)) = Ok (seqZ l (r - l))) ∧
  (r < l → SimpleRange_new l r = Fail Panic).
Proof.
  intros Hl Hr. split; intros Hlr; unfold SimpleRange_new.
  - rewrite (proj2 (Z.leb_le _ _)) by lia. mstep. cbn [assert_ range_l range_r].
    pose proof (range_collect_seqZ (Z.to_nat (r - l)) l (S (Z.to_nat (r - l)))) as E.
    rewrite Z2Nat.id in E by lia. replace (l + (r - l)) with r in E by lia. apply E; lia.
  - by rewrite (proj2 (Z.leb_gt _ _)) by lia.
Qed.

Lemma range_iterates_witness :
  (rg ← SimpleRange_new 3 6; range_collect 4 (range_l rg, range_r rg)) = Ok [3; 4; 5].
Proof. apply (range_iterates 3 6); lia. Defined.
