(* ===== verification/FrameAlloc.v ===== *)
(** * The physical frame allocator (os/src/mm/frame_allocator.rs)

    [StackFrameAllocator] hands out the page numbers between the end of the
    kernel and the end of memory, recycled ones first.  The specification is
    the set of frames in use.  The state of the memory modules is the physical
    memory, a map from page numbers to their 4096 bytes, and the allocator. *)

From S2P Require Import Prelude Bytes Address.

Record StackFrameAllocator := mkFA {
  current : Z;
  end_ : Z;
  recycled : list Z;
}.

Definition FA_new : StackFrameAllocator := mkFA 0 0 [].

Definition FA_init (fa : StackFrameAllocator) (l r : Z) : StackFrameAllocator :=
  mkFA l r (recycled fa).

Definition FA_alloc (fa : StackFrameAllocator) : option Z * StackFrameAllocator :=
  match pop (recycled fa) with
  | Some (ppn, recycled) => (Some (PhysPageNum_from ppn), mkFA (current fa) (end_ fa) recycled)
  | None =>
      if current fa =? end_ fa then (None, fa)
      else
        let current := current fa +ᵤ 1 in
        (Some (PhysPageNum_from (current -ᵤ 1)), mkFA current (end_ fa) (recycled fa))
  end.

Definition FA_dealloc (fa : StackFrameAllocator) (ppn : Z) : result StackFrameAllocator :=
  if (current fa <=? ppn) || existsb (λ v, v =? ppn) (recycled fa) then Fail Panic
  else mret (mkFA (current fa) (end_ fa) (recycled fa ++ [ppn])).

(** ** Physical memory *)

Record kmem := mkKmem {
  mem : gmap Z (list Z);
  frames : StackFrameAllocator;
}.

(** [ppn.get_bytes_array()]: an access outside the memory is a page fault in the
    kernel, which panics. *)
Definition get_bytes_array (ppn : Z) : M kmem (list Z) :=
  λ s, page ← unwrap (mem s !! ppn); Ok (page, s).
Definition set_bytes_array (ppn : Z) (page : list Z) : M kmem unit :=
  puts (λ s, mkKmem (<[ppn := page]> (mem s)) (frames s)).

Definition zero_page : list Z := replicate 4096 0.

(** [FrameTracker::new] cleans the page. *)
Definition FrameTracker_new (ppn : Z) : M kmem Z :=
  get_bytes_array ppn;;
  set_bytes_array ppn zero_page;;
  mret ppn.

Definition frame_alloc : M kmem (option Z) :=
  o ← (λ s, let '(o, fa) := FA_alloc (frames s) in Ok (o, mkKmem (mem s) fa));
  match o with
  | Some ppn => ppn ← FrameTracker_new ppn; mret (Some ppn)
  | None => mret None
  end.

Definition frame_dealloc (ppn : Z) : M kmem unit :=
  λ s, fa ← FA_dealloc (frames s) ppn; Ok (tt, mkKmem (mem s) fa).

(** [ekernel] is where the linker puts the end of the kernel image. *)
Definition init_frame_allocator (ekernel : Z) : M kmem unit :=
  puts (λ s, mkKmem (mem s)
    (FA_init (frames s) (PhysAddr_ceil (PhysAddr_from ekernel))
                        (PhysAddr_floor (PhysAddr_from MEMORY_END)))).

(** ** Specification: the frames in use *)

(** [start] is the first frame of the range given to [init]. *)
Definition fa_wf (start : Z) (fa : StackFrameAllocator) : Prop :=
  0 ≤ start ≤ current fa ∧ current fa ≤ end_ fa < 2 ^ 44 ∧
  NoDup (recycled fa) ∧ Forall (λ p, start ≤ p < current fa) (recycled fa).

Definition in_use (start : Z) (fa : StackFrameAllocator) (p : Z) : Prop :=
  start ≤ p < current fa ∧ p ∉ recycled fa.

Definition kmem_wf (start : Z) (s : kmem) : Prop :=
  fa_wf start (frames s) ∧
  (∀ p, start ≤ p < end_ (frames s) → is_Some (mem s !! p)) ∧
  (∀ p page, mem s !! p = Some page → length page = 4096%nat ∧ bytes page).

Lemma PhysPageNum_from_small p : 0 ≤ p < 2 ^ 44 → PhysPageNum_from p = p.
Proof.
  intros Hp. unfold PhysPageNum_from. rewrite land_mask by done. by apply Z.mod_small.
Qed.

Lemma FA_alloc_Some start fa p fa' :
  fa_wf start fa → FA_alloc fa = (Some p, fa') →
  start ≤ p < end_ fa ∧ ¬ in_use start fa p ∧ fa_wf start fa' ∧ end_ fa' = end_ fa ∧
  ∀ q, in_use start fa' q ↔ q = p ∨ in_use start fa q.
Proof.
  intros (Hs & He & Hnd & Hf) E. unfold FA_alloc in E.
  destruct (pop (recycled fa)) as [[x r]|] eqn:Ep.
  - apply pop_Some in Ep. rewrite Ep in Hnd, Hf. apply Forall_app in Hf as [Hf Hx].
    rewrite Forall_singleton in Hx. rewrite PhysPageNum_from_small in E by lia.
    apply NoDup_app in Hnd as (Hnd & Hd & _). injection E as <- <-.
    unfold in_use, fa_wf. cbn [current end_ recycled]. rewrite Ep.
    split; [lia|]. split; [|split; [split; [exact Hs|split; [exact He|by split]]|split; [done|]]].
    + intros [_ Hn]. apply Hn, elem_of_app. right. apply list_elem_of_here.
    + intros q. rewrite not_elem_of_app, not_elem_of_cons. split.
      * intros [Hq Hr]. destruct (decide (q = x)) as [|Hne]; [by left|right].
        split; [done|]. split; [done|]. split; [done|apply not_elem_of_nil].
      * intros [->|(Hq & Hr & _)]; [|done]. split; [done|]. intros Hin. apply (Hd x Hin).
        apply list_elem_of_here.
  - apply pop_None in Ep. destruct (Z.eqb_spec (current fa) (end_ fa)) as [|Hne]; [done|].
    injection E as <- <-. rewrite (u64_small (current fa + 1)) by lia.
    replace (current fa + 1 - 1) with (current fa) by lia.
    rewrite u64_small, PhysPageNum_from_small by lia.
    unfold in_use, fa_wf. cbn [current end_ recycled]. rewrite Ep.
    split; [lia|]. split; [intros [? _]; lia|].
    split; [split; [lia|]; split; [lia|]; split; constructor|]. split; [done|].
    intros q. split.
    + intros [Hq Hr]. destruct (decide (q = current fa)); [by left|right]. split; [lia|done].
    + intros [->|[Hq Hr]]; (split; [lia|apply not_elem_of_nil]).
Qed.

Lemma FA_alloc_None start fa fa' :
  fa_wf start fa → FA_alloc fa = (None, fa') →
  fa' = fa ∧ ∀ p, start ≤ p < end_ fa → in_use start fa p.
Proof.
  intros (Hs & He & Hnd & Hf) E. unfold FA_alloc in E.
  destruct (pop (recycled fa)) as [[x r]|] eqn:Ep; [done|]. apply pop_None in Ep.
  destruct (Z.eqb_spec (current fa) (end_ fa)) as [Hc|]; [|done]. injection E as <-.
  split; [done|]. intros p Hp. split; [lia|]. rewrite Ep. apply not_elem_of_nil.
Qed.

Lemma existsb_elem_of (p : Z) l : existsb (λ v, v =? p) l = bool_decide (p ∈ l).
Proof.
  induction l as [|x l IH]; [done|]. cbn [existsb]. rewrite IH.
  destruct (Z.eqb_spec x p) as [->|Hne]; simpl.
  - symmetry. apply bool_decide_eq_true, list_elem_of_here.
  - apply bool_decide_ext. rewrite elem_of_cons. split; [auto|]. intros [?|?]; [congruence|done].
Qed.

Lemma FA_dealloc_spec start fa p :
  fa_wf start fa → start ≤ p →
  (in_use start fa p →
   ∃ fa', FA_dealloc fa p = Ok fa' ∧ fa_wf start fa' ∧ end_ fa' = end_ fa ∧
          ∀ q, in_use start fa' q ↔ q ≠ p ∧ in_use start fa q) ∧
  (¬ in_use start fa p → FA_dealloc fa p = Fail Panic).
Proof.
  intros (Hs & He & Hnd & Hf) Hp. unfold FA_dealloc. rewrite existsb_elem_of. split.
  - intros [Hr Hn]. rewrite (proj2 (Z.leb_gt _ _)), bool_decide_false by (done || lia).
    eexists. split; [reflexivity|]. unfold in_use, fa_wf. cbn [current end_ recycled].
    split; [|split; [done|]].
    + split; [lia|]. split; [lia|]. split.
      * apply NoDup_app. split; [done|]. split; [|apply NoDup_singleton].
        intros x Hx. rewrite list_elem_of_singleton. by intros ->.
      * apply Forall_app. split; [done|]. by apply Forall_singleton.
    + intros q. rewrite not_elem_of_app, not_elem_of_cons. split.
      * intros (Hq & Hr1 & Hr2 & _). done.
      * intros (Hne & Hq & Hr1). split; [done|]. split; [done|]. split; [done|apply not_elem_of_nil].
  - intros Hn. destruct (Z.leb_spec (current fa) p); [done|]. cbn [orb].
    rewrite bool_decide_true; [done|]. apply dec_stable. intros Hnin. apply Hn. split; [lia|done].
Qed.

(** The number of free frames. *)
Definition nfree (fa : StackFrameAllocator) : nat :=
  (length (recycled fa) + Z.to_nat (end_ fa - current fa))%nat.

Lemma FA_alloc_nfree start fa :
  fa_wf start fa →
  match FA_alloc fa with
  | (Some _, fa') => nfree fa = S (nfree fa')
  | (None, _) => nfree fa = 0%nat
  end.
Proof.
  intros (Hs & He & _ & _). unfold FA_alloc, nfree.
  destruct (pop (recycled fa)) as [[x r]|] eqn:Ep.
  - apply pop_Some in Ep. rewrite Ep, length_app. cbn [length recycled end_ current]. lia.
  - apply pop_None in Ep. rewrite Ep. destruct (Z.eqb_spec (current fa) (end_ fa)); cbn [length].
    + lia.
    + cbn [recycled end_ current]. rewrite u64_small by lia. cbn [length]. lia.
Qed.

Lemma frame_alloc_cases start s :
  kmem_wf start s →
  (∃ p s', frame_alloc s = Ok (Some p, s') ∧ nfree (frames s) = S (nfree (frames s')) ∧
     start ≤ p < end_ (frames s) ∧ ¬ in_use start (frames s) p ∧
     mem s' = <[p := zero_page]> (mem s) ∧ kmem_wf start s' ∧
     end_ (frames s') = end_ (frames s) ∧
     ∀ q, in_use start (frames s') q ↔ q = p ∨ in_use start (frames s) q) ∨
  (frame_alloc s = Ok (None, s) ∧ nfree (frames s) = 0%nat ∧
   ∀ p, start ≤ p < end_ (frames s) → in_use start (frames s) p).
Proof.
  intros (Hfa & Hmem & Hpg). unfold frame_alloc, FrameTracker_new, get_bytes_array, set_bytes_array.
  mstep. assert (Hn := FA_alloc_nfree _ _ Hfa). destruct (FA_alloc (frames s)) as [[p|] fa] eqn:E.
  - left. destruct (FA_alloc_Some _ _ _ _ Hfa E) as (Hp & Hnu & Hwf & Hend & Huse).
    cbn [mem frames]. destruct (Hmem p Hp) as [page Epg]. rewrite Epg. cbn [unwrap mem frames].
    eexists p, _. split; [reflexivity|]. cbn [mem frames]. split; [done|]. split; [done|].
    split; [done|]. split; [done|]. split; [|done].
    split; [done|]. cbn [mem frames]. split.
    + rewrite Hend. intros q Hq. rewrite lookup_insert_is_Some.
      destruct (decide (p = q)); [by left|right; split; [done|by apply Hmem]].
    + intros q pg. rewrite lookup_insert_Some. intros [[<- <-]|[_ ?]]; [|by eapply Hpg].
      split; [apply length_replicate|apply bytes_replicate].
  - right. destruct (FA_alloc_None _ _ _ Hfa E) as [-> Hall]. split; [by destruct s|done].
Qed.

Lemma get_bytes_array_run s p page : mem s !! p = Some page → get_bytes_array p s = Ok (page, s).
Proof. intros E. unfold get_bytes_array. mstep. by rewrite E. Qed.

Lemma used_page start s p :
  kmem_wf start s → in_use start (frames s) p →
  0 ≤ p < 2 ^ 44 ∧ ∃ page, mem s !! p = Some page ∧ length page = 4096%nat ∧ bytes page.
Proof.
  intros ((Hs & He & _) & Hm & Hpg) [Hp _]. split; [lia|]. destruct (Hm p) as [page E]; [lia|].
  exists page. split; [done|]. by eapply Hpg.
Qed.

(** ** Growth of the memory in use *)

(** From [s] to [s'] the frames [fr] have been allocated, and of the frames that
    were in use before only those of [W] may have been written. *)
Record grows (start : Z) (W : list Z) (s s' : kmem) (fr : list Z) : Prop := {
  gr_kmem : kmem_wf start s';
  gr_end : end_ (frames s') = end_ (frames s);
  gr_nodup : NoDup fr;
  gr_fresh p : p ∈ fr → start ≤ p < end_ (frames s) ∧ ¬ in_use start (frames s) p;
  gr_use p : in_use start (frames s') p ↔ p ∈ fr ∨ in_use start (frames s) p;
  gr_mem p : (p ∉ fr) → (p ∉ W) → mem s' !! p = mem s !! p;
  gr_free : nfree (frames s) = (length fr + nfree (frames s'))%nat;
}.

Lemma grows_refl start W s : kmem_wf start s → grows start W s s [].
Proof.
  intros Hk. split; try done; [constructor|..].
  - by intros p ?%not_elem_of_nil.
  - intros p. rewrite elem_of_nil. tauto.
Qed.

Lemma grows_trans start W W2 s1 s2 s3 fr1 fr2 :
  grows start W s1 s2 fr1 → grows start W2 s2 s3 fr2 →
  (∀ p, p ∈ W2 → p ∈ W ∨ p ∈ fr1) → grows start W s1 s3 (fr1 ++ fr2).
Proof.
  intros H1 H2 HW. split.
  - apply H2.
  - by rewrite (gr_end _ _ _ _ _ H2), (gr_end _ _ _ _ _ H1).
  - apply NoDup_app. split; [apply H1|]. split; [|apply H2]. intros p Hp1 Hp2.
    apply (gr_fresh _ _ _ _ _ H2) in Hp2 as [_ Hn]. apply Hn, (gr_use _ _ _ _ _ H1). by left.
  - intros p [Hp|Hp]%elem_of_app; [by apply H1|].
    apply (gr_fresh _ _ _ _ _ H2) in Hp as [Hr Hn]. rewrite (gr_end _ _ _ _ _ H1) in Hr.
    split; [done|]. intros Hu. apply Hn, (gr_use _ _ _ _ _ H1). by right.
  - intros p. rewrite (gr_use _ _ _ _ _ H2), (gr_use _ _ _ _ _ H1), elem_of_app. tauto.
  - intros p [Hp1 Hp2]%not_elem_of_app HpW. rewrite (gr_mem _ _ _ _ _ H2) by (done || (intros Hin; by destruct (HW p Hin))).
    by apply H1.
  - rewrite (gr_free _ _ _ _ _ H1), (gr_free _ _ _ _ _ H2), length_app. lia.
Qed.

Lemma grows_weaken start W W' s s' fr :
  grows start W s s' fr → (∀ p, p ∈ W → p ∈ W') → grows start W' s s' fr.
Proof. intros [] HW. split; auto. Qed.

Lemma grows_perm start W s s' fr fr' :
  grows start W s s' fr → fr ≡ₚ fr' → grows start W s s' fr'.
Proof.
  intros [Hk He Hnd Hf Hu Hm Hn] Hp. split; try done.
  - by rewrite <- Hp.
  - intros p. rewrite <- Hp. apply Hf.
  - intros p. rewrite <- Hp. apply Hu.
  - intros p. rewrite <- Hp. apply Hm.
  - by rewrite <- Hp.
Qed.

(** Writing a page. *)
Lemma grows_write start s p page :
  kmem_wf start s → length page = 4096%nat → bytes page →
  grows start [p] s (mkKmem (<[p := page]> (mem s)) (frames s)) [].
Proof.
  intros (Hfa & Hm & Hpg) Hl Hb. split; cbn [mem frames]; try done; [|constructor|..].
  - split; [done|]. cbn [mem frames]. split.
    + intros q Hq. rewrite lookup_insert_is_Some. destruct (decide (p = q)); [by left|right; auto].
    + intros q pg. rewrite lookup_insert_Some. intros [[<- <-]|[_ ?]]; [done|by eapply Hpg].
  - by intros q ?%not_elem_of_nil.
  - intros q. rewrite elem_of_nil. tauto.
  - intros q _ Hq. rewrite lookup_insert_ne; [done|]. intros ->. apply Hq, list_elem_of_here.
Qed.

(** Allocating a frame, as long as there is one. *)
Lemma frame_alloc_run start s :
  kmem_wf start s → (0 < nfree (frames s))%nat →
  ∃ p s', frame_alloc s = Ok (Some p, s') ∧ grows start [] s s' [p] ∧
    mem s' = <[p := zero_page]> (mem s).
Proof.
  intros Hk Hn. destruct (frame_alloc_cases start s Hk)
    as [(p & s' & E & Hf & Hp & Hu & Hm & Hw & He & Hq)|(_ & H0 & _)]; [|lia].
  exists p, s'. split; [done|]. split; [|done]. split; try done.
  - apply NoDup_singleton.
  - by intros q ->%list_elem_of_singleton.
  - intros q. by rewrite list_elem_of_singleton.
  - intros q Hnq _. rewrite Hm, lookup_insert_ne; [done|]. intros ->. apply Hnq, list_elem_of_here.
Qed.

(** ** Frames given back *)

(** From [s] to [s'] the frames [fr] have been freed, and only frames of [W]
    may have been written. *)
Record shrinks (start : Z) (W : list Z) (s s' : kmem) (fr : list Z) : Prop := {
  sh_kmem : kmem_wf start s';
  sh_end : end_ (frames s') = end_ (frames s);
  sh_use p : in_use start (frames s') p ↔ (p ∉ fr) ∧ in_use start (frames s) p;
  sh_mem p : (p ∉ W) → mem s' !! p = mem s !! p;
}.

Lemma grows_shrinks start W s s' : grows start W s s' [] → shrinks start W s s' [].
Proof.
  intros [Hk He _ _ Hu Hm _]. split; try done.
  - intros p. rewrite Hu, elem_of_nil. tauto.
  - intros p. apply Hm, not_elem_of_nil.
Qed.

Lemma shrinks_refl start W s : kmem_wf start s → shrinks start W s s [].
Proof. intros. by apply grows_shrinks, grows_refl. Qed.

Lemma shrinks_trans start W s1 s2 s3 fr1 fr2 :
  shrinks start W s1 s2 fr1 → shrinks start W s2 s3 fr2 → shrinks start W s1 s3 (fr1 ++ fr2).
Proof.
  intros [Hk1 He1 Hu1 Hm1] [Hk2 He2 Hu2 Hm2]. split; [done|congruence| |].
  - intros p. rewrite Hu2, Hu1, not_elem_of_app. tauto.
  - intros p Hp. by rewrite Hm2, Hm1.
Qed.

Lemma shrinks_weaken start W W' s s' fr :
  shrinks start W s s' fr → (∀ p, p ∈ W → p ∈ W') → shrinks start W' s s' fr.
Proof. intros [] HW. split; auto. Qed.

Lemma shrinks_perm start W s s' fr fr' :
  shrinks start W s s' fr → fr ≡ₚ fr' → shrinks start W s s' fr'.
Proof. intros [Hk He Hu Hm] Hp. split; try done. intros p. rewrite <- Hp. apply Hu. Qed.

Lemma frame_dealloc_run start s p :
  kmem_wf start s → in_use start (frames s) p →
  ∃ s', frame_dealloc p s = Ok (tt, s') ∧ shrinks start [] s s' [p].
Proof.
  intros (Hfa & Hmem & Hpg) Hu. destruct (FA_dealloc_spec start (frames s) p Hfa) as [Hok _];
    [destruct Hu; lia|].
  destruct (Hok Hu) as (fa' & E & Hwf & Hend & Huse). unfold frame_dealloc. rewrite E.
  eexists. split; [reflexivity|]. split; cbn [mem frames]; [|done| |done].
  - split; [done|]. cbn [mem frames]. split; [|done]. by rewrite Hend.
  - intros q. by rewrite Huse, list_elem_of_singleton.
Qed.

(** ** Theorems *)

(** The frame allocator never hands out a frame that is in use: [frame_alloc]
    returns a frame of its range that was free, cleaned to zero, and marks that
    frame and no other as in use; it returns [None] only when every frame of
    the range is in use, and then changes nothing. *)
Theorem frame_alloc_fresh start s :
  kmem_wf start s →
  match frame_alloc s with
  | Ok (Some p, s') =>
      start ≤ p < end_ (frames s) ∧ ¬ in_use start (frames s) p ∧
      mem s' = <[p := zero_page]> (mem s) ∧ kmem_wf start s' ∧
      ∀ q, in_use start (frames s') q ↔ q = p ∨ in_use start (frames s) q
  | Ok (None, s') => s' = s ∧ ∀ p, start ≤ p < end_ (frames s) → in_use start (frames s) p
  | Fail _ => False
  end.
Proof.
  intros Hwf. destruct (frame_alloc_cases start s Hwf)
    as [(p & s' & -> & _ & Hp & Hu & Hm & Hw & _ & Hq)|(-> & _ & Hall)]; done.
Qed.

(** Two frames of memory, both free. *)
Definition demo_mem : kmem :=
  mkKmem {[ 5 := replicate 4096 9; 6 := replicate 4096 9 ]} (mkFA 5 7 []).

Lemma demo_mem_wf : kmem_wf 5 demo_mem.
Proof.
  split; [|split].
  - split; [done|]. split; [done|]. split; constructor.
  - intros p Hp. cbn [frames end_ demo_mem] in Hp. assert (p = 5 ∨ p = 6) as [->| ->] by lia; by eexists.
  - intros p page. unfold demo_mem. cbn [mem].
    rewrite lookup_insert_Some, lookup_singleton_Some. intros [[_ <-]|[_ [_ <-]]];
      (split; [apply length_replicate|by apply Forall_replicate]).
Qed.

Lemma frame_alloc_fresh_witness :
  match frame_alloc demo_mem with
  | Ok (Some p, s') => ¬ in_use 5 (frames demo_mem) p ∧ in_use 5 (frames s') p
  | _ => False
  end.
Proof.
  pose proof (frame_alloc_fresh 5 demo_mem demo_mem_wf) as H.
  destruct (frame_alloc demo_mem) as [[[p|] s']|f] eqn:E.
  - destruct H as (_ & Hnu & _ & _ & Huse). split; [exact Hnu|]. apply Huse. left. reflexivity.
  - vm_compute in E. discriminate E.
  - exact H.
Defined.

(** [frame_dealloc] of a frame in use frees that frame and no other; a frame
    that was never handed out, or was already freed (a double free), panics. *)
Theorem frame_dealloc_checked start s p :
  kmem_wf start s → start ≤ p →
  (in_use start (frames s) p →
   ∃ s', frame_dealloc p s = Ok (tt, s') ∧ mem s' = mem s ∧ kmem_wf start s' ∧
         ∀ q, in_use start (frames s') q ↔ q ≠ p ∧ in_use start (frames s) q) ∧
  (¬ in_use start (frames s) p → frame_dealloc p s = Fail Panic).
Proof.
  intros (Hfa & Hmem & Hpg) Hp. destruct (FA_dealloc_spec start (frames s) p Hfa Hp) as [Hok Hbad].
  unfold frame_dealloc. split.
  - intros Hu. destruct (Hok Hu) as (fa' & E & Hwf & Hend & Huse). rewrite E.
    eexists. split; [reflexivity|]. cbn [mem frames].
    split; [done|]. split; [|done]. split; [done|]. cbn [mem frames]. split; [|done].
    rewrite Hend. apply Hmem.
  - intros Hn. by rewrite Hbad.
Qed.

Lemma frame_dealloc_checked_witness :
  (∃ s', frame_dealloc 5 (mkKmem (mem demo_mem) (mkFA 6 7 [])) = Ok (tt, s')) ∧
  frame_dealloc 6 (mkKmem (mem demo_mem) (mkFA 6 7 [])) = Fail Panic.
Proof.
  assert (Hwf : kmem_wf 5 (mkKmem (mem demo_mem) (mkFA 6 7 []))).
  { destruct demo_mem_wf as (_ & H2 & H3). split; [|split; [exact H2|exact H3]].
    split; [done|]. split; [done|]. split; constructor. }
  split.
  - destruct (frame_dealloc_checked 5 _ 5 Hwf) as [Hok _]; [lia|].
    destruct Hok as (s' & E & _); [split; [cbn; lia|apply not_elem_of_nil]|]. exists s'. exact E.
  - apply (frame_dealloc_checked 5 _ 6 Hwf); [lia|]. intros [Hr _]. cbn in Hr. lia.
Defined.
