(* ===== verification/PageTable.v ===== *)
(** * The Sv39 page table (os/src/mm/page_table.rs)

    A page table is a root frame and the list of the frames that hold its
    tables; a table is a frame read as 512 little-endian entries.  [map],
    [unmap] and [translate] walk the three levels.  The specification is the
    finite map from virtual page numbers to the valid leaf entries. *)

From S2P Require Import Prelude Bytes Address FrameAlloc.

(** ** Page table entries *)

(** [PTEFlags]: a [u8] with all eight bits defined *)
Definition PTE_V : Z := Z.shiftl 1 0.
Definition PTE_R : Z := Z.shiftl 1 1.
Definition PTE_W : Z := Z.shiftl 1 2.
Definition PTE_X : Z := Z.shiftl 1 3.
Definition PTE_U : Z := Z.shiftl 1 4.
Definition PTE_G : Z := Z.shiftl 1 5.
Definition PTE_A : Z := Z.shiftl 1 6.
Definition PTE_D : Z := Z.shiftl 1 7.

(** A [PageTableEntry] is its [bits]. *)
Definition PTE_new (ppn flags : Z) : Z := Z.lor (u64 (Z.shiftl ppn 10)) flags.
Definition PTE_empty : Z := 0.
Definition PTE_ppn (bits : Z) : Z :=
  PhysPageNum_from (Z.land (Z.shiftr bits 10) (Z.shiftl 1 44 - 1)).
Definition PTE_flags (bits : Z) : Z := u8 bits.
Definition PTE_is_valid (bits : Z) : bool := negb (Z.land (PTE_flags bits) PTE_V =? 0).
Definition PTE_readable (bits : Z) : bool := negb (Z.land (PTE_flags bits) PTE_R =? 0).
Definition PTE_writable (bits : Z) : bool := negb (Z.land (PTE_flags bits) PTE_W =? 0).
Definition PTE_executable (bits : Z) : bool := negb (Z.land (PTE_flags bits) PTE_X =? 0).

(** ** Page tables *)

Record PageTable := mkPT {
  root_ppn : Z;
  pt_frames : list Z;
}.

(** Reading and writing the entry [idx] of [ppn.get_pte_array()] *)
Definition read_pte (ppn idx : Z) : M kmem Z :=
  page ← get_bytes_array ppn;
  mret (rd 8 (8 * Z.to_nat idx) page).
Definition write_pte (ppn idx bits : Z) : M kmem unit :=
  page ← get_bytes_array ppn;
  set_bytes_array ppn (wr 8 (8 * Z.to_nat idx) bits page).

Definition PageTable_new : M kmem PageTable :=
  o ← frame_alloc;
  frame ← lift (unwrap o);
  mret (mkPT frame [frame]).

Definition from_token (satp : Z) : PageTable :=
  mkPT (PhysPageNum_from (Z.land satp (Z.shiftl 1 44 - 1))) [].

Definition token (pt : PageTable) : Z := Z.lor (u64 (Z.shiftl 8 60)) (root_ppn pt).

(** One level of [find_pte_create]: an invalid entry gets a new table. *)
Definition ensure_pte (ppn idx : Z) (pt : PageTable) : M kmem (Z * PageTable) :=
  pte ← read_pte ppn idx;
  if negb (PTE_is_valid pte) then
    o ← frame_alloc;
    frame ← lift (unwrap o);
    write_pte ppn idx (PTE_new frame PTE_V);;
    mret (PTE_new frame PTE_V, mkPT (root_ppn pt) (pt_frames pt ++ [frame]))
  else mret (pte, pt).

(** The loop of [find_pte_create]; a [&mut PageTableEntry] is the table's page
    number and the index. *)
Fixpoint walk_create (i : nat) (idxs : list Z) (ppn : Z) (pt : PageTable) :
    M kmem (option (Z * Z) * PageTable) :=
  match idxs with
  | [] => mret (None, pt)
  | idx :: idxs =>
      if (i =? 2)%nat then mret (Some (ppn, idx), pt) else
      '(pte, pt) ← ensure_pte ppn idx pt;
      walk_create (S i) idxs (PTE_ppn pte) pt
  end.

Definition find_pte_create (pt : PageTable) (vpn : Z) : M kmem (option (Z * Z) * PageTable) :=
  walk_create 0 (indexes vpn) (root_ppn pt) pt.

(** The loop of [find_pte] *)
Fixpoint walk_find (i : nat) (idxs : list Z) (ppn : Z) : M kmem (option (Z * Z)) :=
  match idxs with
  | [] => mret None
  | idx :: idxs =>
      if (i =? 2)%nat then mret (Some (ppn, idx)) else
      pte ← read_pte ppn idx;
      if negb (PTE_is_valid pte) then mret None
      else walk_find (S i) idxs (PTE_ppn pte)
  end.

Definition find_pte (pt : PageTable) (vpn : Z) : M kmem (option (Z * Z)) :=
  walk_find 0 (indexes vpn) (root_ppn pt).

Definition map (pt : PageTable) (vpn ppn flags : Z) : M kmem PageTable :=
  '(o, pt) ← find_pte_create pt vpn;
  '(t, idx) ← lift (unwrap o);
  pte ← read_pte t idx;
  lift (assert_ (negb (PTE_is_valid pte)));;
  write_pte t idx (PTE_new ppn (Z.lor flags PTE_V));;
  mret pt.

Definition unmap (pt : PageTable) (vpn : Z) : M kmem unit :=
  o ← find_pte pt vpn;
  '(t, idx) ← lift (unwrap o);
  pte ← read_pte t idx;
  lift (assert_ (PTE_is_valid pte));;
  write_pte t idx PTE_empty.

Definition translate (pt : PageTable) (vpn : Z) : M kmem (option Z) :=
  o ← find_pte pt vpn;
  match o with
  | Some (t, idx) => pte ← read_pte t idx; mret (Some pte)
  | None => mret None
  end.

Definition translate_va (pt : PageTable) (va : Z) : M kmem (option Z) :=
  o ← find_pte pt (floor va);
  match o with
  | Some (t, idx) =>
      pte ← read_pte t idx;
      let aligned_pa := PhysAddr_of_PhysPageNum (PTE_ppn pte) in
      let offset := page_offset va in
      mret (Some (PhysAddr_from (aligned_pa +ᵤ offset)))
  | None => mret None
  end.

(** ** Entries *)

Lemma PTE_is_valid_bit b : PTE_is_valid b = Z.testbit b 0.
Proof.
  unfold PTE_is_valid, PTE_flags, u8, PTE_V. change (Z.shiftl 1 0) with (Z.ones 1).
  rewrite Z.land_ones by lia. rewrite Z.bit0_odd, Zodd_mod.
  change (2 ^ 1) with 2. rewrite Z.mod_mod_divide by (by exists 128).
  assert (b mod 2 = 0 ∨ b mod 2 = 1) as [-> | ->]; [|done|done].
  pose proof (Z.mod_pos_bound b 2). lia.
Qed.

Lemma lor_flags ppn flags :
  0 ≤ ppn < 2 ^ 44 → 0 ≤ flags < 2 ^ 8 →
  PTE_new ppn flags = ppn * 2 ^ 10 + flags ∧ 0 ≤ PTE_new ppn flags < 2 ^ 64.
Proof.
  intros Hp Hf. unfold PTE_new. rewrite Z.shiftl_mul_pow2 by lia. rewrite u64_small by lia.
  assert (E : Z.land (ppn * 2 ^ 10) flags = 0).
  { apply Z.bits_inj'. intros i Hi. rewrite Z.land_spec, Z.bits_0.
    destruct (decide (i < 10)).
    - by rewrite Z.mul_pow2_bits_low by lia.
    - rewrite <- (Z.mod_small flags (2 ^ 10)) by lia.
      by rewrite Z.mod_pow2_bits_high, andb_false_r by lia. }
  rewrite <- Z.lxor_lor, <- Z.add_nocarry_lxor by done. lia.
Qed.

Lemma PTE_ppn_eq b : PTE_ppn b = b / 2 ^ 10 mod 2 ^ 44.
Proof.
  unfold PTE_ppn. fold (mask 44). unfold PhysPageNum_from. rewrite !land_mask by done.
  rewrite Z.shiftr_div_pow2 by lia. by rewrite Z.mod_mod.
Qed.

Lemma PTE_ppn_new ppn flags :
  0 ≤ ppn < 2 ^ 44 → 0 ≤ flags < 2 ^ 8 → PTE_ppn (PTE_new ppn flags) = ppn.
Proof.
  intros Hp Hf. rewrite PTE_ppn_eq, (proj1 (lor_flags ppn flags Hp Hf)).
  rewrite Z.div_add_l, (Z.div_small flags), Z.add_0_r by lia. by apply Z.mod_small.
Qed.

Lemma PTE_flags_new ppn flags :
  0 ≤ ppn < 2 ^ 44 → 0 ≤ flags < 2 ^ 8 → PTE_flags (PTE_new ppn flags) = flags.
Proof.
  intros Hp Hf. rewrite (proj1 (lor_flags ppn flags Hp Hf)). unfold PTE_flags, u8.
  replace (ppn * 2 ^ 10 + flags) with (flags + (ppn * 4) * 2 ^ 8) by lia.
  rewrite Z.mod_add by lia. by apply Z.mod_small.
Qed.

Lemma PTE_ppn_range b : 0 ≤ PTE_ppn b < 2 ^ 44.
Proof. rewrite PTE_ppn_eq. by apply Z.mod_pos_bound. Qed.

Lemma lor_V flags : 0 ≤ flags < 2 ^ 8 →
  0 ≤ Z.lor flags PTE_V < 2 ^ 8 ∧ Z.testbit (Z.lor flags PTE_V) 0 = true.
Proof.
  intros Hf.
  assert (Hall : forallb (λ f, (0 <=? Z.lor f PTE_V) && (Z.lor f PTE_V <? 2 ^ 8) &&
                            Z.testbit (Z.lor f PTE_V) 0) (seqZ 0 256) = true) by (vm_compute; reflexivity).
  rewrite forallb_forall in Hall. specialize (Hall flags).
  rewrite !andb_true_iff, Z.leb_le, Z.ltb_lt in Hall. apply and_assoc.
  destruct Hall as [[? ?] ?]; [apply list_elem_of_In, elem_of_seqZ; lia|]. done.
Qed.

Lemma PTE_valid_new ppn flags :
  0 ≤ ppn < 2 ^ 44 → 0 ≤ flags < 2 ^ 8 → Z.testbit flags 0 = true →
  PTE_is_valid (PTE_new ppn flags) = true.
Proof.
  intros Hp Hf Ht. rewrite PTE_is_valid_bit, (proj1 (lor_flags ppn flags Hp Hf)).
  rewrite Z.bit0_odd in *. rewrite Z.odd_add, Ht.
  replace (ppn * 2 ^ 10) with (2 * (ppn * 2 ^ 9)) by lia. by rewrite Z.odd_mul.
Qed.

Lemma PTE_valid_empty : PTE_is_valid 0 = false.
Proof. done. Qed.

(** ** Specification: the tree and the mapping *)

Definition pte_at (m : gmap Z (list Z)) (p i : Z) : Z := rd 8 (8 * Z.to_nat i) (m !!! p).

(** The table a valid entry points to. *)
Definition child (m : gmap Z (list Z)) (p i : Z) : option Z :=
  if PTE_is_valid (pte_at m p i) then Some (PTE_ppn (pte_at m p i)) else None.

(** The table at the end of a path of indexes. *)
Definition walk (m : gmap Z (list Z)) (p : Z) (path : list Z) : option Z :=
  foldl (λ o i, o ≫= λ q, child m q i) (Some p) path.

(** The valid leaf entry of a virtual page. *)
Definition leaf (m : gmap Z (list Z)) (root vpn : Z) : option Z :=
  t ← walk m root (take 2 (indexes vpn));
  let b := pte_at m t (vpn mod 512) in
  if PTE_is_valid b then Some b else None.

Definition index_ok (i : Z) : Prop := 0 ≤ i < 512.

(** The tables form a tree: every table is a frame of its own. *)
Record pt_wf (start : Z) (s : kmem) (pt : PageTable) : Prop := {
  pt_kmem : kmem_wf start s;
  pt_root : root_ppn pt ∈ pt_frames pt;
  pt_nodup : NoDup (pt_frames pt);
  pt_used p : p ∈ pt_frames pt → in_use start (frames s) p;
  pt_closed path p : (length path ≤ 2)%nat → Forall index_ok path →
    walk (mem s) (root_ppn pt) path = Some p → p ∈ pt_frames pt;
  pt_tree a b p : (length a ≤ 2)%nat → (length b ≤ 2)%nat → Forall index_ok a → Forall index_ok b →
    walk (mem s) (root_ppn pt) a = Some p → walk (mem s) (root_ppn pt) b = Some p → a = b;
}.

Definition put_pte (m : gmap Z (list Z)) (p i bits : Z) : gmap Z (list Z) :=
  <[p := wr 8 (8 * Z.to_nat i) bits (m !!! p)]> m.

Lemma walk_snoc m p path i : walk m p (path ++ [i]) = walk m p path ≫= λ q, child m q i.
Proof. unfold walk. by rewrite foldl_app. Qed.

Lemma pte_at_put m p i bits q j :
  length (m !!! p) = 4096%nat → index_ok i → index_ok j → 0 ≤ bits < 2 ^ 64 →
  pte_at (put_pte m p i bits) q j = if decide (q = p ∧ j = i) then bits else pte_at m q j.
Proof.
  intros Hl Hi Hj Hb. unfold pte_at, put_pte, index_ok in *.
  destruct (decide (q = p)) as [->|Hne].
  - rewrite lookup_total_insert_eq. destruct (decide (j = i)) as [->|Hji].
    + rewrite decide_True by done. apply rd_wr_eq; [lia|]. exact Hb.
    + rewrite decide_False by naive_solver. apply rd_wr_ne; lia.
  - rewrite lookup_total_insert_ne, decide_False by naive_solver. done.
Qed.

Lemma child_put m p i bits q j :
  length (m !!! p) = 4096%nat → index_ok i → index_ok j → 0 ≤ bits < 2 ^ 64 →
  ¬ (q = p ∧ j = i) → child (put_pte m p i bits) q j = child m q j.
Proof. intros. unfold child. by rewrite pte_at_put, decide_False. Qed.

(** Writing an entry changes the walks through it only. *)
Lemma walk_put m root a p i bits path :
  length (m !!! p) = 4096%nat → index_ok i → 0 ≤ bits < 2 ^ 64 →
  (∀ b, (length b ≤ 2)%nat → Forall index_ok b → walk m root b = Some p → b = a) →
  (length path ≤ 3)%nat → Forall index_ok path → ¬ (a ++ [i]) `prefix_of` path →
  walk (put_pte m p i bits) root path = walk m root path.
Proof.
  intros Hl Hi Hb Hinj. induction path as [|j path IH] using rev_ind; intros Hlen Hok Hnp; [done|].
  apply Forall_app in Hok as [Hok Hj]. rewrite Forall_singleton in Hj.
  rewrite length_app in Hlen. cbn [length] in Hlen. rewrite !walk_snoc.
  rewrite IH; [|lia|done|].
  - destruct (walk m root path) as [q|] eqn:E; [|done]. simpl. apply child_put; [done..|].
    intros [-> ->]. apply Hnp. rewrite (Hinj path) by (done || lia). done.
  - intros Hp. apply Hnp. by apply prefix_app_r.
Qed.

(** A fresh page changes no walk. *)
Lemma walk_fresh m root f page path :
  (∀ b, b `prefix_of` path → b ≠ path → walk m root b ≠ Some f) →
  walk (<[f := page]> m) root path = walk m root path.
Proof.
  induction path as [|j path IH] using rev_ind; intros Hf; [done|]. rewrite !walk_snoc.
  assert (Hne : path ≠ path ++ [j]).
  { intros E. apply (f_equal length) in E. rewrite length_app in E. simpl in E. lia. }
  rewrite IH.
  - destruct (walk m root path) as [q|] eqn:E; [|done]. simpl. unfold child, pte_at.
    rewrite lookup_total_insert_ne; [done|]. intros ->. apply (Hf path); [by eexists|done|done].
  - intros b Hb Hbp. apply Hf; [by apply prefix_app_r|]. intros ->.
    apply prefix_length in Hb. rewrite length_app in Hb. simpl in Hb. lia.
Qed.

Lemma read_pte_run s p i :
  is_Some (mem s !! p) → read_pte p i s = Ok (pte_at (mem s) p i, s).
Proof.
  intros [page E]. unfold read_pte, get_bytes_array, pte_at. mstep. rewrite E. cbn [unwrap].
  by rewrite (lookup_total_correct _ _ _ E).
Qed.

Lemma write_pte_run s p i bits :
  is_Some (mem s !! p) → write_pte p i bits s = Ok (tt, mkKmem (put_pte (mem s) p i bits) (frames s)).
Proof.
  intros [page E]. unfold write_pte, get_bytes_array, set_bytes_array, put_pte. mstep. rewrite E.
  cbn [unwrap]. by rewrite (lookup_total_correct _ _ _ E).
Qed.

Lemma put_pte_grows start s p i bits :
  kmem_wf start s → index_ok i → is_Some (mem s !! p) →
  grows start [p] s (mkKmem (put_pte (mem s) p i bits) (frames s)) [].
Proof.
  intros Hk Hi [pg E]. destruct Hk as (Hfa & Hm & Hpg) eqn:Ek. destruct (Hpg p pg E) as [Hl Hb].
  unfold put_pte. rewrite (lookup_total_correct _ _ _ E). apply grows_write; [done| |].
  - rewrite length_wr; unfold index_ok in Hi; lia.
  - by apply bytes_wr.
Qed.

Lemma pt_present start s pt p :
  pt_wf start s pt → p ∈ pt_frames pt →
  is_Some (mem s !! p) ∧ length (mem s !!! p) = 4096%nat ∧ 0 ≤ p < 2 ^ 44.
Proof.
  intros Hwf Hp. destruct (pt_used _ _ _ Hwf p Hp) as [Hr _].
  destruct (pt_kmem _ _ _ Hwf) as ((Hs & He & _) & Hm & Hpg).
  destruct (Hm p) as [page E]; [lia|]. split; [by eexists|].
  rewrite (lookup_total_correct _ _ _ E). split; [by eapply Hpg|lia].
Qed.

Lemma walk_through m root a i p path :
  walk m root a = Some p → child m p i = None → (a ++ [i]) `prefix_of` path →
  walk m root path = None.
Proof.
  intros Ha Hc [k ->]. unfold walk in *. rewrite foldl_app, foldl_app, Ha. simpl. rewrite Hc.
  induction k as [|j k IH]; [done|exact IH].
Qed.

Section create.
Context (start : Z) (s : kmem) (pt : PageTable) (a : list Z) (i p f : Z) (fa : StackFrameAllocator).
Context (Hwf : pt_wf start s pt) (Hal : (length a ≤ 1)%nat) (Hao : Forall index_ok a) (Hi : index_ok i).
Context (Hp : walk (mem s) (root_ppn pt) a = Some p) (Hc : child (mem s) p i = None).
Context (Hf : start ≤ f < end_ (frames s)) (Hnu : ¬ in_use start (frames s) f).

Let m1 := <[f := zero_page]> (mem s).
Let m2 := put_pte m1 p i (PTE_new f PTE_V).
Let s2 := mkKmem m2 fa.
Let pt2 := mkPT (root_ppn pt) (pt_frames pt ++ [f]).

Lemma create_facts :
  (f ∉ pt_frames pt) ∧ p ∈ pt_frames pt ∧ p ≠ f ∧ 0 ≤ f < 2 ^ 44 ∧
  length (mem s !!! p) = 4096%nat ∧ length (m1 !!! p) = 4096%nat ∧ is_Some (mem s !! p) ∧
  0 ≤ PTE_new f PTE_V < 2 ^ 64.
Proof.
  assert (Hfn : f ∉ pt_frames pt) by (intros Hin; by apply Hnu, (pt_used _ _ _ Hwf)).
  assert (Hpf : p ∈ pt_frames pt) by (apply (pt_closed _ _ _ Hwf a); [lia|done..]).
  assert (Hne : p ≠ f) by (by intros ->).
  destruct (pt_present _ _ _ _ Hwf Hpf) as (Hs & Hl & _).
  destruct (pt_kmem _ _ _ Hwf) as ((Hs0 & He & _) & _).
  split_and!; try done; try lia.
  - unfold m1. by rewrite lookup_total_insert_ne.
  - apply lor_flags; [lia|vm_compute; done].
  - apply lor_flags; [lia|vm_compute; done].
Qed.

Lemma walk_m1 path : (length path ≤ 3)%nat → Forall index_ok path →
  walk m1 (root_ppn pt) path = walk (mem s) (root_ppn pt) path.
Proof.
  intros Hl Hok. apply walk_fresh. intros b [k ->] Hne Hw.
  apply Forall_app in Hok as [Hok _]. rewrite length_app in Hl.
  destruct k as [|x k]; [by rewrite app_nil_r in Hne|]. cbn [length] in Hl.
  destruct create_facts as [Hfn _]. apply Hfn, (pt_closed _ _ _ Hwf b); [lia|done..].
Qed.

Lemma walk_m1_inj b : (length b ≤ 2)%nat → Forall index_ok b →
  walk m1 (root_ppn pt) b = Some p → b = a.
Proof.
  intros Hl Hok Hw. rewrite walk_m1 in Hw by (done || lia).
  apply (pt_tree _ _ _ Hwf b a p); (done || lia).
Qed.

Lemma child_m2_new : child m2 p i = Some f.
Proof.
  destruct create_facts as (_ & _ & Hne & Hfr & _ & Hl1 & _ & Hb). unfold child, m2.
  rewrite pte_at_put, decide_True by done.
  rewrite PTE_valid_new, PTE_ppn_new by (done || (vm_compute; done)). done.
Qed.

Lemma pte_at_m2_f j : index_ok j → pte_at m2 f j = 0.
Proof.
  intros Hj. destruct create_facts as (_ & _ & Hne & Hfr & _ & Hl1 & _ & Hb). unfold m2.
  rewrite pte_at_put, decide_False by naive_solver. unfold pte_at, m1.
  rewrite lookup_total_insert_eq. apply rd_replicate. unfold index_ok in Hj. lia.
Qed.

(** The only new walk is the one to the new table. *)
Lemma walk_m2 path : (length path ≤ 3)%nat → Forall index_ok path →
  walk m2 (root_ppn pt) path =
    if decide (path = a ++ [i]) then Some f else walk (mem s) (root_ppn pt) path.
Proof.
  intros Hl Hok. destruct create_facts as (_ & _ & Hne & Hfr & _ & Hl1 & _ & Hb).
  assert (Hsame : ∀ path, (length path ≤ 3)%nat → Forall index_ok path →
    ¬ (a ++ [i]) `prefix_of` path → walk m2 (root_ppn pt) path = walk (mem s) (root_ppn pt) path).
  { intros b Hbl Hbo Hnp. unfold m2. rewrite (walk_put _ _ a) by (done || apply walk_m1_inj).
    by apply walk_m1. }
  assert (Hnew : walk m2 (root_ppn pt) (a ++ [i]) = Some f).
  { rewrite walk_snoc, Hsame, Hp by (done || lia || (intros Hpr; apply prefix_length in Hpr;
      rewrite length_app in Hpr; simpl in Hpr; lia)). exact child_m2_new. }
  case_decide as Hd; [by rewrite Hd|].
  destruct (decide ((a ++ [i]) `prefix_of` path)) as [Hpr|Hpr]; [|by apply Hsame].
  rewrite (walk_through (mem s) (root_ppn pt) a i p path) by done.
  destruct Hpr as [[|j k] ->]; [by rewrite app_nil_r in Hd|].
  apply Forall_app in Hok as [_ Hok]. apply Forall_cons in Hok as [Hj _].
  apply (walk_through m2 (root_ppn pt) (a ++ [i]) j f); [done| |by exists k; rewrite <- !app_assoc].
  unfold child. by rewrite pte_at_m2_f.
Qed.

Context (Hk1 : kmem_wf start (mkKmem m1 fa)).
Context (Hu1 : ∀ q, in_use start fa q ↔ q = f ∨ in_use start (frames s) q).

Lemma create_kmem : kmem_wf start s2.
Proof.
  destruct create_facts as (_ & _ & _ & _ & _ & Hl1 & _ & _).
  destruct Hk1 as (Hfa & Hm & Hpg). cbn [mem frames] in *. split; [done|]. unfold s2, m2, put_pte.
  cbn [mem frames]. split.
  - intros q Hq. rewrite lookup_insert_is_Some. destruct (decide (p = q)); [by left|right; auto].
  - intros q page. rewrite lookup_insert_Some. intros [[<- <-]|[_ ?]]; [|by eapply Hpg].
    split; [rewrite length_wr; unfold index_ok in Hi; lia|].
    destruct (m1 !! p) as [pg|] eqn:E.
    + rewrite (lookup_total_correct _ _ _ E). apply bytes_wr. by eapply Hpg.
    + rewrite lookup_total_alt, E in Hl1. done.
Qed.

Lemma create_wf : pt_wf start s2 pt2.
Proof.
  destruct create_facts as (Hfn & Hpf & Hne & Hfr & _).
  assert (Hsnoc : ∀ b, b = a ++ [i] → (length b ≤ 2)%nat ∧ Forall index_ok b).
  { intros b ->. rewrite length_app. simpl. split; [lia|]. apply Forall_app. split; [done|].
    by apply Forall_singleton. }
  split.
  - exact create_kmem.
  - apply elem_of_app. left. apply (pt_root _ _ _ Hwf).
  - apply NoDup_app. split; [apply (pt_nodup _ _ _ Hwf)|]. split; [|apply NoDup_singleton].
    intros x Hx. rewrite list_elem_of_singleton. by intros ->.
  - intros q [Hq|Hq%list_elem_of_singleton]%elem_of_app; apply Hu1;
      [right; by apply (pt_used _ _ _ Hwf)|by left].
  - intros path q Hl Hok. cbn [mem root_ppn pt_frames s2 pt2]. unfold s2, pt2. cbn [mem root_ppn pt_frames].
    rewrite walk_m2 by (done || lia). case_decide.
    + intros [= <-]. apply elem_of_app. right. apply list_elem_of_here.
    + intros Hw. apply elem_of_app. left. by apply (pt_closed _ _ _ Hwf path).
  - intros b c q Hbl Hcl Hbo Hco. unfold s2, pt2. cbn [mem root_ppn].
    rewrite !walk_m2 by (done || lia). intros Hwb Hwc.
    destruct (decide (b = a ++ [i])) as [->|Hb]; destruct (decide (c = a ++ [i])) as [->|Hc'].
    + done.
    + injection Hwb as <-. exfalso. apply Hfn. by apply (pt_closed _ _ _ Hwf c).
    + injection Hwc as <-. exfalso. apply Hfn. by apply (pt_closed _ _ _ Hwf b).
    + by apply (pt_tree _ _ _ Hwf b c q).
Qed.

Lemma create_leaf vpn : 0 ≤ vpn < 2 ^ 27 → leaf m2 (root_ppn pt) vpn = leaf (mem s) (root_ppn pt) vpn.
Proof.
  intros Hv. destruct create_facts as (Hfn & Hpf & Hne & Hfr & _ & Hl1 & _ & Hb).
  unfold leaf. rewrite indexes_eq. cbn [take].
  set (path := [vpn / 2 ^ 18 mod 512; vpn / 2 ^ 9 mod 512]).
  assert (Hpo : Forall index_ok path)
    by (repeat constructor; apply Z.mod_pos_bound; lia).
  assert (Hj : index_ok (vpn mod 512)) by (by apply Z.mod_pos_bound).
  rewrite walk_m2 by (done || (simpl; lia)). case_decide as Hd.
  - rewrite Hd. rewrite (walk_through (mem s) (root_ppn pt) a i p (a ++ [i])) by done.
    simpl. by rewrite pte_at_m2_f.
  - destruct (walk (mem s) (root_ppn pt) path) as [t|] eqn:Ew; [|done]. simpl.
    assert (Htf : t ∈ pt_frames pt) by (apply (pt_closed _ _ _ Hwf path); [simpl; lia|done..]).
    assert (Htp : t ≠ p).
    { intros ->. assert (path = a) as E by (apply (pt_tree _ _ _ Hwf path a p); (done || simpl; lia)).
      apply (f_equal length) in E. simpl in E. lia. }
    assert (pte_at m2 t (vpn mod 512) = pte_at (mem s) t (vpn mod 512)) as ->; [|done].
    unfold m2. rewrite pte_at_put, decide_False by naive_solver. unfold pte_at, m1.
    rewrite lookup_total_insert_ne; [done|]. by intros ->.
Qed.
End create.

(** One level of the walk: after [ensure_pte] the entry is valid, and no mapping
    has changed. *)
Lemma ensure_pte_run start s pt a i p :
  pt_wf start s pt → (length a ≤ 1)%nat → Forall index_ok a → index_ok i →
  walk (mem s) (root_ppn pt) a = Some p → (0 < nfree (frames s))%nat →
  ∃ pte pt' s' q fr, ensure_pte p i pt s = Ok ((pte, pt'), s') ∧ PTE_ppn pte = q ∧
    pt_wf start s' pt' ∧ pt' = mkPT (root_ppn pt) (pt_frames pt ++ fr) ∧ (length fr ≤ 1)%nat ∧
    grows start (pt_frames pt) s s' fr ∧
    walk (mem s') (root_ppn pt) (a ++ [i]) = Some q ∧
    (∀ vpn, 0 ≤ vpn < 2 ^ 27 → leaf (mem s') (root_ppn pt) vpn = leaf (mem s) (root_ppn pt) vpn).
Proof.
  intros Hwf Hal Hao Hi Hp Hfree.
  assert (Hpf : p ∈ pt_frames pt) by (apply (pt_closed _ _ _ Hwf a); [lia|done..]).
  destruct (pt_present _ _ _ _ Hwf Hpf) as (Hps & Hpl & _).
  unfold ensure_pte. mstep. rewrite read_pte_run by done.
  destruct (PTE_is_valid (pte_at (mem s) p i)) eqn:Ev; cbn [negb].
  - exists (pte_at (mem s) p i), pt, s, (PTE_ppn (pte_at (mem s) p i)), []. split_and!; try done.
    + rewrite app_nil_r. by destruct pt.
    + simpl. lia.
    + apply grows_refl, Hwf.
    + rewrite walk_snoc, Hp. simpl. unfold child. by rewrite Ev.
  - assert (Hc : child (mem s) p i = None) by (unfold child; by rewrite Ev).
    destruct (frame_alloc_run start s (pt_kmem _ _ _ Hwf) Hfree) as (f & s1 & E & Hg & Hm).
    rewrite E. cbn [unwrap]. destruct s1 as [m1 fa]. cbn [mem frames] in *. subst m1.
    destruct (gr_fresh _ _ _ _ _ Hg f) as [Hf Hnu]; [apply list_elem_of_here|].
    assert (Hu : ∀ q, in_use start fa q ↔ q = f ∨ in_use start (frames s) q)
      by (intros q; rewrite <- list_elem_of_singleton; apply (gr_use _ _ _ _ _ Hg)).
    destruct (create_facts start s pt a i p f fa Hwf Hal Hao Hp Hc Hf Hnu)
      as (_ & _ & Hne & Hfr & _ & _ & _ & _).
    rewrite write_pte_run by (cbn [mem]; by rewrite lookup_insert_ne).
    cbn [mem frames]. eexists _, _, _, f, [f]. split; [reflexivity|].
    split; [apply PTE_ppn_new; [lia|vm_compute; done]|].
    split; [by eapply create_wf; try done; apply Hg|]. split; [done|]. split; [simpl; lia|].
    cbn [mem frames]. split_and!.
    + eapply (grows_trans _ _ [p] _ _ _ [f] []);
        [eapply grows_weaken; [exact Hg|by intros ? ?%not_elem_of_nil]| |
         intros q ->%list_elem_of_singleton; by left].
      apply (put_pte_grows start (mkKmem _ fa)); [apply Hg|done|cbn [mem]; by rewrite lookup_insert_ne].
    + erewrite walk_m2; try done.
      * by rewrite decide_True.
      * rewrite length_app. simpl. lia.
      * apply Forall_app. split; [done|]. by apply Forall_singleton.
    + intros vpn Hv. eapply create_leaf; try done; apply Hg.
Qed.

Definition path2 (vpn : Z) : list Z := [vpn / 2 ^ 18 mod 512; vpn / 2 ^ 9 mod 512].

Lemma path2_ok vpn : Forall index_ok (path2 vpn) ∧ index_ok (vpn mod 512).
Proof. split; [repeat constructor|]; by apply Z.mod_pos_bound. Qed.

Lemma leaf_path2 m root vpn :
  leaf m root vpn = (t ← walk m root (path2 vpn);
                     if PTE_is_valid (pte_at m t (vpn mod 512))
                     then Some (pte_at m t (vpn mod 512)) else None).
Proof. unfold leaf. by rewrite indexes_eq. Qed.

(** A page number is its path and its last index. *)
Lemma path2_inj v w :
  0 ≤ v < 2 ^ 27 → 0 ≤ w < 2 ^ 27 → path2 v = path2 w → v mod 512 = w mod 512 → v = w.
Proof.
  intros Hv Hw E1 E2. injection E1 as E1 E3. Z.to_euclidean_division_equations; lia.
Qed.

Lemma find_pte_create_run start s pt vpn :
  pt_wf start s pt → (2 ≤ nfree (frames s))%nat →
  ∃ t pt' s' fr, find_pte_create pt vpn s = Ok ((Some (t, vpn mod 512), pt'), s') ∧
    pt_wf start s' pt' ∧ pt' = mkPT (root_ppn pt) (pt_frames pt ++ fr) ∧ (length fr ≤ 2)%nat ∧
    grows start (pt_frames pt) s s' fr ∧
    walk (mem s') (root_ppn pt) (path2 vpn) = Some t ∧
    (∀ w, 0 ≤ w < 2 ^ 27 → leaf (mem s') (root_ppn pt) w = leaf (mem s) (root_ppn pt) w).
Proof.
  intros Hwf Hfree. destruct (path2_ok vpn) as [Hpo Hi]. unfold path2 in *.
  apply Forall_cons in Hpo as [Hi0 Hpo]. apply Forall_cons in Hpo as [Hi1 _].
  unfold find_pte_create. rewrite indexes_eq. cbn [walk_create Nat.eqb].
  destruct (ensure_pte_run start s pt [] (vpn / 2 ^ 18 mod 512) (root_ppn pt))
    as (pte0 & pt0 & s0 & q0 & fr0 & E0 & Eq0 & Hwf0 & Hr0 & Hn0 & Hg0 & Hw0 & Hl0);
    [done|simpl; lia|constructor|done|done|lia|].
  assert (Hfree0 := gr_free _ _ _ _ _ Hg0).
  destruct (ensure_pte_run start s0 pt0 [vpn / 2 ^ 18 mod 512] (vpn / 2 ^ 9 mod 512) q0)
    as (pte1 & pt1 & s1 & q1 & fr1 & E1 & Eq1 & Hwf1 & Hr1 & Hn1 & Hg1 & Hw1 & Hl1);
    [done|simpl; lia|by constructor|done|by rewrite Hr0|lia|].
  exists q1, pt1, s1, (fr0 ++ fr1). mstep. rewrite E0, Eq0, E1, Eq1. rewrite Hr0 in *.
  cbn [root_ppn pt_frames] in *. rewrite <- app_assoc in Hr1. split_and!; try done.
  - rewrite length_app. lia.
  - eapply grows_trans; [done|done|]. intros p. by rewrite elem_of_app.
  - intros w Hw. by rewrite Hl1, Hl0.
Qed.

Lemma find_pte_run start s pt vpn :
  pt_wf start s pt →
  find_pte pt vpn s =
    Ok ((λ t, (t, vpn mod 512)) <$> walk (mem s) (root_ppn pt) (path2 vpn), s).
Proof.
  intros Hwf. destruct (path2_ok vpn) as [Hpo Hi]. unfold path2 in *.
  apply Forall_cons in Hpo as [Hi0 Hpo]. apply Forall_cons in Hpo as [Hi1 _].
  unfold find_pte. rewrite indexes_eq. cbn [walk_find Nat.eqb]. mstep.
  rewrite read_pte_run by apply (pt_present _ _ _ _ Hwf), (pt_root _ _ _ Hwf).
  change (walk (mem s) (root_ppn pt) [vpn / 2 ^ 18 mod 512; vpn / 2 ^ 9 mod 512]) with
    (child (mem s) (root_ppn pt) (vpn / 2 ^ 18 mod 512) ≫= λ q, child (mem s) q (vpn / 2 ^ 9 mod 512)).
  destruct (PTE_is_valid (pte_at (mem s) (root_ppn pt) (vpn / 2 ^ 18 mod 512))) eqn:E0;
    cbn [negb].
  2:{ unfold child at 2. by rewrite E0. }
  set (q := PTE_ppn _).
  assert (Hcq : child (mem s) (root_ppn pt) (vpn / 2 ^ 18 mod 512) = Some q)
    by (unfold child; by rewrite E0).
  assert (Hq : q ∈ pt_frames pt)
    by (apply (pt_closed _ _ _ Hwf [vpn / 2 ^ 18 mod 512]); [simpl; lia|by constructor|done]).
  rewrite read_pte_run by by apply (pt_present _ _ _ _ Hwf). rewrite Hcq. simpl. unfold child.
  destruct (PTE_is_valid (pte_at (mem s) q (vpn / 2 ^ 9 mod 512))) eqn:E1; done.
Qed.

(** Writing the leaf entry of a page changes the mapping of that page only. *)
Lemma put_leaf start s pt vpn t bits :
  pt_wf start s pt → 0 ≤ vpn < 2 ^ 27 → walk (mem s) (root_ppn pt) (path2 vpn) = Some t →
  0 ≤ bits < 2 ^ 64 →
  let s' := mkKmem (put_pte (mem s) t (vpn mod 512) bits) (frames s) in
  pt_wf start s' pt ∧
  ∀ w, 0 ≤ w < 2 ^ 27 → leaf (mem s') (root_ppn pt) w =
    if decide (w = vpn) then (if PTE_is_valid bits then Some bits else None)
    else leaf (mem s) (root_ppn pt) w.
Proof.
  intros Hwf Hv Ht Hb s'. destruct (path2_ok vpn) as [Hpo Hi].
  assert (Htf : t ∈ pt_frames pt) by (apply (pt_closed _ _ _ Hwf (path2 vpn)); [simpl; lia|done..]).
  destruct (pt_present _ _ _ _ Hwf Htf) as ([pg E] & Hl & _).
  assert (Hwalk : ∀ path, (length path ≤ 2)%nat → Forall index_ok path →
    walk (mem s') (root_ppn pt) path = walk (mem s) (root_ppn pt) path).
  { intros path Hpl Hpok. unfold s'. cbn [mem]. apply (walk_put _ _ (path2 vpn)); try done; [|lia|].
    - intros b Hbl Hbo Hbw. apply (pt_tree _ _ _ Hwf b (path2 vpn) t); (done || simpl; lia).
    - intros Hpr. apply prefix_length in Hpr. rewrite length_app in Hpr. simpl in Hpr. lia. }
  split.
  - split; try apply Hwf.
    + destruct (pt_kmem _ _ _ Hwf) as (Hfa & Hm & Hpg). split; [done|]. unfold s', put_pte.
      cbn [mem frames]. split.
      * intros q Hq. rewrite lookup_insert_is_Some. destruct (decide (t = q)); [by left|right; auto].
      * intros q page. rewrite lookup_insert_Some. intros [[<- <-]|[_ ?]]; [|by eapply Hpg].
        split; [rewrite length_wr; unfold index_ok in Hi; lia|].
        rewrite (lookup_total_correct _ _ _ E). apply bytes_wr. by eapply Hpg.
    + intros path q Hpl Hpok. rewrite Hwalk by done. by apply (pt_closed _ _ _ Hwf).
    + intros a b q Hal Hbl Hao Hbo. rewrite !Hwalk by done. by apply (pt_tree _ _ _ Hwf).
  - intros w Hw. destruct (path2_ok w) as [Hwo Hwi]. rewrite !leaf_path2.
    rewrite Hwalk by (done || simpl; lia).
    destruct (decide (w = vpn)) as [->|Hne].
    + rewrite Ht. simpl. by rewrite pte_at_put, decide_True by done.
    + destruct (walk (mem s) (root_ppn pt) (path2 w)) as [u|] eqn:Eu; [|done]. simpl.
      rewrite pte_at_put, decide_False; try done. intros [-> Ei]. apply Hne.
      apply path2_inj; try done. apply (pt_tree _ _ _ Hwf _ _ t); (done || simpl; lia).
Qed.

(** The page table [pt] implements the finite map [mu] from page numbers to
    valid entries. *)
Definition represents (start : Z) (s : kmem) (pt : PageTable) (mu : gmap Z Z) : Prop :=
  pt_wf start s pt ∧ ∀ vpn, 0 ≤ vpn < 2 ^ 27 → leaf (mem s) (root_ppn pt) vpn = mu !! vpn.

Lemma leaf_Some m root vpn b :
  leaf m root vpn = Some b →
  ∃ t, walk m root (path2 vpn) = Some t ∧ pte_at m t (vpn mod 512) = b ∧ PTE_is_valid b = true.
Proof.
  rewrite leaf_path2. destruct (walk m root (path2 vpn)) as [t|]; [|done]. simpl.
  destruct (PTE_is_valid (pte_at m t (vpn mod 512))) eqn:E; [|done]. intros [= <-]. by exists t.
Qed.

Lemma walk_table start s pt vpn t :
  pt_wf start s pt → walk (mem s) (root_ppn pt) (path2 vpn) = Some t → is_Some (mem s !! t).
Proof.
  intros Hwf Ht. apply (pt_present _ _ _ _ Hwf), (pt_closed _ _ _ Hwf (path2 vpn)); [simpl; lia| |done].
  apply path2_ok.
Qed.

(** A page table depends on its own frames only. *)
Lemma walk_frame start s pt m path :
  pt_wf start s pt → (∀ p, p ∈ pt_frames pt → m !! p = mem s !! p) →
  (length path ≤ 3)%nat → Forall index_ok path →
  walk m (root_ppn pt) path = walk (mem s) (root_ppn pt) path.
Proof.
  intros Hwf Hm. induction path as [|j path IH] using rev_ind; intros Hl Hok; [done|].
  apply Forall_app in Hok as [Hok _]. rewrite length_app in Hl. simpl in Hl.
  rewrite !walk_snoc, IH by (done || lia).
  destruct (walk (mem s) (root_ppn pt) path) as [q|] eqn:E; [|done]. simpl.
  unfold child, pte_at. rewrite !lookup_total_alt, Hm; [done|].
  apply (pt_closed _ _ _ Hwf path); (done || lia).
Qed.

Lemma represents_frame start s s' pt mu :
  represents start s pt mu → kmem_wf start s' →
  (∀ p, p ∈ pt_frames pt → mem s' !! p = mem s !! p ∧ in_use start (frames s') p) →
  represents start s' pt mu.
Proof.
  intros [Hwf Hl] Hk Hp.
  assert (Hw : ∀ path, (length path ≤ 3)%nat → Forall index_ok path →
    walk (mem s') (root_ppn pt) path = walk (mem s) (root_ppn pt) path)
    by (intros; apply (walk_frame start); [done| |done|done]; intros; by apply Hp).
  split.
  - split; try apply Hwf; try done.
    + intros p Hin. by apply Hp.
    + intros path p Hpl Hok. rewrite Hw by (done || lia). by apply (pt_closed _ _ _ Hwf).
    + intros a b p Ha Hb Hao Hbo. rewrite !Hw by (done || lia). by apply (pt_tree _ _ _ Hwf).
  - intros vpn Hv. rewrite <- Hl, !leaf_path2 by done. destruct (path2_ok vpn) as [Hpo _].
    rewrite Hw by (done || simpl; lia).
    destruct (walk (mem s) (root_ppn pt) (path2 vpn)) as [t|] eqn:E; [|done]. simpl.
    assert (Ht : t ∈ pt_frames pt) by (apply (pt_closed _ _ _ Hwf (path2 vpn)); (done || simpl; lia)).
    unfold pte_at. by rewrite !lookup_total_alt, (proj1 (Hp t Ht)).
Qed.

Lemma represents_grows start W s s' fr pt mu :
  represents start s pt mu → grows start W s s' fr → (∀ p, p ∈ pt_frames pt → p ∉ W) →
  represents start s' pt mu.
Proof.
  intros Hr Hg HW. eapply represents_frame; [done|apply Hg|]. intros p Hp.
  assert (Hu := pt_used _ _ _ (proj1 Hr) p Hp). split.
  - apply (gr_mem _ _ _ _ _ Hg); [|by apply HW]. intros Hf. by apply (gr_fresh _ _ _ _ _ Hg) in Hf as [_ ?].
  - apply (gr_use _ _ _ _ _ Hg). by right.
Qed.

Lemma represents_shrinks start W s s' fr pt mu :
  represents start s pt mu → shrinks start W s s' fr →
  (∀ p, p ∈ pt_frames pt → (p ∉ W) ∧ p ∉ fr) → represents start s' pt mu.
Proof.
  intros Hr Hs HW. eapply represents_frame; [done|apply Hs|]. intros p Hp.
  destruct (HW p Hp) as [Hw Hf]. split; [by apply Hs|].
  apply (sh_use _ _ _ _ _ Hs). split; [done|]. by apply (pt_used _ _ _ (proj1 Hr)).
Qed.

(** Mapping, once the entry is found. *)
Lemma map_found start s pt mu vpn ppn flags t pt' s' fr :
  (∀ w, 0 ≤ w < 2 ^ 27 → leaf (mem s) (root_ppn pt) w = mu !! w) → 0 ≤ vpn < 2 ^ 27 → 0 ≤ ppn < 2 ^ 44 → 0 ≤ flags < 2 ^ 8 →
  find_pte_create pt vpn s = Ok ((Some (t, vpn mod 512), pt'), s') →
  pt_wf start s' pt' → pt' = mkPT (root_ppn pt) (pt_frames pt ++ fr) → grows start (pt_frames pt) s s' fr →
  walk (mem s') (root_ppn pt) (path2 vpn) = Some t →
  (∀ w, 0 ≤ w < 2 ^ 27 → leaf (mem s') (root_ppn pt) w = leaf (mem s) (root_ppn pt) w) →
  match mu !! vpn with
  | None => ∃ s2, map pt vpn ppn flags s = Ok (pt', s2) ∧
      represents start s2 pt' (<[vpn := PTE_new ppn (Z.lor flags PTE_V)]> mu) ∧ grows start (pt_frames pt) s s2 fr
  | Some _ => map pt vpn ppn flags s = Fail Panic
  end.
Proof.
  intros Hleaf Hv Hp Hf E Hwf' Ept Hg Hw Hl.
  assert (Hr : root_ppn pt' = root_ppn pt) by (by rewrite Ept).
  unfold map. mstep. rewrite E. cbn [unwrap]. rewrite <- Hr in Hw, Hl.
  rewrite read_pte_run by (by eapply (walk_table start s' pt' vpn)).
  assert (Hlv := Hleaf vpn Hv). rewrite <- Hr in Hleaf.
  rewrite <- Hr, <- Hl, leaf_path2, Hw in Hlv by done. simpl in Hlv.
  destruct (PTE_is_valid (pte_at (mem s') t (vpn mod 512))) eqn:Ev; rewrite <- Hlv; [done|].
  cbn [negb assert_]. rewrite write_pte_run by (by eapply (walk_table start s' pt' vpn)).
  eexists. split; [reflexivity|].
  destruct (lor_V flags Hf) as [Hf' Ht].
  destruct (put_leaf start s' pt' vpn t (PTE_new ppn (Z.lor flags PTE_V)) Hwf' Hv Hw) as [Hwf2 Hl2];
    [by apply lor_flags|].
  assert (Htab : t ∈ pt_frames pt')
    by (apply (pt_closed _ _ _ Hwf' (path2 vpn)); [simpl; lia|apply path2_ok|done]).
  split.
  - split; [done|]. intros w Hww. rewrite Hl2 by done.
    rewrite PTE_valid_new by done. case_decide as Hd; [subst w; by rewrite lookup_insert_eq|].
    rewrite lookup_insert_ne, Hl by done. by apply Hleaf.
  - rewrite <- (app_nil_r fr). eapply (grows_trans _ _ [t]); [done| |].
    + apply put_pte_grows; [apply Hwf'|apply path2_ok|by apply (pt_present _ _ _ _ Hwf')].
    + intros p ->%list_elem_of_singleton. rewrite Ept in Htab. by apply elem_of_app in Htab.
Qed.

Lemma map_run start s pt mu vpn ppn flags :
  represents start s pt mu → (2 ≤ nfree (frames s))%nat →
  0 ≤ vpn < 2 ^ 27 → 0 ≤ ppn < 2 ^ 44 → 0 ≤ flags < 2 ^ 8 →
  match mu !! vpn with
  | None => ∃ pt' s' fr, map pt vpn ppn flags s = Ok (pt', s') ∧
      pt' = mkPT (root_ppn pt) (pt_frames pt ++ fr) ∧
      represents start s' pt' (<[vpn := PTE_new ppn (Z.lor flags PTE_V)]> mu) ∧
      (length fr ≤ 2)%nat ∧ grows start (pt_frames pt) s s' fr
  | Some _ => map pt vpn ppn flags s = Fail Panic
  end.
Proof.
  intros [Hwf Hleaf] Hfree Hv Hp Hf.
  destruct (find_pte_create_run start s pt vpn Hwf Hfree)
    as (t & pt' & s' & fr & E & Hwf' & Ept & Hn & Hg & Hw & Hl).
  pose proof (map_found start s pt mu vpn ppn flags t pt' s' fr Hleaf Hv Hp Hf E Hwf' Ept Hg Hw Hl) as Hm.
  destruct (mu !! vpn); [done|]. destruct Hm as (s2 & Em & Hr & Hg2). by exists pt', s2, fr.
Qed.

(** Where a page of the same table is mapped already, no table is missing. *)
Lemma ensure_warm s pt p i q :
  is_Some (mem s !! p) → child (mem s) p i = Some q → ∃ pte, ensure_pte p i pt s = Ok ((pte, pt), s) ∧ PTE_ppn pte = q.
Proof.
  intros Hp Hc. exists (pte_at (mem s) p i). unfold ensure_pte. mstep. rewrite read_pte_run by done. unfold child in Hc.
  destruct (PTE_is_valid (pte_at (mem s) p i)); [|done]. by injection Hc.
Qed.

Lemma find_create_warm start s pt vpn t :
  pt_wf start s pt → walk (mem s) (root_ppn pt) (path2 vpn) = Some t →
  find_pte_create pt vpn s = Ok ((Some (t, vpn mod 512), pt), s).
Proof.
  intros Hwf Ht. destruct (path2_ok vpn) as [Hpo Hi]. unfold path2 in *.
  apply Forall_cons in Hpo as [Hi0 Hpo]. apply Forall_cons in Hpo as [Hi1 _].
  change (walk (mem s) (root_ppn pt) [vpn / 2 ^ 18 mod 512; vpn / 2 ^ 9 mod 512]) with
    (child (mem s) (root_ppn pt) (vpn / 2 ^ 18 mod 512) ≫= λ q, child (mem s) q (vpn / 2 ^ 9 mod 512)) in Ht.
  destruct (child (mem s) (root_ppn pt) (vpn / 2 ^ 18 mod 512)) as [q|] eqn:Ec; [|done]. cbn [mbind option_bind] in Ht.
  assert (Hq : q ∈ pt_frames pt) by (apply (pt_closed _ _ _ Hwf [vpn / 2 ^ 18 mod 512]); [simpl; lia|by constructor|done]).
  destruct (ensure_warm s pt (root_ppn pt) _ q ltac:(apply (pt_present _ _ _ _ Hwf), (pt_root _ _ _ Hwf)) Ec) as (pte0 & E0 & Ep0).
  destruct (ensure_warm s pt q _ t ltac:(by apply (pt_present _ _ _ _ Hwf)) Ht) as (pte1 & E1 & Ep1).
  unfold find_pte_create. rewrite indexes_eq. cbn [walk_create Nat.eqb]. mstep. rewrite E0, Ep0, E1, Ep1. done.
Qed.

Lemma map_warm start s pt mu vpn ppn flags w :
  represents start s pt mu → 0 ≤ vpn < 2 ^ 27 → 0 ≤ ppn < 2 ^ 44 → 0 ≤ flags < 2 ^ 8 → mu !! vpn = None →
  0 ≤ w < 2 ^ 27 → w / 512 = vpn / 512 → is_Some (mu !! w) →
  ∃ s', map pt vpn ppn flags s = Ok (pt, s') ∧
    represents start s' pt (<[vpn := PTE_new ppn (Z.lor flags PTE_V)]> mu) ∧ grows start (pt_frames pt) s s' [].
Proof.
  intros [Hwf Hleaf] Hv Hp Hf Hn Hw Hblk [b Hb]. rewrite <- Hleaf in Hb by done.
  destruct (leaf_Some _ _ _ _ Hb) as (t & Ht & _).
  assert (Epath : path2 w = path2 vpn).
  { unfold path2. change (2 ^ 18) with (512 * 512). rewrite <- !Zdiv_Zdiv by lia. change (2 ^ 9) with 512. by rewrite Hblk. }
  rewrite Epath in Ht.
  pose proof (map_found start s pt mu vpn ppn flags t pt s [] Hleaf Hv Hp Hf (find_create_warm _ _ _ _ _ Hwf Ht) Hwf) as Hm.
  rewrite Hn in Hm. apply Hm; [rewrite app_nil_r; by destruct pt|apply grows_refl, Hwf|done|done].
Qed.

Lemma unmap_run start s pt mu vpn :
  represents start s pt mu → 0 ≤ vpn < 2 ^ 27 →
  match mu !! vpn with
  | Some _ => ∃ s', unmap pt vpn s = Ok (tt, s') ∧ represents start s' pt (delete vpn mu) ∧
      grows start (pt_frames pt) s s' []
  | None => unmap pt vpn s = Fail Panic
  end.
Proof.
  intros [Hwf Hleaf] Hv. unfold unmap. mstep. rewrite (find_pte_run start) by done.
  assert (Hlv := Hleaf vpn Hv). rewrite leaf_path2 in Hlv.
  destruct (walk (mem s) (root_ppn pt) (path2 vpn)) as [t|] eqn:Hw; simpl in Hlv;
    [|by rewrite <- Hlv]. cbn [fmap option_fmap option_map unwrap].
  rewrite read_pte_run by (by eapply (walk_table start s pt vpn)).
  destruct (PTE_is_valid (pte_at (mem s) t (vpn mod 512))) eqn:Ev; rewrite <- Hlv; [|done].
  cbn [assert_]. rewrite write_pte_run by (by eapply (walk_table start s pt vpn)).
  assert (Htab : t ∈ pt_frames pt)
    by (apply (pt_closed _ _ _ Hwf (path2 vpn)); [simpl; lia|apply path2_ok|done]).
  eexists. split; [reflexivity|]. split.
  2:{ eapply (grows_weaken _ [t]); [|by intros p ->%list_elem_of_singleton].
      apply put_pte_grows; [apply Hwf|apply path2_ok|by apply (pt_present _ _ _ _ Hwf)]. }
  destruct (put_leaf start s pt vpn t PTE_empty Hwf Hv Hw) as [Hwf2 Hl2]; [done|].
  split; [done|]. intros w Hww. rewrite Hl2 by done. change (PTE_is_valid PTE_empty) with false.
  case_decide as Hd; [subst; by rewrite lookup_delete_eq|].
  rewrite lookup_delete_ne by done. by apply Hleaf.
Qed.

Lemma translate_run start s pt vpn :
  pt_wf start s pt →
  translate pt vpn s =
    Ok ((λ t, pte_at (mem s) t (vpn mod 512)) <$> walk (mem s) (root_ppn pt) (path2 vpn), s).
Proof.
  intros Hwf. unfold translate. mstep. rewrite (find_pte_run start) by done.
  destruct (walk (mem s) (root_ppn pt) (path2 vpn)) as [t|] eqn:Hw; [|done].
  cbn [fmap option_fmap option_map]. by rewrite read_pte_run by (by eapply (walk_table start s pt vpn)).
Qed.

Lemma translate_mapped start s pt mu vpn b :
  represents start s pt mu → 0 ≤ vpn < 2 ^ 27 → mu !! vpn = Some b → translate pt vpn s = Ok (Some b, s).
Proof.
  intros [Hwf Hl] Hv Hb. rewrite (translate_run start) by done. rewrite <- Hl in Hb by done.
  destruct (leaf_Some _ _ _ _ Hb) as (t & Ht & Hbt & _). rewrite Ht. simpl. by rewrite Hbt.
Qed.

Lemma PageTable_new_run start s :
  kmem_wf start s → (0 < nfree (frames s))%nat →
  ∃ pt s', PageTable_new s = Ok (pt, s') ∧ represents start s' pt ∅ ∧
    pt_frames pt = [root_ppn pt] ∧ grows start [] s s' [root_ppn pt].
Proof.
  intros Hk Hn. unfold PageTable_new.
  destruct (frame_alloc_run start s Hk Hn) as (f & s' & E & Hg & Hm).
  mstep. rewrite E. cbn [unwrap]. eexists _, _. split; [reflexivity|]. split; [|done].
  assert (Hz : ∀ j, index_ok j → child (mem s') f j = None).
  { intros j Hj. unfold child, pte_at. rewrite Hm, lookup_total_insert_eq.
    unfold zero_page. rewrite rd_replicate by (unfold index_ok in Hj; lia). done. }
  assert (Hw : ∀ path, Forall index_ok path → path ≠ [] → walk (mem s') f path = None).
  { intros [|j path] Hok Hne; [done|]. apply Forall_cons in Hok as [Hj _].
    apply (walk_through _ _ [] j f); [done|by apply Hz|by exists path]. }
  split; [split; cbn [root_ppn pt_frames]|].
  - apply Hg.
  - apply list_elem_of_here.
  - apply NoDup_singleton.
  - intros p Hp. apply (gr_use _ _ _ _ _ Hg). by left.
  - intros [|j path] p Hl Hok Hp.
    + injection Hp as <-. apply list_elem_of_here.
    + by rewrite Hw in Hp.
  - intros [|j a] [|k b] p _ _ Ha Hb; try done; rewrite ?(Hw (j :: a)), ?(Hw (k :: b)) by done; done.
  - intros vpn Hv. rewrite lookup_empty, leaf_path2. cbn [root_ppn].
    by rewrite Hw by (apply path2_ok || done).
Qed.

(** ** Theorems *)

(** [PageTable::new] makes an empty mapping out of one fresh frame. *)
Theorem PageTable_new_empty start s :
  kmem_wf start s → (0 < nfree (frames s))%nat →
  ∃ pt s', PageTable_new s = Ok (pt, s') ∧ represents start s' pt ∅ ∧
    ¬ in_use start (frames s) (root_ppn pt).
Proof.
  intros Hk Hn. destruct (PageTable_new_run start s Hk Hn) as (pt & s' & E & Hr & _ & Hg).
  exists pt, s'. split; [done|]. split; [done|]. apply (gr_fresh _ _ _ _ _ Hg), list_elem_of_here.
Qed.

(** A value of [w] bits *)
Definition width (w v : Z) : Prop := 0 ≤ v < 2 ^ w.

Lemma usize_of_VirtAddr_type a :
  width 39 a → let u := usize_of_VirtAddr a in (width 38 u ∨ 2 ^ 64 - 2 ^ 38 ≤ u < 2 ^ 64) ∧ VirtAddr_from u = a.
Proof.
  unfold width. intros Ha. cbv zeta. rewrite VirtAddr_from_eq. unfold usize_of_VirtAddr, VA_WIDTH_SV39. change (Z.shiftl 1 (39 - 1)) with (2 ^ 38).
  destruct (Z.leb_spec (2 ^ 38) a).
  - rewrite lor_high_mask by done. split; [lia|]. replace (a + (2 ^ 64 - 2 ^ 39)) with (a + (2 ^ 25 - 1) * 2 ^ 39) by lia.
    rewrite Z.mod_add by lia. by apply Z.mod_small.
  - split; [lia|]. apply Z.mod_small. lia.
Qed.

(** C27: the four address types and the page table entry keep to the widths of Sv39.
    A conversion from any machine word gives 56 bits for a physical and 39 bits for a
    virtual address, 44 and 27 bits for their page numbers; page numbers become
    addresses and addresses page numbers within these widths; a virtual address
    becomes a canonical word and comes back unchanged; an index into a page table is
    below 512; an entry made of a page number and flags has 54 bits and gives both
    back.  The one exception is [ceil]: it is 2^27, no page number of Sv39, for the
    addresses of the last page but its first. *)
Theorem sv39_types :
  (∀ v, width 56 (PhysAddr_from v) ∧ width 44 (PhysPageNum_from v) ∧ width 39 (VirtAddr_from v) ∧ width 27 (VirtPageNum_from v) ∧
        width 44 (PTE_ppn v) ∧ width 8 (PTE_flags v)) ∧
  (∀ a, width 39 a →
     width 27 (floor a) ∧ width 12 (page_offset a) ∧ 0 ≤ ceil a ≤ 2 ^ 27 ∧ (width 27 (ceil a) ↔ a ≤ 2 ^ 39 - 4096) ∧
     let u := usize_of_VirtAddr a in (width 38 u ∨ 2 ^ 64 - 2 ^ 38 ≤ u < 2 ^ 64) ∧ VirtAddr_from u = a) ∧
  (∀ a, width 56 a → width 44 (PhysAddr_floor a) ∧ width 12 (PhysAddr_page_offset a)) ∧
  (∀ n, width 27 n → width 39 (VirtAddr_of_VirtPageNum n) ∧ Forall (width 9) (indexes n)) ∧
  (∀ n, width 44 n → width 56 (PhysAddr_of_PhysPageNum n)) ∧
  (∀ n f, width 44 n → width 8 f → width 54 (PTE_new n f) ∧ PTE_ppn (PTE_new n f) = n ∧ PTE_flags (PTE_new n f) = f).
Proof.
  split_and!.
  - intros v. unfold PhysAddr_from, PhysPageNum_from, VirtAddr_from, VirtPageNum_from. rewrite !land_mask by done.
    split_and!; try (by apply Z.mod_pos_bound). apply PTE_ppn_range.
  - intros a Ha. pose proof (usize_of_VirtAddr_type a Ha) as Hu. unfold width in Ha |- *. rewrite page_offset_eq, ceil_eq by lia.
    unfold floor, PAGE_SIZE. split_and!; try exact (proj1 Hu); try exact (proj2 Hu); Z.to_euclidean_division_equations; lia.
  - intros a Ha. unfold width, PhysAddr_page_offset, PhysAddr_floor in *. fold (page_offset a). rewrite page_offset_eq. unfold PAGE_SIZE.
    Z.to_euclidean_division_equations; lia.
  - intros n Hn. unfold width in *. rewrite VirtAddr_of_VirtPageNum_eq, indexes_eq by lia. split; [lia|].
    repeat constructor; by apply Z.mod_pos_bound.
  - intros n Hn. unfold PhysAddr_of_PhysPageNum. fold (VirtAddr_of_VirtPageNum n). unfold width in *. rewrite VirtAddr_of_VirtPageNum_eq by lia. lia.
  - intros n f Hn Hf. split; [|split; [by apply PTE_ppn_new|by apply PTE_flags_new]].
    unfold width in *. rewrite (proj1 (lor_flags n f Hn Hf)). lia.
Qed.

(** C4: the page table refines a finite map from virtual pages to entries.
    [map] inserts exactly one page, allocating tables on the way without
    disturbing any mapping, and panics on a page already mapped; [unmap]
    deletes exactly one page and panics on a page not mapped; [translate] of a
    mapped page returns its entry. *)
Theorem page_table_refines start s pt mu vpn :
  represents start s pt mu → 0 ≤ vpn < 2 ^ 27 →
  match mu !! vpn with
  | None =>
      (∀ ppn flags, 0 ≤ ppn < 2 ^ 44 → 0 ≤ flags < 2 ^ 8 → (2 ≤ nfree (frames s))%nat →
       ∃ pt' s', map pt vpn ppn flags s = Ok (pt', s') ∧
         represents start s' pt' (<[vpn := PTE_new ppn (Z.lor flags PTE_V)]> mu)) ∧
      unmap pt vpn s = Fail Panic
  | Some b =>
      (∀ ppn flags, 0 ≤ ppn < 2 ^ 44 → 0 ≤ flags < 2 ^ 8 → (2 ≤ nfree (frames s))%nat →
       map pt vpn ppn flags s = Fail Panic) ∧
      (∃ s', unmap pt vpn s = Ok (tt, s') ∧ represents start s' pt (delete vpn mu)) ∧
      translate pt vpn s = Ok (Some b, s)
  end.
Proof.
  intros Hrep Hv. assert (Hun := unmap_run start s pt mu vpn Hrep Hv).
  assert (Hmap : ∀ ppn flags, _) by exact (λ ppn flags Hn, map_run start s pt mu vpn ppn flags Hrep Hn Hv).
  destruct (mu !! vpn) as [b|] eqn:E.
  - split; [|split].
    + intros ppn flags Hp Hf Hn. by apply Hmap.
    + destruct Hun as (s' & Eu & Hr & _). by exists s'.
    + by apply (translate_mapped start s pt mu).
  - split; [|done]. intros ppn flags Hp Hf Hn.
    destruct (Hmap ppn flags Hn Hp Hf) as (pt' & s' & fr & Em & _ & Hr & _). by exists pt', s'.
Qed.

(** [translate] does not look at the validity of the leaf entry: for a page
    that is not mapped, but whose second-level table exists (after [unmap], or
    next to a mapped page), it returns an invalid entry instead of [None]. *)
Theorem translate_unmapped_entry start s pt mu vpn t :
  represents start s pt mu → 0 ≤ vpn < 2 ^ 27 → mu !! vpn = None →
  walk (mem s) (root_ppn pt) (path2 vpn) = Some t →
  ∃ pte, translate pt vpn s = Ok (Some pte, s) ∧ PTE_is_valid pte = false.
Proof.
  intros [Hwf Hl] Hv Hn Ht. rewrite (translate_run start) by done. rewrite Ht. simpl.
  eexists. split; [reflexivity|]. rewrite <- Hl, leaf_path2, Ht in Hn by done. simpl in Hn.
  by destruct (PTE_is_valid (pte_at (mem s) t (vpn mod 512))).
Qed.

(** ** Concrete runs *)

(** Six free frames of memory, from frame 5 on. *)
Definition junk_page : list Z := replicate 4096 9.

Lemma junk_page_ok : length junk_page = 4096%nat ∧ bytes junk_page.
Proof. split; [apply length_replicate|by apply Forall_replicate]. Qed.

(** [n] free frames. *)
Definition ram (n : Z) : kmem :=
  mkKmem (list_to_map ((λ p, (p, junk_page)) <$> seqZ 5 n)) (mkFA 5 (5 + n) []).

Lemma ram_wf n : 0 ≤ n < 2 ^ 40 → kmem_wf 5 (ram n).
Proof.
  intros Hn.
  assert (Hl : ∀ p, mem (ram n) !! p = if decide (5 ≤ p < 5 + n) then Some junk_page else None).
  { intros p. unfold ram. cbn [mem]. case_decide as Hd.
    - apply elem_of_list_to_map_1.
      + rewrite <- list_fmap_compose. apply NoDup_fmap_2; [by intros ??|apply NoDup_seqZ].
      + apply list_elem_of_fmap. exists p. split; [done|]. apply elem_of_seqZ. lia.
    - apply not_elem_of_list_to_map_1. rewrite <- list_fmap_compose. intros Hin.
      apply list_elem_of_fmap in Hin as (q & -> & Hq%elem_of_seqZ). simpl in Hd. lia. }
  split; [|split].
  - split; cbn [current frames end_ ram]; [lia|]. split; [lia|]. split; constructor.
  - intros p Hp. cbn [frames end_ ram] in Hp. rewrite Hl, decide_True by lia. by eexists.
  - intros p page. rewrite Hl. case_decide; [|done]. intros E%(inj Some). rewrite <- E.
    apply junk_page_ok.
Qed.

Definition demo_ram : kmem := ram 6.

Lemma demo_ram_wf : kmem_wf 5 demo_ram.
Proof. by apply ram_wf. Qed.

Lemma PageTable_new_empty_witness :
  ∃ pt s', PageTable_new demo_ram = Ok (pt, s') ∧ represents 5 s' pt ∅ ∧
    ¬ in_use 5 (frames demo_ram) (root_ppn pt).
Proof. apply (PageTable_new_empty 5 demo_ram demo_ram_wf). vm_compute. lia. Defined.

Lemma page_table_refines_witness :
  ∃ pt s pt' s', PageTable_new demo_ram = Ok (pt, s) ∧ map pt 0x10 77 14 s = Ok (pt', s') ∧
    represents 5 s' pt' (<[0x10 := PTE_new 77 (Z.lor 14 PTE_V)]> ∅) ∧ unmap pt 0x10 s = Fail Panic.
Proof.
  destruct (PageTable_new_run 5 demo_ram demo_ram_wf) as (pt & s & E & Hr & _ & Hg);
    [vm_compute; lia|].
  pose proof (gr_free _ _ _ _ _ Hg) as Hn. change (nfree (frames demo_ram)) with 6%nat in Hn.
  cbn [length] in Hn.
  destruct (page_table_refines 5 s pt ∅ 0x10 Hr) as [Hm Hu]; [lia|].
  destruct (Hm 77 14) as (pt' & s' & Em & Hr'); [lia|lia|lia|].
  exists pt, s, pt', s'. split; [exact E|]. split; [exact Em|]. split; [exact Hr'|exact Hu].
Defined.

Lemma translate_unmapped_entry_witness :
  ∃ pt s pte, translate pt 0x11 s = Ok (Some pte, s) ∧ PTE_is_valid pte = false.
Proof.
  destruct (PageTable_new_run 5 demo_ram demo_ram_wf) as (pt & s & E & Hr & _ & Hg);
    [vm_compute; lia|].
  pose proof (gr_free _ _ _ _ _ Hg) as Hn. change (nfree (frames demo_ram)) with 6%nat in Hn.
  cbn [length] in Hn.
  pose proof (map_run 5 s pt ∅ 0x10 77 14 Hr ltac:(lia) ltac:(lia) ltac:(lia) ltac:(lia)) as Hm.
  rewrite lookup_empty in Hm. destruct Hm as (pt' & s' & fr & _ & _ & Hr' & _).
  assert (Hl : leaf (mem s') (root_ppn pt') 0x10 = Some (PTE_new 77 (Z.lor 14 PTE_V))).
  { destruct Hr' as [_ Hl]. rewrite Hl by lia. apply lookup_insert_eq. }
  destruct (leaf_Some _ _ _ _ Hl) as (t & Ht & _).
  destruct (translate_unmapped_entry 5 s' pt' _ 0x11 t Hr') as (pte & Et & Hv).
  - lia.
  - rewrite lookup_insert_ne by lia. apply lookup_empty.
  - exact Ht.
  - exists pt', s', pte. split; [exact Et|exact Hv].
Defined.
