(* ===== verification/Dma.v ===== *)
(** * Memory of the block device (os/src/drivers/block/virtio_blk.rs)

    The driver of the disk is a library; it gets its memory from [VirtioHal], which
    takes frames one by one and expects them to follow one another. *)

From S2P Require Import Prelude Bytes Address FrameAlloc PageTable.

(** The memory, and the frames in the static vector [QUEUE_FRAMES]. *)
Record dma_state := mkDma {
  dma_mem : kmem;
  QUEUE_FRAMES : list Z;
}.

Definition on_mem {A} (m : M kmem A) : M dma_state A := λ s,
  '(a, k) ← m (dma_mem s); Ok (a, mkDma k (QUEUE_FRAMES s)).

Fixpoint dma_alloc_loop (n : nat) (i ppn_base : Z) : M dma_state Z :=
  match n with
  | O => mret ppn_base
  | S n =>
      o ← on_mem frame_alloc;
      frame ← lift (unwrap o);
      let ppn_base := if i =? 0 then frame else ppn_base in
      lift (assert_ (frame =? ppn_base +ᵤ i));;
      puts (λ s, mkDma (dma_mem s) (QUEUE_FRAMES s ++ [frame]));;
      dma_alloc_loop n (i + 1) ppn_base
  end.

Definition dma_alloc (pages : Z) : M dma_state Z :=
  ppn_base ← dma_alloc_loop (Z.to_nat pages) 0 0;
  mret (PhysAddr_of_PhysPageNum ppn_base).

Fixpoint dma_dealloc_loop (n : nat) (ppn_base : Z) : M dma_state unit :=
  match n with
  | O => mret tt
  | S n =>
      on_mem (frame_dealloc ppn_base);;
      dma_dealloc_loop n (step ppn_base)
  end.

Definition dma_dealloc (pa pages : Z) : M dma_state Z :=
  ppn_base ← lift (PhysPageNum_of_PhysAddr (PhysAddr_from pa));
  dma_dealloc_loop (Z.to_nat pages) ppn_base;;
  mret 0.

Definition phys_to_virt (addr : Z) : Z := addr.

Definition virt_to_phys (kernel_token vaddr : Z) : M dma_state Z :=
  o ← on_mem (translate_va (from_token kernel_token) (VirtAddr_from vaddr));
  lift (unwrap o).

(** ** Allocation and release *)

(** Frames that were never used come in order. *)
Lemma frame_alloc_next m c e page :
  0 ≤ c < e → e < 2 ^ 44 → m !! c = Some page →
  frame_alloc (mkKmem m (mkFA c e [])) = Ok (Some c, mkKmem (<[c := zero_page]> m) (mkFA (c + 1) e [])).
Proof.
  intros Hc He Hm. unfold frame_alloc, FA_alloc. cbn [frames recycled pop last current end_]. mstep. cbn [frames recycled current end_].
  change (pop []) with (@None (Z * list Z)). cbv iota. rewrite (proj2 (Z.eqb_neq _ _)) by lia. rewrite (u64_small (c + 1)) by lia.
  replace (c + 1 - 1) with c by lia. rewrite u64_small, PhysPageNum_from_small by lia.
  unfold FrameTracker_new, get_bytes_array, set_bytes_array. mstep. cbn [mem]. by rewrite Hm.
Qed.

(** The memory with [n] clean pages from [c] on. *)
Definition cleaned (c : Z) (n : nat) (m : gmap Z (list Z)) : gmap Z (list Z) :=
  foldl (λ m p, <[p := zero_page]> m) m (seqZ c (Z.of_nat n)).

Lemma cleaned_S c n m : cleaned c (S n) m = cleaned (c + 1) n (<[c := zero_page]> m).
Proof. unfold cleaned. rewrite seqZ_cons by lia. cbn [foldl]. by replace (Z.pred (Z.of_nat (S n))) with (Z.of_nat n) by lia. Qed.

Lemma cleaned_lookup n : ∀ c m p, cleaned c n m !! p = if decide (c ≤ p < c + Z.of_nat n) then Some zero_page else m !! p.
Proof.
  induction n as [|n IH]; intros c m p.
  - rewrite decide_False by lia. done.
  - rewrite cleaned_S, IH. destruct (decide (p = c)) as [->|Hne].
    + rewrite decide_False, decide_True by lia. apply lookup_insert_eq.
    + rewrite lookup_insert_ne by done. destruct (decide (c + 1 ≤ p < c + 1 + Z.of_nat n));
        [rewrite decide_True by lia|rewrite decide_False by lia]; done.
Qed.

Lemma alloc_loop_run n : ∀ i base c e m q,
  0 ≤ c → c + Z.of_nat n ≤ e → e < 2 ^ 44 → 0 ≤ i → (∀ p, c ≤ p < e → is_Some (m !! p)) →
  (i = 0 ∨ c = base + i ∧ 0 ≤ base) →
  dma_alloc_loop n i base (mkDma (mkKmem m (mkFA c e [])) q) =
    Ok (if decide (n ≠ 0%nat ∧ i = 0) then c else base, mkDma (mkKmem (cleaned c n m) (mkFA (c + Z.of_nat n) e [])) (q ++ seqZ c (Z.of_nat n))).
Proof.
  induction n as [|n IH]; intros i base c e m q Hc Hn He Hi Hm Hb; cbn [dma_alloc_loop].
  { rewrite decide_False by (by intros []). change (cleaned c 0 m) with m. cbn [Z.of_nat seqZ]. rewrite app_nil_r, Z.add_0_r. done. }
  destruct (Hm c) as [page Ep]; [lia|]. mstep. unfold on_mem. mstep. cbn [dma_mem QUEUE_FRAMES].
  rewrite (frame_alloc_next m c e page) by (done || lia). cbn [unwrap]. cbv zeta.
  set (b := if i =? 0 then c else base).
  assert (Hcb : c = b + i ∧ 0 ≤ b) by (unfold b; destruct (Z.eqb_spec i 0); lia).
  rewrite u64_small, (proj2 (Z.eqb_eq _ _)) by lia. cbn [assert_]. mstep. cbn [dma_mem QUEUE_FRAMES].
  rewrite IH; [|lia..| |lia].
  - rewrite cleaned_S. replace (c + 1 + Z.of_nat n) with (c + Z.of_nat (S n)) by lia. rewrite (seqZ_cons c) by lia.
    rewrite <- app_assoc. cbn [app]. replace (Z.pred (Z.of_nat (S n))) with (Z.of_nat n) by lia. replace (Z.succ c) with (c + 1) by lia.
    f_equal. f_equal. rewrite (decide_False (P := _ ∧ i + 1 = 0)) by lia. unfold b. destruct (Z.eqb_spec i 0); [rewrite decide_True by done|rewrite decide_False by lia]; done.
  - intros p Hp. rewrite lookup_insert_is_Some'. right. apply Hm. lia.
Qed.

Lemma dealloc_loop_run n : ∀ b m cur e l q,
  0 ≤ b → b + Z.of_nat n ≤ cur → cur < 2 ^ 44 → (∀ p, b ≤ p < b + Z.of_nat n → p ∉ l) →
  dma_dealloc_loop n b (mkDma (mkKmem m (mkFA cur e l)) q) = Ok (tt, mkDma (mkKmem m (mkFA cur e (l ++ seqZ b (Z.of_nat n)))) q).
Proof.
  induction n as [|n IH]; intros b m cur e l q Hb Hn Hc Hl; cbn [dma_dealloc_loop].
  { cbn [Z.of_nat seqZ]. by rewrite app_nil_r. }
  mstep. unfold on_mem, frame_dealloc, FA_dealloc. mstep. cbn [dma_mem QUEUE_FRAMES frames mem current recycled end_].
  rewrite (proj2 (Z.leb_gt _ _)), existsb_elem_of, bool_decide_false by (lia || apply Hl; lia). cbn [orb]. unfold step. rewrite u64_small by lia.
  rewrite IH; [|lia..|].
  - rewrite <- app_assoc, (seqZ_cons b) by lia. by replace (Z.pred (Z.of_nat (S n))) with (Z.of_nat n) by lia.
  - intros p Hp. rewrite not_elem_of_app, list_elem_of_singleton. split; [apply Hl; lia|lia].
Qed.

(** A frame that was used before comes first. *)
Lemma frame_alloc_recycled m c e l p page :
  0 ≤ p < 2 ^ 44 → m !! p = Some page →
  frame_alloc (mkKmem m (mkFA c e (l ++ [p]))) = Ok (Some p, mkKmem (<[p := zero_page]> m) (mkFA c e l)).
Proof.
  intros Hp Hm. unfold frame_alloc, FA_alloc. mstep. cbn [frames recycled current end_ mem].
  destruct (pop (l ++ [p])) as [[x r]|] eqn:E; [|apply pop_None in E; by apply app_nil in E as [_ ?]].
  apply pop_Some, app_inj_tail in E as [<- <-]. rewrite PhysPageNum_from_small by done.
  unfold FrameTracker_new, get_bytes_array, set_bytes_array. mstep. cbn [mem]. by rewrite Hm.
Qed.

Lemma realloc_panics n m c e l p q :
  0 ≤ p < 2 ^ 44 - 1 → is_Some (m !! p) → is_Some (m !! (p + 1)) →
  dma_alloc (Z.of_nat (S (S n))) (mkDma (mkKmem m (mkFA c e ((l ++ [p]) ++ [p + 1]))) q) = Fail Panic.
Proof.
  intros Hp [pg1 E1] [pg2 E2]. unfold dma_alloc. rewrite Nat2Z.id. cbn [dma_alloc_loop]. mstep. unfold on_mem. mstep. cbn [dma_mem QUEUE_FRAMES].
  rewrite (frame_alloc_recycled m c e (l ++ [p]) (p + 1) pg2) by (done || lia). cbn [unwrap Z.eqb]. cbv zeta.
  rewrite (u64_small (p + 1 + 0)), (proj2 (Z.eqb_eq _ _)) by lia. cbn [assert_]. mstep. cbn [dma_mem QUEUE_FRAMES].
  rewrite (frame_alloc_recycled _ c e l p pg1); [|lia|rewrite lookup_insert_ne by lia; done].
  cbn [unwrap]. change (0 + 1) with 1. cbn [Z.eqb]. rewrite u64_small, (proj2 (Z.eqb_neq _ _)) by lia. done.
Qed.

Lemma PhysAddr_page c : 0 ≤ c < 2 ^ 44 → PhysAddr_of_PhysPageNum c = c * 4096 ∧ PhysPageNum_of_PhysAddr (PhysAddr_from (c * 4096)) = Ok c.
Proof.
  intros Hc. split; [apply (VirtAddr_of_VirtPageNum_eq c); lia|].
  unfold PhysPageNum_of_PhysAddr, PhysAddr_from, PhysAddr_page_offset, PhysAddr_floor. fold (page_offset (Z.land (c * 4096) (mask PA_WIDTH_SV39))).
  rewrite page_offset_eq, land_mask, (Z.mod_small _ (2 ^ PA_WIDTH_SV39)) by (unfold PA_WIDTH_SV39; lia). rewrite Z.mod_mul by lia.
  unfold PAGE_SIZE. rewrite Z.div_mul by lia. done.
Qed.

Lemma seqZ_last_two c k : 0 ≤ k → seqZ c (k + 2) = (seqZ c k ++ [c + k]) ++ [c + k + 1].
Proof.
  intros Hk. rewrite seqZ_app, <- app_assoc by lia. f_equal. rewrite (seqZ_cons (c + k)), (seqZ_cons (Z.succ _)), seqZ_nil by lia. done.
Qed.

(** C40: the memory of the disk driver.  While no frame has been given back, [dma_alloc]
    of [n] pages takes the next [n] frames, clean and one after the other, keeps them in
    [QUEUE_FRAMES] and returns the address of the first; [dma_dealloc] gives all of
    them back.  But the allocator returns them last first: the next [dma_alloc] of two
    or more pages panics. *)
Theorem dma_spec m c e q n :
  0 ≤ c → c + Z.of_nat n ≤ e → e < 2 ^ 44 → (0 < n)%nat → (∀ p, c ≤ p < e → is_Some (m !! p)) →
  let s1 := mkDma (mkKmem (cleaned c n m) (mkFA (c + Z.of_nat n) e [])) (q ++ seqZ c (Z.of_nat n)) in
  let s2 := mkDma (mkKmem (cleaned c n m) (mkFA (c + Z.of_nat n) e (seqZ c (Z.of_nat n)))) (q ++ seqZ c (Z.of_nat n)) in
  dma_alloc (Z.of_nat n) (mkDma (mkKmem m (mkFA c e [])) q) = Ok (c * 4096, s1) ∧
  (∀ p, mem (dma_mem s1) !! p = if decide (c ≤ p < c + Z.of_nat n) then Some zero_page else m !! p) ∧
  dma_dealloc (c * 4096) (Z.of_nat n) s1 = Ok (0, s2) ∧
  ∀ k, (2 ≤ k)%nat → (2 ≤ n)%nat → dma_alloc (Z.of_nat k) s2 = Fail Panic.
Proof.
  intros Hc He H44 Hn Hm s1 s2. destruct (PhysAddr_page c) as [Ep Eb]; [lia|]. split; [|split; [|split]].
  - unfold dma_alloc. rewrite Nat2Z.id. mstep. rewrite alloc_loop_run by (done || lia || by left).
    rewrite decide_True by lia. by rewrite Ep.
  - intros p. apply cleaned_lookup.
  - unfold dma_dealloc. mstep. rewrite Eb. rewrite Nat2Z.id. unfold s1. rewrite dealloc_loop_run by (lia || intros; apply not_elem_of_nil). done.
  - intros k Hk Hn2. unfold s2. destruct k as [|[|k]]; [lia..|].
    assert (E : seqZ c (Z.of_nat n) = (seqZ c (Z.of_nat n - 2) ++ [c + (Z.of_nat n - 2)]) ++ [c + (Z.of_nat n - 2) + 1]).
    { rewrite <- seqZ_last_two by lia. f_equal. lia. }
    rewrite E at 1. apply realloc_panics; [lia|..]; rewrite cleaned_lookup, decide_True by lia; by eexists.
Qed.

(** Two pages, twice *)
Lemma dma_spec_witness :
  (dma_alloc 2;; dma_dealloc 0x5000 2) (mkDma (mkKmem (list_to_map ((λ p, (p, zero_page)) <$> seqZ 5 4)) (mkFA 5 9 [])) []) =
    Ok (0, mkDma (mkKmem (cleaned 5 2 (list_to_map ((λ p, (p, zero_page)) <$> seqZ 5 4))) (mkFA 7 9 [5; 6])) [5; 6]) ∧
  dma_alloc 2 (mkDma (mkKmem (cleaned 5 2 (list_to_map ((λ p, (p, zero_page)) <$> seqZ 5 4))) (mkFA 7 9 [5; 6])) [5; 6]) = Fail Panic.
Proof.
  destruct (dma_spec (list_to_map ((λ p, (p, zero_page)) <$> seqZ 5 4)) 5 9 [] 2) as (E1 & _ & E2 & Hp); [lia..| |].
  - intros p Hp. assert (p = 5 ∨ p = 6 ∨ p = 7 ∨ p = 8) as H4 by lia. destruct H4 as [->|[->|[->| ->]]]; eexists; reflexivity.
  - split; [|exact (Hp 2%nat ltac:(lia) ltac:(lia))]. change (Z.of_nat 2) with 2 in E1, E2. mstep. rewrite E1. exact E2.
Defined.
