(* ===== verification/MemorySet.v ===== *)
(** * Address spaces (os/src/mm/memory_set.rs)

    A [MemorySet] is a page table and the areas that are mapped through it; a
    framed area owns the frames of its pages.  A frame belongs to its
    [FrameTracker], so where the source drops one, the model gives the frame back
    to the allocator.  The bits of a [MapPermission] are flags of a page table
    entry, so [PTEFlags::from_bits] of them does not fail. *)

From S2P Require Import Prelude Bytes Address FrameAlloc PageTable.

Inductive MapType := Identical | Framed.

#[export] Instance MapType_eq_dec : EqDecision MapType.
Proof. solve_decision. Defined.

Definition MapPermission_R : Z := Z.shiftl 1 1.
Definition MapPermission_W : Z := Z.shiftl 1 2.
Definition MapPermission_X : Z := Z.shiftl 1 3.
Definition MapPermission_U : Z := Z.shiftl 1 4.

Record MapArea := mkArea {
  vpn_range : SimpleRange;
  data_frames : gmap Z Z;
  map_type : MapType;
  map_perm : Z;
}.

Record MemorySet := mkMS {
  page_table : PageTable;
  areas : list MapArea;
}.

Definition set_frames (fs : gmap Z Z) (a : MapArea) : MapArea :=
  mkArea (vpn_range a) fs (map_type a) (map_perm a).
Definition set_range (r : SimpleRange) (a : MapArea) : MapArea :=
  mkArea r (data_frames a) (map_type a) (map_perm a).

(** ** Dropping frames *)

(** [Option<FrameTracker>] *)
Definition drop_frame (o : option Z) : M kmem unit :=
  match o with Some frame => frame_dealloc frame | None => mret tt end.

Fixpoint drop_frames (l : list Z) : M kmem unit :=
  match l with
  | [] => mret tt
  | frame :: l => frame_dealloc frame;; drop_frames l
  end.

(** A [BTreeMap] drops its values in the order of the keys. *)
Definition key_le (a b : Z * Z) : Prop := a.1 ≤ b.1.
#[export] Instance key_le_dec : RelDecision key_le.
Proof. intros a b. unfold key_le. apply _. Defined.

Definition frames_in_order (m : gmap Z Z) : list Z := snd <$> merge_sort key_le (map_to_list m).

Definition drop_area (a : MapArea) : M kmem unit := drop_frames (frames_in_order (data_frames a)).

(** ** [MapArea] *)

Definition MapArea_new (start_va end_va : Z) (ty : MapType) (perm : Z) : result MapArea :=
  r ← SimpleRange_new (floor start_va) (ceil end_va);
  mret (mkArea r ∅ ty perm).

Definition from_another (another : MapArea) : result MapArea :=
  r ← SimpleRange_new (range_l (vpn_range another)) (range_r (vpn_range another));
  mret (mkArea r ∅ (map_type another) (map_perm another)).

(** The pages a [for] loop over a range visits; the iterator stops at its end,
    so as many turns as there are pages and one more are enough. *)
Definition range_vpns (r : SimpleRange) : result (list Z) :=
  range_collect (S (Z.to_nat (range_r r - range_l r))) (range_l r, range_r r).

Definition map_one (a : MapArea) (pt : PageTable) (vpn : Z) : M kmem (MapArea * PageTable) :=
  '(a, ppn) ←
    match map_type a with
    | Identical => mret (a, vpn)
    | Framed =>
        o ← frame_alloc;
        frame ← lift (unwrap o);
        drop_frame (data_frames a !! vpn);;
        mret (set_frames (<[vpn := frame]> (data_frames a)) a, frame)
    end;
  pt ← map pt vpn ppn (map_perm a);
  mret (a, pt).

(** [self.data_frames.remove(&vpn)] drops what it returns. *)
Definition remove_frame (a : MapArea) (vpn : Z) : M kmem MapArea :=
  drop_frame (data_frames a !! vpn);;
  mret (set_frames (delete vpn (data_frames a)) a).

Definition unmap_one (a : MapArea) (pt : PageTable) (vpn : Z) : M kmem MapArea :=
  a ← (if decide (map_type a = Framed) then remove_frame a vpn else mret a);
  unmap pt vpn;;
  mret a.

Fixpoint map_vpns (vpns : list Z) (a : MapArea) (pt : PageTable) : M kmem (MapArea * PageTable) :=
  match vpns with
  | [] => mret (a, pt)
  | vpn :: vpns =>
      '(a, pt) ← map_one a pt vpn;
      map_vpns vpns a pt
  end.

Fixpoint unmap_vpns (vpns : list Z) (a : MapArea) (pt : PageTable) : M kmem MapArea :=
  match vpns with
  | [] => mret a
  | vpn :: vpns =>
      a ← unmap_one a pt vpn;
      unmap_vpns vpns a pt
  end.

Definition MapArea_map (a : MapArea) (pt : PageTable) : M kmem (MapArea * PageTable) :=
  vpns ← lift (range_vpns (vpn_range a));
  map_vpns vpns a pt.

Definition MapArea_unmap (a : MapArea) (pt : PageTable) : M kmem MapArea :=
  vpns ← lift (range_vpns (vpn_range a));
  unmap_vpns vpns a pt.

Definition MapArea_shrink_to (a : MapArea) (pt : PageTable) (new_end : Z) : M kmem MapArea :=
  r ← lift (SimpleRange_new new_end (range_r (vpn_range a)));
  vpns ← lift (range_vpns r);
  a ← unmap_vpns vpns a pt;
  r ← lift (SimpleRange_new (range_l (vpn_range a)) new_end);
  mret (set_range r a).

Definition MapArea_append_to (a : MapArea) (pt : PageTable) (new_end : Z) :
    M kmem (MapArea * PageTable) :=
  r ← lift (SimpleRange_new (range_r (vpn_range a)) new_end);
  vpns ← lift (range_vpns r);
  '(a, pt) ← map_vpns vpns a pt;
  r ← lift (SimpleRange_new (range_l (vpn_range a)) new_end);
  mret (set_range r a, pt).

(** The loop of [copy_data]; each turn takes up to a page of the data, and the
    first turn is made even without data. *)
Fixpoint copy_loop (fuel : nat) (pt : PageTable) (data : list Z) (start current_vpn : Z) :
    M kmem unit :=
  match fuel with
  | O => throw OutOfFuel
  | S fuel =>
      let len := Z.of_nat (length data) in
      let end_ := Z.min len (start +ᵤ PAGE_SIZE) in
      lift (assert_ (start <=? end_));;
      let src := slice (Z.to_nat start) (Z.to_nat (end_ - start)) data in
      o ← translate pt current_vpn;
      pte ← lift (unwrap o);
      page ← get_bytes_array (PTE_ppn pte);
      set_bytes_array (PTE_ppn pte) (splice 0 src page);;
      let start := start +ᵤ PAGE_SIZE in
      if len <=? start then mret tt
      else copy_loop fuel pt data start (step current_vpn)
  end.

Definition copy_data (a : MapArea) (pt : PageTable) (data : list Z) : M kmem unit :=
  lift (assert_ (bool_decide (map_type a = Framed)));;
  copy_loop (S (length data)) pt data 0 (range_l (vpn_range a)).

(** ** [MemorySet] *)

Definition new_bare : M kmem MemorySet :=
  pt ← PageTable_new;
  mret (mkMS pt []).

Definition MemorySet_token (ms : MemorySet) : Z := token (page_table ms).

Definition MemorySet_translate (ms : MemorySet) (vpn : Z) : M kmem (option Z) :=
  translate (page_table ms) vpn.

Definition push (ms : MemorySet) (a : MapArea) (data : option (list Z)) : M kmem MemorySet :=
  '(a, pt) ← MapArea_map a (page_table ms);
  match data with
  | Some data => copy_data a pt data
  | None => mret tt
  end;;
  mret (mkMS pt (areas ms ++ [a])).

Definition insert_framed_area (ms : MemorySet) (start_va end_va perm : Z) : M kmem MemorySet :=
  a ← lift (MapArea_new start_va end_va Framed perm);
  push ms a None.

Definition remove_area_with_start_vpn (ms : MemorySet) (start_vpn : Z) : M kmem MemorySet :=
  match list_find (λ a, range_l (vpn_range a) = start_vpn) (areas ms) with
  | Some (i, a) =>
      a ← MapArea_unmap a (page_table ms);
      drop_area a;;
      mret (mkMS (page_table ms) (delete i (areas ms)))
  | None => mret ms
  end.

Fixpoint drop_areas (l : list MapArea) : M kmem unit :=
  match l with
  | [] => mret tt
  | a :: l => drop_area a;; drop_areas l
  end.

Definition recycle_data_pages (ms : MemorySet) : M kmem MemorySet :=
  drop_areas (areas ms);;
  mret (mkMS (page_table ms) []).

(** An address space goes out of scope: the frames of its tables, then its areas. *)
Definition MemorySet_drop (ms : MemorySet) : M kmem unit :=
  drop_frames (pt_frames (page_table ms));;
  drop_areas (areas ms).

Definition MemorySet_shrink_to (ms : MemorySet) (start new_end : Z) : M kmem (bool * MemorySet) :=
  match list_find (λ a, range_l (vpn_range a) = floor start) (areas ms) with
  | Some (i, a) =>
      a ← MapArea_shrink_to a (page_table ms) (ceil new_end);
      mret (true, mkMS (page_table ms) (<[i := a]> (areas ms)))
  | None => mret (false, ms)
  end.

Definition MemorySet_append_to (ms : MemorySet) (start new_end : Z) : M kmem (bool * MemorySet) :=
  match list_find (λ a, range_l (vpn_range a) = floor start) (areas ms) with
  | Some (i, a) =>
      '(a, pt) ← MapArea_append_to a (page_table ms) (ceil new_end);
      mret (true, mkMS pt (<[i := a]> (areas ms)))
  | None => mret (false, ms)
  end.

(** ** Whole address spaces *)

Section spaces.
(** The address of the trampoline code, a symbol of the linker. *)
Context (strampoline : Z).

Definition map_trampoline (ms : MemorySet) : M kmem MemorySet :=
  vpn ← lift (VirtPageNum_of_VirtAddr (VirtAddr_from TRAMPOLINE));
  ppn ← lift (PhysPageNum_of_PhysAddr (PhysAddr_from strampoline));
  pt ← map (page_table ms) vpn ppn (Z.lor PTE_R PTE_X);
  mret (mkMS pt (areas ms)).

(** The contents of the pages of an area are copied one by one. *)
Fixpoint copy_pages (vpns : list Z) (src dst : PageTable) : M kmem unit :=
  match vpns with
  | [] => mret tt
  | vpn :: vpns =>
      o ← translate src vpn;
      src_pte ← lift (unwrap o);
      o ← translate dst vpn;
      dst_pte ← lift (unwrap o);
      page ← get_bytes_array (PTE_ppn src_pte);
      get_bytes_array (PTE_ppn dst_pte);;
      set_bytes_array (PTE_ppn dst_pte) page;;
      copy_pages vpns src dst
  end.

Fixpoint copy_areas (l : list MapArea) (src : PageTable) (ms : MemorySet) : M kmem MemorySet :=
  match l with
  | [] => mret ms
  | a :: l =>
      new_area ← lift (from_another a);
      ms ← push ms new_area None;
      vpns ← lift (range_vpns (vpn_range a));
      copy_pages vpns src (page_table ms);;
      copy_areas l src ms
  end.

Definition from_existed_user (user_space : MemorySet) : M kmem MemorySet :=
  ms ← new_bare;
  ms ← map_trampoline ms;
  copy_areas (areas user_space) (page_table user_space) ms.

(** [new_kernel], with the symbols of the linker. *)
Section kernel.
Context (stext etext srodata erodata sdata edata sbss_with_stack ebss ekernel : Z).

Definition MMIO : list (Z * Z) := [(0x00100000, 0x002000); (0x10001000, 0x001000)].

Definition push_identical (ms : MemorySet) (start end_ perm : Z) : M kmem MemorySet :=
  a ← lift (MapArea_new (VirtAddr_from start) (VirtAddr_from end_) Identical perm);
  push ms a None.

Fixpoint push_mmio (pairs : list (Z * Z)) (ms : MemorySet) : M kmem MemorySet :=
  match pairs with
  | [] => mret ms
  | (base, size) :: pairs =>
      ms ← push_identical ms base (base +ᵤ size) (Z.lor MapPermission_R MapPermission_W);
      push_mmio pairs ms
  end.

Definition new_kernel : M kmem MemorySet :=
  ms ← new_bare;
  ms ← map_trampoline ms;
  ms ← push_identical ms stext etext (Z.lor MapPermission_R MapPermission_X);
  ms ← push_identical ms srodata erodata MapPermission_R;
  ms ← push_identical ms sdata edata (Z.lor MapPermission_R MapPermission_W);
  ms ← push_identical ms sbss_with_stack ebss (Z.lor MapPermission_R MapPermission_W);
  ms ← push_identical ms ekernel MEMORY_END (Z.lor MapPermission_R MapPermission_W);
  push_mmio MMIO ms.

(** [remap_test], with the kernel space *)
Definition remap_test (kernel_space : MemorySet) : M kmem unit :=
  let mid_text := VirtAddr_from ((stext +ᵤ etext) / 2) in
  let mid_rodata := VirtAddr_from ((srodata +ᵤ erodata) / 2) in
  let mid_data := VirtAddr_from ((sdata +ᵤ edata) / 2) in
  o ← translate (page_table kernel_space) (floor mid_text);
  pte ← lift (unwrap o);
  lift (assert_ (negb (PTE_writable pte)));;
  o ← translate (page_table kernel_space) (floor mid_rodata);
  pte ← lift (unwrap o);
  lift (assert_ (negb (PTE_writable pte)));;
  o ← translate (page_table kernel_space) (floor mid_data);
  pte ← lift (unwrap o);
  lift (assert_ (negb (PTE_executable pte))).
End kernel.

(** What [from_elf] asks the ELF parser for. *)
Record ProgramHeader := mkPH {
  ph_load : option bool;      (** whether [get_type()], if it succeeds, is [Load] *)
  ph_virtual_addr : Z;
  ph_mem_size : Z;
  ph_offset : Z;
  ph_file_size : Z;
  ph_read : bool;
  ph_write : bool;
  ph_execute : bool;
}.

Record ElfFile := mkElf {
  elf_magic : list Z;
  elf_input : list Z;
  elf_entry : Z;
  program_headers : list (option ProgramHeader);
}.

Context (ElfFile_new : list Z → option ElfFile).

Definition elf_perm (ph : ProgramHeader) : Z :=
  let perm := MapPermission_U in
  let perm := if ph_read ph then Z.lor perm MapPermission_R else perm in
  let perm := if ph_write ph then Z.lor perm MapPermission_W else perm in
  if ph_execute ph then Z.lor perm MapPermission_X else perm.

(** [&input[start..end]] *)
Definition subslice (l : list Z) (start end_ : Z) : result (list Z) :=
  assert_ ((start <=? end_) && (end_ <=? Z.of_nat (length l)));;
  mret (slice (Z.to_nat start) (Z.to_nat (end_ - start)) l).

Fixpoint load_segments (input : list Z) (phs : list (option ProgramHeader)) (ms : MemorySet)
    (max_end_vpn : Z) : M kmem (MemorySet * Z) :=
  match phs with
  | [] => mret (ms, max_end_vpn)
  | o :: phs =>
      ph ← lift (unwrap o);
      load ← lift (unwrap (ph_load ph));
      if load : bool then
        a ← lift (MapArea_new (VirtAddr_from (ph_virtual_addr ph))
                    (VirtAddr_from (ph_virtual_addr ph +ᵤ ph_mem_size ph)) Framed (elf_perm ph));
        data ← lift (subslice input (ph_offset ph) (ph_offset ph +ᵤ ph_file_size ph));
        ms ← push ms a (Some data);
        load_segments input phs ms (range_r (vpn_range a))
      else load_segments input phs ms max_end_vpn
  end.

(** The address space, the base of the user stacks, and the entry point. *)
Definition from_elf (elf_data : list Z) : M kmem (MemorySet * Z * Z) :=
  ms ← new_bare;
  ms ← map_trampoline ms;
  elf ← lift (unwrap (ElfFile_new elf_data));
  lift (assert_ (bool_decide (elf_magic elf = [0x7f; 0x45; 0x4c; 0x46])));;
  '(ms, max_end_vpn) ← load_segments (elf_input elf) (program_headers elf) ms 0;
  let max_end_va := VirtAddr_of_VirtPageNum max_end_vpn in
  let user_stack_base := usize_of_VirtAddr max_end_va +ᵤ PAGE_SIZE in
  mret (ms, user_stack_base, elf_entry elf).
End spaces.
