(* ===== verification/MemorySpec.v ===== *)
(** * What address spaces promise

    The invariant of an address space: its page table is the finite map that its
    areas and the trampoline describe, and it owns its frames alone.  The
    operations of [MemorySet] are shown to keep it, to change exactly the pages
    they name, and to leave every frame that is not theirs alone; a copied
    address space has the contents of the original in frames of its own. *)

From S2P Require Import Prelude Bytes Address FrameAlloc PageTable MemorySet.

(** ** Pages of an area *)

Definition vpns_of (r : SimpleRange) : list Z := seqZ (range_l r) (range_r r - range_l r).

Definition range_ok (r : SimpleRange) : Prop := 0 ≤ range_l r ≤ range_r r ∧ range_r r ≤ 2 ^ 27.

Lemma range_vpns_run r : range_ok r → range_vpns r = Ok (vpns_of r).
Proof.
  intros [Hl Hr]. unfold range_vpns, vpns_of.
  pose proof (range_collect_seqZ (Z.to_nat (range_r r - range_l r)) (range_l r)
    (S (Z.to_nat (range_r r - range_l r)))) as H.
  rewrite Z2Nat.id in H by lia. replace (range_l r + (range_r r - range_l r)) with (range_r r) in H by lia.
  apply H; lia.
Qed.

Lemma elem_of_vpns r v : v ∈ vpns_of r ↔ range_l r ≤ v < range_r r.
Proof. unfold vpns_of. rewrite elem_of_seqZ. lia. Qed.

(** The entry of a page. *)
Definition pte_for (perm : Z) (ppn : Z) : Z := PTE_new ppn (Z.lor perm PTE_V).

(** The mapping of a list of pages. *)
Definition mapping (perm : Z) (kvs : list (Z * Z)) : gmap Z Z :=
  list_to_map ((λ kv, (kv.1, pte_for perm kv.2)) <$> kvs).

Definition perm_ok (perm : Z) : Prop := 0 ≤ perm < 2 ^ 8.

(** ** Mapping pages *)

(** The physical page of [vpn] in an area: itself, or a frame of the area. *)
Definition target (a : MapArea) (vpn : Z) : option Z :=
  match map_type a with Identical => Some vpn | Framed => data_frames a !! vpn end.

Lemma map_one_framed start s pt mu a vpn :
  represents start s pt mu → (3 ≤ nfree (frames s))%nat → 0 ≤ vpn < 2 ^ 27 → mu !! vpn = None →
  map_type a = Framed → perm_ok (map_perm a) → data_frames a !! vpn = None →
  ∃ f s' fr, map_one a pt vpn s =
      Ok ((set_frames (<[vpn := f]> (data_frames a)) a, mkPT (root_ppn pt) (pt_frames pt ++ fr)), s') ∧
    represents start s' (mkPT (root_ppn pt) (pt_frames pt ++ fr)) (<[vpn := pte_for (map_perm a) f]> mu) ∧
    (length fr ≤ 2)%nat ∧ grows start (pt_frames pt) s s' (f :: fr) ∧ mem s' !! f = Some zero_page ∧
    0 ≤ f < 2 ^ 44.
Proof.
  intros Hr Hn Hv Hmu Hty Hp Hdf. unfold map_one. rewrite Hty.
  destruct (frame_alloc_run start s) as (f & s1 & E & Hg & Hm); [apply Hr|lia|].
  mstep. rewrite E. cbn [unwrap]. rewrite Hdf. cbn [drop_frame]. mstep.
  destruct (gr_fresh _ _ _ _ _ Hg f) as [Hf Hnu]; [apply list_elem_of_here|].
  assert (Hf44 : 0 ≤ f < 2 ^ 44).
  { destruct Hr as [Hwf _]. destruct (pt_kmem _ _ _ Hwf) as ((? & ? & _) & _). lia. }
  assert (Hr1 : represents start s1 pt mu)
    by (eapply represents_grows; [done|done|intros ? _; apply not_elem_of_nil]).
  pose proof (gr_free _ _ _ _ _ Hg) as Hfree. cbn [length] in Hfree.
  pose proof (map_run start s1 pt mu vpn f (map_perm a) Hr1 ltac:(lia) Hv Hf44 Hp) as Hmap.
  rewrite Hmu in Hmap. destruct Hmap as (pt' & s' & fr & E' & -> & Hr' & Hl & Hg').
  unfold set_frames at 1. cbn [map_perm]. rewrite E'. exists f, s', fr. split; [done|].
  split; [done|]. split; [done|].
  assert (Hfr : (f ∉ fr) ∧ f ∉ pt_frames pt).
  { split.
    - intros Hin. apply (gr_fresh _ _ _ _ _ Hg') in Hin as [_ Hu]. apply Hu, (gr_use _ _ _ _ _ Hg).
      left. apply list_elem_of_here.
    - intros Hin. by apply Hnu, (pt_used _ _ _ (proj1 Hr)). }
  split; [|split; [|done]].
  - apply (grows_trans _ _ (pt_frames pt) _ s1 _ [f] fr); [|done|by left].
    eapply grows_weaken; [done|by intros ? ?%not_elem_of_nil].
  - rewrite (gr_mem _ _ _ _ _ Hg') by tauto. by rewrite Hm, lookup_insert_eq.
Qed.

Lemma map_one_identical start s pt mu a vpn :
  represents start s pt mu → (2 ≤ nfree (frames s))%nat → 0 ≤ vpn < 2 ^ 27 → mu !! vpn = None →
  map_type a = Identical → perm_ok (map_perm a) →
  ∃ s' fr, map_one a pt vpn s = Ok ((a, mkPT (root_ppn pt) (pt_frames pt ++ fr)), s') ∧
    represents start s' (mkPT (root_ppn pt) (pt_frames pt ++ fr)) (<[vpn := pte_for (map_perm a) vpn]> mu) ∧
    (length fr ≤ 2)%nat ∧ grows start (pt_frames pt) s s' fr.
Proof.
  intros Hr Hn Hv Hmu Hty Hp. unfold map_one. rewrite Hty. mstep.
  pose proof (map_run start s pt mu vpn vpn (map_perm a) Hr ltac:(lia) Hv ltac:(lia) Hp) as Hmap.
  rewrite Hmu in Hmap. destruct Hmap as (pt' & s' & fr & E' & -> & Hr' & Hl & Hg').
  rewrite E'. by exists s', fr.
Qed.

(** The frames a list of mapped pages takes, and the area with them. *)
Definition taken (ty : MapType) (ps : list Z) : list Z :=
  match ty with Identical => [] | Framed => ps end.

Definition with_pages (kvs : list (Z * Z)) (a : MapArea) : MapArea :=
  match map_type a with
  | Identical => a
  | Framed => set_frames (list_to_map kvs ∪ data_frames a) a
  end.

Lemma mapping_nil perm mu : mapping perm [] ∪ mu = mu.
Proof. apply (left_id_L ∅ (∪)). Qed.

Lemma with_pages_nil a : with_pages [] a = a.
Proof.
  unfold with_pages, set_frames. destruct a as [r fs ty perm]. cbn [map_type data_frames vpn_range map_perm].
  destruct ty; [done|]. f_equal. apply (left_id_L ∅ (∪)).
Qed.

Lemma mapping_cons perm v p kvs mu :
  (v ∉ kvs.*1) → mapping perm ((v, p) :: kvs) ∪ mu = mapping perm kvs ∪ <[v := pte_for perm p]> mu.
Proof.
  intros Hv. change (mapping perm ((v, p) :: kvs)) with (<[v := pte_for perm p]> (mapping perm kvs)).
  rewrite <- insert_union_l, insert_union_r; [done|]. apply not_elem_of_list_to_map_1.
  by rewrite <- list_fmap_compose.
Qed.

Lemma with_pages_cons v f kvs a :
  map_type a = Framed → (v ∉ kvs.*1) →
  with_pages kvs (set_frames (<[v := f]> (data_frames a)) a) = with_pages ((v, f) :: kvs) a.
Proof.
  intros Hty Hv. unfold with_pages, set_frames. cbn [map_type vpn_range map_perm data_frames]. rewrite Hty.
  f_equal. rewrite list_to_map_cons, <- insert_union_r, insert_union_l; [done|].
  by apply not_elem_of_list_to_map_1.
Qed.

Lemma fst_zip_subset {A B} (l : list A) (k : list B) x : x ∈ (zip l k).*1 → x ∈ l.
Proof.
  revert k. induction l as [|y l IH]; intros [|z k]; cbn; rewrite ?elem_of_cons; [done..|by intros ?%elem_of_nil|].
  intros [->|?]; [by left|right; by eapply IH].
Qed.

Lemma map_vpns_run start vpns s pt mu a :
  represents start s pt mu → (3 * length vpns ≤ nfree (frames s))%nat → NoDup vpns →
  (∀ v, v ∈ vpns → 0 ≤ v < 2 ^ 27 ∧ mu !! v = None) → perm_ok (map_perm a) →
  (∀ v, v ∈ vpns → data_frames a !! v = None) →
  ∃ ps s' fr, map_vpns vpns a pt s =
      Ok ((with_pages (zip vpns ps) a, mkPT (root_ppn pt) (pt_frames pt ++ fr)), s') ∧
    length ps = length vpns ∧ (length fr ≤ 2 * length vpns)%nat ∧ (map_type a = Identical → ps = vpns) ∧
    Forall (λ p, 0 ≤ p < 2 ^ 44) ps ∧
    represents start s' (mkPT (root_ppn pt) (pt_frames pt ++ fr)) (mapping (map_perm a) (zip vpns ps) ∪ mu) ∧
    grows start (pt_frames pt) s s' (taken (map_type a) ps ++ fr) ∧
    ∀ p, p ∈ taken (map_type a) ps → mem s' !! p = Some zero_page.
Proof.
  revert s pt mu a. induction vpns as [|v vpns IH]; intros s pt mu a Hr Hn Hnd Hv Hp Hdf.
  { exists [], s, []. cbn [zip_with map_vpns]. rewrite app_nil_r, with_pages_nil, mapping_nil.
    replace (taken (map_type a) []) with (@nil Z) by (by destruct (map_type a)).
    split; [by destruct pt|]. split; [done|]. split; [simpl; lia|]. split; [done|]. split; [constructor|].
    split; [by destruct pt|]. split; [apply grows_refl, Hr|]. by intros p ?%not_elem_of_nil. }
  apply NoDup_cons in Hnd as [Hnv Hnd]. cbn [length] in Hn. cbn [map_vpns].
  destruct (Hv v) as [Hv1 Hv2]; [apply list_elem_of_here|].
  assert (Hmu1 : ∀ p w, w ∈ vpns → 0 ≤ w < 2 ^ 27 ∧ <[v := pte_for (map_perm a) p]> mu !! w = None).
  { intros p w Hw. destruct (Hv w) as [? ?]; [by apply list_elem_of_further|].
    split; [done|]. rewrite lookup_insert_ne; [done|]. by intros ->. }
  destruct (map_type a) eqn:Hty.
  - destruct (map_one_identical start s pt mu a v Hr ltac:(lia) Hv1 Hv2 Hty Hp)
      as (s1 & fr1 & E1 & Hr1 & Hl1 & Hg1). pose proof (gr_free _ _ _ _ _ Hg1) as Hf1.
    destruct (IH s1 _ _ a Hr1 ltac:(lia) Hnd (Hmu1 v) Hp) as (ps & s2 & fr2 & E2 & Hl2 & Hb2 & Hid & Hps & Hr2 & Hg2 & Hz).
    { intros w Hw. apply Hdf. by apply list_elem_of_further. }
    rewrite Hty in *. cbn [taken root_ppn pt_frames app] in *. exists (v :: ps), s2, (fr1 ++ fr2).
    mstep. rewrite E1, E2, <- app_assoc. cbn [zip_with]. split.
    { unfold with_pages. by rewrite Hty. }
    split; [simpl; lia|]. split; [rewrite length_app; simpl; lia|]. split; [by intros _; rewrite (Hid eq_refl)|]. split; [constructor; [lia|done]|].
    split; [|split; [|done]].
    + rewrite mapping_cons by (intros Hin; by apply fst_zip_subset in Hin). by rewrite <- app_assoc in Hr2.
    + eapply grows_trans; [done|done|]. intros p. by rewrite elem_of_app.
  - destruct (map_one_framed start s pt mu a v Hr ltac:(lia) Hv1 Hv2 Hty Hp) as
      (f & s1 & fr1 & E1 & Hr1 & Hl1 & Hg1 & Hz1 & Hf44).
    { apply Hdf, list_elem_of_here. }
    pose proof (gr_free _ _ _ _ _ Hg1) as Hf1. cbn [length] in Hf1.
    destruct (IH s1 _ _ (set_frames (<[v := f]> (data_frames a)) a) Hr1 ltac:(lia) Hnd (Hmu1 f) Hp)
      as (ps & s2 & fr2 & E2 & Hl2 & Hb2 & Hid & Hps & Hr2 & Hg2 & Hz).
    { intros w Hw. cbn [data_frames set_frames]. rewrite lookup_insert_ne by (by intros ->).
      apply Hdf. by apply list_elem_of_further. }
    cbn [map_type map_perm set_frames] in *. rewrite Hty in *. cbn [taken root_ppn pt_frames app] in *.
    assert (Hnz : v ∉ (zip vpns ps).*1) by (intros Hin; by apply fst_zip_subset in Hin).
    exists (f :: ps), s2, (fr1 ++ fr2). mstep. rewrite E1, E2, <- app_assoc, with_pages_cons by done.
    split; [done|]. split; [simpl; lia|]. split; [rewrite length_app; simpl; lia|].
    split; [done|]. split; [by constructor|].
    rewrite <- app_assoc in Hr2. split; [|split].
    + cbn [zip_with]. by rewrite mapping_cons.
    + eapply grows_perm; [eapply (grows_trans _ _ _ _ _ _ _ _ Hg1 Hg2)|].
      * intros p. rewrite elem_of_app, elem_of_cons. tauto.
      * cbn [app]. apply Permutation_skip. rewrite !app_assoc. apply Permutation_app_tail, Permutation_app_comm.
    + intros p [->|Hin]%elem_of_cons; [|by apply Hz]. rewrite (gr_mem _ _ _ _ _ Hg2); [done| |].
      * intros Hin. apply (gr_fresh _ _ _ _ _ Hg2) in Hin as [_ Hu]. apply Hu, (gr_use _ _ _ _ _ Hg1).
        left. apply list_elem_of_here.
      * pose proof (gr_nodup _ _ _ _ _ Hg1) as Hnd1. apply NoDup_cons in Hnd1 as [Hnf _].
        intros [Hin|Hin]%elem_of_app; [|done].
        destruct (gr_fresh _ _ _ _ _ Hg1 f) as [_ Hu]; [apply list_elem_of_here|].
        by apply Hu, (pt_used _ _ _ (proj1 Hr)).
Qed.

(** ** Unmapping pages *)

Definition removed (vpns : list Z) (m : gmap Z Z) : gmap Z Z := filter (λ kv, kv.1 ∉ vpns) m.

Lemma lookup_removed vpns m v :
  removed vpns m !! v = if decide (v ∈ vpns) then None else m !! v.
Proof.
  unfold removed. case_decide as Hv.
  - apply map_lookup_filter_None. right. intros p _ Hn. by apply Hn.
  - destruct (m !! v) as [p|] eqn:E; [by apply map_lookup_filter_Some|].
    apply map_lookup_filter_None. by left.
Qed.

Lemma removed_cons v vpns m : removed vpns (delete v m) = removed (v :: vpns) m.
Proof.
  apply map_eq. intros w. rewrite !lookup_removed. destruct (decide (w = v)) as [->|Hne].
  - rewrite lookup_delete_eq, (decide_True (P := v ∈ v :: vpns)) by apply list_elem_of_here.
    by case_decide.
  - rewrite lookup_delete_ne by done. apply decide_ext. rewrite elem_of_cons. tauto.
Qed.

Lemma removed_nil m : removed [] m = m.
Proof. apply map_eq. intros v. by rewrite lookup_removed, decide_False by apply not_elem_of_nil. Qed.

Definition without_pages (vpns : list Z) (a : MapArea) : MapArea :=
  match map_type a with
  | Identical => a
  | Framed => set_frames (removed vpns (data_frames a)) a
  end.

Lemma unmap_one_run start s pt mu a v ps :
  represents start s pt mu → 0 ≤ v < 2 ^ 27 → is_Some (mu !! v) →
  taken (map_type a) ps = option_list (if decide (map_type a = Framed) then data_frames a !! v else None) →
  (∀ p, p ∈ taken (map_type a) ps → in_use start (frames s) p ∧ p ∉ pt_frames pt) →
  ∃ s', unmap_one a pt v s = Ok (without_pages [v] a, s') ∧ represents start s' pt (delete v mu) ∧
    shrinks start (pt_frames pt) s s' (taken (map_type a) ps).
Proof.
  intros Hr Hv [b Hb] Hps Hown. unfold unmap_one.
  assert (∃ s1, (if decide (map_type a = Framed) then remove_frame a v else mret a) s =
      Ok (without_pages [v] a, s1) ∧
      represents start s1 pt mu ∧ shrinks start [] s s1 (taken (map_type a) ps)) as (s1 & E1 & Hr1 & Hs1).
  { unfold without_pages. destruct (decide (map_type a = Framed)) as [Hty|Hty].
    - rewrite Hty in *. rewrite <- removed_cons, removed_nil. unfold remove_frame. mstep.
      destruct (data_frames a !! v) as [p|]; cbn [drop_frame option_list] in *; rewrite Hps in *.
      + destruct (frame_dealloc_run start s p) as (s1 & E & Hs).
        { apply Hr. } { apply Hown, list_elem_of_here. }
        rewrite E. exists s1. split; [done|]. split; [|done]. eapply represents_shrinks; [done|done|].
        intros q Hq. split; [apply not_elem_of_nil|]. rewrite list_elem_of_singleton. intros ->.
        by destruct (Hown p) as [_ ?]; [apply list_elem_of_here|].
      + mstep. exists s. split; [done|]. split; [done|]. apply shrinks_refl, Hr.
    - destruct (map_type a); [|done]. exists s. rewrite Hps. split; [done|]. split; [done|].
      apply shrinks_refl, Hr. }
  unfold mbind, M_bind. rewrite E1. pose proof (unmap_run start s1 pt mu v Hr1 Hv) as Hu. rewrite Hb in Hu.
  destruct Hu as (s2 & E2 & Hr2 & Hg2). rewrite E2. exists s2. split; [done|]. split; [done|].
  rewrite <- (app_nil_r (taken _ _)). eapply shrinks_trans; [|by apply grows_shrinks].
  eapply shrinks_weaken; [done|by intros ? ?%not_elem_of_nil].
Qed.

Lemma without_pages_cons v vpns a : without_pages vpns (without_pages [v] a) = without_pages (v :: vpns) a.
Proof.
  unfold without_pages. destruct (map_type a) eqn:Hty; [by rewrite Hty|].
  unfold set_frames. cbn [map_type data_frames vpn_range map_perm]. rewrite Hty. f_equal.
  by rewrite <- (removed_cons v []), removed_nil, removed_cons.
Qed.

Lemma Forall2_impl_in {A B} (P Q : A → B → Prop) l k :
  Forall2 P l k → (∀ x y, x ∈ l → P x y → Q x y) → Forall2 Q l k.
Proof.
  induction 1 as [|x y l k Hxy Hlk IH]; intros Himp; constructor.
  - apply Himp; [apply list_elem_of_here|done].
  - apply IH. intros x' y' Hin. apply Himp. by apply list_elem_of_further.
Qed.

Lemma unmap_vpns_run start vpns s pt mu a ps :
  represents start s pt mu → NoDup vpns → (∀ v, v ∈ vpns → 0 ≤ v < 2 ^ 27 ∧ is_Some (mu !! v)) →
  (map_type a = Framed → Forall2 (λ v p, data_frames a !! v = Some p) vpns ps) →
  NoDup (taken (map_type a) ps) →
  (∀ p, p ∈ taken (map_type a) ps → in_use start (frames s) p ∧ p ∉ pt_frames pt) →
  ∃ s', unmap_vpns vpns a pt s = Ok (without_pages vpns a, s') ∧ represents start s' pt (removed vpns mu) ∧
    shrinks start (pt_frames pt) s s' (taken (map_type a) ps).
Proof.
  revert s mu a ps. induction vpns as [|v vpns IH]; intros s mu a ps Hr Hnd Hv Hps Hndp Hown.
  { exists s. cbn [unmap_vpns]. rewrite removed_nil. split; [|split; [done|]].
    - unfold without_pages. rewrite removed_nil. by destruct a as [? ? [] ?].
    - replace (taken (map_type a) ps) with (@nil Z); [apply shrinks_refl, Hr|].
      destruct (map_type a); [done|]. specialize (Hps eq_refl). by inversion Hps. }
  apply NoDup_cons in Hnd as [Hnv Hnd]. cbn [unmap_vpns].
  assert (∃ p ps', taken (map_type a) ps = taken (map_type a) [p] ++ taken (map_type a) ps' ∧
    (map_type a = Framed → data_frames a !! v = Some p ∧ Forall2 (λ v p, data_frames a !! v = Some p) vpns ps'))
    as (p & ps' & Etk & Hps').
  { destruct (map_type a); [by exists 0, []|]. specialize (Hps eq_refl). inversion Hps; subst.
    by eexists _, _. }
  rewrite Etk in Hndp, Hown. apply NoDup_app in Hndp as (_ & Hdis & Hndp).
  destruct (Hv v) as [Hv1 Hv2]; [apply list_elem_of_here|].
  destruct (unmap_one_run start s pt mu a v [p]) as (s1 & E1 & Hr1 & Hs1); try done.
  { case_decide as Hd; [|by destruct (map_type a)]. destruct (Hps' Hd) as [-> _]. by rewrite Hd. }
  { intros q Hq. apply Hown, elem_of_app. by left. }
  assert (Hty : map_type (without_pages [v] a) = map_type a)
    by (unfold without_pages; by destruct (map_type a) eqn:E).
  destruct (IH s1 (delete v mu) (without_pages [v] a) ps') as (s2 & E2 & Hr2 & Hs2); rewrite ?Hty; try done.
  { intros w Hw. destruct (Hv w) as [? ?]; [by apply list_elem_of_further|]. split; [done|].
    rewrite lookup_delete_ne; [done|]. by intros ->. }
  { intros Hf. destruct (Hps' Hf) as [_ Hall]. unfold without_pages. rewrite Hf. cbn [data_frames set_frames].
    eapply Forall2_impl_in; [exact Hall|]. cbn. intros w q Hw Hq. rewrite lookup_removed, decide_False; [done|].
    rewrite list_elem_of_singleton. by intros ->. }
  { intros q Hq. destruct (Hown q) as [Hu Hnp]; [apply elem_of_app; by right|]. split; [|done].
    apply (sh_use _ _ _ _ _ Hs1). split; [|done]. intros Hin. by apply (Hdis q Hin). }
  mstep. rewrite E1, E2, without_pages_cons. exists s2. split; [done|]. rewrite <- removed_cons.
  split; [done|]. rewrite Etk, Hty in *. by eapply shrinks_trans.
Qed.

(** ** The invariant of an address space *)

Definition area_vpns (a : MapArea) : list Z := vpns_of (vpn_range a).
Definition area_frames (a : MapArea) : list Z := (map_to_list (data_frames a)).*2.

Record area_ok (mu : gmap Z Z) (a : MapArea) : Prop := {
  ao_range : range_ok (vpn_range a);
  ao_perm : perm_ok (map_perm a);
  ao_dom v : is_Some (data_frames a !! v) ↔ map_type a = Framed ∧ v ∈ area_vpns a;
  ao_map v p : v ∈ area_vpns a → target a v = Some p → mu !! v = Some (pte_for (map_perm a) p);
}.

Definition pages (ms : MemorySet) : list Z := areas ms ≫= area_vpns.
Definition data_of (ms : MemorySet) : list Z := areas ms ≫= area_frames.
(** The frames an address space owns. *)
Definition own (ms : MemorySet) : list Z := pt_frames (page_table ms) ++ data_of ms.

Record space_ok (start : Z) (s : kmem) (ms : MemorySet) (mu : gmap Z Z) : Prop := {
  so_rep : represents start s (page_table ms) mu;
  so_areas : Forall (area_ok mu) (areas ms);
  so_pages : NoDup (pages ms);
  so_own : NoDup (own ms);
  so_used p : p ∈ own ms → in_use start (frames s) p;
}.

Lemma target_Some a v mu : area_ok mu a → v ∈ area_vpns a → is_Some (target a v).
Proof.
  intros Ha Hv. unfold target. destruct (map_type a) eqn:Hty; [by eexists|].
  by apply (ao_dom _ _ Ha).
Qed.

Lemma area_mapped a v mu : area_ok mu a → v ∈ area_vpns a → is_Some (mu !! v).
Proof.
  intros Ha Hv. destruct (target_Some a v mu Ha Hv) as [p Hp]. by rewrite (ao_map _ _ Ha v p).
Qed.

Lemma area_vpns_range a v mu : area_ok mu a → v ∈ area_vpns a → 0 ≤ v < 2 ^ 27.
Proof. intros Ha Hv. destruct (ao_range _ _ Ha). apply elem_of_vpns in Hv. lia. Qed.

(** An area depends on its own pages of the mapping. *)
Lemma area_ok_ext mu mu' a :
  area_ok mu a → (∀ v, v ∈ area_vpns a → mu' !! v = mu !! v) → area_ok mu' a.
Proof.
  intros Ha Hmu. split; try apply Ha. intros v p Hv Hp. rewrite Hmu by done. by apply (ao_map _ _ Ha).
Qed.

(** What happens elsewhere does not matter. *)
Lemma space_ok_grows start W s s' fr ms mu :
  space_ok start s ms mu → grows start W s s' fr →
  (∀ p, p ∈ pt_frames (page_table ms) → p ∉ W) → space_ok start s' ms mu.
Proof.
  intros Hs Hg HW. split; try apply Hs.
  - by eapply represents_grows; [apply Hs|..].
  - intros p Hp. apply (gr_use _ _ _ _ _ Hg). right. by apply (so_used _ _ _ _ Hs).
Qed.

Lemma space_ok_shrinks start W s s' fr ms mu :
  space_ok start s ms mu → shrinks start W s s' fr →
  (∀ p, p ∈ own ms → (p ∉ W) ∧ p ∉ fr) → space_ok start s' ms mu.
Proof.
  intros Hs Hsh HW. split; try apply Hs.
  - eapply represents_shrinks; [apply Hs|done|]. intros p Hp. apply HW, elem_of_app. by left.
  - intros p Hp. apply (sh_use _ _ _ _ _ Hsh). split; [by apply HW|by apply (so_used _ _ _ _ Hs)].
Qed.

(** ** Adding an area *)

Lemma fst_zip_eq {A B} (l : list A) (k : list B) : length k = length l → (zip l k).*1 = l.
Proof. intros H. apply fst_zip. lia. Qed.

Lemma lookup_mapping perm vpns ps v p :
  NoDup vpns → length ps = length vpns → (v, p) ∈ zip vpns ps →
  mapping perm (zip vpns ps) !! v = Some (pte_for perm p).
Proof.
  intros Hnd Hl Hin. unfold mapping. apply elem_of_list_to_map_1.
  - rewrite <- list_fmap_compose.
    change (NoDup (fst <$> zip vpns ps)). by rewrite fst_zip_eq.
  - apply list_elem_of_fmap. by exists (v, p).
Qed.

Lemma lookup_mapping_None perm vpns ps v : (v ∉ vpns) → mapping perm (zip vpns ps) !! v = None.
Proof.
  intros Hv. unfold mapping. apply not_elem_of_list_to_map_1. rewrite <- list_fmap_compose.
  intros Hin. by apply Hv, (fst_zip_subset vpns ps).
Qed.

Lemma zip_elem {A B} (l : list A) (k : list B) x :
  length k = length l → x ∈ l → ∃ y, (x, y) ∈ zip l k.
Proof.
  intros Hl Hx. rewrite <- (fst_zip_eq l k Hl) in Hx.
  apply list_elem_of_fmap in Hx as ([x' y] & -> & Hin). by exists y.
Qed.

Lemma with_pages_same kvs a :
  vpn_range (with_pages kvs a) = vpn_range a ∧ map_type (with_pages kvs a) = map_type a ∧
  map_perm (with_pages kvs a) = map_perm a.
Proof. unfold with_pages. by destruct (map_type a) eqn:E. Qed.

Section add.
Context (vpns ps : list Z) (a : MapArea) (mu : gmap Z Z).
Context (Hvp : vpns = area_vpns a) (Hl : length ps = length vpns).
Context (Hid : map_type a = Identical → ps = vpns).
Context (Hr : range_ok (vpn_range a)) (Hp : perm_ok (map_perm a)) (He : data_frames a = ∅).
Let a' := with_pages (zip vpns ps) a.

Lemma nodup_vpns : NoDup vpns.
Proof. rewrite Hvp. apply NoDup_seqZ. Qed.

Lemma zip_self {A} (l : list A) x y : (x, y) ∈ zip l l → x = y.
Proof.
  induction l as [|z l IH]; cbn; [by intros ?%elem_of_nil|].
  intros [[= -> ->]|?]%elem_of_cons; [done|by apply IH].
Qed.

Lemma with_pages_target v p : (v, p) ∈ zip vpns ps → target a' v = Some p.
Proof.
  intros Hin. unfold target, a', with_pages. destruct (map_type a) eqn:Hty.
  - rewrite Hty. rewrite (Hid eq_refl) in Hin. by rewrite (zip_self _ _ _ Hin).
  - cbn [map_type data_frames set_frames]. rewrite Hty, He, (right_id_L ∅ (∪)).
    apply elem_of_list_to_map_1; [|done]. rewrite fst_zip_eq by done. apply nodup_vpns.
Qed.

Lemma with_pages_ok : area_ok (mapping (map_perm a) (zip vpns ps) ∪ mu) a'.
Proof.
  destruct (with_pages_same (zip vpns ps) a) as (Er & Et & Ep). fold a' in Er, Et, Ep. unfold area_vpns in *.
  split; unfold area_vpns; rewrite ?Er, ?Et, ?Ep; try done.
  - intros v. unfold a', with_pages. destruct (map_type a) eqn:Hty.
    { rewrite He, lookup_empty. split; [by intros []|by intros []]. }
    cbn [data_frames set_frames]. rewrite He, (right_id_L ∅ (∪)), <- Hvp. split.
    + intros [p Hin%elem_of_list_to_map_2]. split; [done|]. by apply elem_of_zip_l in Hin.
    + intros [_ Hv]. destruct (zip_elem vpns ps v Hl Hv) as [p Hin]. exists p.
      apply elem_of_list_to_map_1; [|done]. rewrite fst_zip_eq by done. apply nodup_vpns.
  - intros v p Hv Ht. rewrite <- Hvp in Hv. destruct (zip_elem vpns ps v Hl Hv) as [q Hin].
    rewrite (with_pages_target v q Hin) in Ht. injection Ht as <-.
    apply lookup_union_Some_l. apply lookup_mapping; [apply nodup_vpns|done|done].
Qed.

Lemma with_pages_frames : area_frames a' ≡ₚ taken (map_type a) ps.
Proof.
  unfold area_frames, a', with_pages, taken. destruct (map_type a) eqn:Hty.
  - by rewrite He, map_to_list_empty.
  - cbn [data_frames set_frames]. rewrite He, (right_id_L ∅ (∪)).
    rewrite map_to_list_to_map by (rewrite fst_zip_eq by done; apply nodup_vpns).
    by rewrite snd_zip by lia.
Qed.
End add.

Lemma page_mapped start s ms mu v : space_ok start s ms mu → v ∈ pages ms → is_Some (mu !! v).
Proof.
  intros Hs Hv. apply list_elem_of_bind in Hv as (a & Hv & Ha).
  eapply area_mapped; [|done]. by eapply Forall_forall; [apply Hs|].
Qed.

Lemma own_add root ptf fr l a :
  own (mkMS (mkPT root (ptf ++ fr)) (l ++ [a])) ≡ₚ own (mkMS (mkPT root ptf) l) ++ area_frames a ++ fr.
Proof.
  unfold own, data_of. cbn [page_table areas pt_frames]. rewrite bind_app. cbn [mbind list_bind].
  rewrite app_nil_r. rewrite <- !app_assoc. apply Permutation_app_head. rewrite (app_assoc fr).
  rewrite (Permutation_app_comm fr), <- !app_assoc. apply Permutation_app_head, Permutation_app_comm.
Qed.

(** The space [ms] with the area [a] mapped to the pages [ps], and tables in [fr]. *)
Definition pushed (ms : MemorySet) (a : MapArea) (ps fr : list Z) : MemorySet :=
  mkMS (mkPT (root_ppn (page_table ms)) (pt_frames (page_table ms) ++ fr))
    (areas ms ++ [with_pages (zip (area_vpns a) ps) a]).
Definition pushed_map (mu : gmap Z Z) (a : MapArea) (ps : list Z) : gmap Z Z :=
  mapping (map_perm a) (zip (area_vpns a) ps) ∪ mu.

Lemma pushed_own ms a ps fr :
  length ps = length (area_vpns a) → (map_type a = Identical → ps = area_vpns a) → data_frames a = ∅ →
  own (pushed ms a ps fr) ≡ₚ own ms ++ taken (map_type a) ps ++ fr ∧
  ∀ p, p ∈ taken (map_type a) ps → p ∈ data_of (pushed ms a ps fr).
Proof.
  intros Hl Hid He. pose proof (with_pages_frames _ ps a eq_refl Hl Hid He) as Hfr. split.
  - unfold pushed. rewrite own_add, Hfr. by destruct ms as [[] ?].
  - intros p Hp. unfold data_of, pushed. cbn [areas]. rewrite bind_app. apply elem_of_app. right.
    cbn [mbind list_bind]. by rewrite app_nil_r, Hfr.
Qed.

Lemma pushed_map_new mu a ps i v p :
  length ps = length (area_vpns a) → area_vpns a !! i = Some v → ps !! i = Some p →
  pushed_map mu a ps !! v = Some (pte_for (map_perm a) p).
Proof.
  intros Hl Hv Hp. apply lookup_union_Some_l, lookup_mapping; [apply NoDup_seqZ|done|].
  apply elem_of_lookup_zip_with. eauto 10.
Qed.

Lemma pushed_map_old mu a ps v : (v ∉ area_vpns a) → pushed_map mu a ps !! v = mu !! v.
Proof. intros Hv. apply lookup_union_r. by apply lookup_mapping_None. Qed.

Section push.
Context (start : Z) (s : kmem) (ms : MemorySet) (mu : gmap Z Z) (a : MapArea).
Context (Hs : space_ok start s ms mu).
Context (Hr : range_ok (vpn_range a)) (Hp : perm_ok (map_perm a)) (He : data_frames a = ∅).
Context (Hfree : ∀ v, v ∈ area_vpns a → mu !! v = None).
(** What an area adds to a space, once its pages are mapped. *)
Lemma pushed_ok s' ps fr :
  length ps = length (area_vpns a) → (map_type a = Identical → ps = area_vpns a) →
  represents start s' (page_table (pushed ms a ps fr)) (pushed_map mu a ps) →
  grows start (pt_frames (page_table ms)) s s' (taken (map_type a) ps ++ fr) →
  space_ok start s' (pushed ms a ps fr) (pushed_map mu a ps).
Proof.
  intros Hl Hid Hrep Hg. destruct (with_pages_same (zip (area_vpns a) ps) a) as (Evr & _).
  destruct (pushed_own ms a ps fr Hl Hid He) as [Eown _].
  split.
  - done.
  - unfold pushed. cbn [areas]. apply Forall_app. split; [|apply Forall_singleton; by apply with_pages_ok].
    assert (Hall := so_areas _ _ _ _ Hs). rewrite Forall_forall in Hall |- *. intros b Hb.
    eapply area_ok_ext; [by apply Hall|]. intros v Hv. apply pushed_map_old. intros Hin. destruct (area_mapped b v mu (Hall b Hb) Hv) as [x Hx].
    by rewrite Hfree in Hx.
  - unfold pages, pushed. cbn [areas]. rewrite bind_app. cbn [mbind list_bind]. rewrite app_nil_r.
    unfold area_vpns at 2. rewrite Evr. apply NoDup_app. split; [apply Hs|]. split; [|apply NoDup_seqZ].
    intros v Hv Hin. destruct (page_mapped _ _ _ _ v Hs Hv) as [x Hx]. by rewrite Hfree in Hx.
  - rewrite Eown. apply NoDup_app. split; [apply Hs|]. split; [|apply Hg]. intros p Hin Hfrs.
    apply (gr_fresh _ _ _ _ _ Hg) in Hfrs as [_ Hu]. by apply Hu, (so_used _ _ _ _ Hs).
  - intros p. rewrite Eown, elem_of_app, (gr_use _ _ _ _ _ Hg).
    intros [Hin|Hin]; [right; by apply (so_used _ _ _ _ Hs)|by left].
Qed.

Context (Hn : (3 * length (area_vpns a) ≤ nfree (frames s))%nat).

Lemma area_map_run :
  ∃ ps s' fr, MapArea_map a (page_table ms) s =
      Ok ((with_pages (zip (area_vpns a) ps) a, page_table (pushed ms a ps fr)), s') ∧
    length ps = length (area_vpns a) ∧ (length fr ≤ 2 * length (area_vpns a))%nat ∧
    (map_type a = Identical → ps = area_vpns a) ∧
    Forall (λ p, 0 ≤ p < 2 ^ 44) ps ∧
    space_ok start s' (pushed ms a ps fr) (pushed_map mu a ps) ∧
    grows start (pt_frames (page_table ms)) s s' (taken (map_type a) ps ++ fr) ∧
    ∀ p, p ∈ taken (map_type a) ps → mem s' !! p = Some zero_page.
Proof.
  unfold MapArea_map. rewrite range_vpns_run by done. mstep.
  destruct (map_vpns_run start (area_vpns a) s (page_table ms) mu a)
    as (ps & s' & fr & E & Hl & Hbd & Hid & Hps & Hrep & Hg & Hz); try done.
  { apply Hs. } { apply NoDup_seqZ. }
  { intros v Hv. split; [|by apply Hfree]. apply elem_of_vpns in Hv. destruct Hr. lia. }
  { intros v _. by rewrite He, lookup_empty. }
  exists ps, s', fr. split; [done|]. split; [done|]. split; [done|]. split; [done|]. split; [done|].
  split; [|done]. by apply pushed_ok.
Qed.

Lemma push_run :
  ∃ ps s' fr, push ms a None s = Ok (pushed ms a ps fr, s') ∧
    length ps = length (area_vpns a) ∧ (length fr ≤ 2 * length (area_vpns a))%nat ∧
    (map_type a = Identical → ps = area_vpns a) ∧
    space_ok start s' (pushed ms a ps fr) (pushed_map mu a ps) ∧
    grows start (pt_frames (page_table ms)) s s' (taken (map_type a) ps ++ fr) ∧
    ∀ p, p ∈ taken (map_type a) ps → mem s' !! p = Some zero_page.
Proof.
  destruct area_map_run as (ps & s' & fr & E & Hl & Hbd & Hid & Hps & Hs' & Hg & Hz).
  exists ps, s', fr. unfold push. mstep. rewrite E. done.
Qed.
End push.

(** ** Removing areas *)

Lemma area_frames_list mu a :
  area_ok mu a → ∃ ps, (map_type a = Framed → Forall2 (λ v p, data_frames a !! v = Some p) (area_vpns a) ps) ∧
    area_frames a ≡ₚ taken (map_type a) ps.
Proof.
  intros Ha. destruct (map_type a) eqn:Hty; cbn [taken].
  { exists []. split; [done|]. unfold area_frames. replace (data_frames a) with (∅ : gmap Z Z);
      [by rewrite map_to_list_empty|]. symmetry. apply map_empty. intros v.
    apply eq_None_not_Some. rewrite (ao_dom _ _ Ha), Hty. by intros []. }
  exists ((λ v, data_frames a !!! v) <$> area_vpns a).
  assert (Hall : Forall2 (λ v p, data_frames a !! v = Some p) (area_vpns a)
    ((λ v, data_frames a !!! v) <$> area_vpns a)).
  { apply Forall2_fmap_r, Forall_Forall2_diag, Forall_forall. intros v Hv.
    apply lookup_lookup_total, (ao_dom _ _ Ha). by split. }
  split; [done|]. unfold area_frames. set (ps := _ <$> _) in *.
  assert (Hl : length ps = length (area_vpns a)) by apply length_fmap.
  assert (E : data_frames a = list_to_map (zip (area_vpns a) ps)).
  { apply map_eq. intros v. destruct (decide (v ∈ area_vpns a)) as [Hv|Hv].
    - destruct (zip_elem _ ps v Hl Hv) as [p Hin].
      rewrite (elem_of_list_to_map_1 _ v p); [|rewrite fst_zip_eq by done; apply NoDup_seqZ|done].
      apply elem_of_lookup_zip_with in Hin as (i & v' & p' & [= <- <-] & Hvi & Hpi).
      by apply (Forall2_lookup_lr _ _ _ i _ _ Hall).
    - rewrite (not_elem_of_list_to_map_1 _ v) by (intros Hin; by apply Hv, (fst_zip_subset _ ps)).
      apply eq_None_not_Some. rewrite (ao_dom _ _ Ha). by intros []. }
  rewrite E, map_to_list_to_map by (rewrite fst_zip_eq by done; apply NoDup_seqZ).
  by rewrite snd_zip by lia.
Qed.

Lemma without_all mu a : area_ok mu a → data_frames (without_pages (area_vpns a) a) = ∅.
Proof.
  intros Ha. apply map_empty. intros v. unfold without_pages. destruct (map_type a) eqn:Hty.
  - apply eq_None_not_Some. rewrite (ao_dom _ _ Ha), Hty. by intros [].
  - cbn [data_frames set_frames]. rewrite lookup_removed. case_decide as Hv; [done|].
    apply eq_None_not_Some. rewrite (ao_dom _ _ Ha). by intros [].
Qed.

Lemma drop_frames_run start s l :
  kmem_wf start s → NoDup l → (∀ p, p ∈ l → in_use start (frames s) p) →
  ∃ s', drop_frames l s = Ok (tt, s') ∧ shrinks start [] s s' l.
Proof.
  revert s. induction l as [|p l IH]; intros s Hk Hnd Hu; cbn [drop_frames].
  { exists s. split; [done|]. by apply shrinks_refl. }
  apply NoDup_cons in Hnd as [Hp Hnd].
  destruct (frame_dealloc_run start s p) as (s1 & E1 & H1); [done|apply Hu, list_elem_of_here|].
  destruct (IH s1) as (s2 & E2 & H2); [apply H1|done| |].
  { intros q Hq. apply (sh_use _ _ _ _ _ H1). split; [|by apply Hu, list_elem_of_further].
    rewrite list_elem_of_singleton. by intros ->. }
  exists s2. mstep. rewrite E1. split; [done|]. by apply (shrinks_trans _ _ _ _ _ [p] l H1).
Qed.

Lemma frames_in_order_perm m : frames_in_order m ≡ₚ (map_to_list m).*2.
Proof. unfold frames_in_order. by rewrite merge_sort_Permutation. Qed.

Lemma drop_area_run start s a :
  kmem_wf start s → NoDup (area_frames a) → (∀ p, p ∈ area_frames a → in_use start (frames s) p) →
  ∃ s', drop_area a s = Ok (tt, s') ∧ shrinks start [] s s' (area_frames a).
Proof.
  intros Hk Hnd Hu. pose proof (frames_in_order_perm (data_frames a)) as Hp. fold (area_frames a) in Hp.
  destruct (drop_frames_run start s (frames_in_order (data_frames a))) as (s' & E & Hs).
  { done. } { by rewrite Hp. } { intros p. rewrite Hp. apply Hu. }
  exists s'. split; [done|]. by eapply shrinks_perm.
Qed.

Lemma drop_areas_run start s l :
  kmem_wf start s → NoDup (l ≫= area_frames) →
  (∀ p, p ∈ l ≫= area_frames → in_use start (frames s) p) →
  ∃ s', drop_areas l s = Ok (tt, s') ∧ shrinks start [] s s' (l ≫= area_frames).
Proof.
  revert s. induction l as [|a l IH]; intros s Hk Hnd Hu; cbn [drop_areas].
  { exists s. split; [done|]. by apply shrinks_refl. }
  change ((a :: l) ≫= area_frames) with (area_frames a ++ (l ≫= area_frames)) in *.
  apply NoDup_app in Hnd as (Hnd1 & Hdis & Hnd2).
  destruct (drop_area_run start s a) as (s1 & E1 & H1); [done|done| |].
  { intros p Hp. apply Hu, elem_of_app. by left. }
  destruct (IH s1) as (s2 & E2 & H2); [apply H1|done| |].
  { intros q Hq. apply (sh_use _ _ _ _ _ H1). split; [|apply Hu, elem_of_app; by right].
    intros Hin. by apply (Hdis q Hin). }
  exists s2. mstep. rewrite E1. split; [done|]. by eapply shrinks_trans.
Qed.

Section remove.
Context (start : Z) (s : kmem) (ms : MemorySet) (mu : gmap Z Z) (Hs : space_ok start s ms mu).

Lemma data_used p :
  p ∈ data_of ms → in_use start (frames s) p ∧ p ∉ pt_frames (page_table ms).
Proof.
  intros Hp. split; [apply (so_used _ _ _ _ Hs), elem_of_app; by right|].
  pose proof (so_own _ _ _ _ Hs) as Hnd. apply NoDup_app in Hnd as (_ & Hdis & _).
  intros Hin. by apply (Hdis p Hin).
Qed.

Lemma recycle_run :
  ∃ s', recycle_data_pages ms s = Ok (mkMS (page_table ms) [], s') ∧
    space_ok start s' (mkMS (page_table ms) []) mu ∧ shrinks start [] s s' (data_of ms).
Proof.
  pose proof (so_own _ _ _ _ Hs) as Hnd. apply NoDup_app in Hnd as (Hnd & Hdis & Hnd2).
  destruct (drop_areas_run start s (areas ms)) as (s' & E & H1).
  { apply (so_rep _ _ _ _ Hs). } { done. } { intros p Hp. by apply data_used. }
  exists s'. unfold recycle_data_pages. mstep. rewrite E. split; [done|]. split; [|done].
  split; cbn [page_table areas].
  - eapply represents_shrinks; [apply Hs|done|]. intros p Hp. split; [apply not_elem_of_nil|].
    by apply Hdis.
  - constructor.
  - constructor.
  - unfold own, data_of. cbn. by rewrite app_nil_r.
  - intros p. unfold own, data_of. cbn. rewrite app_nil_r. intros Hp.
    apply (sh_use _ _ _ _ _ H1). split; [by apply Hdis|]. by apply (pt_used _ _ _ (proj1 (so_rep _ _ _ _ Hs))).
Qed.

Context (i : nat) (a : MapArea) (Hi : areas ms !! i = Some a).

Lemma areas_split : areas ms ≡ₚ a :: delete i (areas ms).
Proof. by apply delete_Permutation. Qed.

Lemma pages_split : pages ms ≡ₚ area_vpns a ++ (delete i (areas ms) ≫= area_vpns).
Proof. unfold pages. generalize areas_split. by generalize (delete i (areas ms)); intros l ->. Qed.
Lemma data_split : data_of ms ≡ₚ area_frames a ++ (delete i (areas ms) ≫= area_frames).
Proof. unfold data_of. generalize areas_split. by generalize (delete i (areas ms)); intros l ->. Qed.

Lemma found_ok : area_ok mu a ∧ Forall (area_ok mu) (delete i (areas ms)).
Proof.
  pose proof (so_areas _ _ _ _ Hs) as Hall. rewrite areas_split in Hall. by apply Forall_cons in Hall.
Qed.

(** The other areas do not contain a page of this one. *)
Lemma others_ok mu' :
  (∀ v, (v ∉ area_vpns a) → mu' !! v = mu !! v) → Forall (area_ok mu') (delete i (areas ms)).
Proof.
  intros Hmu. destruct found_ok as [_ Hall]. rewrite Forall_forall in Hall |- *. intros b Hb.
  eapply area_ok_ext; [by apply Hall|]. intros v Hv. apply Hmu. intros Hin.
  pose proof (so_pages _ _ _ _ Hs) as Hnd. rewrite pages_split in Hnd. apply NoDup_app in Hnd as (_ & Hdis & _).
  apply (Hdis v Hin), list_elem_of_bind. by exists b.
Qed.

Lemma remove_run :
  ∃ s', (a ← MapArea_unmap a (page_table ms); drop_area a;; mret (mkMS (page_table ms) (delete i (areas ms)))) s =
      Ok (mkMS (page_table ms) (delete i (areas ms)), s') ∧
    space_ok start s' (mkMS (page_table ms) (delete i (areas ms))) (removed (area_vpns a) mu) ∧
    shrinks start (pt_frames (page_table ms)) s s' (area_frames a).
Proof.
  destruct found_ok as [Ha Hother]. destruct (area_frames_list mu a Ha) as (ps & Hps & Hperm).
  pose proof (so_own _ _ _ _ Hs) as Hnd. unfold own in Hnd. rewrite data_split in Hnd.
  apply NoDup_app in Hnd as (Hnd1 & Hdis & Hnd). pose proof Hnd as Hnd2.
  apply NoDup_app in Hnd2 as (Hnd2 & Hdis2 & Hnd3).
  assert (Hfr : ∀ p, p ∈ taken (map_type a) ps → in_use start (frames s) p ∧ p ∉ pt_frames (page_table ms)).
  { intros p Hp. apply data_used. rewrite data_split, Hperm. apply elem_of_app. by left. }
  unfold MapArea_unmap. rewrite range_vpns_run by apply Ha. mstep.
  destruct (unmap_vpns_run start (area_vpns a) s (page_table ms) mu a ps) as (s' & E & Hr & Hsh); try done.
  { apply Hs. } { apply NoDup_seqZ. }
  { intros v Hv. split; [by eapply area_vpns_range|by eapply area_mapped]. } { by rewrite <- Hperm. }
  change (vpns_of (vpn_range a)) with (area_vpns a). rewrite E. unfold drop_area.
  rewrite (without_all mu) by done. change (frames_in_order ∅) with (@nil Z). cbn [drop_frames]. mstep.
  exists s'. split; [done|]. split; [|by eapply shrinks_perm].
  split; cbn [page_table areas].
  - done.
  - apply others_ok. intros v Hv. by rewrite lookup_removed, decide_False.
  - pose proof (so_pages _ _ _ _ Hs) as Hp. rewrite pages_split in Hp. by apply NoDup_app in Hp as (_ & _ & Hp).
  - unfold own. cbn [page_table areas]. apply NoDup_app. split; [done|]. split; [|done].
    intros p Hp Hin. apply (Hdis p Hp), elem_of_app. by right.
  - intros p [Hp|Hp]%elem_of_app; apply (sh_use _ _ _ _ _ Hsh); cbn [page_table areas] in Hp.
    + split; [|apply (so_used _ _ _ _ Hs), elem_of_app; by left]. rewrite <- Hperm.
      intros Hin. apply (Hdis p Hp), elem_of_app. by left.
    + split; [|apply (so_used _ _ _ _ Hs), elem_of_app; right; rewrite data_split; apply elem_of_app; by right].
      rewrite <- Hperm. intros Hin. by apply (Hdis2 p Hin).
Qed.
End remove.

(** ** Copying an address space *)

Lemma pte_for_ppn perm p : perm_ok perm → 0 ≤ p < 2 ^ 44 → PTE_ppn (pte_for perm p) = p.
Proof. intros Hp Hr. apply PTE_ppn_new; [done|]. by apply lor_V. Qed.

(** The pages [ps'] of [dst] get the contents of the pages [ps] of [src]; the
    frames that are written are in [D], where the originals are not. *)
Lemma copy_pages_run start src dst mu mu' perm (D : list Z) vpns ps ps' s :
  represents start s src mu → represents start s dst mu' → perm_ok perm →
  Forall2 (λ v p, 0 ≤ v < 2 ^ 27 ∧ mu !! v = Some (pte_for perm p) ∧
    in_use start (frames s) p ∧ p ∉ D) vpns ps →
  Forall2 (λ v p, mu' !! v = Some (pte_for perm p) ∧ in_use start (frames s) p ∧ p ∈ D) vpns ps' →
  NoDup ps' → (∀ p, p ∈ D → (p ∉ pt_frames src) ∧ p ∉ pt_frames dst) →
  ∃ s', copy_pages vpns src dst s = Ok (tt, s') ∧ grows start ps' s s' [] ∧
    Forall2 (λ p p', mem s' !! p' = mem s !! p) ps ps'.
Proof.
  intros Hsrc Hdst Hperm Hps Hps' Hnd HD. revert s ps' Hsrc Hdst Hps Hps' Hnd.
  revert ps. induction vpns as [|v vpns IH]; intros ps s ps' Hsrc Hdst Hps Hps' Hnd; cbn [copy_pages].
  { inversion Hps; inversion Hps'; subst. exists s. split; [done|]. split; [|constructor].
    apply grows_refl, Hsrc. }
  apply Forall2_cons_inv_l in Hps as (p & ps0 & (Hv & Hmu & Hu & HpD) & Hps & ->).
  apply Forall2_cons_inv_l in Hps' as (p' & ps0' & (Hmu' & Hu' & HpD') & Hps' & ->).
  apply NoDup_cons in Hnd as [Hp' Hnd]. assert (Hk : kmem_wf start s) by apply Hsrc.
  destruct (used_page start s p Hk Hu) as (Hr & page & Epg & Hlen & Hby).
  destruct (used_page start s p' Hk Hu') as (Hr' & page' & Epg' & _).
  mstep. rewrite (translate_mapped start s src mu v (pte_for perm p)) by done. cbn [unwrap].
  rewrite (translate_mapped start s dst mu' v (pte_for perm p')) by done. cbn [unwrap].
  rewrite !pte_for_ppn by done. rewrite (get_bytes_array_run _ _ _ Epg), (get_bytes_array_run _ _ _ Epg').
  unfold set_bytes_array. mstep. set (s1 := mkKmem _ _).
  assert (Hg1 : grows start [p'] s s1 []) by (by apply grows_write).
  destruct (HD p' HpD') as [Hns Hnd'].
  destruct (IH ps0 s1 ps0') as (s' & E & Hg & Hc).
  - eapply represents_grows; [done|done|]. intros q Hq. rewrite list_elem_of_singleton. by intros ->.
  - eapply represents_grows; [done|done|]. intros q Hq. rewrite list_elem_of_singleton. by intros ->.
  - done.
  - done.
  - done.
  - exists s'. split; [done|]. split; [|constructor].
    + eapply (grows_trans _ _ ps0' _ s1 _ [] []); [|done|intros q; left; by apply list_elem_of_further].
      eapply grows_weaken; [done|]. intros q ->%list_elem_of_singleton. apply list_elem_of_here.
    + rewrite (gr_mem _ _ _ _ _ Hg) by (done || apply not_elem_of_nil). unfold s1. cbn [mem].
      by rewrite lookup_insert_eq.
    + eapply Forall2_impl_in; [exact Hc|]. cbn. intros q q' Hq ->. unfold s1. cbn [mem].
      rewrite lookup_insert_ne; [done|]. intros ->. apply list_elem_of_lookup in Hq as [j Hj].
      destruct (Forall2_lookup_r _ _ _ _ _ Hps Hj) as (w & _ & _ & _ & _ & HqD). done.
Qed.

Definition same_shape (a b : MapArea) : Prop :=
  vpn_range a = vpn_range b ∧ map_type a = map_type b ∧ map_perm a = map_perm b.

(** Page [v] is mapped, with the same permissions in [ms] and in [ch], to frames
    of [ms] and of [ch] with the same contents. *)
Definition copied (ms : MemorySet) (s : kmem) (mu : gmap Z Z) (ch : MemorySet) (s' : kmem) (mu' : gmap Z Z)
    (v : Z) : Prop :=
  ∃ perm p p', perm_ok perm ∧ mu !! v = Some (pte_for perm p) ∧ mu' !! v = Some (pte_for perm p') ∧
    p ∈ data_of ms ∧ p' ∈ data_of ch ∧ mem s' !! p' = mem s !! p.

Definition blank (a : MapArea) : MapArea := mkArea (vpn_range a) ∅ (map_type a) (map_perm a).

Lemma from_another_run a : range_ok (vpn_range a) → from_another a = Ok (blank a).
Proof.
  intros [Hr _]. unfold from_another, SimpleRange_new, blank. rewrite (proj2 (Z.leb_le _ _)) by lia.
  mstep. by destruct a as [[] ? ? ?].
Qed.

Section copy.
Context (start : Z) (ms : MemorySet) (mu : gmap Z Z).
Context (Hframed : ∀ a, a ∈ areas ms → map_type a = Framed).

Lemma area_source s a :
  space_ok start s ms mu → a ∈ areas ms →
  ∃ ps, Forall2 (λ v p, 0 ≤ v < 2 ^ 27 ∧ mu !! v = Some (pte_for (map_perm a) p) ∧
    in_use start (frames s) p ∧ p ∈ data_of ms) (area_vpns a) ps.
Proof.
  intros Hs Ha. assert (Hok : area_ok mu a) by (by eapply Forall_forall; [apply Hs|]).
  destruct (area_frames_list mu a Hok) as (ps & Hps & Hperm). rewrite (Hframed a Ha) in *. exists ps.
  eapply Forall2_impl_in; [by apply Hps|]. cbn. intros v p Hv Hp.
  split; [by eapply area_vpns_range|]. split; [|].
  { apply (ao_map _ _ Hok); [done|]. unfold target. by rewrite (Hframed a Ha). }
  assert (Hin : p ∈ data_of ms).
  { apply list_elem_of_bind. exists a. split; [|done]. unfold area_frames. apply list_elem_of_fmap.
    exists (v, p). split; [done|]. by apply elem_of_map_to_list. }
  split; [|done]. by apply (data_used start s ms mu Hs).
Qed.

Section one.
Context (s : kmem) (ch : MemorySet) (nu : gmap Z Z) (a : MapArea).
Context (Hs : space_ok start s ms mu) (Hch : space_ok start s ch nu) (Ha : a ∈ areas ms).
Context (Hdis : ∀ p, p ∈ own ms → p ∉ own ch).
Context (Hfree : ∀ v, v ∈ area_vpns a → nu !! v = None).
Context (Hn : (3 * length (area_vpns a) ≤ nfree (frames s))%nat).

(** One area of the parent [ms] is copied into the child [ch]. *)
Lemma copy_area_run :
  ∃ b pt s' fr nu', (ms' ← push ch (blank a) None;
      vpns ← lift (range_vpns (vpn_range a));
      copy_pages vpns (page_table ms) (page_table ms');; mret ms') s = Ok (mkMS pt (areas ch ++ [b]), s') ∧
    same_shape a b ∧ (length fr ≤ 3 * length (area_vpns a))%nat ∧
    (∀ p, p ∈ pt_frames pt → p ∈ pt_frames (page_table ch) ∨ p ∈ fr) ∧
    space_ok start s' (mkMS pt (areas ch ++ [b])) nu' ∧
    own (mkMS pt (areas ch ++ [b])) ≡ₚ own ch ++ fr ∧ grows start (pt_frames (page_table ch)) s s' fr ∧
    (∀ v, (v ∉ area_vpns a) → nu' !! v = nu !! v) ∧ ∀ v, v ∈ area_vpns a → copied ms s mu (mkMS pt (areas ch ++ [b])) s' nu' v.
Proof.
  assert (Hok : area_ok mu a) by (by eapply Forall_forall; [apply Hs|]).
  assert (Hty := Hframed a Ha).
  destruct (push_run start s ch nu (blank a)) as (ps' & s1 & fr & E1 & Hl & Hb & _ & Hs1 & Hg1 & _);
    [done|apply Hok|apply Hok|done|done|done|].
  cbn [map_type blank taken] in *. rewrite Hty in *. cbn [taken] in *.
  change (area_vpns (blank a)) with (area_vpns a) in *.
  set (ch1 := pushed ch (blank a) ps' fr) in *. set (nu1 := pushed_map nu (blank a) ps') in *.
  assert (Hps1 : space_ok start s1 ms mu).
  { eapply space_ok_grows; [done|done|]. intros p Hp Hin.
    apply (Hdis p); apply elem_of_app; by left. }
  destruct (area_source s a Hs Ha) as (ps & Hps).
  destruct (pushed_own ch (blank a) ps' fr Hl) as [Eown Hdata]; [by cbn; rewrite Hty|done|].
  fold ch1 in Eown, Hdata. cbn [map_type blank] in Eown, Hdata. rewrite Hty in Eown, Hdata. cbn [taken] in *.
  pose proof (so_own _ _ _ _ Hs1) as Hnd. unfold own in Hnd. apply NoDup_app in Hnd as (_ & Hdis1 & _).
  assert (Hfresh : ∀ p, p ∈ ps' → ¬ in_use start (frames s) p).
  { intros p Hp. apply (gr_fresh _ _ _ _ _ Hg1), elem_of_app. by left. }
  assert (Hps' : Forall2 (λ v p, nu1 !! v = Some (pte_for (map_perm a) p) ∧
    in_use start (frames s1) p ∧ p ∈ ps') (area_vpns a) ps').
  { apply Forall2_same_length_lookup. split; [lia|]. intros j v p Hvj Hpj.
    assert (Hp : p ∈ ps') by (by eapply list_elem_of_lookup_2). split; [|split; [|done]].
    - by apply (pushed_map_new nu (blank a) ps' j).
    - apply (so_used _ _ _ _ Hs1). rewrite Eown. rewrite !elem_of_app. tauto. }
  destruct (copy_pages_run start (page_table ms) (page_table ch1) mu nu1 (map_perm a) ps'
    (area_vpns a) ps ps' s1) as (s2 & E2 & Hg2 & Hc); [apply Hps1|apply Hs1|apply Hok| |done| | |].
  { eapply Forall2_impl_in; [exact Hps|]. cbn. intros v p _ (Hv & Hmu & Hu & _). split; [done|].
    split; [done|]. split; [apply (gr_use _ _ _ _ _ Hg1); by right|]. intros Hin. by apply (Hfresh p). }
  { pose proof (gr_nodup _ _ _ _ _ Hg1) as Hnd. by apply NoDup_app in Hnd as (? & _ & _). }
  { intros p Hp. split; intros Hin; [|by apply (Hdis1 p Hin), Hdata].
    apply (Hfresh p Hp), (so_used _ _ _ _ Hs), elem_of_app. by left. }
  exists (with_pages (zip (area_vpns a) ps') (blank a)), (page_table ch1), s2, (ps' ++ fr), nu1.
  mstep. rewrite E1. rewrite range_vpns_run by apply Hok.
  change (vpns_of (vpn_range a)) with (area_vpns a). rewrite E2. split; [done|].
  split; [destruct (with_pages_same (zip (area_vpns a) ps') (blank a)) as (? & ? & ?); done|].
  split; [rewrite length_app; lia|].
  split; [unfold ch1, pushed; cbn [page_table pt_frames]; intros p; rewrite !elem_of_app; tauto|].
  split; [eapply (space_ok_grows _ ps' s1); [done|done|]; intros p Hp Hin; by apply (Hdis1 p Hp), Hdata|].
  split; [done|]. split; [|split].
  - rewrite <- (app_nil_r (ps' ++ fr)). eapply grows_trans; [done|done|].
    intros p Hp. right. apply elem_of_app. by left.
  - intros v Hv. by apply pushed_map_old.
  - intros v [j Hj]%list_elem_of_lookup.
    destruct (Forall2_lookup_l _ _ _ _ _ Hps Hj) as (p & Hpj & _ & Hmu & Hu & Hin).
    destruct (Forall2_lookup_l _ _ _ _ _ Hps' Hj) as (p' & Hpj' & Hnu & _ & Hin').
    exists (map_perm a), p, p'. split; [apply Hok|]. split; [done|]. split; [done|]. split; [done|]. split; [by apply Hdata|].
    rewrite (Forall2_lookup_lr _ _ _ _ _ _ Hc Hpj Hpj'). apply (gr_mem _ _ _ _ _ Hg1).
    + intros Hf. by apply (gr_fresh _ _ _ _ _ Hg1) in Hf as [_ ?].
    + intros Hf. apply (Hdis p); apply elem_of_app; [by right|by left].
Qed.
End one.

Lemma copy_areas_cons a l src ch s :
  copy_areas (a :: l) src ch s =
    match (new_area ← lift (from_another a); ms' ← push ch new_area None;
           vpns ← lift (range_vpns (vpn_range a)); copy_pages vpns src (page_table ms');; mret ms') s with
    | Ok (ch', s') => copy_areas l src ch' s'
    | Fail f => Fail f
    end.
Proof.
  cbn [copy_areas]. mstep. destruct (from_another a) as [b|]; [|done].
  destruct (push ch b None s) as [[ch' s1]|]; [|done].
  destruct (range_vpns (vpn_range a)) as [vpns|]; [|done].
  by destruct (copy_pages vpns src (page_table ch') s1) as [[[] s2]|].
Qed.

Lemma copy_areas_run l s ch nu :
  (∀ a, a ∈ l → a ∈ areas ms) → NoDup (l ≫= area_vpns) →
  space_ok start s ms mu → space_ok start s ch nu → (∀ p, p ∈ own ms → p ∉ own ch) →
  (∀ v, v ∈ l ≫= area_vpns → nu !! v = None) → (3 * length (l ≫= area_vpns) ≤ nfree (frames s))%nat →
  ∃ l' pt s' fr nu', copy_areas l (page_table ms) ch s = Ok (mkMS pt (areas ch ++ l'), s') ∧
    Forall2 same_shape l l' ∧ space_ok start s' (mkMS pt (areas ch ++ l')) nu' ∧
    own (mkMS pt (areas ch ++ l')) ≡ₚ own ch ++ fr ∧ (length fr ≤ 3 * length (l ≫= area_vpns))%nat ∧ grows start (pt_frames (page_table ch)) s s' fr ∧
    (∀ v, (v ∉ l ≫= area_vpns) → nu' !! v = nu !! v) ∧
    ∀ v, v ∈ l ≫= area_vpns → copied ms s mu (mkMS pt (areas ch ++ l')) s' nu' v.
Proof.
  revert s ch nu. induction l as [|a l IH]; intros s ch nu Hl Hnd Hs Hch Hdis Hfree Hn.
  { exists [], (page_table ch), s, [], nu. rewrite !app_nil_r. cbn [copy_areas]. destruct ch as [pt al].
    split; [done|]. split; [constructor|]. split; [done|]. split; [done|].
    split; [done|]. split; [apply grows_refl, Hs|]. split; [done|]. by intros v ?%not_elem_of_nil. }
  change ((a :: l) ≫= area_vpns) with (area_vpns a ++ (l ≫= area_vpns)) in *.
  rewrite length_app in Hn. apply NoDup_app in Hnd as (_ & Hdv & Hnd).
  assert (Ha : a ∈ areas ms) by (apply Hl, list_elem_of_here).
  destruct (copy_area_run s ch nu a Hs Hch Ha Hdis) as
    (b & pt1 & s1 & fr1 & nu1 & E1 & Hsh & Hb1 & Hpt & Hch1 & Hown1 & Hg1 & Hold1 & Hc1).
  { intros v Hv. apply Hfree, elem_of_app. by left. } { lia. }
  pose proof (gr_free _ _ _ _ _ Hg1) as Hf1.
  destruct (IH s1 (mkMS pt1 (areas ch ++ [b])) nu1) as
    (l' & pt & s' & fr & nu' & E & Hshs & Hch' & Hown & Hlen & Hg & Hold & Hc); try done.
  { intros c Hc. apply Hl. by apply list_elem_of_further. }
  { eapply space_ok_grows; [done|done|]. intros p Hp Hin. apply (Hdis p); apply elem_of_app; by left. }
  { intros p Hp. rewrite Hown1. intros [Hin|Hin]%elem_of_app; [by apply (Hdis p)|].
    apply (gr_fresh _ _ _ _ _ Hg1) in Hin as [_ Hu]. by apply Hu, (so_used _ _ _ _ Hs). }
  { intros v Hv. rewrite Hold1 by (intros Hin; by apply (Hdv v Hin)). apply Hfree, elem_of_app. by right. }
  { lia. }
  cbn [areas page_table] in *. rewrite <- app_assoc in E, Hch', Hown, Hc.
  cbn [app] in E, Hch', Hown, Hc.
  exists (b :: l'), pt, s', (fr1 ++ fr), nu'. rewrite copy_areas_cons.
  rewrite from_another_run by (eapply ao_range, Forall_forall; [apply Hs|done]).
  change (lift (Ok (blank a)) ≫= ?k) with (k (blank a)). cbn beta.
  split; [by rewrite E1|]. split; [by constructor|]. split; [done|].
  split; [by rewrite Hown, Hown1, app_assoc|]. split; [rewrite !length_app; lia|]. split; [by eapply grows_trans|]. split.
  { intros v [Hv1 Hv2]%not_elem_of_app. by rewrite Hold, Hold1. }
  intros v [Hv|Hv]%elem_of_app.
  - destruct (Hc1 v Hv) as (perm & p & p' & Hperm & Hmu & Hnu & Hpm & Hin & Hm).
    exists perm, p, p'. split; [done|]. split; [done|]. split; [by rewrite Hold by (intros ?; by apply (Hdv v Hv))|].
    destruct (data_used _ _ _ _ Hch1 p' Hin) as [Hu Hnp]. split; [done|]. split.
    + unfold data_of in *. cbn [areas] in *. rewrite bind_app in Hin |- *.
      cbn [mbind list_bind] in *. rewrite app_nil_r in Hin. rewrite !elem_of_app in *. tauto.
    + rewrite (gr_mem _ _ _ _ _ Hg p'); [done| |done].
      intros Hf. by apply (gr_fresh _ _ _ _ _ Hg) in Hf as [_ ?].
  - destruct (Hc v Hv) as (perm & p & p' & Hperm & Hmu & Hnu & Hpm & Hin & Hm).
    destruct (data_used _ _ _ _ Hs p Hpm) as [Hu _].
    exists perm, p, p'. split; [done|]. split; [done|]. split; [done|]. split; [done|]. split; [done|].
    rewrite Hm. apply (gr_mem _ _ _ _ _ Hg1).
    + intros Hf. by apply (gr_fresh _ _ _ _ _ Hg1) in Hf as [_ ?].
    + intros Hf. apply (Hdis p); apply elem_of_app; [by right|by left].
Qed.
End copy.

(** ** A whole address space *)

Definition tramp_vpn : Z := 2 ^ 27 - 1.

Lemma new_bare_run start s :
  kmem_wf start s → (0 < nfree (frames s))%nat →
  ∃ ms s' fr, new_bare s = Ok (ms, s') ∧ areas ms = [] ∧ space_ok start s' ms ∅ ∧
    own ms = fr ∧ length fr = 1%nat ∧ grows start [] s s' fr.
Proof.
  intros Hk Hn. destruct (PageTable_new_run start s Hk Hn) as (pt & s' & E & Hr & Hf & Hg).
  exists (mkMS pt []), s', [root_ppn pt]. unfold new_bare. mstep. rewrite E.
  assert (Hown : own (mkMS pt []) = [root_ppn pt]) by (unfold own, data_of; cbn; by rewrite Hf).
  split; [done|]. split; [done|]. split; [|done]. split; cbn [page_table areas]; [done|constructor|constructor|..].
  - rewrite Hown. apply NoDup_singleton.
  - rewrite Hown. intros p Hp. apply (gr_use _ _ _ _ _ Hg). by left.
Qed.

(** The trampoline is not an area. *)
Lemma map_trampoline_run start s ms mu strampoline :
  space_ok start s ms mu → areas ms = [] → mu !! tramp_vpn = None → (2 ≤ nfree (frames s))%nat →
  0 ≤ strampoline < 2 ^ 56 → strampoline mod 4096 = 0 →
  ∃ pt s' fr, map_trampoline strampoline ms s = Ok (mkMS pt [], s') ∧
    pt_frames pt = pt_frames (page_table ms) ++ fr ∧ (length fr ≤ 2)%nat ∧
    space_ok start s' (mkMS pt []) (<[tramp_vpn := pte_for (Z.lor PTE_R PTE_X) (strampoline / 4096)]> mu) ∧
    grows start (pt_frames (page_table ms)) s s' fr.
Proof.
  intros Hs Ha Hmu Hn Hst Hal. unfold map_trampoline, VirtPageNum_of_VirtAddr.
  change (page_offset (VirtAddr_from TRAMPOLINE) =? 0) with true.
  change (floor (VirtAddr_from TRAMPOLINE)) with tramp_vpn. mstep. cbn [assert_].
  unfold PhysPageNum_of_PhysAddr, PhysAddr_page_offset, PhysAddr_floor, PhysAddr_from, PAGE_SIZE.
  rewrite land_mask by done. change (2 ^ PA_WIDTH_SV39) with (2 ^ 56). rewrite (Z.mod_small _ (2 ^ 56)) by lia.
  change (0x1000 - 1) with (Z.ones 12). rewrite Z.land_ones by lia. change (2 ^ 12) with 4096.
  rewrite Hal. cbn [Z.eqb assert_]. mstep.
  pose proof (map_run start s (page_table ms) mu tramp_vpn (strampoline / 4096) (Z.lor PTE_R PTE_X)
    (so_rep _ _ _ _ Hs) Hn ltac:(unfold tramp_vpn; lia) ltac:(Z.to_euclidean_division_equations; lia)
    ltac:(vm_compute; split; congruence)) as Hm.
  rewrite Hmu in Hm. destruct Hm as (pt & s' & fr & E & Hpt & Hr & Hl & Hg).
  rewrite E, Ha. exists pt, s', fr. split; [done|]. split; [by rewrite Hpt|]. split; [done|]. split; [|done].
  assert (Hown : own (mkMS pt []) = own ms ++ fr).
  { unfold own, data_of. rewrite Ha. cbn. by rewrite Hpt, !app_nil_r. }
  split; cbn [page_table areas]; [done|constructor|constructor|..]; rewrite Hown.
  - apply NoDup_app. split; [apply Hs|]. split; [|apply Hg]. intros p Hp Hf.
    apply (gr_fresh _ _ _ _ _ Hg) in Hf as [_ Hu]. by apply Hu, (so_used _ _ _ _ Hs).
  - intros p [Hp|Hp]%elem_of_app; apply (gr_use _ _ _ _ _ Hg); [right; by apply (so_used _ _ _ _ Hs)|by left].
Qed.

(** The start of a user space: a page table with the trampoline. *)
Lemma user_start_run start s strampoline :
  kmem_wf start s → 0 ≤ strampoline < 2 ^ 56 → strampoline mod 4096 = 0 → (3 ≤ nfree (frames s))%nat →
  ∃ pt s' fr, match new_bare s with
      | Ok (ms, s0) => map_trampoline strampoline ms s0
      | Fail f => Fail f
      end = Ok (mkMS pt [], s') ∧ (length fr ≤ 3)%nat ∧
    space_ok start s' (mkMS pt []) {[tramp_vpn := pte_for (Z.lor PTE_R PTE_X) (strampoline / 4096)]} ∧
    pt_frames pt = fr ∧ grows start [] s s' fr.
Proof.
  intros Hk Hst Hal Hn.
  destruct (new_bare_run start s Hk) as (ms0 & s0 & fr0 & E0 & Ha0 & Hs0 & Hown0 & Hl0 & Hg0); [lia|].
  pose proof (gr_free _ _ _ _ _ Hg0) as Hf0. rewrite Hl0 in Hf0.
  destruct (map_trampoline_run start s0 ms0 ∅ strampoline Hs0 Ha0) as (pt1 & s1 & fr1 & E1 & Hpt1 & Hl1 & Hs1 & Hg1);
    [apply lookup_empty|lia|done|done|].
  assert (Hpt0 : pt_frames (page_table ms0) = fr0).
  { rewrite <- Hown0. unfold own, data_of. rewrite Ha0. cbn. by rewrite app_nil_r. }
  rewrite E0. exists pt1, s1, (fr0 ++ fr1). split; [done|]. split; [rewrite length_app; lia|].
  split; [done|]. split; [by rewrite Hpt1, Hpt0|].
  eapply grows_trans; [done|done|]. rewrite Hpt0. by right.
Qed.

Lemma from_existed_user_run start s ms mu strampoline :
  space_ok start s ms mu → (∀ a, a ∈ areas ms → map_type a = Framed) → (tramp_vpn ∉ pages ms) →
  0 ≤ strampoline < 2 ^ 56 → strampoline mod 4096 = 0 →
  (3 + 3 * length (pages ms) ≤ nfree (frames s))%nat →
  ∃ ch s' fr nu, from_existed_user strampoline ms s = Ok (ch, s') ∧
    Forall2 same_shape (areas ms) (areas ch) ∧ space_ok start s' ch nu ∧ own ch ≡ₚ fr ∧
    (length fr ≤ 3 + 3 * length (pages ms))%nat ∧ grows start [] s s' fr ∧
    (∀ v, (v ∉ pages ms) → nu !! v =
      if decide (v = tramp_vpn) then Some (pte_for (Z.lor PTE_R PTE_X) (strampoline / 4096)) else None) ∧
    ∀ v, v ∈ pages ms → copied ms s mu ch s' nu v.
Proof.
  intros Hs Hf Ht Hst Hal Hn. unfold from_existed_user. mstep.
  destruct (user_start_run start s strampoline) as (pt1 & s1 & fr1 & E1 & Hl1 & Hs1 & Hpt1 & Hg1);
    [apply (so_rep _ _ _ _ Hs)|done|done|lia|].
  pose proof (gr_free _ _ _ _ _ Hg1) as Hf1.
  assert (Hown1 : own (mkMS pt1 []) = fr1) by (unfold own, data_of; cbn; by rewrite Hpt1, app_nil_r).
  assert (Hs' : space_ok start s1 ms mu)
    by (eapply space_ok_grows; [done|done|intros ? _; apply not_elem_of_nil]).
  destruct (copy_areas_run start ms mu Hf (areas ms) s1 (mkMS pt1 []) _ ltac:(done) (so_pages _ _ _ _ Hs) Hs' Hs1)
    as (l' & pt & s' & fr & nu & E & Hsh & Hch & Hown & Hlen & Hg & Hold & Hc).
  { intros p Hp. rewrite Hown1. intros Hin. apply (gr_fresh _ _ _ _ _ Hg1) in Hin as [_ Hu].
    by apply Hu, (so_used _ _ _ _ Hs). }
  { intros v Hv. apply lookup_singleton_ne. intros <-. done. }
  { change (areas ms ≫= area_vpns) with (pages ms). lia. }
  destruct (new_bare s) as [[ms0 s0]|]; [|done]. rewrite E1, E. cbn [areas app] in *.
  exists (mkMS pt l'), s', (fr1 ++ fr), nu.
  split; [done|]. split; [done|]. split; [done|]. split; [by rewrite Hown, Hown1|].
  split; [change (areas ms ≫= area_vpns) with (pages ms) in Hlen; rewrite length_app; lia|]. split; [|split].
  - eapply grows_trans; [done|done|]. cbn [page_table]. rewrite Hpt1. by right.
  - intros v Hv. rewrite Hold by done. case_decide as Hd; [subst; apply lookup_singleton_eq|].
    by apply lookup_singleton_ne.
  - intros v Hv. destruct (Hc v Hv) as (perm & p & p' & Hperm & Hmu & Hnu & Hin & Hin' & Hm).
    exists perm, p, p'. split; [done|]. split; [done|]. split; [done|]. split; [done|]. split; [done|]. rewrite Hm.
    apply (gr_mem _ _ _ _ _ Hg1); [|apply not_elem_of_nil]. intros Hin0.
    apply (gr_fresh _ _ _ _ _ Hg1) in Hin0 as [_ Hu]. by apply Hu, (data_used start s ms mu).
Qed.

(** ** Loading data *)

(** The bytes of a list of frames. *)
Definition contents (s : kmem) (ps : list Z) : list Z := ps ≫= λ p, mem s !!! p.

Lemma contents_cons s p ps : contents s (p :: ps) = (mem s !!! p) ++ contents s ps.
Proof. done. Qed.

Lemma contents_ext s s' ps : (∀ p, p ∈ ps → mem s' !! p = mem s !! p) → contents s' ps = contents s ps.
Proof.
  induction ps as [|p ps IH]; intros Hm; [done|]. rewrite !contents_cons, IH.
  - by rewrite !lookup_total_alt, (Hm p) by apply list_elem_of_here.
  - intros q Hq. apply Hm. by apply list_elem_of_further.
Qed.

Lemma splice_0 {A} (new l : list A) : splice 0 new l = new ++ drop (length new) l.
Proof. done. Qed.

Section load.
Context (start : Z) (pt : PageTable) (mu : gmap Z Z) (perm : Z) (data : list Z).
Context (Hperm : perm_ok perm) (Hbytes : bytes data) (Hlen : Z.of_nat (length data) + 4096 < 2 ^ 64).

(** One turn of the loop of [copy_data], on the frame [p]. *)
Lemma copy_turn s off vpn p :
  represents start s pt mu → in_use start (frames s) p → (p ∉ pt_frames pt) →
  0 ≤ vpn < 2 ^ 27 → mu !! vpn = Some (pte_for perm p) → (off ≤ length data)%nat →
  let src := take 4096 (drop off data) in
  let s1 := mkKmem (<[p := splice 0 src (mem s !!! p)]> (mem s)) (frames s) in
  (∀ fuel, copy_loop (S fuel) pt data (Z.of_nat off) vpn s =
    if (length data <=? off + 4096)%nat then Ok (tt, s1)
    else copy_loop fuel pt data (Z.of_nat (off + 4096)) (vpn + 1) s1) ∧
  grows start [p] s s1 [] ∧ represents start s1 pt mu.
Proof.
  intros Hr Hu Hnp Hv Hmu Hoff src s1.
  destruct (used_page start s p) as (Hp & page & Epg & Hpl & Hpb); [apply Hr|done|].
  assert (Epg' : mem s !!! p = page) by (by apply lookup_total_correct).
  assert (Hsrc : (length src ≤ 4096)%nat) by (unfold src; rewrite length_take; lia).
  assert (Hg : grows start [p] s s1 []).
  { apply grows_write; [apply Hr|..]; rewrite Epg'.
    - rewrite length_splice; lia.
    - apply bytes_splice; [|done]. apply Forall_take, Forall_drop, Hbytes. }
  split; [|split; [done|]].
  2:{ eapply represents_grows; [done|done|]. intros q Hq. rewrite list_elem_of_singleton. by intros ->. }
  intros fuel. cbn [copy_loop]. unfold PAGE_SIZE, step. rewrite (u64_small (Z.of_nat off + 0x1000)) by lia.
  rewrite (u64_small (vpn + 1)) by lia. rewrite (proj2 (Z.leb_le (Z.of_nat off) _)) by lia.
  cbn [assert_]. mstep. rewrite (translate_mapped start s pt mu vpn (pte_for perm p)) by done.
  cbn [unwrap]. rewrite pte_for_ppn, (get_bytes_array_run _ _ _ Epg) by done. unfold set_bytes_array. mstep.
  assert (slice (Z.to_nat (Z.of_nat off))
    (Z.to_nat (Z.min (Z.of_nat (length data)) (Z.of_nat off + 0x1000) - Z.of_nat off)) data = src) as ->.
  { unfold slice, src. rewrite Nat2Z.id. destruct (Nat.le_gt_cases (length data) (off + 4096)).
    - rewrite !take_ge by (rewrite length_drop; lia). done.
    - f_equal. lia. }
  unfold s1. rewrite Epg'. replace (Z.of_nat (off + 4096)) with (Z.of_nat off + 0x1000) by lia.
  destruct (Nat.leb_spec (length data) (off + 4096)) as [Hle|Hgt].
  - by rewrite (proj2 (Z.leb_le _ _)) by lia.
  - by rewrite (proj2 (Z.leb_gt _ _)) by lia.
Qed.

Lemma copy_loop_run ps : ∀ fuel s off vpn,
  represents start s pt mu → ps ≠ [] → NoDup ps →
  (∀ p, p ∈ ps → in_use start (frames s) p ∧ p ∉ pt_frames pt) →
  (∀ k p, ps !! k = Some p → mu !! (vpn + Z.of_nat k) = Some (pte_for perm p)) →
  0 ≤ vpn → vpn + Z.of_nat (length ps) ≤ 2 ^ 27 →
  (off ≤ length data ≤ off + 4096 * length ps)%nat → (length data - off < fuel)%nat →
  ∃ s', copy_loop fuel pt data (Z.of_nat off) vpn s = Ok (tt, s') ∧ grows start ps s s' [] ∧
    contents s' ps = splice 0 (drop off data) (contents s ps).
Proof.
  induction ps as [|p ps IH]; intros fuel s off vpn Hr Hne Hnd Hu Hmu Hv1 Hv2 Hoff Hfuel; [done|].
  destruct fuel as [|fuel]; [lia|]. cbn [length] in *. apply NoDup_cons in Hnd as [Hp Hnd].
  destruct (Hu p) as [Hup Hnp]; [apply list_elem_of_here|].
  assert (Hmu0 : mu !! vpn = Some (pte_for perm p)) by (rewrite <- (Z.add_0_r vpn); by apply (Hmu O)).
  destruct (copy_turn s off vpn p Hr Hup Hnp ltac:(lia) Hmu0 ltac:(lia)) as (Eturn & Hg1 & Hr1).
  set (src := take 4096 (drop off data)) in *. set (s1 := mkKmem _ _) in *. rewrite Eturn.
  destruct (used_page start s p) as (_ & page & Epg & Hpl & _); [apply Hr|done|].
  assert (Epg' : mem s !!! p = page) by (by apply lookup_total_correct).
  assert (E1 : mem s1 !!! p = splice 0 src page) by (unfold s1; cbn; by rewrite lookup_total_insert_eq, Epg').
  assert (Hrest : contents s1 ps = contents s ps).
  { apply contents_ext. intros q Hq. unfold s1. cbn [mem]. rewrite lookup_insert_ne; [done|]. by intros ->. }
  rewrite !contents_cons, Epg', splice_0. destruct (Nat.leb_spec (length data) (off + 4096)) as [Hle|Hgt].
  - exists s1. split; [done|]. split.
    { eapply grows_weaken; [done|]. intros q ->%list_elem_of_singleton. apply list_elem_of_here. }
    rewrite contents_cons, E1, Hrest, splice_0. unfold src. rewrite !(take_ge (drop off data)) by (rewrite length_drop; lia).
    rewrite drop_app_le by (rewrite length_drop; lia). by rewrite app_assoc.
  - destruct (IH fuel s1 (off + 4096)%nat (vpn + 1)) as (s' & E & Hg & Hc); try done.
    { intros ->. simpl in Hoff. lia. }
    { intros q Hq. destruct (Hu q) as [? ?]; [by apply list_elem_of_further|]. done. }
    { intros k q Hk. replace (vpn + 1 + Z.of_nat k) with (vpn + Z.of_nat (S k)) by lia. by apply Hmu. }
    { lia. } { lia. } { lia. } { lia. }
    exists s'. rewrite contents_cons. split; [done|]. split.
    { eapply (grows_trans _ _ ps _ s1 _ [] []); [|done|intros q; left; by apply list_elem_of_further].
      eapply grows_weaken; [done|]. intros q ->%list_elem_of_singleton. apply list_elem_of_here. }
    assert (mem s' !!! p = splice 0 src page) as ->.
    { rewrite <- E1, !lookup_total_alt. by rewrite (gr_mem _ _ _ _ _ Hg) by (done || apply not_elem_of_nil). }
    rewrite Hc, Hrest, splice_0. unfold src. rewrite splice_0, length_take, length_drop, Nat.min_l by lia.
    rewrite (drop_ge page) by lia. rewrite app_nil_r. rewrite <- drop_drop, app_assoc, take_drop.
    f_equal. rewrite !length_drop, drop_app_ge by lia. f_equal. lia.
Qed.
End load.

Lemma contents_zero s ps :
  (∀ p, p ∈ ps → mem s !! p = Some zero_page) → contents s ps = replicate (4096 * length ps) 0.
Proof.
  induction ps as [|p ps IH]; intros Hz; [done|]. rewrite contents_cons, IH.
  - rewrite (lookup_total_correct _ _ zero_page) by apply Hz, list_elem_of_here.
    unfold zero_page. rewrite <- replicate_add. f_equal. cbn [length]. lia.
  - intros q Hq. apply Hz. by apply list_elem_of_further.
Qed.

Lemma vpns_lookup a k v : area_vpns a !! k = Some v → v = range_l (vpn_range a) + Z.of_nat k.
Proof. intros Hk. unfold area_vpns, vpns_of in Hk. by apply lookup_seqZ in Hk as [-> _]. Qed.

(** A framed area is mapped and filled with the data and zeros. *)
Lemma push_data_run start s ms mu a data :
  space_ok start s ms mu → range_ok (vpn_range a) → perm_ok (map_perm a) → data_frames a = ∅ →
  (∀ v, v ∈ area_vpns a → mu !! v = None) → (3 * length (area_vpns a) ≤ nfree (frames s))%nat →
  map_type a = Framed → area_vpns a ≠ [] → bytes data → (length data ≤ 4096 * length (area_vpns a))%nat →
  ∃ ps s' fr, push ms a (Some data) s = Ok (pushed ms a ps fr, s') ∧
    length ps = length (area_vpns a) ∧ (length fr ≤ 2 * length (area_vpns a))%nat ∧
    space_ok start s' (pushed ms a ps fr) (pushed_map mu a ps) ∧
    grows start (pt_frames (page_table ms)) s s' (ps ++ fr) ∧
    contents s' ps = data ++ replicate (4096 * length ps - length data) 0.
Proof.
  intros Hs Hr Hp He Hfree Hn Hty Hne Hby Hlen.
  destruct (area_map_run start s ms mu a Hs Hr Hp He Hfree Hn)
    as (ps & s1 & fr & E & Hl & Hb & Hid & Hps & Hs1 & Hg & Hz).
  destruct (pushed_own ms a ps fr Hl Hid He) as [Eown Hdata]. rewrite Hty in *. cbn [taken] in *.
  assert (Hnv : Z.of_nat (length (area_vpns a)) = range_r (vpn_range a) - range_l (vpn_range a))
    by (unfold area_vpns, vpns_of; rewrite length_seqZ; destruct Hr; lia).
  pose proof (so_own _ _ _ _ Hs1) as Hnd. unfold own in Hnd. apply NoDup_app in Hnd as (_ & Hdis & _).
  destruct (copy_loop_run start (page_table (pushed ms a ps fr)) (pushed_map mu a ps) (map_perm a) data
    Hp Hby ltac:(destruct Hr; lia) ps (S (length data)) s1 0%nat (range_l (vpn_range a)))
    as (s' & E' & Hg' & Hc); try lia.
  { apply Hs1. } { intros ->. by destruct (area_vpns a). }
  { pose proof (gr_nodup _ _ _ _ _ Hg) as Hnd. by apply NoDup_app in Hnd as (? & _ & _). }
  { intros p Hin. apply (data_used _ _ _ _ Hs1). by apply Hdata. }
  { intros k p Hk. destruct (lookup_lt_is_Some_2 (area_vpns a) k) as [v Hv].
    { apply lookup_lt_Some in Hk. lia. }
    rewrite <- (vpns_lookup a k v Hv). by apply (pushed_map_new mu a ps k). }
  { destruct Hr; lia. } { destruct Hr; lia. }
  exists ps, s', fr. unfold push, copy_data. mstep. rewrite E.
  rewrite (proj1 (with_pages_same _ a)), (proj1 (proj2 (with_pages_same _ a))), Hty.
  change (bool_decide (Framed = Framed)) with true. cbn [assert_]. change (Z.of_nat 0) with 0 in E'. rewrite E'.
  split; [done|]. split; [done|]. split; [done|]. split; [|split].
  - eapply space_ok_grows; [done|done|]. intros p Hpt Hin. by apply (Hdis p Hpt), Hdata.
  - rewrite <- (app_nil_r (ps ++ fr)). eapply grows_trans; [done|done|].
    intros p Hin. right. apply elem_of_app. by left.
  - rewrite Hc, contents_zero by done. rewrite drop_0, splice_0. f_equal. apply drop_replicate.
Qed.

(** ** Areas that are already mapped *)

Lemma map_vpns_overlap start vpns s pt mu a :
  represents start s pt mu → (3 * length vpns ≤ nfree (frames s))%nat → NoDup vpns →
  (∀ v, v ∈ vpns → 0 ≤ v < 2 ^ 27) → (∃ v, v ∈ vpns ∧ is_Some (mu !! v)) → perm_ok (map_perm a) →
  map_type a = Framed → (∀ v, v ∈ vpns → data_frames a !! v = None) →
  map_vpns vpns a pt s = Fail Panic.
Proof.
  revert s pt mu a. induction vpns as [|v vpns IH]; intros s pt mu a Hr Hn Hnd Hv Hex Hp Hty Hdf.
  { destruct Hex as (v & ?%not_elem_of_nil & _). done. }
  apply NoDup_cons in Hnd as [Hnv Hnd]. cbn [length] in Hn. cbn [map_vpns].
  assert (Hv0 : 0 ≤ v < 2 ^ 27) by (apply Hv, list_elem_of_here).
  assert (Hdf0 : data_frames a !! v = None) by (apply Hdf, list_elem_of_here).
  destruct (mu !! v) as [b|] eqn:Emu.
  - unfold map_one. rewrite Hty. destruct (frame_alloc_run start s) as (f & s1 & E & Hg & Hm); [apply Hr|lia|].
    mstep. rewrite E. cbn [unwrap]. rewrite Hdf0. cbn [drop_frame]. mstep.
    destruct (gr_fresh _ _ _ _ _ Hg f) as [Hf _]; [apply list_elem_of_here|].
    assert (Hf44 : 0 ≤ f < 2 ^ 44)
      by (destruct Hr as [Hwf _]; destruct (pt_kmem _ _ _ Hwf) as ((? & ? & _) & _); lia).
    pose proof (gr_free _ _ _ _ _ Hg) as Hfree. cbn [length] in Hfree.
    pose proof (map_run start s1 pt mu v f (map_perm a)
      ltac:(eapply represents_grows; [done|done|intros ? _; apply not_elem_of_nil])
      ltac:(lia) Hv0 Hf44 Hp) as Hmap.
    rewrite Emu in Hmap. unfold set_frames at 1. cbn [map_perm]. by rewrite Hmap.
  - destruct (map_one_framed start s pt mu a v Hr ltac:(lia) Hv0 Emu Hty Hp Hdf0)
      as (f & s1 & fr1 & E1 & Hr1 & Hl1 & Hg1 & _). pose proof (gr_free _ _ _ _ _ Hg1) as Hf1.
    cbn [length] in Hf1. mstep. rewrite E1. eapply IH; try done.
    + lia.
    + intros w Hw. apply Hv. by apply list_elem_of_further.
    + destruct Hex as (w & Hw & Hs). exists w. apply elem_of_cons in Hw as [->|Hw].
      * rewrite Emu in Hs. by destruct Hs.
      * split; [done|]. rewrite lookup_insert_ne; [done|]. by intros ->.
    + intros w Hw. cbn [data_frames set_frames]. rewrite lookup_insert_ne by (by intros ->).
      apply Hdf. by apply list_elem_of_further.
Qed.

(** The area of [insert_framed_area]. *)
Definition framed_area (start_va end_va perm : Z) : MapArea :=
  mkArea (mkRange (floor start_va) (ceil end_va)) ∅ Framed perm.

Lemma framed_area_range start_va end_va perm :
  0 ≤ start_va ≤ end_va → end_va ≤ 2 ^ 39 → range_ok (vpn_range (framed_area start_va end_va perm)).
Proof.
  intros H1 H2. unfold range_ok. cbn [vpn_range framed_area range_l range_r]. unfold floor, PAGE_SIZE.
  rewrite ceil_eq by lia. Z.to_euclidean_division_equations; lia.
Qed.

Lemma MapArea_new_run start_va end_va perm :
  0 ≤ start_va ≤ end_va → end_va ≤ 2 ^ 39 →
  MapArea_new start_va end_va Framed perm = Ok (framed_area start_va end_va perm).
Proof.
  intros H1 H2. destruct (framed_area_range start_va end_va perm H1 H2) as [Hr _].
  unfold MapArea_new, SimpleRange_new. cbn [vpn_range framed_area range_l range_r] in Hr.
  by rewrite (proj2 (Z.leb_le _ _)) by lia.
Qed.

Lemma framed_area_vpns start_va end_va perm v :
  v ∈ area_vpns (framed_area start_va end_va perm) ↔ floor start_va ≤ v < ceil end_va.
Proof. apply elem_of_vpns. Qed.

Lemma framed_area_length start_va end_va perm :
  length (area_vpns (framed_area start_va end_va perm)) = Z.to_nat (ceil end_va - floor start_va).
Proof. apply length_seqZ. Qed.

(** ** Areas that come and go *)

Lemma insert_run start s ms mu start_va end_va perm :
  space_ok start s ms mu → 0 ≤ start_va ≤ end_va → end_va ≤ 2 ^ 39 → perm_ok perm →
  (3 * Z.to_nat (ceil end_va - floor start_va) ≤ nfree (frames s))%nat →
  (∀ v, floor start_va ≤ v < ceil end_va → mu !! v = None) →
  let a := framed_area start_va end_va perm in
  ∃ ps s' fr, insert_framed_area ms start_va end_va perm s = Ok (pushed ms a ps fr, s') ∧
    length ps = length (area_vpns a) ∧ (length fr ≤ 2 * length (area_vpns a))%nat ∧
    space_ok start s' (pushed ms a ps fr) (pushed_map mu a ps) ∧
    grows start (pt_frames (page_table ms)) s s' (ps ++ fr) ∧
    ∀ p, p ∈ ps → mem s' !! p = Some zero_page.
Proof.
  intros Hs H1 H2 Hp Hn Hfree a.
  assert (Hr : range_ok (vpn_range a)) by (by apply framed_area_range).
  assert (Hvp : ∀ v, v ∈ area_vpns a ↔ floor start_va ≤ v < ceil end_va) by apply framed_area_vpns.
  destruct (push_run start s ms mu a Hs Hr Hp eq_refl) as (ps & s' & fr & E & Hl & Hb & _ & Hs' & Hg & Hz).
  { intros v Hv. by apply Hfree, Hvp. } { unfold a. by rewrite framed_area_length. }
  exists ps, s', fr. unfold insert_framed_area. mstep. rewrite MapArea_new_run by done. done.
Qed.

Lemma remove_found_run start s ms mu pre a post :
  space_ok start s ms mu → areas ms = pre ++ a :: post →
  (∀ b, b ∈ pre → range_l (vpn_range b) ≠ range_l (vpn_range a)) →
  ∃ s', remove_area_with_start_vpn ms (range_l (vpn_range a)) s =
      Ok (mkMS (page_table ms) (pre ++ post), s') ∧
    space_ok start s' (mkMS (page_table ms) (pre ++ post)) (removed (area_vpns a) mu) ∧
    shrinks start (pt_frames (page_table ms)) s s' (area_frames a).
Proof.
  intros Hs Ha Hpre. assert (Hi : areas ms !! length pre = Some a) by (rewrite Ha; by apply list_lookup_middle).
  destruct (remove_run start s ms mu Hs (length pre) a Hi) as (s' & E & Hs' & Hsh).
  rewrite Ha, delete_middle in E, Hs'. exists s'. split; [|done].
  unfold remove_area_with_start_vpn. rewrite (proj2 (list_find_Some _ _ (length pre) a)); [by rewrite Ha, delete_middle|].
  split; [done|]. split; [done|]. intros j b Hb Hj. rewrite Ha, lookup_app_l in Hb by done.
  apply Hpre. by eapply list_elem_of_lookup_2.
Qed.
