(* ===== verification/AddressSpace.v ===== *)
(** * Guarantees of address spaces

    The properties of the operations of [MemorySet], stated with the invariant of
    [MemorySpec], and runs of them as witnesses. *)

From S2P Require Import Prelude Bytes Address FrameAlloc PageTable MemorySet MemorySpec.

(** [insert_framed_area] maps exactly the pages of its range, each to a zeroed
    frame of its own that was free, with the given permissions; no other page of
    the address space, and no frame that was in use outside of its page table, is
    touched.  If a page of the range is already mapped it panics. *)
Theorem insert_framed_area_maps start s ms mu start_va end_va perm :
  space_ok start s ms mu → 0 ≤ start_va ≤ end_va → end_va ≤ 2 ^ 39 → perm_ok perm →
  (3 * Z.to_nat (ceil end_va - floor start_va) ≤ nfree (frames s))%nat →
  ((∀ v, floor start_va ≤ v < ceil end_va → mu !! v = None) →
   ∃ ms' s' mu', insert_framed_area ms start_va end_va perm s = Ok (ms', s') ∧
     space_ok start s' ms' mu' ∧
     (∀ v, floor start_va ≤ v < ceil end_va → ∃ p, mu' !! v = Some (pte_for perm p) ∧
        p ∈ data_of ms' ∧ ¬ in_use start (frames s) p ∧ mem s' !! p = Some zero_page) ∧
     (∀ v, ¬ (floor start_va ≤ v < ceil end_va) → mu' !! v = mu !! v) ∧
     ∀ p, in_use start (frames s) p → (p ∉ pt_frames (page_table ms)) →
       in_use start (frames s') p ∧ mem s' !! p = mem s !! p) ∧
  ((∃ v, floor start_va ≤ v < ceil end_va ∧ is_Some (mu !! v)) →
   insert_framed_area ms start_va end_va perm s = Fail Panic).
Proof.
  intros Hs H1 H2 Hp Hn. set (a := framed_area start_va end_va perm).
  assert (Hr : range_ok (vpn_range a)) by (by apply framed_area_range).
  assert (Hn' : (3 * length (area_vpns a) ≤ nfree (frames s))%nat) by (unfold a; by rewrite framed_area_length).
  assert (Enew : MapArea_new start_va end_va Framed perm = Ok a) by (by apply MapArea_new_run).
  assert (Hvp : ∀ v, v ∈ area_vpns a ↔ floor start_va ≤ v < ceil end_va) by apply framed_area_vpns.
  unfold insert_framed_area. mstep. rewrite Enew. split.
  - intros Hfree. destruct (push_run start s ms mu a Hs Hr Hp eq_refl) as
      (ps & s' & fr & E & Hl & _ & Hid & Hs' & Hg & Hz); [intros v Hv; by apply Hfree, Hvp|done|].
    destruct (pushed_own ms a ps fr Hl Hid eq_refl) as [_ Hdata]. cbn [map_type framed_area taken] in *.
    exists (pushed ms a ps fr), s', (pushed_map mu a ps). split; [done|]. split; [done|]. split; [|split].
    + intros v Hv. apply Hvp, list_elem_of_lookup in Hv as [j Hj].
      destruct (lookup_lt_is_Some_2 ps j) as [p Hpj]; [rewrite Hl; by eapply lookup_lt_Some|].
      assert (Hin : p ∈ ps) by (by eapply list_elem_of_lookup_2). exists p.
      split; [by apply (pushed_map_new mu a ps j)|]. split; [by apply Hdata|]. split; [|by apply Hz].
      apply (gr_fresh _ _ _ _ _ Hg), elem_of_app. by left.
    + intros v Hv. apply pushed_map_old. by rewrite Hvp.
    + intros p Hu Hpt. split; [apply (gr_use _ _ _ _ _ Hg); by right|].
      apply (gr_mem _ _ _ _ _ Hg); [|done]. intros Hin. by apply (gr_fresh _ _ _ _ _ Hg) in Hin as [_ ?].
  - intros (v & Hv & Hmu). unfold push, MapArea_map. rewrite range_vpns_run by done. mstep.
    change (vpns_of (vpn_range a)) with (area_vpns a).
    rewrite (map_vpns_overlap start (area_vpns a) s (page_table ms) mu a); try done.
    + apply Hs.
    + apply NoDup_seqZ.
    + intros w Hw%Hvp. destruct Hr. cbn [vpn_range a framed_area range_l range_r] in *. lia.
    + exists v. split; [by apply Hvp|done].
Qed.

(** [remove_area_with_start_vpn] removes the first area that starts there: its
    pages, and only they, are unmapped; its frames, and only they, are freed; no
    frame outside of the page table is written.  Without such an area it does
    nothing. *)
Theorem remove_area_frees start s ms mu start_vpn :
  space_ok start s ms mu →
  match list_find (λ a, range_l (vpn_range a) = start_vpn) (areas ms) with
  | Some (i, a) =>
      ∃ s', remove_area_with_start_vpn ms start_vpn s =
          Ok (mkMS (page_table ms) (delete i (areas ms)), s') ∧
        space_ok start s' (mkMS (page_table ms) (delete i (areas ms))) (removed (area_vpns a) mu) ∧
        (∀ p, in_use start (frames s') p ↔ (p ∉ area_frames a) ∧ in_use start (frames s) p) ∧
        ∀ p, (p ∉ pt_frames (page_table ms)) → mem s' !! p = mem s !! p
  | None => remove_area_with_start_vpn ms start_vpn s = Ok (ms, s)
  end.
Proof.
  intros Hs. unfold remove_area_with_start_vpn.
  destruct (list_find _ (areas ms)) as [[i a]|] eqn:E; [|done].
  apply list_find_Some in E as (Hi & _ & _).
  destruct (remove_run start s ms mu Hs i a Hi) as (s' & E' & Hs' & Hsh).
  exists s'. split; [exact E'|]. split; [done|]. split; apply Hsh.
Qed.

(** A copied address space ([from_existed_user], on [fork]) has the areas of
    the original, maps their pages with the same permissions to frames that were
    free before, and these have the contents of the original pages.  Apart from
    the trampoline nothing else is mapped.  Everything that was in use stays as
    it was, the original address space included, so that from then on neither
    can reach a frame of the other. *)
Theorem fork_copies_space start s ms mu strampoline :
  space_ok start s ms mu → (∀ a, a ∈ areas ms → map_type a = Framed) → (tramp_vpn ∉ pages ms) →
  0 ≤ strampoline < 2 ^ 56 → strampoline mod 4096 = 0 →
  (3 + 3 * length (pages ms) ≤ nfree (frames s))%nat →
  ∃ ch s' nu, from_existed_user strampoline ms s = Ok (ch, s') ∧
    space_ok start s' ch nu ∧ space_ok start s' ms mu ∧
    Forall2 same_shape (areas ms) (areas ch) ∧
    (∀ v, v ∈ pages ms → copied ms s mu ch s' nu v) ∧
    (∀ v, (v ∉ pages ms) → nu !! v =
      if decide (v = tramp_vpn) then Some (pte_for (Z.lor PTE_R PTE_X) (strampoline / 4096)) else None) ∧
    (∀ p, p ∈ own ch → ¬ in_use start (frames s) p) ∧
    (∀ p, in_use start (frames s) p → in_use start (frames s') p ∧ mem s' !! p = mem s !! p).
Proof.
  intros Hs Hf Ht Hst Hal Hn.
  destruct (from_existed_user_run start s ms mu strampoline Hs Hf Ht Hst Hal Hn)
    as (ch & s' & fr & nu & E & Hsh & Hch & Hown & _ & Hg & Hold & Hc).
  exists ch, s', nu. split; [done|]. split; [done|].
  split; [eapply space_ok_grows; [done|done|intros ? _; apply not_elem_of_nil]|].
  split; [done|]. split; [done|]. split; [done|]. split.
  - intros p. rewrite Hown. intros Hin. by apply (gr_fresh _ _ _ _ _ Hg).
  - intros p Hu. split; [apply (gr_use _ _ _ _ _ Hg); by right|].
    apply (gr_mem _ _ _ _ _ Hg); [|apply not_elem_of_nil].
    intros Hin. by apply (gr_fresh _ _ _ _ _ Hg) in Hin as [_ ?].
Qed.

(** [recycle_data_pages], which an exiting process calls, frees exactly the
    frames of the areas; the frames of the page table stay, and so do its
    entries, which now point to frames that are free. *)
Theorem recycle_frees_data start s ms mu :
  space_ok start s ms mu →
  ∃ s', recycle_data_pages ms s = Ok (mkMS (page_table ms) [], s') ∧
    (∀ p, in_use start (frames s') p ↔ (p ∉ data_of ms) ∧ in_use start (frames s) p) ∧
    mem s' = mem s ∧ represents start s' (page_table ms) mu.
Proof.
  intros Hs. destruct (recycle_run start s ms mu Hs) as (s' & E & Hs' & Hsh). exists s'.
  split; [done|]. split; [apply Hsh|]. split; [|apply Hs'].
  apply map_eq. intros p. apply (sh_mem _ _ _ _ _ Hsh), not_elem_of_nil.
Qed.

(** ** Programs *)

Definition seg_area (ph : ProgramHeader) : MapArea :=
  framed_area (ph_virtual_addr ph) (ph_virtual_addr ph + ph_mem_size ph) (elf_perm ph).
Definition seg_vpns (ph : ProgramHeader) : list Z := area_vpns (seg_area ph).
Definition seg_data (input : list Z) (ph : ProgramHeader) : list Z :=
  slice (Z.to_nat (ph_offset ph)) (Z.to_nat (ph_file_size ph)) input.

(** A segment that can be loaded: in the lower half of the address space, with
    its data in the file. *)
Record seg_ok (input : list Z) (ph : ProgramHeader) : Prop := {
  sg_va : 0 ≤ ph_virtual_addr ph;
  sg_mem : 0 < ph_mem_size ph;
  sg_end : ph_virtual_addr ph + ph_mem_size ph ≤ 2 ^ 38;
  sg_off : 0 ≤ ph_offset ph;
  sg_file : 0 ≤ ph_file_size ph ≤ ph_mem_size ph;
  sg_input : ph_offset ph + ph_file_size ph ≤ Z.of_nat (length input);
}.

Definition is_load (ph : ProgramHeader) : Prop := ph_load ph = Some true.
#[local] Instance is_load_dec ph : Decision (is_load ph).
Proof. unfold is_load. apply _. Defined.
Definition loadable (phs : list ProgramHeader) : list ProgramHeader := filter is_load phs.

(** The pages of a segment hold its data and zeros after it. *)
Definition loaded (input : list Z) (ms : MemorySet) (s : kmem) (mu : gmap Z Z) (ph : ProgramHeader) : Prop :=
  ∃ ps, length ps = length (seg_vpns ph) ∧ (∀ p, p ∈ ps → p ∈ data_of ms) ∧
    (∀ k v p, seg_vpns ph !! k = Some v → ps !! k = Some p → mu !! v = Some (pte_for (elf_perm ph) p)) ∧
    contents s ps = seg_data input ph ++ replicate (4096 * length ps - length (seg_data input ph)) 0.

Lemma elf_perm_ok ph : perm_ok (elf_perm ph).
Proof.
  unfold elf_perm. destruct (ph_read ph), (ph_write ph), (ph_execute ph);
    (split; vm_compute; congruence).
Qed.

Lemma seg_pages input ph :
  seg_ok input ph →
  range_ok (vpn_range (seg_area ph)) ∧ seg_vpns ph ≠ [] ∧
  (length (seg_data input ph) ≤ 4096 * length (seg_vpns ph))%nat ∧ ∀ v, v ∈ seg_vpns ph → 0 ≤ v < 2 ^ 26.
Proof.
  intros [Hva Hmem Hend Hoff Hfile Hin]. split; [apply framed_area_range; lia|].
  assert (Hlen := framed_area_length (ph_virtual_addr ph) (ph_virtual_addr ph + ph_mem_size ph) (elf_perm ph)).
  fold (seg_area ph) in Hlen. fold (seg_vpns ph) in Hlen.
  unfold floor, PAGE_SIZE in Hlen. rewrite ceil_eq in Hlen by lia.
  assert (Hd : length (seg_data input ph) = Z.to_nat (ph_file_size ph)) by (apply length_slice; lia).
  split; [|split].
  - intros E. rewrite E in Hlen. cbn [length] in Hlen. Z.to_euclidean_division_equations; lia.
  - rewrite Hlen, Hd. Z.to_euclidean_division_equations; lia.
  - intros v Hv. apply framed_area_vpns in Hv. unfold floor, PAGE_SIZE in Hv. rewrite ceil_eq in Hv by lia.
    Z.to_euclidean_division_equations; lia.
Qed.

Lemma seg_data_bytes input ph : bytes input → bytes (seg_data input ph).
Proof. intros. by apply bytes_slice. Qed.

(** Later changes to the page table and to free frames do not matter. *)
Lemma loaded_later input start ms s mu ms' s' mu' fr ph :
  loaded input ms s mu ph → space_ok start s ms mu → grows start (pt_frames (page_table ms)) s s' fr →
  (∀ p, p ∈ data_of ms → p ∈ data_of ms') → (∀ v, v ∈ seg_vpns ph → mu' !! v = mu !! v) →
  loaded input ms' s' mu' ph.
Proof.
  intros (ps & Hl & Hps & Hmap & Hc) Hs Hg Hd Hmu. exists ps. split; [done|]. split; [auto|]. split.
  - intros k v p Hk Hp. rewrite Hmu by (by eapply list_elem_of_lookup_2). by eapply Hmap.
  - rewrite <- Hc. apply contents_ext. intros p Hp. destruct (data_used _ _ _ _ Hs p (Hps p Hp)) as [Hu Hn].
    apply (gr_mem _ _ _ _ _ Hg); [|done]. intros Hf. by apply (gr_fresh _ _ _ _ _ Hg) in Hf as [_ ?].
Qed.

(** The pages after the last segment. *)
Fixpoint end_vpn (phs : list ProgramHeader) (v : Z) : Z :=
  match phs with
  | [] => v
  | ph :: phs =>
      end_vpn phs (if decide (is_load ph) then ceil (ph_virtual_addr ph + ph_mem_size ph) else v)
  end.

Section load.
Context (start : Z) (input : list Z) (Hinput : bytes input) (Hlong : Z.of_nat (length input) < 2 ^ 63).

Lemma load_one s ms mu ph :
  seg_ok input ph → space_ok start s ms mu → (∀ v, v ∈ seg_vpns ph → mu !! v = None) →
  (3 * length (seg_vpns ph) ≤ nfree (frames s))%nat →
  ∃ b pt s' fr mu', (a ← lift (MapArea_new (VirtAddr_from (ph_virtual_addr ph))
        (VirtAddr_from (ph_virtual_addr ph +ᵤ ph_mem_size ph)) Framed (elf_perm ph));
      data ← lift (subslice input (ph_offset ph) (ph_offset ph +ᵤ ph_file_size ph));
      ms ← push ms a (Some data); mret (ms, range_r (vpn_range a))) s =
        Ok ((mkMS pt (areas ms ++ [b]), ceil (ph_virtual_addr ph + ph_mem_size ph)), s') ∧
    same_shape (seg_area ph) b ∧ (length fr ≤ 3 * length (seg_vpns ph))%nat ∧
    (∀ p, p ∈ pt_frames pt → p ∈ pt_frames (page_table ms) ∨ p ∈ fr) ∧
    (∀ p, p ∈ own (mkMS pt (areas ms ++ [b])) → p ∈ own ms ∨ p ∈ fr) ∧
    space_ok start s' (mkMS pt (areas ms ++ [b])) mu' ∧ grows start (pt_frames (page_table ms)) s s' fr ∧
    (∀ v, (v ∉ seg_vpns ph) → mu' !! v = mu !! v) ∧ loaded input (mkMS pt (areas ms ++ [b])) s' mu' ph.
Proof.
  intros Hok Hs Hfree Hn. destruct (seg_pages input ph Hok) as (Hr & Hne & Hlen & _).
  destruct (push_data_run start s ms mu (seg_area ph) (seg_data input ph)) as
    (ps & s' & fr & E & Hl & Hb & Hs' & Hg & Hc); try done.
  { apply elf_perm_ok. } { by apply seg_data_bytes. }
  destruct (pushed_own ms (seg_area ph) ps fr Hl ltac:(done) eq_refl) as [Hown Hdata].
  destruct Hok as [Hva Hmem Hend Hoff Hfile Hin].
  exists (with_pages (zip (seg_vpns ph) ps) (seg_area ph)), (page_table (pushed ms (seg_area ph) ps fr)), s',
    (ps ++ fr), (pushed_map mu (seg_area ph) ps).
  assert (Enew : MapArea_new (VirtAddr_from (ph_virtual_addr ph))
    (VirtAddr_from (ph_virtual_addr ph +ᵤ ph_mem_size ph)) Framed (elf_perm ph) = Ok (seg_area ph)).
  { rewrite (u64_small (_ + _)) by lia. rewrite !VirtAddr_from_eq, !Z.mod_small by lia.
    apply MapArea_new_run; lia. }
  assert (Esub : subslice input (ph_offset ph) (ph_offset ph +ᵤ ph_file_size ph) = Ok (seg_data input ph)).
  { rewrite u64_small by lia. unfold subslice. rewrite !(proj2 (Z.leb_le _ _)) by lia. cbn [andb assert_].
    mstep. unfold seg_data. do 2 f_equal. lia. }
  mstep. rewrite Enew, Esub, E. split; [done|].
  split; [destruct (with_pages_same (zip (seg_vpns ph) ps) (seg_area ph)) as (? & ? & ?); done|].
  split; [rewrite length_app; unfold seg_vpns; lia|].
  split; [unfold pushed; cbn [page_table pt_frames]; intros p; rewrite !elem_of_app; tauto|].
  split; [intros p Hp; change (p ∈ own (pushed ms (seg_area ph) ps fr)) in Hp; rewrite Hown, elem_of_app in Hp; exact Hp|].
  split; [done|]. split; [done|]. split; [intros v Hv; by apply pushed_map_old|].
  exists ps. split; [done|]. split; [done|]. split; [|done].
  intros k v p Hk Hp. by apply (pushed_map_new mu (seg_area ph) ps k).
Qed.

Lemma load_segments_cons ph phs ms v s :
  is_load ph →
  load_segments input (Some ph :: phs) ms v s =
    match (a ← lift (MapArea_new (VirtAddr_from (ph_virtual_addr ph))
        (VirtAddr_from (ph_virtual_addr ph +ᵤ ph_mem_size ph)) Framed (elf_perm ph));
      data ← lift (subslice input (ph_offset ph) (ph_offset ph +ᵤ ph_file_size ph));
      ms ← push ms a (Some data); mret (ms, range_r (vpn_range a))) s with
    | Ok ((ms', v'), s') => load_segments input phs ms' v' s'
    | Fail f => Fail f
    end.
Proof.
  intros Hl. cbn [load_segments]. mstep. cbn [unwrap]. rewrite Hl. cbn [unwrap].
  destruct (MapArea_new _ _ _ _) as [a|]; [|done]. destruct (subslice _ _ _) as [data|]; [|done].
  by destruct (push ms a (Some data) s) as [[ms' s']|].
Qed.

Lemma load_segments_run phs : ∀ s ms mu v,
  Forall (λ ph, is_Some (ph_load ph)) phs → Forall (seg_ok input) (loadable phs) →
  NoDup (loadable phs ≫= seg_vpns) → space_ok start s ms mu →
  (∀ w, w ∈ loadable phs ≫= seg_vpns → mu !! w = None) →
  (3 * length (loadable phs ≫= seg_vpns) ≤ nfree (frames s))%nat →
  ∃ l pt s' fr mu', load_segments input (Some <$> phs) ms v s =
      Ok ((mkMS pt (areas ms ++ l), end_vpn phs v), s') ∧
    Forall2 same_shape (seg_area <$> loadable phs) l ∧ space_ok start s' (mkMS pt (areas ms ++ l)) mu' ∧
    (length fr ≤ 3 * length (loadable phs ≫= seg_vpns))%nat ∧
    (∀ p, p ∈ own (mkMS pt (areas ms ++ l)) → p ∈ own ms ∨ p ∈ fr) ∧
    grows start (pt_frames (page_table ms)) s s' fr ∧
    (∀ w, (w ∉ loadable phs ≫= seg_vpns) → mu' !! w = mu !! w) ∧
    Forall (loaded input (mkMS pt (areas ms ++ l)) s' mu') (loadable phs).
Proof.
  induction phs as [|ph phs IH]; intros s ms mu v Hty Hok Hnd Hs Hfree Hn.
  { exists [], (page_table ms), s, [], mu. rewrite !app_nil_r. cbn. destruct ms as [pt al].
    split; [done|]. split; [constructor|]. split; [done|]. split; [done|]. split; [by left|].
    split; [apply grows_refl, Hs|]. split; [done|constructor]. }
  apply Forall_cons in Hty as [[b Hb] Hty]. cbn [fmap list_fmap end_vpn].
  unfold loadable in *. rewrite filter_cons in *. destruct (decide (is_load ph)) as [Hld|Hld].
  2:{ cbn [load_segments]. mstep. cbn [unwrap]. rewrite Hb. cbn [unwrap].
      destruct b; [by destruct Hld|]. by apply IH. }
  change ((ph :: filter is_load phs) ≫= seg_vpns) with
    (seg_vpns ph ++ (filter is_load phs ≫= seg_vpns)) in *.
  apply Forall_cons in Hok as [Hok1 Hok]. apply NoDup_app in Hnd as (_ & Hdis & Hnd). rewrite length_app in Hn.
  destruct (load_one s ms mu ph Hok1 Hs) as
    (a & pt1 & s1 & fr1 & mu1 & E1 & Hsh & Hb1 & Hpt & Hown1 & Hs1 & Hg1 & Hold1 & Hl1).
  { intros w Hw. apply Hfree, elem_of_app. by left. } { lia. }
  pose proof (gr_free _ _ _ _ _ Hg1) as Hf1.
  destruct (IH s1 (mkMS pt1 (areas ms ++ [a])) mu1 (ceil (ph_virtual_addr ph + ph_mem_size ph)))
    as (l & pt & s' & fr & mu' & E & Hshs & Hs' & Hlf & Hown & Hg & Hold & Hlds); try done.
  { intros w Hw. rewrite Hold1 by (intros Hin; by apply (Hdis w Hin)). apply Hfree, elem_of_app. by right. }
  { lia. }
  cbn [areas page_table] in *. rewrite <- app_assoc in E, Hs', Hown, Hlds. cbn [app] in E, Hs', Hown, Hlds.
  exists (a :: l), pt, s', (fr1 ++ fr), mu'. rewrite load_segments_cons, E1 by done.
  split; [done|]. split; [by constructor|]. split; [done|]. split; [rewrite !length_app; lia|].
  split; [intros p [Hp|?]%Hown; [apply Hown1 in Hp as [?|?]|]; rewrite ?elem_of_app; tauto|].
  split; [by eapply grows_trans|]. split.
  { intros w [Hw1 Hw2]%not_elem_of_app. by rewrite Hold, Hold1. }
  constructor; [|done]. eapply loaded_later; [done|done|done| |].
  - intros p. unfold data_of. cbn [areas]. rewrite !bind_app. cbn [mbind list_bind]. rewrite !elem_of_app.
    set_unfold. tauto.
  - intros w Hw. apply Hold. intros Hin. by apply (Hdis w Hw).
Qed.
End load.

(** A program that can be loaded. *)
Record elf_ok (strampoline : Z) (elf : ElfFile) (phs : list ProgramHeader) : Prop := {
  ek_tramp : 0 ≤ strampoline < 2 ^ 56 ∧ strampoline mod 4096 = 0;
  ek_magic : elf_magic elf = [0x7f; 0x45; 0x4c; 0x46];
  ek_input : bytes (elf_input elf) ∧ Z.of_nat (length (elf_input elf)) < 2 ^ 63;
  ek_headers : program_headers elf = Some <$> phs ∧ Forall (λ ph, is_Some (ph_load ph)) phs;
  ek_segs : Forall (seg_ok (elf_input elf)) (loadable phs) ∧ NoDup (loadable phs ≫= seg_vpns);
}.

(** Where its stack is. *)
Definition stack_base (phs : list ProgramHeader) : Z := usize_of_VirtAddr (VirtAddr_of_VirtPageNum (end_vpn phs 0)) +ᵤ PAGE_SIZE.

(** Everything that is mapped: the segments and the trampoline. *)
Definition only_program (strampoline : Z) (phs : list ProgramHeader) (mu : gmap Z Z) : Prop :=
  ∀ v, (v ∉ loadable phs ≫= seg_vpns) → mu !! v =
    if decide (v = tramp_vpn) then Some (pte_for (Z.lor PTE_R PTE_X) (strampoline / 4096)) else None.

Lemma from_elf_run start s strampoline ElfFile_new elf_data elf phs :
  kmem_wf start s → ElfFile_new elf_data = Some elf → elf_ok strampoline elf phs →
  (3 + 3 * length (loadable phs ≫= seg_vpns) ≤ nfree (frames s))%nat →
  ∃ ms s' mu fr, from_elf strampoline ElfFile_new elf_data s = Ok ((ms, stack_base phs, elf_entry elf), s') ∧
    space_ok start s' ms mu ∧ Forall2 same_shape (seg_area <$> loadable phs) (areas ms) ∧
    Forall (loaded (elf_input elf) ms s' mu) (loadable phs) ∧ only_program strampoline phs mu ∧
    (∀ p, p ∈ own ms → p ∈ fr) ∧ (length fr ≤ 3 + 3 * length (loadable phs ≫= seg_vpns))%nat ∧ grows start [] s s' fr.
Proof.
  intros Hk Hnew [[Hst Hal] Hmagic [Hby Hlong] [Hphs Hty] [Hok Hnd]] Hn. unfold from_elf.
  destruct (user_start_run start s strampoline Hk Hst Hal) as (pt1 & s1 & fr1 & E1 & Hl1 & Hs1 & Hpt1 & Hg1); [lia|].
  pose proof (gr_free _ _ _ _ _ Hg1) as Hf1.
  destruct (load_segments_run start (elf_input elf) Hby Hlong phs s1 (mkMS pt1 []) _ 0 Hty Hok Hnd Hs1)
    as (l & pt & s' & fr & mu & E & Hsh & Hs' & Hlf & Hown & Hg & Hold & Hlds).
  { intros w Hw. apply lookup_singleton_ne. intros <-.
    apply list_elem_of_bind in Hw as (ph & Hw & Hph). rewrite Forall_forall in Hok.
    destruct (seg_pages _ ph (Hok ph Hph)) as (_ & _ & _ & Hr). specialize (Hr _ Hw).
    unfold tramp_vpn in Hr. lia. }
  { lia. }
  mstep. destruct (new_bare s) as [[ms0 s0]|]; [|done]. rewrite E1, Hnew. cbn [unwrap].
  rewrite Hmagic, bool_decide_true by done. cbn [assert_]. rewrite Hphs, E. cbn [areas app] in *.
  exists (mkMS pt l), s', mu, (fr1 ++ fr). split; [done|]. split; [done|]. split; [done|]. split; [done|]. split; [|split; [|split]].
  - intros v Hv. rewrite Hold by done. case_decide as Hd; [subst; apply lookup_singleton_eq|].
    by apply lookup_singleton_ne.
  - intros p Hp. apply Hown in Hp as [Hp|Hp]; apply elem_of_app; [left|by right].
    unfold own, data_of in Hp. cbn in Hp. by rewrite app_nil_r, Hpt1 in Hp.
  - rewrite length_app. lia.
  - eapply grows_trans; [done|done|]. cbn [page_table]. rewrite Hpt1. by right.
Qed.

(** [from_elf] loads a program.  When the loadable segments have disjoint
    pages and their data in the file, every page of a segment is mapped, with
    the permissions of its header and for the user, to a frame of its own; the
    pages of a segment hold, one after the other, the data of the segment in the
    file and then zeros.  Apart from the trampoline nothing else is mapped, and
    the first user stack starts after one unmapped page behind the last segment.
    The frames in use before are not touched. *)
Theorem elf_loaded start s strampoline ElfFile_new elf_data elf phs :
  kmem_wf start s → ElfFile_new elf_data = Some elf → elf_ok strampoline elf phs →
  (3 + 3 * length (loadable phs ≫= seg_vpns) ≤ nfree (frames s))%nat →
  ∃ ms s' mu, from_elf strampoline ElfFile_new elf_data s = Ok ((ms, stack_base phs, elf_entry elf), s') ∧
    space_ok start s' ms mu ∧ Forall2 same_shape (seg_area <$> loadable phs) (areas ms) ∧
    Forall (loaded (elf_input elf) ms s' mu) (loadable phs) ∧ only_program strampoline phs mu ∧
    ∀ p, in_use start (frames s) p → in_use start (frames s') p ∧ mem s' !! p = mem s !! p.
Proof.
  intros Hk Hnew Hok Hn. destruct (from_elf_run start s strampoline ElfFile_new elf_data elf phs Hk Hnew Hok Hn) as
    (ms & s' & mu & fr & E & Hs' & Hsh & Hl & Ho & _ & _ & Hg).
  exists ms, s', mu. do 5 (split; [done|]). intros p Hu. split; [apply (gr_use _ _ _ _ _ Hg); by right|].
  apply (gr_mem _ _ _ _ _ Hg); [|apply not_elem_of_nil]. intros Hf. by apply (gr_fresh _ _ _ _ _ Hg) in Hf as [_ ?].
Qed.

(** ** Examples *)

(** A user space with one area, of the pages 0x10 and 0x11. *)
Lemma demo_space :
  ∃ ms s mu a, space_ok 5 s ms mu ∧ areas ms = [a] ∧ map_type a = Framed ∧
    area_vpns a = [0x10; 0x11] ∧ range_l (vpn_range a) = 0x10 ∧ is_Some (mu !! 0x11) ∧ mu !! 0x20 = None ∧
    (31 ≤ nfree (frames s))%nat.
Proof.
  destruct (user_start_run 5 (ram 40) 0x80200000) as (pt & s & fr & _ & Hl & Hs & _ & Hg);
    [by apply ram_wf|lia|done|vm_compute; lia|].
  pose proof (gr_free _ _ _ _ _ Hg) as Hf. change (nfree (frames (ram 40))) with 40%nat in Hf.
  set (a := framed_area 0x10000 0x12000 14).
  assert (Hv : area_vpns a = [0x10; 0x11]) by reflexivity.
  destruct (push_run 5 s (mkMS pt []) _ a Hs) as (ps & s' & fr' & _ & Hlp & Hb & Hid & Hs' & Hg' & _);
    [apply framed_area_range; lia|by split|done| | |].
  { intros v Hin. apply lookup_singleton_ne. intros <-. rewrite Hv in Hin. unfold tramp_vpn in Hin.
    set_unfold in Hin. lia. }
  { rewrite Hv. cbn [length]. lia. }
  pose proof (gr_free _ _ _ _ _ Hg') as Hf'. rewrite Hv in *. cbn [length taken map_type a framed_area] in *.
  rewrite length_app in Hf'. exists (pushed (mkMS pt []) a ps fr'), s'.
  eexists. exists (with_pages (zip (area_vpns a) ps) a).
  destruct (with_pages_same (zip (area_vpns a) ps) a) as (Er & Et & _).
  split; [exact Hs'|]. split; [done|]. split; [done|]. split; [unfold area_vpns at 1; by rewrite Er|].
  split; [by rewrite Er|]. split; [|split; [|lia]].
  - destruct ps as [|p [|q [|? ?]]]; [discriminate Hlp|discriminate Hlp| |discriminate Hlp].
    exists (pte_for 14 q). by apply (pushed_map_new _ a [p; q] 1 0x11 q).
  - rewrite pushed_map_old by (rewrite Hv; set_unfold; lia). by apply lookup_singleton_ne.
Qed.

Lemma insert_framed_area_maps_witness :
  ∃ ms s, (∃ ms' s' p, insert_framed_area ms 0x20000 0x21000 14 s = Ok (ms', s') ∧ p ∈ data_of ms' ∧
      mem s' !! p = Some zero_page) ∧
    insert_framed_area ms 0x11000 0x12000 14 s = Fail Panic.
Proof.
  destruct demo_space as (ms & s & mu & a & Hs & _ & _ & _ & _ & H11 & H20 & Hn). exists ms, s. split.
  - destruct (insert_framed_area_maps 5 s ms mu 0x20000 0x21000 14 Hs) as [Hok _];
      [lia|lia|split; lia|change (Z.to_nat _) with 1%nat; lia|].
    destruct Hok as (ms' & s' & mu' & E & Hs' & Hpg & _).
    { change (floor 0x20000) with 0x20. change (ceil 0x21000) with 0x21. intros v Hv.
      assert (v = 0x20) as -> by lia. exact H20. }
    destruct (Hpg 0x20) as (p & _ & Hp & _ & Hz); [split; vm_compute; congruence|].
    exists ms', s', p. split; [exact E|]. split; [exact Hp|exact Hz].
  - destruct (insert_framed_area_maps 5 s ms mu 0x11000 0x12000 14 Hs) as [_ Hbad];
      [lia|lia|split; lia|change (Z.to_nat _) with 1%nat; lia|].
    apply Hbad. exists 0x11. split; [split; vm_compute; congruence|exact H11].
Defined.

Lemma remove_area_frees_witness :
  ∃ ms s s', remove_area_with_start_vpn ms 0x10 s = Ok (mkMS (page_table ms) [], s').
Proof.
  destruct demo_space as (ms & s & mu & a & Hs & Ha & _ & _ & Hl & _).
  pose proof (remove_area_frees 5 s ms mu 0x10 Hs) as Hrem. rewrite Ha in Hrem. cbn [list_find] in Hrem.
  rewrite decide_True in Hrem by exact Hl. destruct Hrem as (s' & E & _). exists ms, s, s'. exact E.
Defined.

Lemma fork_copies_space_witness :
  ∃ ms s ch s' p p', from_existed_user 0x80200000 ms s = Ok (ch, s') ∧ p ∈ data_of ms ∧ p' ∈ data_of ch ∧
    mem s' !! p' = mem s !! p.
Proof.
  destruct demo_space as (ms & s & mu & a & Hs & Ha & Hty & Hv & _ & _ & _ & Hn).
  assert (Hpg : pages ms = [0x10; 0x11]) by (unfold pages; rewrite Ha; cbn; rewrite Hv; reflexivity).
  destruct (fork_copies_space 5 s ms mu 0x80200000 Hs) as (ch & s' & nu & E & _ & _ & _ & Hc & _).
  - rewrite Ha. intros b ->%list_elem_of_singleton. exact Hty.
  - rewrite Hpg. unfold tramp_vpn. set_unfold. lia.
  - lia.
  - reflexivity.
  - rewrite Hpg. cbn [length]. lia.
  - destruct (Hc 0x10) as (perm & p & p' & _ & _ & _ & Hp & Hp' & Hm); [rewrite Hpg; apply list_elem_of_here|].
    exists ms, s, ch, s', p, p'. split; [exact E|]. split; [exact Hp|]. split; [exact Hp'|exact Hm].
Defined.

Lemma recycle_frees_data_witness :
  ∃ ms s s' p, recycle_data_pages ms s = Ok (mkMS (page_table ms) [], s') ∧
    in_use 5 (frames s) p ∧ ¬ in_use 5 (frames s') p.
Proof.
  destruct demo_space as (ms & s & mu & a & Hs & Ha & Hty & Hv & _).
  destruct (recycle_frees_data 5 s ms mu Hs) as (s' & E & Hu & _).
  destruct (area_source 5 ms mu) with (s := s) (a := a) as (ps & Hps).
  - rewrite Ha. intros b ->%list_elem_of_singleton. exact Hty.
  - exact Hs.
  - rewrite Ha. apply list_elem_of_here.
  - rewrite Hv in Hps. apply Forall2_cons_inv_l in Hps as (p & _ & (_ & _ & Hup & Hin) & _).
    exists ms, s, s', p. split; [exact E|]. split; [exact Hup|]. rewrite Hu. intros [Hn _]. by apply Hn.
Defined.

(** A program of one segment with five bytes of data, at address 0x10000. *)
Definition demo_header : ProgramHeader := mkPH (Some true) 0x10000 0x1800 4 5 true false true.
Definition demo_elf : ElfFile :=
  mkElf [0x7f; 0x45; 0x4c; 0x46] [0x7f; 0x45; 0x4c; 0x46; 1; 2; 3; 4; 5] 0x10000 [Some demo_header].

Lemma demo_elf_ok : elf_ok 0x80200000 demo_elf [demo_header].
Proof.
  split; [split; [lia|reflexivity]|reflexivity| | |].
  - split; [|done]. apply (bool_decide_eq_true_1 _). by vm_compute.
  - split; [reflexivity|]. repeat constructor. by eexists.
  - split; [|apply (bool_decide_eq_true_1 _); by vm_compute]. repeat constructor; cbn; lia.
Qed.

Lemma elf_loaded_witness :
  ∃ ms s' mu, from_elf 0x80200000 (λ _, Some demo_elf) [] (ram 40) = Ok ((ms, 0x13000, 0x10000), s') ∧
    loaded (elf_input demo_elf) ms s' mu demo_header.
Proof.
  destruct (elf_loaded 5 (ram 40) 0x80200000 (λ _, Some demo_elf) [] demo_elf [demo_header])
    as (ms & s' & mu & E & _ & _ & Hl & _); [by apply ram_wf|reflexivity|exact demo_elf_ok|vm_compute; lia|].
  exists ms, s', mu. split; [exact E|]. change (loadable [demo_header]) with [demo_header] in Hl.
  by apply Forall_cons in Hl as [Hl _].
Defined.
