(* ===== verification/KernelSpace.v ===== *)
(** * The address space of the kernel (os/src/mm/memory_set.rs: new_kernel, remap_test)

    The kernel maps its own sections, the memory behind it and the registers of the
    devices at their physical addresses.  These are more pages than there are frames:
    the proof counts the tables, of which there is one for 512 pages. *)

From S2P Require Import Prelude Bytes Address FrameAlloc PageTable MemorySet MemorySpec.

(** ** Mapping at the physical address *)

(** Tables for the pages from [l] to [l + n - 1], if [warm] without the first one. *)
Definition tables (warm : bool) (l : Z) (n : nat) : Z :=
  if decide (n = 0%nat) then 0 else 2 * ((l + Z.of_nat n - 1) / 512 - l / 512 + (if warm then 0 else 1)).

Lemma tables_S warm l n :
  0 ≤ l → tables warm l (S n) = (if warm then 0 else 2) + tables (bool_decide ((l + 1) / 512 = l / 512)) (l + 1) n.
Proof.
  intros Hl. unfold tables. rewrite decide_False by lia. destruct (decide (n = 0%nat)) as [->|Hn].
  - replace (l + Z.of_nat 1 - 1) with l by lia. destruct warm; lia.
  - replace (l + 1 + Z.of_nat n - 1) with (l + Z.of_nat (S n) - 1) by lia.
    case_bool_decide; destruct warm; Z.to_euclidean_division_equations; lia.
Qed.

Lemma tables_nonneg warm l n : 0 ≤ l → 0 ≤ tables warm l n.
Proof. intros Hl. unfold tables. case_decide; [done|]. destruct warm; Z.to_euclidean_division_equations; lia. Qed.

Lemma map_identical_run start n : ∀ l warm s pt mu a,
  represents start s pt mu → 0 ≤ l → l + Z.of_nat n ≤ 2 ^ 27 → map_type a = Identical → perm_ok (map_perm a) →
  (∀ v, l ≤ v < l + Z.of_nat n → mu !! v = None) →
  (warm = true → ∃ w, 0 ≤ w < 2 ^ 27 ∧ w / 512 = l / 512 ∧ is_Some (mu !! w)) →
  tables warm l n ≤ Z.of_nat (nfree (frames s)) →
  let vs := seqZ l (Z.of_nat n) in
  ∃ s' fr, map_vpns vs a pt s = Ok ((a, mkPT (root_ppn pt) (pt_frames pt ++ fr)), s') ∧
    represents start s' (mkPT (root_ppn pt) (pt_frames pt ++ fr)) (mapping (map_perm a) (zip vs vs) ∪ mu) ∧
    grows start (pt_frames pt) s s' fr ∧ Z.of_nat (length fr) ≤ tables warm l n.
Proof.
  induction n as [|n IH]; intros l warm s pt mu a Hr Hl Hn Hty Hp Hfree Hwarm Hc vs.
  { exists s, []. unfold vs. cbn [Z.of_nat seqZ zip_with map_vpns]. rewrite app_nil_r, mapping_nil.
    split; [by destruct pt|]. split; [by destruct pt|]. split; [apply grows_refl, Hr|done]. }
  rewrite tables_S in Hc |- * by done. pose proof (tables_nonneg (bool_decide ((l + 1) / 512 = l / 512)) (l + 1) n ltac:(lia)) as Hpos.
  assert (H1 : ∃ s1 fr1, map pt l l (map_perm a) s = Ok (mkPT (root_ppn pt) (pt_frames pt ++ fr1), s1) ∧
    represents start s1 (mkPT (root_ppn pt) (pt_frames pt ++ fr1)) (<[l := pte_for (map_perm a) l]> mu) ∧
    grows start (pt_frames pt) s s1 fr1 ∧ Z.of_nat (length fr1) ≤ if warm then 0 else 2).
  { destruct warm.
    - destruct (Hwarm eq_refl) as (w & Hw & Hblk & Hs).
      destruct (map_warm start s pt mu l l (map_perm a) w Hr) as (s1 & E & Hr1 & Hg); try done; [lia|lia|apply Hfree; lia|].
      exists s1, []. rewrite app_nil_r. destruct pt. by split_and!.
    - pose proof (map_run start s pt mu l l (map_perm a) Hr ltac:(lia) ltac:(lia) ltac:(lia) Hp) as Hm. rewrite Hfree in Hm by lia.
      destruct Hm as (pt' & s1 & fr1 & E & -> & Hr1 & Hlen & Hg). exists s1, fr1. split_and!; try done. lia. }
  destruct H1 as (s1 & fr1 & E1 & Hr1 & Hg1 & Hb1). pose proof (gr_free _ _ _ _ _ Hg1) as Hf1.
  destruct (IH (l + 1) (bool_decide ((l + 1) / 512 = l / 512)) s1 _ _ a Hr1) as (s2 & fr2 & E2 & Hr2 & Hg2 & Hb2); try done; [lia|lia| | |lia|].
  { intros v Hv. rewrite lookup_insert_ne by lia. apply Hfree. lia. }
  { intros Hd%bool_decide_eq_true. exists l. split; [lia|]. split; [lia|]. rewrite lookup_insert_eq. by eexists. }
  cbn [root_ppn pt_frames] in *. exists s2, (fr1 ++ fr2). unfold vs. rewrite (seqZ_cons l) by lia.
  replace (Z.pred (Z.of_nat (S n))) with (Z.of_nat n) by lia. replace (Z.succ l) with (l + 1) by lia.
  cbn [map_vpns zip_with]. split; [|split; [|split]].
  - unfold map_one. rewrite Hty. mstep. rewrite E1. cbn [root_ppn pt_frames]. rewrite E2, <- app_assoc. done.
  - rewrite mapping_cons by (intros Hin%fst_zip_subset; apply elem_of_seqZ in Hin; lia). by rewrite app_assoc.
  - eapply grows_trans; [exact Hg1|exact Hg2|]. intros p. by rewrite elem_of_app.
  - rewrite length_app. lia.
Qed.

(** ** Sections *)

(** A section from the first address to the second with its permissions; [range] is
    the pages of it. *)
Definition section : Type := Z * Z * Z.
Definition sec_first (c : section) : Z := c.1.1 / 4096.
Definition sec_end (c : section) : Z := c.1.2 / 4096.
Definition sec_perm (c : section) : Z := c.2.
Definition in_sec (c : section) (v : Z) : Prop := sec_first c ≤ v < sec_end c.
#[export] Instance in_sec_dec c v : Decision (in_sec c v).
Proof. unfold in_sec. apply _. Defined.

Definition sec_ok (c : section) : Prop :=
  0 ≤ c.1.1 ≤ c.1.2 ∧ c.1.2 < 2 ^ 39 ∧ c.1.1 mod 4096 = 0 ∧ c.1.2 mod 4096 = 0 ∧ perm_ok (sec_perm c).
Definition sec_tables (c : section) : Z := tables false (sec_first c) (Z.to_nat (sec_end c - sec_first c)).
Definition sec_area (c : section) : MapArea := mkArea (mkRange (sec_first c) (sec_end c)) ∅ Identical (sec_perm c).

Lemma identical_new c :
  sec_ok c → MapArea_new (VirtAddr_from c.1.1) (VirtAddr_from c.1.2) Identical (sec_perm c) = Ok (sec_area c) ∧ range_ok (vpn_range (sec_area c)).
Proof.
  intros (Hlo & Hhi & Ha & Hb & _). unfold MapArea_new, SimpleRange_new, sec_area, sec_first, sec_end, range_ok. rewrite !VirtAddr_from_eq.
  rewrite !(Z.mod_small _ (2 ^ 39)) by lia. rewrite ceil_eq by lia. unfold floor, PAGE_SIZE. cbn [vpn_range range_l range_r].
  replace ((c.1.2 + 4095) / 4096) with (c.1.2 / 4096) by (Z.to_euclidean_division_equations; lia).
  rewrite (proj2 (Z.leb_le _ _)) by (apply Z.div_le_mono; lia). split; [done|]. Z.to_euclidean_division_equations; lia.
Qed.

Lemma push_identical_run start s ms mu c :
  space_ok start s ms mu → sec_ok c → (∀ v, in_sec c v → mu !! v = None) → sec_tables c ≤ Z.of_nat (nfree (frames s)) →
  ∃ ms' s' mu', push_identical ms c.1.1 c.1.2 (sec_perm c) s = Ok (ms', s') ∧ space_ok start s' ms' mu' ∧
    (∀ v, mu' !! v = if decide (in_sec c v) then Some (pte_for (sec_perm c) v) else mu !! v) ∧
    Z.of_nat (nfree (frames s)) ≤ Z.of_nat (nfree (frames s')) + sec_tables c.
Proof.
  intros Hs Hc Hfree Hn. destruct (identical_new c Hc) as [Enew Hr]. pose proof Hr as [Hr1 Hr2]. cbn [vpn_range sec_area range_l range_r] in Hr1, Hr2.
  set (a := sec_area c) in *. assert (Hv : ∀ v, v ∈ area_vpns a ↔ in_sec c v) by (intros v; apply elem_of_vpns).
  assert (Hvs : area_vpns a = seqZ (sec_first c) (Z.of_nat (Z.to_nat (sec_end c - sec_first c)))) by (by rewrite Z2Nat.id by lia).
  destruct (map_identical_run start (Z.to_nat (sec_end c - sec_first c)) (sec_first c) false s (page_table ms) mu a) as (s' & fr & E & Hrep & Hg & Hb);
    try done; [apply Hs|lia|lia|apply Hc|intros v ?; apply Hfree; unfold in_sec; lia|].
  rewrite <- Hvs in E, Hrep. exists (pushed ms a (area_vpns a) fr), s', (pushed_map mu a (area_vpns a)).
  assert (Hwp : with_pages (zip (area_vpns a) (area_vpns a)) a = a) by done.
  split; [|split; [|split]].
  - unfold push_identical, push, MapArea_map. mstep. rewrite Enew. change (vpn_range a) with (vpn_range (sec_area c)) in *.
    rewrite range_vpns_run by done. change (vpns_of (vpn_range (sec_area c))) with (area_vpns a). rewrite E. unfold pushed. by rewrite Hwp.
  - apply (pushed_ok start s); try done; [apply Hc|]. intros v ?%Hv. by apply Hfree.
  - intros v. destruct (decide (in_sec c v)) as [Hin|Hin].
    + apply Hv in Hin. apply list_elem_of_lookup_1 in Hin as [i Hi]. by apply (pushed_map_new mu a (area_vpns a) i).
    + apply pushed_map_old. by rewrite Hv.
  - rewrite (gr_free _ _ _ _ _ Hg). unfold sec_tables. lia.
Qed.

(** Sections one after the other *)
Fixpoint push_all (cs : list section) (ms : MemorySet) : M kmem MemorySet :=
  match cs with
  | [] => mret ms
  | c :: cs => ms ← push_identical ms c.1.1 c.1.2 (sec_perm c); push_all cs ms
  end.

Fixpoint apart (cs : list section) : Prop :=
  match cs with
  | [] => True
  | c :: cs => Forall (λ d, ∀ v, in_sec c v → ¬ in_sec d v) cs ∧ apart cs
  end.
Fixpoint all_tables (cs : list section) : Z :=
  match cs with
  | [] => 0
  | c :: cs => sec_tables c + all_tables cs
  end.

(** The permissions of a page, those of the first section with it. *)
Definition page_perm (cs : list section) (v : Z) : option Z := sec_perm ∘ snd <$> list_find (λ c, in_sec c v) cs.

Lemma page_perm_cons c cs v : page_perm (c :: cs) v = if decide (in_sec c v) then Some (sec_perm c) else page_perm cs v.
Proof. unfold page_perm. cbn [list_find]. case_decide; [done|]. by destruct (list_find _ cs) as [[? ?]|]. Qed.

Lemma all_tables_nonneg cs : Forall sec_ok cs → 0 ≤ all_tables cs.
Proof.
  induction 1 as [|c cs (H0 & _) _ IH]; cbn [all_tables]; [done|]. pose proof (tables_nonneg false (sec_first c) (Z.to_nat (sec_end c - sec_first c))).
  unfold sec_tables, sec_first in *. pose proof (Z.div_pos c.1.1 4096). lia.
Qed.

Lemma push_all_run start cs : ∀ s ms mu,
  space_ok start s ms mu → Forall sec_ok cs → apart cs → (∀ c v, c ∈ cs → in_sec c v → mu !! v = None) →
  all_tables cs ≤ Z.of_nat (nfree (frames s)) →
  ∃ ms' s' mu', push_all cs ms s = Ok (ms', s') ∧ space_ok start s' ms' mu' ∧
    ∀ v, mu' !! v = match page_perm cs v with Some perm => Some (pte_for perm v) | None => mu !! v end.
Proof.
  induction cs as [|c cs IH]; intros s ms mu Hs Hok Hap Hfree Hn; cbn [push_all]; [by exists ms, s, mu|].
  apply Forall_cons in Hok as [Hc Hok]. destruct Hap as [Hc' Hap]. cbn [all_tables] in Hn. pose proof (all_tables_nonneg cs Hok) as Hpos.
  destruct (push_identical_run start s ms mu c Hs Hc) as (ms1 & s1 & mu1 & E1 & Hs1 & Hm1 & Hf1); [intros v; apply Hfree, list_elem_of_here|lia|].
  destruct (IH s1 ms1 mu1 Hs1 Hok Hap) as (ms2 & s2 & mu2 & E2 & Hs2 & Hm2); [|lia|].
  { intros d v Hd Hv. rewrite Hm1, decide_False; [eapply Hfree; [by apply list_elem_of_further|done]|].
    rewrite Forall_forall in Hc'. intros Hin. by apply (Hc' d Hd v). }
  exists ms2, s2, mu2. mstep. rewrite E1. split; [exact E2|]. split; [done|]. intros v. rewrite Hm2, page_perm_cons, Hm1.
  destruct (decide (in_sec c v)) as [Hin|Hin]; [|done].
  unfold page_perm. destruct (list_find (λ d, in_sec d v) cs) as [[i d]|] eqn:Ef; [|done]. exfalso.
  apply list_find_Some in Ef as (Hd%list_elem_of_lookup_2 & Hdv & _). rewrite Forall_forall in Hc'. by apply (Hc' d Hd v).
Qed.

(** ** The kernel *)

Section kernel.
Context (strampoline stext etext srodata erodata sdata edata sbss_with_stack ebss ekernel : Z).

(** What the linker script (os/src/linker.ld) says of its symbols. *)
Record layout : Prop := {
  ly_base : stext = 0x80200000;
  ly_order : stext < etext ∧ srodata < erodata ∧ sdata < edata ∧ sbss_with_stack ≤ ebss ∧ ekernel ≤ MEMORY_END;
  ly_next : srodata = etext ∧ sdata = erodata ∧ sbss_with_stack = edata ∧ ekernel = ebss;
  ly_aligned : etext mod 4096 = 0 ∧ erodata mod 4096 = 0 ∧ edata mod 4096 = 0 ∧ ebss mod 4096 = 0;
  ly_trampoline : stext ≤ strampoline < etext ∧ strampoline mod 4096 = 0;
}.

Definition RX : Z := Z.lor MapPermission_R MapPermission_X.
Definition RW : Z := Z.lor MapPermission_R MapPermission_W.

Definition kernel_sections : list section :=
  [(stext, etext, RX); (srodata, erodata, MapPermission_R); (sdata, edata, RW); (sbss_with_stack, ebss, RW);
   (ekernel, MEMORY_END, RW); (0x00100000, 0x00102000, RW); (0x10001000, 0x10002000, RW)].

(** The mapping of the kernel: identical but for the trampoline. *)
Definition kernel_pte (v : Z) : option Z :=
  if decide (v = tramp_vpn) then Some (pte_for RX (strampoline / 4096))
  else (λ perm, pte_for perm v) <$> page_perm kernel_sections v.

Context (Hly : layout).

(** The sections in terms of four borders. *)
Lemma kernel_sections_eq :
  kernel_sections = [(0x80200000, etext, RX); (etext, erodata, MapPermission_R); (erodata, edata, RW); (edata, ebss, RW);
    (ebss, 0x88000000, RW); (0x00100000, 0x00102000, RW); (0x10001000, 0x10002000, RW)] ∧
  (0x80200000 < etext ∧ etext < erodata ∧ erodata < edata ∧ edata ≤ ebss ∧ ebss ≤ 0x88000000) ∧
  (etext mod 4096 = 0 ∧ erodata mod 4096 = 0 ∧ edata mod 4096 = 0 ∧ ebss mod 4096 = 0).
Proof. unfold kernel_sections. destruct Hly as [-> Ho (-> & -> & -> & ->) Ha _]. done. Qed.

Lemma kernel_sections_ok : Forall sec_ok kernel_sections.
Proof.
  destruct kernel_sections_eq as (-> & (H1 & H2 & H3 & H4 & H5) & (A1 & A2 & A3 & A4)).
  assert (Hp : perm_ok RX ∧ perm_ok RW ∧ perm_ok MapPermission_R) by (split_and!; vm_compute; split; congruence).
  destruct Hp as (Hp1 & Hp2 & Hp3).
  repeat apply Forall_cons_2; try apply Forall_nil_2; unfold sec_ok, sec_perm; cbn [fst snd]; split_and!; try done; lia.
Qed.

Lemma kernel_sections_apart : apart kernel_sections.
Proof.
  destruct kernel_sections_eq as (-> & (H1 & H2 & H3 & H4 & H5) & _). cbn [apart]. split_and!; try done;
    repeat apply Forall_cons_2; try apply Forall_nil_2; unfold in_sec, sec_first, sec_end; cbn [fst snd];
    intros v Hv Hv'; Z.to_euclidean_division_equations; lia.
Qed.

Lemma kernel_tables : all_tables kernel_sections ≤ 140.
Proof.
  destruct kernel_sections_eq as (-> & (H1 & H2 & H3 & H4 & H5) & (A1 & A2 & A3 & A4)).
  cbn [all_tables]. unfold sec_tables, sec_first, sec_end. cbn [fst snd].
  assert (Ht : ∀ a b, a ≤ b → a mod 4096 = 0 → b mod 4096 = 0 → 0 ≤ a →
    tables false (a / 4096) (Z.to_nat (b / 4096 - a / 4096)) ≤ 2 * (b / 4096 / 512 - a / 4096 / 512 + 1)).
  { intros a b Hab Ha Hb H0. unfold tables. assert (a / 4096 ≤ b / 4096) by (apply Z.div_le_mono; lia). case_decide.
    - assert (a / 4096 / 512 ≤ b / 4096 / 512) by (apply Z.div_le_mono; lia). lia.
    - rewrite Z2Nat.id by lia. assert ((a / 4096 + (b / 4096 - a / 4096) - 1) / 512 ≤ b / 4096 / 512) by (apply Z.div_le_mono; lia). lia. }
  pose proof (Ht 0x80200000 etext ltac:(lia) eq_refl A1 ltac:(lia)). pose proof (Ht etext erodata ltac:(lia) A1 A2 ltac:(lia)).
  pose proof (Ht erodata edata ltac:(lia) A2 A3 ltac:(lia)). pose proof (Ht edata ebss ltac:(lia) A3 A4 ltac:(lia)).
  pose proof (Ht ebss 0x88000000 ltac:(lia) A4 eq_refl ltac:(lia)).
  change (tables false (0x00100000 / 4096) _) with 2. change (tables false (0x10001000 / 4096) _) with 2.
  change (0x80200000 / 4096 / 512) with 1025 in *. change (0x88000000 / 4096 / 512) with 1088 in *. lia.
Qed.

Lemma perm_flags perm v : perm_ok perm → 0 ≤ v < 2 ^ 44 → PTE_flags (pte_for perm v) = Z.lor perm PTE_V.
Proof. intros Hp Hv. apply PTE_flags_new; [done|]. by apply lor_V. Qed.

Lemma page_perm_In cs v perm : page_perm cs v = Some perm → ∃ c, c ∈ cs ∧ in_sec c v ∧ sec_perm c = perm.
Proof.
  unfold page_perm. destruct (list_find _ cs) as [[i c]|] eqn:E; [|done]. intros [= <-].
  apply list_find_Some in E as (Hc%list_elem_of_lookup_2 & Hv & _). by exists c.
Qed.

(** No page of the kernel can be written and executed, and none is for user mode. *)
Lemma kernel_pte_safe v b :
  kernel_pte v = Some b →
  ¬ (PTE_writable b = true ∧ PTE_executable b = true) ∧ Z.land (PTE_flags b) PTE_U = 0 ∧ PTE_readable b = true.
Proof.
  assert (Hsafe : ∀ perm p, perm = RX ∨ perm = MapPermission_R ∨ perm = RW → 0 ≤ p < 2 ^ 44 →
    ¬ (PTE_writable (pte_for perm p) = true ∧ PTE_executable (pte_for perm p) = true) ∧
    Z.land (PTE_flags (pte_for perm p)) PTE_U = 0 ∧ PTE_readable (pte_for perm p) = true).
  { intros perm p Hperm Hp. assert (perm_ok perm) by (destruct Hperm as [->|[->| ->]]; vm_compute; split; congruence).
    unfold PTE_writable, PTE_executable, PTE_readable. rewrite perm_flags by done.
    destruct Hperm as [->|[->| ->]]; vm_compute; (split; [intros []; discriminate|done]). }
  unfold kernel_pte. case_decide as Hv.
  - intros [= <-]. apply Hsafe; [by left|]. destruct Hly as [E (H1 & H2 & H3 & H4 & H5) (E1 & E2 & E3 & E4) _ [Ht _]].
    unfold MEMORY_END in *. Z.to_euclidean_division_equations; lia.
  - destruct (page_perm kernel_sections v) as [perm|] eqn:E; [|done]. intros [= <-].
    apply page_perm_In in E as (c & Hc & Hin & <-). pose proof kernel_sections_ok as Hok. rewrite Forall_forall in Hok.
    destruct (Hok c Hc) as (Hlo & Hhi & _). apply Hsafe.
    + unfold kernel_sections in Hc. rewrite !elem_of_cons in Hc. destruct Hc as [->|[->|[->|[->|[->|[->|[->|[]%not_elem_of_nil]]]]]]]; cbn; tauto.
    + unfold in_sec, sec_first, sec_end in Hin. Z.to_euclidean_division_equations; lia.
Qed.

(** The middle of the three sections that [remap_test] looks at *)
Lemma mid_page a b : 0 ≤ a < b → b < 2 ^ 39 → a mod 4096 = 0 → b mod 4096 = 0 →
  let v := floor (VirtAddr_from ((a +ᵤ b) / 2)) in a / 4096 ≤ v < b / 4096 ∧ 0 ≤ v < 2 ^ 27.
Proof.
  intros Ha Hb Hma Hmb. cbv zeta. rewrite u64_small, VirtAddr_from_eq, (Z.mod_small _ (2 ^ 39)) by (Z.to_euclidean_division_equations; lia).
  unfold floor, PAGE_SIZE. Z.to_euclidean_division_equations; lia.
Qed.

Lemma kernel_pte_sec c v :
  c ∈ kernel_sections → in_sec c v → kernel_pte v = Some (pte_for (sec_perm c) v) ∧ v ≠ tramp_vpn.
Proof.
  intros Hc Hv. pose proof kernel_sections_ok as Hok. rewrite Forall_forall in Hok. destruct kernel_sections_eq as (Hks & Ho & _).
  assert (Hne : v ≠ tramp_vpn).
  { rewrite Hks in Hc. unfold tramp_vpn, in_sec, sec_first, sec_end in *. rewrite !elem_of_cons in Hc.
    destruct Hc as [->|[->|[->|[->|[->|[->|[->|[]%not_elem_of_nil]]]]]]]; cbn [fst snd] in Hv; Z.to_euclidean_division_equations; lia. }
  split; [|done]. unfold kernel_pte. rewrite decide_False by done. pose proof kernel_sections_apart as Hap. clear Hks Hok. revert Hap Hc.
  generalize kernel_sections as cs. induction cs as [|d cs IH]; [by intros _ ?%not_elem_of_nil|]. intros [Hd Hap] Hc.
  rewrite page_perm_cons. apply elem_of_cons in Hc as [<-|Hc]; [by rewrite decide_True|].
  rewrite decide_False; [by apply IH|]. rewrite Forall_forall in Hd. intros Hin. by apply (Hd c Hc v).
Qed.

Lemma remap_test_passes start s ms mu :
  represents start s (page_table ms) mu → (∀ v, 0 ≤ v < 2 ^ 27 → mu !! v = kernel_pte v) →
  remap_test stext etext srodata erodata sdata edata ms s = Ok (tt, s).
Proof.
  intros Hr Hm. pose proof Hly as [E0 (H1 & H2 & H3 & H4 & H5) (E1 & E2 & E3 & E4) (A1 & A2 & A3 & A4) _]. unfold MEMORY_END in *.
  assert (Htr : ∀ a b perm, (a, b, perm) ∈ kernel_sections → 0 ≤ a < b → b < 2 ^ 39 → a mod 4096 = 0 → b mod 4096 = 0 → perm_ok perm →
    ∃ pte, translate (page_table ms) (floor (VirtAddr_from ((a +ᵤ b) / 2))) s = Ok (Some pte, s) ∧ PTE_flags pte = Z.lor perm PTE_V).
  { intros a b perm Hc Hab Hb Hma Hmb Hp. destruct (mid_page a b Hab Hb Hma Hmb) as [Hin Hrange]. eexists. split.
    - eapply translate_mapped; [exact Hr|exact Hrange|]. rewrite Hm by done. apply (kernel_pte_sec (a, b, perm)); [done|exact Hin].
    - apply perm_flags; [done|lia]. }
  assert (Hp : perm_ok RX ∧ perm_ok RW ∧ perm_ok MapPermission_R) by (split_and!; vm_compute; split; congruence).
  destruct Hp as (Hp1 & Hp2 & Hp3).
  destruct (Htr stext etext RX) as (p1 & T1 & F1); [apply list_elem_of_here|lia|lia|by rewrite E0|done|done|].
  destruct (Htr srodata erodata MapPermission_R) as (p2 & T2 & F2); [do 1 apply list_elem_of_further; apply list_elem_of_here|lia|lia|by rewrite E1|done|done|].
  destruct (Htr sdata edata RW) as (p3 & T3 & F3); [do 2 apply list_elem_of_further; apply list_elem_of_here|lia|lia|by rewrite E2|done|done|].
  unfold remap_test. mstep. rewrite T1. cbn [unwrap]. unfold PTE_writable, PTE_executable. rewrite F1.
  change (Z.land (Z.lor RX PTE_V) PTE_W =? 0) with true. cbn [negb assert_]. rewrite T2. cbn [unwrap]. rewrite F2.
  change (Z.land (Z.lor MapPermission_R PTE_V) PTE_W =? 0) with true. cbn [negb assert_]. rewrite T3. cbn [unwrap]. rewrite F3.
  change (Z.land (Z.lor RW PTE_V) PTE_X =? 0) with true. done.
Qed.

Lemma new_kernel_eq : new_kernel strampoline stext etext srodata erodata sdata edata sbss_with_stack ebss ekernel =
  (ms ← new_bare; ms ← map_trampoline strampoline ms; push_all kernel_sections ms).
Proof. reflexivity. Qed.

(** C6: the address space of the kernel.  With the layout that the linker script gives,
    [new_kernel] maps the text for reading and execution, constants for reading, and data,
    the rest of the memory and the device registers for reading and writing, every page
    at its physical address, and the trampoline at the top; nothing else is mapped.  No
    page can be both written and executed, and none is accessible to user mode.  The
    tables take no more than 143 frames, whatever the size of the memory.  The kernel's own test
    [remap_test] passes. *)
Theorem kernel_space_spec start s :
  kmem_wf start s → (143 ≤ nfree (frames s))%nat →
  ∃ ms s' mu, new_kernel strampoline stext etext srodata erodata sdata edata sbss_with_stack ebss ekernel s = Ok (ms, s') ∧
    space_ok start s' ms mu ∧ (∀ v, 0 ≤ v < 2 ^ 27 → mu !! v = kernel_pte v) ∧
    (∀ v b, mu !! v = Some b → ¬ (PTE_writable b = true ∧ PTE_executable b = true) ∧ Z.land (PTE_flags b) PTE_U = 0) ∧
    remap_test stext etext srodata erodata sdata edata ms s' = Ok (tt, s').
Proof.
  intros Hk Hn. rewrite new_kernel_eq.
  pose proof Hly as [E0 (H1 & H2 & H3 & H4 & H5) (E1 & E2 & E3 & E4) _ [Ht1 Ht2]]. unfold MEMORY_END in *.
  destruct (user_start_run start s strampoline Hk) as (pt & s0 & fr & E & Hl & Hs & Hpt & Hg); [lia|done|lia|].
  pose proof (gr_free _ _ _ _ _ Hg) as Hf. pose proof kernel_tables as Htb.
  destruct (push_all_run start kernel_sections s0 (mkMS pt []) _ Hs kernel_sections_ok kernel_sections_apart) as (ms & s' & mu & Ep & Hs' & Hmu); [|lia|].
  { intros c v Hc Hv. apply lookup_singleton_ne. intros <-. by destruct (kernel_pte_sec c tramp_vpn Hc Hv) as [_ ?]. }
  assert (Hpte : ∀ v, mu !! v = kernel_pte v).
  { intros v. rewrite Hmu. unfold kernel_pte. destruct (decide (v = tramp_vpn)) as [->|Hne].
    - destruct (page_perm kernel_sections tramp_vpn) as [perm|] eqn:Epp; [|apply lookup_singleton_eq].
      apply page_perm_In in Epp as (c & Hc & Hv & _). by destruct (kernel_pte_sec c tramp_vpn Hc Hv) as [_ ?].
    - destruct (page_perm kernel_sections v); [done|]. by apply lookup_singleton_ne. }
  exists ms, s', mu. split; [|split; [done|split; [by intros v _|split]]].
  - mstep. destruct (new_bare s) as [[ms0 s1]|] eqn:Eb; [|done]. rewrite E. exact Ep.
  - intros v b Hb. rewrite Hpte in Hb. by destruct (kernel_pte_safe v b Hb) as (? & ? & _).
  - apply (remap_test_passes start s' ms mu); [apply Hs'|done].
Qed.
End kernel.

(** A kernel of six pages *)
Lemma small_layout : layout 0x80201000 0x80200000 0x80203000 0x80203000 0x80204000 0x80204000 0x80205000 0x80205000 0x80206000 0x80206000.
Proof. split; unfold MEMORY_END; try split_and!; (done || lia). Qed.

Lemma kernel_space_spec_witness :
  ∃ ms s' mu, new_kernel 0x80201000 0x80200000 0x80203000 0x80203000 0x80204000 0x80204000 0x80205000 0x80205000 0x80206000 0x80206000 (ram 200) = Ok (ms, s') ∧
    space_ok 5 s' ms mu ∧ mu !! 0x80203 = Some (pte_for MapPermission_R 0x80203) ∧ mu !! 0x87fff = Some (pte_for RW 0x87fff) ∧ mu !! 0x88000 = None.
Proof.
  destruct (kernel_space_spec _ _ _ _ _ _ _ _ _ _ small_layout 5 (ram 200)) as (ms & s' & mu & E & Hs & Hm & _).
  - by apply ram_wf.
  - change (nfree (frames (ram 200))) with 200%nat. lia.
  - exists ms, s', mu. split; [exact E|]. split; [exact Hs|]. rewrite !Hm by lia. split_and!; vm_compute; reflexivity.
Defined.
