(* ===== verification/Ids.v ===== *)
(** * Identifiers and the layout of per-task memory (os/src/task/id.rs)

    [RecycleAllocator], which hands out pids, kernel stack numbers and thread
    ids, and the functions that place kernel stacks, trap contexts and user
    stacks by number.  The allocator is shown to keep the identifiers in use
    distinct and below the largest number of them ever in use at once; with that
    bound the stacks and trap contexts are disjoint, with a guard page between
    stacks. *)

From S2P Require Import Prelude Address.

Definition USER_STACK_SIZE : Z := 4096 * 2.
Definition KERNEL_STACK_SIZE : Z := 4096 * 2.

Record RecycleAllocator := mkRA {
  ra_current : Z;
  ra_recycled : list Z;
}.

Definition RA_new : RecycleAllocator := mkRA 0 [].

Definition RA_alloc (ra : RecycleAllocator) : Z * RecycleAllocator :=
  match pop (ra_recycled ra) with
  | Some (id, recycled) => (id, mkRA (ra_current ra) recycled)
  | None =>
      let current := ra_current ra +ᵤ 1 in
      (current -ᵤ 1, mkRA current (ra_recycled ra))
  end.

Definition RA_dealloc (ra : RecycleAllocator) (id : Z) : result RecycleAllocator :=
  assert_ (id <? ra_current ra);;
  assert_ (negb (existsb (λ i, i =? id) (ra_recycled ra)));;
  mret (mkRA (ra_current ra) (ra_recycled ra ++ [id])).

(** (bottom, top) of a kernel stack *)
Definition kernel_stack_position (kstack_id : Z) : Z * Z :=
  let top := TRAMPOLINE -ᵤ (kstack_id *ᵤ (KERNEL_STACK_SIZE +ᵤ PAGE_SIZE)) in
  let bottom := top -ᵤ KERNEL_STACK_SIZE in
  (bottom, top).

Definition KernelStack_get_top (kstack_id : Z) : Z := (kernel_stack_position kstack_id).2.

Definition trap_cx_bottom_from_tid (tid : Z) : Z :=
  TRAP_CONTEXT_BASE -ᵤ (tid *ᵤ PAGE_SIZE).

Definition ustack_bottom_from_tid (ustack_base tid : Z) : Z :=
  ustack_base +ᵤ (tid *ᵤ (PAGE_SIZE +ᵤ USER_STACK_SIZE)).

Definition ustack_top (ustack_base tid : Z) : Z :=
  ustack_bottom_from_tid ustack_base tid +ᵤ USER_STACK_SIZE.

(** ** Specification *)

(** The histories of an allocator: the identifiers now in use, and the largest
    number of them that were in use at once. *)
Inductive history : Z → gset Z → RecycleAllocator → Prop :=
  | history_new : history 0 ∅ RA_new
  | history_alloc peak live ra id ra' :
      history peak live ra → peak + 1 < 2 ^ 64 → RA_alloc ra = (id, ra') →
      history (Z.max peak (Z.of_nat (size live) + 1)) ({[id]} ∪ live) ra'
  | history_dealloc peak live ra id ra' :
      history peak live ra → id ∈ live → RA_dealloc ra id = Ok ra' →
      history peak (live ∖ {[id]}) ra'.

(** The invariant of the allocator: the live identifiers are those below
    [current] that have not been recycled. *)
Definition ra_inv (peak : Z) (live : gset Z) (ra : RecycleAllocator) : Prop :=
  0 ≤ ra_current ra ≤ peak ∧ NoDup (ra_recycled ra) ∧
  (∀ i, i ∈ ra_recycled ra → 0 ≤ i < ra_current ra) ∧
  (∀ i, i ∈ live ↔ 0 ≤ i < ra_current ra ∧ i ∉ ra_recycled ra).

Lemma size_seqZ n : 0 ≤ n → Z.of_nat (size (list_to_set (seqZ 0 n) : gset Z)) = n.
Proof. intros. rewrite size_list_to_set by apply NoDup_seqZ. rewrite length_seqZ. lia. Qed.

(** A full allocator has no more room below [current]. *)
Lemma ra_inv_full peak live ra :
  ra_inv peak live ra → ra_recycled ra = [] → Z.of_nat (size live) = ra_current ra.
Proof.
  intros (Hc & _ & _ & Hl) Hr. replace live with (list_to_set (seqZ 0 (ra_current ra)) : gset Z).
  - apply size_seqZ. lia.
  - apply set_eq. intros i. rewrite elem_of_list_to_set, elem_of_seqZ, Hl, Hr.
    pose proof (not_elem_of_nil i). split; [intros; split; [lia|done]|lia].
Qed.

Lemma ra_inv_alloc peak live ra id ra' :
  ra_inv peak live ra → peak + 1 < 2 ^ 64 → RA_alloc ra = (id, ra') →
  (id ∉ live) ∧ 0 ≤ id < Z.max peak (Z.of_nat (size live) + 1) ∧
  ra_inv (Z.max peak (Z.of_nat (size live) + 1)) ({[id]} ∪ live) ra'.
Proof.
  intros Hinv Hp. pose proof (ra_inv_full _ _ _ Hinv) as Hfull.
  destruct Hinv as (Hc & Hnd & Hr & Hl). unfold RA_alloc.
  destruct (pop (ra_recycled ra)) as [[x r]|] eqn:Ep.
  - apply pop_Some in Ep. intros [= <- <-]. rewrite Ep in Hnd, Hr, Hl.
    setoid_rewrite elem_of_app in Hr. setoid_rewrite list_elem_of_singleton in Hr.
    setoid_rewrite not_elem_of_app in Hl. setoid_rewrite list_elem_of_singleton in Hl.
    apply NoDup_app in Hnd as (Hnd & Hd & _).
    assert (Hx : x ∉ r) by (intros Hx; apply (Hd x Hx), list_elem_of_singleton; done).
    split; [rewrite Hl; naive_solver|]. assert (Hx' : 0 ≤ x < ra_current ra) by (apply Hr; by right).
    split; [lia|].
    split; [cbn [ra_current]; lia|]. split; [done|]. cbn [ra_recycled ra_current]. split; [auto|].
    intros i. rewrite elem_of_union, elem_of_singleton, Hl. split.
    + intros [->|?]; [done|tauto].
    + destruct (decide (i = x)); tauto.
  - apply pop_None in Ep. specialize (Hfull Ep). rewrite Ep in *. rewrite (u64_small (ra_current ra + 1)) by lia.
    replace (ra_current ra + 1 - 1) with (ra_current ra) by lia. rewrite u64_small by lia.
    intros [= <- <-]. split; [rewrite Hl; lia|]. split; [lia|].
    split; [cbn [ra_current]; lia|]. split; [done|]. cbn [ra_recycled ra_current].
    split; [by intros i ?%not_elem_of_nil|].
    intros i. pose proof (not_elem_of_nil i) as Hn. rewrite elem_of_union, elem_of_singleton, Hl.
    split; [intros [->|[? _]]; split; (lia || done)|intros [? _]].
    destruct (decide (i = ra_current ra)); [by left|right; split; [lia|done]].
Qed.

Lemma existsb_eqb id l : existsb (λ i, i =? id) l = bool_decide (id ∈ l).
Proof.
  apply eq_true_iff_eq. rewrite existsb_exists, bool_decide_eq_true. split.
  - intros (x & Hx & ->%Z.eqb_eq). by apply list_elem_of_In.
  - intros Hx. exists id. rewrite Z.eqb_refl. split; [|done]. by apply list_elem_of_In.
Qed.

Lemma ra_inv_dealloc peak live ra id :
  ra_inv peak live ra → 0 ≤ id →
  (id ∈ live → ∃ ra', RA_dealloc ra id = Ok ra' ∧ ra_inv peak (live ∖ {[id]}) ra') ∧
  (id ∉ live → RA_dealloc ra id = Fail Panic).
Proof.
  intros (Hc & Hnd & Hr & Hl) Hid. unfold RA_dealloc. rewrite existsb_eqb, Hl. split.
  - intros [Hlt Hn]. rewrite (proj2 (Z.ltb_lt _ _)), bool_decide_false by (done || lia).
    eexists. split; [reflexivity|]. split; [done|]. cbn [ra_recycled ra_current].
    split; [|split].
    + apply NoDup_app. split; [done|]. split; [|apply NoDup_singleton].
      intros x Hx ->%list_elem_of_singleton. done.
    + intros i [?| ->%list_elem_of_singleton]%elem_of_app; auto.
    + intros i. rewrite elem_of_difference, Hl, not_elem_of_app, elem_of_singleton.
      rewrite list_elem_of_singleton. tauto.
  - intros Hnl. destruct (Z.ltb_spec id (ra_current ra)); [|done].
    rewrite bool_decide_true; [done|]. destruct (decide (id ∈ ra_recycled ra)); [done|]. tauto.
Qed.

Lemma history_inv peak live ra : history peak live ra → ra_inv peak live ra.
Proof.
  induction 1 as [|peak live ra id ra' _ IH Hp E|peak live ra id ra' _ IH Hin E].
  - split; [done|]. split; [constructor|]. split; [by intros i ?%not_elem_of_nil|].
    intros i. cbn [ra_current RA_new]. split; [by intros ?%not_elem_of_empty|lia].
  - by eapply ra_inv_alloc.
  - assert (0 ≤ id) by (apply IH in Hin; lia).
    destruct (ra_inv_dealloc _ _ _ id IH) as [Hd _]; [done|].
    destruct (Hd Hin) as (ra'' & E' & Hinv). congruence.
Qed.

(** ** Properties *)

(** In every history of an allocator, [alloc] returns an identifier that is
    not in use and smaller than the largest number of identifiers in use at once
    (so identifiers stay dense); [dealloc] succeeds on every identifier in use
    and panics on every other one, in particular on a second [dealloc]. *)
Theorem recycle_allocator peak live ra :
  history peak live ra → peak + 1 < 2 ^ 64 →
  (let '(id, _) := RA_alloc ra in
    (id ∉ live) ∧ 0 ≤ id < Z.max peak (Z.of_nat (size live) + 1)) ∧
  (∀ id, id ∈ live → ∃ ra', RA_dealloc ra id = Ok ra') ∧
  (∀ id, 0 ≤ id → id ∉ live → RA_dealloc ra id = Fail Panic).
Proof.
  intros Hh Hp. apply history_inv in Hh. split; [|split].
  - destruct (RA_alloc ra) as [id ra'] eqn:E.
    destruct (ra_inv_alloc _ _ _ _ _ Hh Hp E) as (? & ? & _). done.
  - intros id Hin. assert (0 ≤ id) by (apply Hh in Hin; lia).
    destruct (ra_inv_dealloc _ _ _ id Hh) as [Hd _]; [done|].
    destruct (Hd Hin) as (ra' & E & _). by exists ra'.
  - intros id Hid Hn. by apply (ra_inv_dealloc _ _ _ id Hh).
Qed.

Lemma kernel_stack_position_eq i :
  0 ≤ i < 2 ^ 38 / 0x3000 →
  kernel_stack_position i = (2 ^ 64 - 0x3000 - i * 0x3000, 2 ^ 64 - 0x1000 - i * 0x3000).
Proof.
  intros Hi. change (2 ^ 38 / 0x3000) with 22369621 in Hi. unfold kernel_stack_position.
  change TRAMPOLINE with (2 ^ 64 - 0x1000).
  change (KERNEL_STACK_SIZE +ᵤ PAGE_SIZE) with 0x3000. change KERNEL_STACK_SIZE with 0x2000.
  rewrite (u64_small (i * 0x3000)) by lia. rewrite (u64_small (2 ^ 64 - 0x1000 - _)) by lia.
  rewrite u64_small by lia. f_equal; lia.
Qed.

(** The kernel stacks of distinct numbers (up to the 22 million that fit the
    upper half of the Sv39 address space) are two pages each, page-aligned,
    disjoint, below the trampoline, and separated from the next one by at least
    an unmapped guard page; the truncation of their addresses to 39 bits keeps
    their page numbers apart. *)
Theorem kernel_stacks_disjoint i j :
  0 ≤ i < j → j < 2 ^ 38 / 0x3000 →
  let '(bottom_i, top_i) := kernel_stack_position i in
  let '(bottom_j, top_j) := kernel_stack_position j in
  top_i = bottom_i + KERNEL_STACK_SIZE ∧ top_i ≤ TRAMPOLINE ∧ 2 ^ 64 - 2 ^ 38 ≤ bottom_j ∧
  top_j + PAGE_SIZE ≤ bottom_i ∧
  bottom_i mod PAGE_SIZE = 0 ∧
  floor (VirtAddr_from top_j) + 1 ≤ floor (VirtAddr_from bottom_i) ∧
  floor (VirtAddr_from bottom_i) + 2 = floor (VirtAddr_from top_i).
Proof.
  intros Hij Hj. rewrite !kernel_stack_position_eq by lia.
  change (2 ^ 38 / 0x3000) with 22369621 in Hj.
  change TRAMPOLINE with (2 ^ 64 - 0x1000). change KERNEL_STACK_SIZE with 0x2000.
  unfold floor. change PAGE_SIZE with 0x1000. rewrite !VirtAddr_from_eq.
  split; [lia|]. split; [lia|]. split; [lia|]. split; [lia|].
  replace (2 ^ 64 - 0x3000 - i * 0x3000) with (2 ^ 39 * 33554431 + (2 ^ 39 - 0x3000 - i * 0x3000)) by lia.
  replace (2 ^ 64 - 0x1000 - i * 0x3000) with (2 ^ 39 * 33554431 + (2 ^ 39 - 0x1000 - i * 0x3000)) by lia.
  replace (2 ^ 64 - 0x1000 - j * 0x3000) with (2 ^ 39 * 33554431 + (2 ^ 39 - 0x1000 - j * 0x3000)) by lia.
  rewrite !(Z.add_comm (2 ^ 39 * _)), !(Z.mul_comm (2 ^ 39)), !Z.mod_add by lia.
  rewrite !(Z.mod_small _ (2 ^ 39)) by lia.
  split; [Z.to_euclidean_division_equations; lia|].
  split; Z.to_euclidean_division_equations; lia.
Qed.

(** The user-side resources of distinct threads of a process do not overlap:
    each trap context is a page of its own below the trampoline, each user stack
    is two pages with a guard page before the next one, and the stacks stay
    below the trap contexts as long as they stay in the lower half of the
    address space. *)
Theorem thread_resources_disjoint ustack_base s t :
  0 ≤ s < t → t < 2 ^ 38 / 0x3000 → 0 ≤ ustack_base → ustack_base + (t + 1) * 0x3000 ≤ 2 ^ 38 →
  trap_cx_bottom_from_tid t + PAGE_SIZE ≤ trap_cx_bottom_from_tid s ∧
  trap_cx_bottom_from_tid s + PAGE_SIZE ≤ TRAMPOLINE ∧
  ustack_top ustack_base s = ustack_bottom_from_tid ustack_base s + USER_STACK_SIZE ∧
  ustack_top ustack_base s + PAGE_SIZE ≤ ustack_bottom_from_tid ustack_base t ∧
  ustack_top ustack_base t ≤ 2 ^ 38 ∧
  usize_of_VirtAddr (VirtAddr_from (ustack_bottom_from_tid ustack_base t)) =
    ustack_bottom_from_tid ustack_base t ∧
  2 ^ 38 ≤ trap_cx_bottom_from_tid t.
Proof.
  intros Hst Ht Hb Hu. change (2 ^ 38 / 0x3000) with 22369621 in Ht.
  unfold ustack_top, trap_cx_bottom_from_tid, ustack_bottom_from_tid.
  change TRAP_CONTEXT_BASE with (2 ^ 64 - 0x2000). change TRAMPOLINE with (2 ^ 64 - 0x1000).
  change (PAGE_SIZE +ᵤ USER_STACK_SIZE) with 0x3000. change USER_STACK_SIZE with 0x2000.
  change PAGE_SIZE with 0x1000.
  rewrite (u64_small (s * 0x3000)), (u64_small (t * 0x3000)) by lia.
  rewrite (u64_small (s * 0x1000)), (u64_small (t * 0x1000)) by lia.
  rewrite (u64_small (ustack_base + s * _)), (u64_small (ustack_base + t * _)) by lia.
  rewrite !(u64_small (2 ^ 64 - 0x2000 - _)), !(u64_small (ustack_base + _ + _)) by lia.
  rewrite VirtAddr_from_eq, Z.mod_small by lia.
  split; [lia|]. split; [lia|]. split; [lia|]. split; [lia|]. split; [lia|].
  split; [|lia]. unfold usize_of_VirtAddr, VA_WIDTH_SV39.
  change (Z.shiftl 1 (39 - 1)) with (2 ^ 38). by rewrite (proj2 (Z.leb_gt _ _)) by lia.
Qed.

(** ** Witnesses *)

Lemma recycle_allocator_witness :
  ∃ ra, history 2 {[1]} ra ∧ RA_alloc ra = (0, mkRA 2 []) ∧
    (∃ ra', RA_dealloc ra 1 = Ok ra') ∧ RA_dealloc ra 0 = Fail Panic.
Proof.
  assert (Hh : history 2 {[1]} (mkRA 2 [0])).
  { pose proof (history_alloc _ _ _ 0 (mkRA 1 []) history_new ltac:(lia) eq_refl) as H1.
    pose proof (history_alloc _ _ _ 1 (mkRA 2 []) H1 ltac:(vm_compute; reflexivity) eq_refl) as H2.
    pose proof (history_dealloc _ _ _ 0 (mkRA 2 [0]) H2 ltac:(set_solver) eq_refl) as H3.
    exact H3. }
  destruct (recycle_allocator 2 {[1]} (mkRA 2 [0]) Hh ltac:(lia)) as (_ & Hd & Hp).
  exists (mkRA 2 [0]). split; [exact Hh|]. split; [reflexivity|].
  split; [apply Hd; set_solver|apply Hp; [lia|set_solver]].
Defined.

Lemma kernel_stacks_disjoint_witness :
  (kernel_stack_position 1).2 + PAGE_SIZE ≤ (kernel_stack_position 0).1.
Proof.
  pose proof (kernel_stacks_disjoint 0 1 ltac:(lia) ltac:(vm_compute; reflexivity)) as H.
  destruct (kernel_stack_position 0) as [b0 t0], (kernel_stack_position 1) as [b1 t1].
  exact (proj1 (proj2 (proj2 (proj2 H)))).
Defined.

Lemma thread_resources_disjoint_witness :
  ustack_top 0x20000 0 + PAGE_SIZE ≤ ustack_bottom_from_tid 0x20000 3.
Proof.
  pose proof (thread_resources_disjoint 0x20000 0 3 ltac:(lia) ltac:(vm_compute; reflexivity) ltac:(lia)
    ltac:(lia)) as H.
  exact (proj1 (proj2 (proj2 (proj2 H)))).
Defined.
