(* ===== verification/TaskRes.v ===== *)
(** * The resources of threads (os/src/task/id.rs, task.rs, trap/context.rs)

    Kernel stacks, user stacks and trap contexts are areas of the kernel's and
    of the process's address space, placed by the numbers that two recycling
    allocators hand out.  The value [TaskUserRes] owns the number, the user stack
    and the trap context of a thread; dropping it gives them back. *)

From S2P Require Import Prelude Bytes Address FrameAlloc PageTable MemorySet MemorySpec Ids.

(** The address space of the process with its thread numbers, the kernel's with
    the numbers of the kernel stacks, and the memory they share. *)
Record world := mkWorld {
  memory_set : MemorySet;
  task_res_allocator : RecycleAllocator;
  kernel_space : MemorySet;
  kstack_allocator : RecycleAllocator;
  memory : kmem;
}.

(** Operations on the memory with one of the two spaces. *)
Definition on_user {A} (f : MemorySet → M kmem (A * MemorySet)) : M world A := λ w,
  match f (memory_set w) (memory w) with
  | Ok ((x, ms), s) =>
      Ok (x, mkWorld ms (task_res_allocator w) (kernel_space w) (kstack_allocator w) s)
  | Fail e => Fail e
  end.
Definition on_kernel_space (f : MemorySet → M kmem MemorySet) : M world unit := λ w,
  match f (kernel_space w) (memory w) with
  | Ok (ms, s) => Ok (tt, mkWorld (memory_set w) (task_res_allocator w) ms (kstack_allocator w) s)
  | Fail e => Fail e
  end.
Definition on_user_ (f : MemorySet → M kmem MemorySet) : M world unit :=
  on_user (λ ms, ms ← f ms; mret (tt, ms)).

(** ** Numbers *)

Definition alloc_tid : M world Z := λ w,
  let '(tid, ra) := RA_alloc (task_res_allocator w) in
  Ok (tid, mkWorld (memory_set w) ra (kernel_space w) (kstack_allocator w) (memory w)).
Definition dealloc_tid (tid : Z) : M world unit := λ w,
  ra ← RA_dealloc (task_res_allocator w) tid;
  Ok (tt, mkWorld (memory_set w) ra (kernel_space w) (kstack_allocator w) (memory w)).

Definition kstack_id_alloc : M world Z := λ w,
  let '(id, ra) := RA_alloc (kstack_allocator w) in
  Ok (id, mkWorld (memory_set w) (task_res_allocator w) (kernel_space w) ra (memory w)).
Definition kstack_id_dealloc (id : Z) : M world unit := λ w,
  ra ← RA_dealloc (kstack_allocator w) id;
  Ok (tt, mkWorld (memory_set w) (task_res_allocator w) (kernel_space w) ra (memory w)).

(** ** Kernel stacks *)

Definition kstack_alloc : M world Z :=
  kstack_id ← kstack_id_alloc;
  let '(kstack_bottom, kstack_top) := kernel_stack_position kstack_id in
  on_kernel_space (λ ms, insert_framed_area ms (VirtAddr_from kstack_bottom) (VirtAddr_from kstack_top)
                           (Z.lor MapPermission_R MapPermission_W));;
  mret kstack_id.

Definition KernelStack_drop (kstack_id : Z) : M world unit :=
  let '(kernel_stack_bottom, _) := kernel_stack_position kstack_id in
  vpn ← lift (VirtPageNum_of_VirtAddr (VirtAddr_from kernel_stack_bottom));
  on_kernel_space (λ ms, remove_area_with_start_vpn ms vpn);;
  kstack_id_dealloc kstack_id.

(** ** User resources *)

Record TaskUserRes := mkRes { tid : Z; ustack_base : Z }.

Definition alloc_user_res (res : TaskUserRes) : M world unit :=
  let ustack_bottom := ustack_bottom_from_tid (ustack_base res) (tid res) in
  let ustack_top := ustack_bottom +ᵤ USER_STACK_SIZE in
  on_user_ (λ ms, insert_framed_area ms (VirtAddr_from ustack_bottom) (VirtAddr_from ustack_top)
                    (Z.lor (Z.lor MapPermission_R MapPermission_W) MapPermission_U));;
  let trap_cx_bottom := trap_cx_bottom_from_tid (tid res) in
  let trap_cx_top := trap_cx_bottom +ᵤ PAGE_SIZE in
  on_user_ (λ ms, insert_framed_area ms (VirtAddr_from trap_cx_bottom) (VirtAddr_from trap_cx_top)
                    (Z.lor MapPermission_R MapPermission_W)).

Definition dealloc_user_res (res : TaskUserRes) : M world unit :=
  vpn ← lift (VirtPageNum_of_VirtAddr
                (VirtAddr_from (ustack_bottom_from_tid (ustack_base res) (tid res))));
  on_user_ (λ ms, remove_area_with_start_vpn ms vpn);;
  vpn ← lift (VirtPageNum_of_VirtAddr (VirtAddr_from (trap_cx_bottom_from_tid (tid res))));
  on_user_ (λ ms, remove_area_with_start_vpn ms vpn).

Definition TaskUserRes_new (ustack_base : Z) (alloc : bool) : M world TaskUserRes :=
  tid ← alloc_tid;
  let task_user_res := mkRes tid ustack_base in
  (if alloc then alloc_user_res task_user_res else mret tt);;
  mret task_user_res.

Definition TaskUserRes_drop (res : TaskUserRes) : M world unit :=
  dealloc_tid (tid res);;
  dealloc_user_res res.

Definition trap_cx_user_va (res : TaskUserRes) : Z := trap_cx_bottom_from_tid (tid res).

Definition trap_cx_ppn (res : TaskUserRes) : M world Z :=
  vpn ← lift (VirtPageNum_of_VirtAddr (VirtAddr_from (trap_cx_bottom_from_tid (tid res))));
  o ← on_user (λ ms, o ← MemorySet_translate ms vpn; mret (o, ms));
  pte ← lift (unwrap o);
  mret (PTE_ppn pte).

(** ** Trap contexts *)

Record TrapContext := mkTrapContext {
  regs : list Z;            (** the 32 registers [x] *)
  sstatus : Z;
  sepc : Z;
  kernel_satp : Z;
  kernel_sp : Z;
  trap_handler : Z;
}.

Definition set_sp (cx : TrapContext) (sp : Z) : TrapContext :=
  mkTrapContext (<[2%nat := sp]> (regs cx)) (sstatus cx) (sepc cx) (kernel_satp cx) (kernel_sp cx)
    (trap_handler cx).

(** [user_sstatus] is the status register, read and set to return to user mode. *)
Definition app_init_context (user_sstatus entry sp kernel_satp kernel_sp trap_handler : Z) : TrapContext :=
  set_sp (mkTrapContext (replicate 32 0) user_sstatus entry kernel_satp kernel_sp trap_handler) sp.

(** The [repr(C)] image. *)
Definition TrapContext_bytes (cx : TrapContext) : list Z :=
  (regs cx ++ [sstatus cx; sepc cx; kernel_satp cx; kernel_sp cx; trap_handler cx]) ≫= le_put 8.

Definition write_trap_cx (ppn : Z) (cx : TrapContext) : M world unit := λ w,
  match (page ← get_bytes_array ppn; set_bytes_array ppn (splice 0 (TrapContext_bytes cx) page)) (memory w) with
  | Ok (_, s) =>
      Ok (tt, mkWorld (memory_set w) (task_res_allocator w) (kernel_space w) (kstack_allocator w) s)
  | Fail e => Fail e
  end.

(** ** Task control blocks *)

(** [task_status] and [task_cx] are in the state of the scheduler. *)
Record TaskControlBlock := mkTCB {
  kstack : Z;
  res : option TaskUserRes;
  tcb_trap_cx_ppn : Z;
  exit_code : option Z;
}.

Definition TaskControlBlock_new (ustack_base : Z) (alloc : bool) : M world TaskControlBlock :=
  res ← TaskUserRes_new ustack_base alloc;
  ppn ← trap_cx_ppn res;
  kstack ← kstack_alloc;
  mret (mkTCB kstack (Some res) ppn None).

(** ** Where the resources of a thread are *)

Definition stack_vpn (res : TaskUserRes) : Z := ustack_base res / 4096 + 3 * tid res.
Definition trap_vpn (res : TaskUserRes) : Z := 2 ^ 27 - 2 - tid res.

(** The number and the base of the stacks leave room in the lower half of the
    address space. *)
Record res_ok (res : TaskUserRes) : Prop := {
  ro_tid : 0 ≤ tid res < 2 ^ 24;
  ro_base : 0 ≤ ustack_base res;
  ro_aligned : ustack_base res mod 4096 = 0;
  ro_room : ustack_base res + (tid res + 1) * 0x3000 ≤ 2 ^ 38;
}.

Definition stack_area (res : TaskUserRes) : MapArea :=
  framed_area (stack_vpn res * 4096) (stack_vpn res * 4096 + 0x2000)
    (Z.lor (Z.lor MapPermission_R MapPermission_W) MapPermission_U).
Definition trap_area (res : TaskUserRes) : MapArea :=
  framed_area (trap_vpn res * 4096) (trap_vpn res * 4096 + 0x1000) (Z.lor MapPermission_R MapPermission_W).

Section addresses.
Context (r : TaskUserRes) (Hr : res_ok r).

Lemma stack_va :
  VirtAddr_from (ustack_bottom_from_tid (ustack_base r) (tid r)) = stack_vpn r * 4096 ∧
  VirtAddr_from (ustack_bottom_from_tid (ustack_base r) (tid r) +ᵤ USER_STACK_SIZE) = stack_vpn r * 4096 + 0x2000 ∧
  VirtPageNum_of_VirtAddr (stack_vpn r * 4096) = Ok (stack_vpn r) ∧ 0 ≤ stack_vpn r ∧ stack_vpn r + 2 ≤ 2 ^ 26.
Proof.
  destruct Hr as [Ht Hb Ha Hroom]. unfold ustack_bottom_from_tid, stack_vpn.
  change (PAGE_SIZE +ᵤ USER_STACK_SIZE) with 0x3000. change USER_STACK_SIZE with 0x2000.
  rewrite (u64_small (tid r * 0x3000)) by lia. rewrite (u64_small (ustack_base r + _)) by lia.
  rewrite u64_small by lia. rewrite !VirtAddr_from_eq, !Z.mod_small by lia.
  split; [Z.to_euclidean_division_equations; lia|]. split; [Z.to_euclidean_division_equations; lia|]. split.
  - unfold VirtPageNum_of_VirtAddr. rewrite page_offset_eq, Z.mod_mul by lia. cbn [Z.eqb assert_].
    mstep. unfold floor. change PAGE_SIZE with 4096. by rewrite Z.div_mul by lia.
  - Z.to_euclidean_division_equations; lia.
Qed.

Lemma trap_va :
  VirtAddr_from (trap_cx_bottom_from_tid (tid r)) = trap_vpn r * 4096 ∧
  VirtAddr_from (trap_cx_bottom_from_tid (tid r) +ᵤ PAGE_SIZE) = trap_vpn r * 4096 + 0x1000 ∧
  VirtPageNum_of_VirtAddr (trap_vpn r * 4096) = Ok (trap_vpn r) ∧ 2 ^ 26 ≤ trap_vpn r < tramp_vpn.
Proof.
  destruct Hr as [Ht Hb Ha Hroom]. unfold trap_cx_bottom_from_tid, trap_vpn, tramp_vpn.
  change TRAP_CONTEXT_BASE with (2 ^ 64 - 0x2000). change PAGE_SIZE with 0x1000.
  rewrite (u64_small (tid r * 0x1000)) by lia. rewrite (u64_small (2 ^ 64 - 0x2000 - _)) by lia.
  rewrite u64_small by lia. rewrite !VirtAddr_from_eq.
  replace (2 ^ 64 - 0x2000 - tid r * 0x1000) with
    ((2 ^ 27 - 2 - tid r) * 4096 + 33554431 * 2 ^ 39) by lia.
  replace ((2 ^ 27 - 2 - tid r) * 4096 + 33554431 * 2 ^ 39 + 0x1000) with
    ((2 ^ 27 - 2 - tid r) * 4096 + 0x1000 + 33554431 * 2 ^ 39) by lia.
  rewrite !Z.mod_add, !Z.mod_small by lia. split; [done|]. split; [done|]. split; [|lia].
  unfold VirtPageNum_of_VirtAddr. rewrite page_offset_eq, Z.mod_mul by lia. cbn [Z.eqb assert_].
  mstep. unfold floor. change PAGE_SIZE with 4096. by rewrite Z.div_mul by lia.
Qed.

Lemma aligned_pages v n : 0 ≤ v → 0 ≤ n → v + n ≤ 2 ^ 27 → floor (v * 4096) = v ∧ ceil (v * 4096 + n * 4096) = v + n.
Proof.
  intros Hv Hn Hb. unfold floor. change PAGE_SIZE with 4096. rewrite ceil_eq by lia.
  split; [by rewrite Z.div_mul by lia|Z.to_euclidean_division_equations; lia].
Qed.

Lemma stack_pages : floor (stack_vpn r * 4096) = stack_vpn r ∧ ceil (stack_vpn r * 4096 + 0x2000) = stack_vpn r + 2.
Proof. destruct stack_va as (_ & _ & _ & ? & ?). apply (aligned_pages _ 2); lia. Qed.
Lemma trap_pages : floor (trap_vpn r * 4096) = trap_vpn r ∧ ceil (trap_vpn r * 4096 + 0x1000) = trap_vpn r + 1.
Proof. destruct trap_va as (_ & _ & _ & ?). unfold tramp_vpn in *. apply (aligned_pages _ 1); lia. Qed.

Lemma stack_vpns : area_vpns (stack_area r) = [stack_vpn r; stack_vpn r + 1].
Proof.
  unfold area_vpns, vpns_of, stack_area, framed_area. cbn [vpn_range range_l range_r].
  destruct stack_pages as [-> ->]. replace (stack_vpn r + 2 - stack_vpn r) with 2 by lia.
  unfold seqZ. change (Z.to_nat 2) with 2%nat. cbn [seq fmap list_fmap]. do 2 (f_equal; try lia).
Qed.
Lemma trap_vpns : area_vpns (trap_area r) = [trap_vpn r].
Proof.
  unfold area_vpns, vpns_of, trap_area, framed_area. cbn [vpn_range range_l range_r].
  destruct trap_pages as [-> ->]. replace (trap_vpn r + 1 - trap_vpn r) with 1 by lia.
  unfold seqZ. change (Z.to_nat 1) with 1%nat. cbn [seq fmap list_fmap]. by f_equal.
Qed.
End addresses.

(** ** Allocating and dropping them *)

(** The resources of [r] can be placed: no page of them is mapped, and no area
    starts where they start. *)
Record can_place (ms : MemorySet) (mu : gmap Z Z) (r : TaskUserRes) : Prop := {
  cp_stack v : stack_vpn r ≤ v < stack_vpn r + 2 → mu !! v = None;
  cp_trap : mu !! trap_vpn r = None;
  cp_areas a : a ∈ areas ms →
    range_l (vpn_range a) ≠ stack_vpn r ∧ range_l (vpn_range a) ≠ trap_vpn r;
}.

Definition with_user (ms : MemorySet) (s : kmem) (w : world) : world :=
  mkWorld ms (task_res_allocator w) (kernel_space w) (kstack_allocator w) s.

Section lifecycle.
Context (start : Z) (w : world) (mu : gmap Z Z) (r : TaskUserRes).
Context (Hr : res_ok r) (Hs : space_ok start (memory w) (memory_set w) mu).
Context (Hplace : can_place (memory_set w) mu r) (Hn : (9 ≤ nfree (frames (memory w)))%nat).

Lemma alloc_user_res_run :
  ∃ p1 p2 p3 s' fr1 fr2,
    let ms' := pushed (pushed (memory_set w) (stack_area r) [p1; p2] fr1) (trap_area r) [p3] fr2 in
    let mu' := pushed_map (pushed_map mu (stack_area r) [p1; p2]) (trap_area r) [p3] in
    alloc_user_res r w = Ok (tt, with_user ms' s' w) ∧ space_ok start s' ms' mu' ∧
    grows start (pt_frames (page_table (memory_set w))) (memory w) s' ([p1; p2] ++ fr1 ++ [p3] ++ fr2) ∧
    (length fr1 + length fr2 ≤ 6)%nat.
Proof.
  destruct (stack_va r Hr) as (Es & Es' & _ & Hs0 & Hs1). destruct (trap_va r Hr) as (Et & Et' & _ & Ht).
  destruct (stack_pages r Hr) as [Ef Ec]. destruct (trap_pages r Hr) as [Ef' Ec']. unfold tramp_vpn in Ht.
  destruct (insert_run start (memory w) (memory_set w) mu (stack_vpn r * 4096) (stack_vpn r * 4096 + 0x2000)
    (Z.lor (Z.lor MapPermission_R MapPermission_W) MapPermission_U)) as (ps & s1 & fr1 & E1 & Hl1 & Hb1 & Hs1' & Hg1 & _);
    [done|lia|lia|by split|rewrite Ef, Ec; lia|rewrite Ef, Ec; apply Hplace|].
  fold (stack_area r) in *. rewrite (stack_vpns r Hr) in Hl1, Hb1.
  destruct ps as [|p1 [|p2 [|? ?]]]; try discriminate Hl1.
  pose proof (gr_free _ _ _ _ _ Hg1) as Hf1. cbn [length app] in Hf1, Hb1.
  destruct (insert_run start s1 (pushed (memory_set w) (stack_area r) [p1; p2] fr1)
    (pushed_map mu (stack_area r) [p1; p2]) (trap_vpn r * 4096) (trap_vpn r * 4096 + 0x1000)
    (Z.lor MapPermission_R MapPermission_W)) as (ps & s2 & fr2 & E2 & Hl2 & Hb2 & Hs2 & Hg2 & _);
    [done|lia|lia|by split|rewrite Ef', Ec'; lia| |].
  { intros v Hv. rewrite Ef', Ec' in Hv. assert (v = trap_vpn r) as -> by lia.
    rewrite pushed_map_old; [apply (cp_trap _ _ _ Hplace)|]. rewrite (stack_vpns r Hr). set_unfold. lia. }
  fold (trap_area r) in *. rewrite (trap_vpns r Hr) in Hl2, Hb2. destruct ps as [|p3 [|? ?]]; try discriminate Hl2.
  exists p1, p2, p3, s2, fr1, fr2. unfold alloc_user_res, on_user_, on_user. mstep.
  rewrite Es, Es', E1. cbn [memory_set memory task_res_allocator kernel_space kstack_allocator].
  rewrite Et, Et', E2. split; [done|]. split; [done|]. split; [|cbn [length] in Hb1, Hb2; lia].
  rewrite (app_assoc [p1; p2]).
  eapply grows_trans; [done|done|]. unfold pushed. cbn [page_table pt_frames]. intros p.
  rewrite !elem_of_app. tauto.
Qed.

(** Both areas are found again, and only their frames are given back. *)
Lemma dealloc_user_res_run p1 p2 p3 s' fr1 fr2 w' :
  let ms' := pushed (pushed (memory_set w) (stack_area r) [p1; p2] fr1) (trap_area r) [p3] fr2 in
  let mu' := pushed_map (pushed_map mu (stack_area r) [p1; p2]) (trap_area r) [p3] in
  space_ok start s' ms' mu' → memory_set w' = ms' → memory w' = s' →
  ∃ s2, dealloc_user_res r w' = Ok (tt, with_user (mkMS (page_table ms') (areas (memory_set w))) s2 w') ∧
    space_ok start s2 (mkMS (page_table ms') (areas (memory_set w))) mu ∧
    shrinks start (pt_frames (page_table ms')) s' s2 [p1; p2; p3].
Proof.
  intros ms' mu' Hs' Ems Es'. destruct (stack_va r Hr) as (Es & _ & Ev & _). destruct (trap_va r Hr) as (Et & _ & Ev' & _).
  destruct (stack_pages r Hr) as [Ef _]. destruct (trap_pages r Hr) as [Ef' _].
  set (a := with_pages (zip (area_vpns (stack_area r)) [p1; p2]) (stack_area r)).
  set (b := with_pages (zip (area_vpns (trap_area r)) [p3]) (trap_area r)).
  assert (Hareas : areas ms' = areas (memory_set w) ++ a :: [b])
    by (unfold ms', pushed; cbn [areas]; by rewrite <- app_assoc).
  assert (Hra : range_l (vpn_range a) = stack_vpn r) by exact Ef.
  assert (Hrb : range_l (vpn_range b) = trap_vpn r) by exact Ef'.
  assert (Hfa : area_frames a ≡ₚ [p1; p2])
    by (apply with_pages_frames; [done|by rewrite (stack_vpns r Hr)|done|done]).
  assert (Hfb : area_frames b ≡ₚ [p3]) by (apply with_pages_frames; [done|by rewrite (trap_vpns r Hr)|done|done]).
  destruct (remove_found_run start s' ms' mu' (areas (memory_set w)) a [b] Hs' Hareas) as (s1 & E1 & Hs1 & Hsh1).
  { intros c Hc. rewrite Hra. by apply (cp_areas _ _ _ Hplace). }
  destruct (remove_found_run start s1 (mkMS (page_table ms') (areas (memory_set w) ++ [b]))
    (removed (area_vpns a) mu') (areas (memory_set w)) b [] Hs1 eq_refl) as (s2 & E2 & Hs2 & Hsh2).
  { intros c Hc. rewrite Hrb. by apply (cp_areas _ _ _ Hplace). }
  rewrite app_nil_r in E2, Hs2. cbn [page_table] in *. rewrite Hra in E1. rewrite Hrb in E2.
  exists s2. unfold dealloc_user_res, on_user_, on_user. rewrite Es, Ev, Et, Ev', <- Ems, <- Es' in *. mstep.
  rewrite E1. cbn [memory_set memory]. rewrite Ems in *. rewrite E2. split; [done|]. split.
  - replace mu with (removed (area_vpns b) (removed (area_vpns a) mu')); [done|]. apply map_eq. intros v.
    rewrite !lookup_removed. change (area_vpns b) with (area_vpns (trap_area r)).
    change (area_vpns a) with (area_vpns (stack_area r)).
    case_decide as Hb; [|case_decide as Ha; [|unfold mu'; by rewrite !pushed_map_old by done]]; symmetry.
    + rewrite (trap_vpns r Hr) in Hb. apply list_elem_of_singleton in Hb as ->. apply (cp_trap _ _ _ Hplace).
    + rewrite (stack_vpns r Hr) in Ha. apply (cp_stack _ _ _ Hplace). set_unfold in Ha. lia.
  - eapply shrinks_perm; [by eapply shrinks_trans|]. by rewrite Hfa, Hfb.
Qed.
End lifecycle.

Lemma placed_lookup r mu p1 p2 p3 :
  res_ok r →
  let mu' := pushed_map (pushed_map mu (stack_area r) [p1; p2]) (trap_area r) [p3] in
  mu' !! stack_vpn r = Some (pte_for (2 + 4 + 16) p1) ∧
  mu' !! (stack_vpn r + 1) = Some (pte_for (2 + 4 + 16) p2) ∧
  mu' !! trap_vpn r = Some (pte_for (2 + 4) p3) ∧
  ∀ v, (v ∉ [stack_vpn r; stack_vpn r + 1; trap_vpn r]) → mu' !! v = mu !! v.
Proof.
  intros Hr mu'. destruct (stack_va r Hr) as (_ & _ & _ & Hs0 & Hs1). destruct (trap_va r Hr) as (_ & _ & _ & Ht).
  assert (Hstack : ∀ i v p, [stack_vpn r; stack_vpn r + 1] !! i = Some v → [p1; p2] !! i = Some p →
    v ≠ trap_vpn r → mu' !! v = Some (pte_for (2 + 4 + 16) p)).
  { intros i v p Hi Hp Hne. unfold mu'. rewrite pushed_map_old.
    - apply (pushed_map_new mu (stack_area r) [p1; p2] i); rewrite ?(stack_vpns r Hr); done.
    - rewrite (trap_vpns r Hr). by rewrite list_elem_of_singleton. }
  split; [apply (Hstack O); [done|done|lia]|]. split; [apply (Hstack 1%nat); [done|done|lia]|]. split.
  - apply (pushed_map_new _ (trap_area r) [p3] O); by rewrite ?(trap_vpns r Hr).
  - intros v Hv. set_unfold in Hv. unfold mu'. rewrite !pushed_map_old; [done|..].
    + rewrite (stack_vpns r Hr). set_unfold. tauto.
    + rewrite (trap_vpns r Hr). set_unfold. tauto.
Qed.

Lemma trap_cx_ppn_run start w mu r perm p :
  res_ok r → space_ok start (memory w) (memory_set w) mu → mu !! trap_vpn r = Some (pte_for perm p) → perm_ok perm →
  0 ≤ p < 2 ^ 44 → trap_cx_ppn r w = Ok (p, w).
Proof.
  intros Hr Hs Hmu Hperm Hp. destruct (trap_va r Hr) as (Et & _ & Ev & Ht). unfold tramp_vpn in Ht.
  unfold trap_cx_ppn, on_user, MemorySet_translate. rewrite Et, Ev. mstep.
  rewrite (translate_mapped start _ _ mu _ (pte_for perm p)); [|apply Hs|lia|done].
  cbn [unwrap]. rewrite pte_for_ppn by done. by destruct w.
Qed.

(** What is left when the data frames of the three pages are gone. *)
Lemma frames_left start s s' ptf p1 p2 p3 fr1 fr2 p :
  (∀ q, q ∈ ptf → in_use start (frames s) q) →
  grows start ptf s s' ([p1; p2] ++ fr1 ++ [p3] ++ fr2) →
  (p ∉ [p1; p2; p3]) ∧ (p ∈ [p1; p2] ++ fr1 ++ [p3] ++ fr2 ∨ in_use start (frames s) p) ↔
    in_use start (frames s) p ∨ p ∈ (ptf ++ fr1) ++ fr2.
Proof.
  intros Hpt Hg. pose proof (gr_nodup _ _ _ _ _ Hg) as Hnd. pose proof (gr_fresh _ _ _ _ _ Hg p) as Hf.
  specialize (Hpt p). cbn [app] in Hnd, Hf. rewrite !NoDup_cons, NoDup_app, NoDup_cons in Hnd.
  set_unfold in Hnd. set_unfold in Hf. set_unfold. naive_solver.
Qed.

(** A number given back is the next to be handed out. *)
Lemma RA_dealloc_alloc ra t ra' : RA_dealloc ra t = Ok ra' → (RA_alloc ra').1 = t.
Proof.
  unfold RA_dealloc. destruct (t <? ra_current ra), (negb (existsb _ _)); try discriminate.
  intros [= <-]. unfold RA_alloc. cbn [ra_recycled]. destruct (pop (ra_recycled ra ++ [t])) as [[x l]|] eqn:Ep.
  - apply pop_Some in Ep. apply app_inj_tail in Ep as [_ ->]. done.
  - apply pop_None in Ep. by destruct (ra_recycled ra).
Qed.

Lemma RA_alloc_dealloc peak live ra t ra' :
  ra_inv peak live ra → peak + 1 < 2 ^ 64 → RA_alloc ra = (t, ra') →
  ∃ ra'', RA_dealloc ra' t = Ok ra'' ∧ (RA_alloc ra'').1 = t.
Proof.
  intros Hinv Hp E. destruct (ra_inv_alloc _ _ _ _ _ Hinv Hp E) as (_ & Ht & Hinv').
  destruct (ra_inv_dealloc _ _ _ t Hinv') as [Hd _]; [lia|].
  destruct Hd as (ra'' & E' & _); [set_solver|]. exists ra''. split; [done|]. by eapply RA_dealloc_alloc.
Qed.

(** The resources of a thread come and go without a trace.  [TaskUserRes::new]
    takes a free thread number and maps two pages of stack for the user and one
    page of trap context for the kernel alone, to frames that were free, and
    nothing else; [trap_cx_ppn] then returns the frame of the trap context.
    Dropping the value unmaps these pages and frees these frames; the areas and
    the mapping of the process are as before, and the number is the next to be
    handed out.  Only frames of new page tables stay. *)
Theorem user_res_lifecycle start w mu peak live base t ra :
  space_ok start (memory w) (memory_set w) mu → ra_inv peak live (task_res_allocator w) → peak + 1 < 2 ^ 64 →
  RA_alloc (task_res_allocator w) = (t, ra) → res_ok (mkRes t base) →
  can_place (memory_set w) mu (mkRes t base) → (9 ≤ nfree (frames (memory w)))%nat →
  let r := mkRes t base in
  ∃ w1 w2 mu1 p1 p2 p3,
    TaskUserRes_new base true w = Ok (r, w1) ∧ (t ∉ live) ∧
    space_ok start (memory w1) (memory_set w1) mu1 ∧
    mu1 !! stack_vpn r = Some (pte_for (2 + 4 + 16) p1) ∧
    mu1 !! (stack_vpn r + 1) = Some (pte_for (2 + 4 + 16) p2) ∧
    mu1 !! trap_vpn r = Some (pte_for (2 + 4) p3) ∧
    (∀ v, (v ∉ [stack_vpn r; stack_vpn r + 1; trap_vpn r]) → mu1 !! v = mu !! v) ∧
    (∀ p, p ∈ [p1; p2; p3] → ¬ in_use start (frames (memory w)) p) ∧
    trap_cx_ppn r w1 = Ok (p3, w1) ∧
    TaskUserRes_drop r w1 = Ok (tt, w2) ∧
    areas (memory_set w2) = areas (memory_set w) ∧ space_ok start (memory w2) (memory_set w2) mu ∧
    (RA_alloc (task_res_allocator w2)).1 = t ∧
    (∀ p, in_use start (frames (memory w2)) p ↔
      in_use start (frames (memory w)) p ∨ p ∈ pt_frames (page_table (memory_set w2))).
Proof.
  intros Hs Hinv Hp Ealloc Hr Hplace Hn r.
  set (w0 := mkWorld (memory_set w) ra (kernel_space w) (kstack_allocator w) (memory w)).
  destruct (alloc_user_res_run start w0 mu r Hr Hs Hplace Hn) as (p1 & p2 & p3 & s' & fr1 & fr2 & E & Hs' & Hg & _).
  destruct (RA_alloc_dealloc _ _ _ _ _ Hinv Hp Ealloc) as (ra2 & Ed & Er2).
  set (ms' := pushed _ (trap_area r) [p3] fr2) in *. set (mu' := pushed_map _ (trap_area r) [p3]) in *.
  set (w1 := with_user ms' s' w0) in *.
  destruct (dealloc_user_res_run start w0 mu r Hr Hplace Hn p1 p2 p3 s' fr1 fr2
    (mkWorld ms' ra2 (kernel_space w) (kstack_allocator w) s') Hs' eq_refl eq_refl) as (s2 & E2 & Hs2 & Hsh).
  fold ms' in E2, Hs2, Hsh.
  exists w1, (mkWorld (mkMS (page_table ms') (areas (memory_set w))) ra2 (kernel_space w) (kstack_allocator w) s2),
    mu', p1, p2, p3.
  split. { unfold TaskUserRes_new, alloc_tid. mstep. rewrite Ealloc.
    change (mkRes t base) with r. fold w0. by rewrite E. }
  split; [by destruct (ra_inv_alloc _ _ _ _ _ Hinv Hp Ealloc)|]. split; [done|].
  destruct (placed_lookup r mu p1 p2 p3 Hr) as (L1 & L2 & L3 & Lo). fold mu' in L1, L2, L3, Lo.
  split; [done|]. split; [done|]. split; [done|]. split; [done|].
  assert (Hfresh : ∀ p, p ∈ [p1; p2; p3] → p ∈ [p1; p2] ++ fr1 ++ [p3] ++ fr2)
    by (intros p; rewrite !elem_of_app; set_unfold; tauto).
  split; [intros p Hin; by apply (gr_fresh _ _ _ _ _ Hg), Hfresh|].
  assert (Hp3 : 0 ≤ p3 < 2 ^ 44).
  { destruct (used_page start s' p3) as [? _]; [apply Hg| |done].
    apply (gr_use _ _ _ _ _ Hg). left. apply Hfresh. set_solver. }
  split; [by apply (trap_cx_ppn_run start w1 mu' r (2 + 4) p3)|].
  split. { unfold TaskUserRes_drop, dealloc_tid. mstep. cbn [task_res_allocator w1 with_user w0 tid r].
    rewrite Ed. exact E2. }
  split; [done|]. split; [done|]. split; [done|].
  cbn [memory memory_set page_table]. intros p. rewrite (sh_use _ _ _ _ _ Hsh), (gr_use _ _ _ _ _ Hg).
  unfold ms', pushed. cbn [page_table pt_frames memory w0 memory_set].
  apply (frames_left start (memory w) s' (pt_frames (page_table (memory_set w)))); [|exact Hg].
  intros q Hq. apply (so_used _ _ _ _ Hs), elem_of_app. by left.
Qed.

(** ** Witness *)

(** The first thread of a process whose program ends below 0x20000. *)
Lemma user_res_lifecycle_witness :
  ∃ w w1 w2, TaskUserRes_new 0x20000 true w = Ok (mkRes 0 0x20000, w1) ∧
    TaskUserRes_drop (mkRes 0 0x20000) w1 = Ok (tt, w2) ∧ areas (memory_set w2) = areas (memory_set w).
Proof.
  destruct (user_start_run 5 (ram 40) 0x80200000) as (pt & s & fr & _ & Hl & Hs & _ & Hg);
    [by apply ram_wf|lia|done|vm_compute; lia|].
  pose proof (gr_free _ _ _ _ _ Hg) as Hf. change (nfree (frames (ram 40))) with 40%nat in Hf.
  set (w := mkWorld (mkMS pt []) RA_new (mkMS pt []) RA_new s).
  destruct (user_res_lifecycle 5 w _ 0 ∅ 0x20000 0 (mkRA 1 []) Hs) as
    (w1 & w2 & mu1 & p1 & p2 & p3 & E1 & _ & _ & _ & _ & _ & _ & _ & _ & E2 & Ha & _).
  - apply history_inv. constructor.
  - lia.
  - reflexivity.
  - split; cbn [tid ustack_base]; [lia|lia|reflexivity|lia].
  - split.
    + intros v Hv. change (stack_vpn (mkRes 0 0x20000)) with 32 in Hv. apply lookup_singleton_ne.
      unfold tramp_vpn. lia.
    + apply lookup_singleton_ne. vm_compute. congruence.
    + intros a Ha. by apply not_elem_of_nil in Ha.
  - cbn [memory w]. lia.
  - exists w, w1, w2. split; [exact E1|]. split; [exact E2|exact Ha].
Defined.
