(* ===== verification/UserMem.v ===== *)
(** * Access to user memory (os/src/mm/page_table.rs)

    The kernel reads and writes user memory through the user's page table:
    [translated_byte_buffer] turns a virtual range into slices of physical
    pages, [translated_str] copies a C string, and [UserBuffer] iterates over
    slices byte by byte.  A slice is a physical page number with the offsets of
    its first byte and of the byte after its last. *)

From S2P Require Import Prelude Bytes Address FrameAlloc PageTable.

Record pslice := mkSlice { sl_ppn : Z; sl_from : Z; sl_to : Z }.

(** [while start < end { .. }] *)
Fixpoint buffer_loop (fuel : nat) (pt : PageTable) (start end_ : Z) (v : list pslice) :
    M kmem (list pslice) :=
  if start <? end_ then
    match fuel with
    | O => throw OutOfFuel
    | S fuel =>
        let start_va := VirtAddr_from start in
        let vpn := floor start_va in
        o ← translate pt vpn;
        pte ← lift (unwrap o);
        let ppn := PTE_ppn pte in
        let vpn := step vpn in
        let end_va := VirtAddr_of_VirtPageNum vpn in
        let end_va := Z.min end_va (VirtAddr_from end_) in
        v ← (if page_offset end_va =? 0 then
               mret (v ++ [mkSlice ppn (page_offset start_va) 4096])
             else
               lift (assert_ (page_offset start_va <=? page_offset end_va));;
               mret (v ++ [mkSlice ppn (page_offset start_va) (page_offset end_va)]));
        buffer_loop fuel pt (usize_of_VirtAddr end_va) end_ v
    end
  else mret v.

(** The range has at most [len] bytes, and every turn of the loop but an empty
    range's takes at least one. *)
Definition translated_byte_buffer (token ptr len : Z) : M kmem (list pslice) :=
  buffer_loop (S (Z.to_nat len)) (from_token token) ptr (ptr +ᵤ len) [].

(** [pa.get_mut::<u8>()] *)
Definition read_byte (pa : Z) : M kmem Z :=
  page ← get_bytes_array (pa / PAGE_SIZE);
  lift (idx page (pa mod PAGE_SIZE)).

(** The loop of [translated_str]; [ch as char] is the code point [ch]. *)
Fixpoint str_loop (fuel : nat) (pt : PageTable) (va : Z) (string : list Z) : M kmem (list Z) :=
  match fuel with
  | O => throw OutOfFuel
  | S fuel =>
      o ← translate_va pt (VirtAddr_from va);
      pa ← lift (unwrap o);
      ch ← read_byte pa;
      if ch =? 0 then mret string
      else str_loop fuel pt (va +ᵤ 1) (string ++ [ch])
  end.

Definition translated_str (fuel : nat) (token ptr : Z) : M kmem (list Z) :=
  str_loop fuel (from_token token) ptr [].

(** [translated_ref] and [translated_refmut]: the physical address *)
Definition translated_ref (token ptr : Z) : M kmem Z :=
  o ← translate_va (from_token token) (VirtAddr_from ptr);
  lift (unwrap o).

(** What such a reference to [n] bytes reads. *)
Fixpoint read_ref (n : nat) (pa : Z) : M kmem (list Z) :=
  match n with
  | O => mret []
  | S n =>
      b ← read_byte pa;
      bs ← read_ref n (pa + 1);
      mret (b :: bs)
  end.

(** Assignment through such a reference: the bytes of the value, from the physical
    address on. *)
Fixpoint write_ref (pa : Z) (bs : list Z) : M kmem unit :=
  match bs with
  | [] => mret tt
  | b :: bs =>
      page ← get_bytes_array (pa / PAGE_SIZE);
      page ← lift (upd page (pa mod PAGE_SIZE) b);
      set_bytes_array (pa / PAGE_SIZE) page;;
      write_ref (pa + 1) bs
  end.

(** An assignment to what [translated_refmut] returns, with the bytes of the value. *)
Definition assign_user (token ptr : Z) (bs : list Z) : M kmem unit :=
  pa ← translated_ref token ptr;
  write_ref pa bs.

(** ** [UserBuffer] *)

Definition sl_len (b : pslice) : Z := sl_to b - sl_from b.

Fixpoint UserBuffer_len (buffers : list pslice) : Z :=
  match buffers with
  | [] => 0
  | b :: buffers => sl_len b + UserBuffer_len buffers
  end.

Record UserBufferIterator := mkUBI {
  ub_buffers : list pslice;
  current_buffer : Z;
  current_idx : Z;
}.

Definition UserBuffer_into_iter (buffers : list pslice) : UserBufferIterator :=
  mkUBI buffers 0 0.

(** [next]: the physical location of the byte, as page and offset *)
Definition ub_next (it : UserBufferIterator) :
    result (option (Z * Z) * UserBufferIterator) :=
  if Z.of_nat (length (ub_buffers it)) <=? current_buffer it then mret (None, it)
  else
    b ← idx (ub_buffers it) (current_buffer it);
    assert_ (current_idx it <? sl_len b);;
    let r := (sl_ppn b, sl_from b + current_idx it) in
    mret (Some r,
      if current_idx it + 1 =? sl_len b then
        mkUBI (ub_buffers it) (current_buffer it + 1) 0
      else mkUBI (ub_buffers it) (current_buffer it) (current_idx it + 1)).

Fixpoint ub_collect (fuel : nat) (it : UserBufferIterator) : result (list (Z * Z)) :=
  match fuel with
  | O => Fail OutOfFuel
  | S fuel =>
      '(o, it) ← ub_next it;
      match o with
      | None => mret []
      | Some r => l ← ub_collect fuel it; mret (r :: l)
      end
  end.

(** ** Specification *)

(** The physical locations of a slice, and of a list of slices. *)
Definition locations (b : pslice) : list (Z * Z) :=
  (λ o, (sl_ppn b, o)) <$> seqZ (sl_from b) (sl_len b).
Definition flatten (v : list pslice) : list (Z * Z) := v ≫= locations.

(** The byte at a location. *)
Definition cell (m : gmap Z (list Z)) (l : Z * Z) : option Z :=
  page ← m !! l.1; page !! Z.to_nat l.2.

(** A location of the memory. *)
Definition valid (m : gmap Z (list Z)) (l : Z * Z) : Prop := 0 ≤ l.2 ∧ is_Some (cell m l).

(** Where the mapping [mu] puts a virtual address. *)
Definition vloc (mu : gmap Z Z) (va : Z) : Z * Z := (PTE_ppn (mu !!! (va / 4096)), va mod 4096).

(** Every page of the range is mapped. *)
Definition mapped (mu : gmap Z Z) (ptr len : Z) : Prop :=
  ∀ va, ptr ≤ va < ptr + len → is_Some (mu !! (va / 4096)).

Lemma from_token_root pt :
  0 ≤ root_ppn pt < 2 ^ 44 → from_token (token pt) = mkPT (root_ppn pt) [].
Proof.
  intros Hr. unfold from_token, token. f_equal. fold (mask 44).
  change (u64 (Z.shiftl 8 60)) with (2 ^ 63).
  assert (E : Z.land (Z.lor (2 ^ 63) (root_ppn pt)) (mask 44) = root_ppn pt).
  { rewrite Z.land_lor_distr_l, !land_mask by done. rewrite (Z.mod_small (root_ppn pt)) by done.
    change (2 ^ 63 mod 2 ^ 44) with 0. apply Z.lor_0_l. }
  rewrite E. by apply PhysPageNum_from_small.
Qed.

Section user.
Context (start : Z) (s : kmem) (pt : PageTable) (mu : gmap Z Z).
Context (Hrep : represents start s pt mu).

Lemma user_root : 0 ≤ root_ppn pt < 2 ^ 44.
Proof. apply (pt_present start s pt); [apply Hrep|]. by eapply pt_root, Hrep. Qed.

Lemma translate_user vpn b :
  0 ≤ vpn < 2 ^ 27 → mu !! vpn = Some b →
  translate (from_token (token pt)) vpn s = Ok (Some b, s).
Proof.
  intros Hv Hb. rewrite from_token_root by apply user_root.
  change (translate (mkPT (root_ppn pt) []) vpn s) with (translate pt vpn s).
  rewrite (translate_run start) by apply Hrep. destruct Hrep as [Hwf Hl].
  rewrite <- Hl in Hb by done. destruct (leaf_Some _ _ _ _ Hb) as (t & Ht & Eb & _).
  rewrite Ht. simpl. by rewrite Eb.
Qed.

(** The bytes of one turn of the loop lie in one page. *)
Lemma vloc_page p q :
  0 ≤ p → p ≤ q → q ≤ (p / 4096 + 1) * 4096 →
  vloc mu <$> seqZ p (q - p) =
    locations (mkSlice (PTE_ppn (mu !!! (p / 4096))) (p mod 4096) (p mod 4096 + (q - p))).
Proof.
  intros Hp Hpq Hq. unfold locations, sl_len. cbn [sl_ppn sl_from sl_to].
  replace (p mod 4096 + (q - p) - p mod 4096) with (q - p) by lia.
  apply list_eq. intros i. rewrite !list_lookup_fmap.
  destruct (decide (Z.of_nat i < q - p)) as [Hi|Hi].
  - rewrite !lookup_seqZ_lt by lia. simpl. unfold vloc.
    replace ((p + Z.of_nat i) / 4096) with (p / 4096) by (Z.to_euclidean_division_equations; lia).
    do 2 f_equal. Z.to_euclidean_division_equations; lia.
  - rewrite !lookup_seqZ_ge by lia. done.
Qed.

Lemma buffer_loop_run fuel p e v :
  0 ≤ p ≤ e → e < 2 ^ 38 → mapped mu p (e - p) → (Z.to_nat (e - p) < fuel)%nat →
  ∃ v', buffer_loop fuel (from_token (token pt)) p e v s = Ok (v ++ v', s) ∧
    flatten v' = vloc mu <$> seqZ p (e - p) ∧
    Forall (λ b, 0 ≤ sl_from b < sl_to b ∧ sl_to b ≤ 4096) v'.
Proof.
  revert p v. induction fuel as [|fuel IH]; intros p v Hpe He Hm Hf; [lia|]. cbn [buffer_loop].
  destruct (Z.ltb_spec p e) as [Hlt|Hge].
  2:{ exists []. rewrite app_nil_r. split_and!; [done| |constructor].
      replace (e - p) with 0 by lia. done. }
  rewrite !VirtAddr_from_eq, !Z.mod_small by lia. unfold floor, PAGE_SIZE.
  destruct (Hm p) as [b Hb]; [lia|].
  assert (Hv : 0 ≤ p / 4096 < 2 ^ 26) by (Z.to_euclidean_division_equations; lia).
  mstep. change 0x1000 with 4096. rewrite (translate_user _ b) by (done || lia). cbn [unwrap].
  unfold step. rewrite u64_small by lia. rewrite VirtAddr_of_VirtPageNum_eq by lia.
  set (q := Z.min ((p / 4096 + 1) * 4096) e). rewrite !page_offset_eq.
  assert (Hq : p < q ≤ e ∧ q ≤ (p / 4096 + 1) * 4096)
    by (unfold q; Z.to_euclidean_division_equations; lia).
  destruct (IH q (v ++ [mkSlice (PTE_ppn b) (p mod 4096) (p mod 4096 + (q - p))]))
    as (v' & E & Hfl & Hall); [lia|done| |lia|].
  { intros va Hva. apply Hm. lia. }
  exists (mkSlice (PTE_ppn b) (p mod 4096) (p mod 4096 + (q - p)) :: v').
  assert (Hus : usize_of_VirtAddr q = q).
  { unfold usize_of_VirtAddr, VA_WIDTH_SV39. change (Z.shiftl 1 (39 - 1)) with (2 ^ 38).
    by rewrite (proj2 (Z.leb_gt _ _)) by lia. }
  split_and!.
  - rewrite <- app_assoc in E. cbn [app] in E. rewrite Hus, <- E.
    destruct (Z.eqb_spec (q mod 4096) 0) as [H0|H0].
    + replace (p mod 4096 + (q - p)) with 4096; [done|]. unfold q in *.
      Z.to_euclidean_division_equations; lia.
    + assert (q mod 4096 = p mod 4096 + (q - p)) as ->
        by (unfold q in *; Z.to_euclidean_division_equations; lia).
      by rewrite (proj2 (Z.leb_le _ _)) by lia.
  - unfold flatten in *. rewrite bind_cons, Hfl.
    replace (e - p) with ((q - p) + (e - q)) by lia.
    rewrite seqZ_app, fmap_app by lia. replace (p + (q - p)) with q by lia. f_equal.
    rewrite vloc_page by lia. by rewrite (lookup_total_correct _ _ _ Hb).
  - constructor; [|done]. cbn [sl_from sl_to].
    unfold q in *; Z.to_euclidean_division_equations; lia.
Qed.

(** The byte at a virtual address. *)
Definition vbyte (va : Z) : Z :=
  let '(p, o) := vloc mu va in (mem s !!! p) !!! Z.to_nat o.

(** The data pages are memory. *)
Definition backed (va : Z) : Prop := ∃ b, mu !! (va / 4096) = Some b ∧ is_Some (mem s !! PTE_ppn b).

Lemma translate_va_user va b :
  0 ≤ va < 2 ^ 38 → mu !! (va / 4096) = Some b →
  translate_va (from_token (token pt)) (VirtAddr_from va) s =
    Ok (Some (PTE_ppn b * 4096 + va mod 4096), s).
Proof.
  intros Hva Hb. rewrite VirtAddr_from_eq, Z.mod_small by lia.
  assert (Ht := translate_user (va / 4096) b). unfold translate_va. unfold translate in Ht.
  unfold floor, PAGE_SIZE. mstep. change 0x1000 with 4096.
  destruct (find_pte (from_token (token pt)) (va / 4096) s) as [[[[t i]|] s1]|] eqn:E;
    try (specialize (Ht ltac:(Z.to_euclidean_division_equations; lia) Hb); discriminate).
  destruct (read_pte t i s1) as [[pte s2]|] eqn:E2;
    try (specialize (Ht ltac:(Z.to_euclidean_division_equations; lia) Hb); discriminate).
  specialize (Ht ltac:(Z.to_euclidean_division_equations; lia) Hb). injection Ht as -> ->.
  do 3 f_equal. unfold PhysAddr_of_PhysPageNum, PAGE_SIZE_BITS.
  assert (Hr := PTE_ppn_range b). rewrite Z.shiftl_mul_pow2 by lia.
  assert (0 ≤ va mod 4096 < 4096) by (by apply Z.mod_pos_bound).
  change (2 ^ 12) with 4096. rewrite page_offset_eq.
  rewrite (u64_small (PTE_ppn b * 4096)), u64_small by lia.
  unfold PhysAddr_from. rewrite land_mask by done. apply Z.mod_small. unfold PA_WIDTH_SV39. lia.
Qed.

Lemma read_byte_user va b :
  0 ≤ va → mu !! (va / 4096) = Some b → is_Some (mem s !! PTE_ppn b) →
  read_byte (PTE_ppn b * 4096 + va mod 4096) s = Ok (vbyte va, s).
Proof.
  intros Hva Hb [pg Epg]. unfold read_byte, get_bytes_array. mstep. unfold PAGE_SIZE.
  change 0x1000 with 4096. assert (0 ≤ va mod 4096 < 4096) by (by apply Z.mod_pos_bound).
  rewrite Z.div_add_l, (Z.div_small (va mod 4096)), Z.add_0_r by lia.
  rewrite (Z.add_comm (PTE_ppn b * 4096)), Z.mod_add, Z.mod_mod by lia. rewrite Epg. cbn [unwrap].
  assert (Hpl : length pg = 4096%nat).
  { destruct Hrep as [Hwf _]. destruct (pt_kmem _ _ _ Hwf) as (_ & _ & Hpg). by eapply Hpg. }
  destruct (lookup_lt_is_Some_2 pg (Z.to_nat (va mod 4096))) as [x Ex]; [lia|].
  rewrite (idx_Ok _ _ x) by done. unfold vbyte, vloc. rewrite (lookup_total_correct _ _ _ Hb).
  rewrite (lookup_total_correct _ _ _ Epg). by rewrite (list_lookup_total_correct _ _ _ Ex).
Qed.

Lemma str_loop_run n fuel va acc :
  (n < fuel)%nat → 0 ≤ va → va + Z.of_nat n < 2 ^ 38 →
  (∀ i, 0 ≤ i ≤ Z.of_nat n → backed (va + i)) →
  (∀ i, 0 ≤ i < Z.of_nat n → vbyte (va + i) ≠ 0) → vbyte (va + Z.of_nat n) = 0 →
  str_loop fuel (from_token (token pt)) va acc s =
    Ok (acc ++ (vbyte <$> seqZ va (Z.of_nat n)), s).
Proof.
  revert fuel va acc. induction n as [|n IH]; intros [|fuel] va acc Hf H0 Hb Hbk Hnz Hz; try lia;
    cbn [str_loop]; destruct (Hbk 0) as (b & Eb & Hpg); try lia; rewrite Z.add_0_r in Eb; mstep;
    rewrite (translate_va_user va b) by (done || lia); cbn [unwrap];
    rewrite read_byte_user by done.
  - rewrite Z.add_0_r in Hz. rewrite Hz. cbn [Z.eqb]. by rewrite app_nil_r.
  - specialize (Hnz 0 ltac:(lia)) as Hn0. rewrite Z.add_0_r in Hn0.
    rewrite (proj2 (Z.eqb_neq _ _)) by done. rewrite u64_small by lia. rewrite IH; try lia.
    + rewrite (seqZ_cons va) by lia. rewrite fmap_cons, <- app_assoc.
      by replace (Z.pred (Z.of_nat (S n))) with (Z.of_nat n) by lia.
    + intros i Hi. replace (va + 1 + i) with (va + (1 + i)) by lia. apply Hbk. lia.
    + intros i Hi. replace (va + 1 + i) with (va + (1 + i)) by lia. apply Hnz. lia.
    + rewrite <- Hz. f_equal. lia.
Qed.
End user.

(** ** Iterating over a user buffer *)

Lemma ub_collect_run pre b post i n fuel :
  Forall (λ b, 0 ≤ sl_from b < sl_to b) (pre ++ b :: post) → 0 ≤ i < sl_len b →
  n = length ((drop (Z.to_nat i) (locations b)) ++ flatten post) → (n < fuel)%nat →
  ub_collect fuel (mkUBI (pre ++ b :: post) (Z.of_nat (length pre)) i) =
    Ok (drop (Z.to_nat i) (locations b) ++ flatten post).
Proof.
  revert pre b post i fuel. induction n as [|n IH]; intros pre b post i fuel Hall Hi Hn Hf.
  - exfalso. rewrite length_app, length_drop in Hn. unfold locations in Hn.
    rewrite length_fmap, length_seqZ in Hn. lia.
  - destruct fuel as [|fuel]; [lia|]. cbn [ub_collect]. unfold ub_next.
    cbn [ub_buffers current_buffer current_idx]. rewrite length_app. cbn [length].
    rewrite (proj2 (Z.leb_gt _ _)) by lia. mstep.
    rewrite (idx_Ok _ _ b) by (rewrite Nat2Z.id; by apply list_lookup_middle).
    rewrite (proj2 (Z.ltb_lt _ _)) by lia. cbn [assert_].
    assert (Hd : drop (Z.to_nat i) (locations b) =
              (sl_ppn b, sl_from b + i) :: drop (Z.to_nat (i + 1)) (locations b)).
    { replace (Z.to_nat (i + 1)) with (S (Z.to_nat i)) by lia. apply drop_S. unfold locations.
      rewrite list_lookup_fmap, lookup_seqZ_lt by lia. simpl. by rewrite Z2Nat.id by lia. }
    rewrite Hd in Hn |- *. rewrite <- app_comm_cons in Hn |- *. cbn [length] in Hn. injection Hn as Hn.
    destruct (Z.eqb_spec (i + 1) (sl_len b)) as [Hlast|Hmore].
    + rewrite Hlast in Hn |- *. rewrite (drop_ge (locations b)) in Hn |- * by
        (unfold locations; rewrite length_fmap, length_seqZ; lia). cbn [app] in Hn |- *.
      destruct post as [|b' post].
      * destruct fuel as [|fuel]; [simpl in Hn; lia|]. cbn [ub_collect]. unfold ub_next.
        cbn [ub_buffers current_buffer]. rewrite length_app. cbn [length].
        by rewrite (proj2 (Z.leb_le _ _)) by lia.
      * assert (Hb' : 0 ≤ sl_from b' < sl_to b').
        { rewrite Forall_app, !Forall_cons in Hall. naive_solver. }
        replace (pre ++ b :: b' :: post) with ((pre ++ [b]) ++ b' :: post) in Hall |- *
          by (by rewrite <- app_assoc).
        replace (Z.of_nat (length pre) + 1) with (Z.of_nat (length (pre ++ [b])))
          by (rewrite length_app; simpl; lia).
        rewrite IH; [done|done|unfold sl_len; lia|done|lia].
    + rewrite IH; [done|done|lia|done|lia].
Qed.

Lemma UserBuffer_len_flatten bs :
  Forall (λ b, 0 ≤ sl_from b < sl_to b) bs → UserBuffer_len bs = Z.of_nat (length (flatten bs)).
Proof.
  induction 1 as [|b bs Hb _ IH]; [done|]. cbn [UserBuffer_len]. unfold flatten.
  rewrite bind_cons, length_app. fold (flatten bs). rewrite IH. unfold locations.
  rewrite length_fmap, length_seqZ. unfold sl_len in *. lia.
Qed.

Lemma ub_collect_all bs :
  Forall (λ b, 0 ≤ sl_from b < sl_to b) bs →
  ub_collect (S (Z.to_nat (UserBuffer_len bs))) (UserBuffer_into_iter bs) = Ok (flatten bs).
Proof.
  intros Hall. rewrite (UserBuffer_len_flatten bs Hall), Nat2Z.id. destruct bs as [|b bs]; [done|].
  rewrite Forall_cons in Hall. destruct Hall as [Hb Hbs].
  rewrite (ub_collect_run [] b bs 0 (length (flatten (b :: bs)))); try done.
  - by constructor.
  - unfold sl_len; lia.
  - lia.
Qed.

(** ** Properties *)

Lemma byte_buffer_run start s pt mu ptr len :
  represents start s pt mu → 0 ≤ ptr → 0 ≤ len → ptr + len < 2 ^ 38 → mapped mu ptr len →
  ∃ v, translated_byte_buffer (token pt) ptr len s = Ok (v, s) ∧
    flatten v = vloc mu <$> seqZ ptr len ∧
    Forall (λ b, 0 ≤ sl_from b < sl_to b ∧ sl_to b ≤ 4096) v ∧
    UserBuffer_len v = len ∧
    ub_collect (S (Z.to_nat len)) (UserBuffer_into_iter v) = Ok (vloc mu <$> seqZ ptr len).
Proof.
  intros Hrep Hp Hl Hb Hm. unfold translated_byte_buffer. rewrite u64_small by lia.
  destruct (buffer_loop_run start s pt mu Hrep (S (Z.to_nat len)) ptr (ptr + len) [])
    as (v & E & Hfl & Hall); [lia|done| |lia|].
  { by replace (ptr + len - ptr) with len by lia. }
  replace (ptr + len - ptr) with len in Hfl by lia. cbn [app] in E.
  assert (Hne : Forall (λ b, 0 ≤ sl_from b < sl_to b) v)
    by (eapply Forall_impl; [exact Hall|]; cbn; tauto).
  assert (Hlen : UserBuffer_len v = len).
  { rewrite UserBuffer_len_flatten, Hfl, length_fmap, length_seqZ by done. lia. }
  exists v. split_and!; try done. rewrite <- Hlen at 1. by rewrite ub_collect_all, Hfl.
Qed.

(** C28: for a user range that lies in the lower half of the address space and
    whose pages are all mapped, [translated_byte_buffer] returns slices of the
    physical pages that, laid end to end, are exactly the physical locations of
    the bytes [ptr], [ptr + 1], ..., in order; the slices are non-empty and each
    is within a page, memory is unchanged, and iterating over the [UserBuffer]
    of these slices visits [len] bytes: those locations, in order, without a
    panic. *)
Theorem translated_byte_buffer_correct start s pt mu ptr len :
  represents start s pt mu → 0 ≤ ptr → 0 ≤ len → ptr + len < 2 ^ 38 → mapped mu ptr len →
  ∃ v, translated_byte_buffer (token pt) ptr len s = Ok (v, s) ∧
    flatten v = vloc mu <$> seqZ ptr len ∧
    Forall (λ b, 0 ≤ sl_from b < sl_to b ∧ sl_to b ≤ 4096) v ∧
    UserBuffer_len v = len ∧
    ub_collect (S (Z.to_nat len)) (UserBuffer_into_iter v) = Ok (vloc mu <$> seqZ ptr len).
Proof. apply byte_buffer_run. Qed.

(** C29: when the bytes of a user string, up to and including its terminating
    NUL, lie in mapped pages, [translated_str] terminates and returns exactly
    the bytes before the NUL, reading them one by one across page borders. *)
Theorem translated_str_correct start s pt mu ptr n :
  represents start s pt mu → 0 ≤ ptr → ptr + Z.of_nat n < 2 ^ 38 →
  (∀ i, 0 ≤ i ≤ Z.of_nat n → backed s mu (ptr + i)) →
  (∀ i, 0 ≤ i < Z.of_nat n → vbyte s mu (ptr + i) ≠ 0) → vbyte s mu (ptr + Z.of_nat n) = 0 →
  translated_str (S n) (token pt) ptr s = Ok (vbyte s mu <$> seqZ ptr (Z.of_nat n), s).
Proof.
  intros. unfold translated_str. erewrite str_loop_run; [done|eassumption|lia|..]; done.
Qed.

(** ** Witnesses *)

(** Two pages, mapped to frames 77 and 99; the range crosses their border. *)
Lemma translated_byte_buffer_correct_witness :
  ∃ pt s v, translated_byte_buffer (token pt) 0x10ff0 0x20 s = Ok (v, s) ∧
    flatten v = ((λ o, (77, o)) <$> seqZ 0xff0 0x10) ++ ((λ o, (99, o)) <$> seqZ 0 0x10).
Proof.
  destruct (PageTable_new_run 5 demo_ram demo_ram_wf) as (pt & s & E & Hr & _ & Hg);
    [vm_compute; lia|].
  pose proof (gr_free _ _ _ _ _ Hg) as Hn. change (nfree (frames demo_ram)) with 6%nat in Hn.
  cbn [length] in Hn.
  pose proof (map_run 5 s pt ∅ 0x10 77 14 Hr ltac:(lia) ltac:(lia) ltac:(lia) ltac:(lia)) as Hm.
  rewrite lookup_empty in Hm. destruct Hm as (pt' & s' & fr & _ & _ & Hr' & Hn1 & Hg').
  pose proof (gr_free _ _ _ _ _ Hg') as Hn'.
  pose proof (map_run 5 s' pt' _ 0x11 99 14 Hr' ltac:(lia) ltac:(lia) ltac:(lia) ltac:(lia)) as Hm.
  rewrite lookup_insert_ne, lookup_empty in Hm by lia. destruct Hm as (pt2 & s2 & fr2 & _ & _ & Hr2 & _).
  destruct (translated_byte_buffer_correct 5 s2 pt2 _ 0x10ff0 0x20 Hr2) as (v & Ev & Hf & _).
  - lia.
  - lia.
  - lia.
  - intros va Hva. destruct (decide (va / 4096 = 0x11)) as [->|].
    + rewrite lookup_insert_eq. by eexists.
    + assert (va / 4096 = 0x10) as -> by (Z.to_euclidean_division_equations; lia).
      rewrite lookup_insert_ne, lookup_insert_eq by lia. by eexists.
  - exists pt2, s2, v. split; [exact Ev|]. rewrite Hf. vm_compute. reflexivity.
Defined.

(** A page that holds the string [hi] is mapped. *)
Definition hi_page : list Z := [104; 105] ++ replicate 4094 0.
Definition hi_ram : kmem := mkKmem (<[10 := hi_page]> (mem demo_ram)) (frames demo_ram).

Lemma hi_ram_wf : kmem_wf 5 hi_ram.
Proof.
  destruct demo_ram_wf as (Hf & Hm & Hp). split; [exact Hf|]. split.
  - intros p Hin. unfold hi_ram. cbn [mem]. destruct (decide (p = 10)) as [->|].
    + rewrite lookup_insert_eq. by eexists.
    + rewrite lookup_insert_ne by done. by apply Hm.
  - intros p pg. unfold hi_ram. cbn [mem]. destruct (decide (p = 10)) as [->|].
    + rewrite lookup_insert_eq. intros E%(inj Some). rewrite <- E. split; [done|].
      by apply Forall_app; split; [repeat constructor|apply Forall_replicate].
    + rewrite lookup_insert_ne by done. apply Hp.
Qed.

Definition hi_pte : Z := PTE_new 10 (Z.lor 14 PTE_V).
Definition hi_mu : gmap Z Z := <[0x10 := hi_pte]> ∅.

(** A table that maps page 0x10 to the page of memory that holds "hi". *)
Lemma hi_mapped : ∃ pt s, represents 5 s pt hi_mu ∧ mem s !! 10 = Some hi_page ∧ 10 ∉ pt_frames pt.
Proof.
  destruct (PageTable_new_run 5 hi_ram hi_ram_wf) as (pt & s & E & Hr & _ & Hg);
    [vm_compute; lia|].
  pose proof (gr_free _ _ _ _ _ Hg) as Hn. change (nfree (frames hi_ram)) with 6%nat in Hn.
  cbn [length] in Hn.
  pose proof (map_run 5 s pt ∅ 0x10 10 14 Hr ltac:(lia) ltac:(lia) ltac:(lia) ltac:(lia)) as Hm.
  rewrite lookup_empty in Hm. destruct Hm as (pt' & s' & fr & E' & _ & Hr' & _).
  exists pt', s'. split; [exact Hr'|].
  assert (Hc : match PageTable_new hi_ram with
               | Ok (pt, s) => match map pt 0x10 10 14 s with
                               | Ok (pt', s') => bool_decide (mem s' !! 10 = Some hi_page ∧ 10 ∉ pt_frames pt')
                               | Fail _ => false
                               end
               | Fail _ => false
               end = true) by (vm_compute; reflexivity).
  rewrite E, E' in Hc. by apply bool_decide_eq_true_1 in Hc.
Qed.

Lemma hi_mu_lookup i : 0 ≤ i < 4096 → hi_mu !! ((0x10000 + i) / 4096) = Some hi_pte.
Proof.
  intros Hi. replace ((0x10000 + i) / 4096) with 0x10 by (Z.to_euclidean_division_equations; lia).
  apply lookup_insert_eq.
Qed.

Lemma hi_vbyte s i :
  mem s !! 10 = Some hi_page → 0 ≤ i < 4096 → vbyte s hi_mu (0x10000 + i) = hi_page !!! Z.to_nat i.
Proof.
  intros Hpg Hi. unfold vbyte, vloc. rewrite (lookup_total_correct _ _ _ (hi_mu_lookup i Hi)).
  replace ((0x10000 + i) mod 4096) with i by (Z.to_euclidean_division_equations; lia).
  change (PTE_ppn hi_pte) with 10. by rewrite (lookup_total_correct _ _ _ Hpg).
Qed.

Lemma translated_str_correct_witness :
  ∃ pt s, translated_str 3 (token pt) 0x10000 s = Ok ([104; 105], s).
Proof.
  destruct hi_mapped as (pt & s & Hr & Hpg & _). exists pt, s.
  assert (Hrun := translated_str_correct 5 s pt hi_mu 0x10000 2 Hr). rewrite Hrun; clear Hrun.
  - do 2 f_equal. change (seqZ 0x10000 (Z.of_nat 2)) with [0x10000 + 0; 0x10000 + 1].
    cbn [fmap list_fmap]. rewrite !hi_vbyte by (done || lia). reflexivity.
  - lia.
  - lia.
  - intros i Hi. exists hi_pte. split; [apply hi_mu_lookup; lia|]. exists hi_page. exact Hpg.
  - intros i Hi. rewrite hi_vbyte by (done || lia). assert (i = 0 ∨ i = 1) as [-> | ->] by lia; done.
  - rewrite hi_vbyte by (done || lia). reflexivity.
Defined.
