(* ===== verification/Files.v ===== *)
(** * Open files (os/src/fs/inode.rs)

    An [OSInode] is an inode of easy-fs with an offset.  Reading and writing go
    through the slices of a user buffer, one [Inode::read_at] or
    [Inode::write_at] each.  The state is the block store of the file system and
    physical memory, where the slices lie. *)

From S2P Require Import Prelude Bytes BlockStore BlockCache BlockFile Bitmap Layout Inode.
From S2P Require Import InodeSpec InodeData Efs Vfs VfsSpec FrameAlloc UserMem.

Record OSInode := mkOSInode {
  readable : bool;
  writable : bool;
  offset : Z;
  inode : Inode;
}.

Definition OSInode_new (readable writable : bool) (inode : Inode) : OSInode :=
  mkOSInode readable writable 0 inode.

Definition set_offset (off : Z) (o : OSInode) : OSInode :=
  mkOSInode (readable o) (writable o) off (inode o).

(** ** Flags *)

Definition OpenFlags_RDONLY : Z := 0.
Definition OpenFlags_WRONLY : Z := Z.shiftl 1 0.
Definition OpenFlags_RDWR : Z := Z.shiftl 1 1.
Definition OpenFlags_CREATE : Z := Z.shiftl 1 9.
Definition OpenFlags_TRUNC : Z := Z.shiftl 1 10.

Definition OpenFlags_all : Z :=
  Z.lor (Z.lor OpenFlags_WRONLY OpenFlags_RDWR) (Z.lor OpenFlags_CREATE OpenFlags_TRUNC).

(** [from_bits]: no bit but those of the flags *)
Definition OpenFlags_from_bits (bits : Z) : option Z :=
  if Z.land bits OpenFlags_all =? bits then Some bits else None.

Definition contains (flags f : Z) : bool := Z.land flags f =? f.

Definition read_write (flags : Z) : bool * bool :=
  if flags =? 0 then (true, false)
  else if contains flags OpenFlags_WRONLY then (false, true)
  else (true, true).

(** ** Operations *)

(** The disk behind the block cache, and physical memory. *)
Record fstate (St : Type) := mkF {
  disk : St;
  ram : kmem;
}.
Arguments mkF {St}.
Arguments disk {St}.
Arguments ram {St}.

Definition on_disk {St A} (m : M St A) : M (fstate St) A := λ s,
  '(a, d) ← m (disk s); Ok (a, mkF d (ram s)).
Definition on_ram {St A} (m : M kmem A) : M (fstate St) A := λ s,
  '(a, k) ← m (ram s); Ok (a, mkF (disk s) k).

(** The bytes of a slice of a physical page, and the page with other bytes there. *)
Definition load_slice (b : pslice) : M kmem (list Z) :=
  page ← get_bytes_array (sl_ppn b);
  lift (assert_ ((sl_from b <=? sl_to b) && (sl_to b <=? Z.of_nat (length page))));;
  mret (slice (Z.to_nat (sl_from b)) (Z.to_nat (sl_len b)) page).
Definition store_slice (b : pslice) (bs : list Z) : M kmem unit :=
  page ← get_bytes_array (sl_ppn b);
  set_bytes_array (sl_ppn b) (splice (Z.to_nat (sl_from b)) bs page).

Section files.
Context {St : Type} `{BlockStore St}.

(** The loop of [read_all], over a buffer that keeps its contents. *)
Fixpoint read_all_loop (fuel : nat) (ino : Inode) (off : Z) (buffer v : list Z) : M St (Z * list Z) :=
  match fuel with
  | O => throw OutOfFuel
  | S fuel =>
      '(len, buffer) ← Inode_read_at ino off buffer;
      if len =? 0 then mret (off, v)
      else read_all_loop fuel ino (off +ᵤ len) buffer (v ++ take (Z.to_nat len) buffer)
  end.

(** Every turn but the last reads a block of a file of at most [MAX_SIZE] bytes. *)
Definition read_all (o : OSInode) : M St (list Z * OSInode) :=
  '(off, v) ← read_all_loop (Z.to_nat (MAX_SIZE / 512 + 2)) (inode o) (offset o) (replicate 512 0) [];
  mret (v, set_offset off o).

(** [root] is [ROOT_INODE]. *)
Definition open_file (efs : EasyFileSystem) (root : Inode) (name : list Z) (flags : Z) :
    M St (option OSInode) :=
  let '(readable, writable) := read_write flags in
  if contains flags OpenFlags_CREATE then
    o ← find efs root name;
    match o with
    | Some ino => Inode_clear efs ino;; mret (Some (OSInode_new readable writable ino))
    | None => o ← Inode_create efs root name; mret (OSInode_new readable writable <$> o)
    end
  else
    o ← find efs root name;
    match o with
    | Some ino =>
        (if contains flags OpenFlags_TRUNC then Inode_clear efs ino else mret tt);;
        mret (Some (OSInode_new readable writable ino))
    | None => mret None
    end.

(** [for slice in buf.buffers.iter_mut()]: the new offset and the bytes read. *)
Fixpoint read_slices (ino : Inode) (buffers : list pslice) (off total : Z) : M (fstate St) (Z * Z) :=
  match buffers with
  | [] => mret (off, total)
  | b :: buffers =>
      bs ← on_ram (load_slice b);
      '(read_size, bs) ← on_disk (Inode_read_at ino off bs);
      on_ram (store_slice b bs);;
      if read_size =? 0 then mret (off, total)
      else read_slices ino buffers (off +ᵤ read_size) (total +ᵤ read_size)
  end.

Definition OSInode_read (o : OSInode) (buf : list pslice) : M (fstate St) (Z * OSInode) :=
  '(off, total) ← read_slices (inode o) buf (offset o) 0;
  mret (total, set_offset off o).

Fixpoint write_slices (efs : EasyFileSystem) (ino : Inode) (buffers : list pslice) (off total : Z) :
    M (fstate St) (Z * Z) :=
  match buffers with
  | [] => mret (off, total)
  | b :: buffers =>
      bs ← on_ram (load_slice b);
      write_size ← on_disk (Inode_write_at efs ino off bs);
      lift (assert_ (write_size =? Z.of_nat (length bs)));;
      write_slices efs ino buffers (off +ᵤ write_size) (total +ᵤ write_size)
  end.

Definition OSInode_write (efs : EasyFileSystem) (o : OSInode) (buf : list pslice) :
    M (fstate St) (Z * OSInode) :=
  '(off, total) ← write_slices efs (inode o) buf (offset o) 0;
  mret (total, set_offset off o).
End files.
