(* ===== verification/UserRange.v ===== *)
(** * Ranges of user memory

    The bytes at physical locations and at virtual addresses, and what loading and
    storing slices of pages and assigning through [translated_refmut] do to them. *)

From S2P Require Import Prelude Bytes Address FrameAlloc PageTable UserMem Files.

(** ** Slices of memory *)

Definition slice_ok (m : gmap Z (list Z)) (b : pslice) : Prop :=
  0 ≤ sl_from b < sl_to b ∧ ∃ page, m !! sl_ppn b = Some page ∧ sl_to b ≤ Z.of_nat (length page).

(** Pages keep their length. *)
Definition same_lengths (m m' : gmap Z (list Z)) : Prop := ∀ p, length <$> m' !! p = length <$> m !! p.

(** The bytes at the locations [ls]. *)
Definition cells (m : gmap Z (list Z)) (ls : list (Z * Z)) (bs : list Z) : Prop :=
  Forall2 (λ l b, cell m l = Some b) ls bs.

Lemma same_lengths_trans m1 m2 m3 : same_lengths m1 m2 → same_lengths m2 m3 → same_lengths m1 m3.
Proof. intros H1 H2 p. by rewrite H2, H1. Qed.

Lemma slice_ok_lengths m m' b : same_lengths m m' → slice_ok m b → slice_ok m' b.
Proof.
  intros Hs [Hr (page & E & Hl)]. split; [done|]. specialize (Hs (sl_ppn b)). rewrite E in Hs.
  destruct (m' !! sl_ppn b) as [page'|]; [|done]. injection Hs as Hs. exists page'. split; [done|lia].
Qed.

Lemma length_locations b : length (locations b) = Z.to_nat (sl_len b).
Proof. unfold locations. by rewrite length_fmap, length_seqZ. Qed.

Lemma lookup_locations b i :
  (i < Z.to_nat (sl_len b))%nat → locations b !! i = Some (sl_ppn b, sl_from b + Z.of_nat i).
Proof. intros Hi. unfold locations. by rewrite list_lookup_fmap, lookup_seqZ_lt by lia. Qed.

Lemma elem_of_locations b l :
  l ∈ locations b ↔ l.1 = sl_ppn b ∧ sl_from b ≤ l.2 < sl_to b.
Proof.
  unfold locations, sl_len. rewrite list_elem_of_fmap. setoid_rewrite elem_of_seqZ. destruct l as [p o]. simpl. split.
  - intros (x & [= -> ->] & Hx). lia.
  - intros [-> Ho]. exists o. split; [done|lia].
Qed.

Lemma cells_app m l1 l2 b1 b2 : cells m l1 b1 → cells m l2 b2 → cells m (l1 ++ l2) (b1 ++ b2).
Proof. apply Forall2_app. Qed.

Lemma cells_frame m m' ls bs : (∀ l, l ∈ ls → cell m' l = cell m l) → cells m ls bs → cells m' ls bs.
Proof.
  intros Heq Hc. induction Hc as [|l b ls bs Hlb Hc IH]; [constructor|]. constructor.
  - rewrite Heq; [done|apply list_elem_of_here].
  - apply IH. intros l' Hl'. apply Heq. by apply list_elem_of_further.
Qed.

Lemma cells_eq m ls bs bs' : cells m ls bs → cells m ls bs' → bs = bs'.
Proof.
  intros Hc. revert bs'. induction Hc as [|l b ls bs Hb Hc IH]; intros bs' Hc'.
  - by apply Forall2_nil_inv_l in Hc' as ->.
  - apply Forall2_cons_inv_l in Hc' as (b' & bs2 & Hb' & Hc' & ->). f_equal; [congruence|by apply IH].
Qed.

Lemma cells_lookup m ls bs i l b : cells m ls bs → ls !! i = Some l → bs !! i = Some b → cell m l = Some b.
Proof. intros Hc. apply (Forall2_lookup_lr _ _ _ _ _ _ Hc). Qed.

Section slices.
Context (k : kmem) (b : pslice) (Hb : slice_ok (mem k) b).

Lemma load_slice_run :
  ∃ bs, load_slice b k = Ok (bs, k) ∧ length bs = Z.to_nat (sl_len b) ∧ cells (mem k) (locations b) bs ∧
    ∃ page, mem k !! sl_ppn b = Some page ∧ bs = slice (Z.to_nat (sl_from b)) (Z.to_nat (sl_len b)) page.
Proof.
  destruct Hb as [Hr (page & E & Hl)]. unfold load_slice, get_bytes_array. mstep. rewrite E. cbn [unwrap]. mstep.
  rewrite (proj2 (Z.leb_le (sl_from b) (sl_to b))), (proj2 (Z.leb_le (sl_to b) _)) by lia. cbn [andb assert_]. mstep.
  eexists. split; [reflexivity|]. assert (Hlen : length (slice (Z.to_nat (sl_from b)) (Z.to_nat (sl_len b)) page) = Z.to_nat (sl_len b)).
  { apply length_slice. unfold sl_len. lia. }
  split; [done|]. split; [|by exists page]. apply Forall2_same_length_lookup_2; [by rewrite length_locations|].
  intros i l x Hli Hx. pose proof (lookup_lt_Some _ _ _ Hx) as Hi. rewrite Hlen in Hi.
  rewrite lookup_locations in Hli by done. injection Hli as <-. rewrite lookup_slice, decide_True in Hx by done.
  unfold cell. simpl. rewrite E. simpl. rewrite <- Hx. f_equal. lia.
Qed.

Lemma store_slice_run bs :
  length bs = Z.to_nat (sl_len b) →
  ∃ k', store_slice b bs k = Ok (tt, k') ∧ frames k' = frames k ∧ same_lengths (mem k) (mem k') ∧
    cells (mem k') (locations b) bs ∧
    (∀ l, 0 ≤ l.2 → l ∉ locations b → cell (mem k') l = cell (mem k) l) ∧
    ∃ page, mem k !! sl_ppn b = Some page ∧ mem k' = <[sl_ppn b := splice (Z.to_nat (sl_from b)) bs page]> (mem k).
Proof.
  destruct Hb as [Hr (page & E & Hl)]. intros Hbs. unfold sl_len in Hbs. unfold store_slice, get_bytes_array, set_bytes_array.
  mstep. rewrite E. cbn [unwrap]. mstep. eexists. split; [reflexivity|]. split; [done|]. cbn [mem].
  assert (Hfit : (Z.to_nat (sl_from b) + length bs ≤ length page)%nat) by lia.
  split; [|split; [|split; [|by exists page]]].
  - intros p. destruct (decide (p = sl_ppn b)) as [->|]; [|by rewrite lookup_insert_ne].
    rewrite lookup_insert_eq, E. simpl. by rewrite length_splice.
  - apply Forall2_same_length_lookup_2; [by rewrite length_locations|].
    intros i l x Hli Hx. pose proof (lookup_lt_Some _ _ _ Hx) as Hi.
    rewrite lookup_locations in Hli by (unfold sl_len; lia). injection Hli as <-. unfold cell. simpl.
    rewrite lookup_insert_eq. simpl. rewrite lookup_splice, decide_True by lia. rewrite <- Hx. f_equal. lia.
  - intros [p o] Ho Hn. rewrite elem_of_locations in Hn. unfold cell. simpl in *.
    destruct (decide (p = sl_ppn b)) as [->|]; [|by rewrite lookup_insert_ne].
    rewrite lookup_insert_eq, E. simpl. rewrite lookup_splice by done. rewrite decide_False; [done|]. intros Hr'. apply Hn. lia.
Qed.

(** Storing a slice of which only the first bytes are new. *)
Lemma store_prefix bs new :
  load_slice b k = Ok (bs, k) → (length new ≤ length bs)%nat →
  ∃ k', store_slice b (splice 0 new bs) k = Ok (tt, k') ∧ frames k' = frames k ∧ same_lengths (mem k) (mem k') ∧
    cells (mem k') (take (length new) (locations b)) new ∧
    (∀ l, 0 ≤ l.2 → l ∉ take (length new) (locations b) → cell (mem k') l = cell (mem k) l).
Proof.
  intros El Hn. destruct load_slice_run as (bs' & El' & Hl & Hc & _). rewrite El in El'. injection El' as <-.
  destruct (store_slice_run (splice 0 new bs)) as (k' & Es & Ef & Hs & Hc' & Hfr & _);
    [by rewrite length_splice|].
  exists k'. split; [done|]. split; [done|]. split; [done|]. split.
  - apply (Forall2_take _ _ _ (length new)) in Hc'. unfold splice in Hc'. rewrite take_0 in Hc'. simpl in Hc'.
    by rewrite take_app_length in Hc'.
  - intros l Hl2 Hnl. destruct (decide (l ∈ locations b)) as [Hin|]; [|by apply Hfr].
    apply list_elem_of_lookup in Hin as [i Hi].
    assert (Hge : (length new ≤ i)%nat).
    { destruct (decide (i < length new)%nat); [|lia]. exfalso. apply Hnl. apply list_elem_of_lookup. exists i.
      by rewrite lookup_take_lt. }
    pose proof (lookup_lt_Some _ _ _ Hi) as Hlt. rewrite length_locations, <- Hl in Hlt.
    destruct (lookup_lt_is_Some_2 bs i Hlt) as [x Hx].
    rewrite (cells_lookup _ _ _ i l x Hc Hi Hx). apply (cells_lookup _ _ _ i l x Hc' Hi).
    rewrite lookup_splice by done. rewrite decide_False by lia. exact Hx.
Qed.
End slices.

(** ** User buffers *)

(** The pages of a buffer are mapped to memory of their own. *)
Record user_range (k : kmem) (mu : gmap Z Z) (ptr len : Z) : Prop := {
  ur_ptr : 0 ≤ ptr;
  ur_len : 0 ≤ len;
  ur_end : ptr + len < 2 ^ 38;
  ur_backed va : ptr ≤ va < ptr + len → backed k mu va;
  ur_own va vb : ptr ≤ va < ptr + len → ptr ≤ vb < ptr + len →
    PTE_ppn (mu !!! (va / 4096)) = PTE_ppn (mu !!! (vb / 4096)) → va / 4096 = vb / 4096;
}.

Lemma user_range_NoDup k mu ptr len : user_range k mu ptr len → NoDup (vloc mu <$> seqZ ptr len).
Proof.
  intros Hu. apply NoDup_fmap_2_strong; [|apply NoDup_seqZ].
  intros va vb Ha%elem_of_seqZ Hb%elem_of_seqZ [= Ep Eo].
  pose proof (ur_own _ _ _ _ Hu va vb Ha Hb Ep). Z.to_euclidean_division_equations; lia.
Qed.

Lemma take_fmap_seqZ {A} (f : Z → A) buf len n :
  (n ≤ Z.to_nat len)%nat → take n (f <$> seqZ buf len) = f <$> seqZ buf (Z.of_nat n).
Proof.
  intros Hn. rewrite <- fmap_take. f_equal. replace len with (Z.of_nat n + (len - Z.of_nat n)) by lia.
  destruct (decide (n = 0%nat)) as [->|]; [done|]. rewrite seqZ_app by lia. apply take_app_length'. rewrite length_seqZ. lia.
Qed.

(** The buffer of a system call. *)
Lemma user_buffer start k pt mu ptr len :
  represents start k pt mu → user_range k mu ptr len →
  ∃ bufs, translated_byte_buffer (token pt) ptr len k = Ok (bufs, k) ∧
    flatten bufs = vloc mu <$> seqZ ptr len ∧ UserBuffer_len bufs = len ∧
    Forall (slice_ok (mem k)) bufs ∧ NoDup (flatten bufs) ∧
    cells (mem k) (flatten bufs) (vbyte k mu <$> seqZ ptr len) ∧ bytes (vbyte k mu <$> seqZ ptr len).
Proof.
  intros Hrep Hu. destruct (byte_buffer_run start k pt mu ptr len Hrep) as (bufs & E & Hfl & Hall & Hl & _); try apply Hu.
  { intros va Hva. destruct (ur_backed _ _ _ _ Hu va Hva) as (b & Hb & _). by exists b. }
  pose proof (user_range_NoDup _ _ _ _ Hu) as Hnd.
  assert (Hpage : ∀ p page, mem k !! p = Some page → length page = 4096%nat ∧ bytes page)
    by (destruct Hrep as [Hwf _]; apply (pt_kmem _ _ _ Hwf)).
  exists bufs. split; [done|]. split; [done|]. split; [done|]. split; [|split; [by rewrite Hfl|]].
  - apply Forall_forall. intros b Hb. rewrite Forall_forall in Hall. destruct (Hall b Hb) as [Hr Hto]. split; [done|].
    assert (Hin : (sl_ppn b, sl_from b) ∈ vloc mu <$> seqZ ptr len).
    { rewrite <- Hfl. apply list_elem_of_bind. exists b. split; [apply elem_of_locations; simpl; lia|done]. }
    apply list_elem_of_fmap in Hin as (va & [= Ep Eo] & Hva%elem_of_seqZ).
    destruct (ur_backed _ _ _ _ Hu va Hva) as (pte & Hp & page & Epg).
    rewrite (lookup_total_correct _ _ _ Hp) in Ep. exists page. rewrite Ep. split; [done|].
    destruct (Hpage _ _ Epg) as [-> _]. lia.
  - rewrite Hfl.
    assert (Hcell : ∀ va, ptr ≤ va < ptr + len → ∃ page, mem k !! PTE_ppn (mu !!! (va / 4096)) = Some page ∧
      page !! Z.to_nat (va mod 4096) = Some (vbyte k mu va) ∧ bytes page).
    { intros va Hva. destruct (ur_backed _ _ _ _ Hu va Hva) as (pte & Hp & page & Epg).
      destruct (Hpage _ _ Epg) as [Hl' Hby]. rewrite (lookup_total_correct _ _ _ Hp). exists page. split; [done|]. split; [|done].
      unfold vbyte, vloc. rewrite (lookup_total_correct _ _ _ Hp), (lookup_total_correct _ _ _ Epg).
      apply list_lookup_lookup_total_lt. rewrite Hl'. Z.to_euclidean_division_equations; lia. }
    split.
    + apply Forall2_fmap_l, Forall2_fmap_r, Forall_Forall2_diag, Forall_forall. intros va Hva%elem_of_seqZ.
      destruct (Hcell va Hva) as (page & Ep & Eb & _). unfold cell, vloc. simpl. by rewrite Ep.
    + apply Forall_fmap, Forall_forall. intros va Hva%elem_of_seqZ. destruct (Hcell va Hva) as (page & _ & Eb & Hby).
      by apply (Forall_lookup_1 _ _ _ _ Hby Eb).
Qed.

(** ** Stores to user memory *)

Lemma user_range_lengths k k' mu ptr len : same_lengths (mem k) (mem k') → user_range k mu ptr len → user_range k' mu ptr len.
Proof.
  intros Hs [Hp Hl He Hb Ho]. split; [done|done|done| |done]. intros va Hva. destruct (Hb va Hva) as (b & Hm & page & E).
  exists b. split; [done|]. specialize (Hs (PTE_ppn b)). rewrite E in Hs. destruct (mem k' !! PTE_ppn b); [by eexists|done].
Qed.

Lemma user_range_part k mu ptr len ptr' len' :
  ptr ≤ ptr' → 0 ≤ len' → ptr' + len' ≤ ptr + len → user_range k mu ptr len → user_range k mu ptr' len'.
Proof.
  intros H1 H2 H3 [Hp Hl He Hb Ho]. split; [lia|lia|lia|intros; apply Hb; lia|intros va vb ??; apply Ho; lia].
Qed.

(** A physical address as a page and an offset. *)
Definition ploc (pa : Z) : Z * Z := (pa / 4096, pa mod 4096).

Lemma ploc_inj pa pb : ploc pa = ploc pb → pa = pb.
Proof. intros [= Hd Hm]. rewrite (Z.div_mod pa 4096), (Z.div_mod pb 4096) by lia. congruence. Qed.

Lemma cell_insert m p o b page :
  m !! p = Some page → length page = 4096%nat → 0 ≤ o < 4096 →
  cell (<[p := <[Z.to_nat o := b]> page]> m) (p, o) = Some b ∧
  (∀ l, 0 ≤ l.2 → l ≠ (p, o) → cell (<[p := <[Z.to_nat o := b]> page]> m) l = cell m l) ∧
  same_lengths m (<[p := <[Z.to_nat o := b]> page]> m).
Proof.
  intros Hp Hl Ho. unfold cell. split; [|split].
  - cbn [fst snd]. rewrite lookup_insert_eq. cbn. apply list_lookup_insert_eq. lia.
  - intros [p' o'] Ho' Hne. cbn [fst snd] in *. destruct (decide (p' = p)) as [->|Hpp]; [|by rewrite lookup_insert_ne by done].
    rewrite lookup_insert_eq, Hp. cbn. apply list_lookup_insert_ne. intros E. apply Hne. f_equal. lia.
  - intros q. destruct (decide (q = p)) as [->|]; [|by rewrite lookup_insert_ne by done].
    rewrite lookup_insert_eq, Hp. cbn. by rewrite length_insert.
Qed.

(** An assignment through a physical address goes to the pages that follow each
    other in memory. *)
Lemma write_ref_run bs : ∀ pa k,
  (∀ q, pa ≤ q < pa + Z.of_nat (length bs) → ∃ page, mem k !! (q / 4096) = Some page ∧ length page = 4096%nat) →
  ∃ k', write_ref pa bs k = Ok (tt, k') ∧ frames k' = frames k ∧ same_lengths (mem k) (mem k') ∧
    cells (mem k') (ploc <$> seqZ pa (Z.of_nat (length bs))) bs ∧
    ∀ l, 0 ≤ l.2 → l ∉ ploc <$> seqZ pa (Z.of_nat (length bs)) → cell (mem k') l = cell (mem k) l.
Proof.
  induction bs as [|b bs IH]; intros pa k Hpg.
  - exists k. split; [done|]. split; [done|]. split; [done|]. split; [constructor|done].
  - cbn [length] in *. destruct (Hpg pa ltac:(lia)) as (page & Ep & Hl).
    assert (Ho : 0 ≤ pa mod 4096 < 4096) by (by apply Z.mod_pos_bound).
    destruct (cell_insert (mem k) (pa / 4096) (pa mod 4096) b page Ep Hl Ho) as (Hc & Hfr & Hs).
    cbn [write_ref]. unfold get_bytes_array, set_bytes_array, PAGE_SIZE. change 0x1000 with 4096. mstep. rewrite Ep. cbn [unwrap]. mstep.
    rewrite upd_Ok by lia. mstep.
    destruct (IH (pa + 1) (mkKmem (<[pa / 4096 := <[Z.to_nat (pa mod 4096) := b]> page]> (mem k)) (frames k)))
      as (k' & E & Hf & Hs' & Hc' & Hfr').
    { intros q Hq. destruct (Hpg q ltac:(lia)) as (pg & Eq & Hlq). specialize (Hs (q / 4096)). rewrite Eq in Hs. cbn [mem].
      destruct (_ !! (q / 4096)) as [pg'|]; [|done]. injection Hs as Hs. exists pg'. split; [done|lia]. }
    exists k'. split; [exact E|]. cbn [mem frames] in *. split; [done|]. split; [by eapply same_lengths_trans|].
    rewrite (seqZ_cons pa) by lia. replace (Z.pred (Z.of_nat (S (length bs)))) with (Z.of_nat (length bs)) by lia.
    change (Z.succ pa) with (pa + 1). cbn [fmap list_fmap]. split.
    + constructor; [|done]. rewrite Hfr'; [exact Hc|cbn; lia|].
      intros (q & Eq%ploc_inj & Hq%elem_of_seqZ)%list_elem_of_fmap. lia.
    + intros l Hl0 Hn. rewrite not_elem_of_cons in Hn. destruct Hn. by rewrite Hfr', Hfr.
Qed.

(** A store within a page is a store of the slice. *)
Lemma write_ref_slice p o bs k page :
  0 ≤ o → o + Z.of_nat (length bs) ≤ 4096 → mem k !! p = Some page → length page = 4096%nat →
  write_ref (p * 4096 + o) bs k = store_slice (mkSlice p o (o + Z.of_nat (length bs))) bs k.
Proof.
  intros Ho Hl E Hpl. unfold store_slice, get_bytes_array, set_bytes_array. mstep. cbn [sl_ppn sl_from]. rewrite E. cbn [unwrap].
  revert o k page E Hpl Ho Hl. induction bs as [|b bs IH]; intros o k page E Hpl Ho Hl.
  - cbn [write_ref]. mstep. rewrite splice_nil by lia. rewrite insert_id by done. by destruct k.
  - cbn [write_ref length] in *. unfold get_bytes_array, set_bytes_array. mstep. unfold PAGE_SIZE. change 0x1000 with 4096.
    rewrite Z.div_add_l, (Z.div_small o), Z.add_0_r by lia. rewrite (Z.add_comm (p * 4096) o), Z.mod_add, Z.mod_small by lia.
    rewrite E. cbn [unwrap]. rewrite upd_Ok by lia. replace (o + p * 4096 + 1) with (p * 4096 + (o + 1)) by lia.
    rewrite (IH (o + 1) _ (<[Z.to_nat o := b]> page)); cbn [mem frames];
      [|by rewrite lookup_insert_eq|by rewrite length_insert|lia..].
    rewrite insert_insert_eq. replace (Z.to_nat (o + 1)) with (S (Z.to_nat o)) by lia. by rewrite splice_cons by lia.
Qed.

Lemma user_store start k pt mu ptr bs :
  represents start k pt mu → user_range k mu ptr (Z.of_nat (length bs)) → bs ≠ [] → bytes bs →
  ptr mod 4096 + Z.of_nat (length bs) ≤ 4096 → (PTE_ppn (mu !!! (ptr / 4096)) ∉ pt_frames pt) →
  ∃ k', assign_user (token pt) ptr bs k = Ok (tt, k') ∧ represents start k' pt mu ∧
    frames k' = frames k ∧ same_lengths (mem k) (mem k') ∧
    cells (mem k') (vloc mu <$> seqZ ptr (Z.of_nat (length bs))) bs ∧
    ∀ l, 0 ≤ l.2 → l ∉ vloc mu <$> seqZ ptr (Z.of_nat (length bs)) → cell (mem k') l = cell (mem k) l.
Proof.
  intros Hrep Hu Hne Hby Hfit Hpt. assert (Hpos : (0 < length bs)%nat) by (destruct bs; [done|simpl; lia]).
  pose proof (ur_ptr _ _ _ _ Hu). pose proof (ur_end _ _ _ _ Hu).
  assert (Hmod : 0 ≤ ptr mod 4096 < 4096) by (by apply Z.mod_pos_bound).
  pose proof (Z.div_mod ptr 4096 ltac:(lia)) as Hdm.
  destruct (ur_backed _ _ _ _ Hu ptr ltac:(lia)) as (b & Hb & page & Epg).
  assert (Hkm : kmem_wf start k) by (destruct Hrep as [Hwf _]; apply Hwf).
  destruct Hkm as (Hfa & Hin & Hpage). destruct (Hpage _ _ Epg) as [Hpl Hpb].
  rewrite (lookup_total_correct _ _ _ Hb) in Hpt.
  set (sl := mkSlice (PTE_ppn b) (ptr mod 4096) (ptr mod 4096 + Z.of_nat (length bs))).
  assert (Hloc : vloc mu <$> seqZ ptr (Z.of_nat (length bs)) = locations sl).
  { pose proof (vloc_page mu ptr (ptr + Z.of_nat (length bs))) as Hvp.
    replace (ptr + Z.of_nat (length bs) - ptr) with (Z.of_nat (length bs)) in Hvp by lia.
    rewrite Hvp by lia. by rewrite (lookup_total_correct _ _ _ Hb). }
  assert (Hsl : slice_ok (mem k) sl).
  { split; [cbn; lia|]. exists page. split; [done|]. cbn. lia. }
  destruct (store_slice_run k sl Hsl bs) as (k' & Es & Hfr & Hsh & Hc & Hout & page' & Ep' & Em); [unfold sl_len; cbn [sl sl_to sl_from]; lia|].
  cbn in Ep'. rewrite Epg in Ep'. injection Ep' as <-.
  exists k'. rewrite Hloc. split; [|split; [|by split]].
  - unfold assign_user, translated_ref. mstep. rewrite (translate_va_user start k pt mu Hrep ptr b) by (done || lia). cbn [unwrap].
    rewrite (write_ref_slice _ _ bs k page) by (done || lia). exact Es.
  - eapply represents_frame; [exact Hrep| |].
    + replace k' with (mkKmem (<[PTE_ppn b := splice (Z.to_nat (ptr mod 4096)) bs page]> (mem k)) (frames k))
        by (destruct k'; cbn in *; congruence).
      eapply (gr_kmem start). apply grows_write; [by split| |by apply bytes_splice].
      rewrite length_splice; [done|]. lia.
    + intros p Hp. split; [|rewrite Hfr; destruct Hrep as [Hwf _]; by apply (pt_used _ _ _ Hwf)].
      rewrite Em. cbn. apply lookup_insert_ne. by intros <-.
Qed.

(** The calls do not overwrite the page table of the process. *)
Definition outside_table (pt : PageTable) (mu : gmap Z Z) (ptr len : Z) : Prop :=
  ∀ va, ptr ≤ va < ptr + len → PTE_ppn (mu !!! (va / 4096)) ∉ pt_frames pt.

(** Two words next to each other. *)
Lemma store_two start pt mu k ptr x y :
  represents start k pt mu → user_range k mu ptr 16 → outside_table pt mu ptr 16 → ptr mod 8 = 0 →
  ∃ k1 k2, assign_user (token pt) ptr (le_put 8 x) k = Ok (tt, k1) ∧
    assign_user (token pt) (ptr +ᵤ 8) (le_put 8 y) k1 = Ok (tt, k2) ∧
    frames k2 = frames k ∧ same_lengths (mem k) (mem k2) ∧
    cells (mem k2) (vloc mu <$> seqZ ptr 16) (le_put 8 x ++ le_put 8 y) ∧
    ∀ l, 0 ≤ l.2 → l ∉ vloc mu <$> seqZ ptr 16 → cell (mem k2) l = cell (mem k) l.
Proof.
  intros Hrep Hu Hpt Hal. pose proof (ur_ptr _ _ _ _ Hu). pose proof (ur_end _ _ _ _ Hu).
  assert (Hl : ∀ z, Z.of_nat (length (le_put 8 z)) = 8) by (intros z; by rewrite length_le_put).
  assert (Hne : ∀ z, le_put 8 z ≠ []) by (intros z E; specialize (Hl z); rewrite E in Hl; done).
  assert (Hby : ∀ z, bytes (le_put 8 z)) by (intros z; apply le_put_bytes).
  destruct (user_store start k pt mu ptr (le_put 8 x)) as (k1 & E1 & Hrep1 & Hf1 & Hs1 & Hc1 & Ho1); try done; rewrite ?Hl.
  { eapply (user_range_part _ _ ptr 16); [lia..|exact Hu]. }
  { Z.to_euclidean_division_equations; lia. }
  { apply Hpt. lia. }
  rewrite Hl in Hc1, Ho1.
  assert (Hu1 : user_range k1 mu (ptr + 8) 8).
  { eapply (user_range_part _ _ ptr 16); [lia..|]. by eapply user_range_lengths. }
  destruct (user_store start k1 pt mu (ptr + 8) (le_put 8 y)) as (k2 & E2 & _ & Hf2 & Hs2 & Hc2 & Ho2); try done; rewrite ?Hl.
  { Z.to_euclidean_division_equations; lia. }
  { apply Hpt. lia. }
  rewrite Hl in Hc2, Ho2.
  assert (Esq : vloc mu <$> seqZ ptr 16 = (vloc mu <$> seqZ ptr 8) ++ (vloc mu <$> seqZ (ptr + 8) 8)).
  { rewrite <- fmap_app, <- seqZ_app by lia. done. }
  pose proof (user_range_NoDup _ _ _ _ Hu) as Hnd. rewrite Esq in Hnd |- *. apply NoDup_app in Hnd as (_ & Hdis & _).
  exists k1, k2. rewrite u64_small by lia. split; [done|]. split; [done|]. split; [congruence|]. split; [by eapply same_lengths_trans|].
  split.
  - apply cells_app; [|done]. eapply cells_frame; [|exact Hc1]. intros l Hin. apply Ho2; [|by apply Hdis].
    apply list_elem_of_fmap in Hin as (va & -> & _). cbn. apply Z.mod_pos_bound. lia.
  - intros l Hl0 Hn. rewrite not_elem_of_app in Hn. destruct Hn. by rewrite Ho2, Ho1.
Qed.

Lemma hi_range k len : mem k !! 10 = Some hi_page → 0 ≤ len ≤ 4096 → user_range k hi_mu 0x10000 len.
Proof.
  intros Hpg Hl. assert (Hp : ∀ va, 0x10000 ≤ va < 0x10000 + len → va / 4096 = 0x10)
    by (intros va Hva; Z.to_euclidean_division_equations; lia).
  split; [lia|lia|lia| |intros va vb Ha Hb _; by rewrite !Hp].
  intros va Hva. exists hi_pte. rewrite Hp by done. split; [apply lookup_insert_eq|by exists hi_page].
Qed.
