(* ===== verification/FilesSpec.v ===== *)
(** * What open files promise (os/src/fs/inode.rs)

    Reading, writing and opening files, over the theorems about the inodes of
    easy-fs and about user buffers. *)

From S2P Require Import Prelude Bytes BlockStore BlockCache BlockFile Bitmap Layout Inode.
From S2P Require Import InodeSpec InodeData Efs Vfs VfsSpec FrameAlloc UserMem Files UserRange.

(** ** Running over the disk and memory *)

(** [fruns m v k a v' k']: from any well-formed store with view [v] where no block
    is held, and memory [k], [m] returns [a], with view [v'] and memory [k']. *)
Definition fruns {St} `{BlockStore St} {A} (m : M (fstate St) A) (v : gmap Z (list Z)) (k : kmem)
    (a : A) (v' : gmap Z (list Z)) (k' : kmem) : Prop :=
  ∀ s, store_wf (disk s) → view (disk s) = v → held (disk s) = ∅ → ram s = k →
    ∃ s', m s = Ok (a, s') ∧ store_wf (disk s') ∧ view (disk s') = v' ∧ held (disk s') = ∅ ∧ ram s' = k'.

Section reading.
Context {St : Type} `{HS : BlockStore St, HL : !BlockStoreLaws St}.

Lemma fruns_ret {A} v k (a : A) : fruns (St:=St) (mret a) v k a v k.
Proof. intros s ????. by exists s. Qed.

Lemma fruns_bind {A B} (m : M (fstate St) A) (f : A → M (fstate St) B) v k a v1 k1 b v2 k2 :
  fruns m v k a v1 k1 → fruns (f a) v1 k1 b v2 k2 → fruns (m ≫= f) v k b v2 k2.
Proof.
  intros Hm Hf s Hw Hv Hh Hk. destruct (Hm s Hw Hv Hh Hk) as (s1 & E & Hw1 & Hv1 & Hh1 & Hk1).
  destruct (Hf s1 Hw1 Hv1 Hh1 Hk1) as (s2 & E2 & ? & ? & ? & ?). exists s2. mstep. by rewrite E.
Qed.

Lemma fruns_disk {A} (m : M St A) v k a v' : runs m v ∅ a v' → fruns (on_disk m) v k a v' k.
Proof.
  intros Hm [d r] Hw Hv Hh Hk. simpl in *. destruct (Hm d Hw Hv Hh) as (d' & E & ? & ? & ?).
  exists (mkF d' r). unfold on_disk. mstep. simpl. by rewrite E.
Qed.

Lemma fruns_ram {A} (m : M kmem A) v k a k' : m k = Ok (a, k') → fruns (St:=St) (on_ram m) v k a v k'.
Proof.
  intros Hm [d r] Hw Hv Hh Hk. simpl in *. subst r. exists (mkF d k'). unfold on_ram. mstep. simpl. by rewrite Hm.
Qed.

Lemma fruns_lift {A} (r : result A) v k a : r = Ok a → fruns (St:=St) (lift r) v k a v k.
Proof. intros -> s ????. by exists s. Qed.

(** ** Reading *)

Lemma take_app_split {A} (l k : list A) m n :
  (m ≤ length l)%nat → n = 0%nat ∨ m = length l → take (m + n) (l ++ k) = take m l ++ take n k.
Proof.
  intros Hm [-> | ->].
  - rewrite Nat.add_0_r, take_0, app_nil_r. by apply take_app_le.
  - by rewrite take_app_add, firstn_all.
Qed.

Lemma read_content di v p n :
  view_ok v → inode_wf di v → (n ≤ Z.to_nat (di_size di) - p)%nat →
  slice p n (all_bytes di v) = slice p n (content di v) ∧ length (slice p n (content di v)) = n.
Proof.
  intros Hv Hwf Hn. destruct (decide (n = 0%nat)) as [->|]; [done|]. split.
  - symmetry. apply slice_content; [done..|lia].
  - apply length_slice. rewrite length_content by done. lia.
Qed.

Lemma read_slices_run ino v di buf : ∀ off total k,
  inode_at ino v di → view_ok v → 0 ≤ off → 0 ≤ total → total + Z.of_nat (length (flatten buf)) < 2 ^ 64 →
  off + Z.of_nat (length (flatten buf)) < 2 ^ 64 →
  Forall (slice_ok (mem k)) buf → NoDup (flatten buf) →
  let n := Nat.min (length (flatten buf)) (Z.to_nat (di_size di) - Z.to_nat off) in
  ∃ k', fruns (St:=St) (read_slices ino buf off total) v k (off + Z.of_nat n, total + Z.of_nat n) v k' ∧
    frames k' = frames k ∧ same_lengths (mem k) (mem k') ∧
    cells (mem k') (take n (flatten buf)) (slice (Z.to_nat off) n (content di v)) ∧
    (∀ l, 0 ≤ l.2 → l ∉ take n (flatten buf) → cell (mem k') l = cell (mem k) l).
Proof.
  induction buf as [|b buf IH]; intros off total k Hat Hv Ho Ht Htm Hom Hok Hnd.
  { exists k. simpl. rewrite !Z.add_0_r. split; [apply fruns_ret|]. split; [done|]. split; [done|]. split; [constructor|done]. }
  apply Forall_cons in Hok as [Hb Hok]. change (flatten (b :: buf)) with (locations b ++ flatten buf) in *.
  rewrite length_app, length_locations in *. intros n. apply NoDup_app in Hnd as (_ & Hdis & Hnd).
  assert (Hsl : 0 < sl_len b) by (destruct Hb as [? _]; unfold sl_len; lia).
  destruct (load_slice_run k b Hb) as (bs & El & Hl & _).
  pose proof (file_read_run (St:=St) ino v di off bs Hat Ho ltac:(lia)) as Hr. cbv zeta in Hr. rewrite Hl in Hr.
  set (m := Nat.min (Z.to_nat (sl_len b)) (Z.to_nat (di_size di) - Z.to_nat off)) in *.
  destruct (read_content di v (Z.to_nat off) m Hv (ia_wf _ _ _ Hat) ltac:(lia)) as [Ec Hnew]. rewrite Ec in Hr.
  set (new := slice (Z.to_nat off) m (content di v)) in *.
  destruct (store_prefix k b Hb bs new El ltac:(lia)) as (k1 & Es & Ef & Hsh & Hc & Hfr). rewrite Hnew in Hc, Hfr.
  destruct (Z.eqb_spec (Z.of_nat m) 0) as [Hm|Hm].
  - assert (Em : m = 0%nat) by lia. replace n with 0%nat by lia. exists k1. rewrite take_0, !Z.add_0_r.
    split; [|split; [done|]; split; [done|]; split; [constructor|];
      intros l Hl0 _; apply Hfr; [done|rewrite Em, take_0; apply not_elem_of_nil]].
    cbn [read_slices]. eapply fruns_bind; [by apply fruns_ram|]. eapply fruns_bind; [by apply fruns_disk|]. cbv iota beta.
    eapply fruns_bind; [by apply fruns_ram|]. rewrite Em. apply fruns_ret.
  - destruct (IH (off + Z.of_nat m) (total + Z.of_nat m) k1 Hat Hv) as (k2 & Hrun & Ef2 & Hsh2 & Hc2 & Hfr2); try lia.
    { eapply Forall_impl; [exact Hok|]. intros b'. by apply slice_ok_lengths. }
    { done. }
    set (n2 := Nat.min (length (flatten buf)) _) in *. assert (En : n = (m + n2)%nat) by lia.
    pose proof (take_app_split (locations b) (flatten buf) m n2 ltac:(rewrite length_locations; lia)
      ltac:(rewrite length_locations; lia)) as Etake. rewrite <- En in Etake.
    rewrite Etake, En, <- slice_app, Nat2Z.inj_add, !Z.add_assoc. exists k2. split; [|split; [congruence|]; split; [by eapply same_lengths_trans|]; split].
    + cbn [read_slices]. eapply fruns_bind; [by apply fruns_ram|]. eapply fruns_bind; [by apply fruns_disk|]. cbv iota beta.
      eapply fruns_bind; [by apply fruns_ram|]. rewrite (proj2 (Z.eqb_neq _ _)) by done. rewrite !u64_small by lia. exact Hrun.
    + apply cells_app.
      * eapply cells_frame; [|exact Hc]. intros l (i & Hi & _)%elem_of_take. apply list_elem_of_lookup_2 in Hi.
        apply Hfr2; [apply elem_of_locations in Hi; destruct Hb; lia|].
        intros (i' & Hi' & _)%elem_of_take. apply list_elem_of_lookup_2 in Hi'. by apply (Hdis l).
      * by rewrite Z2Nat.inj_add, Nat2Z.id in Hc2 by lia.
    + intros l Hl0 Hn. rewrite not_elem_of_app in Hn. destruct Hn. rewrite Hfr2, Hfr by done. done.
Qed.

(** The whole rest of the file; every turn but the last reads up to 512 bytes. *)
Lemma read_all_loop_run ino v di fuel : ∀ off buffer acc,
  inode_at ino v di → view_ok v → 0 ≤ off → off + 512 < 2 ^ 64 → length buffer = 512%nat →
  let rem := (Z.to_nat (di_size di) - Z.to_nat off)%nat in
  (rem + 512 ≤ fuel * 512)%nat →
  runs (read_all_loop (St:=St) fuel ino off buffer acc) v ∅
    (off + Z.of_nat rem, acc ++ slice (Z.to_nat off) rem (content di v)) v.
Proof.
  induction fuel as [|fuel IH]; intros off buffer acc Hat Hv Ho Hov Hb rem Hfuel; [lia|].
  pose proof (file_read_run (St:=St) ino v di off buffer Hat Ho) as Hr. cbv zeta in Hr.
  destruct (ia_wf _ _ _ Hat) as ((Hu & _) & _). unfold is_u32 in Hu. rewrite Hb in Hr. specialize (Hr ltac:(lia)).
  fold rem in Hr. set (m := Nat.min 512 rem) in *.
  destruct (read_content di v (Z.to_nat off) m Hv (ia_wf _ _ _ Hat) ltac:(lia)) as [Ec Hnew]. rewrite Ec in Hr.
  set (new := slice (Z.to_nat off) m (content di v)) in *.
  cbn [read_all_loop]. eapply runs_bind; [exact Hr|]. cbv iota beta.
  destruct (Z.eqb_spec (Z.of_nat m) 0) as [Hm|Hm].
  - replace rem with 0%nat by lia. rewrite Z.add_0_r. unfold slice. rewrite take_0, app_nil_r. apply runs_ret.
  - rewrite u64_small, Nat2Z.id by lia. assert (Etk : take m (splice 0 new buffer) = new).
    { unfold splice. rewrite take_0. cbn [app]. by apply take_app_length'. }
    rewrite Etk. pose proof (IH (off + Z.of_nat m) (splice 0 new buffer) (acc ++ new) Hat Hv) as IH'. cbv zeta in IH'.
    replace (Z.to_nat (off + Z.of_nat m)) with (Z.to_nat off + m)%nat in IH' by lia.
    set (rem' := (Z.to_nat (di_size di) - (Z.to_nat off + m))%nat) in *.
    assert (Erem : rem = (m + rem')%nat) by lia.
    rewrite Erem, <- slice_app, app_assoc. fold new.
    replace (off + Z.of_nat (m + rem')) with (off + Z.of_nat m + Z.of_nat rem') by lia.
    apply IH'; [lia..| |lia]. rewrite length_splice by lia. done.
Qed.
End reading.

(** ** Writing *)

Lemma file_changed_refl efs ino v di : disk_ok efs v → file_at efs ino v di → file_changed efs ino v di v di.
Proof.
  intros Hd Hf. pose proof (fa_at _ _ _ _ Hf) as Hat. split; try done.
  - by left.
  - intros k Hk. case_bool_decide as Hin; [|by rewrite orb_false_r].
    destruct (fa_alloc _ _ _ _ Hf _ Hin) as (_ & Hb & _). replace (_ + k - _) with k in Hb by lia. by rewrite Hb.
  - destruct (ia_block _ _ _ Hat) as [blk E]. pose proof (ia_offset _ _ _ Hat) as Ho.
    destruct (dk_view _ _ Hd _ _ E) as [Hl _]. rewrite (lookup_total_correct _ _ _ E).
    assert ((Z.to_nat (block_offset ino) + DiskInode_SZ ≤ length blk)%nat) by (rewrite Hl; unfold DiskInode_SZ, BLOCK_SZ; lia).
    exists (slice (Z.to_nat (block_offset ino)) DiskInode_SZ blk).
    split; [by apply length_slice|by rewrite splice_slice].
Qed.

Lemma file_changed_trans efs ino v di v1 di1 v2 di2 :
  disk_ok efs v → file_at efs ino v di →
  file_changed efs ino v di v1 di1 → file_changed efs ino v1 di1 v2 di2 → file_changed efs ino v di v2 di2.
Proof.
  intros Hd Hf [F1 D1 T1 O1 N1 B1 R1 (n1 & L1 & E1)] [F2 D2 T2 O2 N2 B2 R2 (n2 & L2 & E2)].
  split; [done|done|congruence|by eauto|..].
  - intros b Hb. destruct (fa_alloc _ _ _ _ F2 b Hb) as (Hr & _). destruct (N2 b Hb) as [|Hfree]; [by apply N1|]. right.
    rewrite B1 in Hfree by done. by apply orb_false_iff in Hfree as [? _].
  - intros k Hk. rewrite B2, B1, <- orb_assoc by done. f_equal.
    case_bool_decide as H1; [|done]. by rewrite bool_decide_true by auto.
  - intros b Hb1 Hb2 Hb3. rewrite R2 by done. apply R1; [done..|]. intros Hin. by apply Hb3, O2.
  - exists n2. split; [done|]. rewrite E2, E1. apply splice_splice; [congruence|].
    pose proof (fa_at _ _ _ _ Hf) as Hat. destruct (ia_block _ _ _ Hat) as [blk E].
    destruct (dk_view _ _ Hd _ _ E) as [Hl _]. rewrite (lookup_total_correct _ _ _ E), Hl, L2.
    pose proof (ia_offset _ _ _ Hat). unfold DiskInode_SZ, BLOCK_SZ. lia.
Qed.

Lemma filter_drop_take {A} `{EqDecision A} (l : list A) n : NoDup l → filter (λ x, x ∉ take n l) l = drop n l.
Proof.
  revert n. induction l as [|x l IH]; intros [|n] Hnd; [done|done| |].
  - rewrite drop_0. apply filter_all. intros y _. apply not_elem_of_nil.
  - apply NoDup_cons in Hnd as [Hx Hnd]. cbn [take drop]. rewrite filter_cons_False by (intros []; apply list_elem_of_here).
    rewrite <- (IH n Hnd). apply filter_ext_in. intros y Hy. rewrite not_elem_of_cons. split; [by intros []|].
    intros Hn. split; [by intros ->|done].
Qed.

(** A write leaves the free blocks it has not taken. *)
Lemma available_after efs ino v di v1 di1 n1 n2 :
  disk_ok efs v → file_at efs ino v di → file_changed efs ino v di v1 di1 →
  (∀ b, b ∈ all_ids di1 v1 ↔ b ∈ all_ids di v ∨ ∃ k, b = data_area_start_block efs + k ∧ k ∈ take n1 (free_bits (data_bitmap efs) v)) →
  available efs v (n1 + n2) → available efs v1 n2.
Proof.
  intros Hd Hf Hch Hids [Hlen Hav].
  assert (Efree : free_bits (data_bitmap efs) v1 = drop n1 (free_bits (data_bitmap efs) v)).
  { rewrite <- filter_drop_take by apply NoDup_free_bits. set (T := take n1 _) in *. clearbody T.
    unfold free_bits. rewrite list_filter_filter.
    apply filter_ext_in. intros k Hk%elem_of_seqZ. rewrite (fc_bits _ _ _ _ _ _ Hch) by lia. rewrite orb_false_iff, bool_decide_eq_false.
    split.
    - intros [Hb Hn]. split; [|done]. intros Hin. apply Hn, Hids. right. by exists k.
    - intros [Hn Hb]. split; [done|]. intros [Hin|(k' & E & Hin)]%Hids.
      + destruct (fa_alloc _ _ _ _ Hf _ Hin) as (_ & Hb' & _). replace (_ + k - _) with k in Hb' by lia. congruence.
      + apply Hn. by replace k with k' by lia. }
  split; [rewrite Efree, length_drop; lia|]. rewrite Efree. intros k Hk.
  assert (Hk' : k ∈ take (n1 + n2) (free_bits (data_bitmap efs) v)).
  { rewrite <- take_take_drop. apply elem_of_app. by right. }
  destruct (Hav k Hk') as [Hu Hs]. split; [done|].
  rewrite <- Efree in Hk. apply elem_of_take in Hk as (i & Hk%list_elem_of_lookup_2 & _). apply elem_of_free_bits in Hk as [Hr Hb].
  rewrite (fc_frame _ _ _ _ _ _ Hch); [done|..].
  - pose proof (fa_block _ _ _ _ Hf). pose proof (disk_start efs v Hd). pose proof (dk_area _ _ Hd).
    destruct (dk_bm _ _ Hd) as (? & ? & _). lia.
  - apply (data_not_bm efs v); [done|lia].
  - intros Hin. rewrite (fc_bits _ _ _ _ _ _ Hch) in Hb by done. by rewrite bool_decide_true, orb_true_r in Hb.
Qed.

(** The end of a file of [size] bytes after [n] bytes have been written at [off]. *)
Definition end_after (size off : Z) (n : nat) : Z :=
  match n with O => size | S _ => Z.max size (off + Z.of_nat n) end.

(** [bs] has been written at [off]: it is there, and the other bytes are as they were. *)
Record written (v : gmap Z (list Z)) (di : DiskInode) (off : Z) (bs : list Z)
    (v' : gmap Z (list Z)) (di' : DiskInode) : Prop := {
  wr_size : di_size di' = end_after (di_size di) off (length bs);
  wr_back : slice (Z.to_nat off) (length bs) (content di' v') = bs;
  wr_old i : (i < Z.to_nat (di_size di))%nat → ¬ (off ≤ Z.of_nat i < off + Z.of_nat (length bs)) →
    content di' v' !! i = content di v !! i;
}.

Lemma written_app v di off bs1 v1 di1 bs2 v2 di2 :
  0 ≤ off → 0 ≤ di_size di → written v di off bs1 v1 di1 → written v1 di1 (off + Z.of_nat (length bs1)) bs2 v2 di2 →
  written v di off (bs1 ++ bs2) v2 di2.
Proof.
  intros Ho Hs [S1 B1 O1] [S2 B2 O2]. unfold end_after in S1, S2. assert (Hsz : di_size di ≤ di_size di1) by (destruct (length bs1); lia).
  split; rewrite length_app.
  - rewrite S2, S1. unfold end_after. destruct (length bs1), (length bs2); cbn [Nat.add]; lia.
  - rewrite <- slice_app. replace (Z.to_nat off + length bs1)%nat with (Z.to_nat (off + Z.of_nat (length bs1))) by lia.
    rewrite B2. f_equal. rewrite <- B1 at 2. apply list_eq. intros i. rewrite !lookup_slice. case_decide; [|done].
    apply O2; [|lia]. destruct (length bs1); lia.
  - intros i Hi Hout. rewrite O2, O1 by lia. done.
Qed.

Lemma blocks_for_add di s1 s2 :
  0 ≤ di_size di ≤ s1 → s1 ≤ s2 → s2 ≤ MAX_SIZE →
  blocks_for di s2 = (blocks_for di s1 + Z.to_nat (total_blocks s2 - total_blocks s1))%nat.
Proof.
  intros H1 H2 H3. unfold blocks_for. rewrite !total_blocks_nall by lia.
  pose proof (data_blocks_mono (di_size di) s1 ltac:(lia) ltac:(lia)). pose proof (data_blocks_mono s1 s2 ltac:(lia) H3).
  pose proof (nall_mono (Z.to_nat (_data_blocks (di_size di))) (Z.to_nat (_data_blocks s1)) ltac:(lia)).
  pose proof (nall_mono (Z.to_nat (_data_blocks s1)) (Z.to_nat (_data_blocks s2)) ltac:(lia)). lia.
Qed.

Lemma bytes_app_inv l1 l2 : bytes (l1 ++ l2) → bytes l1 ∧ bytes l2.
Proof. apply Forall_app. Qed.

Section writing.
Context {St : Type} `{HS : BlockStore St, HL : !BlockStoreLaws St}.
Context (efs : EasyFileSystem) (ino : Inode) (k : kmem).

(** One slice. *)
Lemma write_slice_run v di off bs :
  disk_ok efs v → file_at efs ino v di → 0 ≤ off → bs ≠ [] → bytes bs → off + Z.of_nat (length bs) ≤ MAX_SIZE →
  ∀ n2, available efs v (blocks_for di (end_after (di_size di) off (length bs)) + n2) →
  ∃ v' di', runs (Inode_write_at (St:=St) efs ino off bs) v ∅ (Z.of_nat (length bs)) v' ∧
    file_changed efs ino v di v' di' ∧ written v di off bs v' di' ∧ available efs v' n2.
Proof.
  intros Hd Hf Ho Hne Hb Hmax n2 Hav. assert (Eend : end_after (di_size di) off (length bs) = Z.max (di_size di) (off + Z.of_nat (length bs)))
    by (by destruct bs). rewrite Eend in Hav. set (n1 := blocks_for _ _) in Hav.
  assert (Hav1 : available efs v n1).
  { destruct Hav as [Hl Hk]. split; [lia|]. intros x Hx. apply Hk. rewrite <- take_take_drop. apply elem_of_app. by left. }
  destruct (file_write_run (St:=St) efs ino v di off bs Hd Hf Ho Hne Hb Hmax Hav1) as (v' & di' & v2 & Hrun%settles_runs & Hch & Hg & Eb & Ei).
  exists v', di'. split; [done|]. split; [done|].
  destruct (written_content di v di' v2 off bs _ efs Hg Ho (ia_wf _ _ _ (fa_at _ _ _ _ Hf)) (dk_view _ _ Hd)) as [Hback Hold].
  assert (Ec : content di' v' = content di' v2) by (unfold content; by rewrite Eb). split.
  - split; rewrite ?Ec; [by rewrite (gw_size _ _ _ _ _ _ _ _ Hg)|done|done].
  - apply (available_after efs ino v di v' di' n1 n2 Hd Hf Hch); [|done]. rewrite Ei.
    intros b. by eapply grew_elem.
Qed.

Lemma write_slices_run buf : ∀ v di off total bs,
  disk_ok efs v → file_at efs ino v di → 0 ≤ off → 0 ≤ total → total + Z.of_nat (length bs) < 2 ^ 64 →
  Forall (slice_ok (mem k)) buf → cells (mem k) (flatten buf) bs → bytes bs →
  off + Z.of_nat (length bs) ≤ MAX_SIZE → available efs v (blocks_for di (end_after (di_size di) off (length bs))) →
  ∃ v' di', fruns (St:=St) (write_slices efs ino buf off total) v k
      (off + Z.of_nat (length bs), total + Z.of_nat (length bs)) v' k ∧
    file_changed efs ino v di v' di' ∧ written v di off bs v' di'.
Proof.
  induction buf as [|b buf IH]; intros v di off total bs Hd Hf Ho Ht Htm Hok Hc Hb Hmax Hav.
  { apply Forall2_nil_inv_l in Hc as ->. exists v, di. simpl. rewrite !Z.add_0_r. split; [apply fruns_ret|].
    split; [by apply file_changed_refl|]. split; [done|done|done]. }
  apply Forall_cons in Hok as [Hsb Hok].
  assert (Hsl : 0 < sl_len b) by (destruct Hsb as [? _]; unfold sl_len; lia).
  destruct (load_slice_run k b Hsb) as (bs1 & El & Hl1 & Hc1 & _).
  apply Forall2_app_inv_l in Hc as (bs1' & bs2 & Hc1' & Hc2 & ->).
  pose proof (cells_eq _ _ _ _ Hc1' Hc1) as ->. apply bytes_app_inv in Hb as [Hb1 Hb2]. rewrite length_app, Nat2Z.inj_add in *.
  assert (Hne : bs1 ≠ []) by (intros ->; simpl in Hl1; lia).
  destruct (ia_wf _ _ _ (fa_at _ _ _ _ Hf)) as ((Hu & _) & Hms & _). unfold is_u32 in Hu. fold MAX_SIZE in Hms.
  assert (Hpos : (0 < length bs1)%nat) by lia.
  assert (Eend : end_after (di_size di) off (length bs1 + length bs2) =
    end_after (end_after (di_size di) off (length bs1)) (off + Z.of_nat (length bs1)) (length bs2)).
  { unfold end_after. destruct (length bs1); [lia|]. destruct (length bs2); cbn [Nat.add]; lia. }
  set (s1 := end_after (di_size di) off (length bs1)) in *.
  set (s2 := end_after s1 (off + Z.of_nat (length bs1)) (length bs2)) in *.
  assert (Hs : di_size di ≤ s1 ≤ s2 ∧ s2 ≤ MAX_SIZE).
  { unfold s2, s1, end_after. destruct (length bs1) eqn:?, (length bs2) eqn:?; lia. }
  rewrite Eend, (blocks_for_add di s1 s2) in Hav by lia.
  destruct (write_slice_run v di off bs1 Hd Hf Ho Hne Hb1 ltac:(lia) _ Hav) as (v1 & di1 & Hrun1 & Hch1 & Hw1 & Hav1).
  destruct (IH v1 di1 (off + Z.of_nat (length bs1)) (total + Z.of_nat (length bs1)) bs2
    (fc_disk _ _ _ _ _ _ Hch1) (fc_file _ _ _ _ _ _ Hch1)) as (v2 & di2 & Hrun2 & Hch2 & Hw2); try lia; try done.
  { unfold blocks_for. by rewrite (wr_size _ _ _ _ _ _ Hw1). }
  exists v2, di2. split; [|split; [by eapply file_changed_trans|apply (written_app v di off bs1 v1 di1); [lia..|done|done]]].
  unfold MAX_SIZE, INDIRECT2_BOUND, BSZ in Hmax.
  cbn [write_slices]. eapply fruns_bind; [by apply fruns_ram|]. eapply fruns_bind; [by apply fruns_disk|].
  eapply fruns_bind; [apply fruns_lift; by rewrite Z.eqb_refl|]. rewrite !u64_small, !Z.add_assoc by lia. exact Hrun2.
Qed.
End writing.

(** ** Truncating and opening *)

Lemma clear_file_run {St} `{HS : BlockStore St, HL : !BlockStoreLaws St} efs ino v di :
  disk_ok efs v → file_at efs ino v di →
  ∃ v' di', runs (Inode_clear (St:=St) efs ino) v ∅ tt v' ∧ disk_ok efs v' ∧ file_at efs ino v' di' ∧
    di_size di' = 0 ∧ type_ di' = type_ di ∧ confined efs ino (all_ids di v) v v' ∧
    ∀ k, 0 ≤ k < maximum (data_bitmap efs) →
      bit (data_bitmap efs) v' k = (bit (data_bitmap efs) v k && bool_decide (data_area_start_block efs + k ∉ all_ids di v)).
Proof.
  intros Hd Hf. pose proof (fa_at _ _ _ _ Hf) as Hat. pose proof (dk_bm _ _ Hd) as Hbm. pose proof (inode_not_bm efs ino v di Hf) as Hnb.
  destruct (clear_run (St:=St) efs ino v di (dk_view _ _ Hd) Hat Hbm (disk_start _ _ Hd) Hnb (fa_alloc _ _ _ _ Hf))
    as (vf & di' & new & Hrun & Hfr & Hvf & Hbf & Hnl & Hnby & Hat' & Hs' & Ht').
  set (v' := <[block_id ino := _]> vf) in *.
  assert (Hbit : ∀ k, 0 ≤ k < maximum (data_bitmap efs) → bit (data_bitmap efs) v' k = bit (data_bitmap efs) vf k).
  { intros k Hk. apply bit_ext, lookup_insert_ne. intros Eb. apply Hnb. rewrite Eb. apply block_of_range.
    by rewrite <- (bm_ok_maximum _ _ Hbm). }
  exists v', di'. split; [done|]. split; [|split; [|split; [done|split; [done|split]]]].
  - destruct (ia_block _ _ _ Hat) as [blk E]. destruct (dk_view _ _ Hd _ _ E) as [Hl Hb].
    pose proof (ia_offset _ _ _ Hat) as Ho. split; [| |apply Hd].
    + intros b blk'. unfold v'. rewrite (lookup_total_correct _ _ _ E), lookup_insert_Some.
      intros [[_ <-]|[_ ?]]; [|by apply (Hvf b)].
      rewrite length_splice by (rewrite Hnl, Hl; unfold DiskInode_SZ, BLOCK_SZ; lia). split; [done|by apply bytes_splice].
    + destruct Hbf as (? & ? & ? & Hp). split; [done|]. split; [done|]. split; [done|]. intros b Hbb.
      unfold v'. rewrite lookup_insert_ne; [by apply Hp|]. by intros <-.
  - split; [done|apply Hf|]. rewrite empty_inode_ids by done. by intros b ?%not_elem_of_nil.
  - split.
    + exists new. split; [done|apply lookup_insert_eq].
    + intros b Hb Hnbb Hn. unfold v'. rewrite lookup_insert_ne by done. by apply (freed_frame _ _ _ _ Hfr).
    + intros k Hk Hn Hb. by rewrite Hbit, (freed_bits _ _ _ _ Hfr), Hb, bool_decide_true by done.
    + intros b Hb. by apply (allocated_data efs v), (fa_alloc _ _ _ _ Hf).
  - intros k Hk. rewrite Hbit by done. by apply (freed_bits _ _ _ _ Hfr).
Qed.

Lemma contains_bit flags n : 0 ≤ n → contains flags (Z.shiftl 1 n) = Z.testbit flags n.
Proof.
  intros Hn. unfold contains. rewrite Z.shiftl_1_l. destruct (Z.testbit flags n) eqn:E.
  - apply Z.eqb_eq, Z.bits_inj'. intros m Hm. rewrite Z.land_spec, Z.pow2_bits_eqb by done.
    destruct (Z.eqb_spec n m) as [<-|]; [by rewrite E|apply andb_false_r].
  - apply Z.eqb_neq. intros H. apply (f_equal (λ x, Z.testbit x n)) in H.
    rewrite Z.land_spec, Z.pow2_bits_true, E in H by done. done.
Qed.

Lemma read_write_bits flags : read_write flags = (negb (Z.testbit flags 0), negb (flags =? 0)).
Proof.
  unfold read_write. destruct (Z.eqb_spec flags 0) as [->|]; [done|]. unfold OpenFlags_WRONLY.
  rewrite contains_bit by done. by destruct (Z.testbit flags 0).
Qed.

Lemma os_read_run {St} `{HS : BlockStore St, HL : !BlockStoreLaws St} o v di :
  inode_at (inode o) v di → view_ok v → 0 ≤ offset o →
  (∀ buf k, offset o + Z.of_nat (length (flatten buf)) < 2 ^ 64 →
    Forall (slice_ok (mem k)) buf → NoDup (flatten buf) →
    let n := Nat.min (length (flatten buf)) (Z.to_nat (di_size di) - Z.to_nat (offset o)) in
    ∃ k', fruns (St:=St) (OSInode_read o buf) v k (Z.of_nat n, set_offset (offset o + Z.of_nat n) o) v k' ∧
      frames k' = frames k ∧ same_lengths (mem k) (mem k') ∧
      cells (mem k') (take n (flatten buf)) (slice (Z.to_nat (offset o)) n (content di v)) ∧
      ∀ l, 0 ≤ l.2 → l ∉ take n (flatten buf) → cell (mem k') l = cell (mem k) l) ∧
  (offset o ≤ di_size di →
    runs (read_all (St:=St) o) v ∅ (drop (Z.to_nat (offset o)) (content di v), set_offset (di_size di) o) v).
Proof.
  intros Hat Hv Ho. split.
  - intros buf k Hov Hok Hnd n.
    destruct (read_slices_run (St:=St) (inode o) v di buf (offset o) 0 k Hat Hv Ho) as (k' & Hrun & Hrest); try lia; try done.
    exists k'. split; [|exact Hrest]. unfold OSInode_read. eapply fruns_bind; [exact Hrun|]. apply fruns_ret.
  - intros Hsz. pose proof (length_content di v Hv (ia_wf _ _ _ Hat)) as Hlen.
    destruct (ia_wf _ _ _ Hat) as (_ & Hm & _). fold MAX_SIZE in Hm.
    assert (Hmax : MAX_SIZE = 8468480) by reflexivity.
    pose proof (read_all_loop_run (St:=St) (inode o) v di (Z.to_nat (MAX_SIZE / 512 + 2)) (offset o) (replicate 512 0) [] Hat Hv Ho) as Hrun.
    cbv zeta in Hrun. unfold slice in Hrun. rewrite take_ge in Hrun by (rewrite length_drop; lia).
    replace (offset o + Z.of_nat _) with (di_size di) in Hrun by lia. unfold read_all.
    eapply runs_bind; [apply Hrun|apply runs_ret]; [lia|apply length_replicate|].
    assert (Hq : MAX_SIZE / 512 = 16540) by reflexivity. lia.
Qed.

(** Reading an open file puts the bytes from its offset on into the user
    buffer, slice after slice, as many as the buffer has room for and the file
    has; it returns their number and moves the offset behind them.  No other
    byte of memory changes, and nothing on the disk.  [read_all] returns
    everything from the offset to the end of the file. *)
Theorem os_read_spec {St} `{HS : BlockStore St, HL : !BlockStoreLaws St} o v di :
  inode_at (inode o) v di → view_ok v → 0 ≤ offset o →
  (∀ buf k, offset o + Z.of_nat (length (flatten buf)) < 2 ^ 64 →
    Forall (slice_ok (mem k)) buf → NoDup (flatten buf) →
    let n := Nat.min (length (flatten buf)) (Z.to_nat (di_size di) - Z.to_nat (offset o)) in
    ∃ k', fruns (St:=St) (OSInode_read o buf) v k (Z.of_nat n, set_offset (offset o + Z.of_nat n) o) v k' ∧
      frames k' = frames k ∧ same_lengths (mem k) (mem k') ∧
      cells (mem k') (take n (flatten buf)) (slice (Z.to_nat (offset o)) n (content di v)) ∧
      ∀ l, 0 ≤ l.2 → l ∉ take n (flatten buf) → cell (mem k') l = cell (mem k) l) ∧
  (offset o ≤ di_size di →
    runs (read_all (St:=St) o) v ∅ (drop (Z.to_nat (offset o)) (content di v), set_offset (di_size di) o) v).
Proof. apply os_read_run. Qed.

Lemma os_write_run {St} `{HS : BlockStore St, HL : !BlockStoreLaws St} efs o v di k buf bs :
  disk_ok efs v → file_at efs (inode o) v di → 0 ≤ offset o →
  Forall (slice_ok (mem k)) buf → cells (mem k) (flatten buf) bs → bytes bs →
  offset o + Z.of_nat (length bs) ≤ MAX_SIZE →
  available efs v (blocks_for di (end_after (di_size di) (offset o) (length bs))) →
  ∃ v' di', fruns (St:=St) (OSInode_write efs o buf) v k
      (Z.of_nat (length bs), set_offset (offset o + Z.of_nat (length bs)) o) v' k ∧
    disk_ok efs v' ∧ file_at efs (inode o) v' di' ∧ written v di (offset o) bs v' di' ∧
    ∀ ino2 di2, file_at efs ino2 v di2 → inodes_apart (inode o) ino2 → (∀ b, b ∈ all_ids di2 v → b ∉ all_ids di v) →
      file_at efs ino2 v' di2 ∧ content di2 v' = content di2 v.
Proof.
  intros Hd Hf Ho Hok Hc Hb Hmax Hav. assert (Hms : MAX_SIZE = 8468480) by reflexivity.
  destruct (write_slices_run (St:=St) efs (inode o) k buf v di (offset o) 0 bs) as (v' & di' & Hrun & Hch & Hw); try done; [lia|].
  exists v', di'. split; [|split; [apply Hch|]; split; [apply Hch|]; split; [done|]].
  - unfold OSInode_write. eapply fruns_bind; [exact Hrun|]. apply fruns_ret.
  - intros ino2 di2 Hf2 Hap Hdis. destruct (other_file efs (inode o) v di v' di' ino2 di2) as (? & ? & _); done.
Qed.

(** Writing an open file, within the largest file size and with enough free
    blocks, writes the bytes of the user buffer, slice after slice, at the
    offset: the assertion on the number of bytes written never fails, the whole
    buffer is in the file afterwards, the other bytes are as before, the file
    ends where it did or behind the buffer; the number of bytes is returned and
    the offset is behind them.  Memory and all other files are unchanged. *)
Theorem os_write_spec {St} `{HS : BlockStore St, HL : !BlockStoreLaws St} efs o v di k buf bs :
  disk_ok efs v → file_at efs (inode o) v di → 0 ≤ offset o →
  Forall (slice_ok (mem k)) buf → cells (mem k) (flatten buf) bs → bytes bs →
  offset o + Z.of_nat (length bs) ≤ MAX_SIZE →
  available efs v (blocks_for di (end_after (di_size di) (offset o) (length bs))) →
  ∃ v' di', fruns (St:=St) (OSInode_write efs o buf) v k
      (Z.of_nat (length bs), set_offset (offset o + Z.of_nat (length bs)) o) v' k ∧
    disk_ok efs v' ∧ file_at efs (inode o) v' di' ∧ written v di (offset o) bs v' di' ∧
    ∀ ino2 di2, file_at efs ino2 v di2 → inodes_apart (inode o) ino2 → (∀ b, b ∈ all_ids di2 v → b ∉ all_ids di v) →
      file_at efs ino2 v' di2 ∧ content di2 v' = content di2 v.
Proof. apply os_write_run. Qed.

Lemma open_file_run {St} `{HS : BlockStore St, HL : !BlockStoreLaws St} efs root v di ents name flags :
  disk_ok efs v → file_at efs root v di → is_directory di v ents →
  let opened ino := Some (mkOSInode (negb (Z.testbit flags 0)) (negb (flags =? 0)) 0 ino) in
  (∀ id dif, lookup_entry ents name = Some id → file_at efs (inode_of efs id) v dif →
    ∃ v' dif', runs (open_file (St:=St) efs root name flags) v ∅ (opened (inode_of efs id)) v' ∧
      disk_ok efs v' ∧ file_at efs (inode_of efs id) v' dif' ∧
      (if Z.testbit flags 9 || Z.testbit flags 10
       then content dif' v' = [] ∧ (∀ k, 0 ≤ k < maximum (data_bitmap efs) →
         bit (data_bitmap efs) v' k = (bit (data_bitmap efs) v k && bool_decide (data_area_start_block efs + k ∉ all_ids dif v)))
       else v' = v ∧ dif' = dif) ∧
      ∀ ino2 di2, file_at efs ino2 v di2 → inodes_apart (inode_of efs id) ino2 →
        (∀ b, b ∈ all_ids di2 v → b ∉ all_ids dif v) → file_at efs ino2 v' di2 ∧ content di2 v' = content di2 v) ∧
  (lookup_entry ents name = None → Z.testbit flags 9 = false →
    runs (open_file (St:=St) efs root name flags) v ∅ None v) ∧
  (∀ id, Z.testbit flags 9 = true → creatable efs root v di ents name id →
    ∃ v' di' din, runs (open_file (St:=St) efs root name flags) v ∅ (opened (inode_of efs id)) v' ∧ disk_ok efs v' ∧
      file_at efs root v' di' ∧ is_directory di' v' (ents ++ [(name, id)]) ∧
      file_at efs (inode_of efs id) v' din ∧ content din v' = []).
Proof.
  intros Hd Hf Hdir opened. pose proof (fa_at _ _ _ _ Hf) as Hat.
  destruct (directory_run (St:=St) efs root v di ents name (dk_view _ _ Hd) Hat Hdir) as [_ Hfind].
  unfold open_file. rewrite read_write_bits. unfold OpenFlags_CREATE, OpenFlags_TRUNC. rewrite !contains_bit by done.
  split; [|split].
  - intros id dif Hl Hff. rewrite Hl in Hfind. cbn [fmap option_fmap option_map] in Hfind. fold (inode_of efs id) in Hfind.
    destruct (clear_file_run (St:=St) efs (inode_of efs id) v dif Hd Hff) as (v' & dif' & Hrun & Hd' & Hf' & Hs' & _ & Hcf & Hbits).
    destruct (Z.testbit flags 9 || Z.testbit flags 10) eqn:Ebits.
    + exists v', dif'. split; [|split; [done|]; split; [done|]; split].
      * destruct (Z.testbit flags 9); [|cbn [orb] in Ebits; rewrite Ebits]; (eapply runs_bind; [exact Hfind|]);
          (eapply runs_bind; [exact Hrun|]); apply runs_ret.
      * split; [|done]. unfold content. by rewrite Hs'.
      * intros ino2 di2 Hf2 Hap Hdis. destruct (confined_file efs (inode_of efs id) v dif v' _ Hd Hff Hcf ino2 di2) as (? & ? & _); done.
    + apply orb_false_iff in Ebits as [-> ->]. exists v, dif. split; [|by split].
      eapply runs_bind; [exact Hfind|]. eapply runs_bind; [apply runs_ret|]. apply runs_ret.
  - intros Hl ->. rewrite Hl in Hfind. eapply runs_bind; [exact Hfind|apply runs_ret].
  - intros id -> Hcr. destruct (create_cases (St:=St) efs root v di ents name id) as [Hnew _].
    destruct (Hnew Hcr) as (v' & di' & din & Hrun & Hd' & Hf' & Hdir' & Hfn & Hs & _).
    exists v', di', din. split; [|split; [done|]; split; [done|]; split; [done|]; split; [done|]; unfold content; by rewrite Hs].
    rewrite (cr_none _ _ _ _ _ _ _ Hcr) in Hfind. eapply runs_bind; [exact Hfind|]. eapply runs_bind; [exact Hrun|apply runs_ret].
Qed.

(** [open_file], for every combination of flags: a name of the directory is
    opened at offset 0; with [CREATE] or [TRUNC] its file is empty then and its
    blocks are free, otherwise nothing on the disk has changed.  A new name is
    opened only with [CREATE], as a new empty file, otherwise the result is
    [None].  The file is readable unless [WRONLY] is given, and writable unless
    there is no flag at all.  No other file changes. *)
Theorem open_file_spec {St} `{HS : BlockStore St, HL : !BlockStoreLaws St} efs root v di ents name flags :
  disk_ok efs v → file_at efs root v di → is_directory di v ents →
  let opened ino := Some (mkOSInode (negb (Z.testbit flags 0)) (negb (flags =? 0)) 0 ino) in
  (∀ id dif, lookup_entry ents name = Some id → file_at efs (inode_of efs id) v dif →
    ∃ v' dif', runs (open_file (St:=St) efs root name flags) v ∅ (opened (inode_of efs id)) v' ∧
      disk_ok efs v' ∧ file_at efs (inode_of efs id) v' dif' ∧
      (if Z.testbit flags 9 || Z.testbit flags 10
       then content dif' v' = [] ∧ (∀ k, 0 ≤ k < maximum (data_bitmap efs) →
         bit (data_bitmap efs) v' k = (bit (data_bitmap efs) v k && bool_decide (data_area_start_block efs + k ∉ all_ids dif v)))
       else v' = v ∧ dif' = dif) ∧
      ∀ ino2 di2, file_at efs ino2 v di2 → inodes_apart (inode_of efs id) ino2 →
        (∀ b, b ∈ all_ids di2 v → b ∉ all_ids dif v) → file_at efs ino2 v' di2 ∧ content di2 v' = content di2 v) ∧
  (lookup_entry ents name = None → Z.testbit flags 9 = false →
    runs (open_file (St:=St) efs root name flags) v ∅ None v) ∧
  (∀ id, Z.testbit flags 9 = true → creatable efs root v di ents name id →
    ∃ v' di' din, runs (open_file (St:=St) efs root name flags) v ∅ (opened (inode_of efs id)) v' ∧ disk_ok efs v' ∧
      file_at efs root v' di' ∧ is_directory di' v' (ents ++ [(name, id)]) ∧
      file_at efs (inode_of efs id) v' din ∧ content din v' = []).
Proof. apply open_file_run. Qed.

(** ** Concrete runs *)

Lemma boot_fruns {A} (m : M (fstate (CacheState BlockFile)) A) k a v' k' :
  fruns m fs_view k a v' k' → ∃ s', m (mkF (boot fs_image) k) = Ok (a, s') ∧ ram s' = k'.
Proof.
  intros Hm. destruct (Hm (mkF (boot fs_image) k)) as (s' & E & _ & _ & _ & Hk); [|done..|by exists s'].
  apply boot_wf; apply fs_image_ok.
Qed.

(** Two slices of two pages; the memory holds nines. *)
Definition two_pages : kmem := mkKmem {[7 := replicate 16 9; 8 := replicate 16 9]} (mkFA 0 0 []).
Definition demo_buf : list pslice := [mkSlice 7 14 16; mkSlice 8 0 2].
Definition fs_open : OSInode := mkOSInode true true 2 fs_a.

Lemma demo_buf_ok : Forall (slice_ok (mem two_pages)) demo_buf.
Proof.
  apply Forall_cons. split; [|apply Forall_singleton]; (split; [cbn; lia|]); eexists; (split; [reflexivity|]); vm_compute; discriminate.
Qed.

Lemma demo_buf_NoDup : NoDup (flatten demo_buf).
Proof. apply (bool_decide_unpack (NoDup (flatten demo_buf))). vm_compute. exact I. Qed.

(** The last three bytes of "hello" into the two slices; and all of them. *)
Lemma os_read_spec_witness :
  (∃ s', OSInode_read fs_open demo_buf (mkF (boot fs_image) two_pages) = Ok ((3, mkOSInode true true 5 fs_a), s') ∧
    cell (mem (ram s')) (7, 15) = Some 108 ∧ cell (mem (ram s')) (8, 1) = Some 9) ∧
  ∃ s', read_all fs_open (boot fs_image) = Ok (([108; 108; 111], mkOSInode true true 5 fs_a), s').
Proof.
  destruct (os_read_spec (St:=CacheState BlockFile) fs_open fs_view fs_file (fa_at _ _ _ _ fs_a_at) (dk_view _ _ fs_disk_ok))
    as [Hread Hall]; [done|]. split.
  - destruct (Hread demo_buf two_pages) as (k' & Hrun & _ & _ & Hc & Hfr); [done|apply demo_buf_ok|apply demo_buf_NoDup|].
    destruct (boot_fruns _ _ _ _ _ Hrun) as (s' & E & <-). exists s'. split; [exact E|]. split.
    + apply (cells_lookup _ _ _ 1 _ _ Hc); vm_compute; reflexivity.
    + rewrite Hfr; [vm_compute; reflexivity|done|]. apply (bool_decide_unpack (_ ∉ _)). vm_compute. exact I.
  - destruct (boot_runs _ fs_image _ fs_view (proj1 fs_image_ok) (proj2 fs_image_ok) (Hall ltac:(done))) as (s' & E & _).
    exists s'. rewrite E. vm_compute. reflexivity.
Defined.

(** Four nines over the last three bytes and one more. *)
Lemma os_write_spec_witness :
  ∃ s', OSInode_write fs_efs fs_open demo_buf (mkF (boot fs_image) two_pages) = Ok ((4, mkOSInode true true 6 fs_a), s').
Proof.
  destruct (os_write_spec (St:=CacheState BlockFile) fs_efs fs_open fs_view fs_file two_pages demo_buf [9; 9; 9; 9])
    as (v' & di' & Hrun & _).
  - apply fs_disk_ok.
  - apply fs_a_at.
  - done.
  - apply demo_buf_ok.
  - by repeat constructor.
  - by repeat constructor.
  - by vm_compute.
  - split; [vm_compute; lia|]. intros k Hk. exfalso. revert Hk. vm_compute (take _ _). apply not_elem_of_nil.
  - destruct (boot_fruns _ _ _ _ _ Hrun) as (s' & E & _). by exists s'.
Defined.

(** "a" is truncated, "b" is not there, "c" is created. *)
Lemma open_file_spec_witness :
  (∃ s', open_file fs_efs (inode_of fs_efs 0) [97] 1025 (boot fs_image) = Ok (Some (mkOSInode false true 0 fs_a), s')) ∧
  (∃ s', open_file fs_efs (inode_of fs_efs 0) [98] 0 (boot fs_image) = Ok (None, s')) ∧
  (∃ s', open_file fs_efs (inode_of fs_efs 0) [99] 514 (boot fs_image) = Ok (Some (mkOSInode true true 0 (mkInode 2 256)), s')).
Proof.
  pose proof (open_file_spec (St:=CacheState BlockFile) fs_efs (inode_of fs_efs 0) fs_view fs_root fs_ents) as Hspec.
  destruct (Hspec [97] 1025 fs_disk_ok fs_root_at fs_directory) as (H1 & _).
  destruct (Hspec [98] 0 fs_disk_ok fs_root_at fs_directory) as (_ & H2 & _).
  destruct (Hspec [99] 514 fs_disk_ok fs_root_at fs_directory) as (_ & _ & H3).
  destruct (H1 1 fs_file eq_refl fs_a_at) as (v1 & _ & Hrun1 & _).
  destruct (H3 2 eq_refl fs_creatable) as (v3 & _ & _ & Hrun3 & _).
  split; [|split].
  - destruct (boot_runs _ fs_image _ v1 (proj1 fs_image_ok) (proj2 fs_image_ok) Hrun1) as (s & E & _). exists s. exact E.
  - destruct (boot_runs _ fs_image _ fs_view (proj1 fs_image_ok) (proj2 fs_image_ok) (H2 eq_refl eq_refl)) as (s & E & _). exists s. exact E.
  - destruct (boot_runs _ fs_image _ v3 (proj1 fs_image_ok) (proj2 fs_image_ok) Hrun3) as (s & E & _). exists s. exact E.
Defined.
