(* ===== verification/Packer.v ===== *)
(** * The image packer (easy-fs-fuse/src/main.rs)

    The tool that makes the disk image of the kernel: it formats an image file and
    stores the programs under their names.  The contents of the directory and of the
    host's files are arguments.  The theorem says that the file system in the image file
    is what the kernel expects: every program can be opened by its name and read. *)

From S2P Require Import Prelude Bytes BlockStore BlockCache BlockFile Bitmap Layout Inode.
From S2P Require Import InodeSpec InodeData Efs Vfs VfsSpec Files FilesSpec.
From Stdlib Require Import ZifyNat.

(** 16 MiB *)
Definition PACK_BLOCKS : Z := 16 * 2048.

(** The name up to the first dot. *)
Definition app_name (name_with_ext : list Z) : result (list Z) :=
  '(i, _) ← unwrap (list_find (λ c, c = 46) name_with_ext);
  mret (take i name_with_ext).

Section code.
Context {St : Type} `{HS : BlockStore St}.
(** What [File::open] and [read_to_end] give for a name. *)
Context (host : list Z → option (list Z)).

Fixpoint pack_apps (efs : EasyFileSystem) (root : Inode) (apps : list (list Z)) : M St unit :=
  match apps with
  | [] => mret tt
  | app :: apps =>
      all_data ← lift (unwrap (host app));
      o ← Inode_create efs root app;
      inode ← lift (unwrap o);
      Inode_write_at efs inode 0 all_data;;
      pack_apps efs root apps
  end.

(** On the opened image; [dir] are the file names that [read_dir] lists. *)
Definition pack_programs (dir : list (list Z)) : M St unit :=
  efs ← create PACK_BLOCKS 1;
  let root := let '(b, off) := root_inode efs in mkInode b off in
  apps ← lift (mapM app_name dir);
  pack_apps efs root apps.
End code.

(** [File::set_len]: cuts the file off or extends it with zeros. *)
Definition set_len (n : Z) (f : BlockFile) : BlockFile :=
  mkBlockFile (take (Z.to_nat n) (file f) ++ replicate (Z.to_nat n - length (file f)) 0).

(** The image file [fs_img] when the tool ends.  The block caches belong to a static
    variable, which is not dropped: what they hold is lost. *)
Definition easy_fs_pack (host : list Z → option (list Z)) (dir : list (list Z)) (fs_img : BlockFile) : result BlockFile :=
  let block_file := set_len (16 * 2048 * 512) fs_img in
  '(_, s) ← pack_programs host dir (mkCacheState block_file []);
  mret (device s).

(** ** The image *)

(** The file system of an image of this size. *)
Definition pack_efs : EasyFileSystem := mkEfs (mkBitmap 1 1) (mkBitmap 1026 8) 2 1034.

Lemma pack_fits : fits PACK_BLOCKS 1.
Proof. split; unfold PACK_BLOCKS; lia. Qed.

Lemma pack_geometry : g_efs (compute_geometry PACK_BLOCKS 1) = pack_efs.
Proof. vm_compute. reflexivity. Qed.

(** Inodes and data blocks of the image *)
Definition PACK_INODES : Z := 4096.
Definition PACK_DATA : Z := 31734.

Local Abbreviation ino i := (inode_of pack_efs (Z.of_nat i)).

Lemma ino_eq i : Z.of_nat i < PACK_INODES → ino i = mkInode (2 + Z.of_nat i / 4) (Z.of_nat i mod 4 * 128).
Proof.
  intros Hi. unfold PACK_INODES in Hi. unfold inode_of, get_disk_inode_pos. cbn [inode_area_start_block pack_efs]. change (512 / 128) with 4.
  rewrite u32_small, u64_small by (Z.to_euclidean_division_equations; lia). done.
Qed.

Lemma ino_range i : Z.of_nat i < PACK_INODES → 2 ≤ block_id (ino i) < 1026.
Proof. intros Hi. rewrite ino_eq by done. unfold PACK_INODES in Hi. cbn. Z.to_euclidean_division_equations; lia. Qed.

Lemma ino_apart i j : Z.of_nat i < PACK_INODES → Z.of_nat j < PACK_INODES → i ≠ j → inodes_apart (ino i) (ino j).
Proof.
  intros Hi Hj Hne. rewrite !ino_eq by done. unfold inodes_apart. cbn [block_id block_offset].
  Z.to_euclidean_division_equations; lia.
Qed.

(** Bits that are set from below *)
Lemma free_bits_from bm v u :
  0 ≤ u ≤ maximum bm → (∀ k, 0 ≤ k < maximum bm → bit bm v k = bool_decide (k < u)) → free_bits bm v = seqZ u (maximum bm - u).
Proof.
  intros Hu Hb. unfold free_bits. replace (maximum bm) with (u + (maximum bm - u)) at 1 by lia. rewrite seqZ_app by lia.
  rewrite filter_app. rewrite (filter_none _ (seqZ 0 u)), (filter_all _ (seqZ (0 + u) _)); [done|..].
  - intros k Hk%elem_of_seqZ. rewrite Hb, bool_decide_false by lia. done.
  - intros k Hk%elem_of_seqZ. rewrite Hb, bool_decide_true by lia. done.
Qed.

Lemma take_seqZ u m n : Z.of_nat n ≤ m → take n (seqZ u m) = seqZ u (Z.of_nat n).
Proof.
  intros Hn. replace m with (Z.of_nat n + (m - Z.of_nat n)) by lia. rewrite seqZ_app by lia.
  rewrite take_app_le by (rewrite length_seqZ; lia). apply take_ge. rewrite length_seqZ. lia.
Qed.

(** The inodes [dis], in the order of their numbers, own disjoint blocks. *)
Record files_ok (v : gmap Z (list Z)) (dis : list DiskInode) : Prop := {
  fo_file i di : dis !! i = Some di → file_at pack_efs (ino i) v di;
  fo_apart i j di dj b : i ≠ j → dis !! i = Some di → dis !! j = Some dj → b ∈ all_ids di v → b ∉ all_ids dj v;
}.

(** The inodes are the first ones, and the first [u] data blocks are used. *)
Record image (v : gmap Z (list Z)) (dis : list DiskInode) (u : Z) : Prop := {
  im_disk : disk_ok pack_efs v;
  im_blocks b : 0 ≤ b < PACK_BLOCKS → is_Some (v !! b);
  im_count : Z.of_nat (length dis) ≤ PACK_INODES;
  im_files : files_ok v dis;
  im_used : 0 ≤ u ≤ PACK_DATA;
  im_bits k : 0 ≤ k < 32768 → bit (data_bitmap pack_efs) v k = bool_decide (k < u);
  im_ibits k : 0 ≤ k < PACK_INODES → bit (inode_bitmap pack_efs) v k = bool_decide (k < Z.of_nat (length dis));
}.

Lemma changed_present efs i v di v' di' b :
  disk_ok efs v → file_changed efs i v di v' di' → is_Some (v !! b) → is_Some (v' !! b).
Proof.
  intros Hd Hch Hb. pose proof (fa_at _ _ _ _ (fc_file _ _ _ _ _ _ Hch)) as Hat.
  destruct (decide (b = block_id i)) as [->|Hne]; [apply Hat|]. destruct (decide (b ∈ all_ids di' v')) as [Hin|Hin].
  - by apply (ia_wf _ _ _ Hat).
  - destruct (decide (start_block_id (data_bitmap efs) ≤ b < start_block_id (data_bitmap efs) + blocks (data_bitmap efs))) as [Hbm|Hbm].
    + by apply (dk_bm _ _ (fc_disk _ _ _ _ _ _ Hch)).
    + by rewrite (fc_frame _ _ _ _ _ _ Hch).
Qed.

Lemma changed_low efs i v di v' di' b :
  disk_ok efs v → file_changed efs i v di v' di' → b < start_block_id (data_bitmap efs) → b ≠ block_id i → v' !! b = v !! b.
Proof.
  intros Hd Hch Hb Hne. apply (fc_frame _ _ _ _ _ _ Hch); [done|unfold bm_block; lia|]. intros Hin.
  apply (fa_alloc _ _ _ _ (fc_file _ _ _ _ _ _ Hch)), allocated_data in Hin. pose proof (dk_area _ _ Hd).
  pose proof (dk_bm _ _ Hd) as (_ & ? & _). lia.
Qed.

(** One inode of the image changes. *)
Lemma files_update v v' dis j di di' :
  disk_ok pack_efs v → Z.of_nat (length dis) ≤ PACK_INODES → files_ok v dis → dis !! j = Some di →
  file_changed pack_efs (ino j) v di v' di' →
  files_ok v' (<[j := di']> dis) ∧ ∀ i d, i ≠ j → dis !! i = Some d → content d v' = content d v.
Proof.
  intros Hd Hlen [Hf Ha] Ej Hch. assert (Hr : ∀ i d, dis !! i = Some d → Z.of_nat i < PACK_INODES) by (intros i d ?%lookup_lt_Some; lia).
  assert (Hoth : ∀ i d, i ≠ j → dis !! i = Some d →
    file_at pack_efs (ino i) v' d ∧ content d v' = content d v ∧ all_ids d v' = all_ids d v).
  { intros i d Hne Ei. apply (other_file pack_efs (ino j) v di v' di'); [done|by apply Hf|done|by apply Hf| |].
    - apply ino_apart; [by eapply Hr|by eapply Hr|done].
    - intros b Hb. by eapply (Ha i j). }
  assert (Hnew : ∀ i d b, i ≠ j → dis !! i = Some d → b ∈ all_ids d v → b ∉ all_ids di' v').
  { intros i d b Hne Ei Hb [Hin|Hin]%(fc_new _ _ _ _ _ _ Hch); [by apply (Ha i j d di b)|].
    destruct (fa_alloc _ _ _ _ (Hf i d Ei) b Hb) as (_ & Hbit & _). congruence. }
  split; [split|intros i d Hne Ei; by apply (Hoth i d)].
  - intros i d [(<- & <- & _)|[Hne Ei]]%list_lookup_insert_Some; [apply Hch|by apply (Hoth i d)].
  - intros i k d d2 b Hne [(<- & <- & _)|[Hi Ei]]%list_lookup_insert_Some [(<- & <- & _)|[Hk Ek]]%list_lookup_insert_Some; [done|..].
    + intros Hb Hin. destruct (Hoth k d2) as (_ & _ & E); [done..|]. rewrite E in Hin. by apply (Hnew k d2 b).
    + destruct (Hoth i d) as (_ & _ & E); [done..|]. rewrite E. by apply (Hnew i d b).
    + destruct (Hoth i d) as (_ & _ & ->); [done..|]. destruct (Hoth k d2) as (_ & _ & ->); [done..|]. by apply (Ha i k).
Qed.

Lemma image_free v dis u : image v dis u → free_bits (data_bitmap pack_efs) v = seqZ u (32768 - u).
Proof.
  intros Him. pose proof (im_used _ _ _ Him). unfold PACK_DATA in *.
  apply (free_bits_from (data_bitmap pack_efs)); change (maximum (data_bitmap pack_efs)) with 32768; [lia|apply Him].
Qed.

Lemma image_available v dis u n : image v dis u → u + Z.of_nat n ≤ PACK_DATA → available pack_efs v n.
Proof.
  intros Him Hn. pose proof (im_used _ _ _ Him). unfold available, PACK_DATA in *. rewrite (image_free _ _ _ Him), length_seqZ.
  split; [lia|]. intros k. rewrite take_seqZ by lia. intros Hk%elem_of_seqZ. cbn [data_area_start_block pack_efs].
  split; [lia|]. apply (im_blocks _ _ _ Him). unfold PACK_BLOCKS. lia.
Qed.

Lemma grow_step v dis u j di off buf n di' v2 v' :
  image v dis u → dis !! j = Some di → u + Z.of_nat n ≤ PACK_DATA → file_changed pack_efs (ino j) v di v' di' →
  grew pack_efs v di off buf (take n (free_bits (data_bitmap pack_efs) v)) di' v2 → all_ids di' v' = all_ids di' v2 →
  image v' (<[j := di']> dis) (u + Z.of_nat n) ∧ (∀ i d, i ≠ j → dis !! i = Some d → content d v' = content d v) ∧ v' !! 0 = v !! 0.
Proof.
  intros Him Ej Hn Hch Hg Eids. pose proof (im_used _ _ _ Him) as Hu. pose proof (im_disk _ _ _ Him) as Hd.
  rewrite (image_free _ _ _ Him), take_seqZ in Hg by (unfold PACK_DATA in *; lia).
  destruct (files_update v v' dis j di di' Hd (im_count _ _ _ Him) (im_files _ _ _ Him) Ej Hch) as [Hfo Hc].
  assert (Hj : 2 ≤ block_id (ino j) < 1026) by (apply ino_range; apply lookup_lt_Some in Ej; pose proof (im_count _ _ _ Him); lia).
  split; [|split; [exact Hc|apply (changed_low pack_efs (ino j) v di v' di'); [done|done|cbn; lia|lia]]].
  split; rewrite ?length_insert; [apply Hch| |apply Him|exact Hfo|lia| |].
  - intros b Hb. eapply changed_present; [exact Hd|exact Hch|by apply (im_blocks _ _ _ Him)].
  - intros k Hk. rewrite (fc_bits _ _ _ _ _ _ Hch) by done. rewrite Eids. cbn [data_area_start_block pack_efs].
    rewrite (im_bits _ _ _ Him) by done. destruct (decide (k < u)) as [Hlt|Hge].
    { rewrite (bool_decide_true (k < u)), (bool_decide_true (k < u + _)) by lia. done. }
    rewrite (bool_decide_false (k < u)) by done. cbn [orb]. apply bool_decide_ext.
    rewrite (gw_ids _ _ _ _ _ _ _ _ Hg), elem_of_app, list_elem_of_fmap. cbn [data_area_start_block pack_efs]. split.
    + intros [Hin|(x & Ex & Hx%elem_of_seqZ)]; [|lia]. destruct (fa_alloc _ _ _ _ (fo_file _ _ (im_files _ _ _ Him) j di Ej) _ Hin) as (_ & Hbit & _).
      cbn [data_area_start_block pack_efs] in Hbit. replace (1034 + k - 1034) with k in Hbit by lia.
      rewrite (im_bits _ _ _ Him) in Hbit by done. by apply bool_decide_eq_true in Hbit.
    + intros Hk'. right. exists k. split; [done|]. apply elem_of_seqZ. lia.
  - intros k Hk. rewrite <- (im_ibits _ _ _ Him) by done. apply bit_ext.
    assert (Hb : block_of (inode_bitmap pack_efs) k = 1) by (unfold block_of, BLOCK_BITS, PACK_INODES in *; cbn; Z.to_euclidean_division_equations; lia).
    rewrite Hb. apply (changed_low pack_efs (ino j) v di v' di'); [done|done|cbn; lia|lia].
Qed.

(** ** The steps of the packer *)

Lemma total_blocks_nonneg n : 0 ≤ total_blocks n.
Proof. unfold total_blocks. by apply Z.mod_pos_bound. Qed.

Section steps.
Context {St : Type} `{HS : BlockStore St, HL : !BlockStoreLaws St}.

Lemma image_creatable v dis u rdi ents name :
  image v dis u → dis !! 0%nat = Some rdi → is_directory rdi v ents → name_ok name → bytes name → lookup_entry ents name = None →
  Z.of_nat (length dis) < PACK_INODES → di_size rdi + 32 ≤ MAX_SIZE → u + Z.of_nat (blocks_for rdi (di_size rdi + 32)) ≤ PACK_DATA →
  creatable pack_efs (ino 0) v rdi ents name (Z.of_nat (length dis)).
Proof.
  intros Him E0 Hdir Hn Hb Hnone Hlen Hsz Hu. pose proof (ino_range (length dis) Hlen) as Hr.
  assert (H0 : 2 ≤ block_id (ino 0) < 1026) by (apply ino_range; done).
  split; try done.
  - apply Him.
  - by apply (fo_file _ _ (im_files _ _ _ Him) 0).
  - split; [cbn; lia|]. split; [cbn; lia|]. split; [cbn; lia|]. intros b Hbb. apply (im_blocks _ _ _ Him).
    unfold bm_block, PACK_BLOCKS in *. cbn in Hbb. lia.
  - unfold PACK_INODES in *. split; [|lia]. change (maximum (inode_bitmap pack_efs)) with 4096 in *. split; [change (maximum _) with 4096; lia|].
    split; [rewrite (im_ibits _ _ _ Him), bool_decide_false by (unfold PACK_INODES; lia); done|].
    intros j Hj. rewrite (im_ibits _ _ _ Him), bool_decide_true by (unfold PACK_INODES; lia). done.
  - apply (im_blocks _ _ _ Him). unfold PACK_BLOCKS. lia.
  - apply (ino_apart 0 (length dis)); [done|done|]. apply lookup_lt_Some in E0. lia.
  - by eapply image_available.
Qed.

(** The new inode, before its name is in the directory. *)
Lemma fresh_step v dis u vc rdi :
  image v dis u → Z.of_nat (length dis) < PACK_INODES → dis !! 0%nat = Some rdi →
  disk_ok pack_efs vc → data_same pack_efs v vc → file_at pack_efs (ino 0) vc rdi →
  file_at pack_efs (ino (length dis)) vc (DiskInode_initialize File) →
  (∀ k, 0 ≤ k < maximum (inode_bitmap pack_efs) →
    bit (inode_bitmap pack_efs) vc k = (bool_decide (k = Z.of_nat (length dis)) || bit (inode_bitmap pack_efs) v k)) →
  (∀ ino2, inodes_apart (ino 0) ino2 → inodes_apart (ino (length dis)) ino2 → 0 ≤ block_offset ino2 ≤ 384 →
    start_block_id (inode_bitmap pack_efs) + blocks (inode_bitmap pack_efs) ≤ block_id ino2 →
    is_Some (v !! block_id ino2) → inode_same ino2 v vc) →
  (∀ b, is_Some (v !! b) → is_Some (vc !! b)) →
  image vc (dis ++ [DiskInode_initialize File]) u ∧ ∀ i d, dis !! i = Some d → content d vc = content d v.
Proof.
  intros Him Hlen E0 Hdc Hs Hrc Hnew Hbits Hoth Hpres. pose proof (im_disk _ _ _ Him) as Hd.
  assert (Hnone : all_ids (DiskInode_initialize File) vc = []) by (by apply empty_inode_ids).
  assert (Hold : ∀ i d, dis !! i = Some d → file_at pack_efs (ino i) vc d ∧ all_bytes d vc = all_bytes d v ∧ all_ids d vc = all_ids d v).
  { intros i d Ei. pose proof (fo_file _ _ (im_files _ _ _ Him) i d Ei) as Hf. pose proof (lookup_lt_Some _ _ _ Ei) as Hi.
    destruct (decide (i = 0%nat)) as [->|Hne].
    - rewrite E0 in Ei. injection Ei as <-. destruct (same_file_ids pack_efs v vc Hd Hs (ino 0) rdi Hf) as [? ?]. done.
    - apply same_file; [done|done|done|]. apply Hoth.
      + apply ino_apart; [done|lia|done].
      + apply ino_apart; [lia|lia|lia].
      + apply (fa_at _ _ _ _ Hf).
      + apply (ino_range i). lia.
      + apply (fa_at _ _ _ _ Hf). }
  split; [|intros i d Ei; unfold content; by destruct (Hold i d Ei) as (_ & -> & _)].
  assert (Hl : Z.of_nat (length (dis ++ [DiskInode_initialize File])) = Z.of_nat (length dis) + 1) by (rewrite length_app; cbn; lia).
  split; [done| |lia| |apply Him| |].
  - intros b Hb. apply Hpres. by apply (im_blocks _ _ _ Him).
  - split.
    + intros i d [Ei|[Hi [Hi0 <-]%list_lookup_singleton_Some]]%lookup_app_Some; [by apply (Hold i d)|].
      assert (i = length dis) as -> by lia. done.
    + intros i j d d2 b Hne Ei Ej Hb Hb2. apply lookup_app_Some in Ei as [Ei|[_ [_ <-]%list_lookup_singleton_Some]];
        [|rewrite Hnone in Hb; by apply not_elem_of_nil in Hb].
      apply lookup_app_Some in Ej as [Ej|[_ [_ <-]%list_lookup_singleton_Some]]; [|rewrite Hnone in Hb2; by apply not_elem_of_nil in Hb2].
      destruct (Hold i d Ei) as (_ & _ & E1), (Hold j d2 Ej) as (_ & _ & E2). rewrite E1 in Hb. rewrite E2 in Hb2.
      by apply (fo_apart _ _ (im_files _ _ _ Him) i j d d2 b).
  - intros k Hk. rewrite (same_bit pack_efs v vc Hd Hs) by done. by apply Him.
  - intros k Hk. rewrite Hbits, (im_ibits _ _ _ Him), Hl by done.
    destruct (decide (k = Z.of_nat (length dis))) as [->|Hne]; [by rewrite (bool_decide_true (_ = _)), (bool_decide_true (_ < _ + 1)) by lia|].
    rewrite (bool_decide_false (k = _)) by done. cbn [orb]. apply bool_decide_ext. lia.
Qed.

Lemma create_step v dis u rdi ents name :
  image v dis u → dis !! 0%nat = Some rdi → is_directory rdi v ents → name_ok name → bytes name → lookup_entry ents name = None →
  Z.of_nat (length dis) < PACK_INODES → di_size rdi + 32 ≤ MAX_SIZE → u + Z.of_nat (blocks_for rdi (di_size rdi + 32)) ≤ PACK_DATA →
  ∃ v' rdi', settles (Inode_create (St:=St) pack_efs (ino 0) name) v ∅ (Some (ino (length dis))) v' ∧
    image v' (<[0%nat := rdi']> (dis ++ [DiskInode_initialize File])) (u + Z.of_nat (blocks_for rdi (di_size rdi + 32))) ∧
    is_directory rdi' v' (ents ++ [(name, Z.of_nat (length dis))]) ∧ di_size rdi' = di_size rdi + 32 ∧
    (∀ i d, i ≠ 0%nat → dis !! i = Some d → content d v' = content d v) ∧ v' !! 0 = v !! 0.
Proof.
  intros Him E0 Hdir Hn Hb Hnone Hlen Hsz Hu.
  pose proof (image_creatable v dis u rdi ents name Him E0 Hdir Hn Hb Hnone Hlen Hsz Hu) as Hcr.
  destruct (create_file_run (St:=St) _ _ _ _ _ _ _ Hcr) as
    (vc & v2 & v' & di' & ks & Hrun & Hdc & Hsc & Hfc & Ebc & Hnc & Hbits & Hoth & Hch & Hg & Eb & Ei & Eks & Hpres & Hlow).
  destruct (new_entry_ok _ _ _ _ _ _ _ Hcr) as (Hnl & _).
  destruct (fresh_step v dis u vc rdi Him Hlen E0 Hdc Hsc Hfc Hnc Hbits Hoth Hpres) as [Himc Hcc].
  assert (E0' : (dis ++ [DiskInode_initialize File]) !! 0%nat = Some rdi) by (by apply lookup_app_l_Some).
  rewrite Eks in Hg. destruct (grow_step vc _ u 0 rdi _ _ _ di' v2 v' Himc E0' Hu Hch Hg Ei) as (Him' & Hc' & Hs0).
  exists v', di'. split; [exact Hrun|]. split; [exact Him'|]. split; [|split; [|split]].
  - eapply (appended_directory pack_efs vc v' rdi); try done.
    + destruct Hdir as (? & Hc & ?). split; [done|]. split; [|done]. rewrite <- Hc. unfold content. by rewrite Ebc.
    + unfold is_u32, PACK_INODES in *. lia.
    + apply (fa_at _ _ _ _ Hfc).
    + apply Hdc.
  - rewrite (gw_size _ _ _ _ _ _ _ _ Hg), Hnl. lia.
  - intros i d Hi Ed. rewrite (Hc' i d Hi) by (by apply lookup_app_l_Some). by eapply Hcc.
  - rewrite Hs0. apply Hlow. done.
Qed.

(** An empty file: the write of no bytes goes to block 0, the number that the new inode
    has for its first block, and leaves it as it is. *)
Lemma grew_nothing efs v di : disk_ok efs v → inode_wf di v → grew efs v di 0 [] [] di v.
Proof.
  intros Hd Hwf. assert (0 ≤ di_size di) by apply Hwf. split; try done; try apply Hd.
  - cbn. lia.
  - by rewrite app_nil_r.
  - intros k _. rewrite bool_decide_false by apply not_elem_of_nil. by rewrite orb_false_r.
  - exists []. rewrite app_nil_r. split; [cbn; lia|done].
Qed.

Lemma write_nothing_run ino0 v blk :
  view_ok v → v !! 0 = Some blk → block_id ino0 ≠ 0 →
  runs (di ← Inode_increase_size (St:=St) pack_efs 0 (DiskInode_initialize File);
        n ← InodeData.write_at di 0 []; mret (n, di)) v ({[block_id ino0]} ∪ ∅) (0, DiskInode_initialize File) v.
Proof.
  intros Hv E Hne. eapply runs_bind; [intros s ???; exists s; split; [reflexivity|done]|].
  eapply runs_bind; [|apply runs_ret]. destruct (Hv _ _ E) as [Hl Hb].
  unfold InodeData.write_at. eapply runs_bind; [by apply runs_lift|]. cbn [write_loop length].
  eapply runs_bind; [apply (runs_lift _ _ _ 0); reflexivity|].
  eapply runs_bind; [|apply runs_ret]. rewrite <- (insert_id v 0 blk E) at 2.
  eapply runs_modify_full; [exact E|set_solver|rewrite union_empty_r_L, size_singleton; vm_compute; lia| |by eexists|done|done].
  apply runs_lift. reflexivity.
Qed.

Lemma empty_step v dis u j :
  image v dis u → dis !! j = Some (DiskInode_initialize File) →
  let di := DiskInode_initialize File in
  ∃ v', settles (Inode_write_at (St:=St) pack_efs (ino j) 0 []) v ∅ 0 v' ∧
    file_changed pack_efs (ino j) v di v' di ∧ grew pack_efs v di 0 [] [] di v ∧ all_bytes di v' = all_bytes di v ∧ all_ids di v' = all_ids di v.
Proof.
  intros Him Ej di. pose proof (im_disk _ _ _ Him) as Hd. pose proof (fo_file _ _ (im_files _ _ _ Him) j di Ej) as Hf.
  pose proof (fa_at _ _ _ _ Hf) as Hat. destruct (ia_block _ _ _ Hat) as [blk E].
  assert (Hj : 2 ≤ block_id (ino j) < 1026) by (apply ino_range; apply lookup_lt_Some in Ej; pose proof (im_count _ _ _ Him); lia).
  destruct (im_blocks _ _ _ Him 0) as [b0 E0]; [unfold PACK_BLOCKS; lia|].
  pose proof (grew_nothing pack_efs v di Hd (ia_wf _ _ _ Hat)) as Hg.
  destruct (modify_disk_inode_run (St:=St) (ino j) v di (λ di,
      di ← Inode_increase_size pack_efs (u32 (0 +ᵤ 0)) di; n ← InodeData.write_at di 0 []; mret (n, di)) 0 di v blk (dk_view _ _ Hd) Hat E)
    as (Hrun & Hnl & Hnb & Hdec); [apply (write_nothing_run _ v b0 (dk_view _ _ Hd) E0); lia|done|apply (ia_wf _ _ _ Hat)|].
  destruct (changed_intro pack_efs (ino j) v di 0 [] 0 Hd Hf ltac:(by intros k ?%not_elem_of_nil) di v Hg blk _ E Hnl Hnb Hdec) as (Hch & Eb & Ei).
  eexists. split; [eapply (settles_synced _ id); exact Hrun|]. done.
Qed.

(** The data of a new file. *)
Lemma store_step v dis u j data :
  image v dis u → dis !! j = Some (DiskInode_initialize File) → bytes data → Z.of_nat (length data) ≤ MAX_SIZE →
  u + total_blocks (Z.of_nat (length data)) ≤ PACK_DATA →
  ∃ v' di', settles (Inode_write_at (St:=St) pack_efs (ino j) 0 data) v ∅ (Z.of_nat (length data)) v' ∧
    image v' (<[j := di']> dis) (u + total_blocks (Z.of_nat (length data))) ∧ content di' v' = data ∧
    (∀ i d, i ≠ j → dis !! i = Some d → content d v' = content d v) ∧ v' !! 0 = v !! 0.
Proof.
  intros Him Ej Hb Hmax Hu. set (di := DiskInode_initialize File) in *. assert (Hz : di_size di = 0) by done.
  pose proof (fo_file _ _ (im_files _ _ _ Him) j di Ej) as Hf. set (n := blocks_for di (Z.max (di_size di) (0 + Z.of_nat (length data)))).
  assert (Hn : Z.of_nat n = total_blocks (Z.of_nat (length data))).
  { unfold n, blocks_for. rewrite Hz, Z.max_r, Z.add_0_l by lia. change (total_blocks 0) with 0. rewrite Z.sub_0_r, Z2Nat.id; [done|].
    apply total_blocks_nonneg. }
  assert (Hw : ∃ v' di' v2, settles (Inode_write_at (St:=St) pack_efs (ino j) 0 data) v ∅ (Z.of_nat (length data)) v' ∧
    file_changed pack_efs (ino j) v di v' di' ∧ grew pack_efs v di 0 data (take n (free_bits (data_bitmap pack_efs) v)) di' v2 ∧
    all_bytes di' v' = all_bytes di' v2 ∧ all_ids di' v' = all_ids di' v2).
  { destruct (decide (data = [])) as [->|Hne].
    - destruct (empty_step v dis u j Him Ej) as (v' & ? & ? & ? & ? & ?). exists v', di, v. done.
    - apply (file_write_run (St:=St) pack_efs (ino j) v di 0 data (im_disk _ _ _ Him) Hf); try done.
      apply (image_available v dis u); [done|]. fold n. lia. }
  destruct Hw as (v' & di' & v2 & Hrun & Hch & Hg & Eb & Ei).
  destruct (grow_step v dis u j di 0 data n di' v2 v' Him Ej ltac:(lia) Hch Hg Ei) as (Him' & Hc & Hs0). rewrite Hn in Him'.
  exists v', di'. split; [exact Hrun|]. split; [exact Him'|]. split; [|by split].
  destruct (written_content di v di' v2 0 data _ pack_efs Hg) as [Hback _]; [done|apply (fa_at _ _ _ _ Hf)|apply Him|].
  change (Z.to_nat 0) with 0%nat in Hback. assert (Ec : content di' v' = content di' v2) by (unfold content; by rewrite Eb).
  rewrite Ec, <- Hback. unfold slice. rewrite drop_0. symmetry. apply take_ge.
  rewrite (length_content di' v2 (gw_view _ _ _ _ _ _ _ _ Hg) (gw_wf _ _ _ _ _ _ _ _ Hg)), (gw_size _ _ _ _ _ _ _ _ Hg). lia.
Qed.
End steps.

(** ** The packed image *)

(** Data blocks of the files, and with those of the directory *)
Fixpoint data_used (fs : list (list Z * list Z)) : Z :=
  match fs with
  | [] => 0
  | f :: fs => total_blocks (Z.of_nat (length f.2)) + data_used fs
  end.
Definition used (fs : list (list Z * list Z)) : Z := total_blocks (32 * Z.of_nat (length fs)) + data_used fs.

Definition entries_of (fs : list (list Z * list Z)) : list (list Z * Z) := imap (λ i f, (f.1, Z.of_nat (S i))) fs.

(** The programs [fs] are in the image, in this order. *)
Record packed (v : gmap Z (list Z)) (fs : list (list Z * list Z)) (dis : list DiskInode) (rdi : DiskInode) : Prop := {
  pk_image : image v dis (used fs);
  pk_count : length dis = S (length fs);
  pk_root : dis !! 0%nat = Some rdi;
  pk_size : di_size rdi = 32 * Z.of_nat (length fs);
  pk_dir : is_directory rdi v (entries_of fs);
  pk_file i f : fs !! i = Some f → ∃ di, dis !! S i = Some di ∧ content di v = f.2;
}.

(** A program that can be stored. *)
Definition app_ok (f : list Z * list Z) : Prop :=
  name_ok f.1 ∧ bytes f.1 ∧ bytes f.2 ∧ Z.of_nat (length f.2) ≤ MAX_SIZE.

Lemma total_blocks_mono a b : 0 ≤ a ≤ b → b ≤ MAX_SIZE → 0 ≤ total_blocks a ≤ total_blocks b.
Proof.
  intros Ha Hb. rewrite !total_blocks_nall by lia. split; [lia|].
  pose proof (data_blocks_mono a b ltac:(lia) Hb). pose proof (data_blocks_bound a ltac:(lia)).
  pose proof (nall_mono (Z.to_nat (_data_blocks a)) (Z.to_nat (_data_blocks b)) ltac:(lia)). lia.
Qed.

Lemma data_used_app l k : data_used (l ++ k) = data_used l + data_used k.
Proof. induction l as [|f l IH]; cbn [data_used app]; [done|]. lia. Qed.

Lemma data_used_nonneg l : 0 ≤ data_used l.
Proof. induction l as [|f l IH]; cbn [data_used]; [done|]. pose proof (total_blocks_nonneg (Z.of_nat (length f.2))). lia. Qed.

Lemma entries_of_snoc fs f : entries_of (fs ++ [f]) = entries_of fs ++ [(f.1, Z.of_nat (S (length fs)))].
Proof. unfold entries_of. rewrite imap_app. cbn. by rewrite Nat.add_0_r. Qed.

Lemma entries_names fs : fst <$> entries_of fs = fs.*1.
Proof. unfold entries_of. apply list_eq. intros i. rewrite !list_lookup_fmap, list_lookup_imap. by destruct (fs !! i). Qed.

Lemma entries_lookup fs name :
  match lookup_entry (entries_of fs) name with
  | Some id => ∃ i f, id = Z.of_nat (S i) ∧ fs !! i = Some f ∧ f.1 = name
  | None => name ∉ fs.*1
  end.
Proof.
  unfold lookup_entry. destruct (list_find _ (entries_of fs)) as [[i e]|] eqn:E; cbn.
  - apply list_find_Some in E as (Ei & Hn & _). unfold entries_of in Ei. rewrite list_lookup_imap in Ei.
    destruct (fs !! i) as [f|] eqn:Ef; [|done]. injection Ei as <-. by exists i, f.
  - apply list_find_None in E. rewrite <- entries_names. intros (e & -> & He)%list_elem_of_fmap.
    rewrite Forall_forall in E. by apply (E e).
Qed.

Section pack.
Context {St : Type} `{HS : BlockStore St, HL : !BlockStoreLaws St}.

Lemma pack_one v fs dis rdi f :
  packed v fs dis rdi → app_ok f → (f.1 ∉ fs.*1) → Z.of_nat (length fs) < 4095 → used (fs ++ [f]) ≤ PACK_DATA →
  ∃ v1 v' dis' rdi', settles (Inode_create (St:=St) pack_efs (ino 0) f.1) v ∅ (Some (ino (S (length fs)))) v1 ∧
    settles (Inode_write_at (St:=St) pack_efs (ino (S (length fs))) 0 f.2) v1 ∅ (Z.of_nat (length f.2)) v' ∧
    packed v' (fs ++ [f]) dis' rdi' ∧ v' !! 0 = v !! 0.
Proof.
  intros [Him Hcnt H0 Hsz Hdir Hfile] (Hn & Hbn & Hbd & Hmax) Hnew Hlen Hu.
  unfold used in Hu, Him. rewrite data_used_app, length_app in Hu. cbn [data_used length] in Hu.
  assert (Hms : MAX_SIZE = 8468480) by reflexivity.
  pose proof (total_blocks_mono (32 * Z.of_nat (length fs)) (32 * Z.of_nat (length fs) + 32) ltac:(lia) ltac:(lia)) as Hmono.
  replace (32 * Z.of_nat (length fs + 1)) with (32 * Z.of_nat (length fs) + 32) in Hu by lia.
  assert (Hblk : Z.of_nat (blocks_for rdi (di_size rdi + 32)) =
    total_blocks (32 * Z.of_nat (length fs) + 32) - total_blocks (32 * Z.of_nat (length fs))) by (unfold blocks_for; rewrite Hsz; lia).
  pose proof (total_blocks_nonneg (Z.of_nat (length f.2))) as Hpos. pose proof (data_used_nonneg fs) as Hdu.
  pose proof (entries_lookup fs f.1) as Hlk.
  destruct (lookup_entry (entries_of fs) f.1) as [id|] eqn:El.
  { destruct Hlk as (i & g & _ & Eg & Enm). exfalso. apply Hnew. rewrite <- Enm. apply list_elem_of_fmap. exists g. split; [done|].
    by eapply list_elem_of_lookup_2. }
  destruct (create_step (St:=St) v dis _ rdi (entries_of fs) f.1 Him H0 Hdir Hn Hbn El) as (v1 & rdi1 & Hrun1 & Him1 & Hdir1 & Hsz1 & Hc1 & Hs1);
    [unfold PACK_INODES; lia|lia|lia|]. rewrite Hcnt in Hrun1, Hdir1.
  assert (Ej : <[0%nat := rdi1]> (dis ++ [DiskInode_initialize File]) !! S (length fs) = Some (DiskInode_initialize File)).
  { rewrite list_lookup_insert_ne by lia. rewrite <- Hcnt. apply list_lookup_middle. done. }
  destruct (store_step (St:=St) v1 _ _ (S (length fs)) f.2 Him1 Ej) as (v' & di' & Hrun2 & Him2 & Hc2 & Ho2 & Hs2); [done|lia|lia|].
  exists v1, v', (<[S (length fs) := di']> (<[0%nat := rdi1]> (dis ++ [DiskInode_initialize File]))), rdi1.
  split; [done|]. split; [done|]. split; [|congruence].
  assert (Er : <[0%nat := rdi1]> (dis ++ [DiskInode_initialize File]) !! 0%nat = Some rdi1)
    by (apply list_lookup_insert_eq; rewrite length_app; cbn; lia).
  split.
  - unfold used. rewrite data_used_app, length_app. cbn [data_used length].
    replace (32 * Z.of_nat (length fs + 1)) with (32 * Z.of_nat (length fs) + 32) by lia.
    match goal with H : image v' _ ?x |- image v' _ ?y => replace y with x by lia; exact H end.
  - rewrite !length_insert, !length_app. cbn. lia.
  - rewrite list_lookup_insert_ne by lia. exact Er.
  - rewrite length_app, Hsz1. cbn. lia.
  - rewrite entries_of_snoc. destruct Hdir1 as (Hd1 & Hd2 & Hd3). split; [done|]. split; [|done]. rewrite <- Hd2. apply (Ho2 0%nat); [lia|exact Er].
  - intros i g [Ei|[Hi [Hi0 <-]%list_lookup_singleton_Some]]%lookup_app_Some.
    + destruct (Hfile i g Ei) as (d & Ed & Ecd). exists d. apply lookup_lt_Some in Ei. rewrite !list_lookup_insert_ne by lia.
      rewrite lookup_app_l by lia. split; [done|]. rewrite (Ho2 (S i) d), (Hc1 (S i) d); [done|lia|done|lia|].
      rewrite list_lookup_insert_ne, lookup_app_l by lia. done.
    + assert (i = length fs) as -> by lia. exists di'. split; [|done]. apply list_lookup_insert_eq.
      rewrite length_insert, length_app. cbn. lia.
Qed.

Lemma pack_apps_run host todo : ∀ v fs dis rdi,
  packed v fs dis rdi → Forall (λ f, app_ok f ∧ host f.1 = Some f.2) todo → NoDup (fs ++ todo).*1 →
  Z.of_nat (length (fs ++ todo)) ≤ 4095 → used (fs ++ todo) ≤ PACK_DATA →
  ∃ v' dis' rdi', stays (pack_apps (St:=St) host pack_efs (ino 0) todo.*1) v ∅ tt v' ∧ packed v' (fs ++ todo) dis' rdi' ∧ v' !! 0 = v !! 0.
Proof.
  induction todo as [|f todo IH]; intros v fs dis rdi Hp Ha Hnd Hlen Hu; cbn [pack_apps fmap list_fmap].
  { rewrite app_nil_r. exists v, dis, rdi. split; [apply stays_ret|done]. }
  apply Forall_cons in Ha as [[Ha Hh] Ht]. replace (fs ++ f :: todo) with ((fs ++ [f]) ++ todo) in * by (by rewrite <- app_assoc).
  pose proof (data_used_nonneg todo) as Hdu. assert (Hms : MAX_SIZE = 8468480) by reflexivity. rewrite length_app in Hlen.
  assert (Hu1 : used (fs ++ [f]) ≤ PACK_DATA).
  { unfold used in Hu |- *. rewrite (length_app (fs ++ [f])), data_used_app in Hu.
    pose proof (total_blocks_mono (32 * Z.of_nat (length (fs ++ [f]))) (32 * Z.of_nat (length (fs ++ [f]) + length todo)) ltac:(lia) ltac:(lia)). lia. }
  destruct (pack_one v fs dis rdi f Hp Ha) as (v1 & v2 & dis2 & rdi2 & Hr1 & Hr2 & Hp2 & Hs2); [|rewrite length_app in Hlen; cbn in Hlen; lia|done|].
  { rewrite !fmap_app, <- app_assoc in Hnd. apply NoDup_app in Hnd as (_ & Hnd & _). intros Hin. apply (Hnd _ Hin). apply list_elem_of_here. }
  destruct (IH v2 (fs ++ [f]) dis2 rdi2 Hp2 Ht Hnd) as (v' & dis' & rdi' & Hr & Hp' & Hs'); [rewrite length_app; lia|done|].
  exists v', dis', rdi'. split; [|split; [done|congruence]].
  eapply stays_bind; [apply stays_lift; by rewrite Hh|]. eapply stays_bind; [apply settles_stays, Hr1|].
  eapply stays_bind; [by apply stays_lift|]. eapply stays_bind; [apply settles_stays, Hr2|exact Hr].
Qed.
End pack.

Lemma formatted_packed v : view_ok v → formatted PACK_BLOCKS 1 pack_efs v → packed v [] [DiskInode_initialize Directory] (DiskInode_initialize Directory).
Proof.
  intros Hv [Hrb Hib Hdb Hroot _ _ Hpres]. set (di := DiskInode_initialize Directory) in *.
  assert (Hids : all_ids di v = []) by (by apply empty_inode_ids).
  assert (Hfile : file_at pack_efs (ino 0) v di).
  { split; [split|by vm_compute|rewrite Hids; by intros b ?%not_elem_of_nil].
    - by vm_compute.
    - apply Hpres. by vm_compute.
    - exact Hroot.
    - apply empty_inode_wf; [|done]. split; [done|]. split; [done|]. split; [by repeat constructor|done].
    - rewrite Hids. apply not_elem_of_nil. }
  split; try done.
  split; [split|..].
  - exact Hv.
  - split; [cbn; lia|]. split; [cbn; lia|]. split; [cbn; lia|]. intros b Hb. apply Hpres. unfold bm_block, PACK_BLOCKS in *. cbn in Hb. lia.
  - cbn. lia.
  - exact Hpres.
  - done.
  - split; [by intros [|[]] d [= <-]|]. intros [|[]] [|[]] d1 d2 b Hne [= <-] [= <-]; done.
  - done.
  - intros k Hk. rewrite Hdb by done. rewrite bool_decide_false; [done|]. change (used []) with 0. lia.
  - intros k Hk. destruct (decide (k = 0)) as [->|Hne]; [exact Hrb|]. unfold PACK_INODES in Hk.
    rewrite Hib by (change (maximum _) with 4096; lia). rewrite bool_decide_false; [done|]. cbn. lia.
Qed.

(** A packed program is found by its name, and read by the kernel. *)
Lemma packed_open {St} `{HS : BlockStore St, HL : !BlockStoreLaws St} v fs dis rdi f :
  packed v fs dis rdi → NoDup fs.*1 → f ∈ fs →
  ∃ o o', runs (open_file (St:=St) pack_efs (ino 0) f.1 OpenFlags_RDONLY) v ∅ (Some o) v ∧
          runs (read_all (St:=St) o) v ∅ (f.2, o') v ∧ writable o = false.
Proof.
  intros Hp Hnd [i Ei]%list_elem_of_lookup_1. pose proof (pk_image _ _ _ _ Hp) as Him.
  pose proof (fo_file _ _ (im_files _ _ _ Him) 0 rdi (pk_root _ _ _ _ Hp)) as Hr.
  destruct (directory_run (St:=St) pack_efs (ino 0) v rdi (entries_of fs) f.1 (dk_view _ _ (im_disk _ _ _ Him)) (fa_at _ _ _ _ Hr) (pk_dir _ _ _ _ Hp))
    as [_ Hfind].
  pose proof (entries_lookup fs f.1) as Hlk. destruct (lookup_entry (entries_of fs) f.1) as [id|].
  2:{ exfalso. apply Hlk, list_elem_of_fmap. exists f. split; [done|]. by eapply list_elem_of_lookup_2. }
  destruct Hlk as (j & g & -> & Ej & Eg).
  assert (i = j) as <-.
  { eapply (NoDup_lookup fs.*1); [exact Hnd|..]; rewrite list_lookup_fmap; [by rewrite Ei|]. rewrite Ej. cbn. by rewrite Eg. }
  destruct (pk_file _ _ _ _ Hp i f Ei) as (di & Ed & Ec). pose proof (fo_file _ _ (im_files _ _ _ Him) _ _ Ed) as Hf.
  exists (OSInode_new true false (ino (S i))). eexists. split; [|split; [|done]].
  - unfold open_file. cbn [read_write OpenFlags_RDONLY]. change (contains OpenFlags_RDONLY OpenFlags_CREATE) with false. cbv iota.
    eapply runs_bind; [exact Hfind|]. cbn [fmap option_fmap option_map]. eapply runs_bind; [apply runs_ret|apply runs_ret].
  - destruct (os_read_run (St:=St) (OSInode_new true false (ino (S i))) v di (fa_at _ _ _ _ Hf) (dk_view _ _ (im_disk _ _ _ Him))) as [_ Hall]; [done|].
    rewrite <- Ec. apply Hall. destruct (ia_wf _ _ _ (fa_at _ _ _ _ Hf)) as ((Hu & _) & _). apply Hu.
Qed.

Lemma pack_programs_run {St} `{HS : BlockStore St, HL : !BlockStoreLaws St} host dir fs v :
  view_ok v → (∀ b, 0 ≤ b < PACK_BLOCKS → is_Some (v !! b)) →
  mapM app_name dir = Ok fs.*1 → Forall (λ f, app_ok f ∧ host f.1 = Some f.2) fs → NoDup fs.*1 →
  Z.of_nat (length fs) ≤ 4095 → used fs ≤ PACK_DATA →
  ∃ v' dis rdi, settles (pack_programs (St:=St) host dir) v ∅ tt v' ∧ packed v' fs dis rdi ∧
    ∃ v0, formatted PACK_BLOCKS 1 pack_efs v0 ∧ v' !! 0 = v0 !! 0.
Proof.
  intros Hv Hb Hdir Ha Hnd Hlen Hu.
  destruct (create_run (St:=St) PACK_BLOCKS 1 v pack_fits Hv Hb) as (v0 & Hrun0 & Hv0 & Hfmt). rewrite pack_geometry in Hrun0, Hfmt.
  destruct (pack_apps_run (St:=St) host fs v0 [] _ _ (formatted_packed v0 Hv0 Hfmt) Ha Hnd Hlen Hu) as (v' & dis & rdi & Hrun & Hp & Hs0).
  exists v', dis, rdi. split; [|split; [exact Hp|by exists v0]].
  unfold pack_programs. eapply settles_then; [exact Hrun0|]. eapply stays_bind; [by apply stays_lift|]. exact Hrun.
Qed.

(** On the device, for the cache of the packer. *)
Lemma packed_device host dir fs (s : CacheState BlockFile) :
  cache_wf s → cache_held s = ∅ → (∀ b, 0 ≤ b < PACK_BLOCKS → is_Some (cache_view s !! b)) →
  mapM app_name dir = Ok fs.*1 → Forall (λ f, app_ok f ∧ host f.1 = Some f.2) fs → NoDup fs.*1 →
  Z.of_nat (length fs) ≤ 4095 → used fs ≤ PACK_DATA →
  ∃ s' dis rdi v0, pack_programs host dir s = Ok (tt, s') ∧ dev_wf (device s') ∧ packed (dev_view (device s')) fs dis rdi ∧
    formatted PACK_BLOCKS 1 pack_efs v0 ∧ dev_view (device s') !! 0 = v0 !! 0.
Proof.
  intros Hwf Hh Hblk Hdir Ha Hnd Hlen Hu.
  destruct (pack_programs_run (St:=CacheState BlockFile) host dir fs (cache_view s)) as (v' & dis & rdi & Hrun & Hp & v0 & Hfmt & Hs0); try done.
  { intros b blk. exact (view_block s b blk Hwf). }
  destruct (Hrun s Hwf eq_refl Hh) as (s' & Es & Hwf' & Hv' & _ & Hd). exists s', dis, rdi, v0.
  assert (dev_view (device s') = v') as -> by (rewrite <- Hv'; exact Hd). split; [done|]. by split; [apply Hwf'|].
Qed.

(** An image file of the right length. *)
Lemma set_len_ok f : bytes (file f) →
  let s := mkCacheState (set_len (16 * 2048 * 512) f) [] in
  cache_wf s ∧ cache_held s = ∅ ∧ ∀ b, 0 ≤ b < PACK_BLOCKS → is_Some (cache_view s !! b).
Proof.
  intros Hb s. assert (Hl : length (file (set_len (16 * 2048 * 512) f)) = Z.to_nat (16 * 2048 * 512)).
  { unfold set_len. cbn [file]. rewrite length_app, length_take, length_replicate. lia. }
  destruct (fresh_cache_wf (set_len (16 * 2048 * 512) f)) as [Hwf Hh].
  { split; [|rewrite Hl; lia]. apply Forall_app_2; [by apply Forall_take|by apply Forall_replicate]. }
  split; [exact Hwf|]. split; [exact Hh|]. intros b Hbb. change (is_Some (file_view (set_len (16 * 2048 * 512) f) !! b)).
  rewrite file_view_lookup. unfold file_blocks. rewrite Hl, decide_True; [by eexists|]. unfold PACK_BLOCKS, BLOCK_SZ in *. lia.
Qed.

(** C3: what the packer stores, the kernel reads.  For host files with an extension and
    distinct valid names before it, at most 4095 of them, each not longer than a file can
    be, and as many bytes as the data area has blocks for (those of the directory and of
    the indirect blocks counted), the packer runs to its end whatever the image file held
    before.  The image file that it leaves, without the block caches of the packer, is all
    that the kernel needs: from its blocks the kernel opens a file system of the same
    layout, lists the names in the order of the directory of the host, and opening and
    reading a program by its name gives the bytes of the host's file. *)
Theorem pack_roundtrip host dir fs fs_img :
  bytes (file fs_img) →
  mapM app_name dir = Ok fs.*1 → Forall (λ f, app_ok f ∧ host f.1 = Some f.2) fs → NoDup fs.*1 →
  Z.of_nat (length fs) ≤ 4095 → used fs ≤ PACK_DATA →
  ∃ img root, easy_fs_pack host dir fs_img = Ok img ∧ dev_wf img ∧
    root_inode pack_efs = (block_id root, block_offset root) ∧
    ∀ St (HS : BlockStore St) (HL : BlockStoreLaws St),
      runs (open (St:=St)) (dev_view img) ∅ pack_efs (dev_view img) ∧
      runs (ls (St:=St) root) (dev_view img) ∅ fs.*1 (dev_view img) ∧
      ∀ f, f ∈ fs → ∃ o o',
        runs (open_file (St:=St) pack_efs root f.1 OpenFlags_RDONLY) (dev_view img) ∅ (Some o) (dev_view img) ∧
        runs (read_all (St:=St) o) (dev_view img) ∅ (f.2, o') (dev_view img) ∧ writable o = false.
Proof.
  intros Hb Hdir Ha Hnd Hlen Hu. destruct (set_len_ok fs_img Hb) as (Hwf & Hh & Hblk).
  destruct (packed_device host dir fs _ Hwf Hh Hblk Hdir Ha Hnd Hlen Hu) as (s' & dis & rdi & v0 & Es & Hwf' & Hp & Hfmt & Hs0).
  exists (device s'), (ino 0). split; [unfold easy_fs_pack; mstep; by rewrite Es|]. split; [exact Hwf'|]. split; [done|].
  intros St HS HL. set (v' := dev_view (device s')) in *. split; [|split].
  - destruct (fmt_super _ _ _ _ Hfmt) as (blk & E & Hsb). rewrite <- Hs0 in E. rewrite <- pack_geometry. exact (open_run PACK_BLOCKS 1 v' blk pack_fits E Hsb).
  - pose proof (pk_image _ _ _ _ Hp) as Him. rewrite <- entries_names.
    apply (directory_run (St:=St) pack_efs (ino 0) v' rdi (entries_of fs) [] (dk_view _ _ (im_disk _ _ _ Him))); [|apply Hp].
    apply (fa_at _ _ _ _ (fo_file _ _ (im_files _ _ _ Him) 0 rdi (pk_root _ _ _ _ Hp))).
  - intros f Hf. by apply (packed_open v' fs dis rdi).
Qed.

(** ** Example *)

(** The program "a" of three bytes and the empty file "b", packed into a new image file
    and read with other block caches. *)
Definition demo_host (name : list Z) : option (list Z) :=
  if decide (name = [97]) then Some [1; 2; 3] else if decide (name = [98]) then Some [] else None.

Lemma pack_roundtrip_witness :
  ∃ img o s', easy_fs_pack demo_host [[97; 46; 99]; [98; 46]] (mkBlockFile []) = Ok img ∧
    (o ← open_file pack_efs (ino 0) [97] OpenFlags_RDONLY; o ← lift (unwrap o); read_all o) (mkCacheState img []) = Ok (([1; 2; 3], o), s').
Proof.
  destruct (pack_roundtrip demo_host [[97; 46; 99]; [98; 46]] [([97], [1; 2; 3]); ([98], [])] (mkBlockFile []))
    as (img & root & E & Hwf & Hroot & Hk).
  - constructor.
  - reflexivity.
  - assert (Hn : ∀ c, c = 97 ∨ c = 98 → name_ok [c] ∧ bytes [c]).
    { intros c Hc. split; [split; [|split; [|vm_compute; lia]]|].
      - rewrite list_elem_of_singleton. lia.
      - destruct Hc as [-> | ->]; reflexivity.
      - repeat constructor; lia. }
    apply Forall_cons; split; [|apply Forall_singleton]; (split; [|reflexivity]).
    + split; [apply Hn; by left|]. split; [apply Hn; by left|]. split; [|vm_compute; discriminate]. repeat constructor; lia.
    + split; [apply Hn; by right|]. split; [apply Hn; by right|]. split; [constructor|vm_compute; discriminate].
  - apply (bool_decide_unpack (NoDup [[97]; [98]])). vm_compute. exact I.
  - cbn. lia.
  - vm_compute. discriminate.
  - destruct (Hk _ _ (cache_store_laws (D:=BlockFile))) as (_ & _ & Hall).
    destruct (Hall ([97], [1; 2; 3])) as (o & o' & Hopen & Hread & _); [apply list_elem_of_here|].
    assert (root = ino 0) as -> by (destruct root; cbn in Hroot; vm_compute in Hroot; injection Hroot as <- <-; vm_compute; reflexivity).
    assert (Hr : runs (S:=CacheState BlockFile) (o ← open_file pack_efs (ino 0) [97] OpenFlags_RDONLY; o ← lift (unwrap o); read_all o)
      (dev_view img) ∅ ([1; 2; 3], o') (dev_view img)).
    { eapply runs_bind; [exact Hopen|]. eapply runs_bind; [by apply runs_lift|exact Hread]. }
    destruct (fresh_cache_wf img Hwf) as [Hwf' Hh].
    destruct (Hr (mkCacheState img []) Hwf' eq_refl Hh) as (s' & Es & _). exists img, o', s'. split; [exact E|exact Es].
Defined.
