(* ===== verification/Pipe.v ===== *)
(** * Pipes (os/src/fs/pipe.rs)

    A pipe is a ring buffer of 32 bytes shared by a read end and a write end.
    [Pipe::read] and [Pipe::write] copy between the ring and a user buffer and
    give the processor away when the ring is empty, or full, so a call is a
    sequence of activations: each runs from where the call was resumed to its
    next suspension or to its return.  On the single processor an activation
    is not interrupted by other kernel code, so the interleavings of calls on
    a pipe are the sequences of activations. *)

From S2P Require Import Prelude UserMem.

Definition RING_BUFFER_SIZE : Z := 32.

Inductive RingBufferStatus := Full | Empty | Normal.

#[export] Instance RingBufferStatus_eq_dec : EqDecision RingBufferStatus.
Proof. solve_decision. Defined.

(** [write_end] records that [set_write_end] has stored the weak reference. *)
Record PipeRingBuffer := mkRing {
  arr : list Z;
  head : Z;
  tail : Z;
  status : RingBufferStatus;
  write_end : bool;
}.

Definition PipeRingBuffer_new : PipeRingBuffer :=
  mkRing (replicate (Z.to_nat RING_BUFFER_SIZE) 0) 0 0 Empty false.

Definition set_write_end (r : PipeRingBuffer) : PipeRingBuffer :=
  mkRing (arr r) (head r) (tail r) (status r) true.

Definition write_byte (r : PipeRingBuffer) (byte : Z) : result PipeRingBuffer :=
  arr' ← upd (arr r) (tail r) byte;
  let tail' := (tail r +ᵤ 1) mod RING_BUFFER_SIZE in
  mret (mkRing arr' (head r) tail' (if tail' =? head r then Full else Normal) (write_end r)).

Definition read_byte (r : PipeRingBuffer) : result (Z * PipeRingBuffer) :=
  c ← idx (arr r) (head r);
  let head' := (head r +ᵤ 1) mod RING_BUFFER_SIZE in
  mret (c, mkRing (arr r) head' (tail r) (if head' =? tail r then Empty else Normal) (write_end r)).

Definition available_read (r : PipeRingBuffer) : Z :=
  if bool_decide (status r = Empty) then 0
  else if head r <? tail r then tail r -ᵤ head r
  else tail r +ᵤ RING_BUFFER_SIZE -ᵤ head r.

Definition available_write (r : PipeRingBuffer) : Z :=
  if bool_decide (status r = Full) then 0
  else RING_BUFFER_SIZE -ᵤ available_read r.

(** What a call on a pipe works on: the ring, whether a strong reference to the
    write end is left, and the physical memory behind the user buffers. *)
Record psys := mkPS {
  ring : PipeRingBuffer;
  write_open : bool;
  ram : gmap Z (list Z);
}.

(** [self.write_end.as_ref().unwrap().upgrade().is_none()] *)
Definition all_write_ends_closed (s : psys) : result bool :=
  unwrap (if write_end (ring s) then Some (negb (write_open s)) else None).

(** An end of the pipe: [readable] and [writable]. *)
Record Pipe := mkPipe { readable : bool; writable : bool }.

Definition read_end_with_buffer : Pipe := mkPipe true false.
Definition write_end_with_buffer : Pipe := mkPipe false true.

(** [make_pipe]: the two ends and the buffer they share *)
Definition make_pipe : Pipe * Pipe * PipeRingBuffer :=
  (read_end_with_buffer, write_end_with_buffer, set_write_end PipeRingBuffer_new).

(** Accesses through the pointers that the iterator of a user buffer yields. *)
Definition load (m : gmap Z (list Z)) (l : Z * Z) : result Z :=
  page ← unwrap (m !! l.1); idx page l.2.
Definition store (m : gmap Z (list Z)) (l : Z * Z) (b : Z) : result (gmap Z (list Z)) :=
  page ← unwrap (m !! l.1); page' ← upd page l.2 b; mret (<[l.1 := page']> m).

(** How an activation ends. *)
Inductive outcome :=
  | Returned (n : Z)
  | Suspended (it : UserBufferIterator) (already : Z).

(** [for _ in 0..loop_read { .. }]: [inl] is a return from the function *)
Fixpoint read_for (n : nat) (it : UserBufferIterator) (already want : Z) :
    M psys (Z + UserBufferIterator * Z) :=
  match n with
  | O => mret (inr (it, already))
  | S n =>
      '(o, it) ← lift (ub_next it);
      match o with
      | Some byte_ref =>
          s ← gets id;
          '(c, r) ← lift (read_byte (ring s));
          m ← lift (store (ram s) byte_ref c);
          puts (λ s, mkPS r (write_open s) m);;
          let already := already +ᵤ 1 in
          if already =? want then mret (inl want) else read_for n it already want
      | None => mret (inl already)
      end
  end.

(** The loop of [Pipe::read], from a resumption on. *)
Fixpoint read_loop (fuel : nat) (it : UserBufferIterator) (already want : Z) : M psys outcome :=
  match fuel with
  | O => throw OutOfFuel
  | S fuel =>
      s ← gets id;
      let loop_read := available_read (ring s) in
      if loop_read =? 0 then
        closed ← lift (all_write_ends_closed s);
        if closed : bool then mret (Returned already) else mret (Suspended it already)
      else
        x ← read_for (Z.to_nat loop_read) it already want;
        match x with
        | inl n => mret (Returned n)
        | inr (it, already) => read_loop fuel it already want
        end
  end.

(** A turn that does not return leaves the ring empty, so the second turn ends
    the activation. *)
Definition read_resume : UserBufferIterator → Z → Z → M psys outcome := read_loop 2.

Definition Pipe_read (p : Pipe) (buf : list pslice) : M psys outcome :=
  lift (assert_ (readable p));;
  read_resume (UserBuffer_into_iter buf) 0 (UserBuffer_len buf).

Fixpoint write_for (n : nat) (it : UserBufferIterator) (already want : Z) :
    M psys (Z + UserBufferIterator * Z) :=
  match n with
  | O => mret (inr (it, already))
  | S n =>
      '(o, it) ← lift (ub_next it);
      match o with
      | Some byte_ref =>
          s ← gets id;
          c ← lift (load (ram s) byte_ref);
          r ← lift (write_byte (ring s) c);
          puts (λ s, mkPS r (write_open s) (ram s));;
          let already := already +ᵤ 1 in
          if already =? want then mret (inl want) else write_for n it already want
      | None => mret (inl already)
      end
  end.

Fixpoint write_loop (fuel : nat) (it : UserBufferIterator) (already want : Z) : M psys outcome :=
  match fuel with
  | O => throw OutOfFuel
  | S fuel =>
      s ← gets id;
      let loop_write := available_write (ring s) in
      if loop_write =? 0 then mret (Suspended it already)
      else
        x ← write_for (Z.to_nat loop_write) it already want;
        match x with
        | inl n => mret (Returned n)
        | inr (it, already) => write_loop fuel it already want
        end
  end.

Definition write_resume : UserBufferIterator → Z → Z → M psys outcome := write_loop 2.

Definition Pipe_write (p : Pipe) (buf : list pslice) : M psys outcome :=
  lift (assert_ (writable p));;
  write_resume (UserBuffer_into_iter buf) 0 (UserBuffer_len buf).

(** ** The ring refines a bounded queue *)

Definition queue_status (q : list Z) : RingBufferStatus :=
  if (length q =? 0)%nat then Empty else if (length q =? 32)%nat then Full else Normal.

Record holds (r : PipeRingBuffer) (q : list Z) : Prop := {
  h_arr : length (arr r) = 32%nat;
  h_head : 0 ≤ head r < 32;
  h_tail : tail r = (head r + Z.of_nat (length q)) mod 32;
  h_len : (length q ≤ 32)%nat;
  h_status : status r = queue_status q;
  h_data : ∀ i x, q !! i = Some x → arr r !! Z.to_nat ((head r + Z.of_nat i) mod 32) = Some x;
}.

Lemma holds_new : holds (set_write_end PipeRingBuffer_new) [].
Proof. split; try done; simpl; lia. Qed.

Lemma holds_available_read r q : holds r q → available_read r = Z.of_nat (length q).
Proof.
  intros [Ha Hh Ht Hl Hs _]. unfold available_read. rewrite Hs. unfold queue_status.
  assert (0 ≤ tail r < 32) by (rewrite Ht; by apply Z.mod_pos_bound).
  destruct (Nat.eqb_spec (length q) 0) as [H0|H0]; [by rewrite bool_decide_true, H0|].
  rewrite bool_decide_false by (by case_match).
  unfold RING_BUFFER_SIZE. destruct (Z.ltb_spec (head r) (tail r));
    rewrite ?(u64_small (tail r + 32)), u64_small by lia;
    rewrite Ht in *; Z.to_euclidean_division_equations; lia.
Qed.

Lemma holds_available_write r q : holds r q → available_write r = 32 - Z.of_nat (length q).
Proof.
  intros Hr. unfold available_write. rewrite (holds_available_read r q) by done.
  destruct Hr as [Ha Hh Ht Hl Hs _]. rewrite Hs. unfold queue_status, RING_BUFFER_SIZE.
  destruct (Nat.eqb_spec (length q) 0) as [->|H0]; [done|].
  destruct (Nat.eqb_spec (length q) 32) as [->|H1]; [done|].
  rewrite bool_decide_false by done. apply u64_small. lia.
Qed.

Lemma write_byte_holds r q b :
  holds r q → (length q < 32)%nat →
  ∃ r', write_byte r b = Ok r' ∧ holds r' (q ++ [b]) ∧ write_end r' = write_end r.
Proof.
  intros [Ha Hh Ht Hl Hs Hd] Hlt. unfold write_byte.
  assert (Htl : 0 ≤ tail r < 32) by (rewrite Ht; by apply Z.mod_pos_bound).
  rewrite upd_Ok by lia. mstep. rewrite u64_small by lia. eexists. split; [reflexivity|].
  split; [|done]. split; cbn [arr head tail status]; try done.
  - by rewrite length_insert.
  - rewrite length_app. simpl. unfold RING_BUFFER_SIZE. rewrite Ht.
    Z.to_euclidean_division_equations; lia.
  - rewrite length_app. simpl. lia.
  - unfold queue_status. rewrite length_app. cbn [length].
    rewrite (proj2 (Nat.eqb_neq (length q + 1) 0)) by lia. unfold RING_BUFFER_SIZE.
    destruct (Z.eqb_spec ((tail r + 1) mod 32) (head r)), (Nat.eqb_spec (length q + 1) 32);
      try done; exfalso; rewrite Ht in *; Z.to_euclidean_division_equations; lia.
  - intros i x. destruct (decide (i = length q)) as [->|Hi].
    + rewrite list_lookup_middle by done. intros [= ->]. rewrite <- Ht.
      apply list_lookup_insert_eq. lia.
    + intros Hx. assert (i < length q)%nat.
      { apply lookup_lt_Some in Hx. rewrite length_app in Hx. simpl in Hx. lia. }
      rewrite lookup_app_l in Hx by done. rewrite list_lookup_insert_ne; [by apply Hd|].
      rewrite Ht. Z.to_euclidean_division_equations; lia.
Qed.

Lemma read_byte_holds r c q :
  holds r (c :: q) → ∃ r', read_byte r = Ok (c, r') ∧ holds r' q ∧ write_end r' = write_end r.
Proof.
  intros [Ha Hh Ht Hl Hs Hd]. unfold read_byte.
  specialize (Hd 0%nat c eq_refl) as H0. rewrite Z.add_0_r, Z.mod_small in H0 by done.
  rewrite (idx_Ok _ _ c) by done. mstep. rewrite u64_small by lia. eexists.
  split; [reflexivity|]. split; [|done]. cbn [length] in Ht, Hl. unfold RING_BUFFER_SIZE.
  split; cbn [arr head tail status]; try done.
  - by apply Z.mod_pos_bound.
  - rewrite Ht. Z.to_euclidean_division_equations; lia.
  - lia.
  - unfold queue_status. rewrite (proj2 (Nat.eqb_neq (length q) 32)) by lia.
    destruct (Z.eqb_spec ((head r + 1) mod 32) (tail r)), (Nat.eqb_spec (length q) 0);
      try done; exfalso; rewrite Ht in *; Z.to_euclidean_division_equations; lia.
  - intros i x Hx. rewrite <- (Hd (S i) x Hx). do 2 f_equal.
    Z.to_euclidean_division_equations; lia.
Qed.

(** ** Memory and buffers *)

Lemma load_cell m l b : cell m l = Some b → load m l = Ok b.
Proof.
  unfold cell, load. destruct (m !! l.1) as [page|]; [|done]. simpl. intros E. by apply idx_Ok.
Qed.

Lemma store_cell m l b :
  valid m l → ∃ m', store m l b = Ok m' ∧ cell m' l = Some b ∧
    (∀ l', 0 ≤ l'.2 → l' ≠ l → cell m' l' = cell m l') ∧ (∀ l', valid m l' → valid m' l').
Proof.
  destruct l as [p o]. unfold valid, cell, store. simpl. intros [Ho [x Hx]].
  destruct (m !! p) as [page|] eqn:Ep; [|done]. simpl in Hx |- *.
  pose proof (lookup_lt_Some _ _ _ Hx) as Hlt. rewrite upd_Ok by done. mstep.
  eexists. split; [reflexivity|]. rewrite lookup_insert_eq. simpl.
  rewrite list_lookup_insert_eq by done. split; [done|].
  assert (Hne : ∀ l', 0 ≤ l'.2 → l' ≠ (p, o) →
    <[p := <[Z.to_nat o := b]> page]> m !! l'.1 ≫= (λ page, page !! Z.to_nat l'.2) =
      m !! l'.1 ≫= λ page, page !! Z.to_nat l'.2).
  { intros [p' o'] Ho' Hn. simpl in *. destruct (decide (p' = p)) as [->|].
    - rewrite lookup_insert_eq, Ep. simpl. apply list_lookup_insert_ne.
      intros E%Z2Nat.inj; [congruence|done|done].
    - by rewrite lookup_insert_ne. }
  split; [exact Hne|]. intros l' [Hl' Hs]. split; [done|].
  destruct (decide (l' = (p, o))) as [->|]; [|by setoid_rewrite Hne].
  simpl. rewrite lookup_insert_eq. simpl. rewrite list_lookup_insert_eq by done. by eexists.
Qed.

(** The iterator yields exactly the locations [ls]. *)
Fixpoint yields (it : UserBufferIterator) (ls : list (Z * Z)) : Prop :=
  match ls with
  | [] => ub_next it = Ok (None, it)
  | l :: ls => ∃ it', ub_next it = Ok (Some l, it') ∧ yields it' ls
  end.

Lemma ub_next_None it it' : ub_next it = Ok (None, it') → it' = it.
Proof.
  unfold ub_next. case_match; [by intros [= <-]|]. intros E. res_inv.
Qed.

Lemma ub_collect_yields fuel it ls : ub_collect fuel it = Ok ls → yields it ls.
Proof.
  revert it ls. induction fuel as [|fuel IH]; intros it ls E; [done|]. cbn [ub_collect] in E.
  mstep. destruct (ub_next it) as [[[r|] it']|] eqn:En; [|injection E as <-|done].
  - destruct (ub_collect fuel it') as [ls'|] eqn:Ec; [|done]. injection E as <-.
    exists it'. split; [done|]. by apply IH.
  - simpl. by rewrite En, (ub_next_None _ _ En).
Qed.

(** Every buffer of non-empty slices. *)
Lemma yields_buffer buf :
  Forall (λ b, 0 ≤ sl_from b < sl_to b) buf → yields (UserBuffer_into_iter buf) (flatten buf).
Proof. intros Hb. by eapply ub_collect_yields, ub_collect_all. Qed.

(** ** Activations *)

(** A sequence of stores. *)
Fixpoint stores (m : gmap Z (list Z)) (ls : list (Z * Z)) (bs : list Z) : result (gmap Z (list Z)) :=
  match ls, bs with
  | l :: ls, b :: bs => m ← store m l b; stores m ls bs
  | _, _ => Ok m
  end.

Lemma stores_cells m ls bs :
  NoDup ls → Forall (valid m) ls → length ls = length bs →
  ∃ m', stores m ls bs = Ok m' ∧ Forall2 (λ l b, cell m' l = Some b) ls bs ∧
    (∀ l, 0 ≤ l.2 → l ∉ ls → cell m' l = cell m l) ∧ (∀ l, valid m l → valid m' l).
Proof.
  revert m bs. induction ls as [|l ls IH]; intros m [|b bs] Hnd Hv Hlen; try done.
  { exists m. by split_and!. }
  apply NoDup_cons in Hnd as [Hl Hnd]. apply Forall_cons in Hv as [Hvl Hv].
  destruct (store_cell m l b Hvl) as (m1 & E1 & Hc & Hne & Hv1).
  destruct (IH m1 bs Hnd) as (m' & E & Hf & Hu & Hv').
  { eapply Forall_impl; [exact Hv|exact Hv1]. }
  { by injection Hlen. }
  exists m'. cbn [stores]. rewrite E1. mstep. split; [done|]. split; [|split; [|auto]].
  - constructor; [|done]. rewrite Hu; [done|apply Hvl|done].
  - intros l' Hl' Hn. rewrite not_elem_of_cons in Hn. rewrite Hu by tauto. apply Hne; tauto.
Qed.

(** The copy out of the ring: it stops at the end of the buffer or after [n]
    bytes. *)
Lemma read_for_run n it ls already want s q :
  holds (ring s) q → yields it ls → ls ≠ [] → (n ≤ length q)%nat → Forall (valid (ram s)) ls →
  0 ≤ already → want = already + Z.of_nat (length ls) → want < 2 ^ 64 →
  ∃ x s', read_for n it already want s = Ok (x, s') ∧
    stores (ram s) (take n ls) (take n q) = Ok (ram s') ∧
    holds (ring s') (drop (min n (length ls)) q) ∧
    write_open s' = write_open s ∧ write_end (ring s') = write_end (ring s) ∧
    if (length ls <=? n)%nat then x = inl want
    else ∃ it', x = inr (it', already + Z.of_nat n) ∧ yields it' (drop n ls).
Proof.
  revert it ls already s q. induction n as [|n IH];
    intros it ls already s q Hr Hy Hne Hn Hv Ha Hw Hb; (destruct ls as [|l ls]; [by destruct Hne|]).
  { eexists _, s. split; [reflexivity|]. split_and!; try done. exists it. split; [|exact Hy]. by rewrite Z.add_0_r. }
  destruct Hy as (it' & En & Hy). destruct q as [|c q]; [simpl in Hn; lia|].
  destruct (read_byte_holds _ _ _ Hr) as (r' & Er & Hr' & Hwe). apply Forall_cons in Hv as [Hvl Hv].
  destruct (store_cell (ram s) l c Hvl) as (m1 & E1 & _ & _ & Hv1).
  cbn [read_for]. mstep. rewrite En. unfold id. rewrite Er. rewrite E1.
  cbn [length] in Hw, Hn. rewrite u64_small by lia.
  cbn [take stores length]. rewrite E1. mstep.
  destruct (Z.eqb_spec (already + 1) want) as [He|Hne'].
  - destruct ls; [|simpl in Hw; lia]. eexists _, _. split; [reflexivity|].
    cbn [ring ram write_open length]. rewrite take_nil. cbn [Nat.leb stores].
    rewrite Nat.min_r by lia. by split_and!.
  - destruct (IH it' ls (already + 1) (mkPS r' (write_open s) m1) q)
      as (x & s' & E & Hst & Hr'' & Hwo & Hwe' & Hx); try (done || lia).
    { intros ->. simpl in Hw. lia. }
    { eapply Forall_impl; [exact Hv|exact Hv1]. }
    exists x, s'. split; [exact E|]. split; [exact Hst|]. split; [exact Hr''|].
    split; [exact Hwo|]. split; [by rewrite Hwe'|].
    cbn [Nat.leb]. destruct (Nat.leb_spec (length ls) n); [exact Hx|].
    destruct Hx as (it'' & -> & Hy'). exists it''. split; [|exact Hy']. do 2 f_equal. lia.
Qed.

Lemma write_for_run n it ls bs already want s q :
  holds (ring s) q → yields it ls → ls ≠ [] → (n + length q ≤ 32)%nat →
  Forall2 (λ l b, cell (ram s) l = Some b) ls bs →
  0 ≤ already → want = already + Z.of_nat (length ls) → want < 2 ^ 64 →
  ∃ x r', write_for n it already want s = Ok (x, mkPS r' (write_open s) (ram s)) ∧
    holds r' (q ++ take n bs) ∧ write_end r' = write_end (ring s) ∧
    if (length ls <=? n)%nat then x = inl want
    else ∃ it', x = inr (it', already + Z.of_nat n) ∧ yields it' (drop n ls).
Proof.
  revert it ls bs already s q. induction n as [|n IH];
    intros it ls bs already s q Hr Hy Hne Hn Hv Ha Hw Hb;
    (destruct Hv as [|l b ls bs Hl Hv]; [by destruct Hne|]).
  { eexists _, (ring s). split; [by destruct s|]. cbn [take]. rewrite app_nil_r.
    split_and!; try done. exists it. split; [|exact Hy]. by rewrite Z.add_0_r. }
  destruct Hy as (it' & En & Hy).
  destruct (write_byte_holds _ _ b Hr) as (r' & Er & Hr' & Hwe); [lia|].
  cbn [write_for]. mstep. rewrite En. unfold id. rewrite (load_cell _ _ b), Er by done.
  cbn [length] in Hw. rewrite u64_small by lia. cbn [take length].
  destruct (Z.eqb_spec (already + 1) want) as [He|Hne'].
  - destruct ls; [|simpl in Hw; lia]. apply Forall2_nil_inv_l in Hv as ->.
    eexists _, r'. split; [reflexivity|]. rewrite take_nil. by split_and!.
  - destruct (IH it' ls bs (already + 1) (mkPS r' (write_open s) (ram s)) (q ++ [b]))
      as (x & r'' & E & Hr'' & Hwe' & Hx); try (done || lia).
    { intros ->. simpl in Hw. lia. }
    { rewrite length_app. simpl. lia. }
    exists x, r''. split; [exact E|]. split; [by rewrite <- app_assoc in Hr''|].
    split; [by rewrite Hwe'|]. cbn [Nat.leb]. destruct (Nat.leb_spec (length ls) n); [exact Hx|].
    destruct Hx as (it'' & -> & Hy'). exists it''. split; [|exact Hy']. do 2 f_equal. lia.
Qed.

Lemma stores_take m ls bs : stores m (take (length bs) ls) bs = stores m ls bs.
Proof.
  revert m ls. induction bs as [|b bs IH]; intros m [|l ls]; cbn [take length stores]; try done.
  destruct (store m l b); [apply IH|done].
Qed.

(** An activation of [read] moves as many bytes as the ring has and the buffer
    takes; it returns when the buffer is full or the ring is drained and closed. *)
Lemma read_resume_run it ls already want s q :
  holds (ring s) q → write_end (ring s) = true → yields it ls → Forall (valid (ram s)) ls →
  0 ≤ already → want = already + Z.of_nat (length ls) → want < 2 ^ 64 →
  let k := min (length q) (length ls) in
  ∃ o s', read_resume it already want s = Ok (o, s') ∧ stores (ram s) ls q = Ok (ram s') ∧
    holds (ring s') (drop k q) ∧ write_open s' = write_open s ∧ write_end (ring s') = true ∧
    (q ≠ [] ∧ (length ls ≤ length q)%nat ∧ o = Returned want ∨
     (q = [] ∨ (length q < length ls)%nat) ∧
       if write_open s then ∃ it', o = Suspended it' (already + Z.of_nat k) ∧ yields it' (drop k ls)
       else o = Returned (already + Z.of_nat k)).
Proof.
  intros Hr Hwe Hy Hv Ha Hw Hb k. unfold read_resume. cbn [read_loop]. mstep. unfold id.
  rewrite (holds_available_read _ q) by done. destruct (decide (q = [])) as [->|Hqn].
  { cbn [length Z.of_nat Z.eqb]. unfold all_write_ends_closed. rewrite Hwe. cbn [unwrap].
    unfold k. cbn [length Nat.min drop]. rewrite Z.add_0_r.
    destruct (write_open s) eqn:Ewo; cbn [negb]; eexists _, s; (split; [reflexivity|]);
      (split; [by destruct ls|]); (split; [done|]); (split; [done|]); (split; [done|]);
      right; (split; [by left|]); [|done]. by exists it. }
  assert (Hq : (0 < length q)%nat) by (destruct q; [done|simpl; lia]).
  rewrite (proj2 (Z.eqb_neq _ _)) by lia. rewrite Nat2Z.id.
  destruct (decide (ls = [])) as [->|Hln].
  { destruct (length q) as [|n] eqn:En; [lia|]. cbn [read_for]. mstep. simpl in Hy. rewrite Hy.
    eexists _, s. split; [reflexivity|]. split; [done|].
    split; [done|]. split; [done|]. split; [done|]. left. split; [done|]. split; [simpl; lia|].
    f_equal. simpl in Hw. lia. }
  destruct (read_for_run (length q) it ls already want s q)
    as (x & s' & E & Hst & Hr' & Hwo & Hwe' & Hx); try (done || lia).
  rewrite (take_ge q) in Hst by lia. rewrite stores_take in Hst. rewrite E. fold k in Hr'.
  destruct (Nat.leb_spec (length ls) (length q)) as [Hle|Hgt].
  - subst x. eexists _, s'. split; [reflexivity|]. split_and!; try done; [by cbn [ring]; rewrite Hwe'|].
    left. by split_and!.
  - destruct Hx as (it' & -> & Hy'). unfold k in *. rewrite Nat.min_l in Hr' |- * by lia.
    rewrite (holds_available_read (ring s') []) by (by rewrite drop_all in Hr').
    cbn [length Z.of_nat Z.eqb]. unfold all_write_ends_closed. rewrite Hwe', Hwe, Hwo. cbn [unwrap].
    destruct (write_open s); cbn [negb]; eexists _, s'; (split; [reflexivity|]); split_and!; try done;
      try (by rewrite Hwe'); right; (split; [by right|]); [by exists it'|done].
Qed.

(** An activation of [write] moves as many bytes as the buffer has and the ring
    has room for. *)
Lemma write_resume_run it ls bs already want s q :
  holds (ring s) q → yields it ls → Forall2 (λ l b, cell (ram s) l = Some b) ls bs →
  0 ≤ already → want = already + Z.of_nat (length ls) → want < 2 ^ 64 →
  let room := (32 - length q)%nat in
  let k := min room (length ls) in
  ∃ o r', write_resume it already want s = Ok (o, mkPS r' (write_open s) (ram s)) ∧
    holds r' (q ++ take k bs) ∧ write_end r' = write_end (ring s) ∧
    (room ≠ 0%nat ∧ (length ls ≤ room)%nat ∧ o = Returned want ∨
     (room = 0%nat ∨ (room < length ls)%nat) ∧
       ∃ it', o = Suspended it' (already + Z.of_nat k) ∧ yields it' (drop k ls)).
Proof.
  intros Hr Hy Hv Ha Hw Hb room k. unfold write_resume. cbn [write_loop]. mstep. unfold id.
  assert (Hlen := h_len _ _ Hr). assert (Hlb := Forall2_length _ _ _ Hv).
  rewrite (holds_available_write _ q) by done.
  destruct (Z.eqb_spec (32 - Z.of_nat (length q)) 0) as [H0|H0].
  { eexists _, (ring s). split; [by destruct s|].
    assert (k = 0%nat) as -> by (unfold k, room; lia). cbn [take drop]. rewrite app_nil_r, Z.add_0_r.
    split; [done|]. split; [done|]. right. split; [left; unfold room; lia|]. by exists it. }
  replace (Z.to_nat (32 - Z.of_nat (length q))) with room by (unfold room; lia).
  assert (Hroom : room ≠ 0%nat) by (unfold room; lia).
  destruct (decide (ls = [])) as [->|Hln].
  { apply Forall2_nil_inv_l in Hv as ->. destruct room as [|n] eqn:En; [lia|].
    cbn [write_for]. mstep. simpl in Hy. rewrite Hy. eexists _, (ring s). split; [by destruct s|].
    rewrite take_nil, app_nil_r. split; [done|]. split; [done|]. left. split; [done|].
    split; [simpl; lia|]. f_equal. simpl in Hw. lia. }
  destruct (write_for_run room it ls bs already want s q)
    as (x & r' & E & Hr' & Hwe & Hx); try (done || (unfold room; lia)).
  rewrite E. destruct (Nat.leb_spec (length ls) room) as [Hle|Hgt].
  - subst x. eexists _, r'. split; [reflexivity|]. rewrite (take_ge bs room) in Hr' by lia.
    rewrite (take_ge bs k) by (unfold k; lia). split; [done|]. split; [done|]. left. by split_and!.
  - destruct Hx as (it' & -> & Hy'). assert (k = room) as -> by (unfold k; lia). cbn [ring].
    rewrite (holds_available_write r' (q ++ take room bs)) by done.
    rewrite length_app, length_take, Nat.min_l by lia.
    rewrite (proj2 (Z.eqb_eq _ _)) by (unfold room; lia).
    eexists _, r'. split; [reflexivity|]. split; [done|]. split; [done|]. right.
    split; [by right|]. by exists it'.
Qed.

(** ** Interleavings of calls *)

(** The bytes an activation moved, of a call that had moved [already]. *)
Definition progress (already : Z) (o : outcome) : nat :=
  Z.to_nat (match o with Returned n => n | Suspended _ n => n end - already).

(** What a call can be resumed with: [ls] are the locations of its buffer that
    are left. *)
Definition resumable (m : gmap Z (list Z)) (it : UserBufferIterator) (ls : list (Z * Z))
    (already want : Z) : Prop :=
  yields it ls ∧ NoDup ls ∧ Forall (valid m) ls ∧
  0 ≤ already ∧ want = already + Z.of_nat (length ls) ∧ want < 2 ^ 64.

(** The histories of a pipe: the activations of any number of readers and
    writers in any order, the closing of the write end, and changes of the
    memory between activations; with the bytes that writers took from their
    buffers and the bytes that readers found in theirs. *)
Inductive ptrace : psys → list Z → list Z → Prop :=
  | pt_new m : ptrace (mkPS make_pipe.2 true m) [] []
  | pt_read s ins outs it ls already want o s' bs :
      ptrace s ins outs → resumable (ram s) it ls already want →
      read_resume it already want s = Ok (o, s') →
      Forall2 (λ l b, cell (ram s') l = Some b) (take (progress already o) ls) bs →
      ptrace s' ins (outs ++ bs)
  | pt_write s ins outs it ls already want o s' bs :
      ptrace s ins outs → resumable (ram s) it ls already want →
      write_resume it already want s = Ok (o, s') →
      Forall2 (λ l b, cell (ram s) l = Some b) (take (progress already o) ls) bs →
      ptrace s' (ins ++ bs) outs
  | pt_close s ins outs : ptrace s ins outs → ptrace (mkPS (ring s) false (ram s)) ins outs
  | pt_memory s ins outs m : ptrace s ins outs → ptrace (mkPS (ring s) (write_open s) m) ins outs.

Lemma cells_valid m ls : Forall (valid m) ls → ∃ bs, Forall2 (λ l b, cell m l = Some b) ls bs.
Proof.
  induction 1 as [|l ls [_ [b Hb]] _ [bs IH]]; [by exists []|]. exists (b :: bs). by constructor.
Qed.

Lemma cells_fun m ls bs bs' :
  Forall2 (λ l b, cell m l = Some b) ls bs → Forall2 (λ l b, cell m l = Some b) ls bs' → bs = bs'.
Proof.
  intros H. revert bs'. induction H as [|l b ls bs Hb _ IH]; intros bs' H'.
  - by apply Forall2_nil_inv_l in H' as ->.
  - apply Forall2_cons_inv_l in H' as (b' & bs'' & Hb' & H' & ->). f_equal; [congruence|auto].
Qed.

(** The cells of the buffer after the stores of an activation. *)
Lemma stores_prefix m ls q m' :
  NoDup ls → Forall (valid m) ls → stores m ls q = Ok m' →
  let k := min (length q) (length ls) in
  Forall2 (λ l b, cell m' l = Some b) (take k ls) (take k q) ∧
  (∀ l, 0 ≤ l.2 → l ∉ ls → cell m' l = cell m l) ∧ (∀ l, valid m l → valid m' l).
Proof.
  intros Hnd Hv E k.
  assert (E' : stores m (take k ls) (take k q) = Ok m').
  { rewrite <- E. unfold k. clear. revert m q.
    induction ls as [|l ls IH]; intros m [|b q]; cbn [take length Nat.min stores]; try done.
    destruct (store m l b); [apply IH|done]. }
  assert (Hnd' : NoDup (take k ls)) by (eapply sublist_NoDup; [exact Hnd|apply sublist_take]).
  destruct (stores_cells m (take k ls) (take k q) Hnd') as (m1 & E1 & Hf & Hu & Hv1).
  { by apply Forall_take. }
  { rewrite !length_take. unfold k. lia. }
  rewrite E' in E1. injection E1 as <-. split; [done|]. split; [|done].
  intros l Hl Hn. apply Hu; [done|]. intros Hin%elem_of_take_weak. done.
Qed.

Lemma ptrace_holds s ins outs :
  ptrace s ins outs →
  ∃ q, holds (ring s) q ∧ write_end (ring s) = true ∧ ins = outs ++ q.
Proof.
  induction 1 as [m|s ins outs it ls already want o s' bs _ IH Hres E Hbs
    |s ins outs it ls already want o s' bs _ IH Hres E Hbs|s ins outs _ IH|s ins outs m _ IH];
    [|destruct IH as (q & Hq & Hwe & ->)..].
  - exists []. split; [apply holds_new|done].
  - destruct Hres as (Hy & Hnd & Hv & Ha & Hw & Hb).
    destruct (read_resume_run it ls already want s q) as (o' & s'' & E' & Hst & Hr' & _ & Hwe' & Ho);
      try done. rewrite E in E'. injection E' as <- <-.
    destruct (stores_prefix _ _ _ _ Hnd Hv Hst) as (Hf & _).
    set (k := min (length q) (length ls)) in *.
    assert (Hk : progress already o = k).
    { unfold progress. destruct Ho as [(_ & ? & ->)|(_ & Ho)]; [unfold k; lia|].
      destruct (write_open s); [destruct Ho as (? & -> & _)|subst o]; lia. }
    rewrite Hk in Hbs. pose proof (cells_fun _ _ _ _ Hbs Hf) as ->.
    exists (drop k q). split; [done|]. split; [done|]. by rewrite <- app_assoc, take_drop.
  - destruct Hres as (Hy & Hnd & Hv & Ha & Hw & Hb). destruct (cells_valid _ _ Hv) as [cs Hcs].
    destruct (write_resume_run it ls cs already want s q) as (o' & r' & E' & Hr' & Hwe' & Ho);
      try done. rewrite E in E'. injection E' as <- ->. cbn [ring].
    set (k := min (32 - length q) (length ls)) in *.
    assert (Hk : progress already o = k).
    { unfold progress. destruct Ho as [(_ & ? & ->)|(_ & it' & -> & _)]; unfold k; lia. }
    rewrite Hk in Hbs. pose proof (cells_fun _ _ _ _ Hbs (Forall2_take _ _ _ k Hcs)) as ->.
    exists (q ++ take k cs). split; [done|]. split; [by rewrite Hwe'|]. by rewrite app_assoc.
  - by exists q.
  - by exists q.
Qed.

(** ** A transfer *)

(** Resumes a call that is suspended. *)
Definition resume (step : UserBufferIterator → Z → Z → M psys outcome) (want : Z) (o : outcome) :
    M psys outcome :=
  match o with
  | Suspended it already => step it already want
  | Returned n => mret (Returned n)
  end.

(** A writer and a reader that take turns. *)
Fixpoint alternate (rounds : nat) (want : Z) (w r : outcome) : M psys (outcome * outcome) :=
  match rounds with
  | O => mret (w, r)
  | S rounds =>
      w ← resume write_resume want w;
      r ← resume read_resume want r;
      alternate rounds want w r
  end.

Lemma alternate_done rounds want n m s :
  alternate rounds want (Returned n) (Returned m) s = Ok ((Returned n, Returned m), s).
Proof. induction rounds as [|rounds IH]; [done|]. cbn [alternate resume]. mstep. exact IH. Qed.

Lemma cells_ext m m' ls bs :
  (∀ l, l ∈ ls → cell m' l = cell m l) →
  Forall2 (λ l b, cell m l = Some b) ls bs → Forall2 (λ l b, cell m' l = Some b) ls bs.
Proof.
  intros He H. induction H as [|l b ls bs Hb _ IH]; constructor.
  - rewrite He; [done|apply list_elem_of_here].
  - apply IH. intros l' Hl'. by apply He, list_elem_of_further.
Qed.

Lemma alternate_run rounds want already itw itr lw lr bs s :
  holds (ring s) [] → write_end (ring s) = true → write_open s = true →
  resumable (ram s) itw lw already want → resumable (ram s) itr lr already want →
  (∀ l, l ∈ lw → l ∉ lr) → Forall2 (λ l b, cell (ram s) l = Some b) lw bs →
  (0 < length lw ≤ 32 * rounds)%nat →
  ∃ s', alternate rounds want (Suspended itw already) (Suspended itr already) s =
      Ok ((Returned want, Returned want), s') ∧
    Forall2 (λ l b, cell (ram s') l = Some b) lr bs ∧
    (∀ l, 0 ≤ l.2 → l ∉ lr → cell (ram s') l = cell (ram s) l).
Proof.
  revert already itw itr lw lr bs s.
  induction rounds as [|rounds IH]; intros already itw itr lw lr bs s Hr Hwe Hwo Hw Hrd Hdis Hbs Hn;
    [lia|].
  destruct Hw as (Hyw & Hndw & Hvw & Ha & Hw & Hb), Hrd as (Hyr & Hndr & Hvr & _ & Hw' & _).
  assert (Hlen : length lr = length lw) by lia. assert (Hlb := Forall2_length _ _ _ Hbs).
  destruct (write_resume_run itw lw bs already want s []) as (o & r' & E & Hr' & Hwe' & Ho); try done.
  cbn [length app] in Hr', Ho. rewrite Nat.sub_0_r in Hr', Ho.
  set (q := take (min 32 (length lw)) bs) in *.
  assert (Hlq : length q = min 32 (length lw)) by (unfold q; rewrite length_take; lia).
  destruct (read_resume_run itr lr already want (mkPS r' (write_open s) (ram s)) q)
    as (o' & s' & E' & Hst & Hrr & Hwo' & Hwer & Ho'); try done; [by cbn [ring]; rewrite Hwe'|].
  cbn [ram write_open ring] in *. rewrite Hwo in *.
  destruct (stores_prefix _ _ _ _ Hndr Hvr Hst) as (Hf & Hu & Hv').
  replace (min (length q) (length lr)) with (min 32 (length lw)) in * by lia.
  set (k := min 32 (length lw)) in *. cbn [alternate resume]. mstep. rewrite E, E'.
  assert (Hqk : take k q = take k bs) by (unfold q; rewrite take_take; f_equal; lia).
  rewrite Hqk in Hf. destruct Ho as [(_ & Hle & ->)|([|Hgt] & it' & -> & Hy')]; [|done|].
  - destruct Ho' as [(_ & _ & ->)|([Hq0|?] & _)]; [|apply (f_equal length) in Hq0; simpl in Hq0; lia|lia].
    exists s'. split; [apply alternate_done|].
    rewrite !take_ge in Hf by (unfold k; lia). by split.
  - destruct Ho' as [(_ & ? & _)|(_ & itr' & -> & Hyr')]; [unfold k in *; lia|].
    destruct (IH (already + Z.of_nat k) it' itr' (drop k lw) (drop k lr) (drop k bs) s')
      as (s'' & E'' & Hf'' & Hu''); try done.
    + by rewrite drop_ge in Hrr by lia.
    + split; [done|]. split; [by apply (NoDup_drop k lw)|]. split; [|rewrite length_drop; unfold k in *; lia].
      apply Forall_drop. by eapply Forall_impl.
    + split; [done|]. split; [by apply (NoDup_drop k lr)|]. split; [|rewrite length_drop; unfold k in *; lia].
      apply Forall_drop. by eapply Forall_impl.
    + intros l Hl%elem_of_drop_weak Hin%elem_of_drop_weak. by apply (Hdis l).
    + apply Forall2_drop, (cells_ext (ram s)); [|done]. intros l Hl. apply Hu; [|by apply Hdis].
      rewrite Forall_forall in Hvw. by apply Hvw.
    + rewrite length_drop. unfold k in *. lia.
    + exists s''. split; [exact E''|]. split.
      * rewrite <- (take_drop k lr), <- (take_drop k bs). apply Forall2_app; [|done].
        apply (cells_ext (ram s')); [|done]. intros l Hl. apply Hu''.
        { rewrite Forall_forall in Hvr. apply Hvr. by eapply elem_of_take_weak. }
        intros Hin. rewrite <- (take_drop k lr) in Hndr. apply NoDup_app in Hndr as (_ & Hd & _).
        by apply (Hd l).
      * intros l Hl Hn'. rewrite Hu''; [by apply Hu|done|].
        intros Hin%elem_of_drop_weak. done.
Qed.

(** ** Properties *)

(** A pipe is a FIFO queue of at most 32 bytes.  In every history of
    activations of readers and writers, the bytes taken from the writers'
    buffers are, in order, the bytes delivered into the readers' buffers
    followed by the contents of the ring; and every activation ends without a
    panic, having moved as many bytes as the ring and the buffer allow. *)
Theorem pipe_fifo s ins outs :
  ptrace s ins outs →
  ∃ q, holds (ring s) q ∧ (length q ≤ 32)%nat ∧ ins = outs ++ q ∧
    ∀ it ls already want, resumable (ram s) it ls already want →
      (∃ o s', read_resume it already want s = Ok (o, s') ∧
        progress already o = min (length q) (length ls)) ∧
      (∃ o s', write_resume it already want s = Ok (o, s') ∧
        progress already o = min (32 - length q) (length ls)).
Proof.
  intros Ht. destruct (ptrace_holds _ _ _ Ht) as (q & Hq & Hwe & Hi). exists q.
  split; [done|]. split; [by apply (h_len _ _ Hq)|]. split; [done|].
  intros it ls already want (Hy & Hnd & Hv & Ha & Hw & Hb). split.
  - destruct (read_resume_run it ls already want s q) as (o & s' & E & _ & _ & _ & _ & Ho); try done.
    exists o, s'. split; [done|]. unfold progress. destruct Ho as [(_ & ? & ->)|(_ & Ho)]; [lia|].
    destruct (write_open s); [destruct Ho as (? & -> & _)|subst o]; lia.
  - destruct (cells_valid _ _ Hv) as [cs Hcs].
    destruct (write_resume_run it ls cs already want s q) as (o & r' & E & _ & _ & Ho); try done.
    exists o. eexists. split; [exact E|]. unfold progress.
    destruct Ho as [(_ & ? & ->)|(_ & it' & -> & _)]; lia.
Qed.

(** C24: a transfer of any length completes.  When one process writes a buffer to
    a fresh pipe and another reads a buffer of the same length, taking turns
    whenever they suspend, both calls return the full length after one turn for
    every 32 bytes, the reader's buffer then holds exactly the writer's bytes,
    and no other memory has changed. *)
Theorem pipe_transfer m bufw bufr bs rounds :
  let '(rp, wp, r) := make_pipe in
  let lw := flatten bufw in
  let lr := flatten bufr in
  Forall (λ b, 0 ≤ sl_from b < sl_to b) (bufw ++ bufr) →
  NoDup (lw ++ lr) → Forall (valid m) (lw ++ lr) →
  Forall2 (λ l b, cell m l = Some b) lw bs → length lr = length lw →
  (0 < length lw ≤ 32 * rounds)%nat → Z.of_nat (length lw) < 2 ^ 64 →
  ∃ w s', Pipe_write wp bufw (mkPS r true m) = Ok (w, s') ∧
    ∃ o s'', Pipe_read rp bufr s' = Ok (o, s'') ∧
      ∃ s3, alternate rounds (Z.of_nat (length lw)) w o s'' =
          Ok ((Returned (Z.of_nat (length lw)), Returned (Z.of_nat (length lw))), s3) ∧
        Forall2 (λ l b, cell (ram s3) l = Some b) lr bs ∧
        (∀ l, 0 ≤ l.2 → l ∉ lr → cell (ram s3) l = cell m l).
Proof.
  unfold make_pipe. cbv beta iota. set (lw := flatten bufw). set (lr := flatten bufr).
  intros Hne Hnd Hv Hbs Hlen Hn Hb.
  apply Forall_app in Hne as [Hnw Hnr], Hv as [Hvw Hvr]. apply NoDup_app in Hnd as (Hndw & Hd & Hndr).
  set (want := Z.of_nat (length lw)).
  destruct (alternate_run (S rounds) want 0 (UserBuffer_into_iter bufw) (UserBuffer_into_iter bufr)
    lw lr bs (mkPS (set_write_end PipeRingBuffer_new) true m)) as (s3 & E & Hf & Hu); try done.
  - apply holds_new.
  - split; [by apply yields_buffer|]. split_and!; try done; lia.
  - split; [by apply yields_buffer|]. split_and!; try done; lia.
  - lia.
  - cbn [alternate resume] in E. unfold Pipe_write, Pipe_read.
    rewrite !UserBuffer_len_flatten by done. fold lw lr. rewrite Hlen. fold want.
    cbn [readable writable read_end_with_buffer write_end_with_buffer assert_]. mstep.
    destruct (write_resume _ _ _ _) as [[w s1]|]; [|done]. exists w, s1. split; [done|].
    destruct (read_resume _ _ _ _) as [[o s2]|]; [|done]. exists o, s2. split; [done|].
    by exists s3.
Qed.

(** ** Witnesses *)

Definition demo_mem : gmap Z (list Z) := {[7 := [1; 2; 3; 4]; 8 := [0; 0; 0; 0]]}.

Lemma demo_resumable m p from to bs :
  m !! p = Some bs → 0 ≤ from < to → to ≤ Z.of_nat (length bs) → to < 2 ^ 64 →
  resumable m (UserBuffer_into_iter [mkSlice p from to])
    (locations (mkSlice p from to)) 0 (to - from).
Proof.
  intros Hp Hft Hto Hb. split.
  - rewrite <- (app_nil_r (locations _)). apply (yields_buffer [_]). constructor; [exact Hft|constructor].
  - unfold locations, sl_len. cbn [sl_ppn sl_from sl_to].
    split; [apply NoDup_fmap_2; [by intros ?? [=]|apply NoDup_seqZ]|].
    rewrite length_fmap, length_seqZ. split; [|lia].
    apply Forall_fmap, Forall_forall. intros o Ho%elem_of_seqZ. unfold valid, cell. cbn [fst snd compose].
    split; [lia|]. rewrite Hp. apply lookup_lt_is_Some. lia.
Qed.

(** Three bytes are written, then two are read. *)
Definition demo_written : psys :=
  mkPS (mkRing ([1; 2; 3] ++ replicate 29 0) 0 3 Normal true) true demo_mem.
Definition demo_read : psys :=
  mkPS (mkRing ([1; 2; 3] ++ replicate 29 0) 2 3 Normal true) true
    {[7 := [1; 2; 3; 4]; 8 := [0; 1; 2; 0]]}.

Lemma demo_write_run :
  write_resume (UserBuffer_into_iter [mkSlice 7 0 3]) 0 3 (mkPS make_pipe.2 true demo_mem) =
    Ok (Returned 3, demo_written).
Proof. vm_compute. reflexivity. Qed.

Lemma demo_read_run :
  read_resume (UserBuffer_into_iter [mkSlice 8 1 3]) 0 2 demo_written = Ok (Returned 2, demo_read).
Proof. vm_compute. reflexivity. Qed.

Lemma demo_trace : ptrace demo_read [1; 2; 3] [1; 2].
Proof.
  apply (pt_read demo_written [1; 2; 3] [] (UserBuffer_into_iter [mkSlice 8 1 3])
    (locations (mkSlice 8 1 3)) 0 2 (Returned 2) demo_read [1; 2]).
  - apply (pt_write _ [] [] (UserBuffer_into_iter [mkSlice 7 0 3])
      (locations (mkSlice 7 0 3)) 0 3 (Returned 3) _ [1; 2; 3] (pt_new demo_mem)).
    + apply (demo_resumable demo_mem 7 0 3 [1; 2; 3; 4]); (done || simpl; lia).
    + exact demo_write_run.
    + by repeat constructor.
  - apply (demo_resumable demo_mem 8 1 3 [0; 0; 0; 0]); (done || simpl; lia).
  - exact demo_read_run.
  - by repeat constructor.
Qed.

Lemma pipe_fifo_witness : ∃ q, holds (ring demo_read) q ∧ [1; 2; 3] = [1; 2] ++ q.
Proof.
  destruct (pipe_fifo _ _ _ demo_trace) as (q & Hq & _ & Hi & _).
  exists q. split; [exact Hq|exact Hi].
Defined.

(** Forty bytes, so the writer suspends once. *)
Definition wide_mem : gmap Z (list Z) := {[7 := seqZ 100 40; 8 := replicate 40 0]}.

Lemma pipe_transfer_witness :
  ∃ w s1 r s2 s3,
    Pipe_write make_pipe.1.2 [mkSlice 7 0 25; mkSlice 7 25 40] (mkPS make_pipe.2 true wide_mem) = Ok (w, s1) ∧
    Pipe_read make_pipe.1.1 [mkSlice 8 0 40] s1 = Ok (r, s2) ∧
    alternate 2 40 w r s2 = Ok ((Returned 40, Returned 40), s3) ∧
    Forall2 (λ l b, cell (ram s3) l = Some b) (flatten [mkSlice 8 0 40]) (seqZ 100 40).
Proof.
  destruct (pipe_transfer wide_mem [mkSlice 7 0 25; mkSlice 7 25 40] [mkSlice 8 0 40] (seqZ 100 40) 2)
    as (w & s1 & E1 & r & s2 & E2 & s3 & E3 & Hf & _).
  - repeat constructor; simpl; lia.
  - apply (bool_decide_eq_true_1 _). vm_compute. reflexivity.
  - apply Forall_forall. intros l Hl.
    assert (Hc : forallb (λ l : Z * Z, bool_decide (0 ≤ l.2) && bool_decide (is_Some (cell wide_mem l)))
      (flatten [mkSlice 7 0 25; mkSlice 7 25 40] ++ flatten [mkSlice 8 0 40]) = true)
      by (vm_compute; reflexivity).
    rewrite forallb_forall in Hc. specialize (Hc l (proj1 (list_elem_of_In _ _) Hl)).
    apply andb_true_iff in Hc as [H1%bool_decide_eq_true_1 H2%bool_decide_eq_true_1].
    split; [exact H1|exact H2].
  - vm_compute. repeat constructor.
  - vm_compute. reflexivity.
  - vm_compute. lia.
  - vm_compute. reflexivity.
  - exists w, s1, r, s2, s3. split; [exact E1|]. split; [exact E2|]. split; [exact E3|exact Hf].
Defined.
