(* ===== verification/FileCalls.v ===== *)
(** * Descriptor tables and the system calls on files (os/src/syscall/fs.rs, fs/stdio.rs)

    Descriptors are positions in a table of shared open files: [files] are the
    objects behind the references, and the tables hold their numbers, so that two
    descriptors of one file share its offset.  A call on a pipe or on the console
    that has to wait gives the processor away; it ends in [Waiting], and is resumed
    later. *)

From S2P Require Import Prelude Bytes BlockStore Layout Efs Vfs Address FrameAlloc UserMem Files Pipe.

(** An object that implements the trait [File]. *)
Inductive file :=
  | Stdin
  | Stdout
  | FileInode (o : OSInode)
  | FilePipe (p : Pipe) (ring : nat).

(** A ring with the number of its write end (the weak reference [write_end]). *)
Record ring_obj := mkRingObj { buffer : PipeRingBuffer; write_fid : nat }.

(** [fd_table] is the table of the current process.  [other_refs] are the references
    to open files elsewhere: in the tables of other processes and in calls that
    wait.  [console] are the answers of the firmware to the next calls of
    [console_getchar], [printed] are the arguments of its calls of [console_putchar]. *)
Record fsys (St : Type) := mkFsys {
  fs_disk : St;
  fs_ram : kmem;
  files : list file;
  rings : list ring_obj;
  fd_table : list (option nat);
  other_refs : list nat;
  console : list Z;
  printed : list Z;
}.
Arguments mkFsys {St}.
Arguments fs_disk {St}.
Arguments fs_ram {St}.
Arguments files {St}.
Arguments rings {St}.
Arguments fd_table {St}.
Arguments other_refs {St}.
Arguments console {St}.
Arguments printed {St}.

(** A call that waits: what it resumes with. *)
Inductive waiting :=
  | WaitStdin (fid : nat) (buf : list pslice)
  | WaitRead (fid : nat) (ring : nat) (it : UserBufferIterator) (already want : Z)
  | WaitWrite (fid : nat) (ring : nat) (it : UserBufferIterator) (already want : Z).

Inductive call :=
  | Done (r : Z)
  | Waiting (w : waiting).

(** [String::push]: the UTF-8 bytes of a code point *)
Definition char_bytes (c : Z) : list Z :=
  if c <? 0x80 then [c]
  else if c <? 0x800 then [0xC0 + c / 64; 0x80 + c mod 64]
  else if c <? 0x10000 then [0xE0 + c / 4096; 0x80 + c / 64 mod 64; 0x80 + c mod 64]
  else [0xF0 + c / 262144; 0x80 + c / 4096 mod 64; 0x80 + c / 64 mod 64; 0x80 + c mod 64].
Definition string_bytes (cs : list Z) : list Z := cs ≫= char_bytes.

(** [str::chars]: the code points of a text, whose bytes are UTF-8 *)
Fixpoint chars (bs : list Z) : list Z :=
  match bs with
  | [] => []
  | b0 :: r0 =>
      if b0 <? 0x80 then b0 :: chars r0 else
      match r0 with
      | [] => []
      | b1 :: r1 =>
          if utf8_2 b0 b1 then (b0 - 0xC0) * 64 + (b1 - 0x80) :: chars r1 else
          match r1 with
          | [] => []
          | b2 :: r2 =>
              if utf8_3 b0 b1 b2 then (b0 - 0xE0) * 4096 + (b1 - 0x80) * 64 + (b2 - 0x80) :: chars r2 else
              match r2 with
              | [] => []
              | b3 :: r3 => (b0 - 0xF0) * 262144 + (b1 - 0x80) * 4096 + (b2 - 0x80) * 64 + (b3 - 0x80) :: chars r3
              end
          end
      end
  end.

(** [alloc_fd]: the lowest free descriptor *)
Definition alloc_fd (t : list (option nat)) : nat * list (option nat) :=
  match list_find (λ o, o = None) t with
  | Some (fd, _) => (fd, t)
  | None => (length t, t ++ [None])
  end.

Definition file_readable (f : file) : bool :=
  match f with
  | Stdin => true
  | Stdout => false
  | FileInode o => Files.readable o
  | FilePipe p _ => Pipe.readable p
  end.
Definition file_writable (f : file) : bool :=
  match f with
  | Stdin => false
  | Stdout => true
  | FileInode o => Files.writable o
  | FilePipe p _ => Pipe.writable p
  end.

(** One reference less. *)
Fixpoint drop_ref (fid : nat) (l : list nat) : list nat :=
  match l with
  | [] => []
  | x :: l => if (x =? fid)%nat then l else x :: drop_ref fid l
  end.

Section state.
Context {St : Type}.
Implicit Types s : fsys St.

Definition set_disk_ram (d : St) (k : kmem) s : fsys St :=
  mkFsys d k (files s) (rings s) (fd_table s) (other_refs s) (console s) (printed s).
Definition set_files (l : list file) s : fsys St :=
  mkFsys (fs_disk s) (fs_ram s) l (rings s) (fd_table s) (other_refs s) (console s) (printed s).
Definition set_rings (l : list ring_obj) s : fsys St :=
  mkFsys (fs_disk s) (fs_ram s) (files s) l (fd_table s) (other_refs s) (console s) (printed s).
Definition set_table (t : list (option nat)) s : fsys St :=
  mkFsys (fs_disk s) (fs_ram s) (files s) (rings s) t (other_refs s) (console s) (printed s).
Definition set_refs (l : list nat) s : fsys St :=
  mkFsys (fs_disk s) (fs_ram s) (files s) (rings s) (fd_table s) l (console s) (printed s).
Definition set_console (i o : list Z) s : fsys St :=
  mkFsys (fs_disk s) (fs_ram s) (files s) (rings s) (fd_table s) (other_refs s) i o.

Definition on_fstate {A} (m : M (fstate St) A) : M (fsys St) A := λ s,
  '(a, f) ← m (mkF (fs_disk s) (fs_ram s)); Ok (a, set_disk_ram (disk f) (Files.ram f) s).

Definition get_file (fid : nat) : M (fsys St) file :=
  l ← gets files; lift (unwrap (l !! fid)).
Definition put_file (fid : nat) (f : file) : M (fsys St) unit :=
  puts (λ s, set_files (<[fid := f]> (files s)) s).
(** [Arc::new] *)
Definition new_file (f : file) : M (fsys St) nat :=
  l ← gets files;
  puts (set_files (l ++ [f]));;
  mret (length l).

(** Is a strong reference to the file left? *)
Definition referenced (fid : nat) s : bool :=
  bool_decide (Some fid ∈ fd_table s) || bool_decide (fid ∈ other_refs s).

(** A call on a pipe works on the ring and on memory. *)
Definition on_pipe {A} (ring : nat) (m : M psys A) : M (fsys St) A := λ s,
  r ← unwrap (rings s !! ring);
  '(a, p) ← m (mkPS (buffer r) (referenced (write_fid r) s) (mem (fs_ram s)));
  Ok (a, set_rings (<[ring := mkRingObj (Pipe.ring p) (write_fid r)]> (rings s))
           (set_disk_ram (fs_disk s) (mkKmem (Pipe.ram p) (frames (fs_ram s))) s)).

(** ** Standard input and output *)

Definition console_getchar : M (fsys St) Z := λ s,
  match console s with
  | [] => Ok (0, s)
  | c :: l => Ok (c, set_console l (printed s) s)
  end.

(** [Stdin::read] from the call of [console_getchar] on *)
Definition stdin_turn (fid : nat) (buf : list pslice) : M (fsys St) call :=
  c ← console_getchar;
  if c =? 0 then mret (Waiting (WaitStdin fid buf))
  else
    b ← lift (idx buf 0);
    on_fstate (on_ram (write_ref (sl_ppn b * PAGE_SIZE + sl_from b) [u8 c]));;
    mret (Done 1).

Definition Stdin_read (fid : nat) (buf : list pslice) : M (fsys St) call :=
  lift (assert_ (UserBuffer_len buf =? 1));;
  stdin_turn fid buf.

Definition console_putchar (c : Z) : M (fsys St) unit :=
  puts (λ s, set_console (console s) (printed s ++ [c]) s).

(** [Stdout::write_str] of the console: one call of the firmware for each character *)
Fixpoint write_str (cs : list Z) : M (fsys St) unit :=
  match cs with
  | [] => mret tt
  | c :: cs => console_putchar c;; write_str cs
  end.

(** The buffers are printed one by one, each as a text of its own. *)
Fixpoint print_buffers (buf : list pslice) : M (fsys St) unit :=
  match buf with
  | [] => mret tt
  | b :: buf =>
      bs ← on_fstate (on_ram (load_slice b));
      lift (assert_ (from_utf8 bs));;
      write_str (chars bs);;
      print_buffers buf
  end.

Definition Stdout_write (buf : list pslice) : M (fsys St) Z :=
  print_buffers buf;;
  mret (UserBuffer_len buf).

(** ** The calls *)

Context `{BlockStore St}.

Definition file_read (fid : nat) (f : file) (buf : list pslice) : M (fsys St) call :=
  match f with
  | Stdin => Stdin_read fid buf
  | Stdout => throw Panic
  | FileInode o =>
      '(n, o) ← on_fstate (OSInode_read o buf);
      put_file fid (FileInode o);;
      mret (Done (i64 n))
  | FilePipe p ring =>
      x ← on_pipe ring (Pipe_read p buf);
      mret match x with
           | Returned n => Done (i64 n)
           | Suspended it already => Waiting (WaitRead fid ring it already (UserBuffer_len buf))
           end
  end.

Definition file_write (efs : EasyFileSystem) (fid : nat) (f : file) (buf : list pslice) : M (fsys St) call :=
  match f with
  | Stdin => throw Panic
  | Stdout => n ← Stdout_write buf; mret (Done (i64 n))
  | FileInode o =>
      '(n, o) ← on_fstate (OSInode_write efs o buf);
      put_file fid (FileInode o);;
      mret (Done (i64 n))
  | FilePipe p ring =>
      x ← on_pipe ring (Pipe_write p buf);
      mret match x with
           | Returned n => Done (i64 n)
           | Suspended it already => Waiting (WaitWrite fid ring it already (UserBuffer_len buf))
           end
  end.

(** [file.clone()]: a call that waits keeps its reference. *)
Definition hold (fid : nat) (c : call) : M (fsys St) call :=
  match c with
  | Done r => mret (Done r)
  | Waiting w => puts (λ s, set_refs (fid :: other_refs s) s);; mret (Waiting w)
  end.

(** The file of a descriptor, if there is one. *)
Definition lookup_fd (fd : Z) : M (fsys St) (option nat) :=
  t ← gets fd_table;
  if Z.of_nat (length t) <=? fd then mret None else lift (idx t fd).

Section process.
(** The file system with its root directory, and the page table of the process. *)
Context (efs : EasyFileSystem) (root : Inode) (token : Z).

Definition sys_write (fd buf len : Z) : M (fsys St) call :=
  o ← lookup_fd fd;
  match o with
  | Some fid =>
      f ← get_file fid;
      if negb (file_writable f) then mret (Done (-1))
      else
        bufs ← on_fstate (on_ram (translated_byte_buffer token buf len));
        c ← file_write efs fid f bufs;
        hold fid c
  | None => mret (Done (-1))
  end.

Definition sys_read (fd buf len : Z) : M (fsys St) call :=
  o ← lookup_fd fd;
  match o with
  | Some fid =>
      f ← get_file fid;
      if negb (file_readable f) then mret (Done (-1))
      else
        bufs ← on_fstate (on_ram (translated_byte_buffer token buf len));
        c ← file_read fid f bufs;
        hold fid c
  | None => mret (Done (-1))
  end.

Definition sys_open (fuel : nat) (path flags : Z) : M (fsys St) Z :=
  chars ← on_fstate (on_ram (translated_str fuel token path));
  flags ← lift (unwrap (OpenFlags_from_bits flags));
  o ← on_fstate (on_disk (open_file efs root (string_bytes chars) flags));
  match o with
  | Some inode =>
      fid ← new_file (FileInode inode);
      t ← gets fd_table;
      let '(fd, t) := alloc_fd t in
      puts (set_table (<[fd := Some fid]> t));;
      mret (Z.of_nat fd)
  | None => mret (-1)
  end.

Definition sys_close (fd : Z) : M (fsys St) Z :=
  o ← lookup_fd fd;
  match o with
  | None => mret (-1)
  | Some _ =>
      puts (λ s, set_table (<[Z.to_nat fd := None]> (fd_table s)) s);;
      mret 0
  end.

Definition sys_pipe (pipe : Z) : M (fsys St) Z :=
  l ← gets rings;
  let '(r, w, ring) := make_pipe in
  pipe_read ← new_file (FilePipe r (length l));
  pipe_write ← new_file (FilePipe w (length l));
  puts (set_rings (l ++ [mkRingObj ring pipe_write]));;
  t ← gets fd_table;
  let '(read_fd, t) := alloc_fd t in
  let t := <[read_fd := Some pipe_read]> t in
  let '(write_fd, t) := alloc_fd t in
  let t := <[write_fd := Some pipe_write]> t in
  puts (set_table t);;
  on_fstate (on_ram (assign_user token pipe (le_put 8 (Z.of_nat read_fd))));;
  on_fstate (on_ram (assign_user token (pipe +ᵤ 8) (le_put 8 (Z.of_nat write_fd))));;
  mret 0.

Definition sys_dup (fd : Z) : M (fsys St) Z :=
  o ← lookup_fd fd;
  match o with
  | None => mret (-1)
  | Some fid =>
      t ← gets fd_table;
      let '(new_fd, t) := alloc_fd t in
      puts (set_table (<[new_fd := Some fid]> t));;
      mret (Z.of_nat new_fd)
  end.

(** A waiting call goes on; when it is done it gives its reference up. *)
Definition resume (w : waiting) : M (fsys St) call :=
  let release fid c :=
    match c with
    | Done r => puts (λ s, set_refs (drop_ref fid (other_refs s)) s);; mret (Done r)
    | Waiting w => mret (Waiting w)
    end in
  match w with
  | WaitStdin fid buf => c ← stdin_turn fid buf; release fid c
  | WaitRead fid ring it already want =>
      x ← on_pipe ring (read_resume it already want);
      release fid match x with
                  | Returned n => Done (i64 n)
                  | Suspended it already => Waiting (WaitRead fid ring it already want)
                  end
  | WaitWrite fid ring it already want =>
      x ← on_pipe ring (write_resume it already want);
      release fid match x with
                  | Returned n => Done (i64 n)
                  | Suspended it already => Waiting (WaitWrite fid ring it already want)
                  end
  end.

Definition sys_fstat (fd st : Z) : M (fsys St) Z := mret (-1).
Definition sys_linkat (old_name new_name : Z) : M (fsys St) Z := mret (-1).
Definition sys_unlinkat (name : Z) : M (fsys St) Z := mret (-1).
End process.
End state.
