(* ===== verification/Text.v ===== *)
(** * Text (core::str, used by os/src/console.rs and os/src/fs/stdio.rs)

    The byte sequences that [from_utf8] accepts are those of sequences of characters,
    and [chars] gives the characters back. *)

From S2P Require Import Prelude Bytes Layout FileCalls.
From Stdlib Require Import ZifyBool.

(** ** Text *)

(** A [char] *)
Definition scalar (c : Z) : Prop := 0 ≤ c < 0xD800 ∨ 0xE000 ≤ c < 0x110000.

Ltac utf8_lia := unfold scalar, utf8_2, utf8_3, utf8_4, between in *; Z.to_euclidean_division_equations; lia.

Lemma char_roundtrip c bs : scalar c → from_utf8 (char_bytes c ++ bs) = from_utf8 bs ∧ chars (char_bytes c ++ bs) = c :: chars bs.
Proof.
  intros Hc. unfold char_bytes.
  destruct (Z.ltb_spec c 0x80) as [H1|H1]; [|destruct (Z.ltb_spec c 0x800) as [H2|H2]; [|destruct (Z.ltb_spec c 0x10000) as [H3|H3]]];
    cbn [app from_utf8 chars].
  - by rewrite (proj2 (Z.ltb_lt _ _)) by lia.
  - rewrite (proj2 (Z.ltb_ge _ _)) by utf8_lia. replace (utf8_2 _ _) with true by utf8_lia.
    split; [done|]. f_equal. utf8_lia.
  - rewrite (proj2 (Z.ltb_ge _ _)) by utf8_lia. replace (utf8_2 _ _) with false by utf8_lia.
    replace (utf8_3 _ _ _) with true by utf8_lia. split; [done|]. f_equal. utf8_lia.
  - rewrite (proj2 (Z.ltb_ge _ _)) by utf8_lia. replace (utf8_2 _ _) with false by utf8_lia.
    replace (utf8_3 _ _ _) with false by utf8_lia. replace (utf8_4 _ _ _ _) with true by utf8_lia.
    split; [done|]. f_equal. utf8_lia.
Qed.

Lemma chars_of_string cs : Forall scalar cs → from_utf8 (string_bytes cs) = true ∧ chars (string_bytes cs) = cs.
Proof.
  induction 1 as [|c cs Hc _ IH]; [done|]. unfold string_bytes in *. rewrite bind_cons.
  destruct (char_roundtrip c (cs ≫= char_bytes) Hc) as [-> ->]. destruct IH as [-> ->]. done.
Qed.

(** The first character of a text *)
Lemma first_char bs : bytes bs → bs ≠ [] → from_utf8 bs = true →
  ∃ c r, scalar c ∧ bs = char_bytes c ++ r ∧ bytes r ∧ from_utf8 r = true ∧ (length r < length bs)%nat.
Proof.
  intros Hb Hne Hu. destruct bs as [|b0 r0]; [done|]. apply Forall_cons in Hb as [Hb0 Hb]. unfold is_byte in Hb0.
  cbn [from_utf8] in Hu. destruct (Z.ltb_spec b0 0x80).
  { exists b0, r0. unfold char_bytes. rewrite (proj2 (Z.ltb_lt _ _)) by done. split; [left; lia|]. cbn. auto. }
  destruct r0 as [|b1 r1]; [done|]. apply Forall_cons in Hb as [Hb1 Hb]. unfold is_byte in Hb1.
  destruct (utf8_2 b0 b1) eqn:E2.
  { exists ((b0 - 0xC0) * 64 + (b1 - 0x80)), r1. unfold char_bytes. rewrite (proj2 (Z.ltb_ge _ _)), (proj2 (Z.ltb_lt _ _)) by utf8_lia.
    split; [utf8_lia|]. split; [cbn [app]; repeat f_equal; utf8_lia|]. cbn. auto with lia. }
  destruct r1 as [|b2 r2]; [done|]. apply Forall_cons in Hb as [Hb2 Hb]. unfold is_byte in Hb2.
  destruct (utf8_3 b0 b1 b2) eqn:E3.
  { exists ((b0 - 0xE0) * 4096 + (b1 - 0x80) * 64 + (b2 - 0x80)), r2. unfold char_bytes.
    rewrite (proj2 (Z.ltb_ge _ 0x80)), (proj2 (Z.ltb_ge _ 0x800)), (proj2 (Z.ltb_lt _ 0x10000)) by utf8_lia.
    split; [utf8_lia|]. split; [cbn [app]; repeat f_equal; utf8_lia|]. cbn. auto with lia. }
  destruct r2 as [|b3 r3]; [done|]. apply Forall_cons in Hb as [Hb3 Hb]. unfold is_byte in Hb3.
  destruct (utf8_4 b0 b1 b2 b3) eqn:E4; [|done].
  exists ((b0 - 0xF0) * 262144 + (b1 - 0x80) * 4096 + (b2 - 0x80) * 64 + (b3 - 0x80)), r3. unfold char_bytes.
  rewrite (proj2 (Z.ltb_ge _ 0x80)), (proj2 (Z.ltb_ge _ 0x800)), (proj2 (Z.ltb_ge _ 0x10000)) by utf8_lia.
  split; [utf8_lia|]. split; [cbn [app]; repeat f_equal; utf8_lia|]. cbn. auto with lia.
Qed.

(** The byte sequences that [from_utf8] accepts are those of texts. *)
Lemma from_utf8_text bs : bytes bs → from_utf8 bs = true → ∃ cs, Forall scalar cs ∧ bs = string_bytes cs.
Proof.
  remember (length bs) as n eqn:En. revert bs En. induction (lt_wf n) as [n _ IH]. intros bs -> Hb Hu.
  destruct (decide (bs = [])) as [->|Hne]; [by exists []|].
  destruct (first_char bs Hb Hne Hu) as (c & r & Hc & E & Hr & Hur & Hl).
  destruct (IH (length r) Hl r eq_refl Hr Hur) as (cs & Hcs & Er). exists (c :: cs). split; [by constructor|].
  rewrite E, Er. done.
Qed.
