(* ===== verification/FileCallsSpec.v ===== *)
(** * What the system calls on files promise (os/src/syscall/fs.rs)

    The calls in terms of descriptors, of the contents of files and of user memory
    at virtual addresses. *)

From S2P Require Import Prelude Bytes BlockStore BlockCache BlockFile Bitmap Layout Inode InodeSpec InodeData.
From S2P Require Import Efs Vfs VfsSpec Address FrameAlloc PageTable UserMem Files UserRange FilesSpec Pipe FileCalls Text.

(** ** Files of the disk *)

Section calls.
Context {St : Type} `{HS : BlockStore St, HL : !BlockStoreLaws St}.
Implicit Types s : fsys St.

(** The disk of a state has the view [v]. *)
Definition disk_view s (v : gmap Z (list Z)) : Prop :=
  store_wf (fs_disk s) ∧ view (fs_disk s) = v ∧ held (fs_disk s) = ∅.

Lemma on_fstate_run {A} (m : M (fstate St) A) s v a v' k' :
  disk_view s v → fruns m v (fs_ram s) a v' k' →
  ∃ d, on_fstate m s = Ok (a, set_disk_ram d k' s) ∧ disk_view (set_disk_ram d k' s) v'.
Proof.
  intros (Hw & Hv & Hh) Hm. destruct (Hm (mkF (fs_disk s) (fs_ram s)) Hw Hv Hh eq_refl) as ([d k] & E & ? & ? & ? & Hk).
  cbn [disk Files.ram] in *. subst k. exists d. unfold on_fstate. mstep. rewrite E. by split.
Qed.

Lemma on_ram_step {A} (m : M kmem A) s a k :
  m (fs_ram s) = Ok (a, k) → on_fstate (on_ram m) s = Ok (a, set_disk_ram (fs_disk s) k s).
Proof. intros Hm. unfold on_fstate, on_ram. mstep. cbn [Files.ram disk]. by rewrite Hm. Qed.

Lemma on_ram_run {A} (m : M kmem A) s a : m (fs_ram s) = Ok (a, fs_ram s) → on_fstate (on_ram m) s = Ok (a, s).
Proof. intros Hm. rewrite (on_ram_step m s a _ Hm). by destruct s. Qed.

(** The descriptor [fd] refers to the open file [fid]. *)
Definition refers s (fd : Z) (fid : nat) : Prop := 0 ≤ fd ∧ fd_table s !! Z.to_nat fd = Some (Some fid).

Lemma lookup_fd_run s fd fid : refers s fd fid → lookup_fd fd s = Ok (Some fid, s).
Proof.
  intros [Hp Hl]. unfold lookup_fd. mstep. pose proof (lookup_lt_Some _ _ _ Hl).
  rewrite (proj2 (Z.leb_gt _ _)) by lia. by rewrite (idx_Ok _ _ (Some fid)).
Qed.

Lemma lookup_fd_none s fd :
  0 ≤ fd → (∀ fid, ¬ refers s fd fid) → lookup_fd fd s = Ok (None, s).
Proof.
  intros Hp Hn. unfold lookup_fd. mstep. destruct (Z.leb_spec (Z.of_nat (length (fd_table s))) fd); [done|].
  destruct (lookup_lt_is_Some_2 (fd_table s) (Z.to_nat fd)) as [[fid|] Hl]; [lia|by destruct (Hn fid)|].
  by rewrite (idx_Ok _ _ None).
Qed.

Lemma get_file_run s fid f : files s !! fid = Some f → get_file fid s = Ok (f, s).
Proof. intros Hf. unfold get_file. mstep. by rewrite Hf. Qed.
End calls.

Lemma fs_write_run {St} `{HS : BlockStore St, HL : !BlockStoreLaws St} efs start pt mu (s : fsys St) v fd fid o di buf len :
  represents start (fs_ram s) pt mu → user_range (fs_ram s) mu buf len →
  disk_view s v → refers s fd fid → files s !! fid = Some (FileInode o) → Files.writable o = true →
  disk_ok efs v → file_at efs (Files.inode o) v di → 0 ≤ offset o → offset o + len ≤ MAX_SIZE →
  available efs v (blocks_for di (end_after (di_size di) (offset o) (Z.to_nat len))) →
  ∃ d v' di', let s' := set_files (<[fid := FileInode (set_offset (offset o + len) o)]> (files s)) (set_disk_ram d (fs_ram s) s) in
    sys_write efs (token pt) fd buf len s = Ok (Done len, s') ∧ disk_view s' v' ∧
    disk_ok efs v' ∧ file_at efs (Files.inode o) v' di' ∧
    written v di (offset o) (vbyte (fs_ram s) mu <$> seqZ buf len) v' di' ∧
    ∀ ino2 di2, file_at efs ino2 v di2 → inodes_apart (Files.inode o) ino2 → (∀ b, b ∈ all_ids di2 v → b ∉ all_ids di v) →
      file_at efs ino2 v' di2 ∧ content di2 v' = content di2 v.
Proof.
  intros Hrep Hu Hv Hfd Hf Hw Hd Hfa Ho Hmax Hav.
  destruct (user_buffer start (fs_ram s) pt mu buf len Hrep Hu) as (bufs & Eb & Hfl & Hl & Hok & Hnd & Hc & Hby).
  set (bs := vbyte (fs_ram s) mu <$> seqZ buf len) in *. pose proof (ur_len _ _ _ _ Hu) as Hlen.
  assert (Hbl : Z.of_nat (length bs) = len) by (unfold bs; rewrite length_fmap, length_seqZ; lia).
  destruct (os_write_run (St:=St) efs o v di (fs_ram s) bufs bs Hd Hfa Ho Hok Hc Hby) as
    (v' & di' & Hrun & Hd' & Hfa' & Hwr & Hoth); [lia|by rewrite <- Hbl, Nat2Z.id in Hav|].
  destruct (on_fstate_run _ s v _ _ _ Hv Hrun) as (d & E & Hv'). rewrite Hbl in *.
  assert (Hms : MAX_SIZE = 8468480) by reflexivity.
  exists d, v', di'. split; [|by split].
  unfold sys_write, file_write, hold, put_file. mstep. rewrite (lookup_fd_run s fd fid Hfd), (get_file_run s fid _ Hf).
  cbn [file_writable]. rewrite Hw. cbn [negb]. rewrite (on_ram_run _ s _ Eb), E. cbn [files set_disk_ram].
  rewrite i64_small by lia. done.
Qed.

Lemma fs_read_run {St} `{HS : BlockStore St, HL : !BlockStoreLaws St} start pt mu (s : fsys St) v fd fid o di buf len :
  represents start (fs_ram s) pt mu → user_range (fs_ram s) mu buf len →
  disk_view s v → refers s fd fid → files s !! fid = Some (FileInode o) → Files.readable o = true →
  inode_at (Files.inode o) v di → view_ok v → 0 ≤ offset o < 2 ^ 63 →
  let n := Z.min len (Z.max 0 (di_size di - offset o)) in
  ∃ d k', let s' := set_files (<[fid := FileInode (set_offset (offset o + n) o)]> (files s)) (set_disk_ram d k' s) in
    sys_read (token pt) fd buf len s = Ok (Done n, s') ∧ disk_view s' v ∧ frames k' = frames (fs_ram s) ∧
    same_lengths (mem (fs_ram s)) (mem k') ∧
    cells (mem k') (vloc mu <$> seqZ buf n) (slice (Z.to_nat (offset o)) (Z.to_nat n) (content di v)) ∧
    ∀ l, 0 ≤ l.2 → l ∉ vloc mu <$> seqZ buf n → cell (mem k') l = cell (mem (fs_ram s)) l.
Proof.
  intros Hrep Hu Hv Hfd Hf Hr Hat Hvo Ho n.
  destruct (user_buffer start (fs_ram s) pt mu buf len Hrep Hu) as (bufs & Eb & Hfl & Hl & Hok & Hnd & _).
  pose proof (ur_len _ _ _ _ Hu). pose proof (ur_end _ _ _ _ Hu). pose proof (ur_ptr _ _ _ _ Hu).
  destruct (ia_wf _ _ _ Hat) as ((Hsz & _) & _). unfold is_u32 in Hsz.
  assert (Hfll : length (flatten bufs) = Z.to_nat len) by (by rewrite Hfl, length_fmap, length_seqZ).
  destruct (os_read_run (St:=St) o v di Hat Hvo ltac:(lia)) as [Hread _].
  destruct (Hread bufs (fs_ram s)) as (k' & Hrun & Hfr & Hsh & Hc & Hout); [rewrite Hfll; lia|done|done|].
  replace (Nat.min _ _) with (Z.to_nat n) in * by (rewrite Hfll; lia). rewrite Z2Nat.id in Hrun by lia.
  assert (Etk : take (Z.to_nat n) (flatten bufs) = vloc mu <$> seqZ buf n).
  { rewrite Hfl, take_fmap_seqZ by lia. by rewrite Z2Nat.id by lia. }
  rewrite Etk in Hc, Hout.
  destruct (on_fstate_run _ s v _ _ _ Hv Hrun) as (d & E & Hv').
  exists d, k'. split; [|by split].
  unfold sys_read, file_read, hold, put_file. mstep. rewrite (lookup_fd_run s fd fid Hfd), (get_file_run s fid _ Hf).
  cbn [file_readable]. rewrite Hr. cbn [negb]. rewrite (on_ram_run _ s _ Eb), E. cbn [files set_disk_ram].
  rewrite i64_small by lia. done.
Qed.

(** ** Descriptors *)

(** [fd] is the lowest free descriptor of [t], and [t'] is [t] with the file [fid] there. *)
Definition adds_fd (t : list (option nat)) (fd fid : nat) (t' : list (option nat)) : Prop :=
  (∀ x, t !! fd ≠ Some (Some x)) ∧ (∀ j, (j < fd)%nat → ∃ x, t !! j = Some (Some x)) ∧
  t' !! fd = Some (Some fid) ∧ ∀ j x, j ≠ fd → t' !! j = Some (Some x) ↔ t !! j = Some (Some x).

Lemma alloc_fd_run t fid fd t1 : alloc_fd t = (fd, t1) → adds_fd t fd fid (<[fd := Some fid]> t1).
Proof.
  unfold alloc_fd. destruct (list_find (λ o, o = None) t) as [[i o]|] eqn:E; intros [= <- <-].
  - apply list_find_Some in E as (Hi & -> & Hmin). split; [by rewrite Hi|]. split; [|split].
    + intros j Hj. destruct (lookup_lt_is_Some_2 t j) as [[x|] Hx]; [apply lookup_lt_Some in Hi; lia|by exists x|].
      by destruct (Hmin j None Hx Hj).
    + apply list_lookup_insert_eq. by eapply lookup_lt_Some.
    + intros j x Hj. by rewrite list_lookup_insert_ne.
  - apply list_find_None in E. split; [by rewrite lookup_ge_None_2|]. split; [|split].
    + intros j Hj. destruct (lookup_lt_is_Some_2 t j Hj) as [[x|] Hx]; [by exists x|].
      by apply (Forall_lookup_1 _ _ _ _ E) in Hx.
    + rewrite insert_app_r_alt, Nat.sub_diag by done. by apply list_lookup_middle.
    + intros j x Hj. rewrite list_lookup_insert_ne by done. destruct (decide (j < length t)%nat) as [|Hge].
      * by rewrite lookup_app_l.
      * rewrite lookup_app_r, (lookup_ge_None_2 t) by lia. destruct (j - length t)%nat eqn:?; [lia|done].
Qed.

Section descriptors.
Context {St : Type} `{HS : BlockStore St, HL : !BlockStoreLaws St}.
Implicit Types s : fsys St.

Lemma dup_run s fd fid :
  refers s fd fid →
  ∃ new_fd t', sys_dup fd s = Ok (Z.of_nat new_fd, set_table t' s) ∧ adds_fd (fd_table s) new_fd fid t'.
Proof.
  intros Hr. unfold sys_dup. mstep. rewrite (lookup_fd_run s fd fid Hr).
  destruct (alloc_fd (fd_table s)) as [new_fd t1] eqn:E. exists new_fd. eexists. split; [reflexivity|].
  by apply alloc_fd_run.
Qed.

Lemma close_run s fd fid :
  refers s fd fid → ∃ t', sys_close fd s = Ok (0, set_table t' s) ∧
    (∀ x, t' !! Z.to_nat fd ≠ Some (Some x)) ∧ ∀ j x, j ≠ Z.to_nat fd → t' !! j = Some (Some x) ↔ fd_table s !! j = Some (Some x).
Proof.
  intros Hr. unfold sys_close. mstep. rewrite (lookup_fd_run s fd fid Hr). destruct Hr as [_ Hl].
  eexists. split; [reflexivity|]. split.
  - intros x. rewrite list_lookup_insert_eq by (by eapply lookup_lt_Some). done.
  - intros j x Hj. by rewrite list_lookup_insert_ne.
Qed.
End descriptors.

(** Descriptors.  [sys_dup] returns the lowest free descriptor, which then
    refers to the same open file, so that both share one offset; [sys_close] frees
    the descriptor.  All other descriptors and all open files are as before.  On a
    number that is no open descriptor, closing, duplicating, reading and writing
    return -1 and change nothing. *)
Theorem descriptors_spec {St} `{HS : BlockStore St, HL : !BlockStoreLaws St} efs tok (s : fsys St) fd :
  0 ≤ fd →
  match fd_table s !! Z.to_nat fd with
  | Some (Some fid) =>
      (∃ new_fd t', sys_dup fd s = Ok (Z.of_nat new_fd, set_table t' s) ∧ adds_fd (fd_table s) new_fd fid t') ∧
      (∃ t', sys_close fd s = Ok (0, set_table t' s) ∧ (∀ x, t' !! Z.to_nat fd ≠ Some (Some x)) ∧
        ∀ j x, j ≠ Z.to_nat fd → t' !! j = Some (Some x) ↔ fd_table s !! j = Some (Some x))
  | _ =>
      sys_dup fd s = Ok (-1, s) ∧ sys_close fd s = Ok (-1, s) ∧
      ∀ buf len, sys_read tok fd buf len s = Ok (Done (-1), s) ∧ sys_write efs tok fd buf len s = Ok (Done (-1), s)
  end.
Proof.
  intros Hfd. destruct (fd_table s !! Z.to_nat fd) as [[fid|]|] eqn:E.
  - split; [by apply dup_run|by apply (close_run s fd fid)].
  - assert (Hn : lookup_fd fd s = Ok (None, s)) by (apply lookup_fd_none; [done|]; intros fid [_ Hl]; congruence).
    unfold sys_dup, sys_close, sys_read, sys_write. mstep. rewrite Hn. done.
  - assert (Hn : lookup_fd fd s = Ok (None, s)) by (apply lookup_fd_none; [done|]; intros fid [_ Hl]; congruence).
    unfold sys_dup, sys_close, sys_read, sys_write. mstep. rewrite Hn. done.
Qed.

(** ** Pipes *)

Section pipes.
Context {St : Type} `{HS : BlockStore St, HL : !BlockStoreLaws St}.
Context (start : Z) (pt : PageTable) (mu : gmap Z Z).
Implicit Types s : fsys St.

Lemma pipe_run s pipe :
  represents start (fs_ram s) pt mu → user_range (fs_ram s) mu pipe 16 → outside_table pt mu pipe 16 → pipe mod 8 = 0 →
  let fid := length (files s) in
  let ring := length (rings s) in
  ∃ read_fd write_fd t1 t2 k',
    sys_pipe (token pt) pipe s = Ok (0, mkFsys (fs_disk s) k'
      (files s ++ [FilePipe read_end_with_buffer ring; FilePipe write_end_with_buffer ring])
      (rings s ++ [mkRingObj (set_write_end PipeRingBuffer_new) (S fid)]) t2 (other_refs s) (console s) (printed s)) ∧
    adds_fd (fd_table s) read_fd fid t1 ∧ adds_fd t1 write_fd (S fid) t2 ∧
    frames k' = frames (fs_ram s) ∧ same_lengths (mem (fs_ram s)) (mem k') ∧
    cells (mem k') (vloc mu <$> seqZ pipe 16) (le_put 8 (Z.of_nat read_fd) ++ le_put 8 (Z.of_nat write_fd)) ∧
    ∀ l, 0 ≤ l.2 → l ∉ vloc mu <$> seqZ pipe 16 → cell (mem k') l = cell (mem (fs_ram s)) l.
Proof.
  intros Hrep Hu Hpt Hal fid ring.
  destruct (alloc_fd (fd_table s)) as [read_fd t0] eqn:Ea. set (t1 := <[read_fd := Some fid]> t0).
  destruct (alloc_fd t1) as [write_fd t2] eqn:Eb.
  destruct (store_two start pt mu (fs_ram s) pipe (Z.of_nat read_fd) (Z.of_nat write_fd) Hrep Hu Hpt Hal) as (k1 & k2 & E1 & E2 & Hrest).
  exists read_fd, write_fd, t1, (<[write_fd := Some (S fid)]> t2), k2.
  split; [|split; [by apply alloc_fd_run|]; split; [by apply alloc_fd_run|done]].
  unfold sys_pipe, new_file, make_pipe. mstep.
  cbn [files rings fd_table set_files set_rings fs_disk fs_ram other_refs console printed]. rewrite Ea. fold fid. fold t1.
  rewrite length_app. cbn [length]. rewrite Nat.add_1_r. fold fid. rewrite Eb.
  rewrite (on_ram_step _ _ _ k1) by exact E1. rewrite (on_ram_step _ _ _ k2) by exact E2. unfold set_disk_ram.
  cbn [files rings fd_table set_table set_files set_rings fs_disk fs_ram other_refs console printed].
  by rewrite <- app_assoc.
Qed.
(** An activation of a call on the ring. *)
Lemma on_pipe_run {A} (m : M psys A) s ring rg wfid a p :
  rings s !! ring = Some (mkRingObj rg wfid) → m (mkPS rg (referenced wfid s) (mem (fs_ram s))) = Ok (a, p) →
  on_pipe ring m s = Ok (a, set_rings (<[ring := mkRingObj (Pipe.ring p) wfid]> (rings s))
    (set_disk_ram (fs_disk s) (mkKmem (Pipe.ram p) (frames (fs_ram s))) s)).
Proof. intros Hr Hm. unfold on_pipe. mstep. rewrite Hr. cbn [unwrap buffer write_fid]. by rewrite Hm. Qed.

Lemma slices_valid m bufs : Forall (slice_ok m) bufs → Forall (valid m) (flatten bufs) ∧ Forall (λ b, 0 ≤ sl_from b < sl_to b) bufs.
Proof.
  intros Hok. split; [|eapply Forall_impl; [exact Hok|]; by intros b [? _]].
  apply Forall_forall. intros l (b & Hl & Hb)%list_elem_of_bind. rewrite Forall_forall in Hok. destruct (Hok b Hb) as [Hr (page & E & Hto)].
  apply elem_of_locations in Hl as [Hp Ho]. split; [lia|]. unfold cell. rewrite Hp, E. simpl. apply lookup_lt_is_Some_2. lia.
Qed.

Lemma pipe_read_run s fd fid ring rg wfid q buf len :
  represents start (fs_ram s) pt mu → user_range (fs_ram s) mu buf len →
  refers s fd fid → files s !! fid = Some (FilePipe read_end_with_buffer ring) →
  rings s !! ring = Some (mkRingObj rg wfid) → holds rg q → write_end rg = true →
  let k := Nat.min (length q) (Z.to_nat len) in
  ∃ c rg' m' refs, sys_read (token pt) fd buf len s = Ok (c, set_refs refs
      (set_rings (<[ring := mkRingObj rg' wfid]> (rings s)) (set_disk_ram (fs_disk s) (mkKmem m' (frames (fs_ram s))) s))) ∧
    holds rg' (drop k q) ∧ write_end rg' = true ∧
    cells m' (vloc mu <$> seqZ buf (Z.of_nat k)) (take k q) ∧
    (∀ l, 0 ≤ l.2 → l ∉ vloc mu <$> seqZ buf len → cell m' l = cell (mem (fs_ram s)) l) ∧
    if bool_decide (q ≠ [] ∧ len ≤ Z.of_nat (length q)) then c = Done len ∧ refs = other_refs s
    else if referenced wfid s then (∃ it, c = Waiting (WaitRead fid ring it (Z.of_nat k) len)) ∧ refs = fid :: other_refs s
    else c = Done (Z.of_nat k) ∧ refs = other_refs s.
Proof.
  intros Hrep Hu Hfd Hf Hr Hq Hwe k.
  destruct (user_buffer start (fs_ram s) pt mu buf len Hrep Hu) as (bufs & Eb & Hfl & Hl & Hok & Hnd & _).
  pose proof (ur_len _ _ _ _ Hu). pose proof (ur_end _ _ _ _ Hu). pose proof (ur_ptr _ _ _ _ Hu).
  destruct (slices_valid _ _ Hok) as [Hval Hne]. assert (Hfll : length (flatten bufs) = Z.to_nat len) by (by rewrite Hfl, length_fmap, length_seqZ).
  destruct (read_resume_run (UserBuffer_into_iter bufs) (flatten bufs) 0 len
    (mkPS rg (referenced wfid s) (mem (fs_ram s))) q) as (o & p & Er & Hst & Hq' & Hwo & Hwe' & Ho); try done; [by apply yields_buffer|lia..|].
  destruct (stores_prefix _ _ _ _ Hnd Hval Hst) as (Hc & Hout & _). cbn [Pipe.ram] in *. rewrite Hfll in *. fold k in Hc, Hq', Ho.
  assert (Etk : take k (flatten bufs) = vloc mu <$> seqZ buf (Z.of_nat k)) by (rewrite Hfl; apply take_fmap_seqZ; lia).
  rewrite Etk in Hc. rewrite Hfl in Hout.
  assert (Epr : Pipe_read read_end_with_buffer bufs (mkPS rg (referenced wfid s) (mem (fs_ram s))) = Ok (o, p)).
  { unfold Pipe_read. mstep. cbn [Pipe.readable read_end_with_buffer assert_]. by rewrite Hl. }
  assert (Hrun : ∀ c refs, (match o with Returned n => c = Done (i64 n) ∧ refs = other_refs s
      | Suspended it a => c = Waiting (WaitRead fid ring it a len) ∧ refs = fid :: other_refs s end) →
    sys_read (token pt) fd buf len s = Ok (c, set_refs refs (set_rings (<[ring := mkRingObj (Pipe.ring p) wfid]> (rings s))
      (set_disk_ram (fs_disk s) (mkKmem (Pipe.ram p) (frames (fs_ram s))) s)))).
  { intros c refs Hcr. unfold sys_read, file_read, hold. mstep. rewrite (lookup_fd_run s fd fid Hfd), (get_file_run s fid _ Hf).
    cbn [file_readable Pipe.readable read_end_with_buffer negb]. rewrite (on_ram_run _ s _ Eb).
    fold read_end_with_buffer. rewrite (on_pipe_run _ s ring rg wfid _ _ Hr Epr), Hl.
    destruct o; destruct Hcr as [-> ->]; done. }
  cbn [Pipe.write_open Z.add] in Ho.
  destruct Ho as [(Hqn & Hle & ->)|(Hor & Ho)].
  - eexists _, _, _, _. split; [by apply Hrun|]. split; [done|]. split; [done|]. split; [done|]. split; [done|].
    rewrite bool_decide_true by (split; [done|lia]). rewrite i64_small by lia. done.
  - rewrite bool_decide_false by (intros [??]; destruct Hor; [done|lia]). destruct (referenced wfid s).
    + destruct Ho as (it & -> & _). eexists _, _, _, _. split; [by apply Hrun|]. split; [done|]. split; [done|]. split; [done|]. split; [done|].
      split; [by exists it|done].
    + subst o. eexists _, _, _, _. split; [by apply Hrun|]. split; [done|]. split; [done|]. split; [done|]. split; [done|].
      rewrite i64_small by lia. done.
Qed.

Lemma pipe_write_run efs s fd fid ring rg wfid q buf len :
  represents start (fs_ram s) pt mu → user_range (fs_ram s) mu buf len →
  refers s fd fid → files s !! fid = Some (FilePipe write_end_with_buffer ring) →
  rings s !! ring = Some (mkRingObj rg wfid) → holds rg q → write_end rg = true →
  let k := Nat.min (32 - length q) (Z.to_nat len) in
  ∃ c rg' refs, sys_write efs (token pt) fd buf len s =
      Ok (c, set_refs refs (set_rings (<[ring := mkRingObj rg' wfid]> (rings s)) s)) ∧
    holds rg' (q ++ (vbyte (fs_ram s) mu <$> seqZ buf (Z.of_nat k))) ∧ write_end rg' = true ∧
    if bool_decide ((length q < 32)%nat ∧ len ≤ 32 - Z.of_nat (length q)) then c = Done len ∧ refs = other_refs s
    else (∃ it, c = Waiting (WaitWrite fid ring it (Z.of_nat k) len)) ∧ refs = fid :: other_refs s.
Proof.
  intros Hrep Hu Hfd Hf Hr Hq Hwe k. pose proof (h_len _ _ Hq) as Hql.
  destruct (user_buffer start (fs_ram s) pt mu buf len Hrep Hu) as (bufs & Eb & Hfl & Hl & Hok & _ & Hc & _).
  pose proof (ur_len _ _ _ _ Hu). pose proof (ur_end _ _ _ _ Hu). pose proof (ur_ptr _ _ _ _ Hu).
  destruct (slices_valid _ _ Hok) as [_ Hne]. assert (Hfll : length (flatten bufs) = Z.to_nat len) by (by rewrite Hfl, length_fmap, length_seqZ).
  destruct (write_resume_run (UserBuffer_into_iter bufs) (flatten bufs) (vbyte (fs_ram s) mu <$> seqZ buf len) 0 len
    (mkPS rg (referenced wfid s) (mem (fs_ram s))) q) as (o & rg' & Ew & Hq' & Hwe' & Ho); try done; [by apply yields_buffer|lia..|].
  rewrite Hfll in *. fold k in Hq', Ho. cbn [Pipe.write_open Pipe.ram Pipe.ring Z.add] in *.
  assert (Etk : take k (vbyte (fs_ram s) mu <$> seqZ buf len) = vbyte (fs_ram s) mu <$> seqZ buf (Z.of_nat k)) by (apply take_fmap_seqZ; lia).
  rewrite Etk in Hq'. rewrite Hwe in Hwe'.
  assert (Epr : Pipe_write write_end_with_buffer bufs (mkPS rg (referenced wfid s) (mem (fs_ram s))) =
    Ok (o, mkPS rg' (referenced wfid s) (mem (fs_ram s)))).
  { unfold Pipe_write. mstep. cbn [Pipe.writable write_end_with_buffer assert_]. by rewrite Hl. }
  assert (Hrun : ∀ c refs, (match o with Returned n => c = Done (i64 n) ∧ refs = other_refs s
      | Suspended it a => c = Waiting (WaitWrite fid ring it a len) ∧ refs = fid :: other_refs s end) →
    sys_write efs (token pt) fd buf len s = Ok (c, set_refs refs (set_rings (<[ring := mkRingObj rg' wfid]> (rings s)) s))).
  { intros c refs Hcr. unfold sys_write, file_write, hold. mstep. rewrite (lookup_fd_run s fd fid Hfd), (get_file_run s fid _ Hf).
    cbn [file_writable Pipe.writable write_end_with_buffer negb]. rewrite (on_ram_run _ s _ Eb).
    fold write_end_with_buffer. rewrite (on_pipe_run _ s ring rg wfid _ _ Hr Epr), Hl. cbn [Pipe.ring Pipe.ram].
    destruct s as [d [mm fr] ? ? ? ? ? ?]. destruct o; destruct Hcr as [-> ->]; done. }
  exists (match o with Returned n => Done (i64 n) | Suspended it a => Waiting (WaitWrite fid ring it a len) end), rg',
    (match o with Returned _ => other_refs s | Suspended _ _ => fid :: other_refs s end).
  split; [apply Hrun; by destruct o|]. split; [done|]. split; [done|].
  destruct Ho as [(Hroom & Hle & ->)|(Hor & it & -> & _)].
  - rewrite bool_decide_true by (split; lia). by rewrite i64_small by lia.
  - rewrite bool_decide_false by (intros [??]; destruct Hor; lia). split; [by exists it|done].
Qed.
End pipes.

(** ** The console *)

Section console.
Context {St : Type} `{HS : BlockStore St, HL : !BlockStoreLaws St}.
Context (start : Z) (pt : PageTable) (mu : gmap Z Z).
Implicit Types s : fsys St.

(** A buffer within one page is one slice. *)
Lemma buffer_one_page k ptr len :
  represents start k pt mu → user_range k mu ptr len → 0 < len → ptr mod 4096 + len ≤ 4096 →
  translated_byte_buffer (token pt) ptr len k =
    Ok ([mkSlice (PTE_ppn (mu !!! (ptr / 4096))) (ptr mod 4096) (ptr mod 4096 + len)], k).
Proof.
  intros Hrep Hu Hlen Hfit. pose proof (ur_ptr _ _ _ _ Hu). pose proof (ur_end _ _ _ _ Hu).
  destruct (ur_backed _ _ _ _ Hu ptr ltac:(lia)) as (b & Hb & _). rewrite (lookup_total_correct _ _ _ Hb).
  pose proof (Z.div_mod ptr 4096 ltac:(lia)) as Hdm. pose proof (Z.mod_pos_bound ptr 4096 ltac:(lia)) as Hm.
  unfold translated_byte_buffer. rewrite u64_small by lia. cbn [buffer_loop].
  rewrite (proj2 (Z.ltb_lt _ _)) by lia. rewrite !VirtAddr_from_eq, !Z.mod_small by lia. unfold floor, PAGE_SIZE. mstep.
  change 0x1000 with 4096. rewrite (translate_user start k pt mu Hrep _ b) by (done || lia). cbn [unwrap].
  unfold step. rewrite u64_small by lia. rewrite VirtAddr_of_VirtPageNum_eq by lia.
  rewrite Z.min_r by lia. rewrite !page_offset_eq.
  assert (Hus : usize_of_VirtAddr (ptr + len) = ptr + len).
  { unfold usize_of_VirtAddr, VA_WIDTH_SV39. change (Z.shiftl 1 (39 - 1)) with (2 ^ 38).
    by rewrite (proj2 (Z.leb_gt _ _)) by lia. }
  rewrite Hus. replace (Z.to_nat len) with (S (Z.to_nat (len - 1))) by lia. cbn [buffer_loop].
  rewrite Z.ltb_irrefl. destruct (Z.eqb_spec ((ptr + len) mod 4096) 0) as [Hz|Hz].
  - replace 4096 with (ptr mod 4096 + len) at 2; [done|]. Z.to_euclidean_division_equations; lia.
  - replace ((ptr + len) mod 4096) with (ptr mod 4096 + len) by (Z.to_euclidean_division_equations; lia).
    by rewrite (proj2 (Z.leb_le _ _)) by lia.
Qed.

(** The first slice of a buffer that starts at the last byte of a page. *)
Lemma buffer_last_byte k ptr len :
  represents start k pt mu → user_range k mu ptr len → 0 < len → ptr mod 4096 = 4095 →
  ∃ bufs, translated_byte_buffer (token pt) ptr len k =
    Ok (mkSlice (PTE_ppn (mu !!! (ptr / 4096))) 4095 4096 :: bufs, k).
Proof.
  intros Hrep Hu Hlen Hm. destruct (byte_buffer_run start k pt mu ptr len Hrep) as (v & E & Hfl & Hall & _); try apply Hu.
  { intros va Hva. destruct (ur_backed _ _ _ _ Hu va Hva) as (b & Hb & _). by exists b. }
  destruct v as [|b v]; [apply (f_equal length) in Hfl; rewrite length_fmap, length_seqZ in Hfl; simpl in Hfl; lia|].
  exists v. rewrite E. repeat f_equal. apply Forall_cons in Hall as [[Hr Ht] _].
  rewrite seqZ_cons in Hfl by done. unfold flatten in Hfl. rewrite bind_cons in Hfl. unfold locations at 1 in Hfl.
  rewrite seqZ_cons in Hfl by (unfold sl_len; lia). cbn [fmap list_fmap app] in Hfl. unfold vloc at 1 in Hfl.
  injection Hfl as Hp Ho _. destruct b as [p f t]. cbn in *. f_equal; lia.
Qed.

Lemma write_str_run cs : ∀ s, write_str cs s = Ok (tt, set_console (console s) (printed s ++ cs) s).
Proof.
  induction cs as [|c cs IH]; intros s; cbn [write_str]; mstep.
  - rewrite app_nil_r. by destruct s.
  - unfold console_putchar. mstep. rewrite IH. cbn [set_console console printed]. by rewrite <- app_assoc.
Qed.

Lemma print_one s b bufs :
  slice_ok (mem (fs_ram s)) b →
  let bs := slice (Z.to_nat (sl_from b)) (Z.to_nat (sl_len b)) (mem (fs_ram s) !!! sl_ppn b) in
  print_buffers (b :: bufs) s =
    if from_utf8 bs then print_buffers bufs (set_console (console s) (printed s ++ chars bs) s) else Fail Panic.
Proof.
  intros Hb bs. destruct (load_slice_run (fs_ram s) b Hb) as (bs' & El & _ & _ & page & Ep & ->).
  unfold bs. rewrite (lookup_total_correct _ _ _ Ep). cbn [print_buffers]. mstep. rewrite (on_ram_run _ s _ El).
  destruct (from_utf8 _); [|done]. cbn [assert_]. by rewrite write_str_run.
Qed.
End console.

(** ** The guarantees *)

(** C14: [sys_write] on a descriptor of a file writes the bytes of user memory at
    [buf .. buf + len], through the page table of the process, at the offset of the
    open file, and returns [len]: they are in the file, its other bytes and all other
    files are as before, the offset has moved by [len] for every descriptor of this
    open file, and user memory is unchanged.  A file that is not open for writing
    gives -1. *)
Theorem sys_write_file {St} `{HS : BlockStore St, HL : !BlockStoreLaws St} efs start pt mu (s : fsys St) v fd fid o di buf len :
  represents start (fs_ram s) pt mu → user_range (fs_ram s) mu buf len →
  disk_view s v → refers s fd fid → files s !! fid = Some (FileInode o) →
  if Files.writable o then
    disk_ok efs v → file_at efs (Files.inode o) v di → 0 ≤ offset o → offset o + len ≤ MAX_SIZE →
    available efs v (blocks_for di (end_after (di_size di) (offset o) (Z.to_nat len))) →
    ∃ d v' di', let s' := set_files (<[fid := FileInode (set_offset (offset o + len) o)]> (files s)) (set_disk_ram d (fs_ram s) s) in
      sys_write efs (token pt) fd buf len s = Ok (Done len, s') ∧ disk_view s' v' ∧
      disk_ok efs v' ∧ file_at efs (Files.inode o) v' di' ∧
      written v di (offset o) (vbyte (fs_ram s) mu <$> seqZ buf len) v' di' ∧
      ∀ ino2 di2, file_at efs ino2 v di2 → inodes_apart (Files.inode o) ino2 → (∀ b, b ∈ all_ids di2 v → b ∉ all_ids di v) →
        file_at efs ino2 v' di2 ∧ content di2 v' = content di2 v
  else sys_write efs (token pt) fd buf len s = Ok (Done (-1), s).
Proof.
  intros Hrep Hu Hv Hfd Hf. destruct (Files.writable o) eqn:Hw; [intros; by eapply fs_write_run|].
  unfold sys_write. mstep. rewrite (lookup_fd_run s fd fid Hfd), (get_file_run s fid _ Hf). cbn [file_writable]. by rewrite Hw.
Qed.

(** C15: [sys_read] on a descriptor of a file copies the bytes from the offset of the
    open file on to user memory at [buf], as many as are asked for and the file
    still has, returns their number, which is 0 at the end of the file, and moves
    the offset behind them.  No other byte of memory and nothing on the disk
    changes.  A file that is not open for reading gives -1. *)
Theorem sys_read_file {St} `{HS : BlockStore St, HL : !BlockStoreLaws St} start pt mu (s : fsys St) v fd fid o di buf len :
  represents start (fs_ram s) pt mu → user_range (fs_ram s) mu buf len →
  disk_view s v → refers s fd fid → files s !! fid = Some (FileInode o) →
  if Files.readable o then
    inode_at (Files.inode o) v di → view_ok v → 0 ≤ offset o < 2 ^ 63 →
    let n := Z.min len (Z.max 0 (di_size di - offset o)) in
    ∃ d k', let s' := set_files (<[fid := FileInode (set_offset (offset o + n) o)]> (files s)) (set_disk_ram d k' s) in
      sys_read (token pt) fd buf len s = Ok (Done n, s') ∧ disk_view s' v ∧ frames k' = frames (fs_ram s) ∧
      same_lengths (mem (fs_ram s)) (mem k') ∧
      cells (mem k') (vloc mu <$> seqZ buf n) (slice (Z.to_nat (offset o)) (Z.to_nat n) (content di v)) ∧
      ∀ l, 0 ≤ l.2 → l ∉ vloc mu <$> seqZ buf n → cell (mem k') l = cell (mem (fs_ram s)) l
  else sys_read (token pt) fd buf len s = Ok (Done (-1), s).
Proof.
  intros Hrep Hu Hv Hfd Hf. destruct (Files.readable o) eqn:Hw; [intros; by eapply fs_read_run|].
  unfold sys_read. mstep. rewrite (lookup_fd_run s fd fid Hfd), (get_file_run s fid _ Hf). cbn [file_readable]. by rewrite Hw.
Qed.

(** C16: [sys_open] reads the name from user memory, opens it as [open_file] does, and
    puts a new open file into the lowest free descriptor, or returns -1 when
    [open_file] gives none.  Bits of the flags that are none of the five known ones
    panic the kernel. *)
Theorem sys_open_spec {St} `{HS : BlockStore St, HL : !BlockStoreLaws St} efs root start pt mu (s : fsys St) v v' path n flags o :
  represents start (fs_ram s) pt mu → 0 ≤ path → path + Z.of_nat n < 2 ^ 38 →
  (∀ i, 0 ≤ i ≤ Z.of_nat n → backed (fs_ram s) mu (path + i)) →
  (∀ i, 0 ≤ i < Z.of_nat n → vbyte (fs_ram s) mu (path + i) ≠ 0) → vbyte (fs_ram s) mu (path + Z.of_nat n) = 0 →
  disk_view s v →
  runs (open_file (St:=St) efs root (string_bytes (vbyte (fs_ram s) mu <$> seqZ path (Z.of_nat n))) flags) v ∅ o v' →
  if Z.land flags 0x603 =? flags then
    ∃ d, match o with
    | Some inode => ∃ fd t', sys_open efs root (token pt) (S n) path flags s =
          Ok (Z.of_nat fd, set_table t' (set_files (files s ++ [FileInode inode]) (set_disk_ram d (fs_ram s) s))) ∧
        adds_fd (fd_table s) fd (length (files s)) t' ∧ disk_view (set_disk_ram d (fs_ram s) s) v'
    | None => sys_open efs root (token pt) (S n) path flags s = Ok (-1, set_disk_ram d (fs_ram s) s) ∧
        disk_view (set_disk_ram d (fs_ram s) s) v'
    end
  else sys_open efs root (token pt) (S n) path flags s = Fail Panic.
Proof.
  intros Hrep Hp Hpn Hbk Hnz Hz Hv Hrun.
  assert (Estr : translated_str (S n) (token pt) path (fs_ram s) = Ok (vbyte (fs_ram s) mu <$> seqZ path (Z.of_nat n), fs_ram s)).
  { unfold translated_str. by rewrite (str_loop_run start (fs_ram s) pt mu Hrep n) by (done || lia). }
  unfold sys_open, OpenFlags_from_bits. change OpenFlags_all with 0x603. mstep. rewrite (on_ram_run _ s _ Estr).
  destruct (Z.land flags 0x603 =? flags); [|done]. cbn [unwrap].
  destruct (on_fstate_run _ s v _ _ _ Hv (fruns_disk _ v (fs_ram s) _ v' Hrun)) as (d & E & Hv'). exists d. rewrite E.
  destruct o as [inode|]; [|done]. unfold new_file. mstep. cbn [files fd_table set_files set_disk_ram].
  destruct (alloc_fd (fd_table s)) as [fd t1] eqn:Ea. exists fd. eexists. split; [reflexivity|].
  split; [by apply alloc_fd_run|exact Hv'].
Qed.

(** C35: [sys_pipe] makes an empty pipe, puts its read end into the lowest free
    descriptor and its write end into the next one, and stores the two numbers in
    the two words of user memory at [pipe].  Nothing else changes. *)
Theorem sys_pipe_spec {St} `{HS : BlockStore St, HL : !BlockStoreLaws St} start pt mu (s : fsys St) pipe :
  represents start (fs_ram s) pt mu → user_range (fs_ram s) mu pipe 16 → outside_table pt mu pipe 16 → pipe mod 8 = 0 →
  let fid := length (files s) in
  let ring := length (rings s) in
  holds (set_write_end PipeRingBuffer_new) [] ∧
  ∃ read_fd write_fd t1 t2 k',
    sys_pipe (token pt) pipe s = Ok (0, mkFsys (fs_disk s) k'
      (files s ++ [FilePipe read_end_with_buffer ring; FilePipe write_end_with_buffer ring])
      (rings s ++ [mkRingObj (set_write_end PipeRingBuffer_new) (S fid)]) t2 (other_refs s) (console s) (printed s)) ∧
    adds_fd (fd_table s) read_fd fid t1 ∧ adds_fd t1 write_fd (S fid) t2 ∧
    frames k' = frames (fs_ram s) ∧ same_lengths (mem (fs_ram s)) (mem k') ∧
    cells (mem k') (vloc mu <$> seqZ pipe 16) (le_put 8 (Z.of_nat read_fd) ++ le_put 8 (Z.of_nat write_fd)) ∧
    ∀ l, 0 ≤ l.2 → l ∉ vloc mu <$> seqZ pipe 16 → cell (mem k') l = cell (mem (fs_ram s)) l.
Proof. intros. split; [apply holds_new|]. by apply (pipe_run start). Qed.

(** C36: [sys_read] and [sys_write] on the ends of a pipe that holds the bytes [q].
    A read moves as many bytes to user memory as there are, up to [len]; it returns
    [len] when that is enough, and otherwise waits as long as there is a reference
    to the write end in any table or waiting call, and returns what it has, 0 at
    the end of the stream, when there is none.  A write appends as many bytes of
    user memory as there is room for and waits with the rest.  A waiting call keeps
    its own reference. *)
Theorem pipe_io_spec {St} `{HS : BlockStore St, HL : !BlockStoreLaws St} efs start pt mu (s : fsys St) fd fid ring rg wfid q buf len :
  represents start (fs_ram s) pt mu → user_range (fs_ram s) mu buf len →
  refers s fd fid → rings s !! ring = Some (mkRingObj rg wfid) → holds rg q → write_end rg = true →
  (files s !! fid = Some (FilePipe read_end_with_buffer ring) →
    let k := Nat.min (length q) (Z.to_nat len) in
    ∃ c rg' m' refs, sys_read (token pt) fd buf len s = Ok (c, set_refs refs
        (set_rings (<[ring := mkRingObj rg' wfid]> (rings s)) (set_disk_ram (fs_disk s) (mkKmem m' (frames (fs_ram s))) s))) ∧
      holds rg' (drop k q) ∧ write_end rg' = true ∧
      cells m' (vloc mu <$> seqZ buf (Z.of_nat k)) (take k q) ∧
      (∀ l, 0 ≤ l.2 → l ∉ vloc mu <$> seqZ buf len → cell m' l = cell (mem (fs_ram s)) l) ∧
      if bool_decide (q ≠ [] ∧ len ≤ Z.of_nat (length q)) then c = Done len ∧ refs = other_refs s
      else if referenced wfid s then (∃ it, c = Waiting (WaitRead fid ring it (Z.of_nat k) len)) ∧ refs = fid :: other_refs s
      else c = Done (Z.of_nat k) ∧ refs = other_refs s) ∧
  (files s !! fid = Some (FilePipe write_end_with_buffer ring) →
    let k := Nat.min (32 - length q) (Z.to_nat len) in
    ∃ c rg' refs, sys_write efs (token pt) fd buf len s =
        Ok (c, set_refs refs (set_rings (<[ring := mkRingObj rg' wfid]> (rings s)) s)) ∧
      holds rg' (q ++ (vbyte (fs_ram s) mu <$> seqZ buf (Z.of_nat k))) ∧ write_end rg' = true ∧
      if bool_decide ((length q < 32)%nat ∧ len ≤ 32 - Z.of_nat (length q)) then c = Done len ∧ refs = other_refs s
      else (∃ it, c = Waiting (WaitWrite fid ring it (Z.of_nat k) len)) ∧ refs = fid :: other_refs s).
Proof. intros. split; intros; [by eapply (pipe_read_run start)|by eapply (pipe_write_run start)]. Qed.

(** C37: writing to the console, for a buffer inside of one page.  When the bytes of the
    buffer are the UTF-8 encoding of some characters, the firmware gets the code points
    of these characters, one call for each, and the call returns the number of bytes;
    bytes that are no such encoding panic the kernel.  So does, for a buffer of any
    length, correct text whose first character needs several bytes and starts at the
    last byte of a page: each page is decoded on its own. *)
Theorem console_write_spec {St} `{HS : BlockStore St, HL : !BlockStoreLaws St} efs start pt mu (s : fsys St) fd fid buf len :
  represents start (fs_ram s) pt mu → user_range (fs_ram s) mu buf len → 0 < len →
  refers s fd fid → files s !! fid = Some Stdout →
  let bs := vbyte (fs_ram s) mu <$> seqZ buf len in
  (buf mod 4096 + len ≤ 4096 →
    (∀ cs, Forall scalar cs → bs = string_bytes cs →
      sys_write efs (token pt) fd buf len s = Ok (Done len, set_console (console s) (printed s ++ cs) s)) ∧
    (bytes bs → (∀ cs, Forall scalar cs → bs ≠ string_bytes cs) → sys_write efs (token pt) fd buf len s = Fail Panic)) ∧
  (buf mod 4096 = 4095 → 0x80 ≤ vbyte (fs_ram s) mu buf → sys_write efs (token pt) fd buf len s = Fail Panic).
Proof.
  intros Hrep Hu Hlen Hfd Hf bs. pose proof (ur_ptr _ _ _ _ Hu). pose proof (ur_end _ _ _ _ Hu).
  destruct (user_buffer start (fs_ram s) pt mu buf len Hrep Hu) as (bufs & Eb & Hfl & Hl & Hok & _ & Hc & _).
  split; intros Hm.
  - rewrite (buffer_one_page start pt mu _ _ _ Hrep Hu Hlen Hm) in Eb. injection Eb as <-.
    apply Forall_cons in Hok as [Hb _]. destruct (load_slice_run _ _ Hb) as (bs' & _ & _ & Hc' & page & Ep & Ebs').
    unfold flatten in Hc. rewrite bind_cons, app_nil_r in Hc. pose proof (cells_eq _ _ _ _ Hc Hc') as Ebs. fold bs in Ebs.
    unfold sys_write, file_write, Stdout_write, hold. mstep. rewrite (lookup_fd_run s fd fid Hfd), (get_file_run s fid _ Hf).
    cbn [file_writable negb]. rewrite (on_ram_run _ s _ (buffer_one_page start pt mu _ _ _ Hrep Hu Hlen Hm)).
    rewrite (print_one s _ [] Hb). cbv zeta. rewrite (lookup_total_correct _ _ _ Ep), <- Ebs', <- Ebs.
    split.
    + intros cs Hcs ->. destruct (chars_of_string cs Hcs) as [-> ->]. cbn [print_buffers]. mstep. rewrite Hl, i64_small by lia. done.
    + intros Hbs Hno. destruct (from_utf8 bs) eqn:Eu; [|done]. destruct (from_utf8_text bs Hbs Eu) as (cs & Hcs & Ecs). by destruct (Hno cs).
  - intros Hch. destruct (buffer_last_byte start pt mu _ _ _ Hrep Hu Hlen Hm) as [bufs' E']. rewrite E' in Eb. injection Eb as <-.
    apply Forall_cons in Hok as [Hb _]. destruct (load_slice_run _ _ Hb) as (bs' & _ & Hbl & Hc' & page & Ep & Ebs').
    assert (Hutf : from_utf8 bs' = false).
    { destruct bs' as [|x [|]]; [done| |done]. apply Forall2_cons_1 in Hc' as [Hx _].
      assert (Ex : cell (mem (fs_ram s)) (vloc mu buf) = Some x) by (unfold vloc; rewrite Hm; exact Hx).
      rewrite Hfl, seqZ_cons in Hc by done.
      apply Forall2_cons_1 in Hc as [Hx' _]. cbv beta in Hx'. rewrite Ex in Hx'. injection Hx' as ->.
      simpl. by rewrite (proj2 (Z.ltb_ge _ _)) by lia. }
    unfold sys_write, file_write, Stdout_write, hold. mstep. rewrite (lookup_fd_run s fd fid Hfd), (get_file_run s fid _ Hf).
    cbn [file_writable negb]. rewrite (on_ram_run _ s _ E').
    rewrite (print_one s _ bufs' Hb). cbv zeta. by rewrite (lookup_total_correct _ _ _ Ep), <- Ebs', Hutf.
Qed.

(** ** Concrete runs *)

(** Standard input and output, the file "a" of the image, and an empty pipe. *)
Definition call_state (k : kmem) : fsys (CacheState BlockFile) :=
  mkFsys (boot fs_image) k
    [Stdin; Stdout; FileInode fs_open; FilePipe read_end_with_buffer 0; FilePipe write_end_with_buffer 0]
    [mkRingObj (set_write_end PipeRingBuffer_new) 4]
    [Some 0%nat; Some 1%nat; Some 1%nat; Some 2%nat; Some 3%nat; Some 4%nat] [] [] [].

Lemma call_view k : disk_view (call_state k) fs_view.
Proof. destruct (boot_wf fs_image (proj1 fs_image_ok) (proj2 fs_image_ok)) as [Hw Hh]. split; [exact Hw|]. by split. Qed.

Lemma descriptors_spec_witness :
  (∃ fd s', sys_dup 3 (call_state hi_ram) = Ok (Z.of_nat fd, s') ∧ fd_table s' !! fd = Some (Some 2%nat)) ∧
  sys_close 9 (call_state hi_ram) = Ok (-1, call_state hi_ram).
Proof.
  destruct (descriptors_spec fs_efs 0 (call_state hi_ram) 3 ltac:(lia)) as [(fd & t' & E & _ & _ & Hnew & _) _].
  destruct (descriptors_spec fs_efs 0 (call_state hi_ram) 9 ltac:(lia)) as (_ & E9 & _).
  split; [|exact E9]. exists fd. eexists. split; [exact E|exact Hnew].
Defined.

(** "hi" over the third and fourth byte of "hello". *)
Lemma sys_write_file_witness :
  ∃ pt k s', sys_write fs_efs (token pt) 3 0x10000 2 (call_state k) = Ok (Done 2, s') ∧
    files s' !! 2%nat = Some (FileInode (mkOSInode true true 4 fs_a)).
Proof.
  destruct hi_mapped as (pt & k & Hr & Hpg & _).
  destruct (sys_write_file fs_efs 5 pt hi_mu (call_state k) fs_view 3 2%nat fs_open fs_file 0x10000 2) as (d & v' & di' & E & _).
  - exact Hr.
  - apply hi_range; [exact Hpg|lia].
  - apply call_view.
  - by split.
  - reflexivity.
  - apply fs_disk_ok.
  - apply fs_a_at.
  - done.
  - by vm_compute.
  - split; [vm_compute; lia|]. intros j Hj. exfalso. revert Hj. vm_compute (take _ _). apply not_elem_of_nil.
  - exists pt, k. eexists. split; [exact E|reflexivity].
Defined.

(** The last three bytes of "hello" where "hi" was. *)
Lemma sys_read_file_witness :
  ∃ pt k s', sys_read (token pt) 3 0x10000 10 (call_state k) = Ok (Done 3, s') ∧ cell (mem (fs_ram s')) (10, 2) = Some 111.
Proof.
  destruct hi_mapped as (pt & k & Hr & Hpg & _).
  destruct (sys_read_file 5 pt hi_mu (call_state k) fs_view 3 2%nat fs_open fs_file 0x10000 10) as (d & k' & E & _ & _ & _ & Hc & _).
  - exact Hr.
  - apply hi_range; [exact Hpg|lia].
  - apply call_view.
  - by split.
  - reflexivity.
  - apply (fa_at _ _ _ _ fs_a_at).
  - apply (dk_view _ _ fs_disk_ok).
  - done.
  - exists pt, k. eexists. split; [exact E|]. apply (cells_lookup _ _ _ 2 _ _ Hc); vm_compute; reflexivity.
Defined.

(** There is no file "hi"; the bit 4 is no flag. *)
Lemma sys_open_spec_witness :
  ∃ pt k, (∃ s', sys_open fs_efs (inode_of fs_efs 0) (token pt) 3 0x10000 0 (call_state k) = Ok (-1, s')) ∧
    sys_open fs_efs (inode_of fs_efs 0) (token pt) 3 0x10000 4 (call_state k) = Fail Panic.
Proof.
  destruct hi_mapped as (pt & k & Hr & Hpg & _). exists pt, k.
  assert (Hname : string_bytes (vbyte k hi_mu <$> seqZ 0x10000 (Z.of_nat 2)) = [104; 105]).
  { change (seqZ 0x10000 (Z.of_nat 2)) with [0x10000 + 0; 0x10000 + 1]. cbn [fmap list_fmap].
    rewrite !hi_vbyte by (done || lia). reflexivity. }
  assert (Hopen : ∀ fl, Z.testbit fl 9 = false → runs (open_file (St:=CacheState BlockFile) fs_efs (inode_of fs_efs 0) [104; 105] fl) fs_view ∅ None fs_view).
  { intros fl H9. destruct (open_file_run (St:=CacheState BlockFile) fs_efs (inode_of fs_efs 0) fs_view fs_root fs_ents [104; 105] fl
      fs_disk_ok fs_root_at fs_directory) as (_ & Hn & _). by apply Hn. }
  assert (Hspec : ∀ fl, Z.testbit fl 9 = false → _) by
    (intros fl H9; refine (sys_open_spec fs_efs (inode_of fs_efs 0) 5 pt hi_mu (call_state k) fs_view fs_view 0x10000 2 fl None
      Hr ltac:(lia) ltac:(lia) _ _ _ (call_view k) _);
     [ intros i Hi; exists hi_pte; split; [apply hi_mu_lookup; lia|exists hi_page; exact Hpg]
     | intros i Hi; cbn [fs_ram call_state]; rewrite hi_vbyte by (done || lia); assert (i = 0 ∨ i = 1) as [-> | ->] by lia; done
     | cbn [fs_ram call_state]; rewrite hi_vbyte by (done || lia); reflexivity
     | cbn [fs_ram call_state]; rewrite Hname; by apply Hopen ]).
  split.
  - destruct (Hspec 0 eq_refl) as (d & E & _). eexists. exact E.
  - exact (Hspec 4 eq_refl).
Defined.

Lemma sys_pipe_spec_witness :
  ∃ pt k s', sys_pipe (token pt) 0x10000 (call_state k) = Ok (0, s').
Proof.
  destruct hi_mapped as (pt & k & Hr & Hpg & Hnt). exists pt, k.
  destruct (sys_pipe_spec 5 pt hi_mu (call_state k) 0x10000) as (_ & r & w & t1 & t2 & k' & E & _).
  - exact Hr.
  - apply hi_range; [exact Hpg|lia].
  - intros va Hva. replace (va / 4096) with 0x10 by (Z.to_euclidean_division_equations; lia). exact Hnt.
  - reflexivity.
  - eexists. exact E.
Defined.

(** Reading from the empty pipe waits; "hi" fits. *)
Lemma pipe_io_spec_witness :
  ∃ pt k, (∃ it s', sys_read (token pt) 4 0x10000 2 (call_state k) = Ok (Waiting (WaitRead 3 0 it 0 2), s')) ∧
    ∃ s', sys_write fs_efs (token pt) 5 0x10000 2 (call_state k) = Ok (Done 2, s').
Proof.
  destruct hi_mapped as (pt & k & Hr & Hpg & _). exists pt, k.
  pose proof (pipe_io_spec fs_efs 5 pt hi_mu (call_state k)) as Hspec.
  destruct (Hspec 4 3%nat 0%nat (set_write_end PipeRingBuffer_new) 4%nat [] 0x10000 2 Hr
    (hi_range k 2 Hpg ltac:(lia)) ltac:(by split) eq_refl holds_new eq_refl) as [H1 _].
  destruct (Hspec 5 4%nat 0%nat (set_write_end PipeRingBuffer_new) 4%nat [] 0x10000 2 Hr
    (hi_range k 2 Hpg ltac:(lia)) ltac:(by split) eq_refl holds_new eq_refl) as [_ H2].
  destruct (H1 eq_refl) as (c & rg' & m' & refs & E & _ & _ & _ & _ & Hc). cbn in Hc. destruct Hc as [[it ->] _].
  destruct (H2 eq_refl) as (c2 & rg2 & refs2 & E2 & _ & _ & Hc2). cbn in Hc2. destruct Hc2 as [-> _].
  split; [exists it; eexists; exact E|eexists; exact E2].
Defined.

Lemma console_write_spec_witness :
  ∃ pt k s', sys_write fs_efs (token pt) 1 0x10000 2 (call_state k) = Ok (Done 2, s') ∧ printed s' = [104; 105].
Proof.
  destruct hi_mapped as (pt & k & Hr & Hpg & _). exists pt, k.
  destruct (console_write_spec fs_efs 5 pt hi_mu (call_state k) 1 1%nat 0x10000 2 Hr (hi_range k 2 Hpg ltac:(lia)) ltac:(lia)
    ltac:(by split) eq_refl) as [E _].
  destruct (E ltac:(done)) as [E' _]. specialize (E' [104; 105] ltac:(apply Forall_cons; split; [by left|apply Forall_singleton; by left])).
  assert (Hbs : vbyte (fs_ram (call_state k)) hi_mu <$> seqZ 0x10000 2 = [104; 105]).
  { change (seqZ 0x10000 2) with [0x10000 + 0; 0x10000 + 1]. cbn [fmap list_fmap fs_ram call_state].
    rewrite !hi_vbyte by (done || lia). reflexivity. }
  rewrite Hbs in E'. eexists. split; [exact (E' eq_refl)|reflexivity].
Defined.
