(* ===== verification/Threads.v ===== *)
(** * Tasks and the scheduler (os/src/task/manager.rs, processor.rs, mod.rs)

    The part of the kernel state that scheduling and synchronisation work on:
    the ready queue of [TASK_MANAGER], the current task of [PROCESSOR], the
    status of every task, the pending timers, and the synchronisation objects
    of [sync/].  Tasks and objects stand for their [Arc]s and are compared by
    identity; an object is its index in the list of objects of its kind.

    [__switch] saves a task in the middle of a kernel function and goes on with
    another one.  The model keeps, per task, the place in the source where it
    was saved ([kcont]); [run_tasks] continues there. *)

From S2P Require Import Prelude.

Inductive TaskStatus := Ready | Running | Blocked.

#[export] Instance TaskStatus_eq_dec : EqDecision TaskStatus.
Proof. solve_decision. Defined.

(** Where a task that does not run continues. *)
Inductive kcont :=
  | AtUser                        (** nothing left but the return to user mode *)
  | InSpinLock (m : nat)          (** [continue] of [MutexSpin::lock] *)
  | InLock (m : nat)              (** end of [MutexBlocking::lock] *)
  | InDown (s : nat)              (** end of [Semaphore::down] *)
  | InWait (c m : nat)            (** [mutex.lock()] of [Condvar::wait] *)
  | InSleep.                      (** end of [sys_sleep] *)

#[export] Instance kcont_eq_dec : EqDecision kcont.
Proof. solve_decision. Defined.

(** [dyn Mutex] *)
Inductive MutexObj :=
  | MutexSpin (locked : bool)
  | MutexBlocking (locked : bool) (wait_queue : list Z).

Record Semaphore := mkSem { count : Z; sem_queue : list Z }.

Record TimerCondVar := mkTimer { expire_ms : Z; timer_task : Z }.

Record kernel := mkKernel {
  ready_queue : list Z;
  stop_task : option Z;
  current : option Z;
  task_status : gmap Z TaskStatus;
  saved : gmap Z kcont;
  timers : list TimerCondVar;
  mutexes : list MutexObj;
  semaphores : list Semaphore;
  condvars : list (list Z);   (** a [Condvar] is its wait queue *)
}.

Definition set_ready q k := mkKernel q (stop_task k) (current k) (task_status k) (saved k)
  (timers k) (mutexes k) (semaphores k) (condvars k).
Definition set_stop t k := mkKernel (ready_queue k) t (current k) (task_status k) (saved k)
  (timers k) (mutexes k) (semaphores k) (condvars k).
Definition set_current c k := mkKernel (ready_queue k) (stop_task k) c (task_status k) (saved k)
  (timers k) (mutexes k) (semaphores k) (condvars k).
Definition set_status t st k := mkKernel (ready_queue k) (stop_task k) (current k)
  (<[t := st]> (task_status k)) (saved k) (timers k) (mutexes k) (semaphores k) (condvars k).
Definition set_saved t c k := mkKernel (ready_queue k) (stop_task k) (current k) (task_status k)
  (<[t := c]> (saved k)) (timers k) (mutexes k) (semaphores k) (condvars k).
Definition set_timers ts k := mkKernel (ready_queue k) (stop_task k) (current k) (task_status k)
  (saved k) ts (mutexes k) (semaphores k) (condvars k).
Definition set_mutexes ms k := mkKernel (ready_queue k) (stop_task k) (current k) (task_status k)
  (saved k) (timers k) ms (semaphores k) (condvars k).
Definition set_semaphores ss k := mkKernel (ready_queue k) (stop_task k) (current k)
  (task_status k) (saved k) (timers k) (mutexes k) ss (condvars k).
Definition set_condvars cs k := mkKernel (ready_queue k) (stop_task k) (current k)
  (task_status k) (saved k) (timers k) (mutexes k) (semaphores k) cs.

(** ** [TaskManager] *)

Definition add_task (t : Z) : M kernel unit :=
  puts (λ k, set_ready (ready_queue k ++ [t]) k).

Definition fetch_task : M kernel (option Z) :=
  q ← gets ready_queue;
  match q with
  | [] => mret None
  | t :: q => puts (set_ready q);; mret (Some t)
  end.

(** The first occurrence, as [find] over the enumerated queue returns it. *)
Fixpoint remove_first (t : Z) (q : list Z) : list Z :=
  match q with
  | [] => []
  | x :: q => if x =? t then q else x :: remove_first t q
  end.

Definition remove_task (t : Z) : M kernel unit :=
  puts (λ k, set_ready (remove_first t (ready_queue k)) k).

Definition add_stopping_task (t : Z) : M kernel unit := puts (set_stop (Some t)).

Definition wakeup_task (t : Z) : M kernel unit :=
  puts (set_status t Ready);;
  add_task t.

(** ** [Processor] *)

Definition take_current_task : M kernel (option Z) :=
  c ← gets current;
  puts (set_current None);;
  mret c.

Definition current_task : M kernel (option Z) := gets current.

(** The switch of [schedule], from code that continues at [c]. *)
Definition schedule (t : Z) (c : kcont) : M kernel unit := puts (set_saved t c).

Definition suspend_current_and_run_next (c : kcont) : M kernel unit :=
  o ← take_current_task;
  t ← lift (unwrap o);
  puts (set_status t Ready);;
  add_task t;;
  schedule t c.

Definition block_current_and_run_next (c : kcont) : M kernel unit :=
  o ← take_current_task;
  t ← lift (unwrap o);
  puts (set_status t Blocked);;
  schedule t c.

(** One turn of the loop of [run_tasks]: the task that runs now and where it
    continues; [None] when no task is ready. *)
Definition run_next : M kernel (option (Z * kcont)) :=
  o ← fetch_task;
  match o with
  | Some t =>
      puts (set_status t Running);;
      puts (set_current (Some t));;
      c ← gets (λ k, default AtUser (saved k !! t));
      mret (Some (t, c))
  | None => mret None
  end.

(** ** Where the tasks are *)

Definition mutex_waiters (x : MutexObj) : list Z :=
  match x with MutexSpin _ => [] | MutexBlocking _ q => q end.

(** The tasks that wait for something. *)
Definition blocked (k : kernel) : list Z :=
  (mutexes k ≫= mutex_waiters) ++ (semaphores k ≫= sem_queue) ++ (condvars k ≫= id) ++
  (timer_task <$> timers k).

(** Every task of the kernel, at each place it is kept. *)
Definition places (k : kernel) : list Z :=
  option_list (current k) ++ ready_queue k ++ blocked k.

(** The tasks of each status, by the place they are kept at. *)
Definition at_place (k : kernel) (st : TaskStatus) (t : Z) : Prop :=
  match st with
  | Running => current k = Some t
  | Ready => t ∈ ready_queue k
  | Blocked => t ∈ blocked k
  end.

(** Every task is at one place, and its status says which. *)
Record sched_wf (k : kernel) : Prop := {
  wf_places : NoDup (places k);
  wf_status : ∀ st t, at_place k st t → task_status k !! t = Some st;
}.

Lemma elem_of_option_list {A} (o : option A) x : x ∈ option_list o ↔ o = Some x.
Proof.
  destruct o; cbn [option_list option_rect]; rewrite ?list_elem_of_singleton; [naive_solver|].
  split; [by intros ?%not_elem_of_nil|done].
Qed.

Lemma elem_of_places k t : t ∈ places k ↔ ∃ st, at_place k st t.
Proof.
  unfold places. rewrite !elem_of_app, elem_of_option_list. split.
  - intros [?|[?|?]]; [by exists Running|by exists Ready|by exists Blocked].
  - intros [[] ?]; cbn in *; tauto.
Qed.

Lemma at_place_unique k st st' t :
  NoDup (places k) → at_place k st t → at_place k st' t → st = st'.
Proof.
  unfold places. intros (_ & Hd & Hnd)%NoDup_app. apply NoDup_app in Hnd as (_ & Hd' & _).
  assert (Hcr : current k = Some t → (t ∉ ready_queue k) ∧ (t ∉ blocked k)).
  { intros Hc. specialize (Hd t). rewrite elem_of_option_list, elem_of_app in Hd. tauto. }
  specialize (Hd' t). destruct st, st'; cbn; tauto.
Qed.

(** ** Abstract moves

    What any piece of kernel code does to the places of the tasks. *)

Inductive move := Wake (t : Z) | Wait (t : Z) (c : kcont) | Suspend (t : Z) (c : kcont)
  | Run (t : Z) | Stay.

Definition moves (l : move) (k k' : kernel) : Prop :=
  match l with
  | Wake t => current k' = current k ∧ ready_queue k' = ready_queue k ++ [t] ∧
      blocked k ≡ₚ t :: blocked k' ∧
      task_status k' = <[t := Ready]> (task_status k) ∧ saved k' = saved k
  | Wait t c => current k = Some t ∧ current k' = None ∧ ready_queue k' = ready_queue k ∧
      blocked k' ≡ₚ t :: blocked k ∧
      task_status k' = <[t := Blocked]> (task_status k) ∧ saved k' = <[t := c]> (saved k)
  | Suspend t c => current k = Some t ∧ current k' = None ∧ ready_queue k' = ready_queue k ++ [t] ∧
      blocked k' ≡ₚ blocked k ∧
      task_status k' = <[t := Ready]> (task_status k) ∧ saved k' = <[t := c]> (saved k)
  | Run t => current k = None ∧ current k' = Some t ∧ ready_queue k = t :: ready_queue k' ∧
      blocked k' ≡ₚ blocked k ∧
      task_status k' = <[t := Running]> (task_status k) ∧ saved k' = saved k
  | Stay => current k' = current k ∧ ready_queue k' = ready_queue k ∧ blocked k' ≡ₚ blocked k ∧
      task_status k' = task_status k ∧ saved k' = saved k
  end.

(** The task a move is about and the status it gets. *)
Definition moved (l : move) : option (Z * TaskStatus) :=
  match l with
  | Wake t | Suspend t _ => Some (t, Ready)
  | Wait t _ => Some (t, Blocked)
  | Run t => Some (t, Running)
  | Stay => None
  end.

Lemma moves_places l k k' : moves l k k' → places k' ≡ₚ places k.
Proof.
  unfold places. destruct l; cbn [moves]; intros Hm.
  - destruct Hm as (-> & -> & -> & _). solve_Permutation.
  - destruct Hm as (-> & -> & -> & -> & _). cbn [option_list]. solve_Permutation.
  - destruct Hm as (-> & -> & -> & -> & _). cbn [option_list]. solve_Permutation.
  - destruct Hm as (-> & -> & -> & -> & _). cbn [option_list]. solve_Permutation.
  - destruct Hm as (-> & -> & -> & _). done.
Qed.

Lemma moves_at l k k' st t :
  moves l k k' → at_place k' st t → moved l = Some (t, st) ∨ at_place k st t.
Proof.
  destruct l; cbn [moves moved]; intros Hm Hat.
  - destruct Hm as (Hc & Hr & Hb & _). destruct st; cbn in *.
    + rewrite Hr, elem_of_app, list_elem_of_singleton in Hat. destruct Hat as [?| ->]; auto.
    + rewrite Hc in Hat. auto.
    + right. rewrite Hb. by apply list_elem_of_further.
  - destruct Hm as (Hc & Hc' & Hr & Hb & _). destruct st; cbn in *.
    + rewrite Hr in Hat. auto.
    + congruence.
    + rewrite Hb, elem_of_cons in Hat. destruct Hat as [->|?]; auto.
  - destruct Hm as (Hc & Hc' & Hr & Hb & _). destruct st; cbn in *.
    + rewrite Hr, elem_of_app, list_elem_of_singleton in Hat. destruct Hat as [?| ->]; auto.
    + congruence.
    + rewrite Hb in Hat. auto.
  - destruct Hm as (Hc & Hc' & Hr & Hb & _). destruct st; cbn in *.
    + right. rewrite Hr. by apply list_elem_of_further.
    + left. congruence.
    + rewrite Hb in Hat. auto.
  - destruct Hm as (Hc & Hr & Hb & _). destruct st; cbn in *.
    + rewrite Hr in Hat. auto.
    + rewrite Hc in Hat. auto.
    + rewrite Hb in Hat. auto.
Qed.

Lemma moves_moved l k k' t st : moves l k k' → moved l = Some (t, st) →
  at_place k' st t ∧ task_status k' = <[t := st]> (task_status k).
Proof.
  destruct l; cbn [moves moved]; intros Hm [= <- <-]; cbn [at_place].
  - destruct Hm as (_ & -> & _ & -> & _). split; [|done]. apply elem_of_app. right. apply list_elem_of_here.
  - destruct Hm as (_ & _ & _ & -> & -> & _). split; [|done]. apply list_elem_of_here.
  - destruct Hm as (_ & _ & -> & _ & -> & _). split; [|done]. apply elem_of_app. right. apply list_elem_of_here.
  - by destruct Hm as (_ & -> & _ & _ & -> & _).
Qed.

(** Moves keep every task at one place with the status of that place. *)
Lemma moves_wf l k k' : moves l k k' → sched_wf k → sched_wf k'.
Proof.
  intros Hm [Hnd Hst]. assert (Hnd' : NoDup (places k')) by (by rewrite (moves_places l k k')).
  split; [done|]. intros st t Hat. destruct (moved l) as [[t' st']|] eqn:El.
  - destruct (moves_moved _ _ _ _ _ Hm El) as [Hat' ->]. destruct (decide (t' = t)) as [->|Hne].
    + rewrite lookup_insert_eq. f_equal. by eapply at_place_unique.
    + rewrite lookup_insert_ne by done. apply Hst.
      destruct (moves_at _ _ _ _ _ Hm Hat) as [[=]|?]; congruence.
  - destruct l; try discriminate El. destruct (moves_at _ _ _ _ _ Hm Hat) as [[=]|?].
    destruct Hm as (_ & _ & _ & -> & _). auto.
Qed.
