(* ===== verification/Sync.v ===== *)
(** * Mutexes, semaphores, condition variables and timers
      (os/src/sync/*.rs, os/src/timer.rs)

    The operations of the synchronisation objects on the scheduler state of
    [Threads], and the machine they form: user operations of the current task
    and turns of the idle loop, each with the events that later theorems speak
    of.  A kernel function that gives the processor away is split there: the
    operation runs to the switch, and the turn of the idle loop that resumes
    the task runs the rest. *)

From S2P Require Import Prelude Threads.

(** ** [MutexSpin] and [MutexBlocking] *)

Definition MutexSpin_new : MutexObj := MutexSpin false.
Definition MutexBlocking_new : MutexObj := MutexBlocking false [].

Definition get_mutex (m : nat) : M kernel MutexObj :=
  ms ← gets mutexes; lift (unwrap (ms !! m)).
Definition set_mutex (m : nat) (x : MutexObj) : M kernel unit :=
  puts (λ k, set_mutexes (<[m := x]> (mutexes k)) k).

(** [lock]: whether the call returned, or the task gave the processor away *)
Definition MutexSpin_lock (m : nat) (locked : bool) : M kernel bool :=
  if locked then suspend_current_and_run_next (InSpinLock m);; mret false
  else set_mutex m (MutexSpin true);; mret true.

Definition MutexBlocking_lock (m : nat) (locked : bool) (wait_queue : list Z) : M kernel bool :=
  if locked then
    o ← current_task;
    t ← lift (unwrap o);
    set_mutex m (MutexBlocking locked (wait_queue ++ [t]));;
    block_current_and_run_next (InLock m);;
    mret false
  else set_mutex m (MutexBlocking true wait_queue);; mret true.

Definition MutexSpin_unlock (m : nat) : M kernel unit := set_mutex m (MutexSpin false).

Definition MutexBlocking_unlock (m : nat) (locked : bool) (wait_queue : list Z) : M kernel unit :=
  lift (assert_ locked);;
  match wait_queue with
  | waking_task :: wait_queue =>
      set_mutex m (MutexBlocking locked wait_queue);;
      wakeup_task waking_task
  | [] => set_mutex m (MutexBlocking false [])
  end.

(** The methods of [dyn Mutex]. *)
Definition mutex_lock (m : nat) : M kernel bool :=
  x ← get_mutex m;
  match x with
  | MutexSpin locked => MutexSpin_lock m locked
  | MutexBlocking locked wait_queue => MutexBlocking_lock m locked wait_queue
  end.

Definition mutex_unlock (m : nat) : M kernel unit :=
  x ← get_mutex m;
  match x with
  | MutexSpin _ => MutexSpin_unlock m
  | MutexBlocking locked wait_queue => MutexBlocking_unlock m locked wait_queue
  end.

(** ** [Semaphore] *)

(** [res_count as isize] *)
Definition Semaphore_new (res_count : Z) : Semaphore := mkSem (i64 res_count) [].

Definition get_sem (s : nat) : M kernel Semaphore :=
  ss ← gets semaphores; lift (unwrap (ss !! s)).
Definition set_sem (s : nat) (x : Semaphore) : M kernel unit :=
  puts (λ k, set_semaphores (<[s := x]> (semaphores k)) k).

Definition sem_up (s : nat) : M kernel unit :=
  x ← get_sem s;
  let count := i64 (count x + 1) in
  if count <=? 0 then
    match sem_queue x with
    | t :: q => set_sem s (mkSem count q);; wakeup_task t
    | [] => set_sem s (mkSem count [])
    end
  else set_sem s (mkSem count (sem_queue x)).

(** [down]: whether the call returned *)
Definition sem_down (s : nat) : M kernel bool :=
  x ← get_sem s;
  let count := i64 (count x - 1) in
  if count <? 0 then
    o ← current_task;
    t ← lift (unwrap o);
    set_sem s (mkSem count (sem_queue x ++ [t]));;
    block_current_and_run_next (InDown s);;
    mret false
  else set_sem s (mkSem count (sem_queue x));; mret true.

(** ** [Condvar] *)

Definition Condvar_new : list Z := [].

Definition get_condvar (c : nat) : M kernel (list Z) :=
  cs ← gets condvars; lift (unwrap (cs !! c)).
Definition set_condvar (c : nat) (q : list Z) : M kernel unit :=
  puts (λ k, set_condvars (<[c := q]> (condvars k)) k).

Definition condvar_signal (c : nat) : M kernel unit :=
  q ← get_condvar c;
  match q with
  | t :: q => set_condvar c q;; wakeup_task t
  | [] => mret tt
  end.

(** [wait], to the switch; [mutex.lock()] follows when the task is resumed *)
Definition condvar_wait (c m : nat) : M kernel unit :=
  mutex_unlock m;;
  q ← get_condvar c;
  o ← current_task;
  t ← lift (unwrap o);
  set_condvar c (q ++ [t]);;
  block_current_and_run_next (InWait c m).

(** ** Timers *)

(** The key that [TimerCondVar]s are ordered by: [-(expire_ms as isize)]. *)
Definition timer_key (x : TimerCondVar) : Z := i64 (- i64 (expire_ms x)).

(** [BinaryHeap]: [peek] and [pop] take an element of greatest key; which of
    several is not specified. *)
Class Heap := {
  heap_top : list TimerCondVar → option nat;
  heap_top_None l : heap_top l = None → l = [];
  heap_top_Some l i : heap_top l = Some i →
    ∃ x, l !! i = Some x ∧ ∀ y, y ∈ l → timer_key y ≤ timer_key x;
}.

Definition add_timer (expire_ms t : Z) : M kernel unit :=
  puts (λ k, set_timers (timers k ++ [mkTimer expire_ms t]) k).

Definition remove_timer (t : Z) : M kernel unit :=
  puts (λ k, set_timers (filter (λ x, timer_task x ≠ t) (timers k)) k).

Section heap.
Context {H : Heap}.

(** The loop of [check_timer]; a turn pops a timer, so as many turns as there
    are timers are enough. *)
Fixpoint check_timers (fuel : nat) (current_ms : Z) : M kernel unit :=
  match fuel with
  | O => mret tt
  | S fuel =>
      ts ← gets timers;
      match heap_top ts with
      | None => mret tt
      | Some i =>
          timer ← lift (unwrap (ts !! i));
          if expire_ms timer <=? current_ms then
            wakeup_task (timer_task timer);;
            puts (set_timers (delete i ts));;
            check_timers fuel current_ms
          else mret tt
      end
  end.

Definition check_timer (current_ms : Z) : M kernel unit :=
  ts ← gets timers;
  check_timers (length ts) current_ms.

(** [sys_sleep], to the switch *)
Definition sys_sleep (now_ms ms : Z) : M kernel unit :=
  let expire_ms := now_ms +ᵤ ms in
  o ← current_task;
  t ← lift (unwrap o);
  add_timer expire_ms t;;
  block_current_and_run_next InSleep.

(** ** The machine *)

(** What the current task asks for, and what an interrupt does to it. *)
Inductive uop :=
  | OpLock (m : nat)
  | OpUnlock (m : nat)
  | OpUp (s : nat)
  | OpDown (s : nat)
  | OpSignal (c : nat)
  | OpWait (c m : nat)
  | OpSleep (now_ms ms : Z)
  | OpYield
  | OpTick (now_ms : Z).

(** Calls and returns of the operations on an object. *)
Inductive event :=
  | EvLocked (t : Z) (m : nat)    (** [lock] returned to [t] *)
  | EvUnlock (t : Z) (m : nat)
  | EvUp (s : nat)
  | EvDown (s : nat)              (** [down] was called *)
  | EvPassed (t : Z) (s : nat).   (** [down] returned to [t] *)

#[export] Instance event_eq_dec : EqDecision event.
Proof. solve_decision. Defined.

Definition lock_events (t : Z) (m : nat) : M kernel (list event) :=
  b ← mutex_lock m;
  mret (if b : bool then [EvLocked t m] else []).

Definition user_op (t : Z) (op : uop) : M kernel (list event) :=
  match op with
  | OpLock m => lock_events t m
  | OpUnlock m => mutex_unlock m;; mret [EvUnlock t m]
  | OpUp s => sem_up s;; mret [EvUp s]
  | OpDown s =>
      b ← sem_down s;
      mret (EvDown s :: if b : bool then [EvPassed t s] else [])
  | OpSignal c => condvar_signal c;; mret []
  | OpWait c m => condvar_wait c m;; mret [EvUnlock t m]
  | OpSleep now_ms ms => sys_sleep now_ms ms;; mret []
  | OpYield => suspend_current_and_run_next AtUser;; mret []
  | OpTick now_ms => check_timer now_ms;; suspend_current_and_run_next AtUser;; mret []
  end.

(** A turn of the idle loop, with the rest of the function that the task it
    picks was saved in. *)
Definition idle_turn : M kernel (list event) :=
  o ← run_next;
  match o with
  | None => mret []
  | Some (t, c) =>
      match c with
      | InLock m => mret [EvLocked t m]
      | InSpinLock m | InWait _ m => lock_events t m
      | InDown s => mret [EvPassed t s]
      | AtUser | InSleep => mret []
      end
  end.

(** The start: tasks that are ready for their first run, and free objects. *)
Record booted (k : kernel) : Prop := {
  boot_current : current k = None;
  boot_ready : NoDup (ready_queue k);
  boot_status : ∀ t, t ∈ ready_queue k → task_status k !! t = Some Ready;
  boot_saved : ∀ t, saved k !! t = None;
  boot_timers : timers k = [];
  boot_mutexes : Forall (λ x, x = MutexSpin_new ∨ x = MutexBlocking_new) (mutexes k);
  boot_semaphores : Forall (λ x, 0 ≤ count x < 2 ^ 63 ∧ sem_queue x = []) (semaphores k);
  boot_condvars : Forall (λ q, q = []) (condvars k);
}.

(** The states the machine reaches from [k0] and the events on the way, when
    the tasks keep to the discipline [D]. *)
Inductive reaches (D : list event → Z → uop → Prop) (k0 : kernel) : kernel → list event → Prop :=
  | reaches_boot : booted k0 → reaches D k0 k0 []
  | reaches_user k log t op evs k' :
      reaches D k0 k log → current k = Some t → D log t op → user_op t op k = Ok (evs, k') →
      reaches D k0 k' (log ++ evs)
  | reaches_idle k log evs k' :
      reaches D k0 k log → current k = None → idle_turn k = Ok (evs, k') →
      reaches D k0 k' (log ++ evs).
End heap.
