(* ===== verification/SyncSpec.v ===== *)
(** * What the scheduler and the synchronisation objects guarantee

    Over all histories of the machine of [Sync]: no task is lost or kept twice
    and its status tells where it is; mutexes are held by one task at a time;
    semaphores let through as many tasks as they have been given units; timers
    wake the tasks that are due.  The operations are first shown to be the
    abstract moves of [Threads] with an update of one object. *)

From S2P Require Import Prelude Threads Sync.

(** ** The operations as moves *)

Lemma bind_insert {A B} (f : A → list B) l i x :
  l !! i = Some x →
  ∃ rest, l ≫= f ≡ₚ f x ++ rest ∧ ∀ y, <[i := y]> l ≫= f ≡ₚ f y ++ rest.
Proof.
  intros Hx. exists ((take i l ≫= f) ++ (drop (S i) l ≫= f)). split.
  - rewrite <- (take_drop_middle l i x) at 1 by done. rewrite bind_app, bind_cons. solve_Permutation.
  - intros y. rewrite insert_take_drop by (by eapply lookup_lt_Some).
    rewrite bind_app, bind_cons. solve_Permutation.
Qed.

Lemma perm_replace {A} (us ws x y rest pre post : list A) :
  us ++ y ≡ₚ ws ++ x → us ++ pre ++ (y ++ rest) ++ post ≡ₚ ws ++ pre ++ (x ++ rest) ++ post.
Proof.
  intros E. transitivity ((us ++ y) ++ pre ++ rest ++ post); [solve_Permutation|].
  rewrite E. solve_Permutation.
Qed.

Section objects.
Context (k : kernel) (us ws : list Z).

(** Replacing an object changes the blocked tasks by its waiters: [us] leave
    and [ws] come. *)
Lemma blocked_set_mutexes m x y :
  mutexes k !! m = Some x → us ++ mutex_waiters y ≡ₚ ws ++ mutex_waiters x →
  us ++ blocked (set_mutexes (<[m := y]> (mutexes k)) k) ≡ₚ ws ++ blocked k.
Proof.
  intros Hx Hy. destruct (bind_insert mutex_waiters _ _ _ Hx) as (rest & E & Ey).
  unfold blocked. cbn [mutexes semaphores condvars timers set_mutexes]. rewrite Ey, E.
  by apply (perm_replace _ _ _ _ _ []).
Qed.

Lemma blocked_set_semaphores s x y :
  semaphores k !! s = Some x → us ++ sem_queue y ≡ₚ ws ++ sem_queue x →
  us ++ blocked (set_semaphores (<[s := y]> (semaphores k)) k) ≡ₚ ws ++ blocked k.
Proof.
  intros Hx Hy. destruct (bind_insert sem_queue _ _ _ Hx) as (rest & E & Ey).
  unfold blocked. cbn [mutexes semaphores condvars timers set_semaphores]. rewrite Ey, E.
  by apply perm_replace.
Qed.

Lemma blocked_set_condvars c x y :
  condvars k !! c = Some x → us ++ y ≡ₚ ws ++ x →
  us ++ blocked (set_condvars (<[c := y]> (condvars k)) k) ≡ₚ ws ++ blocked k.
Proof.
  intros Hx Hy. destruct (bind_insert id _ _ _ Hx) as (rest & E & Ey).
  unfold blocked. cbn [mutexes semaphores condvars timers set_condvars]. rewrite Ey, E. unfold id.
  rewrite !(app_assoc (mutexes k ≫= _)). by apply perm_replace.
Qed.

Lemma blocked_set_timers ts :
  us ++ (timer_task <$> ts) ≡ₚ ws ++ (timer_task <$> timers k) →
  us ++ blocked (set_timers ts k) ≡ₚ ws ++ blocked k.
Proof.
  intros Hy. unfold blocked. cbn [mutexes semaphores condvars timers set_timers].
  rewrite !(app_assoc (semaphores k ≫= _)), !(app_assoc (mutexes k ≫= _)).
  rewrite <- (app_nil_r (timer_task <$> ts)), <- (app_nil_r (timer_task <$> timers k)).
  rewrite <- (app_nil_r ((timer_task <$> ts) ++ [])).
  rewrite <- (app_nil_r ((timer_task <$> timers k) ++ [])). by apply perm_replace.
Qed.
End objects.

(** The synchronisation objects and the timers. *)
Definition objects (k : kernel) := (mutexes k, semaphores k, condvars k, timers k).

Definition is_locked (x : MutexObj) : bool :=
  match x with MutexSpin b | MutexBlocking b _ => b end.
Definition with_locked (b : bool) (x : MutexObj) : MutexObj :=
  match x with MutexSpin _ => MutexSpin b | MutexBlocking _ q => MutexBlocking b q end.

Lemma mutex_lock_run m x k t :
  mutexes k !! m = Some x → current k = Some t →
  ∃ b k', mutex_lock m k = Ok (b, k') ∧
    match is_locked x, x with
    | false, _ => b = true ∧ moves Stay k k' ∧
        objects k' = (<[m := with_locked true x]> (mutexes k), semaphores k, condvars k, timers k)
    | true, MutexSpin _ => b = false ∧ moves (Suspend t (InSpinLock m)) k k' ∧ objects k' = objects k
    | true, MutexBlocking _ q => b = false ∧ moves (Wait t (InLock m)) k k' ∧
        objects k' =
          (<[m := MutexBlocking true (q ++ [t])]> (mutexes k), semaphores k, condvars k, timers k)
    end.
Proof.
  intros Hx Hc. unfold mutex_lock, MutexSpin_lock, MutexBlocking_lock, get_mutex. mstep. rewrite Hx. cbn [unwrap].
  destruct x as [[]|[] q]; cbn [is_locked with_locked].
  - unfold suspend_current_and_run_next, take_current_task, add_task, schedule. mstep. rewrite Hc.
    cbn [unwrap]. do 2 eexists. by split.
  - unfold set_mutex. mstep. do 2 eexists. split; [reflexivity|]. split; [done|].
    split; [|done]. split; [done|]. split; [done|]. split; [|done].
    by apply (blocked_set_mutexes k [] [] m (MutexSpin false)).
  - unfold current_task, set_mutex, block_current_and_run_next, take_current_task, schedule. mstep.
    rewrite Hc. cbn [unwrap]. cbn [current set_mutexes]. rewrite Hc. cbn [unwrap].
    do 2 eexists. split; [reflexivity|]. split; [done|]. split; [|done].
    split; [done|]. split; [done|]. split; [done|]. split; [|done].
    apply (blocked_set_mutexes k [] [t] m (MutexBlocking true q)); [done|].
    cbn [mutex_waiters]. solve_Permutation.
  - unfold set_mutex. mstep. do 2 eexists. split; [reflexivity|]. split; [done|].
    split; [|done]. split; [done|]. split; [done|]. split; [|done].
    by apply (blocked_set_mutexes k [] [] m (MutexBlocking false q)).
Qed.

Lemma mutex_unlock_run m x k :
  mutexes k !! m = Some x →
  match x with
  | MutexBlocking false _ => mutex_unlock m k = Fail Panic
  | MutexBlocking true (w :: q) => ∃ k', mutex_unlock m k = Ok (tt, k') ∧ moves (Wake w) k k' ∧
      objects k' = (<[m := MutexBlocking true q]> (mutexes k), semaphores k, condvars k, timers k)
  | _ => ∃ k', mutex_unlock m k = Ok (tt, k') ∧ moves Stay k k' ∧
      objects k' = (<[m := with_locked false x]> (mutexes k), semaphores k, condvars k, timers k)
  end.
Proof.
  intros Hx. unfold mutex_unlock, MutexSpin_unlock, MutexBlocking_unlock, get_mutex. mstep. rewrite Hx. cbn [unwrap].
  destruct x as [b|[] [|w q]]; cbn [assert_ with_locked]; unfold set_mutex, wakeup_task, add_task; mstep.
  - eexists. split; [reflexivity|]. split; [|done]. split; [done|]. split; [done|]. split; [|done].
    by apply (blocked_set_mutexes k [] [] m (MutexSpin b)).
  - eexists. split; [reflexivity|]. split; [|done]. split; [done|]. split; [done|]. split; [|done].
    by apply (blocked_set_mutexes k [] [] m (MutexBlocking true [])).
  - eexists. split; [reflexivity|]. split; [|done]. split; [done|]. split; [done|]. split; [|done].
    symmetry. by apply (blocked_set_mutexes k [w] [] m (MutexBlocking true (w :: q))).
  - done.
  - done.
Qed.

Lemma sem_up_run s x k :
  semaphores k !! s = Some x →
  let n := i64 (count x + 1) in
  ∃ k', sem_up s k = Ok (tt, k') ∧
    match (n <=? 0), sem_queue x with
    | true, w :: q => moves (Wake w) k k' ∧
        objects k' = (mutexes k, <[s := mkSem n q]> (semaphores k), condvars k, timers k)
    | _, _ => moves Stay k k' ∧
        objects k' = (mutexes k, <[s := mkSem n (sem_queue x)]> (semaphores k), condvars k, timers k)
    end.
Proof.
  intros Hx n. unfold sem_up, get_sem. mstep. rewrite Hx. cbn [unwrap]. fold n.
  destruct (n <=? 0), (sem_queue x) as [|w q] eqn:Eq; unfold set_sem, wakeup_task, add_task; mstep;
    (eexists; split; [reflexivity|]); (split; [|done]); (split; [done|]);
    (split; [done|]); (split; [|done]).
  - apply (blocked_set_semaphores k [] [] s x); [done|]. by rewrite Eq.
  - symmetry. apply (blocked_set_semaphores k [w] [] s x); [done|]. by rewrite Eq.
  - apply (blocked_set_semaphores k [] [] s x); [done|]. by rewrite Eq.
  - apply (blocked_set_semaphores k [] [] s x); [done|]. by rewrite Eq.
Qed.

Lemma sem_down_run s x k t :
  semaphores k !! s = Some x → current k = Some t →
  let n := i64 (count x - 1) in
  ∃ k', sem_down s k = Ok (negb (n <? 0), k') ∧
    if n <? 0 then
      moves (Wait t (InDown s)) k k' ∧
      objects k' =
        (mutexes k, <[s := mkSem n (sem_queue x ++ [t])]> (semaphores k), condvars k, timers k)
    else moves Stay k k' ∧
      objects k' = (mutexes k, <[s := mkSem n (sem_queue x)]> (semaphores k), condvars k, timers k).
Proof.
  intros Hx Hc n. unfold sem_down, get_sem. mstep. rewrite Hx. cbn [unwrap]. fold n.
  destruct (n <? 0); cbn [negb]; unfold set_sem; mstep.
  - unfold current_task, block_current_and_run_next, take_current_task, schedule. mstep.
    rewrite Hc. cbn [unwrap]. cbn [current set_semaphores]. rewrite Hc. cbn [unwrap].
    eexists. split; [reflexivity|]. split; [|done].
    split; [done|]. split; [done|]. split; [done|]. split; [|done].
    apply (blocked_set_semaphores k [] [t] s x); [done|]. cbn [sem_queue]. solve_Permutation.
  - eexists. split; [reflexivity|]. split; [|done]. split; [done|]. split; [done|].
    split; [|done]. by apply (blocked_set_semaphores k [] [] s x).
Qed.

Lemma condvar_signal_run c (q : list Z) k :
  condvars k !! c = Some q →
  ∃ k', condvar_signal c k = Ok (tt, k') ∧
    match q with
    | [] => k' = k
    | w :: q => moves (Wake w) k k' ∧
        objects k' = (mutexes k, semaphores k, <[c := q]> (condvars k), timers k)
    end.
Proof.
  intros Hq. unfold condvar_signal, get_condvar. mstep. rewrite Hq. cbn [unwrap].
  destruct q as [|w q]; [by exists k|]. unfold set_condvar, wakeup_task, add_task. mstep.
  eexists. split; [reflexivity|]. split; [|done]. split; [done|]. split; [done|]. split; [|done].
  symmetry. by apply (blocked_set_condvars k [w] [] c (w :: q)).
Qed.

(** The second half of [Condvar::wait], after the mutex was released. *)
Lemma condvar_enqueue_run c (q : list Z) k t cont :
  condvars k !! c = Some q → current k = Some t →
  ∃ k', (set_condvar c (q ++ [t]);; block_current_and_run_next cont) k = Ok (tt, k') ∧
    moves (Wait t cont) k k' ∧
    objects k' = (mutexes k, semaphores k, <[c := q ++ [t]]> (condvars k), timers k).
Proof.
  intros Hq Hc. unfold set_condvar, block_current_and_run_next, take_current_task, schedule. mstep.
  cbn [current set_condvars]. rewrite Hc. cbn [unwrap]. eexists. split; [reflexivity|].
  split; [|done]. split; [done|]. split; [done|]. split; [done|]. split; [|done].
  apply (blocked_set_condvars k [] [t] c q); [done|]. solve_Permutation.
Qed.

Lemma sys_sleep_run now ms k t :
  current k = Some t →
  ∃ k', sys_sleep now ms k = Ok (tt, k') ∧ moves (Wait t InSleep) k k' ∧
    objects k' = (mutexes k, semaphores k, condvars k, timers k ++ [mkTimer (now +ᵤ ms) t]).
Proof.
  intros Hc. unfold sys_sleep, current_task, add_timer, block_current_and_run_next, take_current_task.
  unfold schedule. mstep. rewrite Hc. cbn [unwrap current set_timers]. rewrite Hc. cbn [unwrap].
  eexists. split; [reflexivity|]. split; [|done]. split; [done|]. split; [done|].
  split; [done|]. split; [|done]. apply (blocked_set_timers k [] [t]). rewrite fmap_app. simpl.
  solve_Permutation.
Qed.

Lemma suspend_run c k t :
  current k = Some t →
  ∃ k', suspend_current_and_run_next c k = Ok (tt, k') ∧ moves (Suspend t c) k k' ∧
    objects k' = objects k.
Proof.
  intros Hc. unfold suspend_current_and_run_next, take_current_task, add_task, schedule. mstep.
  rewrite Hc. cbn [unwrap]. eexists. by split_and!.
Qed.

Lemma run_next_run k :
  current k = None →
  match ready_queue k with
  | [] => run_next k = Ok (None, k)
  | t :: q => ∃ k', run_next k = Ok (Some (t, default AtUser (saved k !! t)), k') ∧
      moves (Run t) k k' ∧ objects k' = objects k
  end.
Proof.
  intros Hc. unfold run_next, fetch_task. mstep. destruct (ready_queue k) as [|t q] eqn:Eq; [done|].
  eexists. split; [reflexivity|]. split; [|done]. by split_and!.
Qed.

(** ** Timers *)

Section timers.
Context {H : Heap}.

(** A sequence of timers popped, and their tasks woken. *)
Inductive wakes : list TimerCondVar → kernel → kernel → Prop :=
  | wakes_nil k : wakes [] k k
  | wakes_cons x xs i k k' k'' :
      timers k !! i = Some x → moves (Wake (timer_task x)) k k' →
      objects k' = (mutexes k, semaphores k, condvars k, delete i (timers k)) → wakes xs k' k'' →
      wakes (x :: xs) k k''.

Lemma wake_timer_run i x k :
  timers k !! i = Some x →
  ∃ k', (wakeup_task (timer_task x);; puts (set_timers (delete i (timers k)))) k = Ok (tt, k') ∧
    moves (Wake (timer_task x)) k k' ∧
    objects k' = (mutexes k, semaphores k, condvars k, delete i (timers k)).
Proof.
  intros Hx. unfold wakeup_task, add_task. mstep. eexists. split; [reflexivity|].
  split; [|done]. split; [done|]. split; [done|]. split; [|done]. symmetry.
  apply (blocked_set_timers k [timer_task x] []).
  assert (Hp := delete_Permutation (timers k) i x Hx).
  apply (fmap_Permutation timer_task) in Hp. by rewrite Hp.
Qed.

(** [check_timer] wakes the tasks of the timers it pops, each of which is due. *)
Lemma check_timers_run n now k :
  (length (timers k) ≤ n)%nat →
  ∃ k' popped, check_timers n now k = Ok (tt, k') ∧ wakes popped k k' ∧
    timers k ≡ₚ popped ++ timers k' ∧ Forall (λ x, expire_ms x ≤ now) popped ∧
    (timers k' = [] ∨ ∃ x, x ∈ timers k' ∧ now < expire_ms x ∧
      ∀ y, y ∈ timers k' → timer_key y ≤ timer_key x).
Proof.
  revert k. induction n as [|n IH]; intros k Hn.
  { exists k, []. destruct (timers k); [|simpl in Hn; lia].
    split; [done|]. split; [constructor|]. by split_and!; [|constructor|left]. }
  cbn [check_timers]. mstep. destruct (heap_top (timers k)) as [i|] eqn:Et.
  2:{ exists k, []. split; [done|]. split; [constructor|]. split; [done|]. split; [constructor|].
      left. by apply heap_top_None. }
  destruct (heap_top_Some _ _ Et) as (x & Hx & Hmax). rewrite Hx. cbn [unwrap].
  destruct (Z.leb_spec (expire_ms x) now) as [Hle|Hgt].
  2:{ exists k, []. split; [done|]. split; [constructor|]. split; [done|]. split; [constructor|].
      right. exists x. split; [by eapply list_elem_of_lookup_2|done]. }
  destruct (wake_timer_run i x k Hx) as (k1 & E1 & Hm & Ho).
  assert (Ht : timers k1 = delete i (timers k)) by (by injection Ho).
  assert (Hp := delete_Permutation (timers k) i x Hx).
  destruct (IH k1) as (k' & popped & E & Hw & Hpp & Hall & Hrest).
  { rewrite Ht. apply Permutation_length in Hp. simpl in Hp. lia. }
  exists k', (x :: popped). mstep. destruct (wakeup_task (timer_task x) k) as [[[] k0]|]; [|done].
  injection E1 as ->. split; [exact E|]. split; [by econstructor|]. split; [|split; [by constructor|done]].
  rewrite Hp, <- Ht, Hpp. done.
Qed.
End timers.

(** ** Queues and saved places *)

(** The queues a task can wait in. *)
Inductive qref := QMutex (m : nat) | QSem (s : nat) | QCond (c : nat) | QTimer.

#[export] Instance qref_eq_dec : EqDecision qref.
Proof. solve_decision. Defined.

Definition queue_of (k : kernel) (r : qref) : list Z :=
  match r with
  | QMutex m => default [] (mutex_waiters <$> mutexes k !! m)
  | QSem s => default [] (sem_queue <$> semaphores k !! s)
  | QCond c => default [] (condvars k !! c)
  | QTimer => timer_task <$> timers k
  end.

(** The places in the source that a task of a queue was saved at. *)
Definition fits (r : qref) (c : kcont) : Prop :=
  match r, c with
  | QMutex m, InLock m' => m' = m
  | QSem s, InDown s' => s' = s
  | QCond c, InWait c' _ => c' = c
  | QTimer, InSleep => True
  | _, _ => False
  end.

Definition queues_fit (k : kernel) : Prop :=
  ∀ r t, t ∈ queue_of k r → ∃ c, saved k !! t = Some c ∧ fits r c.

Lemma elem_of_queue_bind {A} (f : A → list Z) (l : list A) i t :
  t ∈ default [] (f <$> l !! i) → t ∈ l ≫= f.
Proof.
  destruct (l !! i) as [x|] eqn:E; [|by intros ?%not_elem_of_nil]. simpl. intros Hin.
  apply list_elem_of_bind. exists x. split; [done|]. by eapply list_elem_of_lookup_2.
Qed.

Lemma queue_blocked k r t : t ∈ queue_of k r → t ∈ blocked k.
Proof.
  unfold blocked. rewrite !elem_of_app. destruct r; cbn [queue_of].
  - intros ?%elem_of_queue_bind. auto.
  - intros ?%elem_of_queue_bind. auto.
  - intros Hin. right. right. left. apply (elem_of_queue_bind id _ c).
    revert Hin. by destruct (condvars k !! c).
  - auto.
Qed.

Section updates.
Context (k k' : kernel).

Lemma queue_of_same r : objects k' = objects k → queue_of k' r = queue_of k r.
Proof. unfold objects. intros [= Em Es Ec Et]. destruct r; cbn; by rewrite ?Em, ?Es, ?Ec, ?Et. Qed.

Lemma queue_of_mutex m x y r :
  mutexes k !! m = Some x → objects k' = (<[m := y]> (mutexes k), semaphores k, condvars k, timers k) →
  queue_of k' r = if decide (r = QMutex m) then mutex_waiters y else queue_of k r.
Proof.
  unfold objects. intros Hx [= Em Es Ec Et]. destruct r as [m'|s|c|]; cbn; rewrite ?Em, ?Es, ?Ec, ?Et;
    try (by rewrite decide_False).
  destruct (decide (m' = m)) as [->|]; case_decide; simplify_eq; try done.
  - by rewrite list_lookup_insert_eq by (by eapply lookup_lt_Some).
  - by rewrite list_lookup_insert_ne.
Qed.

Lemma queue_of_sem s x y r :
  semaphores k !! s = Some x →
  objects k' = (mutexes k, <[s := y]> (semaphores k), condvars k, timers k) →
  queue_of k' r = if decide (r = QSem s) then sem_queue y else queue_of k r.
Proof.
  unfold objects. intros Hx [= Em Es Ec Et]. destruct r as [m|s'|c|]; cbn; rewrite ?Em, ?Es, ?Ec, ?Et;
    try (by rewrite decide_False).
  destruct (decide (s' = s)) as [->|]; case_decide; simplify_eq; try done.
  - by rewrite list_lookup_insert_eq by (by eapply lookup_lt_Some).
  - by rewrite list_lookup_insert_ne.
Qed.

Lemma queue_of_cond c (x y : list Z) r :
  condvars k !! c = Some x →
  objects k' = (mutexes k, semaphores k, <[c := y]> (condvars k), timers k) →
  queue_of k' r = if decide (r = QCond c) then y else queue_of k r.
Proof.
  unfold objects. intros Hx [= Em Es Ec Et]. destruct r as [m|s|c'|]; cbn; rewrite ?Em, ?Es, ?Ec, ?Et;
    try (by rewrite decide_False).
  destruct (decide (c' = c)) as [->|]; case_decide; simplify_eq; try done.
  - by rewrite list_lookup_insert_eq by (by eapply lookup_lt_Some).
  - by rewrite list_lookup_insert_ne.
Qed.

Lemma queue_of_timers ts r :
  objects k' = (mutexes k, semaphores k, condvars k, ts) →
  queue_of k' r = if decide (r = QTimer) then timer_task <$> ts else queue_of k r.
Proof.
  unfold objects. intros [= Em Es Ec Et]. destruct r; cbn; by rewrite ?Em, ?Es, ?Ec, ?Et.
Qed.

(** Moves keep the queues fitting when only the task that starts to wait is
    new in a queue. *)
Lemma moves_fit l :
  moves l k k' → sched_wf k → queues_fit k →
  (∀ r t, t ∈ queue_of k' r → t ∈ queue_of k r ∨ ∃ c, l = Wait t c ∧ fits r c) →
  queues_fit k'.
Proof.
  intros Hm Hwf Hf Hq r t Hin. destruct (Hq r t Hin) as [Hold|(c & -> & Hc)].
  - destruct (Hf r t Hold) as (c & Hs & Hc). exists c. split; [|done].
    assert (Hne : current k ≠ Some t).
    { intros Hcur. apply queue_blocked in Hold.
      assert (Running = Blocked) by (by eapply (at_place_unique k _ _ t), Hold; [apply Hwf|]). done. }
    destruct l; cbn [moves] in Hm.
    + by destruct Hm as (_ & _ & _ & _ & ->).
    + destruct Hm as (? & _ & _ & _ & _ & ->). rewrite lookup_insert_ne by congruence. done.
    + destruct Hm as (? & _ & _ & _ & _ & ->). rewrite lookup_insert_ne by congruence. done.
    + by destruct Hm as (_ & _ & _ & _ & _ & ->).
    + by destruct Hm as (_ & _ & _ & _ & ->).
  - destruct Hm as (_ & _ & _ & _ & _ & ->). exists c. by rewrite lookup_insert_eq.
Qed.
End updates.

(** ** Woken tasks on their way *)

(** The tasks in the ready queue that continue at [c]. *)
Definition pending (c : kcont) (k : kernel) : list Z :=
  filter (λ t, saved k !! t = Some c) (ready_queue k).

Lemma pending_wake t c c' k k' :
  moves (Wake t) k k' → saved k !! t = Some c' →
  pending c k' = pending c k ++ (if decide (c' = c) then [t] else []).
Proof.
  unfold pending. intros (_ & -> & _ & _ & ->) Hs. rewrite filter_app. f_equal.
  rewrite filter_cons, filter_nil. rewrite Hs. repeat case_decide; congruence.
Qed.

Lemma current_not_ready k t : sched_wf k → current k = Some t → t ∉ ready_queue k.
Proof.
  intros Hwf Hc Hr. assert (Running = Ready) by (by eapply (at_place_unique k _ _ t), Hr; [apply Hwf|]).
  done.
Qed.

(** Only moves of [t] itself can change whether [t] is pending. *)
Lemma pending_saved c k t c' :
  t ∉ ready_queue k →
  filter (λ u, <[t := c']> (saved k) !! u = Some c) (ready_queue k) = pending c k.
Proof.
  intros Ht. apply filter_ext_in. intros u Hu. rewrite lookup_insert_ne; [done|congruence].
Qed.

Lemma pending_wait t c c' k k' :
  moves (Wait t c') k k' → sched_wf k → pending c k' = pending c k.
Proof.
  intros (Hc & _ & Hr & _ & _ & Hs) Hwf. unfold pending at 1. rewrite Hr, Hs.
  apply pending_saved. by apply current_not_ready.
Qed.

Lemma pending_suspend t c c' k k' :
  moves (Suspend t c') k k' → sched_wf k →
  pending c k' = pending c k ++ (if decide (c' = c) then [t] else []).
Proof.
  intros (Hc & _ & Hr & _ & _ & Hs) Hwf. unfold pending at 1. rewrite Hr, Hs, filter_app. f_equal.
  - apply pending_saved. by apply current_not_ready.
  - rewrite filter_cons, filter_nil, lookup_insert_eq. repeat case_decide; congruence.
Qed.

Lemma pending_run t c k k' :
  moves (Run t) k k' →
  pending c k = (if decide (saved k !! t = Some c) then [t] else []) ++ pending c k'.
Proof.
  unfold pending. intros (_ & _ & -> & _ & _ & ->). rewrite filter_cons. by case_decide.
Qed.

Lemma pending_stay c k k' : moves Stay k k' → pending c k' = pending c k.
Proof. unfold pending. by intros (_ & -> & _ & _ & ->). Qed.

(** ** Histories *)

(** Removes one occurrence. *)
Fixpoint drop_one (p : Z * nat) (l : list (Z * nat)) : list (Z * nat) :=
  match l with
  | [] => []
  | q :: l => if decide (q = p) then l else q :: drop_one p l
  end.

Definition crit_step (cs : list (Z * nat)) (e : event) : list (Z * nat) :=
  match e with
  | EvLocked t m => (t, m) :: cs
  | EvUnlock t m => drop_one (t, m) cs
  | _ => cs
  end.

(** The tasks between a return of [lock] and their [unlock], with the mutex. *)
Definition critical (log : list event) : list (Z * nat) := foldl crit_step [] log.

(** The tasks in a critical section of [m]. *)
Definition holders (m : nat) (log : list event) : list (Z * nat) :=
  filter (λ p, p.2 = m) (critical log).

Definition ups (s : nat) (log : list event) : nat :=
  length (filter (λ e, e = EvUp s) log).
Definition downs (s : nat) (log : list event) : nat :=
  length (filter (λ e, e = EvDown s) log).
Definition is_pass (s : nat) (e : event) : bool :=
  match e with EvPassed _ s' => (s' =? s)%nat | _ => false end.
Definition passes (s : nat) (log : list event) : nat :=
  length (filter (λ e, is_pass s e = true) log).

(** ** Atomic changes

    The operations of the machine are sequences of these. *)

Definition run_events (t : Z) (c : kcont) : list event :=
  match c with
  | InLock m => [EvLocked t m]
  | InDown s => [EvPassed t s]
  | _ => []
  end.

Inductive change (k : kernel) : list event → kernel → Prop :=
  | ch_acquire t m x k' :
      mutexes k !! m = Some x → is_locked x = false → moves Stay k k' →
      objects k' = (<[m := with_locked true x]> (mutexes k), semaphores k, condvars k, timers k) →
      change k [EvLocked t m] k'
  | ch_lock_wait t m q k' :
      mutexes k !! m = Some (MutexBlocking true q) → moves (Wait t (InLock m)) k k' →
      objects k' =
        (<[m := MutexBlocking true (q ++ [t])]> (mutexes k), semaphores k, condvars k, timers k) →
      change k [] k'
  | ch_release t m x k' :
      mutexes k !! m = Some x → mutex_waiters x = [] → moves Stay k k' →
      objects k' = (<[m := with_locked false x]> (mutexes k), semaphores k, condvars k, timers k) →
      change k [EvUnlock t m] k'
  | ch_handoff t m w q k' :
      mutexes k !! m = Some (MutexBlocking true (w :: q)) → moves (Wake w) k k' →
      objects k' = (<[m := MutexBlocking true q]> (mutexes k), semaphores k, condvars k, timers k) →
      change k [EvUnlock t m] k'
  | ch_up s x k' :
      semaphores k !! s = Some x → 0 < i64 (count x + 1) ∨ sem_queue x = [] → moves Stay k k' →
      objects k' = (mutexes k, <[s := mkSem (i64 (count x + 1)) (sem_queue x)]> (semaphores k),
        condvars k, timers k) →
      change k [EvUp s] k'
  | ch_up_wake s x w q k' :
      semaphores k !! s = Some x → i64 (count x + 1) ≤ 0 → sem_queue x = w :: q →
      moves (Wake w) k k' →
      objects k' = (mutexes k, <[s := mkSem (i64 (count x + 1)) q]> (semaphores k),
        condvars k, timers k) →
      change k [EvUp s] k'
  | ch_down t s x k' :
      semaphores k !! s = Some x → 0 ≤ i64 (count x - 1) → moves Stay k k' →
      objects k' = (mutexes k, <[s := mkSem (i64 (count x - 1)) (sem_queue x)]> (semaphores k),
        condvars k, timers k) →
      change k [EvDown s; EvPassed t s] k'
  | ch_down_wait t s x k' :
      semaphores k !! s = Some x → i64 (count x - 1) < 0 → moves (Wait t (InDown s)) k k' →
      objects k' = (mutexes k, <[s := mkSem (i64 (count x - 1)) (sem_queue x ++ [t])]> (semaphores k),
        condvars k, timers k) →
      change k [EvDown s] k'
  | ch_signal c w q k' :
      condvars k !! c = Some (w :: q) → moves (Wake w) k k' →
      objects k' = (mutexes k, semaphores k, <[c := q]> (condvars k), timers k) →
      change k [] k'
  | ch_cond_wait t c m q k' :
      condvars k !! c = Some q → moves (Wait t (InWait c m)) k k' →
      objects k' = (mutexes k, semaphores k, <[c := q ++ [t]]> (condvars k), timers k) →
      change k [] k'
  | ch_sleep t e k' :
      moves (Wait t InSleep) k k' →
      objects k' = (mutexes k, semaphores k, condvars k, timers k ++ [mkTimer e t]) →
      change k [] k'
  | ch_timer i x k' :
      timers k !! i = Some x → moves (Wake (timer_task x)) k k' →
      objects k' = (mutexes k, semaphores k, condvars k, delete i (timers k)) →
      change k [] k'
  | ch_suspend t c k' :
      run_events t c = [] → moves (Suspend t c) k k' → objects k' = objects k →
      change k [] k'
  | ch_run t k' :
      moves (Run t) k k' → objects k' = objects k →
      change k (run_events t (default AtUser (saved k !! t))) k'.

Inductive changes : kernel → list event → kernel → Prop :=
  | changes_nil k : changes k [] k
  | changes_cons k es k1 es' k' : change k es k1 → changes k1 es' k' → changes k (es ++ es') k'.

Lemma changes_one k es k' : change k es k' → changes k es k'.
Proof. intros Hc. rewrite <- (app_nil_r es). by econstructor; [|constructor]. Qed.

Lemma changes_app k es k1 es' k' : changes k es k1 → changes k1 es' k' → changes k (es ++ es') k'.
Proof.
  induction 1 as [|k es1 k2 es2 k3 Hc _ IH]; [done|]. intros H'. rewrite <- app_assoc.
  econstructor; [exact Hc|]. by apply IH.
Qed.

Lemma lock_events_changes t m k es k' :
  current k = Some t → lock_events t m k = Ok (es, k') → changes k es k'.
Proof.
  intros Hc E. unfold lock_events in E. mstep. destruct (mutexes k !! m) as [x|] eqn:Ex.
  2:{ unfold mutex_lock, get_mutex in E. mstep. by rewrite Ex in E. }
  destruct (mutex_lock_run m x k t Ex Hc) as (b & k1 & E1 & Hx). rewrite E1 in E.
  injection E as <- <-. apply changes_one. destruct (is_locked x) eqn:Hl.
  - destruct x as [l|l q]; cbn in Hl; subst l; destruct Hx as (-> & Hm & Ho).
    + by eapply (ch_suspend _ t (InSpinLock m)).
    + by eapply ch_lock_wait.
  - destruct Hx as (-> & Hm & Ho). by eapply ch_acquire.
Qed.

Lemma mutex_unlock_changes t m k k' :
  mutex_unlock m k = Ok (tt, k') → change k [EvUnlock t m] k' ∧ current k' = current k.
Proof.
  intros E. destruct (mutexes k !! m) as [x|] eqn:Ex.
  2:{ unfold mutex_unlock, get_mutex in E. mstep. by rewrite Ex in E. }
  pose proof (mutex_unlock_run m x k Ex) as Hx.
  destruct x as [b|[] [|w q]]; try (rewrite E in Hx; discriminate);
    destruct Hx as (k1 & E1 & Hm & Ho); rewrite E1 in E; injection E as <-;
    (split; [|by destruct Hm]).
  - by eapply ch_release.
  - by eapply ch_release.
  - by eapply ch_handoff.
Qed.

Section machine.
Context {H : Heap}.

Lemma wakes_changes xs k k' : wakes xs k k' → changes k [] k' ∧ current k' = current k.
Proof.
  induction 1 as [k|x xs i k k1 k2 Hx Hm Ho _ [IH Hc]]; [split; [constructor|done]|].
  split; [|by rewrite Hc; destruct Hm].
  apply (changes_cons _ [] _ [] _ (ch_timer _ _ _ _ Hx Hm Ho) IH).
Qed.

Lemma user_op_changes t op k es k' :
  current k = Some t → user_op t op k = Ok (es, k') → changes k es k'.
Proof.
  intros Hc E. destruct op as [m|m|s|s|c|c m|now ms| |now]; cbn [user_op] in E.
  - by eapply lock_events_changes.
  - mstep. destruct (mutex_unlock m k) as [[[] k1]|] eqn:Eu; [|done]. injection E as <- <-.
    by apply changes_one, mutex_unlock_changes.
  - mstep. destruct (semaphores k !! s) as [x|] eqn:Ex.
    2:{ unfold sem_up, get_sem in E. mstep. by rewrite Ex in E. }
    destruct (sem_up_run s x k Ex) as (k1 & E1 & Hx). rewrite E1 in E. injection E as <- <-.
    apply changes_one. destruct (Z.leb_spec (i64 (count x + 1)) 0) as [Hle|Hgt].
    + destruct (sem_queue x) as [|w q] eqn:Eq; destruct Hx as [Hm Ho]; [|by eapply ch_up_wake].
      eapply ch_up; [done|by right|done|by rewrite Eq].
    + assert (Hx' : moves Stay k k1 ∧ objects k1 = (mutexes k, <[s := mkSem (i64 (count x + 1))
        (sem_queue x)]> (semaphores k), condvars k, timers k)) by (by destruct (sem_queue x)).
      destruct Hx' as [Hm Ho]. eapply ch_up; [done|by left|done|done].
  - mstep. destruct (semaphores k !! s) as [x|] eqn:Ex.
    2:{ unfold sem_down, get_sem in E. mstep. by rewrite Ex in E. }
    destruct (sem_down_run s x k t Ex Hc) as (k1 & E1 & Hx). rewrite E1 in E. injection E as <- <-.
    apply changes_one. destruct (Z.ltb_spec (i64 (count x - 1)) 0); destruct Hx as [Hm Ho]; cbn [negb].
    + by eapply ch_down_wait.
    + by eapply ch_down.
  - mstep. destruct (condvars k !! c) as [q|] eqn:Ex.
    2:{ unfold condvar_signal, get_condvar in E. mstep. by rewrite Ex in E. }
    destruct (condvar_signal_run c q k Ex) as (k1 & E1 & Hx). rewrite E1 in E. injection E as <- <-.
    destruct q as [|w q]; [subst k1; constructor|]. destruct Hx as [Hm Ho].
    by eapply changes_one, ch_signal.
  - unfold condvar_wait in E. mstep. destruct (mutex_unlock m k) as [[[] k1]|] eqn:Eu; [|done].
    destruct (mutex_unlock_changes t _ _ _ Eu) as [Hch Hc1].
    unfold get_condvar, current_task in E. mstep. destruct (condvars k1 !! c) as [q|] eqn:Ex; [|done].
    cbn [unwrap] in E. rewrite Hc1, Hc in E. cbn [unwrap] in E.
    destruct (condvar_enqueue_run c q k1 t (InWait c m) Ex) as (k2 & E2 & Hm & Ho); [congruence|].
    mstep. destruct (set_condvar c (q ++ [t]) k1) as [[[] k3]|]; [|done]. rewrite E2 in E.
    injection E as <- <-. apply (changes_cons _ [_] _ [] _ Hch). by eapply changes_one, ch_cond_wait.
  - mstep. destruct (sys_sleep_run now ms k t Hc) as (k1 & E1 & Hm & Ho). rewrite E1 in E.
    injection E as <- <-. by eapply changes_one, ch_sleep.
  - mstep. destruct (suspend_run AtUser k t Hc) as (k1 & E1 & Hm & Ho). rewrite E1 in E.
    injection E as <- <-. by eapply changes_one, (ch_suspend _ t AtUser).
  - unfold check_timer in E. mstep.
    destruct (check_timers_run (length (timers k)) now k) as (k1 & popped & E1 & Hw & _); [done|].
    rewrite E1 in E. destruct (wakes_changes _ _ _ Hw) as [Hch Hc1]. rewrite Hc in Hc1.
    destruct (suspend_run AtUser k1 t Hc1) as (k2 & E2 & Hm & Ho). rewrite E2 in E.
    injection E as <- <-. apply (changes_app _ [] _ [] _ Hch). by eapply changes_one, (ch_suspend _ t AtUser).
Qed.

Lemma idle_turn_changes k es k' :
  current k = None → idle_turn k = Ok (es, k') → changes k es k'.
Proof.
  intros Hc E. unfold idle_turn in E. mstep. pose proof (run_next_run k Hc) as Hr.
  destruct (ready_queue k) as [|t q].
  { rewrite Hr in E. injection E as <- <-. constructor. }
  destruct Hr as (k1 & E1 & Hm & Ho). rewrite E1 in E. pose proof (ch_run k t k1 Hm Ho) as Hch.
  assert (Hc1 : current k1 = Some t) by apply Hm.
  destruct (default AtUser (saved k !! t)) as [|m|m|s|c m|] eqn:Es; cbn [run_events] in Hch;
    try (injection E as <- <-; by apply changes_one).
  - apply (changes_cons _ [] _ _ _ Hch). by eapply lock_events_changes.
  - apply (changes_cons _ [] _ _ _ Hch). by eapply lock_events_changes.
Qed.
End machine.

(** ** The scheduler invariant *)

Lemma change_moves k es k' :
  change k es k' → ∃ l, moves l k k' ∧
    ∀ r t, t ∈ queue_of k' r → t ∈ queue_of k r ∨ ∃ c, l = Wait t c ∧ fits r c.
Proof.
  intros Hch. destruct Hch as [t m x k' Hx Hl Hm Ho|t m q k' Hx Hm Ho|t m x k' Hx Hw Hm Ho
    |t m w q k' Hx Hm Ho|s x k' Hx Hc Hm Ho|s x w q k' Hx Hc Hq Hm Ho|t s x k' Hx Hc Hm Ho
    |t s x k' Hx Hc Hm Ho|c w q k' Hx Hm Ho|t c m q k' Hx Hm Ho|t e k' Hm Ho|i x k' Hx Hm Ho
    |t c k' He Hm Ho|t k' Hm Ho];
    (eexists; split; [exact Hm|]); intros r u;
    first [rewrite (queue_of_mutex _ _ _ _ _ _ Hx Ho) | rewrite (queue_of_sem _ _ _ _ _ _ Hx Ho)
          |rewrite (queue_of_cond _ _ _ _ _ _ Hx Ho) | rewrite (queue_of_same _ _ _ Ho)
          |rewrite (queue_of_timers _ _ _ _ Ho)];
    try (by left); (case_decide as Hr; [|by left]); subst r; cbn [queue_of];
    rewrite ?Hx; cbn [fmap option_fmap option_map default from_option id mutex_waiters sem_queue].
  - destruct x; by left.
  - rewrite elem_of_app, list_elem_of_singleton. intros [?| ->]; [by left|right]. by eexists.
  - destruct x; by left.
  - left. by apply list_elem_of_further.
  - by left.
  - rewrite Hq. left. by apply list_elem_of_further.
  - by left.
  - rewrite elem_of_app, list_elem_of_singleton. intros [?| ->]; [by left|right]. by eexists.
  - left. by apply list_elem_of_further.
  - rewrite elem_of_app, list_elem_of_singleton. intros [?| ->]; [by left|right]. by eexists.
  - rewrite fmap_app, elem_of_app. cbn [fmap list_fmap timer_task].
    rewrite list_elem_of_singleton. intros [?| ->]; [by left|right]. by eexists.
  - intros (y & -> & Hy)%list_elem_of_fmap. left. apply list_elem_of_fmap. exists y.
    split; [done|]. rewrite (delete_Permutation _ _ _ Hx). by apply list_elem_of_further.
Qed.

(** Tasks are where they say they are, and none is lost. *)
Record base_inv (k0 k : kernel) : Prop := {
  base_wf : sched_wf k;
  base_fit : queues_fit k;
  base_places : places k ≡ₚ places k0;
}.

Lemma change_base k0 k es k' : change k es k' → base_inv k0 k → base_inv k0 k'.
Proof.
  intros Hch [Hwf Hf Hp]. destruct (change_moves _ _ _ Hch) as (l & Hm & Hq). split.
  - by eapply moves_wf.
  - by eapply moves_fit.
  - by rewrite (moves_places _ _ _ Hm).
Qed.

Lemma changes_base k0 k es k' : changes k es k' → base_inv k0 k → base_inv k0 k'.
Proof. induction 1; eauto using change_base. Qed.

Lemma bind_nil {A B} (f : A → list B) l : Forall (λ x, f x = []) l → l ≫= f = [].
Proof. induction 1 as [|x l Hx _ IH]; [done|]. by rewrite bind_cons, Hx, IH. Qed.

Lemma booted_blocked k : booted k → blocked k = [].
Proof.
  intros [_ _ _ _ Ht Hm Hs Hc]. unfold blocked.
  rewrite (bind_nil mutex_waiters), (bind_nil sem_queue), (bind_nil id), Ht; try done.
  - eapply Forall_impl; [exact Hs|]. by intros x [_ ?].
  - eapply Forall_impl; [exact Hm|]. by intros x [-> | ->].
Qed.

Lemma booted_base k : booted k → base_inv k k.
Proof.
  intros Hb. pose proof (booted_blocked k Hb) as Hbl. split; [|intros r t Hr|done].
  - split.
    + unfold places. rewrite Hbl, (boot_current k Hb), app_nil_r. apply Hb.
    + intros [] t; cbn.
      * apply Hb.
      * by rewrite (boot_current k Hb).
      * rewrite Hbl. by intros ?%not_elem_of_nil.
  - apply queue_blocked in Hr. rewrite Hbl in Hr. by apply not_elem_of_nil in Hr.
Qed.

Section reachable.
Context {H : Heap} (D : list event → Z → uop → Prop) (k0 : kernel).

Lemma reaches_base k log : reaches D k0 k log → base_inv k0 k.
Proof.
  induction 1 as [Hb|k log t op es k' _ IH Hc _ E|k log es k' _ IH Hc E].
  - by apply booted_base.
  - by eapply changes_base; [eapply user_op_changes|].
  - by eapply changes_base; [eapply idle_turn_changes|].
Qed.
End reachable.

(** ** Mutexes *)

Lemma drop_one_perm p l : p ∈ l → l ≡ₚ p :: drop_one p l.
Proof.
  induction l as [|q l IH]; [by intros ?%not_elem_of_nil|]. rewrite elem_of_cons. cbn [drop_one].
  intros Hp. case_decide; [by subst|]. destruct Hp as [->|Hp]; [done|]. rewrite (IH Hp) at 1.
  apply Permutation_swap.
Qed.

Lemma critical_app log es : critical (log ++ es) = foldl crit_step (critical log) es.
Proof. unfold critical. by rewrite foldl_app. Qed.

(** The entries of a log that are no lock operations do not matter. *)
Definition holds_count (m : nat) (log : list event) : nat := length (holders m log).

Lemma holds_count_locked m t m' log :
  holds_count m (log ++ [EvLocked t m']) = (Nat.b2n (bool_decide (m' = m)) + holds_count m log)%nat.
Proof.
  unfold holds_count, holders. rewrite critical_app. cbn [foldl crit_step]. rewrite filter_cons.
  cbn [snd]. case_decide; [rewrite bool_decide_true by done|rewrite bool_decide_false by done]; done.
Qed.

Lemma holds_count_unlock m t m' log :
  (t, m') ∈ critical log →
  (Nat.b2n (bool_decide (m' = m)) + holds_count m (log ++ [EvUnlock t m']))%nat = holds_count m log.
Proof.
  intros Hin. unfold holds_count, holders. rewrite critical_app. cbn [foldl crit_step].
  rewrite (drop_one_perm _ _ Hin) at 2. rewrite filter_cons.
  cbn [snd]. case_decide; [rewrite bool_decide_true by done|rewrite bool_decide_false by done]; done.
Qed.

Definition lock_event (e : event) : bool :=
  match e with EvLocked _ _ | EvUnlock _ _ => true | _ => false end.

Lemma holds_count_other m log es :
  Forall (λ e, lock_event e = false) es → holds_count m (log ++ es) = holds_count m log.
Proof.
  intros Hes. unfold holds_count, holders. rewrite critical_app. do 2 f_equal.
  generalize (critical log). induction Hes as [|e es He _ IH]; intros cs; [done|]. cbn [foldl].
  rewrite IH. by destruct e.
Qed.

(** A locked mutex belongs to one task: the one in its critical section, or the
    one that [unlock] has passed it to and that has not run yet. *)
Definition mutex_inv (k : kernel) (log : list event) : Prop :=
  ∀ m x, mutexes k !! m = Some x →
    (holds_count m log + length (pending (InLock m) k))%nat = Nat.b2n (is_locked x) ∧
    (is_locked x = false → mutex_waiters x = []).

(** Unlocks in [es] are by tasks in the critical section. *)
Definition disciplined (log es : list event) : Prop :=
  ∀ pre t m post, es = pre ++ EvUnlock t m :: post → (t, m) ∈ critical (log ++ pre).

(** Moves of tasks that do not continue at [c] leave [pending c] alone. *)
Lemma pending_neutral l c k k' :
  moves l k k' → sched_wf k →
  match l with
  | Wake t => ∃ c', saved k !! t = Some c' ∧ c' ≠ c
  | Suspend _ c' => c' ≠ c
  | Run t => saved k !! t ≠ Some c
  | _ => True
  end → pending c k' = pending c k.
Proof.
  intros Hm Hwf Hl. destruct l.
  - destruct Hl as (c' & Hs & Hne). rewrite (pending_wake _ c _ _ _ Hm Hs).
    by rewrite decide_False, app_nil_r.
  - by eapply pending_wait.
  - rewrite (pending_suspend _ c _ _ _ Hm Hwf). by rewrite decide_False, app_nil_r.
  - rewrite (pending_run _ c _ _ Hm). by rewrite decide_False.
  - by apply pending_stay.
Qed.

Lemma mutex_inv_frame k k' log es :
  mutex_inv k log → mutexes k' = mutexes k →
  (∀ m, pending (InLock m) k' = pending (InLock m) k) →
  Forall (λ e, lock_event e = false) es → mutex_inv k' (log ++ es).
Proof.
  intros Hi Hms Hp Hes m x. rewrite Hms, Hp, holds_count_other by done. apply Hi.
Qed.

(** An update of one mutex. *)
Lemma mutex_inv_update k k' log es m x y :
  mutex_inv k log → mutexes k !! m = Some x → mutexes k' = <[m := y]> (mutexes k) →
  (∀ m', m' ≠ m → pending (InLock m') k' = pending (InLock m') k) →
  (∀ m', m' ≠ m → holds_count m' (log ++ es) = holds_count m' log) →
  (holds_count m (log ++ es) + length (pending (InLock m) k'))%nat = Nat.b2n (is_locked y) →
  (is_locked y = false → mutex_waiters y = []) →
  mutex_inv k' (log ++ es).
Proof.
  intros Hi Hx Hms Hp Hh Hn Hw m' z. rewrite Hms. destruct (decide (m' = m)) as [->|Hne].
  - rewrite list_lookup_insert_eq by (by eapply lookup_lt_Some). by intros [= <-].
  - rewrite list_lookup_insert_ne by done. rewrite Hp, Hh by done. apply Hi.
Qed.

Lemma waiter_saved k m x t :
  queues_fit k → mutexes k !! m = Some x → t ∈ mutex_waiters x → saved k !! t = Some (InLock m).
Proof.
  intros Hf Hx Hin. destruct (Hf (QMutex m) t) as (c & Hs & Hc); [cbn; by rewrite Hx|].
  destruct c; try done. cbn in Hc. by subst.
Qed.

Lemma sem_waiter_saved k s x t :
  queues_fit k → semaphores k !! s = Some x → t ∈ sem_queue x → saved k !! t = Some (InDown s).
Proof.
  intros Hf Hx Hin. destruct (Hf (QSem s) t) as (c & Hs & Hc); [cbn; by rewrite Hx|].
  destruct c; try done. cbn in Hc. by subst.
Qed.

(** A task that resumes with a mutex it was passed enters the critical section. *)
Lemma run_mutex k k' t log :
  moves (Run t) k k' → sched_wf k → mutexes k' = mutexes k → mutex_inv k log →
  mutex_inv k' (log ++ run_events t (default AtUser (saved k !! t))).
Proof.
  intros Hm Hwf Ems Hi. assert ((∃ m, saved k !! t = Some (InLock m)) ∨ ¬ ∃ m, saved k !! t = Some (InLock m))
    as [[m Hs]|Hn].
  { destruct (saved k !! t) as [[]|]; first [left; by eexists|right; by intros [? [=]]]. }
  - rewrite Hs. cbn [default from_option id run_events]. intros m' x. rewrite Ems. intros Hx.
    destruct (Hi m' x Hx) as [Hc Hw]. split; [|done]. rewrite holds_count_locked.
    rewrite (pending_run _ (InLock m') _ _ Hm), Hs in Hc. destruct (decide (m = m')) as [->|Hne].
    + rewrite decide_True, length_app in Hc by done. rewrite bool_decide_true by done. simpl in *. lia.
    + rewrite decide_False in Hc by congruence. rewrite bool_decide_false by done. done.
  - eapply mutex_inv_frame; [done|exact Ems| |].
    + intros m. eapply pending_neutral; [exact Hm|done|]. intros Hs. apply Hn. by exists m.
    + destruct (saved k !! t) as [[]|]; cbn; try (by repeat constructor). exfalso. apply Hn. by eexists.
Qed.

Lemma change_mutex k0 k es k' log :
  change k es k' → base_inv k0 k → disciplined log es →
  mutex_inv k log → mutex_inv k' (log ++ es).
Proof.
  intros Hch [Hwf Hf _] Hd Hi. destruct Hch as [t m x k' Hx Hl Hm Ho|t m q k' Hx Hm Ho|t m x k' Hx Hw Hm Ho
    |t m w q k' Hx Hm Ho|s x k' Hx Hc Hm Ho|s x w q k' Hx Hc Hq Hm Ho|t s x k' Hx Hc Hm Ho
    |t s x k' Hx Hc Hm Ho|c w q k' Hx Hm Ho|t c m q k' Hx Hm Ho|t e k' Hm Ho|i x k' Hx Hm Ho
    |t c k' He Hm Ho|t k' Hm Ho]; unfold objects in Ho; injection Ho as Ems _ _ _.
  - destruct (Hi m x Hx) as [Hn Hw]. rewrite Hl in Hn, Hw.
    eapply mutex_inv_update; [done|exact Hx|exact Ems|..].
    + intros m' _. by apply pending_stay.
    + intros m' Hne. rewrite holds_count_locked, bool_decide_false by done. done.
    + rewrite holds_count_locked, bool_decide_true, (pending_stay _ _ _ Hm) by done.
      destruct x; simpl in *; lia.
    + by destruct x.
  - destruct (Hi m _ Hx) as [Hn _]. eapply mutex_inv_update; [done|exact Hx|exact Ems|..].
    + intros m' _. by eapply pending_neutral.
    + intros m' _. by rewrite app_nil_r.
    + by rewrite app_nil_r, (pending_neutral _ _ _ _ Hm Hwf).
    + done.
  - destruct (Hi m x Hx) as [Hn _]. pose proof (Hd [] t m [] eq_refl) as Hin. rewrite app_nil_r in Hin.
    pose proof (holds_count_unlock m t m log Hin) as Hh. rewrite bool_decide_true in Hh by done.
    eapply mutex_inv_update; [done|exact Hx|exact Ems|..].
    + intros m' _. by apply pending_stay.
    + intros m' Hne. rewrite <- (holds_count_unlock m' t m log Hin), bool_decide_false by done. done.
    + rewrite (pending_stay _ _ _ Hm). destruct x as [[]|[]]; simpl in *; lia.
    + by destruct x.
  - destruct (Hi m _ Hx) as [Hn _]. pose proof (Hd [] t m [] eq_refl) as Hin. rewrite app_nil_r in Hin.
    pose proof (holds_count_unlock m t m log Hin) as Hh. rewrite bool_decide_true in Hh by done.
    pose proof (waiter_saved k m _ w Hf Hx (list_elem_of_here _ _)) as Hs.
    eapply mutex_inv_update; [done|exact Hx|exact Ems|..].
    + intros m' Hne. eapply pending_neutral; [exact Hm|done|]. exists (InLock m). split; [done|congruence].
    + intros m' Hne. rewrite <- (holds_count_unlock m' t m log Hin), bool_decide_false by done. done.
    + rewrite (pending_wake _ (InLock m) _ _ _ Hm Hs), decide_True, length_app by done.
      simpl in *. lia.
    + done.
  - eapply mutex_inv_frame; [done|exact Ems| |by repeat constructor]. intros m. by apply pending_stay.
  - eapply mutex_inv_frame; [done|exact Ems| |by repeat constructor]. intros m.
    eapply pending_neutral; [exact Hm|done|]. exists (InDown s).
    split; [|done]. apply (sem_waiter_saved k s x w Hf Hx). rewrite Hq. apply list_elem_of_here.
  - eapply mutex_inv_frame; [done|exact Ems| |by repeat constructor]. intros m. by apply pending_stay.
  - eapply mutex_inv_frame; [done|exact Ems| |by repeat constructor]. intros m. by eapply pending_neutral.
  - eapply mutex_inv_frame; [done|exact Ems| |by repeat constructor]. intros m.
    destruct (Hf (QCond c) w) as (c' & Hs & Hc'); [cbn; rewrite Hx; apply list_elem_of_here|].
    eapply pending_neutral; [exact Hm|done|]. exists c'. split; [done|]. by destruct c'.
  - eapply mutex_inv_frame; [done|exact Ems| |by repeat constructor]. intros m'. by eapply pending_neutral.
  - eapply mutex_inv_frame; [done|exact Ems| |by repeat constructor]. intros m. by eapply pending_neutral.
  - eapply mutex_inv_frame; [done|exact Ems| |by repeat constructor]. intros m.
    destruct (Hf QTimer (timer_task x)) as (c' & Hs & Hc').
    { cbn. apply list_elem_of_fmap. exists x. split; [done|]. by eapply list_elem_of_lookup_2. }
    eapply pending_neutral; [exact Hm|done|]. exists c'. split; [done|]. by destruct c'.
  - eapply mutex_inv_frame; [done|exact Ems| |by repeat constructor]. intros m.
    eapply pending_neutral; [exact Hm|done|]. by intros ->.
  - by eapply run_mutex.
Qed.

Lemma changes_mutex k0 k es k' log :
  changes k es k' → base_inv k0 k → disciplined log es → mutex_inv k log → mutex_inv k' (log ++ es).
Proof.
  intros Hch. revert log. induction Hch as [k|k es k1 es' k' Hch _ IH]; intros log Hb Hd Hi.
  { by rewrite app_nil_r. }
  rewrite app_assoc. apply IH.
  - by eapply change_base.
  - intros pre t m post ->. rewrite <- app_assoc. apply (Hd (es ++ pre) t m post).
    by rewrite app_assoc.
  - eapply change_mutex; [done|done| |done]. intros pre t m post ->.
    apply (Hd pre t m (post ++ es')). by rewrite <- app_assoc.
Qed.

(** Mutexes are released by the task that holds them. *)
Definition owner_unlocks (log : list event) (t : Z) (op : uop) : Prop :=
  match op with
  | OpUnlock m | OpWait _ m => (t, m) ∈ critical log
  | _ => True
  end.

Lemma user_op_disciplined `{!Heap} log t op k es k' :
  owner_unlocks log t op → user_op t op k = Ok (es, k') → disciplined log es.
Proof.
  assert (Hone : ∀ m, (t, m) ∈ critical log → disciplined log [EvUnlock t m]).
  { intros m Hin [|e pre] t' m' post E; [|by destruct pre].
    injection E as -> -> _. by rewrite app_nil_r. }
  assert (Hnone : Forall (λ e, ∀ t m, e ≠ EvUnlock t m) es → disciplined log es).
  { intros Hes pre t' m' post ->. apply Forall_app in Hes as [_ Hes].
    apply Forall_cons in Hes as [Hne _]. by destruct (Hne t' m'). }
  intros Hd E. destruct op; cbn [user_op owner_unlocks] in E, Hd; unfold lock_events in E; mstep;
    repeat case_match; simplify_eq; try (by apply Hone); apply Hnone; by repeat constructor.
Qed.

Lemma idle_turn_disciplined log k es k' : idle_turn k = Ok (es, k') → disciplined log es.
Proof.
  intros E. unfold idle_turn, lock_events in E. mstep. repeat case_match; simplify_eq;
    intros pre t' m' post E'; by destruct pre as [|? []].
Qed.

Lemma booted_pending c k : booted k → pending c k = [].
Proof.
  intros Hb. unfold pending. generalize (ready_queue k) as q. induction q as [|t q IH]; [done|].
  rewrite filter_cons, (boot_saved k Hb), decide_False by done. exact IH.
Qed.

Lemma booted_mutex k : booted k → mutex_inv k [].
Proof.
  intros Hb m x Hx. rewrite booted_pending by done. pose proof (boot_mutexes k Hb) as Hm. rewrite Forall_lookup in Hm.
  by destruct (Hm m x Hx) as [-> | ->].
Qed.

Lemma reaches_mutex `{!Heap} k0 k log : reaches owner_unlocks k0 k log → mutex_inv k log.
Proof.
  induction 1 as [Hb|k log t op es k' Hr IH Hc Hd E|k log es k' Hr IH Hc E].
  - by apply booted_mutex.
  - eapply changes_mutex; [by eapply user_op_changes|by eapply reaches_base| |done].
    by eapply user_op_disciplined.
  - eapply changes_mutex; [by eapply idle_turn_changes|by eapply reaches_base| |done].
    by eapply idle_turn_disciplined.
Qed.

(** ** Semaphores *)

Lemma ups_app s log es : ups s (log ++ es) = (ups s log + ups s es)%nat.
Proof. unfold ups. by rewrite filter_app, length_app. Qed.
Lemma downs_app s log es : downs s (log ++ es) = (downs s log + downs s es)%nat.
Proof. unfold downs. by rewrite filter_app, length_app. Qed.
Lemma passes_app s log es : passes s (log ++ es) = (passes s log + passes s es)%nat.
Proof. unfold passes. by rewrite filter_app, length_app. Qed.

Lemma ups_bound s log : (ups s log ≤ length log)%nat.
Proof. apply length_filter. Qed.
Lemma downs_bound s log : (downs s log ≤ length log)%nat.
Proof. apply length_filter. Qed.

(** Units are neither made nor lost: [count] is what was given minus what was
    asked for, the queue is what is missing, and every request has passed, is on
    its way or waits. *)
Definition sem_ok (c0 : Z) (k : kernel) (log : list event) (s : nat) (x : Semaphore) : Prop :=
  count x = c0 + Z.of_nat (ups s log) - Z.of_nat (downs s log) ∧
  Z.of_nat (length (sem_queue x)) = Z.max 0 (- count x) ∧
  (passes s log + length (pending (InDown s) k) + length (sem_queue x))%nat = downs s log.

Definition sem_inv (k0 k : kernel) (log : list event) : Prop :=
  ∀ s x0, semaphores k0 !! s = Some x0 → count x0 + Z.of_nat (length log) < 2 ^ 63 →
    ∃ x, semaphores k !! s = Some x ∧ sem_ok (count x0) k log s x.

Lemma sem_inv_frame k0 k k' log es :
  sem_inv k0 k log → semaphores k' = semaphores k →
  (∀ s, pending (InDown s) k' = pending (InDown s) k) →
  (∀ s, ups s es = 0%nat ∧ downs s es = 0%nat ∧ passes s es = 0%nat) → sem_inv k0 k' (log ++ es).
Proof.
  intros Hi Hss Hp Hes s x0 Hx0 Hb. rewrite length_app in Hb.
  destruct (Hi s x0 Hx0 ltac:(lia)) as (x & Hx & H1 & H2 & H3). exists x. rewrite Hss.
  split; [done|]. destruct (Hes s) as (Hu & Hd & Hps). unfold sem_ok.
  rewrite ups_app, downs_app, passes_app, Hp, Hu, Hd, Hps. split; [lia|]. split; [done|lia].
Qed.

(** An update of one semaphore. *)
Lemma sem_inv_update k0 k k' log es s x y :
  sem_inv k0 k log → semaphores k !! s = Some x → semaphores k' = <[s := y]> (semaphores k) →
  (∀ s', s' ≠ s → pending (InDown s') k' = pending (InDown s') k) →
  (∀ s', s' ≠ s → ups s' es = 0%nat ∧ downs s' es = 0%nat ∧ passes s' es = 0%nat) →
  (∀ c0, 0 ≤ c0 → c0 + Z.of_nat (length (log ++ es)) < 2 ^ 63 → sem_ok c0 k log s x →
    sem_ok c0 k' (log ++ es) s y) →
  Forall (λ x, 0 ≤ count x) (semaphores k0) →
  sem_inv k0 k' (log ++ es).
Proof.
  intros Hi Hx Hss Hp Hes Hok Hall s' x0 Hx0 Hb. pose proof Hb as Hb'. rewrite length_app in Hb'.
  destruct (Hi s' x0 Hx0 ltac:(lia)) as (z & Hz & Hz').
  rewrite Hss. destruct (decide (s' = s)) as [->|Hne].
  - assert (z = x) as -> by congruence. exists y.
    rewrite list_lookup_insert_eq by (by eapply lookup_lt_Some). split; [done|].
    apply Hok; [|done|done]. rewrite Forall_lookup in Hall. by eapply Hall.
  - exists z. rewrite list_lookup_insert_ne by done. split; [done|].
    destruct (Hes s' Hne) as (Hu & Hd & Hps). destruct Hz' as (H1 & H2 & H3). unfold sem_ok.
    rewrite ups_app, downs_app, passes_app, Hp, Hu, Hd, Hps by done. split; [lia|]. split; [done|lia].
Qed.

(** The counters of single events. *)
Lemma count_up s s' : ups s' [EvUp s] = Nat.b2n (bool_decide (s = s')).
Proof. unfold ups. rewrite filter_cons, filter_nil. by repeat case_decide; simplify_eq; case_bool_decide. Qed.
Lemma count_down s s' : downs s' [EvDown s] = Nat.b2n (bool_decide (s = s')).
Proof. unfold downs. rewrite filter_cons, filter_nil. by repeat case_decide; simplify_eq; case_bool_decide. Qed.
Lemma count_pass t s s' : passes s' [EvPassed t s] = Nat.b2n (bool_decide (s = s')).
Proof.
  unfold passes. rewrite filter_cons, filter_nil. cbn [is_pass].
  destruct (Nat.eqb_spec s s'); [rewrite bool_decide_true by done|rewrite bool_decide_false by done]; done.
Qed.

(** A semaphore operation of [s] does not count for another one. *)
Lemma count_other s s' t es :
  s' ≠ s → Forall (λ e, e = EvUp s ∨ e = EvDown s ∨ e = EvPassed t s) es →
  ups s' es = 0%nat ∧ downs s' es = 0%nat ∧ passes s' es = 0%nat.
Proof.
  intros Hne. induction 1 as [|e es He _ (IHu & IHd & IHp)]; [done|].
  change (e :: es) with ([e] ++ es). rewrite ups_app, downs_app, passes_app, IHu, IHd, IHp.
  destruct He as [-> |[-> | ->]]; rewrite ?count_up, ?count_down, ?count_pass;
    rewrite bool_decide_false by done; done.
Qed.

Lemma run_sem k0 k k' t log :
  moves (Run t) k k' → sched_wf k → semaphores k' = semaphores k → sem_inv k0 k log →
  sem_inv k0 k' (log ++ run_events t (default AtUser (saved k !! t))).
Proof.
  intros Hm Hwf Ess Hi. assert ((∃ s, saved k !! t = Some (InDown s)) ∨ ¬ ∃ s, saved k !! t = Some (InDown s))
    as [[s Hs]|Hn].
  { destruct (saved k !! t) as [[]|]; first [left; by eexists|right; by intros [? [=]]]. }
  - rewrite Hs. cbn [default from_option id run_events]. intros s' x0 Hx0 Hb. rewrite length_app in Hb.
    destruct (Hi s' x0 Hx0 ltac:(lia)) as (x & Hx & H1 & H2 & H3). exists x. rewrite Ess. split; [done|].
    unfold sem_ok. rewrite ups_app, downs_app, passes_app, count_pass.
    change (ups s' [EvPassed t s]) with 0%nat. change (downs s' [EvPassed t s]) with 0%nat.
    rewrite (pending_run _ (InDown s') _ _ Hm), Hs in H3. destruct (decide (s = s')) as [->|Hne].
    + rewrite decide_True, length_app in H3 by done. rewrite bool_decide_true by done.
      simpl in *. split; [lia|]. split; [done|lia].
    + rewrite decide_False in H3 by congruence. rewrite bool_decide_false by done.
      simpl in *. split; [lia|]. split; [done|lia].
  - eapply sem_inv_frame; [done|exact Ess| |].
    + intros s. eapply pending_neutral; [exact Hm|done|]. intros Hs. apply Hn. by exists s.
    + intros s. destruct (saved k !! t) as [[]|]; cbn; try done. exfalso. apply Hn. by eexists.
Qed.

(** The counter of the semaphore of an operation, with the bounds that keep
    [isize] from overflowing. *)
Ltac sem_count s log Hc :=
  intros c0 H0 Hb (H1 & H2 & H3); pose proof (ups_bound s log); pose proof (downs_bound s log);
  rewrite length_app in Hb; simpl in Hb; rewrite i64_small in Hc by lia;
  unfold sem_ok; cbn [count sem_queue]; rewrite i64_small by lia;
  rewrite ups_app, downs_app, passes_app.

Lemma up_sem_ok k k' log s x c0 :
  0 < i64 (count x + 1) ∨ sem_queue x = [] → pending (InDown s) k' = pending (InDown s) k →
  0 ≤ c0 → c0 + Z.of_nat (length (log ++ [EvUp s])) < 2 ^ 63 → sem_ok c0 k log s x →
  sem_ok c0 k' (log ++ [EvUp s]) s (mkSem (i64 (count x + 1)) (sem_queue x)).
Proof.
  intros Hc Hp. revert c0. sem_count s log Hc. rewrite count_up, bool_decide_true, Hp by done.
  change (downs s [EvUp s]) with 0%nat. change (passes s [EvUp s]) with 0%nat. cbn [Nat.b2n].
  split; [lia|]. split; [|lia]. destruct Hc as [Hc|Hc]; [lia|]. rewrite Hc in *. simpl in *. lia.
Qed.

Lemma up_wake_sem_ok k k' log s x w q c0 :
  i64 (count x + 1) ≤ 0 → sem_queue x = w :: q →
  pending (InDown s) k' = pending (InDown s) k ++ [w] →
  0 ≤ c0 → c0 + Z.of_nat (length (log ++ [EvUp s])) < 2 ^ 63 → sem_ok c0 k log s x →
  sem_ok c0 k' (log ++ [EvUp s]) s (mkSem (i64 (count x + 1)) q).
Proof.
  intros Hc Hq Hp. revert c0. sem_count s log Hc. rewrite count_up, bool_decide_true, Hp by done.
  change (downs s [EvUp s]) with 0%nat. change (passes s [EvUp s]) with 0%nat. cbn [Nat.b2n].
  rewrite Hq in H2, H3. rewrite length_app. simpl in *. split; [lia|]. split; lia.
Qed.

Lemma down_sem_ok k k' log s x t c0 :
  0 ≤ i64 (count x - 1) → pending (InDown s) k' = pending (InDown s) k →
  0 ≤ c0 → c0 + Z.of_nat (length (log ++ [EvDown s; EvPassed t s])) < 2 ^ 63 → sem_ok c0 k log s x →
  sem_ok c0 k' (log ++ [EvDown s; EvPassed t s]) s (mkSem (i64 (count x - 1)) (sem_queue x)).
Proof.
  intros Hc Hp. revert c0. sem_count s log Hc. change [EvDown s; EvPassed t s] with ([EvDown s] ++ [EvPassed t s]).
  rewrite ups_app, downs_app, passes_app, count_down, count_pass, bool_decide_true, Hp by done.
  change (ups s [EvDown s]) with 0%nat. change (passes s [EvDown s]) with 0%nat.
  change (ups s [EvPassed t s]) with 0%nat. change (downs s [EvPassed t s]) with 0%nat.
  cbn [Nat.b2n]. split; [lia|]. split; lia.
Qed.

Lemma down_wait_sem_ok k k' log s x t c0 :
  i64 (count x - 1) < 0 → pending (InDown s) k' = pending (InDown s) k →
  0 ≤ c0 → c0 + Z.of_nat (length (log ++ [EvDown s])) < 2 ^ 63 → sem_ok c0 k log s x →
  sem_ok c0 k' (log ++ [EvDown s]) s (mkSem (i64 (count x - 1)) (sem_queue x ++ [t])).
Proof.
  intros Hc Hp. revert c0. sem_count s log Hc. rewrite count_down, bool_decide_true, Hp by done.
  change (ups s [EvDown s]) with 0%nat. change (passes s [EvDown s]) with 0%nat.
  rewrite length_app. simpl in *. split; [lia|]. split; lia.
Qed.

Lemma change_sem k0 k es k' log :
  change k es k' → base_inv k0 k → Forall (λ x, 0 ≤ count x) (semaphores k0) →
  sem_inv k0 k log → sem_inv k0 k' (log ++ es).
Proof.
  intros Hch [Hwf Hf _] Hall Hi.
  destruct Hch as [t m x k' Hx Hl Hm Ho|t m q k' Hx Hm Ho|t m x k' Hx Hw Hm Ho
    |t m w q k' Hx Hm Ho|s x k' Hx Hc Hm Ho|s x w q k' Hx Hc Hq Hm Ho|t s x k' Hx Hc Hm Ho
    |t s x k' Hx Hc Hm Ho|c w q k' Hx Hm Ho|t c m q k' Hx Hm Ho|t e k' Hm Ho|i x k' Hx Hm Ho
    |t c k' He Hm Ho|t k' Hm Ho]; unfold objects in Ho; injection Ho as _ Ess _ _;
    try (eapply sem_inv_frame; [done|exact Ess| |done]; intros s'; by eapply pending_neutral).
  - eapply sem_inv_frame; [done|exact Ess| |done]; intros s'.
    eapply pending_neutral; [exact Hm|done|]. exists (InLock m).
    split; [|done]. apply (waiter_saved k m _ w Hf Hx). apply list_elem_of_here.
  - eapply sem_inv_update; [done|exact Hx|exact Ess| | | |done].
    + intros s' _. by apply pending_stay.
    + intros s' Hne. apply (count_other s s' 0); [done|]. by repeat constructor.
    + intros c0. apply up_sem_ok; [done|by apply pending_stay].
  - assert (Hs : saved k !! w = Some (InDown s)).
    { apply (sem_waiter_saved k s x w Hf Hx). rewrite Hq. apply list_elem_of_here. }
    eapply sem_inv_update; [done|exact Hx|exact Ess| | | |done].
    + intros s' Hne. eapply pending_neutral; [exact Hm|done|]. exists (InDown s). split; [done|congruence].
    + intros s' Hne. apply (count_other s s' 0); [done|]. by repeat constructor.
    + intros c0. eapply up_wake_sem_ok; [done|exact Hq|].
      by rewrite (pending_wake _ (InDown s) _ _ _ Hm Hs), decide_True.
  - eapply sem_inv_update; [done|exact Hx|exact Ess| | | |done].
    + intros s' _. by apply pending_stay.
    + intros s' Hne. apply (count_other s s' t); [done|].
      repeat (apply Forall_cons_2; [tauto|]). constructor.
    + intros c0. apply down_sem_ok; [done|by apply pending_stay].
  - eapply sem_inv_update; [done|exact Hx|exact Ess| | | |done].
    + intros s' _. by eapply pending_neutral.
    + intros s' Hne. apply (count_other s s' t); [done|].
      repeat (apply Forall_cons_2; [tauto|]). constructor.
    + intros c0. apply down_wait_sem_ok; [done|by eapply pending_neutral].
  - eapply sem_inv_frame; [done|exact Ess| |done]; intros s'.
    destruct (Hf (QCond c) w) as (c' & Hs & Hc'); [cbn; rewrite Hx; apply list_elem_of_here|].
    eapply pending_neutral; [exact Hm|done|]. exists c'. split; [done|]. by destruct c'.
  - eapply sem_inv_frame; [done|exact Ess| |done]; intros s'.
    destruct (Hf QTimer (timer_task x)) as (c' & Hs & Hc').
    { cbn. apply list_elem_of_fmap. exists x. split; [done|]. by eapply list_elem_of_lookup_2. }
    eapply pending_neutral; [exact Hm|done|]. exists c'. split; [done|]. by destruct c'.
  - eapply sem_inv_frame; [done|exact Ess| |done]; intros s'.
    eapply pending_neutral; [exact Hm|done|]. by intros ->.
  - by eapply run_sem.
Qed.

Lemma changes_sem k0 k es k' log :
  changes k es k' → base_inv k0 k → Forall (λ x, 0 ≤ count x) (semaphores k0) →
  sem_inv k0 k log → sem_inv k0 k' (log ++ es).
Proof.
  intros Hch. revert log. induction Hch as [k|k es k1 es' k' Hch _ IH]; intros log Hb Ha Hi.
  { by rewrite app_nil_r. }
  rewrite app_assoc. apply IH; [by eapply change_base|done|]. by eapply change_sem.
Qed.

Lemma booted_sem k : booted k → sem_inv k k [].
Proof.
  intros Hb s x Hx _. exists x. split; [done|]. pose proof (boot_semaphores k Hb) as Hs.
  rewrite Forall_lookup in Hs. destruct (Hs s x Hx) as [Hc Hq]. unfold sem_ok.
  rewrite booted_pending, Hq by done.
  unfold ups, downs, passes. rewrite !filter_nil. cbn [length]. split; [|split]; lia.
Qed.

Lemma reaches_booted `{!Heap} D k0 k log : reaches D k0 k log → booted k0.
Proof. by induction 1. Qed.

Lemma reaches_sem `{!Heap} D k0 k log : reaches D k0 k log → sem_inv k0 k log.
Proof.
  intros Hr. assert (Hb := reaches_booted _ _ _ _ Hr).
  assert (Ha : Forall (λ x, 0 ≤ count x) (semaphores k0)).
  { eapply Forall_impl; [apply (boot_semaphores k0 Hb)|]. intros x ?. simpl in *. lia. }
  clear Hb. induction Hr as [Hb|k log t op es k' Hr IH Hc Hd E|k log es k' Hr IH Hc E].
  - by apply booted_sem.
  - eapply changes_sem; [by eapply user_op_changes|by eapply reaches_base|done|done].
  - eapply changes_sem; [by eapply idle_turn_changes|by eapply reaches_base|done|done].
Qed.

(** ** Timer keys *)

Lemma timer_key_small x : 0 ≤ expire_ms x < 2 ^ 63 → timer_key x = - expire_ms x.
Proof. intros Hx. unfold timer_key. rewrite (i64_small (expire_ms x)), i64_small by lia. done. Qed.

Lemma timer_key_large x : 2 ^ 63 < expire_ms x < 2 ^ 64 → 0 < timer_key x.
Proof.
  intros Hx. unfold timer_key. assert (E : i64 (expire_ms x) = expire_ms x - 2 ^ 64).
  { unfold i64. rewrite <- (Z.mod_unique (expire_ms x + 2 ^ 63) (2 ^ 64) 1 (expire_ms x - 2 ^ 63)); lia. }
  rewrite E, i64_small by lia. lia.
Qed.

Lemma timer_key_range x : 0 ≤ expire_ms x < 2 ^ 64 → 0 < timer_key x → 2 ^ 63 < expire_ms x.
Proof.
  intros Hx Hk. destruct (decide (expire_ms x < 2 ^ 63)).
  { rewrite timer_key_small in Hk by lia. lia. }
  destruct (decide (expire_ms x = 2 ^ 63)) as [E|]; [|lia]. unfold timer_key in Hk. rewrite E in Hk.
  vm_compute in Hk. discriminate.
Qed.

(** ** An interpreter of schedules *)

Section play.
Context {H : Heap} (D : list event → Z → uop → Prop) `{∀ log t op, Decision (D log t op)}.

(** [Some op]: the current task does [op]; [None]: a turn of the idle loop *)
Fixpoint play (ops : list (option uop)) (k : kernel) (log : list event) :
    option (kernel * list event) :=
  match ops with
  | [] => Some (k, log)
  | o :: ops =>
      match o, current k with
      | Some op, Some t =>
          if decide (D log t op) then
            match user_op t op k with
            | Ok (es, k) => play ops k (log ++ es)
            | Fail _ => None
            end
          else None
      | None, None =>
          match idle_turn k with
          | Ok (es, k) => play ops k (log ++ es)
          | Fail _ => None
          end
      | _, _ => None
      end
  end.

Lemma play_reaches k0 ops k log k' log' :
  reaches D k0 k log → play ops k log = Some (k', log') → reaches D k0 k' log'.
Proof.
  revert k log. induction ops as [|o ops IH]; intros k log Hr E; cbn [play] in E.
  { by injection E as <- <-. }
  destruct o as [op|], (current k) as [t|] eqn:Hc; try discriminate.
  - case_decide; [|done]. destruct (user_op t op k) as [[es k1]|] eqn:Eu; [|done].
    eapply IH; [|exact E]. by eapply reaches_user.
  - destruct (idle_turn k) as [[es k1]|] eqn:Eu; [|done]. eapply IH; [|exact E]. by eapply reaches_idle.
Qed.
End play.
