(* ===== verification/Concurrency.v ===== *)
(** * Guarantees of the scheduler, the mutexes, the semaphores and the timers

    The properties of the machine of [Sync], with runs of it as witnesses. *)

From S2P Require Import Prelude Threads Sync SyncSpec.

(** C22: no operation of the scheduler or of a synchronisation object loses or
    duplicates a task.  In every reachable state the tasks are exactly those of
    the start, each at one place (running, in the ready queue, in the wait
    queue of one object, or with one timer), and its [task_status] is the one of
    that place. *)
Theorem no_task_lost `{!Heap} D k0 k log :
  reaches D k0 k log →
  places k ≡ₚ places k0 ∧ NoDup (places k) ∧
  ∀ st t, at_place k st t → task_status k !! t = Some st.
Proof. intros Hr. destruct (reaches_base _ _ _ _ Hr) as [[Hnd Hst] _ Hp]. done. Qed.

(** C5: mutual exclusion.  As long as tasks only unlock mutexes they hold, at
    most one task at a time is between the return of its [lock] and its
    [unlock], for the spinning and for the blocking mutex; a free mutex has
    no holder, no waiter and no waiter on its way; and a locked one
    has a holder, or has been passed to exactly one task, which is in the ready
    queue (so a lock is never left behind). *)
Theorem mutual_exclusion `{!Heap} k0 k log m x :
  reaches owner_unlocks k0 k log → mutexes k !! m = Some x →
  (∀ t t', (t, m) ∈ critical log → (t', m) ∈ critical log → t = t') ∧
  (is_locked x = false →
    holders m log = [] ∧ mutex_waiters x = [] ∧ pending (InLock m) k = []) ∧
  (is_locked x = true →
    (∃ t, holders m log = [(t, m)] ∧ pending (InLock m) k = []) ∨
    (∃ t, holders m log = [] ∧ pending (InLock m) k = [t] ∧ t ∈ ready_queue k)).
Proof.
  intros Hr Hx. destruct (reaches_mutex _ _ _ Hr m x Hx) as [Hn Hw]. unfold holds_count in Hn.
  assert (Hin : ∀ p, p ∈ holders m log → p.2 = m) by (intros p [? _]%list_elem_of_filter; done).
  split; [|split].
  - intros t t' Ht Ht'.
    assert (H1 : (t, m) ∈ holders m log) by (by apply list_elem_of_filter).
    assert (H2 : (t', m) ∈ holders m log) by (by apply list_elem_of_filter).
    destruct (holders m log) as [|p [|? ?]]; [by apply not_elem_of_nil in H1| |].
    + apply list_elem_of_singleton in H1 as <-. apply list_elem_of_singleton in H2. congruence.
    + simpl in Hn. destruct (is_locked x); simpl in Hn; lia.
  - intros Hl. rewrite Hl in Hn. simpl in Hn. split; [|split; [auto|]]; apply length_zero_iff_nil; lia.
  - intros Hl. rewrite Hl in Hn. cbn [Nat.b2n] in Hn. destruct (holders m log) as [|[t m'] [|? ?]].
    + right. destruct (pending (InLock m) k) as [|t [|? ?]] eqn:Ep; try (simpl in Hn; lia).
      exists t. split; [done|]. split; [done|]. assert (Ht : t ∈ pending (InLock m) k).
      { rewrite Ep. by apply list_elem_of_singleton. }
      by apply list_elem_of_filter in Ht as [_ ?].
    + left. exists t. assert (m' = m) as -> by (apply (Hin (t, m')); by apply list_elem_of_singleton).
      split; [done|]. apply length_zero_iff_nil. simpl in Hn. lia.
    + simpl in Hn. lia.
Qed.

(** C23: semaphores neither make nor lose units.  In every reachable state, of a
    semaphore created with [n] units, at most [n] plus the number of [up]s
    calls of [down] have returned; tasks wait exactly when that many have
    returned or are on their way; and every call of [down] has returned, is on
    its way in the ready queue, or waits. *)
Theorem semaphore_units `{!Heap} D k0 k log s x0 :
  reaches D k0 k log → semaphores k0 !! s = Some x0 →
  count x0 + Z.of_nat (length log) < 2 ^ 63 →
  ∃ x, semaphores k !! s = Some x ∧
    let given := count x0 + Z.of_nat (ups s log) in
    let through := Z.of_nat (passes s log + length (pending (InDown s) k)) in
    through ≤ given ∧ (sem_queue x ≠ [] → through = given) ∧
    Z.of_nat (downs s log) = through + Z.of_nat (length (sem_queue x)).
Proof.
  intros Hr Hx0 Hb. destruct (reaches_sem _ _ _ _ Hr s x0 Hx0 Hb) as (x & Hx & H1 & H2 & H3).
  exists x. split; [done|]. cbv zeta. split; [lia|]. split; [|lia].
  intros Hq. destruct (sem_queue x); [done|]. simpl in *. lia.
Qed.

Lemma wakes_ready xs k k' :
  wakes xs k k' → ready_queue k' = ready_queue k ++ (timer_task <$> xs) ∧
    ∀ t, t ∈ timer_task <$> xs → task_status k' !! t = Some Ready.
Proof.
  induction 1 as [k|x xs i k k1 k2 Hx Hm Ho Hw [IHr IHs]].
  { split; [by rewrite app_nil_r|]. by intros t ?%not_elem_of_nil. }
  destruct Hm as (_ & Hr & _ & Hs & _). split.
  - rewrite IHr, Hr, <- app_assoc. done.
  - intros t Ht. destruct (decide (t ∈ timer_task <$> xs)) as [|Hn]; [by apply IHs|].
    rewrite fmap_cons, elem_of_cons in Ht. destruct Ht as [->|?]; [|done].
    assert (Hk : ∀ u, u ∉ timer_task <$> xs → task_status k2 !! u = task_status k1 !! u).
    { clear -Hw. induction Hw as [|y ys j k k' k'' Hy Hm Ho _ IH]; [done|]. intros u Hu.
      rewrite fmap_cons, not_elem_of_cons in Hu. rewrite IH by tauto.
      destruct Hm as (_ & _ & _ & -> & _). rewrite lookup_insert_ne; [done|]. intros Eu. by apply (proj1 Hu). }
    rewrite Hk, Hs by done. apply lookup_insert_eq.
Qed.

(** As long as expiry times are below 2^63 ms, [check_timer] wakes exactly
    the tasks whose timers are due: they are appended to the ready queue with
    status [Ready], their timers are gone, and all other timers remain. *)
Theorem check_timer_wakes_due `{!Heap} now k :
  Forall (λ x, 0 ≤ expire_ms x < 2 ^ 63) (timers k) →
  ∃ k' due, check_timer now k = Ok (tt, k') ∧
    due ≡ₚ filter (λ x, expire_ms x ≤ now) (timers k) ∧
    timers k' ≡ₚ filter (λ x, ¬ expire_ms x ≤ now) (timers k) ∧
    ready_queue k' = ready_queue k ++ (timer_task <$> due) ∧
    (∀ t, t ∈ timer_task <$> due → task_status k' !! t = Some Ready).
Proof.
  intros Hall. unfold check_timer. mstep.
  destruct (check_timers_run (length (timers k)) now k) as (k' & due & E & Hw & Hp & Hd & Hrest); [done|].
  exists k', due. split; [done|]. destruct (wakes_ready _ _ _ Hw) as [Hr Hs].
  rewrite Forall_forall in Hall.
  assert (Hlate : ∀ y, y ∈ timers k' → ¬ expire_ms y ≤ now).
  { intros y Hy. destruct Hrest as [Hn|(x & Hx & Hgt & Hmax)]; [rewrite Hn in Hy; by apply not_elem_of_nil in Hy|].
    assert (Hy' : y ∈ timers k) by (rewrite Hp; apply elem_of_app; auto).
    assert (Hx' : x ∈ timers k) by (rewrite Hp; apply elem_of_app; auto).
    specialize (Hmax y Hy). rewrite !timer_key_small in Hmax by (by apply Hall). lia. }
  assert (Hdf : filter (λ x, expire_ms x ≤ now) due = due).
  { apply filter_all. intros x Hx. rewrite Forall_forall in Hd. by apply Hd. }
  assert (Hnd : filter (λ x, ¬ expire_ms x ≤ now) due = []).
  { apply filter_none. intros x Hx Hn. rewrite Forall_forall in Hd. by apply Hn, Hd. }
  assert (Hlf : filter (λ x, expire_ms x ≤ now) (timers k') = []) by (by apply filter_none).
  assert (Hll : filter (λ x, ¬ expire_ms x ≤ now) (timers k') = timers k') by (by apply filter_all).
  split; [by rewrite Hp, filter_app, Hdf, Hlf, app_nil_r|].
  split; [by rewrite Hp, filter_app, Hnd, Hll|]. done.
Qed.

(** ** Expiry times beyond 2^63 *)

(** What can happen while [t] sleeps: operations of the current task, turns of the
    idle loop, and threads that lose their timers when their process exits.  The clock
    is at most 2^63 ms. *)
Inductive later `{!Heap} (t : Z) (k : kernel) : kernel → Prop :=
  | later_user u op evs k' :
      current k = Some u → (∀ now, op = OpTick now → now ≤ 2 ^ 63) → user_op u op k = Ok (evs, k') → later t k k'
  | later_idle evs k' : current k = None → idle_turn k = Ok (evs, k') → later t k k'
  | later_exit u k' : u ≠ t → remove_timer u k = Ok (tt, k') → later t k k'.

(** A timer that is the greatest of the heap and not due. *)
Definition far_timer (x : TimerCondVar) (k : kernel) : Prop :=
  2 ^ 63 < expire_ms x ∧ x ∈ timers k ∧ Forall (λ y, 0 ≤ expire_ms y < 2 ^ 64) (timers k).

Section far.
Context `{!Heap} (x : TimerCondVar).

Lemma far_check now k : now ≤ 2 ^ 63 → far_timer x k → check_timer now k = Ok (tt, k).
Proof.
  intros Hnow (Hx & Hin & Hall). rewrite Forall_forall in Hall.
  assert (Hkx : 0 < timer_key x) by (apply timer_key_large; specialize (Hall x Hin); lia).
  unfold check_timer. mstep. destruct (length (timers k)) as [|n]; [done|]. cbn [check_timers]. mstep.
  destruct (heap_top (timers k)) as [i|] eqn:Et; [|done].
  destruct (heap_top_Some _ _ Et) as (y & Hy & Hmax). rewrite Hy. cbn [unwrap].
  specialize (Hmax x Hin). apply list_elem_of_lookup_2 in Hy.
  pose proof (timer_key_range y (Hall y Hy) ltac:(lia)). by rewrite (proj2 (Z.leb_gt _ _)) by lia.
Qed.

Lemma far_same k k' : timers k' = timers k → far_timer x k → far_timer x k'.
Proof. unfold far_timer. by intros ->. Qed.

Lemma lock_timers t m k es k' : lock_events t m k = Ok (es, k') → timers k' = timers k.
Proof.
  unfold lock_events, mutex_lock, get_mutex, MutexSpin_lock, MutexBlocking_lock, set_mutex, current_task,
    suspend_current_and_run_next, block_current_and_run_next, take_current_task, schedule, add_task, assert_.
  intros E. mstep. by repeat (case_match; simplify_eq/=).
Qed.

Lemma unlock_timers m k k' : mutex_unlock m k = Ok (tt, k') → timers k' = timers k ∧ current k' = current k.
Proof.
  unfold mutex_unlock, get_mutex, MutexSpin_unlock, MutexBlocking_unlock, set_mutex, wakeup_task, add_task, assert_.
  intros E. mstep. by repeat (case_match; simplify_eq/=).
Qed.

(** The operations on objects do not touch the timers, a tick wakes nobody, and a
    sleep adds a timer. *)
Lemma far_user u op k es k' :
  (∀ now, op = OpTick now → now ≤ 2 ^ 63) → user_op u op k = Ok (es, k') → far_timer x k → far_timer x k'.
Proof.
  intros Htick E Hf. destruct op as [m|m|s|s|c|c m|now ms| |now]; cbn [user_op] in E.
  - eapply far_same; [by eapply lock_timers|done].
  - mstep. destruct (mutex_unlock m k) as [[[] k1]|] eqn:E1; [|done]. injection E as _ <-.
    eapply far_same; [by eapply unlock_timers|done].
  - apply (far_same k); [|done]. unfold sem_up, get_sem, set_sem, wakeup_task, add_task in E. mstep.
    by repeat (case_match; simplify_eq/=).
  - apply (far_same k); [|done].
    unfold sem_down, get_sem, set_sem, current_task, block_current_and_run_next, take_current_task, schedule in E. mstep.
    by repeat (case_match; simplify_eq/=).
  - apply (far_same k); [|done]. unfold condvar_signal, get_condvar, set_condvar, wakeup_task, add_task in E. mstep.
    by repeat (case_match; simplify_eq/=).
  - unfold condvar_wait, get_condvar, set_condvar, current_task, block_current_and_run_next, take_current_task, schedule in E. mstep.
    destruct (mutex_unlock m k) as [[[] k1]|] eqn:E1; [|done]. apply unlock_timers in E1 as [E1 _].
    apply (far_same k1); [by repeat (case_match; simplify_eq/=)|by apply (far_same k)].
  - unfold sys_sleep, current_task, add_timer, block_current_and_run_next, take_current_task, schedule in E. mstep.
    repeat (case_match; simplify_eq/=). destruct Hf as (Hx & Hin & Hall). split; [done|]. cbn [timers].
    split; [by apply elem_of_app; left|]. apply Forall_app. split; [done|]. apply Forall_singleton. apply u64_range.
  - apply (far_same k); [|done]. unfold suspend_current_and_run_next, take_current_task, add_task, schedule in E. mstep.
    by repeat (case_match; simplify_eq/=).
  - mstep. rewrite (far_check now k) in E by (done || by apply Htick). apply (far_same k); [|done].
    unfold suspend_current_and_run_next, take_current_task, add_task, schedule in E. mstep.
    by repeat (case_match; simplify_eq/=).
Qed.

Lemma far_idle k es k' : idle_turn k = Ok (es, k') → far_timer x k → far_timer x k'.
Proof.
  intros E Hf. unfold idle_turn, run_next, fetch_task in E. mstep. destruct (ready_queue k) as [|t q]; [by injection E as _ <-|].
  set (k1 := set_current (Some t) (set_status t Running (set_ready q k))) in *.
  assert (Hf1 : far_timer x k1) by (by apply (far_same k)).
  destruct (default AtUser _) as [|m|m|s|c m|]; try (injection E as _ <-; exact Hf1);
    (eapply far_same; [by eapply lock_timers|exact Hf1]).
Qed.

Lemma far_later k k' : later (timer_task x) k k' → far_timer x k → far_timer x k'.
Proof.
  destruct 1 as [u op es k' _ Ht E|es k' _ E|u k' Hu E]; [by eapply far_user|by eapply far_idle|].
  intros (Hx & Hin & Hall). unfold remove_timer in E. mstep. injection E as <-. split; [done|]. cbn [timers set_timers].
  split; [by apply list_elem_of_filter|]. rewrite Forall_forall in Hall |- *. intros y [_ Hy]%list_elem_of_filter. by apply Hall.
Qed.
End far.

(** C34: a [sys_sleep] whose expiry time is above 2^63 ms (and does not wrap around, so
    below 2^64) stops all timers.  The comparison of [TimerCondVar] casts the expiry
    time to [isize], so such a timer is the greatest element of the heap; [check_timer]
    looks at it first, finds it not due and stops.  This goes on in
    every later state ([later]): after any synchronisation operations, sleeps, yields
    and ticks of the tasks, and after other threads lost their timers because their
    process exited, [check_timer] changes nothing at any clock up to 2^63 ms, so it
    wakes nobody.  Only the exit of the sleeper's own process can end it. *)
Theorem sleep_stops_timers `{!Heap} t now ms k :
  current k = Some t → 2 ^ 63 < now + ms < 2 ^ 64 →
  Forall (λ x, 0 ≤ expire_ms x < 2 ^ 64) (timers k) →
  ∃ k1, sys_sleep now ms k = Ok (tt, k1) ∧
    ∀ k2, rtc (later t) k1 k2 → ∀ now', now' ≤ 2 ^ 63 → check_timer now' k2 = Ok (tt, k2).
Proof.
  intros Hc Hms Hall. destruct (sys_sleep_run now ms k t Hc) as (k1 & E & _ & Ho).
  exists k1. split; [done|]. assert (Ht : timers k1 = timers k ++ [mkTimer (now +ᵤ ms) t]) by (by injection Ho).
  rewrite u64_small in Ht by lia.
  assert (Hf : far_timer (mkTimer (now + ms) t) k1).
  { split; [cbn; lia|]. rewrite Ht. split; [by apply elem_of_app; right; apply list_elem_of_singleton|].
    apply Forall_app. split; [done|]. apply Forall_singleton. cbn. lia. }
  intros k2 Hr now' Hn. apply (far_check (mkTimer (now + ms) t)); [done|]. clear Ht E Ho.
  induction Hr as [|k1 k' k2 Hl _ IH]; [done|]. apply IH. by apply (far_later (mkTimer (now + ms) t) k1).
Qed.

(** ** Witnesses *)

(** A heap that takes the first of the greatest elements. *)
Fixpoint first_top (l : list TimerCondVar) : option (nat * TimerCondVar) :=
  match l with
  | [] => None
  | x :: l =>
      match first_top l with
      | Some (i, y) => if timer_key x <? timer_key y then Some (S i, y) else Some (O, x)
      | None => Some (O, x)
      end
  end.

Lemma first_top_Some l i x :
  first_top l = Some (i, x) → l !! i = Some x ∧ ∀ y, y ∈ l → timer_key y ≤ timer_key x.
Proof.
  revert i x. induction l as [|z l IH]; intros i x; [done|]. cbn [first_top].
  destruct (first_top l) as [[j y]|] eqn:E.
  - destruct (IH j y eq_refl) as [Hl Hmax]. destruct (Z.ltb_spec (timer_key z) (timer_key y));
      intros [= <- <-]; (split; [done|]); intros u [->|Hu]%elem_of_cons; try lia; specialize (Hmax u Hu); lia.
  - intros [= <- <-]. split; [done|]. destruct l as [|w l]; [|by cbn in E; repeat case_match].
    intros u [->|Hu]%elem_of_cons; [done|]. by apply not_elem_of_nil in Hu.
Qed.

#[local] Instance first_heap : Heap.
Proof.
  refine {| heap_top l := fst <$> first_top l |}.
  - intros [|x l]; [done|]. cbn. by repeat case_match.
  - intros l i E. destruct (first_top l) as [[j x]|] eqn:Ef; [|done]. injection E as <-.
    exists x. by apply first_top_Some.
Defined.

#[local] Instance owner_unlocks_dec log t op : Decision (owner_unlocks log t op).
Proof. destruct op; cbn [owner_unlocks]; apply _. Defined.

(** Two tasks, a blocking mutex and a semaphore of one unit. *)
Definition demo_kernel : kernel :=
  mkKernel [1; 2] None None {[1 := Ready; 2 := Ready]} ∅ [] [MutexBlocking_new] [mkSem 1 []] [].

Lemma demo_booted : booted demo_kernel.
Proof.
  split; try done.
  - apply (bool_decide_eq_true_1 _). by vm_compute.
  - intros t Ht. cbn in Ht. rewrite !elem_of_cons in Ht.
    destruct Ht as [->|[->|Ht%not_elem_of_nil]]; done.
  - constructor; [by right|constructor].
  - constructor; [|constructor]. by vm_compute.
Qed.

(** Task 1 locks and is preempted; task 2 asks for the mutex and waits; task 1
    unlocks and yields; task 2 runs. *)
Definition demo_ops : list (option uop) :=
  [None; Some (OpLock 0); Some (OpTick 0); None; Some (OpLock 0); None; Some (OpDown 0);
   Some (OpUnlock 0); Some OpYield; None].

Lemma demo_play :
  ∃ k, play owner_unlocks demo_ops demo_kernel [] =
      Some (k, [EvLocked 1 0; EvDown 0; EvPassed 1 0; EvUnlock 1 0; EvLocked 2 0]) ∧
    reaches owner_unlocks demo_kernel k
      [EvLocked 1 0; EvDown 0; EvPassed 1 0; EvUnlock 1 0; EvLocked 2 0] ∧
    mutexes k = [MutexBlocking true []] ∧ current k = Some 2.
Proof.
  destruct (play owner_unlocks demo_ops demo_kernel []) as [[k log]|] eqn:E.
  - pose proof (play_reaches _ _ _ _ _ _ _ (reaches_boot _ _ demo_booted) E) as Hr.
    vm_compute in E. injection E as <- <-. eexists. split; [reflexivity|]. split; [exact Hr|done].
  - by vm_compute in E.
Qed.

Lemma no_task_lost_witness :
  ∃ k log, play owner_unlocks demo_ops demo_kernel [] = Some (k, log) ∧ places k ≡ₚ [1; 2].
Proof.
  destruct demo_play as (k & E & Hr & _). destruct (no_task_lost _ _ _ _ Hr) as [Hp _].
  exists k. eexists. split; [exact E|exact Hp].
Defined.

Lemma mutual_exclusion_witness :
  ∃ k log t, play owner_unlocks demo_ops demo_kernel [] = Some (k, log) ∧ holders 0 log = [(t, 0%nat)].
Proof.
  destruct demo_play as (k & E & Hr & Hm & _).
  destruct (mutual_exclusion demo_kernel k _ 0 (MutexBlocking true []) Hr) as (_ & _ & Hl).
  { rewrite Hm. reflexivity. }
  destruct (Hl eq_refl) as [(t & Ht & _)|(t & Ht & _)]; [|discriminate Ht].
  exists k. eexists. exists t. split; [exact E|exact Ht].
Defined.

Lemma semaphore_units_witness :
  ∃ k log, play owner_unlocks demo_ops demo_kernel [] = Some (k, log) ∧
    Z.of_nat (passes 0 log + length (pending (InDown 0) k)) ≤ 1 + Z.of_nat (ups 0 log).
Proof.
  destruct demo_play as (k & E & Hr & _).
  destruct (semaphore_units _ demo_kernel k _ 0 (mkSem 1 []) Hr eq_refl ltac:(vm_compute; reflexivity))
    as (x & _ & Hle & _).
  exists k. eexists. split; [exact E|exact Hle].
Defined.

(** Two sleeping tasks; at 15 ms the first is due. *)
Definition sleepers : kernel :=
  mkKernel [] None None {[1 := Blocked; 2 := Blocked]} ∅ [mkTimer 20 1; mkTimer 10 2] [] [] [].

Lemma check_timer_wakes_due_witness :
  ∃ k due, check_timer 15 sleepers = Ok (tt, k) ∧ ready_queue k = timer_task <$> due ∧
    due ≡ₚ [mkTimer 10 2].
Proof.
  destruct (check_timer_wakes_due 15 sleepers) as (k & due & E & Hd & _ & Hr & _).
  - repeat constructor; cbn; lia.
  - exists k, due. split; [exact E|]. split; [exact Hr|exact Hd].
Defined.

(** Task 3 goes to sleep for 2^63 ms; task 4 is ready, runs, sleeps for 10 ms, and is
    not woken. *)
Lemma sleep_stops_timers_witness :
  ∃ k1 k2, sys_sleep 5 (2 ^ 63) (set_ready [4] (set_current (Some 3) sleepers)) = Ok (tt, k1) ∧
    (idle_turn;; user_op 4 (OpSleep 6 10)) k1 = Ok ([], k2) ∧
    timer_task <$> timers k2 = [1; 2; 3; 4] ∧ check_timer 1000 k2 = Ok (tt, k2).
Proof.
  destruct (sleep_stops_timers 3 5 (2 ^ 63) (set_ready [4] (set_current (Some 3) sleepers))) as (k1 & E & Hstop).
  - reflexivity.
  - lia.
  - repeat constructor; cbn; lia.
  - vm_compute in E. injection E as <-. eexists _, _. split; [vm_compute; reflexivity|].
    split; [vm_compute; reflexivity|]. split; [reflexivity|]. apply Hstop; [|lia].
    eapply rtc_l; [eapply later_idle; [reflexivity|vm_compute; reflexivity]|].
    eapply rtc_once, (later_user 3 _ 4 (OpSleep 6 10)); [reflexivity|done|vm_compute; reflexivity].
Defined.
