(* ===== verification/SyncCalls.v ===== *)
(** * The synchronisation system calls (os/src/syscall/sync.rs)

    The system calls on mutexes, semaphores and condition variables: the tables
    of a process that name its objects, and the bookkeeping and the search for
    deadlocks that surround the operations of [Sync]. *)

From S2P Require Import Prelude Threads Sync.

(** The fields of [ProcessControlBlockInner] these calls use. *)
Record Process := mkProc {
  tasks : list (option Z);
  mutex_list : list (option nat);
  semaphore_list : list (option nat);
  condvar_list : list (option nat);
  deadlock_detect : bool;
  mutex_available : list Z;
  semaphore_available : list Z;
  mutex_allocation : list (list Z);
  semaphore_allocation : list (list Z);
  mutex_need : list (list Z);
  semaphore_need : list (list Z);
}.

Definition set_mutex_list l p := mkProc (tasks p) l (semaphore_list p) (condvar_list p)
  (deadlock_detect p) (mutex_available p) (semaphore_available p) (mutex_allocation p)
  (semaphore_allocation p) (mutex_need p) (semaphore_need p).
Definition set_semaphore_list l p := mkProc (tasks p) (mutex_list p) l (condvar_list p)
  (deadlock_detect p) (mutex_available p) (semaphore_available p) (mutex_allocation p)
  (semaphore_allocation p) (mutex_need p) (semaphore_need p).
Definition set_condvar_list l p := mkProc (tasks p) (mutex_list p) (semaphore_list p) l
  (deadlock_detect p) (mutex_available p) (semaphore_available p) (mutex_allocation p)
  (semaphore_allocation p) (mutex_need p) (semaphore_need p).
Definition set_detect b p := mkProc (tasks p) (mutex_list p) (semaphore_list p) (condvar_list p)
  b (mutex_available p) (semaphore_available p) (mutex_allocation p)
  (semaphore_allocation p) (mutex_need p) (semaphore_need p).
(** The three tables of the mutexes, and of the semaphores. *)
Definition set_mutex_tables av al ne p := mkProc (tasks p) (mutex_list p) (semaphore_list p)
  (condvar_list p) (deadlock_detect p) av (semaphore_available p) al (semaphore_allocation p) ne
  (semaphore_need p).
Definition set_sem_tables av al ne p := mkProc (tasks p) (mutex_list p) (semaphore_list p)
  (condvar_list p) (deadlock_detect p) (mutex_available p) av (mutex_allocation p) al
  (mutex_need p) ne.

(** The current process, the kernel, and the thread id of each task
    ([res.as_ref().unwrap().tid]). *)
Record ksys := mkSys { proc : Process; kern : kernel; tids : gmap Z Z }.

Definition on_kernel {A} (m : M kernel A) : M ksys A := λ s,
  match m (kern s) with
  | Ok (a, k) => Ok (a, mkSys (proc s) k (tids s))
  | Fail f => Fail f
  end.

Definition get_proc : M ksys Process := gets proc.
Definition put_proc (p : Process) : M ksys unit := puts (λ s, mkSys p (kern s) (tids s)).

Definition cur_tid : M ksys Z :=
  o ← on_kernel current_task;
  t ← lift (unwrap o);
  m ← gets tids;
  lift (unwrap (m !! t)).

(** ** Tables *)

(** [while row.len() < n { row.push(0) }] *)
Definition grow (n : Z) (row : list Z) : list Z :=
  row ++ replicate (Z.to_nat n - length row) 0.

(** [table[i] += d], wrapping *)
Definition add_at (row : list Z) (i d : Z) : result (list Z) :=
  x ← idx row i; upd row i (u64 (x + d)).

Definition grow_row (table : list (list Z)) (tid n : Z) : result (list (list Z)) :=
  row ← idx table tid; upd table tid (grow n row).

Definition add_row (table : list (list Z)) (tid i d : Z) : result (list (list Z)) :=
  row ← idx table tid; row ← add_at row i d; upd table tid row.

Definition cell (table : list (list Z)) (tid i : Z) : result Z :=
  row ← idx table tid; idx row i.

(** [list.iter().enumerate().find(|(_, item)| item.is_none())] *)
Fixpoint first_none {A} (l : list (option A)) : option nat :=
  match l with
  | [] => None
  | None :: _ => Some O
  | Some _ :: l => S <$> first_none l
  end.

(** Stores an object in the first free slot, or in a new one. *)
Definition store_slot {A} (l : list (option A)) (x : A) : Z * list (option A) :=
  match first_none l with
  | Some id => (Z.of_nat id, <[id := Some x]> l)
  | None => (Z.of_nat (length l), l ++ [Some x])
  end.

(** [list[id].as_ref().unwrap()] *)
Definition slot {A} (l : list (option A)) (id : Z) : result A :=
  o ← idx l id; unwrap o.

(** ** Mutexes *)

Definition sys_mutex_create (blocking : bool) : M ksys Z :=
  m ← on_kernel (λ k, Ok (length (mutexes k),
        set_mutexes (mutexes k ++ [if blocking then MutexBlocking_new else MutexSpin_new]) k));
  p ← get_proc;
  let '(ret, l) := store_slot (mutex_list p) m in
  av ← lift (upd (grow (ret + 1) (mutex_available p)) ret 1);
  put_proc (set_mutex_tables av (mutex_allocation p) (mutex_need p) (set_mutex_list l p));;
  mret ret.

(** A row of [need] that is too short is extended, and that of [allocation] by
    as much. *)
Definition extend_rows (al ne : list (list Z)) (tid n : Z) :
    result (list (list Z) * list (list Z)) :=
  need_row ← idx ne tid;
  let k := (Z.to_nat n - length need_row)%nat in
  if (k =? 0)%nat then mret (al, ne)
  else
    al_row ← idx al tid;
    al ← upd al tid (al_row ++ replicate k 0);
    ne ← upd ne tid (need_row ++ replicate k 0);
    mret (al, ne).

(** The loop over the threads before the search. *)
Fixpoint request_mutex (ts : list nat) (cur_tid mutex_id : Z) (al ne : list (list Z)) :
    result (list (list Z) * list (list Z)) :=
  match ts with
  | [] => mret (al, ne)
  | tid :: ts =>
      let tid := Z.of_nat tid in
      '(al, ne) ← extend_rows al ne tid (mutex_id + 1);
      ne ← (if cur_tid =? tid then add_row ne tid mutex_id 1 else mret ne);
      request_mutex ts cur_tid mutex_id al ne
  end.

(** The pass over the threads that looks for one whose need can be met. *)
Fixpoint mutex_pass (ts : list nat) (mutex_id : Z) (al ne : list (list Z))
    (work : list Z) (finish : list bool) (is_found : bool) : result (list bool * bool) :=
  match ts with
  | [] => mret (finish, is_found)
  | tid :: ts =>
      f ← idx finish (Z.of_nat tid);
      if f : bool then mutex_pass ts mutex_id al ne work finish is_found
      else
        n ← cell ne (Z.of_nat tid) mutex_id;
        w ← idx work mutex_id;
        if n <=? w then
          a ← cell al (Z.of_nat tid) mutex_id;
          work ← upd work mutex_id (w +ᵤ a);
          finish ← upd finish (Z.of_nat tid) true;
          mutex_pass ts mutex_id al ne work finish true
        else mutex_pass ts mutex_id al ne work finish is_found
  end.

(** Whether the call fails with [-0xDEAD]. *)
Definition mutex_deadlock (p : Process) (mutex_id : Z) (al ne : list (list Z)) : result bool :=
  let n := length (tasks p) in
  '(finish, is_found) ←
    mutex_pass (seq 0 n) mutex_id al ne (mutex_available p) (replicate n false) false;
  mret (negb is_found && negb (forallb id finish)).

(** The result of a call that returned, [None] of one that gave the processor
    away and returns 0 later. *)
Definition sys_mutex_lock (mutex_id : Z) : M ksys (option Z) :=
  p ← get_proc;
  m ← lift (slot (mutex_list p) mutex_id);
  tid ← cur_tid;
  '(al, ne) ← lift (request_mutex (seq 0 (length (tasks p))) tid mutex_id
                      (mutex_allocation p) (mutex_need p));
  put_proc (set_mutex_tables (mutex_available p) al ne p);;
  dead ← (if deadlock_detect p then lift (mutex_deadlock p mutex_id al ne) else mret false);
  if dead : bool then mret (Some (-0xDEAD))
  else
    av ← lift (add_at (mutex_available p) mutex_id (-1));
    al ← lift (add_row al tid mutex_id 1);
    ne ← lift (add_row ne tid mutex_id (-1));
    put_proc (set_mutex_tables av al ne p);;
    b ← on_kernel (mutex_lock m);
    mret (if b : bool then Some 0 else None).

Definition sys_mutex_unlock (mutex_id : Z) : M ksys Z :=
  p ← get_proc;
  m ← lift (slot (mutex_list p) mutex_id);
  tid ← cur_tid;
  av ← lift (add_at (mutex_available p) mutex_id 1);
  al ← lift (add_row (mutex_allocation p) tid mutex_id (-1));
  put_proc (set_mutex_tables av al (mutex_need p) p);;
  on_kernel (mutex_unlock m);;
  mret 0.

(** ** Semaphores *)

Fixpoint grow_rows (ts : list nat) (n : Z) (al ne : list (list Z)) :
    result (list (list Z) * list (list Z)) :=
  match ts with
  | [] => mret (al, ne)
  | tid :: ts =>
      al ← grow_row al (Z.of_nat tid) n;
      ne ← grow_row ne (Z.of_nat tid) n;
      grow_rows ts n al ne
  end.

Definition sys_semaphore_create (res_count : Z) : M ksys Z :=
  p ← get_proc;
  s ← on_kernel (λ k, Ok (length (semaphores k),
        set_semaphores (semaphores k ++ [Semaphore_new res_count]) k));
  let '(id, l) := store_slot (semaphore_list p) s in
  av ← lift (upd (grow (id + 1) (semaphore_available p)) id res_count);
  '(al, ne) ← lift (grow_rows (seq 0 (length (tasks p))) (id + 1)
                      (semaphore_allocation p) (semaphore_need p));
  put_proc (set_sem_tables av al ne (set_semaphore_list l p));;
  mret id.

Definition sys_semaphore_up (sem_id : Z) : M ksys Z :=
  p ← get_proc;
  s ← lift (slot (semaphore_list p) sem_id);
  tid ← cur_tid;
  av ← lift (add_at (semaphore_available p) sem_id 1);
  al ← lift (grow_row (semaphore_allocation p) tid (sem_id + 1));
  al ← lift (add_row al tid sem_id (-1));
  put_proc (set_sem_tables av al (semaphore_need p) p);;
  on_kernel (sem_up s);;
  mret 0.

(** Whether the need of a thread is covered by [work]. *)
Fixpoint row_valid (work row : list Z) : bool :=
  match work, row with
  | w :: work, n :: row => negb (w <? n) && row_valid work row
  | _, _ => true
  end.

(** [*j += allocation[tid][i]] over all resources *)
Fixpoint add_rows (work row : list Z) : list Z :=
  match work, row with
  | w :: work, a :: row => (w +ᵤ a) :: add_rows work row
  | _, _ => work
  end.

(** The loops over [work] extend the row of the thread to the length of [work],
    and do not touch it when there is no resource. *)
Definition row_for (table : list (list Z)) (tid : Z) (work : list Z) :
    result (list (list Z) * list Z) :=
  match work with
  | [] => mret (table, [])
  | _ =>
      table ← grow_row table tid (Z.of_nat (length work));
      row ← idx table tid;
      mret (table, row)
  end.

(** The state of the search. *)
Record search := mkSearch {
  s_work : list Z;
  s_finish : list bool;
  s_al : list (list Z);
  s_ne : list (list Z);
}.

(** One pass over the threads, and whether one of them could finish. *)
Fixpoint sem_pass (ts : list nat) (st : search) (is_found : bool) : result (search * bool) :=
  match ts with
  | [] => mret (st, is_found)
  | tid :: ts =>
      let tid := Z.of_nat tid in
      '(ne, need) ← row_for (s_ne st) tid (s_work st);
      f ← idx (s_finish st) tid;
      if negb f && row_valid (s_work st) need then
        '(al, alloc) ← row_for (s_al st) tid (s_work st);
        finish ← upd (s_finish st) tid true;
        sem_pass ts (mkSearch (add_rows (s_work st) alloc) finish al ne) true
      else sem_pass ts (mkSearch (s_work st) (s_finish st) (s_al st) ne) is_found
  end.

(** The loop around the passes: the tables as it leaves them, and whether the
    call fails with [-0xDEAD].  A pass that is not the last finishes a thread. *)
Fixpoint sem_search (fuel : nat) (n : nat) (st : search) : result (search * bool) :=
  match fuel with
  | O => Fail OutOfFuel
  | S fuel =>
      '(st, is_found) ← sem_pass (seq 0 n) st false;
      if is_found : bool then sem_search fuel n st
      else mret (st, negb (forallb id (s_finish st)))
  end.

Definition sem_deadlock (p : Process) (al ne : list (list Z)) : result (search * bool) :=
  let n := length (tasks p) in
  sem_search (S n) n (mkSearch (semaphore_available p) (replicate n false) al ne).

Definition sys_semaphore_down (sem_id : Z) : M ksys (option Z) :=
  p ← get_proc;
  s ← lift (slot (semaphore_list p) sem_id);
  tid ← cur_tid;
  ne ← lift (grow_row (semaphore_need p) tid (sem_id + 1));
  ne ← lift (add_row ne tid sem_id 1);
  '(st, dead) ←
    (if deadlock_detect p then lift (sem_deadlock p (semaphore_allocation p) ne)
     else mret (mkSearch [] [] (semaphore_allocation p) ne, false));
  put_proc (set_sem_tables (semaphore_available p) (s_al st) (s_ne st) p);;
  if dead : bool then mret (Some (-0xDEAD))
  else
    a ← lift (idx (semaphore_available p) sem_id);
    (if 1 <=? a then
       av ← lift (add_at (semaphore_available p) sem_id (-1));
       al ← lift (grow_row (s_al st) tid (sem_id + 1));
       al ← lift (add_row al tid sem_id 1);
       ne ← lift (add_row (s_ne st) tid sem_id (-1));
       put_proc (set_sem_tables av al ne p)
     else mret tt);;
    b ← on_kernel (sem_down s);
    mret (if b : bool then Some 0 else None).

(** ** Condition variables *)

Definition sys_condvar_create : M ksys Z :=
  p ← get_proc;
  c ← on_kernel (λ k, Ok (length (condvars k), set_condvars (condvars k ++ [Condvar_new]) k));
  let '(id, l) := store_slot (condvar_list p) c in
  put_proc (set_condvar_list l p);;
  mret id.

Definition sys_condvar_signal (condvar_id : Z) : M ksys Z :=
  p ← get_proc;
  c ← lift (slot (condvar_list p) condvar_id);
  on_kernel (condvar_signal c);;
  mret 0.

(** To the switch; the call returns 0 when the task has the mutex again. *)
Definition sys_condvar_wait (condvar_id mutex_id : Z) : M ksys unit :=
  p ← get_proc;
  c ← lift (slot (condvar_list p) condvar_id);
  m ← lift (slot (mutex_list p) mutex_id);
  on_kernel (condvar_wait c m).

Definition sys_enable_deadlock_detect (enabled : Z) : M ksys Z :=
  p ← get_proc;
  if enabled =? 1 then put_proc (set_detect true p);; mret 0
  else if enabled =? 0 then put_proc (set_detect false p);; mret 0
  else mret (-1).
