(* ===== verification/ThreadCalls.v ===== *)
(** * Threads of a process (os/src/syscall/thread.rs)

    The system calls that create a thread and wait for one.  A task is the number of
    its control block; the lists of a process hold such numbers.  The last reference to an
    exited thread is its slot in the list of the process, so clearing or
    overwriting the slot frees its kernel stack. *)

From S2P Require Import Prelude Bytes Address FrameAlloc PageTable MemorySet MemorySpec Ids TaskRes.
From S2P Require Import Threads SyncCalls.

Record tsys := mkTsys {
  t_proc : Process;
  t_kern : kernel;
  t_world : world;
  t_tcbs : list TaskControlBlock;
}.

Definition in_kernel {A} (m : M kernel A) : M tsys A := λ s,
  match m (t_kern s) with
  | Ok (a, k) => Ok (a, mkTsys (t_proc s) k (t_world s) (t_tcbs s))
  | Fail f => Fail f
  end.
Definition in_world {A} (m : M world A) : M tsys A := λ s,
  match m (t_world s) with
  | Ok (a, w) => Ok (a, mkTsys (t_proc s) (t_kern s) w (t_tcbs s))
  | Fail f => Fail f
  end.
Definition set_proc (p : Process) : M tsys unit :=
  puts (λ s, mkTsys p (t_kern s) (t_world s) (t_tcbs s)).
Definition set_tcbs (l : list TaskControlBlock) : M tsys unit :=
  puts (λ s, mkTsys (t_proc s) (t_kern s) (t_world s) l).

Definition get_tcb (t : Z) : M tsys TaskControlBlock :=
  l ← gets t_tcbs; lift (unwrap (l !! Z.to_nat t)).
Definition put_tcb (t : Z) (b : TaskControlBlock) : M tsys unit :=
  l ← gets t_tcbs; set_tcbs (<[Z.to_nat t := b]> l).

(** [Arc::new(TaskControlBlock::new(..))]; the status of a new task is [Ready]. *)
Definition new_task (ustack_base : Z) (alloc : bool) : M tsys Z :=
  b ← in_world (TaskControlBlock_new ustack_base alloc);
  l ← gets t_tcbs;
  let t := Z.of_nat (length l) in
  set_tcbs (l ++ [b]);;
  in_kernel (puts (set_status t Ready));;
  mret t.

(** The slot of a thread gives up its reference. *)
Definition release_slot (o : option Z) : M tsys unit :=
  match o with
  | None => mret tt
  | Some t =>
      b ← get_tcb t;
      match exit_code b with
      | Some _ => in_world (KernelStack_drop (kstack b))
      | None => mret tt
      end
  end.

Definition set_tasks (l : list (option Z)) (p : Process) : Process :=
  mkProc l (mutex_list p) (semaphore_list p) (condvar_list p) (deadlock_detect p) (mutex_available p)
    (semaphore_available p) (mutex_allocation p) (semaphore_allocation p) (mutex_need p) (semaphore_need p).

(** [while tasks.len() < n]: slots and rows of the four tables are pushed. *)
Definition grow_tasks (n : Z) (p : Process) : Process :=
  let k := (Z.to_nat n - length (tasks p))%nat in
  mkProc (tasks p ++ replicate k None) (mutex_list p) (semaphore_list p) (condvar_list p) (deadlock_detect p)
    (mutex_available p) (semaphore_available p)
    (mutex_allocation p ++ replicate k []) (semaphore_allocation p ++ replicate k [])
    (mutex_need p ++ replicate k []) (semaphore_need p ++ replicate k []).

Definition current_res : M tsys TaskUserRes :=
  o ← in_kernel current_task;
  t ← lift (unwrap o);
  b ← get_tcb t;
  lift (unwrap (res b)).

Section calls.
(** The value of the status register for user mode, and the address of the trap
    handler. *)
Context (user_sstatus trap_handler : Z).

Definition sys_thread_create (entry arg : Z) : M tsys Z :=
  r ← current_res;
  new ← new_task (ustack_base r) true;
  in_kernel (add_task new);;
  b ← get_tcb new;
  new_res ← lift (unwrap (res b));
  p ← gets t_proc;
  let p := grow_tasks (tid new_res +ᵤ 1) p in
  old ← lift (idx (tasks p) (tid new_res));
  l ← lift (upd (tasks p) (tid new_res) (Some new));
  set_proc (set_tasks l p);;
  release_slot old;;
  w ← gets t_world;
  let cx := app_init_context user_sstatus entry (ustack_top (ustack_base new_res) (tid new_res))
              (MemorySet_token (kernel_space w)) (KernelStack_get_top (kstack b)) trap_handler in
  in_world (write_trap_cx (tcb_trap_cx_ppn b)
    (mkTrapContext (<[10%nat := arg]> (regs cx)) (sstatus cx) (sepc cx) (kernel_satp cx) (kernel_sp cx)
       (TaskRes.trap_handler cx)));;
  mret (tid new_res).

Definition sys_gettid : M tsys Z :=
  r ← current_res;
  mret (tid r).

Definition sys_waittid (tid : Z) : M tsys Z :=
  r ← current_res;
  if TaskRes.tid r =? tid then mret (-1)
  else
    p ← gets t_proc;
    o ← lift (idx (tasks p) tid);
    match o with
    | None => mret (-1)
    | Some t =>
        b ← get_tcb t;
        match exit_code b with
        | Some code =>
            l ← lift (upd (tasks p) tid None);
            set_proc (set_tasks l p);;
            release_slot (Some t);;
            mret code
        | None => mret (-2)
        end
    end.

End calls.
