(* ===== verification/ThreadSpec.v ===== *)
(** * Creating threads and waiting for them

    Properties of the operations of [ThreadCalls]: the address spaces of the
    process and of the kernel share the physical memory and own disjoint sets of
    frames; creating a thread and waiting for one keep this. *)

From S2P Require Import Prelude Bytes Address FrameAlloc PageTable MemorySet MemorySpec Ids TaskRes.
From S2P Require Import Threads SyncCalls ThreadCalls.

(** [mu] and [nu] are the mappings of the process and of the kernel. *)
Record world_ok (start : Z) (w : world) (mu nu : gmap Z Z) : Prop := {
  wo_user : space_ok start (memory w) (memory_set w) mu;
  wo_kernel : space_ok start (memory w) (kernel_space w) nu;
  wo_sep p : p ∈ own (memory_set w) → p ∉ own (kernel_space w);
}.

Lemma own_table ms p : p ∈ pt_frames (page_table ms) → p ∈ own ms.
Proof. intros. apply elem_of_app. by left. Qed.

(** ** Kernel stacks *)

Definition kstack_vpn (i : Z) : Z := 2 ^ 27 - 3 - 3 * i.
Definition kstack_area (i : Z) : MapArea :=
  framed_area (kstack_vpn i * 4096) (kstack_vpn i * 4096 + 0x2000) (Z.lor MapPermission_R MapPermission_W).

Lemma kstack_va i :
  0 ≤ i < 2 ^ 24 →
  VirtAddr_from (kernel_stack_position i).1 = kstack_vpn i * 4096 ∧
  VirtAddr_from (kernel_stack_position i).2 = kstack_vpn i * 4096 + 0x2000 ∧
  VirtPageNum_of_VirtAddr (kstack_vpn i * 4096) = Ok (kstack_vpn i).
Proof.
  intros Hi. rewrite kernel_stack_position_eq by (change (2 ^ 38 / 0x3000) with 22369621; lia).
  cbn [fst snd]. rewrite !VirtAddr_from_eq. unfold kstack_vpn.
  replace (2 ^ 64 - 0x3000 - i * 0x3000) with ((2 ^ 27 - 3 - 3 * i) * 4096 + 33554431 * 2 ^ 39) by lia.
  replace (2 ^ 64 - 0x1000 - i * 0x3000) with
    ((2 ^ 27 - 3 - 3 * i) * 4096 + 0x2000 + 33554431 * 2 ^ 39) by lia.
  rewrite !Z.mod_add, !Z.mod_small by lia. split; [done|]. split; [done|].
  unfold VirtPageNum_of_VirtAddr. rewrite page_offset_eq, Z.mod_mul by lia. cbn [Z.eqb assert_].
  mstep. unfold floor. change PAGE_SIZE with 4096. by rewrite Z.div_mul by lia.
Qed.

Lemma kstack_pages i :
  0 ≤ i < 2 ^ 24 →
  floor (kstack_vpn i * 4096) = kstack_vpn i ∧ ceil (kstack_vpn i * 4096 + 0x2000) = kstack_vpn i + 2.
Proof. intros Hi. apply (aligned_pages _ 2); unfold kstack_vpn; lia. Qed.

Lemma kstack_vpns i : 0 ≤ i < 2 ^ 24 → area_vpns (kstack_area i) = [kstack_vpn i; kstack_vpn i + 1].
Proof.
  intros Hi. unfold area_vpns, vpns_of, kstack_area, framed_area. cbn [vpn_range range_l range_r].
  destruct (kstack_pages i Hi) as [-> ->]. replace (kstack_vpn i + 2 - kstack_vpn i) with 2 by lia.
  unfold seqZ. change (Z.to_nat 2) with 2%nat. cbn [seq fmap list_fmap]. do 2 (f_equal; try lia).
Qed.

Definition kstack_free (nu : gmap Z Z) (i : Z) : Prop :=
  ∀ v, kstack_vpn i ≤ v < kstack_vpn i + 2 → nu !! v = None.

Lemma kstack_alloc_run start w mu nu i ra :
  world_ok start w mu nu → RA_alloc (kstack_allocator w) = (i, ra) → 0 ≤ i < 2 ^ 24 → kstack_free nu i →
  (6 ≤ nfree (frames (memory w)))%nat →
  ∃ q1 q2 fr s', let ks := pushed (kernel_space w) (kstack_area i) [q1; q2] fr in
    let w' := mkWorld (memory_set w) (task_res_allocator w) ks ra s' in
    kstack_alloc w = Ok (i, w') ∧ world_ok start w' mu (pushed_map nu (kstack_area i) [q1; q2]) ∧
    grows start (pt_frames (page_table (kernel_space w))) (memory w) s' ([q1; q2] ++ fr).
Proof.
  intros [Hu Hk Hsep] Ea Hi Hfree Hn. destruct (kstack_va i Hi) as (E1 & E2 & _).
  destruct (kstack_pages i Hi) as [Ef Ec].
  destruct (insert_run start (memory w) (kernel_space w) nu (kstack_vpn i * 4096) (kstack_vpn i * 4096 + 0x2000)
    (Z.lor MapPermission_R MapPermission_W)) as (ps & s' & fr & E & Hl & _ & Hk' & Hg & _);
    [done|unfold kstack_vpn; lia|unfold kstack_vpn; lia|by split|rewrite Ef, Ec; lia|by rewrite Ef, Ec|].
  fold (kstack_area i) in *. pose proof Hl as Hl2. rewrite (kstack_vpns i Hi) in Hl2.
  destruct ps as [|q1 [|q2 [|? ?]]]; try discriminate Hl2.
  exists q1, q2, fr, s'. split.
  { unfold kstack_alloc, kstack_id_alloc, on_kernel_space. mstep. rewrite Ea.
    destruct (kernel_stack_position i) as [bot top]. cbn [fst snd] in E1, E2. rewrite E1, E2.
    cbn [kernel_space memory]. by rewrite E. }
  split; [|done]. destruct (pushed_own (kernel_space w) (kstack_area i) [q1; q2] fr Hl) as [Ho _]; [done|done|].
  split; cbn [memory memory_set kernel_space]; [|done|].
  - eapply space_ok_grows; [done..|]. intros p Hp Hp'. apply (Hsep p); by apply own_table.
  - intros p Hp. rewrite Ho. intros [Hp'|Hp']%elem_of_app; [by apply (Hsep p)|].
    apply (gr_fresh _ _ _ _ _ Hg) in Hp' as [_ Hp']. by apply Hp', (so_used _ _ _ _ Hu).
Qed.

(** Removing the first area that starts at page [v]; what is left of it. *)
Definition area_gone (start v : Z) (ms ms' : MemorySet) (s s' : kmem) (mu mu' : gmap Z Z) : Prop :=
  page_table ms' = page_table ms ∧
  match list_find (λ a, range_l (vpn_range a) = v) (areas ms) with
  | Some (j, a) =>
      areas ms' = delete j (areas ms) ∧ mu' = removed (area_vpns a) mu ∧
      ∀ p, in_use start (frames s') p ↔ (p ∉ area_frames a) ∧ in_use start (frames s) p
  | None => areas ms' = areas ms ∧ mu' = mu ∧ s' = s
  end.

(** Dropping the stack [i]. *)
Definition kstack_gone (start : Z) (i : Z) (w w' : world) (nu nu' : gmap Z Z) : Prop :=
  area_gone start (kstack_vpn i) (kernel_space w) (kernel_space w') (memory w) (memory w') nu nu'.

Lemma data_delete j a pt l p :
  l !! j = Some a → p ∈ own (mkMS pt (delete j l)) ∨ p ∈ area_frames a → p ∈ own (mkMS pt l).
Proof.
  intros Hj. unfold own, data_of. cbn [page_table areas]. rewrite !elem_of_app, !list_elem_of_bind.
  intros [[?|(b & Hb & Hin)]|Hp]; [by left|right..].
  - exists b. split; [done|]. by apply (sublist_subseteq _ _ (sublist_delete l j)).
  - exists a. split; [done|]. by eapply list_elem_of_lookup_2.
Qed.

Lemma remove_any_run start v s ms mu :
  space_ok start s ms mu →
  ∃ ms' s' mu' fr, remove_area_with_start_vpn ms v s = Ok (ms', s') ∧ space_ok start s' ms' mu' ∧
    area_gone start v ms ms' s s' mu mu' ∧ shrinks start (pt_frames (page_table ms)) s s' fr ∧
    ∀ p, p ∈ own ms' ∨ p ∈ fr → p ∈ own ms.
Proof.
  intros Hs. unfold area_gone, remove_area_with_start_vpn. destruct (list_find _ _) as [[j a]|] eqn:Ef.
  - apply list_find_Some in Ef as (Hj & _ & _).
    destruct (remove_run start s ms mu Hs j a Hj) as (s' & E & Hs' & Hsh).
    do 4 eexists. split; [exact E|]. split; [done|]. split; [|split; [exact Hsh|]].
    + split; [done|]. split; [done|]. split; [done|]. apply Hsh.
    + intros p. destruct ms as [pt l]. by apply data_delete.
  - exists ms, s, mu, []. split; [done|]. split; [done|]. split; [done|].
    split; [apply shrinks_refl, Hs|]. intros p [?|?%not_elem_of_nil]; done.
Qed.

(** One space loses an area; the other one is as before. *)
Lemma sep_shrinks start s s' fr ms ms' ms2 mu2 :
  (∀ p, p ∈ own ms → p ∉ own ms2) → shrinks start (pt_frames (page_table ms)) s s' fr →
  (∀ p, p ∈ own ms' ∨ p ∈ fr → p ∈ own ms) → space_ok start s ms2 mu2 →
  space_ok start s' ms2 mu2 ∧ ∀ p, p ∈ own ms' → p ∉ own ms2.
Proof.
  intros Hsep Hsh Hown Hs. split; [|intros p Hp; apply Hsep; auto].
  eapply space_ok_shrinks; [done..|]. intros p Hp. split; intros Hp'; apply (Hsep p); auto using own_table.
Qed.

Lemma KernelStack_drop_run start w mu nu kpeak klive i :
  world_ok start w mu nu → ra_inv kpeak klive (kstack_allocator w) → i ∈ klive → 0 ≤ i < 2 ^ 24 →
  ∃ w' nu', KernelStack_drop i w = Ok (tt, w') ∧ world_ok start w' mu nu' ∧
    ra_inv kpeak (klive ∖ {[i]}) (kstack_allocator w') ∧
    memory_set w' = memory_set w ∧ task_res_allocator w' = task_res_allocator w ∧
    kstack_gone start i w w' nu nu'.
Proof.
  intros [Hu Hk Hsep] Hra Hin Hi. destruct (kstack_va i Hi) as (E1 & _ & Ev).
  destruct (ra_inv_dealloc _ _ _ i Hra) as [Hd _]; [lia|]. destruct (Hd Hin) as (ra & Ed & Hra').
  destruct (remove_any_run start (kstack_vpn i) _ _ nu Hk) as (ks & s' & nu' & fr & E & Hk' & Hgone & Hsh & Hown).
  destruct (sep_shrinks start _ _ fr _ ks (memory_set w) mu (λ p H1 H2, Hsep p H2 H1) Hsh Hown Hu) as [Hu' Hsep'].
  exists (mkWorld (memory_set w) (task_res_allocator w) ks ra s'), nu'. split; [|split; [split|]; try done].
  - unfold KernelStack_drop, kstack_id_dealloc, on_kernel_space.
    destruct (kernel_stack_position i) as [bot top]. cbn [fst] in E1. rewrite E1, Ev. mstep. rewrite E.
    cbn [kstack_allocator]. by rewrite Ed.
  - intros p Hp Hp'. by apply (Hsep' p).
Qed.

(** ** Dropping the resources of a thread *)

Lemma user_remove_run start v w mu nu :
  world_ok start w mu nu →
  ∃ ms' s' mu', remove_area_with_start_vpn (memory_set w) v (memory w) = Ok (ms', s') ∧
    world_ok start (with_user ms' s' w) mu' nu ∧ area_gone start v (memory_set w) ms' (memory w) s' mu mu'.
Proof.
  intros [Hu Hk Hsep].
  destruct (remove_any_run start v _ _ mu Hu) as (ms' & s' & mu' & fr & E & Hu' & Hgone & Hsh & Hown).
  destruct (sep_shrinks start _ _ fr _ ms' (kernel_space w) nu Hsep Hsh Hown Hk) as [Hk' Hsep'].
  exists ms', s', mu'. by repeat (split; [done|]).
Qed.

(** The stack and then the trap context of [r] go. *)
Definition res_gone (start : Z) (r : TaskUserRes) (w w' : world) (mu mu' : gmap Z Z) : Prop :=
  ∃ ms1 s1 mu1, area_gone start (stack_vpn r) (memory_set w) ms1 (memory w) s1 mu mu1 ∧
    area_gone start (trap_vpn r) ms1 (memory_set w') s1 (memory w') mu1 mu'.

Lemma TaskUserRes_drop_run start w mu nu r peak live :
  world_ok start w mu nu → res_ok r → ra_inv peak live (task_res_allocator w) → tid r ∈ live →
  ∃ w' mu', TaskUserRes_drop r w = Ok (tt, w') ∧ world_ok start w' mu' nu ∧ res_gone start r w w' mu mu' ∧
    ra_inv peak (live ∖ {[tid r]}) (task_res_allocator w') ∧ (RA_alloc (task_res_allocator w')).1 = tid r ∧
    kernel_space w' = kernel_space w ∧ kstack_allocator w' = kstack_allocator w.
Proof.
  intros Hw Hr Hra Hin. destruct (stack_va r Hr) as (Es & _ & Ev & _). destruct (trap_va r Hr) as (Et & _ & Ev' & _).
  destruct (ra_inv_dealloc _ _ _ (tid r) Hra) as [Hd _]; [apply Hr|]. destruct (Hd Hin) as (ra & Ed & Hra').
  set (w0 := mkWorld (memory_set w) ra (kernel_space w) (kstack_allocator w) (memory w)).
  destruct (user_remove_run start (stack_vpn r) w0 mu nu) as (ms1 & s1 & mu1 & E1 & Hw1 & H1); [by destruct Hw|].
  destruct (user_remove_run start (trap_vpn r) (with_user ms1 s1 w0) mu1 nu Hw1) as (ms2 & s2 & mu2 & E2 & Hw2 & H2).
  exists (with_user ms2 s2 w0), mu2. split.
  { unfold TaskUserRes_drop, dealloc_tid, dealloc_user_res, on_user_, on_user. mstep. rewrite Ed, Es, Ev, Et, Ev'.
    cbn [memory_set memory w0 with_user] in *. rewrite E1. cbn [memory_set memory]. rewrite E2. reflexivity. }
  split; [done|]. split; [by exists ms1, s1, mu1|]. split; [done|]. split; [by eapply RA_dealloc_alloc|done].
Qed.

(** ** The control block of a new thread *)

(** The stack and the trap context of [r] are mapped, and nothing else is new. *)
Definition thread_mapped (r : TaskUserRes) (mu mu' : gmap Z Z) (p1 p2 p3 : Z) : Prop :=
  mu' !! stack_vpn r = Some (pte_for (2 + 4 + 16) p1) ∧
  mu' !! (stack_vpn r + 1) = Some (pte_for (2 + 4 + 16) p2) ∧
  mu' !! trap_vpn r = Some (pte_for (2 + 4) p3) ∧
  ∀ v, (v ∉ [stack_vpn r; stack_vpn r + 1; trap_vpn r]) → mu' !! v = mu !! v.

(** What a thread with the resources [r] and the kernel stack [i] needs. *)
Record room_for (start : Z) (w : world) (mu nu : gmap Z Z) (r : TaskUserRes) (i : Z) : Prop := {
  rf_world : world_ok start w mu nu;
  rf_res : res_ok r;
  rf_place : can_place (memory_set w) mu r;
  rf_tid : (RA_alloc (task_res_allocator w)).1 = tid r;
  rf_kstack : (RA_alloc (kstack_allocator w)).1 = i;
  rf_kbound : 0 ≤ i < 2 ^ 24;
  rf_kfree : kstack_free nu i;
  rf_free : (15 ≤ nfree (frames (memory w)))%nat;
}.

Section create.
Context (start : Z) (w : world) (mu nu : gmap Z Z) (r : TaskUserRes) (i : Z).
Context (Hroom : room_for start w mu nu r i).

Lemma user_res_new_run :
  ∃ w' mu' p1 p2 p3, TaskUserRes_new (ustack_base r) true w = Ok (r, w') ∧ world_ok start w' mu' nu ∧
    thread_mapped r mu mu' p1 p2 p3 ∧ trap_cx_ppn r w' = Ok (p3, w') ∧ p3 ∈ data_of (memory_set w') ∧
    task_res_allocator w' = (RA_alloc (task_res_allocator w)).2 ∧
    kernel_space w' = kernel_space w ∧ kstack_allocator w' = kstack_allocator w ∧
    (6 ≤ nfree (frames (memory w')))%nat.
Proof.
  destruct Hroom as [[Hu Hk Hsep] Hr Hplace Ht _ _ _ Hn].
  destruct (RA_alloc (task_res_allocator w)) as [t ra] eqn:Ea. cbn [fst snd] in *.
  set (w0 := mkWorld (memory_set w) ra (kernel_space w) (kstack_allocator w) (memory w)).
  destruct (alloc_user_res_run start w0 mu r Hr Hu Hplace ltac:(cbn [w0 memory]; lia))
    as (p1 & p2 & p3 & s' & fr1 & fr2 & E & Hs' & Hg & Hlen).
  set (ms' := pushed _ (trap_area r) [p3] fr2) in *. set (mu' := pushed_map _ (trap_area r) [p3]) in *.
  pose proof (gr_free _ _ _ _ _ Hg) as Hf. rewrite !length_app in Hf. cbn [length memory w0] in Hf.
  destruct (pushed_own (pushed (memory_set w) (stack_area r) [p1; p2] fr1) (trap_area r) [p3] fr2) as [Ho Hd];
    [by rewrite (trap_vpns r Hr)|done|done|].
  destruct (pushed_own (memory_set w) (stack_area r) [p1; p2] fr1) as [Ho1 _]; [by rewrite (stack_vpns r Hr)|done|done|].
  assert (Hp3 : p3 ∈ data_of ms') by (apply Hd, list_elem_of_here).
  assert (Hp3' : 0 ≤ p3 < 2 ^ 44).
  { destruct (used_page start s' p3) as [? _]; [apply Hg| |done].
    apply (so_used _ _ _ _ Hs'), elem_of_app. by right. }
  assert (Hm : thread_mapped r mu mu' p1 p2 p3) by (by apply placed_lookup).
  exists (with_user ms' s' w0), mu', p1, p2, p3. split.
  { unfold TaskUserRes_new, alloc_tid. mstep. rewrite Ea, Ht. destruct r as [t' b]. cbn [tid ustack_base] in *.
    rewrite <- Ht in *. fold w0. by rewrite E. }
  split; [|split; [done|]; split; [|split; [done|]; split; [done|]; split; [done|]; split; [done|]]].
  - split; cbn [memory memory_set kernel_space with_user w0]; [done| |].
    + eapply space_ok_grows; [done..|]. intros p Hp Hp'. by apply (Hsep p); apply own_table.
    + intros p Hp. unfold ms', w0 in Hp. cbn [memory_set] in Hp. rewrite Ho, Ho1 in Hp. intros Hp'.
      assert (in_use start (frames (memory w)) p) by (by apply (so_used _ _ _ _ Hk)).
      rewrite !elem_of_app in Hp. pose proof (gr_fresh _ _ _ _ _ Hg p) as Hfresh. rewrite !elem_of_app in Hfresh.
      cbn [taken map_type stack_area trap_area framed_area] in Hp. specialize (Hsep p). cbn [memory w0] in Hfresh. tauto.
  - apply (trap_cx_ppn_run start (with_user ms' s' w0) mu' r (2 + 4) p3); [done..|apply Hm|done|done].
  - cbn [memory with_user]. lia.
Qed.

Lemma TaskControlBlock_new_run :
  ∃ w' mu' p1 p2 p3 q1 q2 fr,
    let nu' := pushed_map nu (kstack_area i) [q1; q2] in
    TaskControlBlock_new (ustack_base r) true w = Ok (mkTCB i (Some r) p3 None, w') ∧
    world_ok start w' mu' nu' ∧ thread_mapped r mu mu' p1 p2 p3 ∧ p3 ∈ data_of (memory_set w') ∧
    task_res_allocator w' = (RA_alloc (task_res_allocator w)).2 ∧
    kernel_space w' = pushed (kernel_space w) (kstack_area i) [q1; q2] fr ∧
    kstack_allocator w' = (RA_alloc (kstack_allocator w)).2.
Proof.
  destruct user_res_new_run as (w1 & mu' & p1 & p2 & p3 & E1 & Hw1 & Hm & Ep & Hd & Era & Eks & Eka & Hn).
  destruct Hroom as [_ _ _ _ Hi Hib Hkf _].
  destruct (RA_alloc (kstack_allocator w)) as [j kra] eqn:Ea. cbn [fst snd] in *. subst j.
  destruct (kstack_alloc_run start w1 mu' nu i kra Hw1) as (q1 & q2 & fr & s' & E2 & Hw2 & _); [congruence|done..|].
  rewrite Eks in *. do 8 eexists. split.
  { unfold TaskControlBlock_new. mstep. rewrite E1. mstep. rewrite Ep, E2. reflexivity. }
  cbn [memory_set task_res_allocator kernel_space kstack_allocator]. eauto 10.
Qed.
End create.

(** ** The trap context *)

Lemma TrapContext_bytes_length cx : length (regs cx) = 32%nat → length (TrapContext_bytes cx) = 296%nat.
Proof.
  intros Hl. unfold TrapContext_bytes. assert (H : ∀ l, length (l ≫= le_put 8) = (8 * length l)%nat).
  { induction l as [|z l IH]; [done|]. cbn [mbind list_bind]. rewrite length_app, length_le_put.
    cbn [mbind] in IH. rewrite IH. cbn [length]. lia. }
  rewrite H, length_app, Hl. cbn [length]. lia.
Qed.
Lemma TrapContext_bytes_bytes cx : bytes (TrapContext_bytes cx).
Proof.
  unfold TrapContext_bytes. induction (regs cx ++ _) as [|z l IH]; [constructor|].
  cbn [mbind list_bind]. apply Forall_app. split; [apply le_put_bytes|exact IH].
Qed.

(** Writing a page of data keeps both spaces. *)
Lemma write_trap_cx_run start w mu nu p cx :
  world_ok start w mu nu → p ∈ data_of (memory_set w) → length (regs cx) = 32%nat →
  ∃ s' page, write_trap_cx p cx w =
      Ok (tt, mkWorld (memory_set w) (task_res_allocator w) (kernel_space w) (kstack_allocator w) s') ∧
    world_ok start (mkWorld (memory_set w) (task_res_allocator w) (kernel_space w) (kstack_allocator w) s') mu nu ∧
    mem s' !! p = Some page ∧ take 296 page = TrapContext_bytes cx ∧
    (∀ q, q ≠ p → mem s' !! q = mem (memory w) !! q) ∧ frames s' = frames (memory w).
Proof.
  intros [Hu Hk Hsep] Hp Hcx. pose proof (TrapContext_bytes_length cx Hcx) as Hl.
  assert (Hown : p ∈ own (memory_set w)) by (apply elem_of_app; by right).
  assert (Hkm : kmem_wf start (memory w)) by apply Hu.
  destruct (used_page start (memory w) p Hkm) as (_ & page & Em & Hpl & Hpb); [by apply (so_used _ _ _ _ Hu)|].
  assert (Hsl : length (splice 0 (TrapContext_bytes cx) page) = 4096%nat) by (rewrite length_splice; lia).
  pose proof (grows_write start (memory w) p _ Hkm Hsl
    (bytes_splice _ _ _ (TrapContext_bytes_bytes cx) Hpb)) as Hg.
  do 2 eexists. split.
  { unfold write_trap_cx, set_bytes_array. mstep. rewrite (get_bytes_array_run _ _ page Em). reflexivity. }
  split; [split|]; cbn [memory memory_set kernel_space mem].
  - eapply space_ok_grows; [done..|]. intros q Hq ->%list_elem_of_singleton.
    pose proof (so_own _ _ _ _ Hu) as Hnd. apply NoDup_app in Hnd as (_ & Hnd & _). by apply (Hnd p).
  - eapply space_ok_grows; [done..|]. intros q Hq ->%list_elem_of_singleton. by apply (Hsep p), own_table.
  - done.
  - split; [apply lookup_insert_eq|]. split; [|split; [intros q Hq; by apply lookup_insert_ne|done]].
    rewrite <- Hl. unfold splice. rewrite take_0. cbn [app]. apply take_app_length.
Qed.

(** ** The threads of a process *)

(** Numbers stay below 2^24; more stacks do not fit the address space. *)
Definition ids_ok (live : gset Z) (ra : RecycleAllocator) : Prop := ra_inv (2 ^ 24) live ra.

Lemma ids_alloc live ra id ra' :
  ids_ok live ra → RA_alloc ra = (id, ra') → id < 2 ^ 24 →
  (id ∉ live) ∧ 0 ≤ id ∧ ids_ok ({[id]} ∪ live) ra'.
Proof.
  intros Hinv E Hid. destruct (ra_inv_alloc _ _ _ _ _ Hinv ltac:(lia) E) as (Hn & Hb & Hinv').
  split; [done|]. split; [lia|]. destruct Hinv' as (Hc & Hrest). split; [|done]. split; [lia|].
  destruct Hinv as ([? ?] & _). unfold RA_alloc in E. destruct (pop _) as [[x l]|]; injection E as <- <-; [done|].
  cbn [ra_current] in *. rewrite (u64_small (ra_current ra + 1)) in * by lia.
  rewrite u64_small in Hid by lia. lia.
Qed.

Lemma ids_dealloc live ra id :
  ids_ok live ra → id ∈ live → ∃ ra', RA_dealloc ra id = Ok ra' ∧ ids_ok (live ∖ {[id]}) ra'.
Proof.
  intros Hinv Hin. assert (0 ≤ id) by (apply Hinv in Hin; lia).
  destruct (ra_inv_dealloc _ _ _ id Hinv) as [Hd _]; [done|]. by apply Hd.
Qed.

Lemma ids_bound live ra id : ids_ok live ra → id ∈ live → 0 ≤ id < 2 ^ 24.
Proof. intros (Hc & _ & _ & Hl) Hin. apply Hl in Hin. lia. Qed.

Definition slot (s : tsys) (k t : Z) : Prop := tasks (t_proc s) !! Z.to_nat k = Some (Some t) ∧ 0 ≤ k.
Definition block (s : tsys) (t : Z) (b : TaskControlBlock) : Prop := t_tcbs s !! Z.to_nat t = Some b ∧ 0 ≤ t.

(** The numbers of the threads that have not exited are [live], the numbers of
    the kernel stacks of the threads that have a slot are in [klive]. *)
Record threads_ok (start : Z) (s : tsys) (mu nu : gmap Z Z) (live klive : gset Z) : Prop := {
  th_world : world_ok start (t_world s) mu nu;
  th_tids : ids_ok live (task_res_allocator (t_world s));
  th_kids : ids_ok klive (kstack_allocator (t_world s));
  th_slot k t : slot s k t → ∃ b, block s t b ∧ kstack b ∈ klive;
  th_kstacks k k' t t' b b' :
    slot s k t → slot s k' t' → block s t b → block s t' b' → kstack b = kstack b' → k = k';
  th_running t b r : block s t b → res b = Some r →
    tid r ∈ live ∧ slot s (tid r) t ∧ exit_code b = None ∧ res_ok r;
  th_exited t b : block s t b → res b = None → is_Some (exit_code b);
}.

Lemma current_res_run s c b r :
  current (t_kern s) = Some c → block s c b → res b = Some r → current_res s = Ok (r, s).
Proof.
  intros Hc [Hb _] Hr. unfold current_res, in_kernel, current_task, get_tcb. mstep. rewrite Hc.
  cbn [unwrap t_tcbs]. rewrite Hb. cbn [unwrap]. rewrite Hr. cbn [unwrap]. by destruct s.
Qed.

Lemma get_tcb_run s t b : block s t b → get_tcb t s = Ok (b, s).
Proof. intros [Hb _]. unfold get_tcb. mstep. by rewrite Hb. Qed.

(** A slot whose number is not in use holds a thread that has exited. *)
Lemma stale_slot start s mu nu live klive k t b :
  threads_ok start s mu nu live klive → slot s k t → block s t b → k ∉ live →
  res b = None ∧ is_Some (exit_code b).
Proof.
  intros Hth Hs Hb Hk. destruct (res b) as [r|] eqn:Er; [|split; [done|]; by eapply th_exited].
  destruct (th_running _ _ _ _ _ _ Hth t b r Hb Er) as (Hl & Hs' & _).
  by rewrite (th_kstacks _ _ _ _ _ _ Hth k (tid r) t t b b Hs Hs' Hb Hb eq_refl) in Hk.
Qed.

(** ** Giving up a slot *)

(** Clearing a slot with [old] frees the kernel stack of the thread it held. *)
Definition released (start : Z) (s : tsys) (old : option Z) (w' : world) (nu nu' : gmap Z Z)
    (klive klive' : gset Z) : Prop :=
  match old with
  | None => w' = t_world s ∧ nu' = nu ∧ klive' = klive
  | Some t => ∃ b, block s t b ∧ kstack_gone start (kstack b) (t_world s) w' nu nu' ∧
      klive' = klive ∖ {[kstack b]}
  end.

Lemma release_run start s old mu nu klive :
  world_ok start (t_world s) mu nu → ids_ok klive (kstack_allocator (t_world s)) →
  (∀ t, old = Some t → ∃ b, block s t b ∧ is_Some (exit_code b) ∧ kstack b ∈ klive) →
  ∃ w' nu' klive', release_slot old s = Ok (tt, mkTsys (t_proc s) (t_kern s) w' (t_tcbs s)) ∧
    world_ok start w' mu nu' ∧ ids_ok klive' (kstack_allocator w') ∧
    memory_set w' = memory_set (t_world s) ∧ task_res_allocator w' = task_res_allocator (t_world s) ∧
    released start s old w' nu nu' klive klive'.
Proof.
  intros Hw Hk Hold. destruct old as [t|]; cbn [release_slot].
  - destruct (Hold t eq_refl) as (b & Hb & [code Hc] & Hin).
    destruct (KernelStack_drop_run start (t_world s) mu nu _ klive (kstack b) Hw Hk Hin) as
      (w' & nu' & E & Hw' & Hk' & Em & Et & Hg); [by eapply ids_bound|].
    exists w', nu', (klive ∖ {[kstack b]}). mstep. rewrite (get_tcb_run s t b Hb), Hc.
    unfold in_world. rewrite E. split; [done|]. do 4 (split; [done|]). by exists b.
  - exists (t_world s), nu, klive. split; [by destruct s|]. by do 4 (split; [done|]).
Qed.

(** ** The list of threads *)

Lemma grow_tasks_length k p : 0 ≤ k < 2 ^ 24 → (Z.to_nat k < length (tasks (grow_tasks (k +ᵤ 1) p)))%nat.
Proof.
  intros Hk. rewrite u64_small by lia. unfold grow_tasks. cbn [tasks]. rewrite length_app, length_replicate. lia.
Qed.

Lemma grow_tasks_lookup n p j t :
  tasks (grow_tasks n p) !! j = Some (Some t) ↔ tasks p !! j = Some (Some t).
Proof.
  unfold grow_tasks. cbn [tasks]. rewrite lookup_app. destruct (tasks p !! j) as [o|] eqn:E; [done|].
  rewrite lookup_replicate. split; [intros [? _]; congruence|done].
Qed.

Lemma set_slot (l : list (option Z)) k k' t o :
  0 ≤ k → 0 ≤ k' → (Z.to_nat k < length l)%nat →
  <[Z.to_nat k := o]> l !! Z.to_nat k' = Some (Some t) ↔
    k' = k ∧ o = Some t ∨ k' ≠ k ∧ l !! Z.to_nat k' = Some (Some t).
Proof.
  intros Hk Hk' Hl. rewrite list_lookup_insert_Some. split.
  - intros [(? & -> & _)|[? ?]]; [left; split; [lia|done]|right; split; [congruence|done]].
  - intros [[-> ->]|[? ?]]; [by left|right; split; [lia|done]].
Qed.

(** ** Creating a thread *)

(** The context a new thread starts with. *)
Definition start_context (user_sstatus handler entry arg : Z) (ks : MemorySet) (r : TaskUserRes) (i : Z) : TrapContext :=
  let top := ustack_top (ustack_base r) (tid r) in
  mkTrapContext (<[10%nat := arg]> (<[2%nat := top]> (replicate 32 0))) user_sstatus entry
    (MemorySet_token ks) (KernelStack_get_top i) handler.

(** The state when the list of threads has got the new one. *)
Definition with_thread (s : tsys) (k : Z) (b : TaskControlBlock) (w : world) : tsys :=
  let new := Z.of_nat (length (t_tcbs s)) in
  let p := grow_tasks (k +ᵤ 1) (t_proc s) in
  mkTsys (set_tasks (<[Z.to_nat k := Some new]> (tasks p)) p)
    (set_ready (ready_queue (t_kern s) ++ [new]) (set_status new Ready (t_kern s))) w (t_tcbs s ++ [b]).

Section with_thread.
Context (s : tsys) (b : TaskControlBlock) (r : TaskUserRes) (w : world) (Hr : res_ok r).
Let Hk : 0 ≤ tid r < 2 ^ 24 := ro_tid _ Hr.
Let k := tid r.
Let s' := with_thread s k b w.
Let new := Z.of_nat (length (t_tcbs s)).

Lemma with_thread_slot k' t : slot s' k' t ↔ k' = k ∧ t = new ∨ k' ≠ k ∧ slot s k' t.
Proof.
  unfold slot, s', with_thread, set_tasks. cbn [t_proc tasks]. pose proof (grow_tasks_length k (t_proc s) Hk) as Hl.
  destruct (decide (0 ≤ k')) as [H0|]; [|unfold k in *; naive_solver lia].
  rewrite set_slot by (done || unfold k; lia). rewrite grow_tasks_lookup. unfold k, new. naive_solver lia.
Qed.

Lemma with_thread_block t c : block s' t c ↔ t = new ∧ c = b ∨ block s t c.
Proof.
  unfold block, s', with_thread, new. cbn [t_tcbs]. rewrite lookup_app. split.
  - intros [E H0]. destruct (t_tcbs s !! Z.to_nat t) as [d|] eqn:Ed; [right; by simplify_eq|left].
    apply lookup_ge_None in Ed. apply list_lookup_singleton_Some in E as [? ->]. split; [lia|done].
  - intros [[-> ->]|[-> ?]]; [|done]. rewrite (proj2 (lookup_ge_None _ _)) by lia.
    rewrite Nat2Z.id, Nat.sub_diag. split; [done|lia].
Qed.

Lemma block_new c : ¬ block s new c.
Proof. intros [E%lookup_lt_Some _]. unfold new in E. lia. Qed.

(** The thread that a new one displaces has exited; its stack is given up. *)
Definition displaced : option Z := tasks (grow_tasks (k +ᵤ 1) (t_proc s)) !!! Z.to_nat k.

Lemma displaced_slot t : displaced = Some t ↔ slot s k t.
Proof.
  unfold displaced, slot. rewrite <- (grow_tasks_lookup (k +ᵤ 1)). pose proof (grow_tasks_length k (t_proc s) Hk) as Hl.
  apply list_lookup_lookup_total_lt in Hl. rewrite Hl. split; [intros ->; split; [done|unfold k; lia]|by intros [[= ?] _]].
Qed.

Context (start : Z) (mu nu : gmap Z Z) (live klive : gset Z).
Context (Hth : threads_ok start s mu nu live klive) (Hb : res b = Some r) (Hc : exit_code b = None).
Context (Hfresh : (tid r ∉ live) ∧ kstack b ∉ klive).

Lemma threads_ok_with_thread mu' nu' klive' :
  world_ok start w mu' nu' → ids_ok ({[k]} ∪ live) (task_res_allocator w) → ids_ok klive' (kstack_allocator w) →
  (∀ i, i ∈ klive' ↔ (i = kstack b ∨ i ∈ klive) ∧ ∀ t c, slot s k t → block s t c → i ≠ kstack c) →
  threads_ok start s' mu' nu' ({[k]} ∪ live) klive'.
Proof.
  intros Hw Hids Hkids Hkl. destruct Hfresh as [Hf Hkf].
  assert (Hnew : ∀ t c, slot s k t → block s t c → kstack b ≠ kstack c).
  { intros t c Hs Hc' E. destruct (th_slot _ _ _ _ _ _ Hth k t Hs) as (d & Hd & Hin).
    destruct Hd as [Hd _], Hc' as [Hc' _]. simplify_eq. by rewrite E in Hkf. }
  split; [done|done|done|..].
  - intros k' t [[-> ->]|[Hne Hs]]%with_thread_slot.
    + exists b. rewrite with_thread_block, Hkl. split; [by left|]. split; [by left|]. intros. by eapply Hnew.
    + destruct (th_slot _ _ _ _ _ _ Hth k' t Hs) as (c & Hbc & Hin). exists c.
      rewrite with_thread_block, Hkl. split; [by right|]. split; [by right|]. intros t' c' Hs' Hc' E.
      apply Hne. by eapply (th_kstacks _ _ _ _ _ _ Hth).
  - intros k1 k2 t1 t2 b1 b2 H1%with_thread_slot H2%with_thread_slot B1%with_thread_block B2%with_thread_block E.
    assert (Hold : ∀ k' t c, slot s k' t → block s t c → kstack c ≠ kstack b).
    { intros k' t c Hs Hc' E'. destruct (th_slot _ _ _ _ _ _ Hth k' t Hs) as (d & [Hd _] & Hin).
      destruct Hc' as [Hc' _]. simplify_eq. by rewrite E' in Hin. }
    destruct H1 as [[-> ->]|[? H1]], H2 as [[-> ->]|[? H2]]; [done|..].
    + destruct B1 as [[_ ->]|B1]; [|by apply block_new in B1].
      destruct B2 as [[-> ->]|B2]; [|by eapply Hold in B2; [|done]].
      destruct (th_slot _ _ _ _ _ _ Hth _ _ H2) as (d & Hd & _). by apply block_new in Hd.
    + destruct B2 as [[_ ->]|B2]; [|by apply block_new in B2].
      destruct B1 as [[-> ->]|B1]; [|by eapply Hold in B1; [|done]].
      destruct (th_slot _ _ _ _ _ _ Hth _ _ H1) as (d & Hd & _). by apply block_new in Hd.
    + assert (∀ k t, slot s k t → t ≠ new) as Hn.
      { intros k3 t3 Hs ->. destruct (th_slot _ _ _ _ _ _ Hth _ _ Hs) as (d & Hd & _). by apply block_new in Hd. }
      destruct B1 as [[-> _]|B1]; [by apply Hn in H1|]. destruct B2 as [[-> _]|B2]; [by apply Hn in H2|].
      by eapply (th_kstacks _ _ _ _ _ _ Hth).
  - intros t c q [[-> ->]|B]%with_thread_block Hq.
    + simplify_eq. split; [set_solver|]. split; [apply with_thread_slot; by left|done].
    + destruct (th_running _ _ _ _ _ _ Hth t c q B Hq) as (Hl & Hs & He). split; [set_solver|]. split; [|done].
      apply with_thread_slot. right. split; [|done]. intros E. by rewrite E in Hl.
  - intros t c [[-> ->]|B]%with_thread_block Hq; [congruence|]. by eapply th_exited.
Qed.
End with_thread.

Section thread_create_run.
Context (start : Z) (s : tsys) (mu nu : gmap Z Z) (live klive : gset Z) (c : Z) (b0 : TaskControlBlock).
Context (r0 r : TaskUserRes) (i user_sstatus handler entry arg : Z).
Context (Hth : threads_ok start s mu nu live klive).
Context (Hcur : current (t_kern s) = Some c) (Hb0 : block s c b0) (Hr0 : res b0 = Some r0).
Context (Hbase : ustack_base r = ustack_base r0) (Hroom : room_for start (t_world s) mu nu r i).

Let cx := start_context user_sstatus handler entry arg (kernel_space (t_world s)) r i.

(** The stack of the new thread is not part of the area that is given up. *)
Lemma kept_kstack v w1 w2 mu' q1 q2 fr nu2 j :
  kernel_space w1 = pushed (kernel_space (t_world s)) (kstack_area i) [q1; q2] fr →
  world_ok start w1 mu' (pushed_map nu (kstack_area i) [q1; q2]) →
  kstack_gone start j w1 w2 (pushed_map nu (kstack_area i) [q1; q2]) nu2 → j ≠ i → 0 ≤ j < 2 ^ 24 →
  v ∈ area_vpns (kstack_area i) → nu2 !! v = pushed_map nu (kstack_area i) [q1; q2] !! v.
Proof.
  intros Eks Hw1 [_ Hg] Hj Hjb Hv. pose proof (rf_kbound _ _ _ _ _ _ Hroom) as Hi. 
  destruct (list_find _ _) as [[n a]|] eqn:Ef; [|by destruct Hg as (_ & -> & _)].
  destruct Hg as (_ & -> & _). rewrite lookup_removed, decide_False; [done|]. intros Hva.
  apply list_find_Some in Ef as (Hn & Hstart & _). rewrite Eks in Hn. unfold pushed in Hn. cbn [areas] in Hn.
  apply list_elem_of_lookup_2, elem_of_app in Hn as [Ha|Ha%list_elem_of_singleton].
  - pose proof (wo_kernel _ _ _ _ (rf_world _ _ _ _ _ _ Hroom)) as Hks.
    destruct (area_mapped a v nu) as [x Hx]; [by eapply Forall_forall; [apply Hks|]|done|].
    rewrite (rf_kfree _ _ _ _ _ _ Hroom v) in Hx; [done|]. rewrite (kstack_vpns i Hi) in Hv. set_unfold in Hv. lia.
  - subst a. destruct (with_pages_same (zip (area_vpns (kstack_area i)) [q1; q2]) (kstack_area i)) as (Er & _).
    rewrite Er in Hstart. cbn [kstack_area framed_area vpn_range range_l] in Hstart.
    destruct (kstack_pages i Hi) as [Efl _]. rewrite Efl in Hstart. unfold kstack_vpn in Hstart. lia.
Qed.

(** The kernel stack of the thread in slot [k] is gone: its pages are not mapped, its
    frames are free. *)
Definition stack_lost (k : Z) (w : world) (nu' : gmap Z Z) : Prop :=
  ∀ t d j a, slot s k t → block s t d →
    list_find (λ a, range_l (vpn_range a) = kstack_vpn (kstack d)) (areas (kernel_space (t_world s))) = Some (j, a) →
    (∀ v, v ∈ area_vpns a → nu' !! v = None) ∧ ∀ p, p ∈ area_frames a → ¬ in_use start (frames (memory w)) p.

Lemma gone_stack_lost w1 w2 q1 q2 fr nu1 nu2 t d :
  kernel_space w1 = pushed (kernel_space (t_world s)) (kstack_area i) [q1; q2] fr →
  slot s (tid r) t → block s t d → kstack_gone start (kstack d) w1 w2 nu1 nu2 → stack_lost (tid r) w2 nu2.
Proof.
  intros Eks [Hs _] [Hd _] [_ Hg] t' d' j a [Hs' _] [Hd' _] Hf. simplify_eq. rewrite Eks in Hg. unfold pushed in Hg. cbn [areas] in Hg.
  rewrite (list_find_app_l _ _ _ _ _ Hf) in Hg. destruct Hg as (_ & -> & Hu). split.
  - intros v Hv. by rewrite lookup_removed, decide_True.
  - intros p Hp [Hn _]%Hu. done.
Qed.

(** What is left of the kernel's side when the displaced thread is gone. *)
Lemma released_facts w1 w2 mu' q1 q2 fr nu2 klive' p3 :
  world_ok start w1 mu' (pushed_map nu (kstack_area i) [q1; q2]) →
  kernel_space w1 = pushed (kernel_space (t_world s)) (kstack_area i) [q1; q2] fr →
  (i ∉ klive) → (tid r ∉ live) →
  released start (with_thread s (tid r) (mkTCB i (Some r) p3 None) w1) (displaced s r) w2
    (pushed_map nu (kstack_area i) [q1; q2]) nu2 ({[i]} ∪ klive) klive' →
  root_ppn (page_table (kernel_space w2)) = root_ppn (page_table (kernel_space (t_world s))) ∧
  (∀ x, x ∈ klive' ↔ (x = i ∨ x ∈ klive) ∧ ∀ t d, slot s (tid r) t → block s t d → x ≠ kstack d) ∧
  stack_lost (tid r) w2 nu2 ∧
  nu2 !! kstack_vpn i = Some (pte_for (2 + 4) q1) ∧ nu2 !! (kstack_vpn i + 1) = Some (pte_for (2 + 4) q2).
Proof.
  intros Hw1 Eks Hi Hf Hrel. pose proof (rf_kbound _ _ _ _ _ _ Hroom) as Hib. pose proof (kstack_vpns i Hib) as Hvp.
  pose proof (rf_res _ _ _ _ _ _ Hroom) as Hr.
  assert (Hold : ∀ n v q, [kstack_vpn i; kstack_vpn i + 1] !! n = Some v → [q1; q2] !! n = Some q →
    pushed_map nu (kstack_area i) [q1; q2] !! v = Some (pte_for (2 + 4) q)).
  { intros n v q Hn Hq. apply (pushed_map_new nu (kstack_area i) [q1; q2] n); by rewrite ?Hvp. }
  destruct (displaced s r) as [t|] eqn:Ed; cbn [released] in Hrel.
  - apply displaced_slot in Ed; [|done]. destruct Hrel as (d & Hbd & Hg & ->).
    destruct (th_slot _ _ _ _ _ _ Hth _ _ Ed) as (d' & Hd' & Hkd).
    apply with_thread_block in Hbd as [[-> ->]|Hbd]; [by apply block_new in Hd'|].
    assert (d' = d) as -> by (destruct Hbd, Hd'; congruence).
    assert (Hne : kstack d ≠ i) by (intros E; by rewrite E in Hkd).
    pose proof (ids_bound _ _ _ (th_kids _ _ _ _ _ _ Hth) Hkd) as Hkb.
    cbn [t_world with_thread] in Hg. split; [destruct Hg as [-> _]; by rewrite Eks|]. split.
    + intros x. split.
      * intros [Hx Hxd]%elem_of_difference. split; [set_solver|]. intros t' d2 Hs' Hb' ->.
        destruct Ed as [Ed _], Hs' as [Hs' _], Hb' as [Hb' _], Hbd as [Hbd _]. simplify_eq. set_solver.
      * intros [Hx Hne']. specialize (Hne' t d Ed Hbd). set_solver.
    + split; [by eapply gone_stack_lost|]. rewrite !(kept_kstack _ w1 w2 mu' q1 q2 fr nu2 (kstack d)) by (done || (rewrite Hvp; set_solver)).
      split; [by apply (Hold O)|by apply (Hold 1%nat)].
  - destruct Hrel as (-> & -> & ->). cbn [t_world with_thread]. split; [by rewrite Eks|].
    split; [|split; [|split; [by apply (Hold O)|by apply (Hold 1%nat)]]].
    + intros x. rewrite elem_of_union, elem_of_singleton. split; [intros Hx; split; [done|]|by intros [? _]].
      intros t d Hs. apply displaced_slot in Hs; [congruence|done].
    + intros t d j a Hs. apply displaced_slot in Hs; [congruence|done].
Qed.

Lemma thread_create_run :
  ∃ w' mu' nu' klive' p1 p2 p3 q1 q2 page,
    let s' := with_thread s (tid r) (mkTCB i (Some r) p3 None) w' in
    sys_thread_create user_sstatus handler entry arg s = Ok (tid r, s') ∧
    threads_ok start s' mu' nu' ({[tid r]} ∪ live) klive' ∧
    (∀ x, x ∈ klive' ↔ (x = i ∨ x ∈ klive) ∧ ∀ t d, slot s (tid r) t → block s t d → x ≠ kstack d) ∧
    stack_lost (tid r) w' nu' ∧
    thread_mapped r mu mu' p1 p2 p3 ∧
    mem (memory w') !! p3 = Some page ∧ take 296 page = TrapContext_bytes cx ∧
    nu' !! kstack_vpn i = Some (pte_for (2 + 4) q1) ∧ nu' !! (kstack_vpn i + 1) = Some (pte_for (2 + 4) q2).
Proof.
  destruct (TaskControlBlock_new_run start (t_world s) mu nu r i Hroom) as
    (w1 & mu' & p1 & p2 & p3 & q1 & q2 & fr & E1 & Hw1 & Hm & Hd & Et & Eks & Ek).
  pose proof (rf_res _ _ _ _ _ _ Hroom) as Hr. pose proof (ro_tid _ Hr) as Htid.
  pose proof (rf_kbound _ _ _ _ _ _ Hroom) as Hi.
  destruct (ids_alloc live (task_res_allocator (t_world s)) (tid r) (task_res_allocator w1)) as (Hf & _ & Hids);
    [apply Hth|rewrite Et, <- (rf_tid _ _ _ _ _ _ Hroom); apply surjective_pairing|lia|].
  destruct (ids_alloc klive (kstack_allocator (t_world s)) i (kstack_allocator w1)) as (Hkf & _ & Hkids);
    [apply Hth|rewrite Ek, <- (rf_kstack _ _ _ _ _ _ Hroom); apply surjective_pairing|lia|].
  set (b := mkTCB i (Some r) p3 None). set (s1 := with_thread s (tid r) b w1).
  pose proof (grow_tasks_length (tid r) (t_proc s) Htid) as Hlen.
  pose proof (list_lookup_lookup_total_lt _ _ Hlen) as Hold. fold (displaced s r) in Hold.
  assert (Hdis : ∀ t, displaced s r = Some t →
    ∃ d, block s1 t d ∧ is_Some (exit_code d) ∧ kstack d ∈ {[i]} ∪ klive).
  { intros t Ht. apply displaced_slot in Ht; [|done]. destruct (th_slot _ _ _ _ _ _ Hth _ _ Ht) as (d & Hbd & Hkd).
    destruct (stale_slot _ _ _ _ _ _ _ _ _ Hth Ht Hbd Hf) as [_ He].
    exists d. split; [|split; [done|set_solver]]. apply (with_thread_block s b r w1). by right. }
  destruct (release_run start s1 (displaced s r) mu' _ _ Hw1 Hkids Hdis) as
    (w2 & nu' & klive' & E2 & Hw2 & Hk2 & Em2 & Et2 & Hrel).
  destruct (released_facts w1 w2 mu' q1 q2 fr nu' klive' p3 Hw1 Eks Hkf Hf Hrel) as (Hroot & Hkl & Hlost & Hv1 & Hv2).
  destruct (write_trap_cx_run start w2 mu' nu' p3 cx Hw2) as (s3 & page & E3 & Hw3 & Hpage & Hbytes & _ & Hfr);
    [by rewrite Em2|done|].
  exists (mkWorld (memory_set w2) (task_res_allocator w2) (kernel_space w2) (kstack_allocator w2) s3).
  exists mu', nu', klive', p1, p2, p3, q1, q2, page. split; [|split; [|split; [done|split; [|done]]]].
  - unfold sys_thread_create, new_task, in_kernel, in_world, add_task, set_tcbs, set_proc. mstep.
    rewrite (current_res_run s c b0 r0 Hcur Hb0 Hr0), <- Hbase, E1. cbn [t_proc t_kern t_world t_tcbs].
    rewrite (get_tcb_run _ _ b) by (apply (with_thread_block s b r w1); by left).
    cbn [res b unwrap t_proc]. unfold idx. rewrite Hold. cbn [unwrap]. rewrite upd_Ok by done.
    cbn [t_proc t_kern t_world t_tcbs]. fold b.
    match goal with |- context [release_slot _ ?x] => change x with s1 end. rewrite E2.
    cbn [t_proc t_kern t_world t_tcbs]. unfold cx, start_context, app_init_context, set_sp, MemorySet_token, token in *.
    rewrite Hroot. cbn [regs sstatus sepc kernel_satp kernel_sp TaskRes.trap_handler kstack tcb_trap_cx_ppn b].
    rewrite E3. reflexivity.
  - apply (threads_ok_with_thread s b r _ Hr start mu nu live klive); try done.
    cbn [task_res_allocator]. by rewrite Et2.
  - unfold stack_lost. cbn [memory]. by rewrite Hfr.
Qed.
End thread_create_run.

(** ** The exit of a thread *)

Definition exited (b : TaskControlBlock) (code : Z) : TaskControlBlock :=
  mkTCB (kstack b) None (tcb_trap_cx_ppn b) (Some code).

Definition with_exit (s : tsys) (c : Z) (b : TaskControlBlock) (code : Z) (w : world) : tsys :=
  mkTsys (t_proc s) (set_current None (t_kern s)) w (<[Z.to_nat c := exited b code]> (t_tcbs s)).

Lemma with_exit_block s c b code w t d :
  block s c b → block (with_exit s c b code w) t d ↔ t = c ∧ d = exited b code ∨ t ≠ c ∧ block s t d.
Proof.
  intros [Hb%lookup_lt_Some H0]. unfold block, with_exit. cbn [t_tcbs]. rewrite list_lookup_insert_Some. split.
  - intros [[(? & <- & _)|[Hne ?]] ?]; [left; split; [lia|done]|right; split; [congruence|done]].
  - intros [[-> ->]|(? & ? & ?)]; (split; [|done]); [by left|right; split; [lia|done]].
Qed.

(** The threads stay consistent when one of them gives its resources back and exits. *)
Lemma threads_ok_exit start s mu mu' nu live klive c b r code w' :
  threads_ok start s mu nu live klive → block s c b → res b = Some r →
  TaskUserRes_drop r (t_world s) = Ok (tt, w') → world_ok start w' mu' nu →
  threads_ok start (with_exit s c b code w') mu' nu (live ∖ {[tid r]}) klive.
Proof.
  intros Hth Hb Hr E Hw'. destruct (th_running _ _ _ _ _ _ Hth c b r Hb Hr) as (Hl & Hs & _ & Hrok).
  destruct (TaskUserRes_drop_run start (t_world s) mu nu r _ live (th_world _ _ _ _ _ _ Hth) Hrok
    (th_tids _ _ _ _ _ _ Hth) Hl) as (w & mu1 & Ew & _ & _ & Hra & _ & _ & Eka).
  assert (w = w') as -> by congruence.
  split; [done|done|cbn [t_world with_exit]; rewrite Eka; apply Hth|..].
  - intros k t Hk. destruct (th_slot _ _ _ _ _ _ Hth k t Hk) as (d & Hd & Hin).
    destruct (decide (t = c)) as [->|Hne].
    + exists (exited b code). rewrite with_exit_block by done. split; [by left|].
      assert (d = b) as <- by (destruct Hb, Hd; congruence). done.
    + exists d. rewrite with_exit_block by done. split; [by right|done].
  - intros k1 k2 t1 t2 b1 b2 H1 H2 B1 B2 Ek. rewrite with_exit_block in B1, B2 by done.
    assert (Hold : ∀ t d, t = c ∧ d = exited b code ∨ t ≠ c ∧ block s t d → ∃ d', block s t d' ∧ kstack d = kstack d').
    { intros t d [[-> ->]|[_ Hd]]; [by exists b|by exists d]. }
    apply Hold in B1 as (d1 & B1 & E1). apply Hold in B2 as (d2 & B2 & E2).
    apply (th_kstacks _ _ _ _ _ _ Hth k1 k2 t1 t2 d1 d2); try done. congruence.
  - intros t d q Hd Hq. rewrite with_exit_block in Hd by done. destruct Hd as [[-> ->]|[Hne Hd]]; [done|].
    destruct (th_running _ _ _ _ _ _ Hth t d q Hd Hq) as (Hlq & Hsq & ? & ?). split; [|done].
    apply elem_of_difference. split; [done|]. intros Eq%elem_of_singleton. rewrite Eq in Hsq.
    destruct Hs as [Hs _], Hsq as [Hsq _]. congruence.
  - intros t d Hd Hq. rewrite with_exit_block in Hd by done.
    destruct Hd as [[-> ->]|[Hne Hd]]; [by exists code|by eapply th_exited].
Qed.

(** ** Waiting for a thread *)

Definition with_slot_cleared (s : tsys) (k : Z) (w : world) : tsys :=
  mkTsys (set_tasks (<[Z.to_nat k := None]> (tasks (t_proc s))) (t_proc s)) (t_kern s) w (t_tcbs s).

Lemma wait_exited_run start s mu nu live klive c b r k t d code :
  threads_ok start s mu nu live klive → current (t_kern s) = Some c → block s c b → res b = Some r →
  tid r ≠ k → slot s k t → block s t d → exit_code d = Some code →
  ∃ w' nu', sys_waittid k s = Ok (code, with_slot_cleared s k w') ∧
    threads_ok start (with_slot_cleared s k w') mu nu' live (klive ∖ {[kstack d]}) ∧
    kstack_gone start (kstack d) (t_world s) w' nu nu' ∧ memory_set w' = memory_set (t_world s).
Proof.
  intros Hth Hcur Hb Hr Hne Hs Hd Hcode. pose proof Hs as [Hs1 Hk0]. pose proof (lookup_lt_Some _ _ _ Hs1) as Hlen.
  destruct (th_slot _ _ _ _ _ _ Hth k t Hs) as (d' & Hd' & Hin).
  assert (d' = d) as -> by (destruct Hd, Hd'; congruence). clear Hd'.
  set (s1 := with_slot_cleared s k (t_world s)).
  destruct (release_run start s1 (Some t) mu nu klive (th_world _ _ _ _ _ _ Hth) (th_kids _ _ _ _ _ _ Hth)) as
    (w' & nu' & klive' & E & Hw' & Hk' & Em & Et & d' & Hd' & Hg & ->).
  { intros t' [= <-]. exists d. split; [exact Hd|]. split; [by exists code|done]. }
  assert (d' = d) as -> by (destruct Hd, Hd' as [? _]; cbn [t_tcbs s1 with_slot_cleared] in *; congruence).
  exists w', nu'. split; [|split; [|done]].
  { unfold sys_waittid, set_proc. mstep. rewrite (current_res_run s c b r Hcur Hb Hr).
    rewrite (proj2 (Z.eqb_neq _ _)) by done. rewrite (idx_Ok _ _ _ Hs1), (get_tcb_run s t d Hd), Hcode.
    rewrite upd_Ok by done. match goal with |- context [release_slot _ ?x] => change x with s1 end. by rewrite E. }
  assert (Hslot : ∀ k' t', slot (with_slot_cleared s k w') k' t' ↔ k' ≠ k ∧ slot s k' t').
  { intros k' t'. unfold slot, with_slot_cleared. cbn [t_proc set_tasks tasks]. split.
    - intros [Hx H0]. apply set_slot in Hx; [|lia..]. naive_solver.
    - intros (Hx & Hy & H0). split; [|done]. apply set_slot; [lia..|]. by right. }
  split; [done|cbn [t_world with_slot_cleared]; rewrite Et; apply Hth|done|..].
  - intros k' t' [Hk1 Hs']%Hslot. destruct (th_slot _ _ _ _ _ _ Hth _ _ Hs') as (e & He & Hine).
    exists e. split; [done|]. apply elem_of_difference. split; [done|]. intros Eq%elem_of_singleton.
    apply Hk1. by apply (th_kstacks _ _ _ _ _ _ Hth k' k t' t e d).
  - intros k1 k2 t1 t2 b1 b2 [_ H1]%Hslot [_ H2]%Hslot B1 B2. by apply (th_kstacks _ _ _ _ _ _ Hth k1 k2 t1 t2 b1 b2).
  - intros t' e q He Hq. destruct (th_running _ _ _ _ _ _ Hth t' e q He Hq) as (Hl & Hsl & Hx & Hy).
    split; [done|]. split; [|done]. apply Hslot. split; [|done]. intros <-.
    destruct Hs as [Hs _], Hsl as [Hsl _]. rewrite Hs in Hsl. injection Hsl as <-.
    destruct He as [He _], Hd as [Hd _]. cbn [t_tcbs with_slot_cleared] in He. congruence.
  - apply Hth.
Qed.

(** ** Properties *)




(** ** Witnesses *)

(** Two spaces with nothing but the trampoline. *)
Lemma demo_world tra kra :
  ∃ w mu, world_ok 5 w mu mu ∧ areas (memory_set w) = [] ∧ task_res_allocator w = tra ∧ kstack_allocator w = kra ∧
    (30 ≤ nfree (frames (memory w)))%nat ∧ ∀ v, v ≠ tramp_vpn → mu !! v = None.
Proof.
  destruct (user_start_run 5 (ram 40) 0x80200000) as (pt & s & fr & _ & Hl & Hs & Hpt & Hg);
    [by apply ram_wf|lia|done|vm_compute; lia|].
  pose proof (gr_free _ _ _ _ _ Hg) as Hf. change (nfree (frames (ram 40))) with 40%nat in Hf.
  destruct (user_start_run 5 s 0x80200000) as (pt' & s' & fr' & _ & Hl' & Hs' & Hpt' & Hg'); [apply Hg|lia|done|lia|].
  pose proof (gr_free _ _ _ _ _ Hg') as Hf'.
  exists (mkWorld (mkMS pt []) tra (mkMS pt' []) kra s'), {[tramp_vpn := pte_for (Z.lor PTE_R PTE_X) (0x80200000 / 4096)]}.
  split; [split|]; cbn [memory memory_set kernel_space].
  - eapply space_ok_grows; [done..|]. by intros p _ ?%not_elem_of_nil.
  - done.
  - unfold own, data_of. cbn [page_table areas mbind list_bind]. rewrite !app_nil_r, Hpt'. intros p Hp Hp'.
    apply (gr_fresh _ _ _ _ _ Hg') in Hp' as [_ Hn]. apply Hn, (so_used _ _ _ _ Hs), elem_of_app. by left.
  - split; [done|]. split; [done|]. split; [done|]. split; [lia|]. intros v Hv. by apply lookup_singleton_ne.
Qed.

(** The main thread 0 and a thread 1, which may have exited with code 7. *)
Definition demo_main : TaskControlBlock := mkTCB 0 (Some (mkRes 0 0x20000)) 9 None.
Definition demo_second (gone : bool) : TaskControlBlock :=
  if gone then mkTCB 1 None 10 (Some 7) else mkTCB 1 (Some (mkRes 1 0x20000)) 10 None.
Definition demo_tids (gone : bool) : RecycleAllocator := if gone then mkRA 2 [1] else mkRA 2 [].
Definition demo_live (gone : bool) : gset Z := if gone then {[0]} else {[0; 1]}.
Definition demo_sys (gone : bool) (c : Z) (w : world) : tsys :=
  mkTsys (mkProc [Some 0; Some 1] [] [] [] false [] [] [[]; []] [[]; []] [[]; []] [[]; []])
    (mkKernel [] None (Some c) ∅ ∅ [] [] [] []) w [demo_main; demo_second gone].

Lemma demo_slot gone c w k t : slot (demo_sys gone c w) k t ↔ k = 0 ∧ t = 0 ∨ k = 1 ∧ t = 1.
Proof.
  unfold slot, demo_sys. cbn [t_proc tasks]. split.
  - intros [E H0]. destruct (Z.to_nat k) as [|[|?]] eqn:Ek; simplify_eq/=; [left|right]; (split; [lia|done]).
  - intros [[-> ->]|[-> ->]]; split; (done || lia).
Qed.
Lemma demo_block gone c w t b :
  block (demo_sys gone c w) t b ↔ t = 0 ∧ b = demo_main ∨ t = 1 ∧ b = demo_second gone.
Proof.
  unfold block, demo_sys. cbn [t_tcbs]. split.
  - intros [E H0]. destruct (Z.to_nat t) as [|[|?]] eqn:Ek; simplify_eq/=; [left|right]; (split; [lia|done]).
  - intros [[-> ->]|[-> ->]]; split; (done || lia).
Qed.

Lemma demo_ids l live :
  NoDup l → (∀ x, x ∈ l → 0 ≤ x < 2) → (∀ x, x ∈ live ↔ 0 ≤ x < 2 ∧ x ∉ l) → ids_ok live (mkRA 2 l).
Proof. intros. split; [cbn [ra_current]; lia|]. done. Qed.

Lemma demo_threads gone c :
  ∃ w mu, threads_ok 5 (demo_sys gone c w) mu mu (demo_live gone) {[0; 1]} ∧ areas (memory_set w) = [] ∧
    task_res_allocator w = demo_tids gone ∧ kstack_allocator w = mkRA 2 [] ∧
    (30 ≤ nfree (frames (memory w)))%nat ∧ ∀ v, v ≠ tramp_vpn → mu !! v = None.
Proof.
  destruct (demo_world (demo_tids gone) (mkRA 2 [])) as (w & mu & Hw & Ha & Et & Ek & Hn & Hmu).
  exists w, mu. split; [|done].
  assert (Hall : ids_ok {[0; 1]} (mkRA 2 [])).
  { apply demo_ids; [constructor|by intros x ?%not_elem_of_nil|]. intros x. set_unfold. lia. }
  split; cbn [t_world demo_sys]; rewrite ?Et, ?Ek; [done| |done|..].
  - destruct gone; [|done]. apply demo_ids; [apply NoDup_singleton|..]; intros x; unfold demo_live; set_unfold; lia.
  - intros k t [[-> ->]|[-> ->]]%demo_slot; [exists demo_main|exists (demo_second gone)]; rewrite demo_block;
      (split; [auto|destruct gone; set_solver]).
  - intros k k' t t' b b' Hs Hs' Hb Hb' E. rewrite demo_slot in Hs, Hs'. rewrite demo_block in Hb, Hb'.
    destruct gone; naive_solver.
  - intros t b r Hb Hr. rewrite demo_slot. apply demo_block in Hb as [[-> ->]|[-> ->]];
      destruct gone; simplify_eq/=; (split; [set_solver|]); (split; [auto|]); (split; [done|]);
      split; cbn [tid ustack_base]; (lia || done).
  - intros t b [[-> ->]|[-> ->]]%demo_block Hr; [done|]. destruct gone; [by exists 7|done].
Qed.

Lemma demo_room gone w mu nu live klive c r :
  threads_ok 5 (demo_sys gone c w) mu nu live klive → areas (memory_set w) = [] → res_ok r →
  (RA_alloc (task_res_allocator w)).1 = tid r → kstack_allocator w = mkRA 2 [] →
  (15 ≤ nfree (frames (memory w)))%nat → (∀ v, v ≠ tramp_vpn → mu !! v = None) → mu = nu →
  room_for 5 w mu nu r 2.
Proof.
  intros Hth Ha Hr Ht Ek Hn Hmu <-. destruct (stack_va r Hr) as (_ & _ & _ & _ & Hst).
  destruct (trap_va r Hr) as (_ & _ & _ & Htr). unfold tramp_vpn in *.
  split; [apply Hth|done| |done|by rewrite Ek|lia| |done].
  - split; [intros v Hv; apply Hmu; lia|apply Hmu; lia|]. rewrite Ha. by intros a ?%not_elem_of_nil.
  - intros v Hv. apply Hmu. unfold kstack_vpn in Hv. lia.
Qed.



