(* ===== verification/Processes.v ===== *)
(** * Processes (os/src/task/process.rs, mod.rs, manager.rs, signal.rs, syscall/process.rs)

    The control blocks of processes: creation, fork, exec, exit of the main thread,
    waiting for children, signals.  A process is the number of its control block;
    lists of children and the table of process numbers hold such numbers, so that
    the strong references to a process can be counted.  Each process has its own
    address space in the memory they all share. *)

From S2P Require Import Prelude Bytes BlockStore Layout Efs Vfs Address FrameAlloc PageTable MemorySet MemorySpec.
From S2P Require Import Ids TaskRes UserMem Files Pipe FileCalls Threads Sync SyncCalls ThreadCalls.

(** ** Signals *)

Definition SIGINT : Z := Z.shiftl 1 2.
Definition SIGILL : Z := Z.shiftl 1 4.
Definition SIGABRT : Z := Z.shiftl 1 6.
Definition SIGFPE : Z := Z.shiftl 1 8.
Definition SIGSEGV : Z := Z.shiftl 1 11.

Definition SignalFlags_all : Z :=
  Z.lor (Z.lor (Z.lor (Z.lor SIGINT SIGILL) SIGABRT) SIGFPE) SIGSEGV.
Definition SignalFlags_from_bits (bits : Z) : option Z :=
  if Z.land bits SignalFlags_all =? bits then Some bits else None.

(** The exit code; the message is for the console. *)
Definition check_error (flags : Z) : option Z :=
  if contains flags SIGINT then Some (-2)
  else if contains flags SIGILL then Some (-4)
  else if contains flags SIGABRT then Some (-6)
  else if contains flags SIGFPE then Some (-8)
  else if contains flags SIGSEGV then Some (-11)
  else None.

(** ** State *)

(** [pcb_proc] are the list of tasks and the tables of synchronisation objects. *)
Record ProcessControlBlock := mkPCB {
  pid : Z;
  is_zombie : bool;
  pcb_memory_set : MemorySet;
  parent : option nat;
  children : list nat;
  pcb_exit_code : Z;
  pcb_fd_table : list (option nat);
  signals : Z;
  pcb_res_allocator : RecycleAllocator;
  pcb_proc : Process;
}.

(** [owners] are the processes of the tasks.  [stack_refs] are the references to
    processes in local variables of suspended system calls. *)
Record system (St : Type) := mkSystem {
  pcbs : list ProcessControlBlock;
  pid2pcb : gmap Z nat;
  pid_allocator : RecycleAllocator;
  sys_kernel_space : MemorySet;
  sys_kstacks : RecycleAllocator;
  sys_memory : kmem;
  sys_tcbs : list TaskControlBlock;
  owners : list nat;
  sys_kern : kernel;
  stack_refs : list nat;
  sys_disk : St;
  sys_files : list file;
}.
Arguments mkSystem {St}.
Arguments pcbs {St}.
Arguments pid2pcb {St}.
Arguments pid_allocator {St}.
Arguments sys_kernel_space {St}.
Arguments sys_kstacks {St}.
Arguments sys_memory {St}.
Arguments sys_tcbs {St}.
Arguments owners {St}.
Arguments sys_kern {St}.
Arguments stack_refs {St}.
Arguments sys_disk {St}.
Arguments sys_files {St}.

Definition set_memory_set ms b := mkPCB (pid b) (is_zombie b) ms (parent b) (children b) (pcb_exit_code b)
  (pcb_fd_table b) (signals b) (pcb_res_allocator b) (pcb_proc b).
Definition set_parent x b := mkPCB (pid b) (is_zombie b) (pcb_memory_set b) x (children b) (pcb_exit_code b)
  (pcb_fd_table b) (signals b) (pcb_res_allocator b) (pcb_proc b).
Definition set_children l b := mkPCB (pid b) (is_zombie b) (pcb_memory_set b) (parent b) l (pcb_exit_code b)
  (pcb_fd_table b) (signals b) (pcb_res_allocator b) (pcb_proc b).
Definition set_zombie code b := mkPCB (pid b) true (pcb_memory_set b) (parent b) (children b) code
  (pcb_fd_table b) (signals b) (pcb_res_allocator b) (pcb_proc b).
Definition set_fd_table t b := mkPCB (pid b) (is_zombie b) (pcb_memory_set b) (parent b) (children b) (pcb_exit_code b)
  t (signals b) (pcb_res_allocator b) (pcb_proc b).
Definition set_signals f b := mkPCB (pid b) (is_zombie b) (pcb_memory_set b) (parent b) (children b) (pcb_exit_code b)
  (pcb_fd_table b) f (pcb_res_allocator b) (pcb_proc b).
Definition set_pcb_proc p b := mkPCB (pid b) (is_zombie b) (pcb_memory_set b) (parent b) (children b) (pcb_exit_code b)
  (pcb_fd_table b) (signals b) (pcb_res_allocator b) p.

Section system.
Context {St : Type}.
Implicit Types s : system St.

Definition set_pcbs l s : system St := mkSystem l (pid2pcb s) (pid_allocator s) (sys_kernel_space s) (sys_kstacks s)
  (sys_memory s) (sys_tcbs s) (owners s) (sys_kern s) (stack_refs s) (sys_disk s) (sys_files s).
Definition set_pids m ra s : system St := mkSystem (pcbs s) m ra (sys_kernel_space s) (sys_kstacks s)
  (sys_memory s) (sys_tcbs s) (owners s) (sys_kern s) (stack_refs s) (sys_disk s) (sys_files s).
Definition set_memory k s : system St := mkSystem (pcbs s) (pid2pcb s) (pid_allocator s) (sys_kernel_space s)
  (sys_kstacks s) k (sys_tcbs s) (owners s) (sys_kern s) (stack_refs s) (sys_disk s) (sys_files s).
Definition set_owners l s : system St := mkSystem (pcbs s) (pid2pcb s) (pid_allocator s) (sys_kernel_space s)
  (sys_kstacks s) (sys_memory s) (sys_tcbs s) l (sys_kern s) (stack_refs s) (sys_disk s) (sys_files s).
Definition set_disk d s : system St := mkSystem (pcbs s) (pid2pcb s) (pid_allocator s) (sys_kernel_space s)
  (sys_kstacks s) (sys_memory s) (sys_tcbs s) (owners s) (sys_kern s) (stack_refs s) d (sys_files s).
Definition set_sys_files l s : system St := mkSystem (pcbs s) (pid2pcb s) (pid_allocator s) (sys_kernel_space s)
  (sys_kstacks s) (sys_memory s) (sys_tcbs s) (owners s) (sys_kern s) (stack_refs s) (sys_disk s) l.

Definition get_pcb (p : nat) : M (system St) ProcessControlBlock :=
  l ← gets pcbs; lift (unwrap (l !! p)).
Definition alter_pcb (p : nat) (f : ProcessControlBlock → ProcessControlBlock) : M (system St) unit :=
  b ← get_pcb p;
  puts (λ s, set_pcbs (<[p := f b]> (pcbs s)) s).

(** The part of the system that the threads of a process work on. *)
Definition process_view (b : ProcessControlBlock) s : tsys :=
  mkTsys (pcb_proc b) (sys_kern s)
    (mkWorld (pcb_memory_set b) (pcb_res_allocator b) (sys_kernel_space s) (sys_kstacks s) (sys_memory s)) (sys_tcbs s).
Definition with_view (p : nat) (b : ProcessControlBlock) (t : tsys) s : system St :=
  mkSystem
    (<[p := mkPCB (pid b) (is_zombie b) (memory_set (t_world t)) (parent b) (children b) (pcb_exit_code b)
              (pcb_fd_table b) (signals b) (task_res_allocator (t_world t)) (t_proc t)]> (pcbs s))
    (pid2pcb s) (pid_allocator s) (kernel_space (t_world t)) (kstack_allocator (t_world t)) (memory (t_world t))
    (t_tcbs t) (owners s) (t_kern t) (stack_refs s) (sys_disk s) (sys_files s).

Definition in_process {A} (p : nat) (m : M tsys A) : M (system St) A := λ s,
  b ← unwrap (pcbs s !! p);
  '(a, t) ← m (process_view b s);
  Ok (a, with_view p b t s).

Definition on_memory {A} (m : M kmem A) : M (system St) A := λ s,
  '(a, k) ← m (sys_memory s); Ok (a, set_memory k s).

Definition get_task_block (t : Z) : M (system St) TaskControlBlock :=
  l ← gets sys_tcbs; lift (unwrap (l !! Z.to_nat t)).

(** The current task, and its process. *)
Definition current_process : M (system St) nat :=
  t ← gets (λ s, current (sys_kern s));
  t ← lift (unwrap t);
  l ← gets owners;
  lift (unwrap (l !! Z.to_nat t)).

(** [TaskControlBlock::new] for the process [p] *)
Definition new_task_of (p : nat) (ustack_base : Z) (alloc : bool) : M (system St) Z :=
  t ← in_process p (new_task ustack_base alloc);
  puts (λ s, set_owners (owners s ++ [p]) s);;
  mret t.

(** ** Process numbers *)

Definition IDLE_PID : Z := 0.

Definition pid_alloc : M (system St) Z := λ s,
  let '(id, ra) := RA_alloc (pid_allocator s) in Ok (id, set_pids (pid2pcb s) ra s).
(** [PidHandle] is dropped *)
Definition PidHandle_drop (id : Z) : M (system St) unit := λ s,
  ra ← RA_dealloc (pid_allocator s) id; Ok (tt, set_pids (pid2pcb s) ra s).

Definition pid2process (pid : Z) : M (system St) (option nat) := gets (λ s, pid2pcb s !! pid).
Definition insert_into_pid2process (pid : Z) (p : nat) : M (system St) unit :=
  puts (λ s, set_pids (<[pid := p]> (pid2pcb s)) (pid_allocator s) s).
Definition remove_from_pid2process (pid : Z) : M (system St) unit :=
  o ← pid2process pid;
  lift (unwrap o);;
  puts (λ s, set_pids (delete pid (pid2pcb s)) (pid_allocator s) s).

(** [Arc::new(ProcessControlBlock { .. })] *)
Definition new_pcb (b : ProcessControlBlock) : M (system St) nat :=
  l ← gets pcbs;
  puts (set_pcbs (l ++ [b]));;
  mret (length l).

(** ** References to tasks *)

(** A thread that waits is suspended in [block_current_and_run_next], whose local
    variable [task] refers to it until the thread runs again: from the moment it blocks,
    and after it was woken as well.  [suspend_current_and_run_next] has no such
    variable: it gives its reference to the ready queue. *)
Definition in_block (c : kcont) : bool :=
  match c with
  | AtUser | InSpinLock _ => false
  | InLock _ | InDown _ | InWait _ _ | InSleep => true
  end.
Definition parked (t : Z) (k : kernel) : bool :=
  from_option in_block false (saved k !! t) && bool_decide (task_status k !! t ≠ Some Running).

(** Does the scheduler, a wait queue, a process or the stack of the task itself still
    refer to the task? *)
Definition task_referenced (t : Z) s : bool :=
  parked t (sys_kern s) ||
  bool_decide (t ∈ ready_queue (sys_kern s)) || bool_decide (stop_task (sys_kern s) = Some t) ||
  bool_decide (current (sys_kern s) = Some t) || bool_decide (t ∈ timer_task <$> timers (sys_kern s)) ||
  bool_decide (t ∈ blocked (sys_kern s)) || existsb (λ b, bool_decide (Some t ∈ tasks (pcb_proc b))) (pcbs s).

(** References to the tasks [l] have gone; a task without any gives its kernel stack
    back.  [p] is any process: the kernel stacks are in the space of the kernel. *)
Fixpoint release_tasks (p : nat) (l : list Z) : M (system St) unit :=
  match l with
  | [] => mret tt
  | t :: l =>
      b ← get_task_block t;
      alive ← gets (task_referenced t);
      (if alive : bool then mret tt else in_process p (in_world (KernelStack_drop (kstack b))));;
      release_tasks p l
  end.

(** ** Creation *)

Section code.
(** The trampoline, the ELF parser, the status register and the trap handler. *)
Context (strampoline : Z) (ElfFile_new : list Z → option ElfFile) (user_sstatus trap_handler : Z).

Definition no_tables : Process := mkProc [] [] [] [] false [] [] [] [] [] [].

(** [tasks.push(Some(task))] *)
Definition push_task (t : Z) (p : Process) : Process := set_tasks (tasks p ++ [Some t]) p.
(** A row for the main thread in each of the four tables. *)
Definition push_rows (p : Process) : Process :=
  mkProc (tasks p) (mutex_list p) (semaphore_list p) (condvar_list p) (deadlock_detect p) (mutex_available p)
    (semaphore_available p) (mutex_allocation p ++ [[]]) (semaphore_allocation p ++ [[]])
    (mutex_need p ++ [[]]) (semaphore_need p ++ [[]]).

Definition ProcessControlBlock_new (elf_data : list Z) : M (system St) nat :=
  '(ms, ustack_base, entry_point) ← on_memory (from_elf strampoline ElfFile_new elf_data);
  pid_handle ← pid_alloc;
  fs ← gets sys_files;
  puts (set_sys_files (fs ++ [Stdin; Stdout; Stdout]));;
  p ← new_pcb (mkPCB pid_handle false ms None [] 0
        [Some (length fs); Some (S (length fs)); Some (S (S (length fs)))] 0 RA_new no_tables);
  t ← new_task_of p ustack_base true;
  tcb ← get_task_block t;
  res ← lift (unwrap (res tcb));
  ks ← gets sys_kernel_space;
  in_process p (in_world (write_trap_cx (tcb_trap_cx_ppn tcb)
    (app_init_context user_sstatus entry_point (ustack_top (TaskRes.ustack_base res) (tid res))
       (MemorySet_token ks) (KernelStack_get_top (kstack tcb)) trap_handler)));;
  alter_pcb p (λ b, set_pcb_proc (push_rows (push_task t (pcb_proc b))) b);;
  insert_into_pid2process pid_handle p;;
  in_process p (in_kernel (add_task t));;
  mret p.

(** [get_task(0)] *)
Definition main_task (p : nat) : M (system St) Z :=
  b ← get_pcb p;
  o ← lift (idx (tasks (pcb_proc b)) 0);
  lift (unwrap o).

(** A field of a trap context is assigned in place. *)
Definition write_trap_field (ppn off x : Z) : M (system St) unit :=
  on_memory (write_ref (ppn * PAGE_SIZE + off) (le_put 8 x)).

Definition fork (p : nat) : M (system St) nat :=
  b ← get_pcb p;
  lift (assert_ (Z.of_nat (length (tasks (pcb_proc b))) =? 1));;
  ms ← on_memory (from_existed_user strampoline (pcb_memory_set b));
  child_pid ← pid_alloc;
  let pr := pcb_proc b in
  child ← new_pcb (mkPCB child_pid false ms (Some p) [] 0 (pcb_fd_table b) 0 RA_new
            (mkProc [] [] [] [] (deadlock_detect pr) (mutex_available pr) (semaphore_available pr)
               (mutex_allocation pr) (semaphore_allocation pr) (mutex_need pr) (semaphore_need pr)));
  alter_pcb p (λ b, set_children (children b ++ [child]) b);;
  t0 ← main_task p;
  tcb0 ← get_task_block t0;
  res0 ← lift (unwrap (res tcb0));
  t ← new_task_of child (ustack_base res0) false;
  alter_pcb child (λ b, set_pcb_proc (push_task t (pcb_proc b)) b);;
  tcb ← get_task_block t;
  write_trap_field (tcb_trap_cx_ppn tcb) (35 * 8) (KernelStack_get_top (kstack tcb));;
  insert_into_pid2process child_pid child;;
  in_process child (in_kernel (add_task t));;
  mret child.

(** [(0..=args.len()).map(|arg| translated_refmut(..)).collect()] *)
Fixpoint argv_refs (token argv_base : Z) (l : list Z) : M kmem (list Z) :=
  match l with
  | [] => mret []
  | arg :: l =>
      pa ← translated_ref token (argv_base +ᵤ (arg *ᵤ 8));
      pas ← argv_refs token argv_base l;
      mret (pa :: pas)
  end.

(** The bytes of an argument and its terminating zero. *)
Fixpoint push_bytes (token p : Z) (bs : list Z) : M kmem unit :=
  match bs with
  | [] => assign_user token p [0]
  | c :: bs => assign_user token p [c];; push_bytes token (p +ᵤ 1) bs
  end.

(** [for i in 0..args.len()]: the stack pointer afterwards *)
Fixpoint push_args (token user_sp : Z) (argv : list Z) (args : list (list Z)) : M kmem Z :=
  match args with
  | [] => mret user_sp
  | arg :: args =>
      let user_sp := user_sp -ᵤ Z.of_nat (length arg + 1) in
      pa ← lift (idx argv 0);
      write_ref pa (le_put 8 user_sp);;
      push_bytes token user_sp arg;;
      push_args token user_sp (drop 1 argv) args
  end.

Definition exec (p : nat) (elf_data : list Z) (args : list (list Z)) : M (system St) unit :=
  b ← get_pcb p;
  lift (assert_ (Z.of_nat (length (tasks (pcb_proc b))) =? 1));;
  '(ms, ustack_base, entry_point) ← on_memory (from_elf strampoline ElfFile_new elf_data);
  let new_token := MemorySet_token ms in
  alter_pcb p (set_memory_set ms);;
  on_memory (MemorySet_drop (pcb_memory_set b));;
  t ← main_task p;
  tcb ← get_task_block t;
  r ← lift (unwrap (res tcb));
  let r := mkRes (tid r) ustack_base in
  in_process p (in_world (alloc_user_res r));;
  ppn ← in_process p (in_world (trap_cx_ppn r));
  in_process p (put_tcb t (mkTCB (kstack tcb) (Some r) ppn (exit_code tcb)));;
  let n := Z.of_nat (length args) in
  let user_sp := ustack_top ustack_base (tid r) -ᵤ ((n +ᵤ 1) *ᵤ 8) in
  let argv_base := user_sp in
  argv ← on_memory (argv_refs new_token argv_base (seqZ 0 (n + 1)));
  last ← lift (idx argv n);
  on_memory (write_ref last (le_put 8 0));;
  user_sp ← on_memory (push_args new_token user_sp argv args);
  let user_sp := user_sp -ᵤ user_sp mod 8 in
  ks ← gets sys_kernel_space;
  let cx := app_init_context user_sstatus entry_point user_sp (MemorySet_token ks)
              (KernelStack_get_top (kstack tcb)) trap_handler in
  in_process p (in_world (write_trap_cx ppn
    (mkTrapContext (<[11%nat := argv_base]> (<[10%nat := n]> (regs cx))) (sstatus cx) (sepc cx) (kernel_satp cx)
       (kernel_sp cx) (TaskRes.trap_handler cx)))).

(** ** Exit *)

Inductive exit_result :=
  | Scheduled
  | Shutdown (code : Z).

(** [for child in process_inner.children.iter()], while the control blocks of the
    process and of [INITPROC] are borrowed *)
Fixpoint reparent (p initproc : nat) (l : list nat) : M (system St) unit :=
  match l with
  | [] => mret tt
  | c :: l =>
      lift (assert_ (negb (bool_decide (c = p) || bool_decide (c = initproc))));;
      alter_pcb c (set_parent (Some initproc));;
      alter_pcb initproc (λ b, set_children (children b ++ [c]) b);;
      reparent p initproc l
  end.

(** The resources of the threads, which leave the ready queue and the timers. *)
Fixpoint collect_res (p : nat) (l : list (option Z)) : M (system St) (list TaskUserRes) :=
  match l with
  | [] => mret []
  | None :: l => collect_res p l
  | Some t :: l =>
      in_process p (in_kernel (remove_task t));;
      in_process p (in_kernel (remove_timer t));;
      tcb ← get_task_block t;
      in_process p (put_tcb t (mkTCB (kstack tcb) None (tcb_trap_cx_ppn tcb) (exit_code tcb)));;
      rs ← collect_res p l;
      mret (option_list (res tcb) ++ rs)
  end.

(** [recycle_res.clear()] *)
Fixpoint drop_res (p : nat) (l : list TaskUserRes) : M (system St) unit :=
  match l with
  | [] => mret tt
  | r :: l => in_process p (in_world (TaskUserRes_drop r));; drop_res p l
  end.

(** To the switch; [initproc] is [INITPROC]. *)
Definition exit_current_and_run_next (initproc : nat) (code : Z) : M (system St) exit_result :=
  p ← current_process;
  o ← in_process p (in_kernel take_current_task);
  t ← lift (unwrap o);
  tcb ← get_task_block t;
  r ← lift (unwrap (res tcb));
  in_process p (put_tcb t (mkTCB (kstack tcb) None (tcb_trap_cx_ppn tcb) (Some code)));;
  in_process p (in_world (TaskUserRes_drop r));;
  if tid r =? 0 then
    old ← gets (λ s, stop_task (sys_kern s));
    in_process p (in_kernel (add_stopping_task t));;
    release_tasks p (option_list old);;
    b ← get_pcb p;
    if pid b =? IDLE_PID then mret (Shutdown code)
    else
      remove_from_pid2process (pid b);;
      alter_pcb p (set_zombie code);;
      lift (assert_ (negb (bool_decide (initproc = p))));;
      reparent p initproc (children b);;
      rs ← collect_res p (tasks (pcb_proc b));
      drop_res p rs;;
      alter_pcb p (set_children []);;
      b ← get_pcb p;
      ms ← on_memory (recycle_data_pages (pcb_memory_set b));
      alter_pcb p (set_memory_set ms);;
      alter_pcb p (set_fd_table []);;
      alter_pcb p (λ b, set_pcb_proc (set_tasks [] (pcb_proc b)) b);;
      release_tasks p (omap id (tasks (pcb_proc b)));;
      mret Scheduled
  else mret Scheduled.

(** ** System calls *)

Definition sys_getpid : M (system St) Z :=
  p ← current_process;
  b ← get_pcb p;
  mret (i64 (pid b)).

Definition sys_fork : M (system St) Z :=
  p ← current_process;
  child ← fork p;
  b ← get_pcb child;
  t ← main_task child;
  tcb ← get_task_block t;
  write_trap_field (tcb_trap_cx_ppn tcb) (10 * 8) 0;;
  mret (i64 (pid b)).

(** The loop that reads the argument pointers. *)
Fixpoint read_args (fuel : nat) (token args : Z) (args_vec : list (list Z)) : M kmem (list (list Z)) :=
  match fuel with
  | O => throw OutOfFuel
  | S fuel =>
      pa ← translated_ref token args;
      bs ← read_ref 8 pa;
      let arg_str_ptr := le_get bs in
      if arg_str_ptr =? 0 then mret args_vec
      else
        str ← translated_str (S fuel) token arg_str_ptr;
        read_args fuel token (args +ᵤ 8) (args_vec ++ [string_bytes str])
  end.

Definition sys_exec `{BlockStore St} (efs : EasyFileSystem) (root : Inode) (fuel : nat) (path args : Z) :
    M (system St) Z :=
  p ← current_process;
  b ← get_pcb p;
  let token := MemorySet_token (pcb_memory_set b) in
  chars ← on_memory (translated_str fuel token path);
  args_vec ← on_memory (read_args fuel token args []);
  o ← (λ s, '(o, d) ← open_file efs root (string_bytes chars) OpenFlags_RDONLY (sys_disk s); Ok (o, set_disk d s));
  match o with
  | Some app_inode =>
      all_data ← (λ s, '((v, _), d) ← read_all app_inode (sys_disk s); Ok (v, set_disk d s));
      exec p all_data args_vec;;
      mret (Z.of_nat (length args_vec))
  | None => mret (-1)
  end.

(** The strong references to the process [c], besides the caller's own. *)
Definition strong_count (c : nat) s : nat :=
  (length (filter (λ x, x = c) (concat (children <$> pcbs s))) +
   length (filter (λ kv, kv.2 = c) (map_to_list (pid2pcb s))) +
   length (filter (λ x, x = c) (stack_refs s)))%nat.

(** The last reference to a process goes.  Its synchronisation objects go with it, but
    for those that a thread waits for: the thread is suspended in a method of the object
    and refers to it, so that its wait queue stays. *)
Definition drop_pcb (c : nat) : M (system St) unit :=
  b ← get_pcb c;
  PidHandle_drop (pid b);;
  on_memory (MemorySet_drop (pcb_memory_set b)).

Definition pid_matches (want : Z) (b : ProcessControlBlock) : bool :=
  (want =? -1) || (u64 want =? pid b).

(** The first zombie among the children that match, with its position. *)
Fixpoint find_zombie (want : Z) (i : nat) (l : list nat) (bs : list ProcessControlBlock) : result (option (nat * nat)) :=
  match l with
  | [] => mret None
  | c :: l =>
      b ← unwrap (bs !! c);
      if is_zombie b && pid_matches want b then mret (Some (i, c)) else find_zombie want (S i) l bs
  end.

Fixpoint any_child (want : Z) (l : list nat) (bs : list ProcessControlBlock) : result bool :=
  match l with
  | [] => mret false
  | c :: l =>
      b ← unwrap (bs !! c);
      if pid_matches want b then mret true else any_child want l bs
  end.

Definition sys_waitpid (want exit_code_ptr : Z) : M (system St) Z :=
  p ← current_process;
  b ← get_pcb p;
  bs ← gets pcbs;
  any ← lift (any_child want (children b) bs);
  if negb any then mret (-1)
  else
    pair ← lift (find_zombie want 0 (children b) bs);
    match pair with
    | Some (idx, child) =>
        alter_pcb p (λ b, set_children (delete idx (children b)) b);;
        n ← gets (strong_count child);
        lift (assert_ (n =? 0)%nat);;
        cb ← get_pcb child;
        on_memory (assign_user (MemorySet_token (pcb_memory_set b)) exit_code_ptr (le_put 4 (u32 (pcb_exit_code cb))));;
        drop_pcb child;;
        mret (i64 (pid cb))
    | None => mret (-2)
    end.

Definition sys_kill (pid signal : Z) : M (system St) Z :=
  o ← pid2process pid;
  match o with
  | Some p =>
      match SignalFlags_from_bits signal with
      | Some flag => alter_pcb p (λ b, set_signals (Z.lor (signals b) flag) b);; mret 0
      | None => mret (-1)
      end
  | None => mret (-1)
  end.

Definition check_signals_of_current : M (system St) (option Z) :=
  p ← current_process;
  b ← get_pcb p;
  mret (check_error (signals b)).

Definition current_add_signal (signal : Z) : M (system St) unit :=
  p ← current_process;
  alter_pcb p (λ b, set_signals (Z.lor (signals b) signal) b).

Definition vir_to_phy (token virtual_addr : Z) : M kmem Z :=
  o ← translate (from_token token) (floor virtual_addr);
  pte ← lift (unwrap o);
  mret (PhysAddr_of_PhysPageNum (PTE_ppn pte) +ᵤ page_offset virtual_addr).

(** [us] is the clock; [VirtAddr(_ts as usize)] does not cut the address off. *)
Definition sys_get_time (us ts : Z) : M (system St) Z :=
  p ← current_process;
  b ← get_pcb p;
  pa ← on_memory (vir_to_phy (MemorySet_token (pcb_memory_set b)) ts);
  on_memory (write_ref pa (le_put 8 (us / 1000000) ++ le_put 8 (us mod 1000000)));;
  mret 0.
End code.
End system.
