(* ===== verification/ProcessSpec.v ===== *)
(** * Signals, the clock, and waiting for children (os/src/syscall/process.rs)

    What the system calls on existing processes promise. *)

From S2P Require Import Prelude Bytes BlockStore BlockCache BlockFile Address FrameAlloc PageTable MemorySet MemorySpec.
From S2P Require Import Ids TaskRes UserMem Files UserRange FilesSpec Pipe FileCalls Threads Sync SyncCalls ThreadCalls.
From S2P Require Import ThreadSpec Processes.

Section running.
Context {St : Type}.
Implicit Types s : system St.

(** The current task belongs to the process [p] with the control block [b]. *)
Definition running s (t : Z) (p : nat) (b : ProcessControlBlock) : Prop :=
  current (sys_kern s) = Some t ∧ owners s !! Z.to_nat t = Some p ∧ pcbs s !! p = Some b.

Lemma current_process_run s t p b : running s t p b → current_process s = Ok (p, s).
Proof. intros (Ht & Ho & _). unfold current_process. mstep. rewrite Ht. cbn [unwrap]. mstep. by rewrite Ho. Qed.

Lemma get_pcb_run s p b : pcbs s !! p = Some b → get_pcb p s = Ok (b, s).
Proof. intros Hb. unfold get_pcb. mstep. by rewrite Hb. Qed.

Lemma alter_pcb_run s p f b : pcbs s !! p = Some b → alter_pcb p f s = Ok (tt, set_pcbs (<[p := f b]> (pcbs s)) s).
Proof. intros Hb. unfold alter_pcb. mstep. by rewrite (get_pcb_run s p b Hb). Qed.

Lemma on_memory_run {A} (m : M kmem A) s a k : m (sys_memory s) = Ok (a, k) → on_memory m s = Ok (a, set_memory k s).
Proof. intros Hm. unfold on_memory. mstep. by rewrite Hm. Qed.

Lemma on_memory_same {A} (m : M kmem A) s a : m (sys_memory s) = Ok (a, sys_memory s) → on_memory m s = Ok (a, s).
Proof. intros Hm. rewrite (on_memory_run m s a _ Hm). by destruct s. Qed.

Lemma in_process_run {A} s p b (m : M tsys A) a t :
  pcbs s !! p = Some b → m (process_view b s) = Ok (a, t) → in_process p m s = Ok (a, with_view p b t s).
Proof. intros Hb Hm. unfold in_process. mstep. rewrite Hb. cbn [unwrap]. mstep. by rewrite Hm. Qed.

Lemma get_task_block_run s t b : sys_tcbs s !! Z.to_nat t = Some b → get_task_block t s = Ok (b, s).
Proof. intros Hb. unfold get_task_block. mstep. by rewrite Hb. Qed.

Lemma main_task_run s p b t l : pcbs s !! p = Some b → tasks (pcb_proc b) = Some t :: l → main_task p s = Ok (t, s).
Proof. intros Hb Ht. unfold main_task. mstep. by rewrite (get_pcb_run s p b Hb), Ht. Qed.

(** A new task of the process [c], whose resources come from the memory [w]. *)
Lemma new_task_of_run s c b ub (alloc : bool) tcb w :
  pcbs s !! c = Some b → TaskControlBlock_new ub alloc (t_world (process_view b s)) = Ok (tcb, w) →
  let t := Z.of_nat (length (sys_tcbs s)) in
  new_task_of c ub alloc s = Ok (t, set_owners (owners s ++ [c])
    (with_view c b (mkTsys (pcb_proc b) (set_status t Ready (sys_kern s)) w (sys_tcbs s ++ [tcb])) s)).
Proof.
  intros Hb Ht t. unfold new_task_of. erewrite bind_run; [|eapply in_process_run; [exact Hb|]];
    [|unfold new_task, in_world; mstep; rewrite Ht; reflexivity]. reflexivity.
Qed.
End running.

(** Computes the fields of a system. *)
Ltac state_eq :=
  cbv [set_pcbs set_pids set_memory set_owners with_view process_view];
  cbn [pcbs pid2pcb pid_allocator sys_kernel_space sys_kstacks sys_memory sys_tcbs owners sys_kern stack_refs sys_disk sys_files
       t_proc t_kern t_world t_tcbs memory_set task_res_allocator kernel_space kstack_allocator memory
       pid is_zombie pcb_memory_set parent children pcb_exit_code pcb_fd_table signals pcb_res_allocator pcb_proc].

(** ** Signals *)

Lemma check_error_None f : check_error f = None → Z.land f SignalFlags_all = 0.
Proof.
  unfold check_error, SIGINT, SIGILL, SIGABRT, SIGFPE, SIGSEGV. rewrite !contains_bit by done.
  intros H. repeat case_match; try done. unfold SignalFlags_all, SIGINT, SIGILL, SIGABRT, SIGFPE, SIGSEGV.
  rewrite !Z.land_lor_distr_r. assert (Hz : ∀ n, 0 ≤ n → Z.testbit f n = false → Z.land f (Z.shiftl 1 n) = 0).
  { intros n Hn Hb. apply Z.bits_inj'. intros m Hm. rewrite Z.land_spec, Z.shiftl_1_l, Z.pow2_bits_eqb, Z.bits_0 by done.
    destruct (Z.eqb_spec n m) as [<-|]; [by rewrite Hb|apply andb_false_r]. }
  by rewrite !Hz.
Qed.

(** A pending signal is an error with a negative code. *)
Lemma pending_signal f signal :
  Z.land signal 0x954 = signal → signal ≠ 0 → Z.lor f signal = f → ∃ code, check_error f = Some code ∧ code < 0.
Proof.
  intros Hs Hne Hf. destruct (check_error f) as [code|] eqn:E.
  - exists code. split; [done|]. revert E. unfold check_error. repeat case_match; intros [= <-]; lia.
  - exfalso. apply Hne. apply check_error_None in E. change SignalFlags_all with 0x954 in E.
    rewrite <- Hf, Z.land_lor_distr_l, Hs in E. by apply Z.lor_eq_0_iff in E as [_ ?].
Qed.

(** ** The clock *)

Lemma vir_to_phy_run start k pt mu va b :
  represents start k pt mu → 0 ≤ va < 2 ^ 38 → mu !! (va / 4096) = Some b →
  vir_to_phy (token pt) va k = Ok (PTE_ppn b * 4096 + va mod 4096, k).
Proof.
  intros Hrep Hva Hb. unfold vir_to_phy. mstep. unfold floor, PAGE_SIZE. change 0x1000 with 4096.
  rewrite (translate_user start k pt mu Hrep (va / 4096) b); [|Z.to_euclidean_division_equations; lia|done].
  cbn [unwrap]. unfold PhysAddr_of_PhysPageNum, PAGE_SIZE_BITS. assert (Hr := PTE_ppn_range b).
  assert (0 ≤ va mod 4096 < 4096) by (by apply Z.mod_pos_bound).
  rewrite Z.shiftl_mul_pow2 by lia. change (2 ^ 12) with 4096. rewrite page_offset_eq.
  by rewrite (u64_small (PTE_ppn b * 4096)), u64_small by lia.
Qed.

(** Within a page, addresses that follow each other are mapped to such addresses. *)
Lemma ploc_vloc mu va len :
  va mod 4096 + len ≤ 4096 →
  ploc <$> seqZ (PTE_ppn (mu !!! (va / 4096)) * 4096 + va mod 4096) len = vloc mu <$> seqZ va len.
Proof.
  intros Hfit. apply list_eq. intros i. rewrite !list_lookup_fmap. assert (0 ≤ va mod 4096 < 4096) by (by apply Z.mod_pos_bound).
  destruct (decide (Z.of_nat i < len)); [|by rewrite !lookup_seqZ_ge by lia].
  rewrite !lookup_seqZ_lt by lia. cbn. f_equal. unfold ploc, vloc.
  pose proof (Z.div_mod va 4096 ltac:(lia)).
  assert ((va + Z.of_nat i) / 4096 = va / 4096) as -> by (symmetry; apply (Z.div_unique_pos _ _ _ (va mod 4096 + Z.of_nat i)); lia).
  assert ((va + Z.of_nat i) mod 4096 = va mod 4096 + Z.of_nat i) as ->
    by (symmetry; apply (Z.mod_unique_pos _ _ (va / 4096)); lia).
  rewrite <- Z.add_assoc, Z.div_add_l, (Z.div_small (va mod 4096 + _)), Z.add_0_r by lia. f_equal.
  rewrite Z.add_comm, Z.mod_add, Z.mod_small by lia. done.
Qed.

(** The bytes of [TimeVal]. *)
Definition time_bytes (us : Z) : list Z := le_put 8 (us / 1000000) ++ le_put 8 (us mod 1000000).

(** C39: [sys_get_time] writes seconds and microseconds to sixteen bytes of physical
    memory that follow each other from where the pointer is mapped, and to nothing
    else.  If the structure lies within a page, these are its bytes.  If it crosses
    into the next page, the rest goes to the physical page after the first one,
    whoever has it, and what the user has in its own next page stays as it was. *)
Theorem get_time_spec {St} (s : system St) t p b start mu us ts pte :
  running s t p b → represents start (sys_memory s) (page_table (pcb_memory_set b)) mu →
  0 ≤ ts < 2 ^ 38 → mu !! (ts / 4096) = Some pte → is_Some (mem (sys_memory s) !! PTE_ppn pte) →
  (4080 < ts mod 4096 → is_Some (mem (sys_memory s) !! (PTE_ppn pte + 1))) →
  let written := ploc <$> seqZ (PTE_ppn pte * 4096 + ts mod 4096) 16 in
  ∃ k', sys_get_time us ts s = Ok (0, set_memory k' s) ∧
    cells (mem k') written (time_bytes us) ∧
    (∀ l, 0 ≤ l.2 → l ∉ written → UserMem.cell (mem k') l = UserMem.cell (mem (sys_memory s)) l) ∧
    (ts mod 4096 ≤ 4080 → written = vloc mu <$> seqZ ts 16) ∧
    (4080 < ts mod 4096 → ∀ va, va < ts + 16 → ts / 4096 < va / 4096 →
       PTE_ppn (mu !!! (va / 4096)) ≠ PTE_ppn pte → PTE_ppn (mu !!! (va / 4096)) ≠ PTE_ppn pte + 1 →
       UserMem.cell (mem k') (vloc mu va) = UserMem.cell (mem (sys_memory s)) (vloc mu va)).
Proof.
  intros Hrun Hrep Hts Hpte Hpg Hpg1 written. assert (Ho : 0 ≤ ts mod 4096 < 4096) by (by apply Z.mod_pos_bound).
  assert (Hlen : length (time_bytes us) = 16%nat) by (unfold time_bytes; by rewrite length_app, !length_le_put).
  assert (Hwf : kmem_wf start (sys_memory s)) by (destruct Hrep as [Hwf _]; apply Hwf). destruct Hwf as (_ & _ & Hpl).
  assert (Hat : ∀ q, PTE_ppn pte * 4096 + ts mod 4096 ≤ q < PTE_ppn pte * 4096 + ts mod 4096 + 16 →
                q / 4096 = PTE_ppn pte ∨ q / 4096 = PTE_ppn pte + 1 ∧ 4080 < ts mod 4096).
  { intros q Hq. Z.to_euclidean_division_equations; lia. }
  destruct (write_ref_run (time_bytes us) (PTE_ppn pte * 4096 + ts mod 4096) (sys_memory s)) as (k' & E & _ & _ & Hc & Hfr).
  { rewrite Hlen. intros q Hq. destruct (Hat q Hq) as [-> | [-> Hx]].
    - destruct Hpg as [page E]. exists page. split; [done|]. by apply (Hpl _ _ E).
    - destruct (Hpg1 Hx) as [page E]. exists page. split; [done|]. by apply (Hpl _ _ E). }
  rewrite Hlen in Hc, Hfr. change (Z.of_nat 16) with 16 in Hc, Hfr. fold written in Hc, Hfr. exists k'. split.
  { unfold sys_get_time. mstep. rewrite (current_process_run s t p b Hrun). destruct Hrun as (_ & _ & Hb).
    rewrite (get_pcb_run s p b Hb). change (MemorySet_token (pcb_memory_set b)) with (token (page_table (pcb_memory_set b))).
    rewrite (on_memory_same _ s _ (vir_to_phy_run start _ _ mu ts pte Hrep Hts Hpte)).
    change (le_put 8 (us / 1000000) ++ le_put 8 (us mod 1000000)) with (time_bytes us). by rewrite (on_memory_run _ s tt k' E). }
  split; [done|]. split; [done|]. split.
  - intros Hfit. unfold written. rewrite <- (lookup_total_correct _ _ _ Hpte). apply ploc_vloc; lia.
  - intros _ va Hva Hpage Hn Hn1. apply Hfr; [cbn; by apply Z.mod_pos_bound|].
    intros (q & [= Eq _] & Hq%elem_of_seqZ)%list_elem_of_fmap. destruct (Hat q Hq) as [? | [? _]]; congruence.
Qed.

(** ** Waiting for a child *)

Section waitpid.
Context {St : Type}.
Implicit Types s : system St.

(** The children have control blocks. *)
Definition known (bs : list ProcessControlBlock) (l : list nat) : Prop := ∀ c, c ∈ l → is_Some (bs !! c).

(** A child that [waitpid] with this argument may collect. *)
Definition collectable (want : Z) (bs : list ProcessControlBlock) (c : nat) : bool :=
  match bs !! c with Some b => is_zombie b && pid_matches want b | None => false end.
Definition matching (want : Z) (bs : list ProcessControlBlock) (c : nat) : bool :=
  match bs !! c with Some b => pid_matches want b | None => false end.

Lemma known_cons bs c l : known bs (c :: l) → ∃ b, bs !! c = Some b ∧ known bs l.
Proof.
  intros Hk. destruct (Hk c) as [b Hb]; [by left|]. exists b. split; [done|]. intros c' Hc'. apply Hk. by right.
Qed.

Lemma any_child_run want bs l : known bs l → any_child want l bs = Ok (existsb (matching want bs) l).
Proof.
  induction l as [|c l IH]; intros Hk; [done|]. destruct (known_cons _ _ _ Hk) as (b & Hb & Hk').
  cbn [any_child existsb]. unfold matching at 1. rewrite Hb. cbn [unwrap]. mstep. destruct (pid_matches want b); [done|by apply IH].
Qed.

Lemma find_zombie_run want bs l : ∀ i, known bs l →
  find_zombie want i l bs = Ok (prod_map (Nat.add i) id <$> list_find (λ c, Is_true (collectable want bs c)) l).
Proof.
  induction l as [|c l IH]; intros i Hk; [done|]. destruct (known_cons _ _ _ Hk) as (b & Hb & Hk').
  cbn [find_zombie list_find]. rewrite Hb. cbn [unwrap]. mstep.
  assert (Ec : collectable want bs c = is_zombie b && pid_matches want b) by (unfold collectable; by rewrite Hb).
  rewrite <- Ec. destruct (collectable want bs c); cbn.
  - rewrite decide_True by done. cbn. by rewrite Nat.add_0_r.
  - rewrite decide_False, IH by auto. f_equal. destruct (list_find _ l) as [[j x]|]; [|done]. cbn. do 2 f_equal. lia.
Qed.

(** One reference goes with the entry in the list of children. *)
Lemma strong_count_delete s p b i c :
  pcbs s !! p = Some b → children b !! i = Some c →
  strong_count c s = S (strong_count c (set_pcbs (<[p := set_children (delete i (children b)) b]> (pcbs s)) s)).
Proof.
  intros Hb Hc. unfold strong_count. cbn [pcbs pid2pcb stack_refs set_pcbs].
  assert (Hlt : (p < length (pcbs s))%nat) by (by eapply lookup_lt_Some).
  rewrite insert_take_drop by done. rewrite <- (take_drop_middle (pcbs s) p b Hb) at 1.
  rewrite !fmap_app, !concat_app, !fmap_cons, !concat_cons, !filter_app, !length_app. cbn [children set_children].
  assert (length (filter (λ x, x = c) (children b)) = S (length (filter (λ x, x = c) (delete i (children b))))) as ->; [|lia].
  rewrite delete_take_drop. rewrite <- (take_drop_middle (children b) i c Hc) at 1.
  rewrite !filter_app, filter_cons_True, !length_app by done. cbn [length]. lia.
Qed.

(** An address space goes with everything it owns. *)
Lemma MemorySet_drop_run start k ms :
  kmem_wf start k → NoDup (own ms) → (∀ p, p ∈ own ms → in_use start (frames k) p) →
  ∃ k', MemorySet_drop ms k = Ok (tt, k') ∧ shrinks start [] k k' (own ms).
Proof.
  intros Hk Hnd Hu. unfold own in *. apply NoDup_app in Hnd as (Hnd1 & Hdis & Hnd2).
  destruct (drop_frames_run start k (pt_frames (page_table ms))) as (k1 & E1 & H1); [done|done| |].
  { intros p Hp. apply Hu, elem_of_app. by left. }
  destruct (drop_areas_run start k1 (areas ms)) as (k2 & E2 & H2); [apply H1|done| |].
  { intros p Hp. apply (sh_use _ _ _ _ _ H1). split; [|apply Hu, elem_of_app; by right]. intros Hin. by apply (Hdis p Hin). }
  exists k2. unfold MemorySet_drop. mstep. rewrite E1. split; [done|]. by eapply shrinks_trans.
Qed.

Lemma with_view_same s c b : pcbs s !! c = Some b → with_view c b (process_view b s) s = s.
Proof. intros Hb. destruct s, b. unfold with_view, process_view. cbn in *. f_equal. by apply list_insert_id. Qed.

(** The last reference to a process: its number and its memory are free again. *)
Lemma drop_pcb_run s c b start peak live :
  pcbs s !! c = Some b → ra_inv peak live (pid_allocator s) → pid b ∈ live →
  kmem_wf start (sys_memory s) → NoDup (own (pcb_memory_set b)) →
  (∀ p, p ∈ own (pcb_memory_set b) → in_use start (frames (sys_memory s)) p) →
  ∃ k' ra, drop_pcb c s = Ok (tt, set_memory k' (set_pids (pid2pcb s) ra s)) ∧
    shrinks start [] (sys_memory s) k' (own (pcb_memory_set b)) ∧ ra_inv peak (live ∖ {[pid b]}) ra.
Proof.
  intros Hb Hra Hin Hk Hnd Hu. destruct (ra_inv_dealloc _ _ _ (pid b) Hra) as [Hd _].
  { apply Hra in Hin. lia. }
  destruct (Hd Hin) as (ra & Ed & Hra'). destruct (MemorySet_drop_run start _ _ Hk Hnd Hu) as (k' & Em & Hsh).
  exists k', ra. split; [|done]. unfold drop_pcb. mstep. rewrite (get_pcb_run s c b Hb). unfold PidHandle_drop. mstep. rewrite Ed.
  exact (on_memory_run _ (set_pids (pid2pcb s) ra s) tt k' Em).
Qed.

(** What holds when a process collects a zombie: the pointer is good, and the zombie
    still has its number and its memory to itself. *)
Record can_reap (start : Z) (mu : gmap Z Z) (peak : Z) (live : gset Z) s (b cb : ProcessControlBlock) (ptr : Z) : Prop := {
  cr_rep : represents start (sys_memory s) (page_table (pcb_memory_set b)) mu;
  cr_ptr : user_range (sys_memory s) mu ptr 4;
  cr_aligned : ptr mod 4 = 0;
  cr_outside : outside_table (page_table (pcb_memory_set b)) mu ptr 4;
  cr_own : NoDup (own (pcb_memory_set cb));
  cr_used q : q ∈ own (pcb_memory_set cb) → in_use start (frames (sys_memory s)) q;
  cr_pids : ra_inv peak live (pid_allocator s);
  cr_pid : pid cb ∈ live;
}.

(** The memory and the process numbers after the zombie was collected. *)
Record reaped (start : Z) (mu : gmap Z Z) (peak : Z) (live : gset Z) s (cb : ProcessControlBlock) (ptr : Z) (k' : kmem)
    (ra : RecycleAllocator) : Prop := {
  re_code : cells (mem k') (vloc mu <$> seqZ ptr 4) (le_put 4 (u32 (pcb_exit_code cb)));
  re_rest l : 0 ≤ l.2 → (l ∉ vloc mu <$> seqZ ptr 4) → UserMem.cell (mem k') l = UserMem.cell (mem (sys_memory s)) l;
  re_frames q : in_use start (frames k') q ↔ (q ∉ own (pcb_memory_set cb)) ∧ in_use start (frames (sys_memory s)) q;
  re_pids : ra_inv peak (live ∖ {[pid cb]}) ra;
}.

Lemma reap_run s p b i c cb start mu peak live ptr :
  pcbs s !! p = Some b → pcbs s !! c = Some cb → c ≠ p → can_reap start mu peak live s b cb ptr →
  let s1 := set_pcbs (<[p := set_children (delete i (children b)) b]> (pcbs s)) s in
  ∃ k1 k' ra, assign_user (MemorySet_token (pcb_memory_set b)) ptr (le_put 4 (u32 (pcb_exit_code cb))) (sys_memory s) = Ok (tt, k1) ∧
    drop_pcb c (set_memory k1 s1) = Ok (tt, set_memory k' (set_pids (pid2pcb s) ra s1)) ∧
    reaped start mu peak live s cb ptr k' ra.
Proof.
  intros Hb Hcb Hne [Hrep Hptr Hal Hout Hown Hused Hpids Hpid] s1.
  assert (Hl : Z.of_nat (length (le_put 4 (u32 (pcb_exit_code cb)))) = 4) by (by rewrite length_le_put).
  pose proof (ur_ptr _ _ _ _ Hptr).
  destruct (user_store start (sys_memory s) (page_table (pcb_memory_set b)) mu ptr (le_put 4 (u32 (pcb_exit_code cb)))) as (k1 & E1 & Hrep1 & Hf1 & Hs1 & Hc1 & Ho1);
    rewrite ?Hl in *; try done.
  { apply le_put_bytes. } { Z.to_euclidean_division_equations; lia. } { apply Hout. lia. }
  destruct (drop_pcb_run (set_memory k1 s1) c cb start peak live) as (k' & ra & E & Hsh & Hra); try done.
  { cbn [pcbs set_memory set_pcbs s1]. by rewrite list_lookup_insert_ne by done. }
  { destruct Hrep1 as [Hwf _]. apply Hwf. }
  { cbn [sys_memory set_memory]. intros q Hq'. rewrite Hf1. by apply Hused. }
  exists k1, k', ra. split; [done|]. split; [exact E|]. destruct Hsh as [_ _ Hu Hm]. cbn [sys_memory set_memory] in *.
  assert (Hmem : ∀ l, UserMem.cell (mem k') l = UserMem.cell (mem k1) l) by (intros l; unfold UserMem.cell; by rewrite Hm by apply not_elem_of_nil).
  split; [|intros l Hl0 Hn; by rewrite Hmem, Ho1|intros q; by rewrite Hu, Hf1|done].
  eapply cells_frame; [|exact Hc1]. intros l _. apply Hmem.
Qed.

(** C13: [sys_waitpid] returns -1 when no child matches and -2 when children match but
    none of them is a zombie, and changes nothing.  Otherwise it takes the first
    zombie that matches: the child leaves the list, its exit code is in the user's
    memory, its number and all its frames are free, nothing else changed, and its
    number is returned.  If anything else still refers to the child the kernel
    panics. *)
Theorem waitpid_spec s t p b want ptr :
  running s t p b → is_zombie b = false → known (pcbs s) (children b) →
  match list_find (λ c, Is_true (collectable want (pcbs s) c)) (children b) with
  | None => sys_waitpid want ptr s = Ok (if existsb (matching want (pcbs s)) (children b) then -2 else -1, s)
  | Some (i, c) =>
      (strong_count c s ≠ 1%nat → sys_waitpid want ptr s = Fail Panic) ∧
      ∀ cb start mu peak live, strong_count c s = 1%nat → pcbs s !! c = Some cb →
        can_reap start mu peak live s b cb ptr →
        ∃ k' ra, sys_waitpid want ptr s =
            Ok (i64 (pid cb), set_memory k' (set_pids (pid2pcb s) ra
              (set_pcbs (<[p := set_children (delete i (children b)) b]> (pcbs s)) s))) ∧
          reaped start mu peak live s cb ptr k' ra
  end.
Proof.
  intros Hrun Hnz Hk. pose proof Hrun as (_ & _ & Hb).
  assert (Hstart : ∀ o, list_find (λ c, Is_true (collectable want (pcbs s) c)) (children b) = o →
    find_zombie want 0 (children b) (pcbs s) = Ok o).
  { intros o <-. rewrite (find_zombie_run want _ _ 0 Hk). f_equal. by destruct (list_find _ _) as [[]|]. }
  destruct (list_find _ (children b)) as [[i c]|] eqn:Ef; specialize (Hstart _ eq_refl).
  - apply list_find_Some in Ef as (Hi & Hc & _).
    assert (Hany : existsb (matching want (pcbs s)) (children b) = true).
    { apply existsb_exists. exists c. split; [by apply list_elem_of_In, (list_elem_of_lookup_2 _ i)|].
      unfold collectable in Hc. unfold matching. destruct (pcbs s !! c); [|done]. by apply andb_prop_elim in Hc as [_ ?%Is_true_eq_true]. }
    assert (Hcp : c ≠ p).
    { intros ->. unfold collectable in Hc. rewrite Hb, Hnz in Hc. done. }
    assert (Hsc := strong_count_delete s p b i c Hb Hi).
    split; [intros Hn|intros cb start mu peak live Hn Hcb Hr]; unfold sys_waitpid; mstep;
      rewrite (current_process_run s t p b Hrun), (get_pcb_run s p b Hb), (any_child_run want _ _ Hk), Hany; cbn [negb];
      rewrite Hstart, (alter_pcb_run s p _ b Hb).
    + rewrite (proj2 (Nat.eqb_neq _ _)) by lia. done.
    + rewrite (proj2 (Nat.eqb_eq _ _)) by lia. cbn [assert_].
      destruct (reap_run s p b i c cb start mu peak live ptr Hb Hcb Hcp Hr) as (k1 & k' & ra & E1 & E2 & Hre).
      rewrite (get_pcb_run _ c cb) by (cbn; by rewrite list_lookup_insert_ne by done).
      rewrite (on_memory_run _ (set_pcbs (<[p := set_children (delete i (children b)) b]> (pcbs s)) s) tt k1 E1), E2. by exists k', ra.
  - unfold sys_waitpid. mstep.
    rewrite (current_process_run s t p b Hrun), (get_pcb_run s p b Hb), (any_child_run want _ _ Hk).
    destruct (existsb _ _); cbn [negb]; [|done]. by rewrite Hstart.
Qed.
End waitpid.

(** ** Examples *)

(** A process with a zombie child. *)
Definition parent_pcb (pt : PageTable) : ProcessControlBlock :=
  mkPCB 0 false (mkMS pt []) None [1%nat] 0 [] 0 RA_new no_tables.
Definition zombie_pcb : ProcessControlBlock :=
  mkPCB 1 true (mkMS (mkPT 0 []) []) (Some 0%nat) [] (-3) [] 0 RA_new no_tables.
Definition family (pt : PageTable) (k : kmem) : system unit :=
  mkSystem [parent_pcb pt; zombie_pcb] {[0 := 0%nat]} (mkRA 2 []) (mkMS pt []) RA_new k [] [0%nat]
    (mkKernel [] None (Some 0) ∅ ∅ [] [] [] []) [] tt [].

Lemma family_running pt k : running (family pt k) 0 0 (parent_pcb pt).
Proof. by split. Qed.

(** Page 0x10 is mapped to frame 9 and page 0x11 to frame 8. *)
Definition split_mu : gmap Z Z := <[0x11 := PTE_new 8 (Z.lor 14 PTE_V)]> (<[0x10 := PTE_new 9 (Z.lor 14 PTE_V)]> ∅).

Lemma split_mapped : ∃ pt s, represents 5 s pt split_mu ∧ is_Some (mem s !! 9) ∧ is_Some (mem s !! 10).
Proof.
  destruct (PageTable_new_run 5 hi_ram hi_ram_wf) as (pt & s & E & Hr & _ & Hg); [vm_compute; lia|].
  pose proof (gr_free _ _ _ _ _ Hg) as Hn. change (nfree (frames hi_ram)) with 6%nat in Hn. cbn [length] in Hn.
  pose proof (map_run 5 s pt ∅ 0x10 9 14 Hr ltac:(lia) ltac:(lia) ltac:(lia) ltac:(lia)) as Hm.
  rewrite lookup_empty in Hm. destruct Hm as (pt' & s' & fr & E' & _ & Hr' & Hn1 & Hg').
  pose proof (gr_free _ _ _ _ _ Hg') as Hn'.
  pose proof (map_run 5 s' pt' _ 0x11 8 14 Hr' ltac:(lia) ltac:(lia) ltac:(lia) ltac:(lia)) as Hm.
  rewrite lookup_insert_ne, lookup_empty in Hm by lia. destruct Hm as (pt2 & s2 & fr2 & E2 & _ & Hr2 & _).
  exists pt2, s2. split; [exact Hr2|].
  assert (Hc : match PageTable_new hi_ram with
               | Ok (pt, s) => match map pt 0x10 9 14 s with
                               | Ok (pt', s') => match map pt' 0x11 8 14 s' with
                                                 | Ok (_, s2) => bool_decide (is_Some (mem s2 !! 9) ∧ is_Some (mem s2 !! 10))
                                                 | Fail _ => false
                                                 end
                               | Fail _ => false
                               end
               | Fail _ => false
               end = true) by (vm_compute; reflexivity).
  rewrite E, E', E2 in Hc. by apply bool_decide_eq_true_1 in Hc.
Qed.

(** The microseconds of a structure across a page border go to frame 10. *)
Lemma get_time_spec_witness :
  ∃ pt k k', sys_get_time 5000007 0x10ff8 (family pt k) = Ok (0, set_memory k' (family pt k)) ∧
    UserMem.cell (mem k') (10, 0) = Some 7 ∧
    UserMem.cell (mem k') (8, 0) = UserMem.cell (mem k) (8, 0).
Proof.
  destruct split_mapped as (pt & k & Hr & H9 & H10). exists pt, k.
  destruct (get_time_spec (family pt k) 0 0 (parent_pcb pt) 5 split_mu 5000007 0x10ff8 (PTE_new 9 (Z.lor 14 PTE_V))
    (family_running pt k) Hr ltac:(lia) eq_refl H9 (λ _, H10)) as (k' & E & Hc & _ & _ & Hx).
  exists k'. split; [exact E|]. split.
  - apply (cells_lookup _ _ _ 8 (10, 0) 7 Hc); reflexivity.
  - apply (Hx eq_refl 0x11000); done || (vm_compute; discriminate).
Defined.

Lemma waitpid_spec_witness :
  ∃ pt k k' ra, sys_waitpid (-1) 0x10000 (family pt k) =
      Ok (1, set_memory k' (set_pids {[0 := 0%nat]} ra
        (set_pcbs [set_children [] (parent_pcb pt); zombie_pcb] (family pt k)))) ∧
    cells (mem k') ((λ i, (10, i)) <$> [0; 1; 2; 3]) [253; 255; 255; 255].
Proof.
  destruct hi_mapped as (pt & k & Hr & Hpg & Hnt). exists pt, k.
  pose proof (waitpid_spec (family pt k) 0 0 (parent_pcb pt) (-1) 0x10000 (family_running pt k) eq_refl) as [_ Hw].
  { intros c ->%list_elem_of_singleton. by exists zombie_pcb. }
  destruct (Hw zombie_pcb 5 hi_mu 2 {[0; 1]} eq_refl eq_refl) as (k' & ra & E & Hre).
  - split; [done|by apply hi_range|done| |constructor|by intros q ?%not_elem_of_nil| |set_solver].
    + intros va Hva. replace (va / 4096) with 0x10 by (Z.to_euclidean_division_equations; lia). done.
    + split; [done|]. split; [constructor|]. split; [by intros i ?%not_elem_of_nil|]. intros i. cbn.
      rewrite elem_of_union, !elem_of_singleton. pose proof (not_elem_of_nil i). split; [intros; split; [lia|done]|lia].
  - exists k', ra. split; [exact E|]. exact (re_code _ _ _ _ _ _ _ _ _ Hre).
Defined.
