(* ===== verification/ForkSpec.v ===== *)
(** * Fork (os/src/task/process.rs, os/src/syscall/process.rs)

    The child that [sys_fork] makes: a copy of the address space, the files and the
    registers of its parent, and a thread of its own that is ready to run. *)

From S2P Require Import Prelude Bytes BlockStore Address FrameAlloc PageTable MemorySet MemorySpec AddressSpace.
From S2P Require Import Ids TaskRes UserMem Files UserRange Pipe FileCalls Threads Sync SyncCalls ThreadCalls.
From S2P Require Import ThreadSpec Processes ProcessSpec.

(** Part of a page is overwritten in place. *)
Lemma write_field_run k p page off bs :
  0 ≤ off → off + Z.of_nat (length bs) ≤ 4096 → bs ≠ [] → mem k !! p = Some page → length page = 4096%nat →
  write_ref (p * 4096 + off) bs k = Ok (tt, mkKmem (<[p := splice (Z.to_nat off) bs page]> (mem k)) (frames k)).
Proof.
  intros Ho Hfit Hne Ep Hl. rewrite (write_ref_slice p off bs k page) by done.
  assert (Hpos : (0 < length bs)%nat) by (destruct bs; [done|simpl; lia]).
  assert (Hsl : slice_ok (mem k) (mkSlice p off (off + Z.of_nat (length bs)))).
  { split; [cbn; lia|]. exists page. split; [done|]. cbn. lia. }
  destruct (store_slice_run k _ Hsl bs) as (k' & E & Hf & _ & _ & _ & page' & Ep' & Em); [unfold sl_len; cbn; lia|].
  cbn in Ep', Em. rewrite E. rewrite Ep in Ep'. injection Ep' as <-. do 2 f_equal. destruct k'. cbn in *. congruence.
Qed.

(** ** Frames of pages *)

(** The frame [p] holds page [v] of the space. *)
Definition frame_at (ms : MemorySet) (v p : Z) : Prop := ∃ a, a ∈ areas ms ∧ data_frames a !! v = Some p.

Lemma frame_at_data ms v p : frame_at ms v p → p ∈ data_of ms.
Proof.
  intros (a & Ha & Hp). apply list_elem_of_bind. exists a. split; [|done]. apply list_elem_of_fmap. exists (v, p).
  split; [done|]. by apply elem_of_map_to_list.
Qed.

Lemma NoDup_snd {A B} (l : list (A * B)) x y b : NoDup l.*2 → (x, b) ∈ l → (y, b) ∈ l → x = y.
Proof.
  intros Hnd [i Hi]%list_elem_of_lookup [j Hj]%list_elem_of_lookup.
  assert (i = j) as -> by (eapply (NoDup_lookup _ _ _ b Hnd); rewrite list_lookup_fmap; [by rewrite Hi|by rewrite Hj]).
  congruence.
Qed.

(** A frame holds one page only. *)
Lemma frame_at_inj ms v v' p : NoDup (data_of ms) → frame_at ms v p → frame_at ms v' p → v = v'.
Proof.
  intros Hnd (a & Ha & Hp) (a' & Ha' & Hp'). apply list_elem_of_split in Ha as (l1 & l2 & El). unfold data_of in Hnd.
  assert (Hin : ∀ x w, data_frames x !! w = Some p → p ∈ area_frames x).
  { intros x w Hx. apply list_elem_of_fmap. exists (w, p). split; [done|]. by apply elem_of_map_to_list. }
  assert (Hbind : ∀ l, a' ∈ l → p ∈ l ≫= area_frames) by (intros l Hl; apply list_elem_of_bind; exists a'; eauto).
  rewrite El, bind_app in Hnd. rewrite El in Ha'. change ((a :: l2) ≫= area_frames) with (area_frames a ++ (l2 ≫= area_frames)) in Hnd.
  apply NoDup_app in Hnd as (_ & H1 & Hnd). apply NoDup_app in Hnd as (Hnd & H2 & _).
  apply elem_of_app in Ha' as [Hl|[->|Hl]%elem_of_cons].
  - destruct (H1 p (Hbind _ Hl)). apply elem_of_app. left. by eapply Hin.
  - apply (NoDup_snd _ _ _ p Hnd); by apply elem_of_map_to_list.
  - destruct (H2 p (Hin _ _ Hp)). by apply Hbind.
Qed.

(** Every page is in a frame. *)
Lemma page_frame start k ms mu v perm p :
  space_ok start k ms mu → (∀ a, a ∈ areas ms → map_type a = Framed) → v ∈ pages ms →
  mu !! v = Some (pte_for perm p) → perm_ok perm → 0 ≤ p < 2 ^ 44 → frame_at ms v p.
Proof.
  intros Hs Hf Hv Hmu Hperm Hp. apply list_elem_of_bind in Hv as (a & Hv & Ha).
  assert (Hok : area_ok mu a) by (by eapply Forall_forall; [apply Hs|]). pose proof (Hf a Ha) as Hty.
  destruct (proj2 (ao_dom _ _ Hok v)) as [x Hx]; [done|]. exists a. split; [done|]. rewrite Hx. f_equal.
  assert (Hmx : mu !! v = Some (pte_for (map_perm a) x)) by (apply (ao_map _ _ Hok v x Hv); unfold target; by rewrite Hty).
  assert (Hxb : 0 ≤ x < 2 ^ 44).
  { destruct (used_page start k x) as [? _]; [apply (so_rep _ _ _ _ Hs)| |done].
    apply (so_used _ _ _ _ Hs), elem_of_app. right. apply (frame_at_data _ v). by exists a. }
  rewrite Hmu in Hmx. injection Hmx as Hmx. apply (f_equal PTE_ppn) in Hmx. by rewrite !pte_for_ppn in Hmx by (done || apply Hok).
Qed.

Lemma same_shape_pages l l' : Forall2 same_shape l l' → l' ≫= area_vpns = l ≫= area_vpns.
Proof.
  induction 1 as [|a b l l' (Hr & _) _ IH]; [done|]. change ((b :: l') ≫= area_vpns) with (area_vpns b ++ (l' ≫= area_vpns)).
  rewrite IH. unfold area_vpns at 1. by rewrite <- Hr.
Qed.

Lemma same_shape_framed l l' :
  Forall2 same_shape l l' → (∀ a, a ∈ l → map_type a = Framed) → ∀ a, a ∈ l' → map_type a = Framed.
Proof.
  intros HF Hl a [i Hi]%list_elem_of_lookup. destruct (Forall2_lookup_r _ _ _ _ _ HF Hi) as (x & Hx & (_ & Ht & _)).
  rewrite <- Ht. by eapply Hl, list_elem_of_lookup_2.
Qed.

(** ** The thread of the child *)

(** A thread for an address space that has its stack and trap context already. *)
Lemma existing_task_run start w mu nu r i perm p :
  world_ok start w mu nu → res_ok r → (RA_alloc (task_res_allocator w)).1 = tid r →
  (RA_alloc (kstack_allocator w)).1 = i → 0 ≤ i < 2 ^ 24 → kstack_free nu i → (6 ≤ nfree (frames (memory w)))%nat →
  mu !! trap_vpn r = Some (pte_for perm p) → perm_ok perm → 0 ≤ p < 2 ^ 44 →
  ∃ w' q1 q2 fr, TaskControlBlock_new (ustack_base r) false w = Ok (mkTCB i (Some r) p None, w') ∧
    world_ok start w' mu (pushed_map nu (kstack_area i) [q1; q2]) ∧
    memory_set w' = memory_set w ∧
    grows start (pt_frames (page_table (kernel_space w))) (memory w) (memory w') ([q1; q2] ++ fr).
Proof.
  intros Hw Hr Ht Hi Hib Hkf Hn Hp Hperm Hpb. destruct (RA_alloc (task_res_allocator w)) as [t ra] eqn:Ea. cbn [fst] in Ht.
  set (w0 := mkWorld (memory_set w) ra (kernel_space w) (kstack_allocator w) (memory w)).
  assert (Hw0 : world_ok start w0 mu nu) by (by destruct Hw).
  destruct (RA_alloc (kstack_allocator w)) as [j kra] eqn:Ek. cbn [fst] in Hi. subst j t.
  destruct (kstack_alloc_run start w0 mu nu i kra Hw0) as (q1 & q2 & fr & s' & E & Hw' & Hg); [done..|].
  eexists _, q1, q2, fr. split; [|split; [exact Hw'|]; split; [done|exact Hg]].
  unfold TaskControlBlock_new, TaskUserRes_new, alloc_tid. mstep. rewrite Ea. destruct r as [tt ub]. cbn [tid ustack_base] in *. fold w0.
  rewrite (trap_cx_ppn_run start w0 mu (mkRes tt ub) perm p); try done; [|apply Hw0]. by rewrite E.
Qed.

Section fork.
Context {St : Type} (strampoline : Z).
Implicit Types s : system St.

(** What fork needs: a process with one thread, whose trap context is mapped, the
    next kernel stack [i], and memory. *)
Record fork_ready (start : Z) s (b : ProcessControlBlock) (mu kn : gmap Z Z) (t0 : Z) (tcb0 : TaskControlBlock)
    (r0 : TaskUserRes) (i : Z) : Prop := {
  fr_space : space_ok start (sys_memory s) (pcb_memory_set b) mu;
  fr_kernel : space_ok start (sys_memory s) (sys_kernel_space s) kn;
  fr_sep q : q ∈ own (pcb_memory_set b) → q ∉ own (sys_kernel_space s);
  fr_framed a : a ∈ areas (pcb_memory_set b) → map_type a = Framed;
  fr_tramp : tramp_vpn ∉ pages (pcb_memory_set b);
  fr_trap : 2 ^ 27 - 2 ∈ pages (pcb_memory_set b);
  fr_task : tasks (pcb_proc b) = [Some t0];
  fr_block : sys_tcbs s !! Z.to_nat t0 = Some tcb0;
  fr_res : res tcb0 = Some r0;
  fr_base : res_ok (mkRes 0 (ustack_base r0));
  fr_kstack : (RA_alloc (sys_kstacks s)).1 = i;
  fr_kbound : 0 ≤ i < 2 ^ 24;
  fr_kfree : kstack_free kn i;
  fr_free : (9 + 3 * length (pages (pcb_memory_set b)) ≤ nfree (frames (sys_memory s)))%nat;
  fr_code : 0 ≤ strampoline < 2 ^ 56;
  fr_aligned : strampoline mod 4096 = 0;
}.

(** The pages of the child: copies, in frames that were free. *)
Record child_space (start : Z) s (b : ProcessControlBlock) (mu nu : gmap Z Z) (ch : MemorySet) (k' : kmem) : Prop := {
  cs_child : space_ok start k' ch nu;
  cs_shape : Forall2 same_shape (areas (pcb_memory_set b)) (areas ch);
  cs_copied v : v ∈ pages (pcb_memory_set b) → copied (pcb_memory_set b) (sys_memory s) mu ch k' nu v;
  cs_only v : (v ∉ pages (pcb_memory_set b)) → nu !! v =
    if decide (v = tramp_vpn) then Some (pte_for (Z.lor PTE_R PTE_X) (strampoline / 4096)) else None;
  cs_fresh q : q ∈ own ch → ¬ in_use start (frames (sys_memory s)) q;
  cs_old q : in_use start (frames (sys_memory s)) q → q ∉ pt_frames (page_table (sys_kernel_space s)) →
    in_use start (frames k') q ∧ mem k' !! q = mem (sys_memory s) !! q;
}.

Lemma child_made start s b mu kn t0 tcb0 r0 i :
  fork_ready start s b mu kn t0 tcb0 r0 i →
  ∃ ch k1 w2 nu p' page, from_existed_user strampoline (pcb_memory_set b) (sys_memory s) = Ok (ch, k1) ∧
    TaskControlBlock_new (ustack_base r0) false (mkWorld ch RA_new (sys_kernel_space s) (sys_kstacks s) k1) =
      Ok (mkTCB i (Some (mkRes 0 (ustack_base r0))) p' None, w2) ∧
    memory_set w2 = ch ∧ child_space start s b mu nu ch (memory w2) ∧
    (∃ perm, perm_ok perm ∧ nu !! (2 ^ 27 - 2) = Some (pte_for perm p')) ∧ p' ∈ data_of ch ∧
    mem (memory w2) !! p' = Some page ∧ length page = 4096%nat ∧ bytes page.
Proof.
  intros [Hs Hks Hsep Hfr Htr Htrap Htask Hblk Hres Hbase Hi Hib Hkf Hn Hst Hal].
  destruct (from_existed_user_run start _ _ mu strampoline Hs Hfr Htr Hst Hal) as
    (ch & k1 & fr & nu & E & Hsh & Hch & Hown & Hlen & Hg & Honly & Hc); [lia|].
  assert (Hfresh : ∀ q, q ∈ own ch → ¬ in_use start (frames (sys_memory s)) q).
  { intros q. rewrite Hown. intros Hin. by apply (gr_fresh _ _ _ _ _ Hg). }
  set (w1 := mkWorld ch RA_new (sys_kernel_space s) (sys_kstacks s) k1).
  assert (Hw1 : world_ok start w1 nu kn).
  { split; [done| |].
    - eapply space_ok_grows; [exact Hks|exact Hg|]. intros ? _. apply not_elem_of_nil.
    - intros q Hq Hk. by apply (Hfresh q), (so_used _ _ _ _ Hks). }
  destruct (Hc _ Htrap) as (perm & p & p' & Hperm & Hmu & Hnu & Hp & Hp' & Hm).
  destruct (used_page start k1 p') as [Hb' (page & Epg & Hpl & Hpb)]; [apply Hch|by apply (so_used _ _ _ _ Hch), elem_of_app; right|].
  pose proof (gr_free _ _ _ _ _ Hg) as Hgf.
  destruct (existing_task_run start w1 nu kn (mkRes 0 (ustack_base r0)) i perm p') as (w2 & q1 & q2 & fr2 & E2 & Hw2 & Ems & Hg2);
    try done; [cbn [memory w1]; lia|]. cbn [memory w1 kernel_space ustack_base] in *.
  assert (Hkeep : ∀ q, in_use start (frames k1) q → q ∉ pt_frames (page_table (sys_kernel_space s)) →
    mem (memory w2) !! q = mem k1 !! q).
  { intros q Hu Hq. apply (gr_mem _ _ _ _ _ Hg2); [|done]. intros Hin. by apply (gr_fresh _ _ _ _ _ Hg2) in Hin as [_ ?]. }
  assert (Hdata : ∀ q, q ∈ data_of ch → mem (memory w2) !! q = mem k1 !! q).
  { intros q Hq. assert (Ho : q ∈ own ch) by (apply elem_of_app; by right). apply Hkeep; [by apply (so_used _ _ _ _ Hch)|].
    intros Hk. apply (wo_sep _ _ _ _ Hw1 q Ho). by apply own_table. }
  exists ch, k1, w2, nu, p', page. split; [done|]. split; [done|]. split; [done|].
  split; [|split; [by exists perm|]; split; [done|]; split; [by rewrite Hdata|done]].
  split; [|exact Hsh| |exact Honly|exact Hfresh|].
  - pose proof (wo_user _ _ _ _ Hw2) as Hu. by rewrite Ems in Hu.
  - intros v Hv. destruct (Hc v Hv) as (perm' & x & x' & ? & ? & ? & ? & Hx' & Hmx). exists perm', x, x'.
    do 5 (split; [done|]). by rewrite Hdata.
  - intros q Hu Hq. assert (Hu1 : in_use start (frames k1) q) by (apply (gr_use _ _ _ _ _ Hg); by right).
    split; [apply (gr_use _ _ _ _ _ Hg2); by right|]. rewrite Hkeep by done. apply (gr_mem _ _ _ _ _ Hg); [|apply not_elem_of_nil].
    intros Hin. by apply (gr_fresh _ _ _ _ _ Hg) in Hin as [_ ?].
Qed.

(** ** The control block of the child *)

Definition child_proc (t : Z) (pr : Process) : Process :=
  mkProc [Some t] [] [] [] (deadlock_detect pr) (mutex_available pr) (semaphore_available pr)
    (mutex_allocation pr) (semaphore_allocation pr) (mutex_need pr) (semaphore_need pr).

(** The system after fork: [w2] is what the memory is then, but for the trap context. *)
Definition after_fork s (p : nat) (b : ProcessControlBlock) (w2 : world) (tcb : TaskControlBlock) (k' : kmem) : system St :=
  let c := length (pcbs s) in let t := Z.of_nat (length (sys_tcbs s)) in
  let '(cpid, pra) := RA_alloc (pid_allocator s) in
  mkSystem (<[p := set_children (children b ++ [c]) b]> (pcbs s) ++
      [mkPCB cpid false (memory_set w2) (Some p) [] 0 (pcb_fd_table b) 0 (task_res_allocator w2) (child_proc t (pcb_proc b))])
    (<[cpid := c]> (pid2pcb s)) pra (kernel_space w2) (kstack_allocator w2) k' (sys_tcbs s ++ [tcb]) (owners s ++ [c])
    (set_ready (ready_queue (sys_kern s) ++ [t]) (set_status t Ready (sys_kern s))) (stack_refs s) (sys_disk s) (sys_files s).

Lemma insert_last {A} (l : list A) x y n : n = length l → <[n := y]> (l ++ [x]) = l ++ [y].
Proof. intros ->. by rewrite insert_app_r_alt, Nat.sub_diag by lia. Qed.

Lemma lookup_last {A} (l : list A) x n : n = length l → (l ++ [x]) !! n = Some x.
Proof. intros ->. by rewrite lookup_app_r, Nat.sub_diag by lia. Qed.

Lemma fork_run s p b t0 tcb0 r0 ch k1 w2 tcb k3 :
  pcbs s !! p = Some b → tasks (pcb_proc b) = [Some t0] → sys_tcbs s !! Z.to_nat t0 = Some tcb0 → res tcb0 = Some r0 →
  from_existed_user strampoline (pcb_memory_set b) (sys_memory s) = Ok (ch, k1) →
  TaskControlBlock_new (ustack_base r0) false (mkWorld ch RA_new (sys_kernel_space s) (sys_kstacks s) k1) = Ok (tcb, w2) →
  write_ref (tcb_trap_cx_ppn tcb * PAGE_SIZE + 35 * 8) (le_put 8 (KernelStack_get_top (kstack tcb))) (memory w2) = Ok (tt, k3) →
  fork strampoline p s = Ok (length (pcbs s), after_fork s p b w2 tcb k3).
Proof.
  intros Hb Ht Hblk Hres E1 E2 E3. assert (Hlt : (p < length (pcbs s))%nat) by (by eapply lookup_lt_Some).
  unfold fork, after_fork. erewrite bind_run by (by apply get_pcb_run). rewrite Ht. erewrite bind_run by reflexivity.
  erewrite bind_run by (by apply on_memory_run). destruct (RA_alloc (pid_allocator s)) as [cpid pra] eqn:Ep.
  erewrite bind_run by (unfold pid_alloc; cbn [pid_allocator set_memory]; rewrite Ep; reflexivity).
  cbv zeta. erewrite bind_run by reflexivity. cbn [pcbs set_pids set_memory].
  erewrite bind_run by (apply alter_pcb_run; cbn [pcbs set_pcbs]; by rewrite lookup_app_l). state_eq.
  rewrite insert_app_l by done.
  erewrite bind_run; [|apply (main_task_run _ p (set_children (children b ++ [length (pcbs s)]) b) t0 []); [|done]];
    [|state_eq; rewrite lookup_app_l by (by rewrite length_insert); by apply list_lookup_insert_eq].
  erewrite bind_run by (by apply get_task_block_run). erewrite bind_run; [|rewrite Hres; reflexivity].
  erewrite bind_run; [|eapply new_task_of_run; [state_eq; apply lookup_last; by rewrite length_insert|exact E2]]. state_eq.
  rewrite insert_last by (by rewrite length_insert).
  erewrite bind_run; [|apply alter_pcb_run; state_eq; apply lookup_last; by rewrite length_insert]. state_eq.
  rewrite insert_last by (by rewrite length_insert).
  erewrite bind_run; [|apply get_task_block_run; state_eq; apply lookup_last; lia].
  erewrite bind_run; [|apply on_memory_run; exact E3]. erewrite bind_run by reflexivity.
  erewrite bind_run; [|eapply in_process_run; [state_eq; apply lookup_last; by rewrite length_insert|reflexivity]]. state_eq.
  rewrite insert_last by (by rewrite length_insert). reflexivity.
Qed.

(** ** What fork promises *)

(** The memory after fork; page 2^27 - 2 is that of the trap context. *)
Record forked (start : Z) s (b : ProcessControlBlock) (mu nu : gmap Z Z) (ch : MemorySet) (tcb : TaskControlBlock)
    (k' : kmem) : Prop := {
  fk_child : space_ok start k' ch nu;
  fk_parent : space_ok start k' (pcb_memory_set b) mu;
  fk_shape : Forall2 same_shape (areas (pcb_memory_set b)) (areas ch);
  fk_copied v : v ∈ pages (pcb_memory_set b) → v ≠ (2 ^ 27 - 2) → copied (pcb_memory_set b) (sys_memory s) mu ch k' nu v;
  (** the registers of the child: those of the parent but for [x10] and the kernel stack *)
  fk_trap : ∃ perm q page, perm_ok perm ∧ q ∈ data_of (pcb_memory_set b) ∧ mu !! (2 ^ 27 - 2) = Some (pte_for perm q) ∧
    nu !! (2 ^ 27 - 2) = Some (pte_for perm (tcb_trap_cx_ppn tcb)) ∧ mem (sys_memory s) !! q = Some page ∧
    mem k' !! tcb_trap_cx_ppn tcb =
      Some (splice 80 (le_put 8 0) (splice 280 (le_put 8 (KernelStack_get_top (kstack tcb))) page));
  fk_frame : tcb_trap_cx_ppn tcb ∈ own ch;
  fk_fresh q : q ∈ own ch → ¬ in_use start (frames (sys_memory s)) q;
  fk_old q : in_use start (frames (sys_memory s)) q → q ∉ pt_frames (page_table (sys_kernel_space s)) →
    in_use start (frames k') q ∧ mem k' !! q = mem (sys_memory s) !! q;
}.

Lemma space_ok_write start k ms mu p page :
  space_ok start k ms mu → length page = 4096%nat → bytes page → p ∉ pt_frames (page_table ms) →
  space_ok start (mkKmem (<[p := page]> (mem k)) (frames k)) ms mu.
Proof.
  intros Hs Hl Hb Hp. eapply space_ok_grows; [exact Hs| |].
  - apply grows_write; [apply (so_rep _ _ _ _ Hs)|done|done].
  - intros q Hq ->%list_elem_of_singleton. done.
Qed.

(** An address space whose frames were left alone. *)
Lemma old_space start s b mu kn t0 tcb0 r0 i k' :
  fork_ready start s b mu kn t0 tcb0 r0 i → kmem_wf start k' →
  (∀ q, in_use start (frames (sys_memory s)) q → q ∉ pt_frames (page_table (sys_kernel_space s)) →
    in_use start (frames k') q ∧ mem k' !! q = mem (sys_memory s) !! q) →
  space_ok start k' (pcb_memory_set b) mu.
Proof.
  intros Hr Hk Hold. pose proof (fr_space _ _ _ _ _ _ _ _ _ Hr) as [Hrep Ha Hp Hnd Hu].
  assert (Hown : ∀ q, q ∈ own (pcb_memory_set b) → in_use start (frames k') q ∧ mem k' !! q = mem (sys_memory s) !! q).
  { intros q Hq. apply Hold; [by apply Hu|]. intros Hin. by apply (fr_sep _ _ _ _ _ _ _ _ _ Hr q Hq), own_table. }
  split; [|done|done|done|intros q Hq; by apply Hown].
  eapply represents_frame; [exact Hrep|done|]. intros q Hq. by apply and_comm, Hown, own_table.
Qed.

(** The page of the trap context of the child is written. *)
Lemma forked_run start s b mu kn t0 tcb0 r0 i nu ch w2 p' page page' :
  fork_ready start s b mu kn t0 tcb0 r0 i → child_space start s b mu nu ch (memory w2) →
  (∃ perm, perm_ok perm ∧ nu !! (2 ^ 27 - 2) = Some (pte_for perm p')) → p' ∈ data_of ch →
  mem (memory w2) !! p' = Some page → length page' = 4096%nat → bytes page' →
  page' = splice 80 (le_put 8 0) (splice 280 (le_put 8 (KernelStack_get_top i)) page) →
  forked start s b mu nu ch (mkTCB i (Some (mkRes 0 (ustack_base r0))) p' None)
    (mkKmem (<[p' := page']> (mem (memory w2))) (frames (memory w2))).
Proof.
  intros Hr Hc (perm0 & Hperm0 & Hnu0) Hp' Epg Hl' Hb' Epage'. pose proof Hc as [Hch Hsh Hcop _ Hfresh Hold].
  assert (Hown : p' ∈ own ch) by (apply elem_of_app; by right).
  assert (Hbound : ∀ q, q ∈ data_of ch → 0 ≤ q < 2 ^ 44).
  { intros q Hq. destruct (used_page start (memory w2) q) as [? _]; [apply (so_rep _ _ _ _ Hch)| |done].
    apply (so_used _ _ _ _ Hch), elem_of_app. by right. }
  assert (Hframed := same_shape_framed _ _ Hsh (fr_framed _ _ _ _ _ _ _ _ _ Hr)).
  assert (Hpages : pages ch = pages (pcb_memory_set b)) by (by apply same_shape_pages).
  assert (Hne : ∀ v perm q, v ∈ pages (pcb_memory_set b) → v ≠ (2 ^ 27 - 2) → perm_ok perm → q ∈ data_of ch →
    nu !! v = Some (pte_for perm q) → q ≠ p').
  { intros v perm q Hv Hne Hperm Hq Hnu ->. apply Hne. apply (frame_at_inj ch _ _ p').
    - pose proof (so_own _ _ _ _ Hch) as Hnd. by apply NoDup_app in Hnd as (_ & _ & ?).
    - apply (page_frame start (memory w2) ch nu v perm); rewrite ?Hpages; auto.
    - apply (page_frame start (memory w2) ch nu _ perm0); rewrite ?Hpages; auto. by eapply fr_trap. }
  assert (Hold' : ∀ q, in_use start (frames (sys_memory s)) q → q ∉ pt_frames (page_table (sys_kernel_space s)) →
    in_use start (frames (memory w2)) q ∧ <[p' := page']> (mem (memory w2)) !! q = mem (sys_memory s) !! q).
  { intros q Hu Hq. rewrite lookup_insert_ne by (intros <-; by apply (Hfresh p')). by apply Hold. }
  assert (Hch' : space_ok start (mkKmem (<[p' := page']> (mem (memory w2))) (frames (memory w2))) ch nu).
  { apply space_ok_write; [done..|]. pose proof (so_own _ _ _ _ Hch) as Hnd. apply NoDup_app in Hnd as (_ & Hd & _).
    intros Hin. by apply (Hd p'). }
  split; [exact Hch'|by eapply old_space; [exact Hr|apply (so_rep _ _ _ _ Hch')|exact Hold']|exact Hsh| | |exact Hown|exact Hfresh|exact Hold'].
  - intros v Hv Hvt. destruct (Hcop v Hv) as (perm & x & x' & Hperm & Hmu & Hnu & Hx & Hx' & Hm). exists perm, x, x'.
    do 5 (split; [done|]). cbn [mem]. rewrite lookup_insert_ne; [done|]. by apply not_eq_sym, (Hne v perm).
  - destruct (Hcop _ (fr_trap _ _ _ _ _ _ _ _ _ Hr)) as (perm & x & x' & Hperm & Hmu & Hnu & Hx & Hx' & Hm).
    assert (x' = p') as ->.
    { rewrite Hnu in Hnu0. injection Hnu0 as Hpte. apply (f_equal PTE_ppn) in Hpte.
      rewrite !pte_for_ppn in Hpte by auto. done. }
    exists perm, x, page. do 4 (split; [done|]). split; [congruence|]. cbn [mem tcb_trap_cx_ppn kstack].
    rewrite lookup_insert_eq. by f_equal.
Qed.

(** The rest of [sys_fork]: the child sees 0. *)
Lemma fork_result s p b w2 tcb k3 k4 :
  (p < length (pcbs s))%nat → write_ref (tcb_trap_cx_ppn tcb * PAGE_SIZE + 80) (le_put 8 0) k3 = Ok (tt, k4) →
  (b' ← get_pcb (length (pcbs s));
   t ← main_task (length (pcbs s));
   tcb ← get_task_block t;
   write_trap_field (tcb_trap_cx_ppn tcb) (10 * 8) 0;;
   mret (i64 (pid b'))) (after_fork s p b w2 tcb k3) =
  Ok (i64 (RA_alloc (pid_allocator s)).1, after_fork s p b w2 tcb k4).
Proof.
  intros Hp E. unfold after_fork. destruct (RA_alloc (pid_allocator s)) as [cpid pra].
  assert (Hlast : ∀ (x y : ProcessControlBlock), (<[p := y]> (pcbs s) ++ [x]) !! length (pcbs s) = Some x)
    by (intros; apply lookup_last; by rewrite length_insert).
  erewrite bind_run by (apply get_pcb_run; state_eq; apply Hlast).
  erewrite bind_run by (eapply main_task_run; [state_eq; apply Hlast|reflexivity]).
  erewrite bind_run by (apply get_task_block_run; state_eq; apply lookup_last; lia).
  erewrite bind_run by (apply on_memory_run; exact E). reflexivity.
Qed.

Lemma sys_fork_run s t p b start mu kn t0 tcb0 r0 i :
  running s t p b →
  (length (tasks (pcb_proc b)) ≠ 1%nat → sys_fork strampoline s = Fail Panic) ∧
  (fork_ready start s b mu kn t0 tcb0 r0 i →
   ∃ ch nu w2 p' k', let tcb := mkTCB i (Some (mkRes 0 (ustack_base r0))) p' None in
     sys_fork strampoline s = Ok (i64 (RA_alloc (pid_allocator s)).1, after_fork s p b w2 tcb k') ∧
     memory_set w2 = ch ∧ forked start s b mu nu ch tcb k').
Proof.
  intros Hrun. pose proof Hrun as (_ & _ & Hb). unfold sys_fork. erewrite bind_run by (by eapply current_process_run). split.
  - intros Hn. unfold fork. mstep. rewrite (get_pcb_run s p b Hb), (proj2 (Z.eqb_neq _ _)) by lia. done.
  - intros Hr. destruct (child_made start s b mu kn t0 tcb0 r0 i Hr) as
      (ch & k1 & w2 & nu & p' & page & E1 & E2 & Hms & Hcs & Hnu & Hp' & Epg & Hpl & Hpb).
    set (tcb := mkTCB i (Some (mkRes 0 (ustack_base r0))) p' None) in *. set (top := le_put 8 (KernelStack_get_top i)).
    assert (Ht : length top = 8%nat) by (unfold top; by rewrite length_le_put).
    set (page1 := splice 280 top page). set (page2 := splice 80 (le_put 8 0) page1).
    assert (Hl1 : length page1 = 4096%nat) by (unfold page1; rewrite length_splice; lia).
    assert (Hl2 : length page2 = 4096%nat) by (unfold page2; rewrite length_splice; [done|rewrite length_le_put; lia]).
    assert (Hb2 : bytes page2) by (repeat apply bytes_splice; try done; apply le_put_bytes).
    set (k3 := mkKmem (<[p' := page1]> (mem (memory w2))) (frames (memory w2))).
    assert (E3 : write_ref (p' * 4096 + 280) top (memory w2) = Ok (tt, k3)).
    { by apply write_field_run; rewrite ?Ht. }
    assert (E4 : write_ref (p' * 4096 + 80) (le_put 8 0) k3 = Ok (tt, mkKmem (<[p' := page2]> (mem (memory w2))) (frames (memory w2)))).
    { rewrite (write_field_run k3 p' page1) by (try done; apply lookup_insert_eq). cbn [mem frames k3]. by rewrite insert_insert_eq. }
    exists ch, nu, w2, p', (mkKmem (<[p' := page2]> (mem (memory w2))) (frames (memory w2))). split; [|split; [done|]].
    + pose proof Hr as [_ _ _ _ _ _ Htask Hblk Hres _ _ _ _ _ _ _]. erewrite bind_run by (by eapply fork_run).
      apply fork_result; [by eapply lookup_lt_Some|exact E4].
    + by eapply forked_run.
Qed.

(** C7: [sys_fork] in a process with one thread returns the number of a new process.
    Its pages are copies of those of the parent in frames that were free, with the
    same permissions; it has the same files, no pending signals and no children; its
    one thread is at the end of the ready queue, with the registers of the parent
    except that it will see 0 as the result and has a kernel stack of its own.  The
    parent has it as a child, and keeps its own memory.  In a process whose list of
    threads has any other length the kernel panics. *)
Theorem sys_fork_spec s t p b start mu kn t0 tcb0 r0 i :
  running s t p b →
  (length (tasks (pcb_proc b)) ≠ 1%nat → sys_fork strampoline s = Fail Panic) ∧
  (fork_ready start s b mu kn t0 tcb0 r0 i →
   ∃ ch nu w2 p' k', let tcb := mkTCB i (Some (mkRes 0 (ustack_base r0))) p' None in
     sys_fork strampoline s = Ok (i64 (RA_alloc (pid_allocator s)).1, after_fork s p b w2 tcb k') ∧
     memory_set w2 = ch ∧ forked start s b mu nu ch tcb k').
Proof. apply sys_fork_run. Qed.
End fork.

(** ** Examples *)

(** A user space with the page of a trap context, and the space of the kernel. *)
Lemma solo_world :
  ∃ w mu kn q, world_ok 5 w mu kn ∧ mu !! (2 ^ 27 - 2) = Some (pte_for 6 q) ∧ q ∈ data_of (memory_set w) ∧ (12 ≤ nfree (frames (memory w)))%nat ∧ pages (memory_set w) = [2 ^ 27 - 2] ∧
    (∀ a, a ∈ areas (memory_set w) → map_type a = Framed) ∧ ∀ v, v ≠ tramp_vpn → kn !! v = None.
Proof.
  destruct (demo_world RA_new RA_new) as (w & mu & [Hu Hk Hsep] & Ha & _ & _ & Hn & Hmu).
  set (r := mkRes 0 0x20000). assert (Hr : res_ok r) by (split; cbn [tid ustack_base r]; (lia || done)).
  destruct (trap_pages r Hr) as [Ef Ec]. assert (Ev : trap_vpn r = 2 ^ 27 - 2) by done.
  destruct (insert_run 5 (memory w) (memory_set w) mu (trap_vpn r * 4096) (trap_vpn r * 4096 + 0x1000)
    (Z.lor MapPermission_R MapPermission_W)) as
    (ps & k & fr & _ & Hl & Hfl & Hs & Hg & _); [done|lia|lia|done| | |].
  { rewrite Ef, Ec. lia. } { rewrite Ef, Ec, Ev. intros v Hv. apply Hmu. unfold tramp_vpn. lia. }
  fold (trap_area r) in *. set (a := trap_area r) in *. assert (Evp : area_vpns a = [2 ^ 27 - 2]) by (rewrite <- Ev; by apply trap_vpns).
  rewrite Evp in Hl, Hfl. cbn [length] in Hl, Hfl.
  pose proof (gr_free _ _ _ _ _ Hg) as Hf. rewrite length_app in Hf.
  destruct ps as [|q [|]]; [done| |done].
  destruct (pushed_own (memory_set w) a [q] fr) as [Ho Hd]; [by rewrite Evp|done|done|]. set (ps := [q]) in *.
  assert (Ea : areas (pushed (memory_set w) a ps fr) = [with_pages (zip (area_vpns a) ps) a])
    by (unfold pushed; cbn [areas]; by rewrite Ha).
  destruct (with_pages_same (zip (area_vpns a) ps) a) as (Er & Et & _).
  exists (mkWorld (pushed (memory_set w) a ps fr) RA_new (kernel_space w) RA_new k), (pushed_map mu a ps), mu, q.
  split; [split|]; cbn [memory memory_set kernel_space]; [done| | |].
  - eapply space_ok_grows; [exact Hk|exact Hg|]. intros x Hq Hin. apply (Hsep x); by apply own_table.
  - intros x. rewrite Ho, !elem_of_app. intros [Hq|Hq] Hk'; [by apply (Hsep x)|].
    apply (gr_fresh _ _ _ _ _ Hg x); [apply elem_of_app; exact Hq|]. by apply (so_used _ _ _ _ Hk).
  - split; [apply (pushed_map_new mu a ps 0); rewrite ?Evp; done|]. split; [apply Hd; left|]. split; [lia|]. split; [|split; [|done]].
    + unfold pages. rewrite Ea. cbn [mbind list_bind]. rewrite app_nil_r. rewrite <- Evp. unfold area_vpns at 1. by rewrite Er.
    + rewrite Ea. intros x ->%list_elem_of_singleton. by rewrite Et.
Qed.

(** A process with one thread, whose trap context is in the page [q]. *)
Definition solo_tcb (q : Z) : TaskControlBlock := mkTCB 7 (Some (mkRes 0 0x20000)) q None.
Definition solo_pcb (w : world) : ProcessControlBlock :=
  mkPCB 0 false (memory_set w) None [] 0 [] 0 RA_new (mkProc [Some 0] [] [] [] false [] [] [[]] [[]] [[]] [[]]).
Definition solo (w : world) (q : Z) : system unit :=
  mkSystem [solo_pcb w] {[0 := 0%nat]} (mkRA 1 []) (kernel_space w) RA_new (memory w) [solo_tcb q] [0%nat]
    (mkKernel [] None (Some 0) ∅ ∅ [] [] [] []) [] tt [].

Lemma solo_fork_ready :
  ∃ w mu kn q, mu !! (2 ^ 27 - 2) = Some (pte_for 6 q) ∧ q ∈ data_of (memory_set w) ∧
    fork_ready 0x80200000 5 (solo w q) (solo_pcb w) mu kn 0 (solo_tcb q) (mkRes 0 0x20000) 0.
Proof.
  destruct solo_world as (w & mu & kn & q & [Hu Hk Hsep] & Hq & Hqd & Hn & Hpg & Hfr & Hkn). exists w, mu, kn, q.
  split; [done|]. split; [done|].
  split; cbn [sys_memory sys_kernel_space solo solo_pcb pcb_memory_set pcb_proc sys_kstacks]; try done.
  - rewrite Hpg. unfold tramp_vpn. intros ?%list_elem_of_singleton. lia.
  - rewrite Hpg. apply list_elem_of_here.
  - intros v Hv. apply Hkn. unfold kstack_vpn, tramp_vpn in *. lia.
  - rewrite Hpg. cbn [length]. lia.
Qed.

Lemma sys_fork_spec_witness :
  ∃ (s s' : system unit) cb, sys_fork 0x80200000 s = Ok (1, s') ∧ pcbs s' !! 1%nat = Some cb ∧ parent cb = Some 0%nat ∧
    ready_queue (sys_kern s') = [1].
Proof.
  destruct solo_fork_ready as (w & mu & kn & q & _ & _ & Hr).
  destruct (sys_fork_spec 0x80200000 (solo w q) 0 0 (solo_pcb w) 5 mu kn 0 (solo_tcb q) (mkRes 0 0x20000) 0
    ltac:(by split)) as [_ Hf].
  destruct (Hf Hr) as (ch & nu & w2 & p' & k' & E & _). exists (solo w q). do 2 eexists. split; [exact E|]. done.
Defined.
