(* ===== verification/ExitSpec.v ===== *)
(** * The end of threads and processes (os/src/task/mod.rs)

    What is left when a thread exits, and when the main thread of a process does: a
    zombie with an exit code and a page table, whose children belong to the first
    process.  The kernel stacks that go are those of tasks without references. *)

From S2P Require Import Prelude Bytes BlockStore Address FrameAlloc PageTable MemorySet MemorySpec AddressSpace.
From S2P Require Import Ids TaskRes UserMem Files UserRange Pipe FileCalls Threads Sync SyncCalls ThreadCalls.
From S2P Require Import ThreadSpec Processes ProcessSpec ForkSpec.

(** ** Frames given back *)

(** An address space loses data pages, whose frames are freed; nothing else changes
    hands. *)
Record sheds (start : Z) (ms ms' : MemorySet) (k k' : kmem) : Prop := {
  sd_table : page_table ms' = page_table ms;
  sd_data q : q ∈ data_of ms' → q ∈ data_of ms;
  sd_nodup : NoDup (data_of ms) → NoDup (data_of ms');
  sd_use q : in_use start (frames k') q ↔ in_use start (frames k) q ∧ (q ∈ data_of ms → q ∈ data_of ms');
}.

Lemma sheds_refl start ms k : sheds start ms ms k k.
Proof. split; naive_solver. Qed.

Lemma sheds_trans start ms1 ms2 ms3 k1 k2 k3 :
  sheds start ms1 ms2 k1 k2 → sheds start ms2 ms3 k2 k3 → sheds start ms1 ms3 k1 k3.
Proof.
  intros [T1 D1 N1 U1] [T2 D2 N2 U2]. split; [congruence|auto|auto|].
  intros q. rewrite U2, U1. naive_solver.
Qed.

Lemma data_of_delete ms j a q :
  areas ms !! j = Some a → NoDup (data_of ms) →
  (q ∈ data_of ms → q ∈ data_of (mkMS (page_table ms) (delete j (areas ms))) ↔ q ∉ area_frames a) ∧
  (q ∈ data_of (mkMS (page_table ms) (delete j (areas ms))) → q ∈ data_of ms).
Proof.
  intros Hj Hnd. apply list_elem_of_split_length in Hj as (l1 & l2 & El & ->). unfold data_of in *. cbn [areas].
  rewrite El in *. rewrite delete_middle, !bind_app in *.
  change ((a :: l2) ≫= area_frames) with (area_frames a ++ (l2 ≫= area_frames)) in *.
  apply NoDup_app in Hnd as (_ & H1 & Hnd). apply NoDup_app in Hnd as (_ & H2 & _). rewrite !elem_of_app.
  specialize (H1 q). specialize (H2 q). rewrite !elem_of_app in H1. tauto.
Qed.

Lemma area_gone_sheds start v ms ms' k k' mu mu' :
  NoDup (data_of ms) → area_gone start v ms ms' k k' mu mu' → sheds start ms ms' k k'.
Proof.
  intros Hnd [Hpt Hg]. destruct (list_find _ _) as [[j a]|] eqn:Ef.
  - apply list_find_Some in Ef as (Hj & _). destruct Hg as (Ha & _ & Huse).
    assert (ms' = mkMS (page_table ms) (delete j (areas ms))) as -> by (destruct ms'; cbn in *; congruence).
    split; [done| | |].
    + intros q. by apply (data_of_delete _ j a q).
    + intros _. apply list_elem_of_split_length in Hj as (l1 & l2 & El & ->). unfold data_of in *. cbn [areas]. rewrite El in *.
      rewrite delete_middle, !bind_app in *. eapply sublist_NoDup; [exact Hnd|]. apply sublist_app; [done|]. by apply sublist_inserts_l.
    + intros q. rewrite Huse. destruct (data_of_delete _ j a q Hj Hnd) as [H1 H2].
      destruct (decide (q ∈ data_of ms)) as [Hq|Hq]; [rewrite (H1 Hq); tauto|].
      split; [naive_solver|]. intros [? _]. split; [|done]. intros Hin. apply Hq. apply list_elem_of_bind. exists a.
      split; [done|]. by eapply list_elem_of_lookup_2.
  - destruct Hg as (Ha & _ & ->). assert (ms' = ms) as -> by (destruct ms', ms; cbn in *; congruence). apply sheds_refl.
Qed.

Lemma res_gone_sheds start r w w' mu mu' :
  NoDup (data_of (memory_set w)) → res_gone start r w w' mu mu' →
  sheds start (memory_set w) (memory_set w') (memory w) (memory w').
Proof.
  intros Hnd (ms1 & s1 & mu1 & H1 & H2). assert (S1 := area_gone_sheds _ _ _ _ _ _ _ _ Hnd H1).
  eapply sheds_trans; [exact S1|]. eapply area_gone_sheds; [|exact H2]. by apply (sd_nodup _ _ _ _ _ S1).
Qed.

Lemma recycle_sheds start k k' ms : shrinks start [] k k' (data_of ms) → sheds start ms (mkMS (page_table ms) []) k k'.
Proof.
  intros [_ _ Hu _]. split; [done| | |].
  - by intros q ?%not_elem_of_nil.
  - constructor.
  - intros q. rewrite Hu. cbn. pose proof (not_elem_of_nil q). tauto.
Qed.

(** *** Kernel stacks *)

(** The area of the kernel stack [i], and its frames. *)
Definition kernel_area (ms : MemorySet) (i : Z) : option MapArea :=
  snd <$> list_find (λ a, range_l (vpn_range a) = kstack_vpn i) (areas ms).
Definition kernel_frames (ms : MemorySet) (i : Z) : list Z := from_option area_frames [] (kernel_area ms i).

Lemma list_find_delete {A} (P : A → Prop) `{∀ x, Decision (P x)} (l : list A) : ∀ j a,
  l !! j = Some a → ¬ P a → snd <$> list_find P (delete j l) = snd <$> list_find P l.
Proof.
  induction l as [|x l IH]; intros [|j] a Hj Hn; [done|done| |]; cbn in Hj.
  - injection Hj as ->. cbn. rewrite decide_False by done. by destruct (list_find P l) as [[]|].
  - cbn. case_decide; [done|]. specialize (IH j a Hj Hn). rewrite <- !option_fmap_compose.
    by destruct (list_find P (delete j l)) as [[]|], (list_find P l) as [[]|].
Qed.

(** The stack [i] goes: its frames are free, the other stacks keep their areas. *)
Lemma stack_gone start i ms ms' k k' mu mu' :
  area_gone start (kstack_vpn i) ms ms' k k' mu mu' →
  (∀ q, in_use start (frames k') q ↔ in_use start (frames k) q ∧ q ∉ kernel_frames ms i) ∧
  ∀ j, j ≠ i → kernel_area ms' j = kernel_area ms j.
Proof.
  intros [_ Hg]. unfold kernel_frames, kernel_area. destruct (list_find _ (areas ms)) as [[n a]|] eqn:Ef.
  - destruct Hg as (Ha & _ & Hu). apply list_find_Some in Ef as (Hn & Hr & _). split.
    + intros q. rewrite Hu. cbn. tauto.
    + intros j Hj. rewrite Ha. apply (list_find_delete _ _ _ a); [done|]. rewrite Hr. unfold kstack_vpn. lia.
  - destruct Hg as (Ha & _ & ->). split; [|intros; by rewrite Ha]. intros q. cbn. pose proof (not_elem_of_nil q). tauto.
Qed.

(** ** The resources of threads *)

(** The resources [rs] are still allocated, each once. *)
Definition to_drop (rs : list TaskUserRes) (peak : Z) (live : gset Z) (ra : RecycleAllocator) : Prop :=
  Forall res_ok rs ∧ NoDup (tid <$> rs) ∧ (∀ r, r ∈ rs → tid r ∈ live) ∧ ra_inv peak live ra.

Section exit.
Context {St : Type}.
Implicit Types s : system St.

(** The state of the process [p] with another world. *)
Definition set_world (p : nat) (b : ProcessControlBlock) (w : world) s : system St :=
  with_view p b (mkTsys (pcb_proc b) (sys_kern s) w (sys_tcbs s)) s.

Lemma in_world_run s p b (m : M world unit) w :
  pcbs s !! p = Some b → m (t_world (process_view b s)) = Ok (tt, w) →
  in_process p (in_world m) s = Ok (tt, set_world p b w s).
Proof. intros Hb Hm. eapply in_process_run; [exact Hb|]. unfold in_world. by rewrite Hm. Qed.

Lemma drop_res_run rs : ∀ s p b start mu nu peak live,
  pcbs s !! p = Some b → world_ok start (t_world (process_view b s)) mu nu → to_drop rs peak live (pcb_res_allocator b) →
  ∃ w' mu', drop_res p rs s = Ok (tt, set_world p b w' s) ∧ world_ok start w' mu' nu ∧
    sheds start (pcb_memory_set b) (memory_set w') (sys_memory s) (memory w') ∧
    kernel_space w' = sys_kernel_space s ∧ kstack_allocator w' = sys_kstacks s.
Proof.
  induction rs as [|r rs IH]; intros s p b start mu nu peak live Hb Hw (Hok & Hnd & Hin & Hra).
  - exists (t_world (process_view b s)), mu. split.
    + by rewrite <- (with_view_same s p b Hb) at 1.
    + split; [done|]. split; [apply sheds_refl|done].
  - apply Forall_cons in Hok as [Hr Hok]. apply NoDup_cons in Hnd as [Hn Hnd].
    destruct (TaskUserRes_drop_run start _ mu nu r peak live Hw Hr Hra) as (w1 & mu1 & E1 & Hw1 & Hg & Hra1 & _ & Ek & Es);
      [apply Hin, list_elem_of_here|].
    assert (Hsd : sheds start (pcb_memory_set b) (memory_set w1) (sys_memory s) (memory w1)).
    { apply (res_gone_sheds start r (t_world (process_view b s)) w1 mu mu1); [|done].
      pose proof (so_own _ _ _ _ (wo_user _ _ _ _ Hw)) as Hd. by apply NoDup_app in Hd as (_ & _ & ?). }
    cbn [drop_res]. erewrite bind_run by (by apply in_world_run). set (s1 := set_world p b w1 s).
    set (b1 := mkPCB (pid b) (is_zombie b) (memory_set w1) (parent b) (children b) (pcb_exit_code b)
                 (pcb_fd_table b) (signals b) (task_res_allocator w1) (pcb_proc b)).
    assert (Hb1 : pcbs s1 !! p = Some b1) by (apply list_lookup_insert_eq; by eapply lookup_lt_Some).
    destruct (IH s1 p b1 start mu1 nu peak (live ∖ {[tid r]}) Hb1) as (w' & mu' & E & Hw' & Hsd' & Ek' & Es').
    { by destruct w1. }
    { split; [done|]. split; [done|]. split; [|done]. intros x Hx. apply elem_of_difference. split; [by apply Hin, list_elem_of_further|].
      intros Ht%elem_of_singleton. apply Hn. rewrite <- Ht. by apply list_elem_of_fmap_2. }
    exists w', mu'. split.
    + rewrite E. do 2 f_equal. unfold set_world, s1, set_world. state_eq. by rewrite list_insert_insert_eq.
    + split; [done|]. split; [by eapply sheds_trans|]. split; [rewrite Ek'; exact Ek|rewrite Es'; exact Es].
Qed.

(** ** Kernel stacks of tasks without references *)

Definition set_kernel (w : world) s : system St :=
  mkSystem (pcbs s) (pid2pcb s) (pid_allocator s) (kernel_space w) (kstack_allocator w) (memory w) (sys_tcbs s)
    (owners s) (sys_kern s) (stack_refs s) (sys_disk s) (sys_files s).

(** The tasks have control blocks, with kernel stacks of their own. *)
Record stacks_known s (l : list Z) (klive : gset Z) : Prop := {
  sk_block x : x ∈ l → ∃ b, sys_tcbs s !! Z.to_nat x = Some b ∧ kstack b ∈ klive;
  sk_inj x y b b' : x ∈ l → y ∈ l → sys_tcbs s !! Z.to_nat x = Some b → sys_tcbs s !! Z.to_nat y = Some b' →
    kstack b = kstack b' → x = y;
}.

Definition stack_of s (x : Z) : option Z := kstack <$> sys_tcbs s !! Z.to_nat x.

(** The stacks that go: those of the tasks of [l] that nothing refers to. *)
Definition released_stack s (l : list Z) (i : Z) : Prop :=
  ∃ x, x ∈ l ∧ task_referenced x s = false ∧ stack_of s x = Some i.

(** What the release of tasks does to the kernel: stacks go, with their frames; the
    other stacks and the user spaces stay. *)
Record stacks_released (start : Z) s (b : ProcessControlBlock) (l : list Z) (mu : gmap Z Z) (klive klive' : gset Z) (w' : world) : Prop := {
  sr_user : memory_set w' = pcb_memory_set b ∧ task_res_allocator w' = pcb_res_allocator b;
  sr_world : ∃ nu', world_ok start w' mu nu';
  sr_frames q : in_use start (frames (memory w')) q ↔
    in_use start (frames (sys_memory s)) q ∧ ¬ ∃ i, released_stack s l i ∧ q ∈ kernel_frames (sys_kernel_space s) i;
  sr_areas i : ¬ released_stack s l i → kernel_area (kernel_space w') i = kernel_area (sys_kernel_space s) i;
  sr_ids : ids_ok klive' (kstack_allocator w');
  sr_live i : i ∈ klive' ↔ i ∈ klive ∧ ¬ released_stack s l i;
}.

Lemma set_world_kernel s p b w :
  pcbs s !! p = Some b → memory_set w = pcb_memory_set b → task_res_allocator w = pcb_res_allocator b →
  set_world p b w s = set_kernel w s.
Proof.
  intros Hb E1 E2. unfold set_world, with_view, set_kernel. cbn [t_world t_proc t_kern t_tcbs]. rewrite E1, E2. f_equal.
  destruct b. by apply list_insert_id.
Qed.

Lemma released_stack_cons s x l b i :
  task_referenced x s = false → sys_tcbs s !! Z.to_nat x = Some b →
  released_stack s (x :: l) i ↔ i = kstack b ∨ released_stack s l i.
Proof.
  intros Hr Hb. unfold released_stack, stack_of. setoid_rewrite elem_of_cons. split.
  - intros (y & [->|Hy] & ? & E); [left; rewrite Hb in E; by injection E|right; by exists y].
  - intros [->|(y & ? & ? & ?)]; [exists x; by rewrite Hb; eauto|exists y; eauto].
Qed.

Lemma released_stack_skip s x l i : task_referenced x s = true → released_stack s (x :: l) i ↔ released_stack s l i.
Proof. intros Hr. unfold released_stack. setoid_rewrite elem_of_cons. naive_solver congruence. Qed.

(** One more stack goes. *)
Lemma stacks_released_cons start s b x l xb mu nu nu1 klive klive' w1 w' :
  task_referenced x s = false → sys_tcbs s !! Z.to_nat x = Some xb → ¬ released_stack s l (kstack xb) →
  kstack_gone start (kstack xb) (t_world (process_view b s)) w1 nu nu1 →
  stacks_released start (set_kernel w1 s) b l mu (klive ∖ {[kstack xb]}) klive' w' →
  stacks_released start s b (x :: l) mu klive klive' w'.
Proof.
  intros Href Hxb Hn [Hf Ha]%stack_gone [Hu Hw Hfr Har Hid Hl]. split; [done|done| | |done|].
  - intros q. rewrite Hfr. change (sys_memory (set_kernel w1 s)) with (memory w1). rewrite Hf. cbn [kernel_space t_world process_view memory].
    setoid_rewrite (released_stack_cons s x l xb _ Href Hxb). change (released_stack (set_kernel w1 s) l) with (released_stack s l).
    cbn [sys_kernel_space set_kernel].
    assert (Hsame : ∀ i, released_stack s l i → kernel_frames (kernel_space w1) i = kernel_frames (sys_kernel_space s) i).
    { intros i Hi. unfold kernel_frames. rewrite Ha; [done|]. by intros ->. }
    split.
    + intros [[Hq1 Hq2] Hq3]. split; [done|]. intros (i & [->|Hi] & Hq); [done|]. apply Hq3. exists i. by rewrite Hsame.
    + intros [Hq1 Hq2]. split; [split; [done|]; intros Hq; apply Hq2; eauto|]. intros (i & Hi & Hq). apply Hq2. exists i. rewrite <- Hsame; eauto.
  - intros i Hi. rewrite (released_stack_cons s x l xb i Href Hxb) in Hi. rewrite Har by tauto. apply Ha. tauto.
  - intros i. rewrite Hl, elem_of_difference, elem_of_singleton, (released_stack_cons s x l xb i Href Hxb).
    change (released_stack (set_kernel w1 s) l i) with (released_stack s l i). tauto.
Qed.

Lemma release_tasks_run l : ∀ s p b start mu nu klive,
  pcbs s !! p = Some b → world_ok start (t_world (process_view b s)) mu nu → ids_ok klive (sys_kstacks s) →
  NoDup l → stacks_known s l klive →
  ∃ w' klive', release_tasks p l s = Ok (tt, set_kernel w' s) ∧ stacks_released start s b l mu klive klive' w'.
Proof.
  induction l as [|x l IH]; intros s p b start mu nu klive Hb Hw Hk Hnd [Hbl Hinj].
  - exists (t_world (process_view b s)), klive. split; [by destruct s|].
    assert (Hno : ∀ i, ¬ released_stack s [] i) by (intros i (x & ?%not_elem_of_nil & _); done).
    split; [done|by exists nu| |done|done|intros i; naive_solver]. intros q. naive_solver.
  - apply NoDup_cons in Hnd as [Hx Hnd]. destruct (Hbl x) as (xb & Exb & Hlive); [apply list_elem_of_here|].
    cbn [release_tasks]. erewrite bind_run by (by apply get_task_block_run). erewrite bind_run by reflexivity.
    destruct (task_referenced x s) eqn:Eref.
    + erewrite bind_run by reflexivity. destruct (IH s p b start mu nu klive Hb Hw Hk Hnd) as (w' & klive' & E & [Hu Hw' Hf Ha Hi Hl]).
      { split; [intros; by apply Hbl, list_elem_of_further|intros; eapply Hinj; eauto using list_elem_of_further]. }
      exists w', klive'. split; [done|]. pose proof (λ i, released_stack_skip s x l i Eref) as Hs.
      split; [done|done| |intros i; rewrite Hs; apply Ha|done|intros i; by rewrite Hs]. intros q. setoid_rewrite Hs. apply Hf.
    + destruct (KernelStack_drop_run start _ mu nu _ klive (kstack xb) Hw Hk Hlive) as (w1 & nu1 & E1 & Hw1 & Hk1 & Em & Et & Hg);
        [by eapply ids_bound|].
      erewrite bind_run by (by apply in_world_run). rewrite (set_world_kernel s p b w1 Hb Em Et).
      assert (Hnew : ∀ y yb, y ∈ l → sys_tcbs s !! Z.to_nat y = Some yb → kstack yb ≠ kstack xb).
      { intros y yb Hy Hyb Ek. apply Hx. rewrite <- (Hinj y x yb xb); auto using list_elem_of_here, list_elem_of_further. }
      destruct (IH (set_kernel w1 s) p b start mu nu1 (klive ∖ {[kstack xb]}) Hb) as (w' & klive' & E & Hrel);
        [|exact Hk1|exact Hnd| |].
      { cbn in Em, Et. destruct w1. cbn in *. by subst. }
      { split; [|intros; eapply Hinj; eauto using list_elem_of_further]. intros y Hy.
        destruct (Hbl y) as (yb & Eyb & Hyl); [by apply list_elem_of_further|]. exists yb. split; [done|].
        apply elem_of_difference. split; [done|]. intros ?%elem_of_singleton. by eapply Hnew. }
      exists w', klive'. split; [exact E|]. eapply stacks_released_cons; try done.
      intros (y & Hy & _ & Ey). unfold stack_of in Ey. destruct (sys_tcbs s !! Z.to_nat y) as [yb|] eqn:Eyb; [|done].
      injection Ey as Ey. by eapply Hnew.
Qed.

(** ** Orphans *)

(** The children [l] go to the first process. *)
Definition adopt (initproc : nat) (bs : list ProcessControlBlock) (c : nat) : list ProcessControlBlock :=
  alter (λ b, set_children (children b ++ [c]) b) initproc (alter (set_parent (Some initproc)) c bs).

Lemma alter_pcb_alter s p f b : pcbs s !! p = Some b → alter_pcb p f s = Ok (tt, set_pcbs (alter f p (pcbs s)) s).
Proof.
  intros Hb. rewrite (alter_pcb_run s p f b Hb). do 3 f_equal. apply list_eq. intros i.
  destruct (decide (i = p)) as [->|]; [|by rewrite list_lookup_insert_ne, list_lookup_alter_ne by done].
  rewrite list_lookup_insert_eq, list_lookup_alter_eq, Hb by (by eapply lookup_lt_Some). done.
Qed.

Lemma reparent_run l : ∀ s p initproc,
  known (pcbs s) (initproc :: l) → (p ∉ l) → (initproc ∉ l) →
  reparent p initproc l s = Ok (tt, set_pcbs (foldl (adopt initproc) (pcbs s) l) s).
Proof.
  induction l as [|c l IH]; intros s p initproc Hk Hp Hi.
  - by destruct s.
  - rewrite not_elem_of_cons in Hp, Hi. destruct Hp as [Hpc Hp], Hi as [Hic Hi].
    destruct (Hk c) as [cb Hcb]; [right; left|]. destruct (Hk initproc) as [ib Hib]; [left|].
    cbn [reparent foldl]. rewrite !bool_decide_false by done. erewrite bind_run by reflexivity.
    erewrite bind_run by (by eapply alter_pcb_alter).
    erewrite bind_run; [|eapply (alter_pcb_alter _ _ _ ib); cbn [pcbs set_pcbs]; by rewrite list_lookup_alter_ne by done].
    rewrite IH; [by destruct s| |done|done]. intros x Hx. cbn [pcbs set_pcbs].
    rewrite !list_lookup_alter. do 2 case_decide; rewrite ?fmap_is_Some; apply Hk; set_solver.
Qed.

(** The orphans have the first process as their parent, which has them as children;
    nothing else changes. *)
Lemma adopt_facts l : ∀ initproc bs,
  known bs (initproc :: l) → (initproc ∉ l) → NoDup l →
  let bs' := foldl (adopt initproc) bs l in
  (∀ c, c ∈ l → bs' !! c = set_parent (Some initproc) <$> bs !! c) ∧
  (bs' !! initproc = (λ b, set_children (children b ++ l) b) <$> bs !! initproc) ∧
  ∀ q, (q ∉ l) → q ≠ initproc → bs' !! q = bs !! q.
Proof.
  induction l as [|c l IH]; intros initproc bs Hk Hi Hnd; cbn [foldl].
  - split; [by intros c ?%not_elem_of_nil|]. split; [|done]. destruct (bs !! initproc) as [[]|]; [|done]. cbn. by rewrite app_nil_r.
  - rewrite not_elem_of_cons in Hi. destruct Hi as [Hic Hi]. apply NoDup_cons in Hnd as [Hc Hnd].
    assert (Hl : ∀ q, adopt initproc bs c !! q =
      if decide (q = initproc) then (λ b, set_children (children b ++ [c]) b) <$> bs !! q
      else if decide (q = c) then set_parent (Some initproc) <$> bs !! q else bs !! q).
    { intros q. unfold adopt. rewrite !list_lookup_alter. repeat case_decide; subst; done. }
    destruct (IH initproc (adopt initproc bs c)) as (H1 & H2 & H3); [|done|done|].
    { intros x Hx. rewrite Hl. repeat case_decide; rewrite ?fmap_is_Some; apply Hk; set_solver. }
    split; [|split].
    + intros x [->|Hx]%elem_of_cons; [rewrite H3 by done|rewrite H1 by done]; rewrite Hl.
      * by rewrite decide_False, decide_True by done.
      * rewrite !decide_False by (intros ->; done). done.
    + rewrite H2, Hl, decide_True by done. destruct (bs !! initproc) as [[]|]; [|done]. cbn. by rewrite <- app_assoc.
    + intros q Hq Hqi. rewrite not_elem_of_cons in Hq. destruct Hq. by rewrite H3, Hl, !decide_False by done.
Qed.

(** ** The threads of a process that ends *)

Definition retired (b : TaskControlBlock) : TaskControlBlock := mkTCB (kstack b) None (tcb_trap_cx_ppn b) (exit_code b).
(** A thread leaves the ready queue and the timers. *)
Definition quit (k : kernel) (t : Z) : kernel :=
  set_timers (filter (λ x, timer_task x ≠ t) (timers k)) (set_ready (remove_first t (ready_queue k)) k).

Definition set_threads (l : list TaskControlBlock) (k : kernel) s : system St :=
  mkSystem (pcbs s) (pid2pcb s) (pid_allocator s) (sys_kernel_space s) (sys_kstacks s) (sys_memory s) l
    (owners s) k (stack_refs s) (sys_disk s) (sys_files s).

(** A change of the threads only. *)
Lemma in_threads_run {A} s p b (m : M tsys A) a l k :
  pcbs s !! p = Some b →
  m (process_view b s) = Ok (a, mkTsys (pcb_proc b) k (t_world (process_view b s)) l) →
  in_process p m s = Ok (a, set_threads l k s).
Proof.
  intros Hb Hm. rewrite (in_process_run s p b m a _ Hb Hm). do 2 f_equal. unfold with_view, set_threads. state_eq. f_equal.
  destruct b. by apply list_insert_id.
Qed.

Lemma collect_res_run l : ∀ s p b,
  pcbs s !! p = Some b → NoDup (Z.to_nat <$> omap id l) →
  (∀ t, t ∈ omap id l → is_Some (sys_tcbs s !! Z.to_nat t)) →
  collect_res p l s =
    Ok (omap (λ t, sys_tcbs s !! Z.to_nat t ≫= res) (omap id l),
        set_threads (foldl (λ ts t, alter retired (Z.to_nat t) ts) (sys_tcbs s) (omap id l))
          (foldl quit (sys_kern s) (omap id l)) s).
Proof.
  induction l as [|[t|] l IH]; intros s p b Hb Hnd Hk; cbn [omap list_omap id] in *.
  - by destruct s.
  - cbn [fmap list_fmap] in Hnd. apply NoDup_cons in Hnd as [Ht Hnd]. destruct (Hk t) as [tb Etb]; [apply list_elem_of_here|].
    cbn [collect_res foldl]. erewrite bind_run by (eapply in_threads_run; [exact Hb|reflexivity]).
    erewrite bind_run by (eapply in_threads_run; [exact Hb|reflexivity]).
    erewrite bind_run by (by apply get_task_block_run).
    erewrite bind_run by (eapply in_threads_run; [exact Hb|reflexivity]).
    assert (Ealt : <[Z.to_nat t := retired tb]> (sys_tcbs s) = alter retired (Z.to_nat t) (sys_tcbs s)).
    { apply list_eq. intros i. destruct (decide (i = Z.to_nat t)) as [->|].
      - rewrite list_lookup_insert_eq, list_lookup_alter_eq, Etb by (by eapply lookup_lt_Some). done.
      - by rewrite list_lookup_insert_ne, list_lookup_alter_ne by done. }
    set (s1 := set_threads (alter retired (Z.to_nat t) (sys_tcbs s)) (quit (sys_kern s) t) s).
    match goal with |- (_ ≫= _) ?x = _ => assert (x = s1) as -> by (unfold s1; rewrite <- Ealt; reflexivity) end.
    erewrite bind_run; [|apply (IH s1 p b Hb Hnd)].
    + cbn [sys_tcbs sys_kern set_threads s1]. rewrite Etb. cbn [mbind option_bind].
      assert (omap (λ t0, alter retired (Z.to_nat t) (sys_tcbs s) !! Z.to_nat t0 ≫= res) (omap id l) =
              omap (λ t0, sys_tcbs s !! Z.to_nat t0 ≫= res) (omap id l)) as ->; [|by destruct (res tb)].
      apply list_omap_ext, Forall_Forall2_diag, Forall_forall. intros x Hx. rewrite list_lookup_alter_ne; [done|].
      intros E. apply Ht. rewrite E. by apply list_elem_of_fmap_2.
    + intros x Hx. cbn [sys_tcbs set_threads s1]. rewrite list_lookup_alter.
      case_decide; [rewrite fmap_is_Some; apply Hk; left|apply Hk; by right].
  - cbn [collect_res]. by apply (IH s p b).
Qed.

(** ** The exit of another thread *)

Lemma thread_exit_run initproc code s t p b tcb r w :
  running s t p b → sys_tcbs s !! Z.to_nat t = Some tcb → res tcb = Some r → tid r ≠ 0 →
  TaskUserRes_drop r (t_world (process_view b s)) = Ok (tt, w) →
  exit_current_and_run_next initproc code s =
    Ok (Scheduled, with_view p b (with_exit (process_view b s) t tcb code w) s).
Proof.
  intros Hrun Hblk Hres Hmain E. pose proof Hrun as (Hcur & _ & Hb).
  unfold exit_current_and_run_next. erewrite bind_run by (by eapply current_process_run).
  erewrite bind_run by (eapply in_threads_run; [exact Hb|reflexivity]).
  erewrite bind_run; [|unfold t_kern, process_view; rewrite Hcur; reflexivity].
  erewrite bind_run by (by apply get_task_block_run). erewrite bind_run; [|rewrite Hres; reflexivity].
  erewrite bind_run by (eapply in_threads_run; [exact Hb|reflexivity]).
  erewrite bind_run by (eapply in_world_run; [exact Hb|exact E]).
  rewrite (proj2 (Z.eqb_neq _ _)) by exact Hmain. reflexivity.
Qed.

(** C26: when a thread other than the main thread exits, its number, its user stack and
    its trap context go back at once, so that its number is the next to be handed out.
    Its control block stays, with the exit code and the kernel stack; no task is
    current, and nothing else of the system changes: the process lives on.  Threads
    that were consistent stay so, and the slot of the process still refers to the
    thread. *)
Theorem thread_exit_spec initproc code s t p b tcb r start mu nu peak live :
  running s t p b → sys_tcbs s !! Z.to_nat t = Some tcb → 0 ≤ t → res tcb = Some r → tid r ≠ 0 →
  world_ok start (t_world (process_view b s)) mu nu → res_ok r → ra_inv peak live (pcb_res_allocator b) → tid r ∈ live →
  ∃ w' mu', exit_current_and_run_next initproc code s =
      Ok (Scheduled, with_view p b (with_exit (process_view b s) t tcb code w') s) ∧
    world_ok start w' mu' nu ∧ res_gone start r (t_world (process_view b s)) w' mu mu' ∧
    ra_inv peak (live ∖ {[tid r]}) (task_res_allocator w') ∧ (RA_alloc (task_res_allocator w')).1 = tid r ∧
    kernel_space w' = sys_kernel_space s ∧ kstack_allocator w' = sys_kstacks s ∧
    ∀ tids klive, threads_ok start (process_view b s) mu nu tids klive →
      threads_ok start (with_exit (process_view b s) t tcb code w') mu' nu (tids ∖ {[tid r]}) klive ∧
      slot (with_exit (process_view b s) t tcb code w') (tid r) t.
Proof.
  intros Hrun Hblk H0 Hres Hmain Hw Hr Hra Hl.
  destruct (TaskUserRes_drop_run start _ mu nu r peak live Hw Hr Hra Hl) as (w' & mu' & E & Hw' & Hg & Hra' & Hn & Ek & Es).
  exists w', mu'. split; [by eapply thread_exit_run|]. do 6 (split; [done|]). intros tids klive Hth.
  assert (Hb : block (process_view b s) t tcb) by done.
  split; [by eapply threads_ok_exit|]. by apply (th_running _ _ _ _ _ _ Hth t tcb r).
Qed.

(** ** The exit of a main thread *)

(** The process [p] runs its main thread [t], which has the resources [r]; [rest] are
    the other slots of its threads.  The identifiers in use are [live], the kernel
    stacks in use [klive]. *)
Record exit_ready (start : Z) s (t : Z) (p : nat) (b : ProcessControlBlock) (tcb : TaskControlBlock) (r : TaskUserRes)
    (rest : list (option Z)) (mu nu : gmap Z Z) (peak : Z) (live klive : gset Z) (initproc : nat) : Prop := {
  er_running : running s t p b;
  er_tasks : tasks (pcb_proc b) = Some t :: rest;
  er_block : sys_tcbs s !! Z.to_nat t = Some tcb;
  er_res : res tcb = Some r;
  er_main : tid r = 0;
  er_nodup : NoDup (Z.to_nat <$> t :: omap id rest);
  er_known x : x ∈ omap id rest → is_Some (sys_tcbs s !! Z.to_nat x);
  er_world : world_ok start (t_world (process_view b s)) mu nu;
  er_drop : to_drop (r :: omap (λ x, sys_tcbs s !! Z.to_nat x ≫= res) (omap id rest)) peak live (pcb_res_allocator b);
  er_ids : ids_ok klive (sys_kstacks s);
  er_stacks : stacks_known s (option_list (stop_task (sys_kern s)) ++ t :: omap id rest) klive;
  er_pid : pid b ≠ IDLE_PID ∧ is_Some (pid2pcb s !! pid b);
  er_init : initproc ≠ p ∧ (initproc ∉ children b) ∧ (p ∉ children b);
  er_children : known (pcbs s) (initproc :: children b) ∧ NoDup (children b);
}.

(** The control block that is left. *)
Definition zombie_of (code : Z) (ra : RecycleAllocator) (b : ProcessControlBlock) : ProcessControlBlock :=
  mkPCB (pid b) true (mkMS (page_table (pcb_memory_set b)) []) (parent b) [] code [] (signals b) ra (set_tasks [] (pcb_proc b)).

(** Until then: [w] is the memory of the process. *)
Definition exiting (code : Z) (w : world) (b : ProcessControlBlock) : ProcessControlBlock :=
  mkPCB (pid b) true (memory_set w) (parent b) (children b) code (pcb_fd_table b) (signals b) (task_res_allocator w) (pcb_proc b).

(** The kernel after the current task stopped. *)
Definition stopped (t : Z) (k : kernel) : kernel := set_stop (Some t) (set_current None k).

(** *** The states on the way *)

Section states.
Context (s : system St) (t : Z) (p : nat) (b : ProcessControlBlock) (tcb : TaskControlBlock) (rest : list (option Z))
        (initproc : nat) (code : Z).

Definition with_space (w : world) : ProcessControlBlock :=
  mkPCB (pid b) (is_zombie b) (memory_set w) (parent b) (children b) (pcb_exit_code b) (pcb_fd_table b) (signals b)
    (task_res_allocator w) (pcb_proc b).

(** The main thread has given its resources back. *)
Definition state1 (w : world) : system St :=
  mkSystem (<[p := with_space w]> (pcbs s)) (pid2pcb s) (pid_allocator s) (kernel_space w) (kstack_allocator w) (memory w)
    (<[Z.to_nat t := mkTCB (kstack tcb) None (tcb_trap_cx_ppn tcb) (Some code)]> (sys_tcbs s)) (owners s)
    (stopped t (sys_kern s)) (stack_refs s) (sys_disk s) (sys_files s).

(** The children are orphans; [w2] is the memory without the stack of the task that
    stopped before. *)
Definition state2 (w1 w2 : world) : system St :=
  mkSystem (foldl (adopt initproc) (<[p := exiting code w1 b]> (pcbs s)) (children b)) (delete (pid b) (pid2pcb s))
    (pid_allocator s) (kernel_space w2) (kstack_allocator w2) (memory w2) (sys_tcbs (state1 w1)) (owners s)
    (stopped t (sys_kern s)) (stack_refs s) (sys_disk s) (sys_files s).

(** The other threads are gone. *)
Definition state3 (w1 w2 : world) : system St :=
  set_threads (foldl (λ ts t, alter retired (Z.to_nat t) ts) (sys_tcbs (state1 w1)) (t :: omap id rest))
    (foldl quit (stopped t (sys_kern s)) (t :: omap id rest)) (state2 w1 w2).

(** The zombie is left; [w3] is the memory without the resources of the threads, [k]
    that without the data pages. *)
Definition state4 (w1 w2 w3 : world) (k : kmem) : system St :=
  mkSystem (<[p := zombie_of code (task_res_allocator w3) b]> (pcbs (state2 w1 w2))) (delete (pid b) (pid2pcb s))
    (pid_allocator s) (kernel_space w3) (kstack_allocator w3) k (sys_tcbs (state3 w1 w2)) (owners s)
    (sys_kern (state3 w1 w2)) (stack_refs s) (sys_disk s) (sys_files s).
End states.

Lemma remove_pid_run s i q :
  pid2pcb s !! i = Some q → remove_from_pid2process i s = Ok (tt, set_pids (delete i (pid2pcb s)) (pid_allocator s) s).
Proof. intros Hq. unfold remove_from_pid2process, pid2process. mstep. by rewrite Hq. Qed.

(** Names the state that a computation is in. *)
Ltac change_state x :=
  match goal with |- (_ ≫= _) ?y = _ => change y with x end.

(** What is left of the control block. *)
Lemma exit_tail s p b ms k :
  pcbs s !! p = Some b → recycle_data_pages (pcb_memory_set b) (sys_memory s) = Ok (ms, k) →
  (alter_pcb p (set_children []);;
   b ← get_pcb p;
   ms ← on_memory (recycle_data_pages (pcb_memory_set b));
   alter_pcb p (set_memory_set ms);;
   alter_pcb p (set_fd_table []);;
   alter_pcb p (λ b, set_pcb_proc (set_tasks [] (pcb_proc b)) b);;
   release_tasks p (omap id (tasks (pcb_proc b)));;
   mret Scheduled) s =
  (release_tasks p (omap id (tasks (pcb_proc b)));; mret Scheduled)
    (set_memory k (set_pcbs (<[p := set_pcb_proc (set_tasks [] (pcb_proc b)) (set_fd_table [] (set_memory_set ms (set_children [] b)))]> (pcbs s)) s)).
Proof.
  intros Hb E. assert (Hlt : (p < length (pcbs s))%nat) by (by eapply lookup_lt_Some).
  erewrite bind_run by (by apply alter_pcb_run).
  erewrite bind_run by (apply (get_pcb_run _ p (set_children [] b)); by apply list_lookup_insert_eq).
  erewrite bind_run by (apply on_memory_run; exact E). cbn [set_pcbs pcbs set_memory].
  erewrite bind_run by (apply (alter_pcb_run _ p _ (set_children [] b)); by apply list_lookup_insert_eq).
  cbn [set_pcbs pcbs set_memory]. rewrite list_insert_insert_eq.
  erewrite bind_run by (apply alter_pcb_run; by apply list_lookup_insert_eq).
  cbn [set_pcbs pcbs set_memory]. rewrite list_insert_insert_eq.
  erewrite bind_run by (apply alter_pcb_run; by apply list_lookup_insert_eq).
  cbn [set_pcbs pcbs set_memory]. rewrite list_insert_insert_eq. reflexivity.
Qed.

Lemma main_exit_run s t p b tcb r rest initproc code w1 w2 w3 w5 k rs :
  running s t p b → tasks (pcb_proc b) = Some t :: rest → sys_tcbs s !! Z.to_nat t = Some tcb → res tcb = Some r → tid r = 0 →
  pid b ≠ IDLE_PID → is_Some (pid2pcb s !! pid b) → initproc ≠ p →
  TaskUserRes_drop r (t_world (process_view b s)) = Ok (tt, w1) →
  release_tasks p (option_list (stop_task (sys_kern s))) (state1 s t p b tcb code w1) = Ok (tt, set_kernel w2 (state1 s t p b tcb code w1)) →
  reparent p initproc (children b) (set_pcbs (<[p := exiting code w1 b]> (pcbs s)) (set_pids (delete (pid b) (pid2pcb s)) (pid_allocator s)
    (set_kernel w2 (state1 s t p b tcb code w1)))) = Ok (tt, state2 s t p b tcb initproc code w1 w2) →
  collect_res p (Some t :: rest) (state2 s t p b tcb initproc code w1 w2) = Ok (rs, state3 s t p b tcb rest initproc code w1 w2) →
  pcbs (state3 s t p b tcb rest initproc code w1 w2) !! p = Some (exiting code w1 b) →
  drop_res p rs (state3 s t p b tcb rest initproc code w1 w2) =
    Ok (tt, set_world p (exiting code w1 b) w3 (state3 s t p b tcb rest initproc code w1 w2)) →
  recycle_data_pages (memory_set w3) (memory w3) = Ok (mkMS (page_table (pcb_memory_set b)) [], k) →
  release_tasks p (omap id (Some t :: rest)) (state4 s t p b tcb rest initproc code w1 w2 w3 k) =
    Ok (tt, set_kernel w5 (state4 s t p b tcb rest initproc code w1 w2 w3 k)) →
  exit_current_and_run_next initproc code s = Ok (Scheduled, set_kernel w5 (state4 s t p b tcb rest initproc code w1 w2 w3 k)).
Proof.
  intros Hrun Ht Hblk Hres Hmain Hpid Hpid2 Hip E1 E2 E3 E4 Hp3 E5 E6 E7. pose proof Hrun as (Hcur & _ & Hb).
  assert (Hlt : (p < length (pcbs s))%nat) by (by eapply lookup_lt_Some).
  unfold exit_current_and_run_next. erewrite bind_run by (by eapply current_process_run).
  erewrite bind_run by (eapply in_threads_run; [exact Hb|reflexivity]).
  erewrite bind_run; [|unfold t_kern, process_view; rewrite Hcur; reflexivity].
  erewrite bind_run by (by apply get_task_block_run). erewrite bind_run; [|rewrite Hres; reflexivity].
  erewrite bind_run by (eapply in_threads_run; [exact Hb|reflexivity]).
  erewrite bind_run by (eapply in_world_run; [exact Hb|exact E1]).
  rewrite Hmain. change (0 =? 0) with true. cbn beta iota. erewrite bind_run by reflexivity.
  erewrite bind_run by (eapply (in_threads_run _ p (with_space b w1)); [by apply list_lookup_insert_eq|reflexivity]).
  change_state (state1 s t p b tcb code w1). erewrite bind_run by exact E2.
  erewrite bind_run by (apply (get_pcb_run _ p (with_space b w1)); by apply list_lookup_insert_eq).
  rewrite (proj2 (Z.eqb_neq _ _)) by exact Hpid. destruct Hpid2 as [q Hq].
  erewrite bind_run by (apply (remove_pid_run _ _ q); exact Hq).
  erewrite bind_run by (apply (alter_pcb_run _ p _ (with_space b w1)); by apply list_lookup_insert_eq).
  rewrite bool_decide_false by done. erewrite bind_run by reflexivity.
  change (children (with_space b w1)) with (children b).
  change_state (set_pcbs (<[p := exiting code w1 b]> (<[p := with_space b w1]> (pcbs s)))
    (set_pids (delete (pid b) (pid2pcb s)) (pid_allocator s) (set_kernel w2 (state1 s t p b tcb code w1)))).
  rewrite list_insert_insert_eq. erewrite bind_run by exact E3.
  change (tasks (pcb_proc (with_space b w1))) with (tasks (pcb_proc b)). rewrite Ht. erewrite bind_run by exact E4.
  erewrite bind_run by exact E5. set (s3 := state3 _ _ _ _ _ _ _ _ _ _) in *.
  assert (Hlt3 : (p < length (pcbs s3))%nat) by (by eapply lookup_lt_Some).
  set (b3 := mkPCB (pid b) true (memory_set w3) (parent b) (children b) code (pcb_fd_table b) (signals b) (task_res_allocator w3) (pcb_proc b)).
  erewrite (exit_tail _ p b3); [|by apply list_lookup_insert_eq|exact E6].
  transitivity ((release_tasks p (omap id (Some t :: rest));; mret Scheduled) (state4 s t p b tcb rest initproc code w1 w2 w3 k));
    [|by erewrite bind_run by exact E7].
  change (tasks (pcb_proc b3)) with (tasks (pcb_proc b)). rewrite Ht. apply f_equal.
  unfold state4, set_world, with_view. state_eq. fold s3. by rewrite list_insert_insert_eq.
Qed.

(** ** What exit promises *)

(** The kernel stacks of [l] are those of [l'] too. *)
Lemma stacks_known_mono s s' l l' klive klive' :
  (∀ x, kstack <$> sys_tcbs s' !! x = kstack <$> sys_tcbs s !! x) → (∀ x, x ∈ l' → x ∈ l) →
  (∀ x b, x ∈ l' → sys_tcbs s !! Z.to_nat x = Some b → kstack b ∈ klive → kstack b ∈ klive') →
  stacks_known s l klive → stacks_known s' l' klive'.
Proof.
  intros Hk Hl Hlive [Hb Hi]. assert (Hback : ∀ x b', sys_tcbs s' !! x = Some b' → ∃ b, sys_tcbs s !! x = Some b ∧ kstack b = kstack b').
  { intros x b' E. specialize (Hk x). rewrite E in Hk. destruct (sys_tcbs s !! x) as [b|]; [|done]. exists b. split; [done|]. by injection Hk. }
  split.
  - intros x Hx. destruct (Hb x (Hl x Hx)) as (b & E & Hin). specialize (Hk (Z.to_nat x)). rewrite E in Hk.
    destruct (sys_tcbs s' !! Z.to_nat x) as [b'|]; [|done]. injection Hk as Hk. exists b'. split; [done|]. rewrite Hk. by eapply Hlive.
  - intros x y b1 b2 Hx Hy (c1 & E1 & H1)%Hback (c2 & E2 & H2)%Hback He. eapply Hi; eauto. congruence.
Qed.

Lemma stack_kept (ts : list TaskControlBlock) (n : nat) (b b' : TaskControlBlock) :
  ts !! n = Some b → kstack b' = kstack b → ∀ x, kstack <$> <[n := b']> ts !! x = kstack <$> ts !! x.
Proof.
  intros Hn Hk x. destruct (decide (x = n)) as [->|]; [|by rewrite list_lookup_insert_ne].
  rewrite list_lookup_insert_eq, Hn by (by eapply lookup_lt_Some). cbn. by rewrite Hk.
Qed.

Lemma stacks_retired (l : list Z) : ∀ (ts : list TaskControlBlock) (x : nat),
  kstack <$> foldl (λ ts t, alter retired (Z.to_nat t) ts) ts l !! x = kstack <$> ts !! x.
Proof.
  induction l as [|t l IH]; intros ts x; cbn [foldl]; [done|]. rewrite IH, list_lookup_alter.
  case_decide; subst; [|done]. by destruct (ts !! _).
Qed.

(** The kernel stacks that go: those of the other threads of the process and of the
    task that stopped before, unless something still refers to the task. *)
Definition gone_stack s (s' : system St) (rest : list (option Z)) (i : Z) : Prop :=
  ∃ x, (x ∈ omap id rest ∨ stop_task (sys_kern s) = Some x) ∧ task_referenced x s' = false ∧ stack_of s x = Some i.

(** What is left of the system. *)
Record exit_done (start : Z) s (t : Z) (p : nat) (b : ProcessControlBlock) (tcb : TaskControlBlock) (rest : list (option Z))
    (klive : gset Z) (initproc : nat) (code : Z) (s' : system St) : Prop := {
  xd_zombie : ∃ ra, pcbs s' !! p = Some (zombie_of code ra b);
  xd_orphans c : c ∈ children b → pcbs s' !! c = set_parent (Some initproc) <$> pcbs s !! c;
  xd_init : pcbs s' !! initproc = (λ ib, set_children (children ib ++ children b) ib) <$> pcbs s !! initproc;
  xd_others q : (q ∉ children b) → q ≠ initproc → q ≠ p → pcbs s' !! q = pcbs s !! q;
  xd_pids : pid2pcb s' = delete (pid b) (pid2pcb s) ∧ pid_allocator s' = pid_allocator s;
  xd_kern : sys_kern s' = foldl quit (stopped t (sys_kern s)) (t :: omap id rest);
  xd_frames q : in_use start (frames (sys_memory s')) q ↔
    in_use start (frames (sys_memory s)) q ∧ (q ∉ data_of (pcb_memory_set b)) ∧
    ¬ ∃ i, gone_stack s s' rest i ∧ q ∈ kernel_frames (sys_kernel_space s) i;
  xd_space : ∃ mu' nu' ra, world_ok start
    (mkWorld (mkMS (page_table (pcb_memory_set b)) []) ra (sys_kernel_space s') (sys_kstacks s') (sys_memory s')) mu' nu';
  xd_stacks : ∃ klive', ids_ok klive' (sys_kstacks s') ∧ ∀ i, i ∈ klive' ↔ i ∈ klive ∧ ¬ gone_stack s s' rest i;
  xd_areas i : ¬ gone_stack s s' rest i → kernel_area (sys_kernel_space s') i = kernel_area (sys_kernel_space s) i;
  xd_stack : ¬ gone_stack s s' rest (kstack tcb);
  xd_leak x : x ∈ omap id rest → NoDup (ready_queue (sys_kern s)) →
    (∀ q qb, q ≠ p → pcbs s !! q = Some qb → Some x ∉ tasks (pcb_proc qb)) →
    task_referenced x s' = true ↔ parked x (sys_kern s) = true ∨ x ∈ blocked (set_timers [] (sys_kern s));
}.

Lemma exit_pcbs s t p b tcb rest initproc code w1 w2 w3 w5 k :
  pcbs s !! p = Some b → initproc ≠ p → (initproc ∉ children b) → (p ∉ children b) →
  known (pcbs s) (initproc :: children b) → NoDup (children b) →
  let bs := pcbs (set_kernel w5 (state4 s t p b tcb rest initproc code w1 w2 w3 k)) in
  pcbs (state3 s t p b tcb rest initproc code w1 w2) !! p = Some (exiting code w1 b) ∧
  (bs !! p = Some (zombie_of code (task_res_allocator w3) b)) ∧
  (∀ c, c ∈ children b → bs !! c = set_parent (Some initproc) <$> pcbs s !! c) ∧
  (bs !! initproc = (λ ib, set_children (children ib ++ children b) ib) <$> pcbs s !! initproc) ∧
  ∀ q, (q ∉ children b) → q ≠ initproc → q ≠ p → bs !! q = pcbs s !! q.
Proof.
  intros Hb Hip Hic Hpc Hk Hnd bs. assert (Hlt : (p < length (pcbs s))%nat) by (by eapply lookup_lt_Some).
  assert (Hpi : ∀ q y, q ≠ p → <[p := y]> (pcbs s) !! q = pcbs s !! q) by (intros; by apply list_lookup_insert_ne).
  destruct (adopt_facts (children b) initproc (<[p := exiting code w1 b]> (pcbs s))) as (H1 & H2 & H3); [|done|done|].
  { intros c Hc. rewrite Hpi; [by apply Hk|]. intros ->. apply elem_of_cons in Hc as [?|?]; done. }
  assert (Hp : pcbs (state3 s t p b tcb rest initproc code w1 w2) !! p = Some (exiting code w1 b)).
  { cbn [pcbs state3 set_threads state2]. rewrite H3 by done. by apply list_lookup_insert_eq. }
  split; [done|]. unfold bs. cbn [pcbs set_kernel state4 state2]. split; [|split; [|split]].
  - apply list_lookup_insert_eq. by eapply lookup_lt_Some.
  - intros c Hc. rewrite list_lookup_insert_ne, H1, Hpi by (done || by intros ->). done.
  - rewrite list_lookup_insert_ne, H2, Hpi by done. done.
  - intros q Hq Hqi Hqp. by rewrite list_lookup_insert_ne, H3, Hpi by done.
Qed.

(** The data pages of a process are recycled. *)
Lemma recycled_world start w mu nu ms k :
  world_ok start w mu nu → space_ok start k ms mu → page_table ms = page_table (memory_set w) ∧ areas ms = [] →
  shrinks start [] (memory w) k (data_of (memory_set w)) →
  world_ok start (mkWorld ms (task_res_allocator w) (kernel_space w) (kstack_allocator w) k) mu nu.
Proof.
  intros [Hu Hk Hsep] Hs [Hpt Ha] [H1 H2 H3 H4]. assert (Hsh : shrinks start (pt_frames (page_table (memory_set w))) (memory w) k (data_of (memory_set w))).
  { split; [done|done|done|]. intros q _. apply H4, not_elem_of_nil. }
  destruct (sep_shrinks start _ _ _ _ ms (kernel_space w) nu Hsep Hsh) as [Hk' Hsep']; [|done|by split].
  intros q. unfold own, data_of. rewrite Hpt, Ha. cbn. rewrite app_nil_r, elem_of_app. tauto.
Qed.

(** A task in the list of a process is referred to. *)
Lemma referenced_in_process s x p b : pcbs s !! p = Some b → Some x ∈ tasks (pcb_proc b) → task_referenced x s = true.
Proof.
  intros Hb Hx. unfold task_referenced. rewrite !orb_true_iff. right. apply existsb_exists. exists b.
  split; [by apply list_elem_of_In, (list_elem_of_lookup_2 _ p)|]. by apply bool_decide_eq_true.
Qed.

Lemma task_referenced_true x s :
  task_referenced x s = true ↔
    parked x (sys_kern s) = true ∨ x ∈ ready_queue (sys_kern s) ∨ stop_task (sys_kern s) = Some x ∨
    current (sys_kern s) = Some x ∨ x ∈ timer_task <$> timers (sys_kern s) ∨ x ∈ blocked (set_timers [] (sys_kern s)) ∨
    ∃ q b, pcbs s !! q = Some b ∧ Some x ∈ tasks (pcb_proc b).
Proof.
  unfold task_referenced. rewrite !orb_true_iff, !bool_decide_eq_true, existsb_exists.
  assert (Hb : x ∈ blocked (sys_kern s) ↔ x ∈ timer_task <$> timers (sys_kern s) ∨ x ∈ blocked (set_timers [] (sys_kern s))).
  { unfold blocked. cbn [mutexes semaphores condvars timers set_timers fmap list_fmap]. rewrite !elem_of_app, elem_of_nil. tauto. }
  assert (Hp : (∃ b, In b (pcbs s) ∧ bool_decide (Some x ∈ tasks (pcb_proc b)) = true) ↔
    ∃ q b, pcbs s !! q = Some b ∧ Some x ∈ tasks (pcb_proc b)).
  { split.
    - intros (b & [q Hq]%list_elem_of_In%list_elem_of_lookup & ?%bool_decide_eq_true). by exists q, b.
    - intros (q & b & Hq & Hx). exists b. split; [by apply list_elem_of_In, (list_elem_of_lookup_2 _ q)|by apply bool_decide_eq_true]. }
  rewrite Hb, Hp. tauto.
Qed.

(** What the threads [l] leave behind in the kernel when they quit. *)
Lemma quit_facts l : ∀ k, let k' := foldl quit k l in
  stop_task k' = stop_task k ∧ current k' = current k ∧ (∀ x, parked x k' = parked x k) ∧
  blocked (set_timers [] k') = blocked (set_timers [] k) ∧
  ready_queue k' = foldl (λ q t, remove_first t q) (ready_queue k) l ∧
  timers k' = filter (λ x, timer_task x ∉ l) (timers k).
Proof.
  induction l as [|t l IH]; intros k; cbn [foldl].
  - do 5 (split; [done|]). induction (timers k) as [|x ts IHt]; [done|].
    rewrite filter_cons_True by apply not_elem_of_nil. by f_equal.
  - destruct (IH (quit k t)) as (H1 & H2 & H3 & H4 & H5 & H6). do 5 (split; [done|]). rewrite H6. cbn [quit timers set_timers].
    rewrite list_filter_filter. apply list_filter_iff. intros x. rewrite elem_of_cons. tauto.
Qed.

Lemma remove_first_ne x t q : x ≠ t → x ∈ remove_first t q ↔ x ∈ q.
Proof.
  intros Hne. induction q as [|y q IH]; [done|]. cbn. destruct (Z.eqb_spec y t) as [->|]; rewrite !elem_of_cons; [naive_solver|by rewrite IH].
Qed.

Lemma remove_all_other x l : ∀ q, (x ∉ l) → x ∈ foldl (λ q t, remove_first t q) q l ↔ x ∈ q.
Proof.
  induction l as [|t l IH]; intros q Hx; [done|]. cbn [foldl]. rewrite not_elem_of_cons in Hx. destruct Hx.
  rewrite IH by done. by apply remove_first_ne.
Qed.

Lemma remove_first_NoDup t q : NoDup q → NoDup (remove_first t q) ∧ t ∉ remove_first t q.
Proof.
  induction q as [|y q IH]; intros Hnd; [split; [done|apply not_elem_of_nil]|]. apply NoDup_cons in Hnd as [Hy Hnd]. cbn.
  destruct (Z.eqb_spec y t) as [->|Hne]; [done|]. destruct (IH Hnd) as [H1 H2]. split.
  - apply NoDup_cons. split; [|done]. by rewrite remove_first_ne.
  - rewrite not_elem_of_cons. done.
Qed.

Lemma remove_all_gone x l : ∀ q, NoDup q → x ∈ l → x ∉ foldl (λ q t, remove_first t q) q l.
Proof.
  induction l as [|t l IH]; intros q Hnd Hx; [by apply not_elem_of_nil in Hx|]. cbn [foldl].
  destruct (remove_first_NoDup t q Hnd) as [H1 H2]. destruct (decide (x ∈ l)) as [Hl|Hl]; [by apply IH|].
  rewrite remove_all_other by done. apply elem_of_cons in Hx as [->|?]; done.
Qed.

Section ready.
Context (start : Z) (s : system St) (t : Z) (p : nat) (b : ProcessControlBlock) (tcb : TaskControlBlock) (r : TaskUserRes)
        (rest : list (option Z)) (mu nu : gmap Z Z) (peak : Z) (live klive : gset Z) (initproc : nat) (code : Z).
Context (Hready : exit_ready start s t p b tcb r rest mu nu peak live klive initproc).

Lemma ready_pcb : pcbs s !! p = Some b ∧ (p < length (pcbs s))%nat.
Proof. destruct (er_running _ _ _ _ _ _ _ _ _ _ _ _ _ _ Hready) as (_ & _ & Hb). split; [done|]. by eapply lookup_lt_Some. Qed.

(** The tasks of the process. *)
Lemma ready_listed x : x ∈ t :: omap id rest ↔ Some x ∈ tasks (pcb_proc b).
Proof.
  rewrite (er_tasks _ _ _ _ _ _ _ _ _ _ _ _ _ _ Hready), !elem_of_cons. split.
  - intros [->|(y & Hy & Ey)%list_elem_of_omap]; [by left|right]. cbn in Ey. by subst y.
  - intros [[= ->]|Hx]; [by left|right]. apply list_elem_of_omap. by exists (Some x).
Qed.

(** Kernel stacks on the way. *)
Lemma stack_of_state1 w1 x : stack_of (state1 s t p b tcb code w1) x = stack_of s x.
Proof. unfold stack_of. apply (stack_kept _ _ tcb); [by eapply er_block|done]. Qed.
Lemma stack_of_state4 w1 w2 w3 k x : stack_of (state4 s t p b tcb rest initproc code w1 w2 w3 k) x = stack_of s x.
Proof. unfold stack_of. cbn [sys_tcbs state4 state3 set_threads]. rewrite stacks_retired. apply stack_of_state1. Qed.

(** A thread of the process has a stack of its own. *)
Lemma ready_stack x y i :
  x ∈ option_list (stop_task (sys_kern s)) ++ t :: omap id rest → y ∈ option_list (stop_task (sys_kern s)) ++ t :: omap id rest →
  stack_of s x = Some i → stack_of s y = Some i → x = y.
Proof.
  intros Hx Hy Ex Ey. apply fmap_Some in Ex as (xb & Ex & ->). apply fmap_Some in Ey as (yb & Ey & Hk).
  by eapply (sk_inj _ _ _ (er_stacks _ _ _ _ _ _ _ _ _ _ _ _ _ _ Hready)).
Qed.

(** The first release spares the threads of the process. *)
Lemma first_spares w1 x i :
  x ∈ t :: omap id rest → stack_of s x = Some i →
  ¬ released_stack (state1 s t p b tcb code w1) (option_list (stop_task (sys_kern s))) i.
Proof.
  intros Hx Ex (o & Ho & Href & Eo). rewrite stack_of_state1 in Eo. destruct ready_pcb as [Hb Hlt].
  assert (o = x) as -> by (eapply ready_stack; [apply elem_of_app; by left|apply elem_of_app; by right|done|done]).
  rewrite (referenced_in_process _ x p (with_space b w1)) in Href; [done|by apply list_lookup_insert_eq|by apply ready_listed].
Qed.

(** The main thread gives up its resources, and the task that stopped before its
    kernel stack. *)
Lemma exit_first :
  ∃ w1 w2 mu1 nu2 klive2, TaskUserRes_drop r (t_world (process_view b s)) = Ok (tt, w1) ∧
    release_tasks p (option_list (stop_task (sys_kern s))) (state1 s t p b tcb code w1) =
      Ok (tt, set_kernel w2 (state1 s t p b tcb code w1)) ∧ kernel_space w1 = sys_kernel_space s ∧
    world_ok start w2 mu1 nu2 ∧ sheds start (pcb_memory_set b) (memory_set w1) (sys_memory s) (memory w1) ∧
    ra_inv peak (live ∖ {[tid r]}) (task_res_allocator w1) ∧
    stacks_released start (state1 s t p b tcb code w1) (with_space b w1) (option_list (stop_task (sys_kern s))) mu1 klive klive2 w2.
Proof.
  destruct ready_pcb as [Hb Hlt]. destruct Hready as [Hrun Ht Hblk Hres Hmain Hnd Hkn Hw Hdrop Hids Hst _ _ _].
  destruct Hdrop as (Hok & _ & Hlive & Hra). apply Forall_cons in Hok as [Hr _].
  destruct (TaskUserRes_drop_run start _ mu nu r peak live Hw Hr Hra) as (w1 & mu1 & E1 & Hw1 & Hg & Hra1 & _ & Ek & Es);
    [apply Hlive; left|].
  assert (Hs1 : sheds start (pcb_memory_set b) (memory_set w1) (sys_memory s) (memory w1)).
  { apply (res_gone_sheds start r (t_world (process_view b s)) w1 mu mu1); [|done].
    pose proof (so_own _ _ _ _ (wo_user _ _ _ _ Hw)) as Hd. by apply NoDup_app in Hd as (_ & _ & ?). }
  destruct (release_tasks_run (option_list (stop_task (sys_kern s))) (state1 s t p b tcb code w1) p (with_space b w1)
    start mu1 nu klive) as (w2 & klive2 & E2 & Hrel).
  { by apply list_lookup_insert_eq. } { by destruct w1. } { change (ids_ok klive (kstack_allocator w1)). rewrite Es. exact Hids. }
  { destruct (stop_task _); [apply NoDup_singleton|constructor]. }
  { eapply stacks_known_mono; [by apply (stack_kept _ _ tcb)| |done|exact Hst]. intros x Hx. apply elem_of_app. by left. }
  destruct (sr_world _ _ _ _ _ _ _ _ Hrel) as [nu2 Hw2]. by exists w1, w2, mu1, nu2, klive2.
Qed.

Definition other_res : list TaskUserRes := omap (λ x, sys_tcbs s !! Z.to_nat x ≫= res) (omap id rest).

Lemma exit_collect w1 w2 :
  pcbs (state2 s t p b tcb initproc code w1 w2) !! p = Some (exiting code w1 b) →
  collect_res p (Some t :: rest) (state2 s t p b tcb initproc code w1 w2) =
    Ok (other_res, state3 s t p b tcb rest initproc code w1 w2).
Proof.
  intros Hp. destruct Hready as [_ _ Hblk _ _ Hnd Hkn _ _ _ _ _ _ _]. pose proof Hnd as Hnd'. cbn [fmap list_fmap] in Hnd'.
  apply NoDup_cons in Hnd' as [Ht _].
  assert (Hlt : (Z.to_nat t < length (sys_tcbs s))%nat) by (by eapply lookup_lt_Some).
  rewrite (collect_res_run (Some t :: rest) _ p _ Hp); [|exact Hnd|].
  - do 2 f_equal. cbn [omap list_omap id sys_tcbs state2 state1]. rewrite list_lookup_insert_eq by done. cbn [mbind option_bind res].
    apply list_omap_ext, Forall_Forall2_diag, Forall_forall. intros x Hx. rewrite list_lookup_insert_ne; [done|].
    intros E. apply Ht. rewrite E. by apply list_elem_of_fmap_2.
  - intros x Hx. cbn [sys_tcbs state2 state1]. destruct (decide (Z.to_nat x = Z.to_nat t)) as [->|Hne].
    + rewrite list_lookup_insert_eq by done. by eexists.
    + rewrite list_lookup_insert_ne by done. apply Hkn. apply elem_of_cons in Hx as [->|Hx]; [done|exact Hx].
Qed.

(** The other threads, the data pages and the kernel stacks go. *)
Lemma exit_second w1 w2 mu1 nu2 klive2 :
  pcbs (state3 s t p b tcb rest initproc code w1 w2) !! p = Some (exiting code w1 b) →
  world_ok start w2 mu1 nu2 → memory_set w2 = memory_set w1 → task_res_allocator w2 = task_res_allocator w1 →
  page_table (memory_set w1) = page_table (pcb_memory_set b) →
  ra_inv peak (live ∖ {[tid r]}) (task_res_allocator w1) → ids_ok klive2 (kstack_allocator w2) →
  (∀ x i, x ∈ t :: omap id rest → stack_of s x = Some i → i ∈ klive2) →
  let s3 := state3 s t p b tcb rest initproc code w1 w2 in
  ∃ w3 w5 k mu3 klive5, drop_res p other_res s3 = Ok (tt, set_world p (exiting code w1 b) w3 s3) ∧
    recycle_data_pages (memory_set w3) (memory w3) = Ok (mkMS (page_table (pcb_memory_set b)) [], k) ∧
    release_tasks p (t :: omap id rest) (state4 s t p b tcb rest initproc code w1 w2 w3 k) =
      Ok (tt, set_kernel w5 (state4 s t p b tcb rest initproc code w1 w2 w3 k)) ∧
    sheds start (memory_set w1) (mkMS (page_table (pcb_memory_set b)) []) (memory w2) k ∧ kernel_space w3 = kernel_space w2 ∧
    stacks_released start (state4 s t p b tcb rest initproc code w1 w2 w3 k)
      (zombie_of code (task_res_allocator w3) b) (t :: omap id rest) mu3 klive2 klive5 w5.
Proof.
  intros Hp3 Hw2 Hms Hra Hpt Hinv Hids Hlive s3. pose proof (er_drop _ _ _ _ _ _ _ _ _ _ _ _ _ _ Hready) as (Hok & Hnd & Hin & _).
  apply Forall_cons in Hok as [_ Hok]. cbn [fmap list_fmap] in Hnd. apply NoDup_cons in Hnd as [Hn Hnd]. fold other_res in *.
  destruct (drop_res_run other_res s3 p (exiting code w1 b) start mu1 nu2 peak (live ∖ {[tid r]}) Hp3) as
    (w3 & mu3 & E & Hw3 & Hsd & Ek & Es).
  { destruct w2. cbn in Hms, Hra. subst. exact Hw2. }
  { split; [done|]. split; [done|]. split; [|done]. intros x Hx. apply elem_of_difference. split; [apply Hin; by right|].
    intros Hx'%elem_of_singleton. apply Hn. rewrite <- Hx'. by apply list_elem_of_fmap_2. }
  destruct (recycle_run start (memory w3) (memory_set w3) mu3 (wo_user _ _ _ _ Hw3)) as (k & E' & Hs' & Hsh).
  assert (Hpt3 : page_table (memory_set w3) = page_table (pcb_memory_set b)) by (rewrite (sd_table _ _ _ _ _ Hsd); exact Hpt).
  rewrite Hpt3 in E', Hs'. set (s4 := state4 s t p b tcb rest initproc code w1 w2 w3 k).
  destruct (release_tasks_run (t :: omap id rest) s4 p (zombie_of code (task_res_allocator w3) b) start mu3 nu2 klive2) as (w5 & klive5 & E5 & Hrel).
  - apply list_lookup_insert_eq. by eapply lookup_lt_Some.
  - apply (recycled_world start w3 mu3 nu2); [done|exact Hs'|by split|done].
  - change (ids_ok klive2 (kstack_allocator w3)). rewrite Es. exact Hids.
  - apply (NoDup_fmap_1 Z.to_nat). by eapply er_nodup.
  - eapply stacks_known_mono; [| | |by eapply er_stacks].
    + intros x. cbn [s4 sys_tcbs state4 state3 set_threads]. rewrite stacks_retired. by eapply (stack_kept _ _ tcb); [eapply er_block|].
    + intros x Hx. apply elem_of_app. by right.
    + intros x xb Hx Hxb _. eapply Hlive; [exact Hx|]. unfold stack_of. by rewrite Hxb.
  - exists w3, w5, k, mu3, klive5. split; [done|]. split; [done|]. split; [done|]. split; [|by split].
    rewrite <- Hpt3. eapply sheds_trans; [exact Hsd|]. by apply recycle_sheds.
Qed.

(** Who refers to a task when the process is a zombie. *)
Lemma state4_refers w1 w2 w3 k x :
  let s4 := state4 s t p b tcb rest initproc code w1 w2 w3 k in
  (∃ q qb, pcbs s4 !! q = Some qb ∧ Some x ∈ tasks (pcb_proc qb)) ↔
  ∃ q qb, q ≠ p ∧ pcbs s !! q = Some qb ∧ Some x ∈ tasks (pcb_proc qb).
Proof.
  intros s4. destruct ready_pcb as [Hb Hlt].
  pose proof Hready as [_ _ _ _ _ _ _ _ _ _ _ _ (Hip & Hic & Hpc) [Hkn Hnd]].
  destruct (exit_pcbs s t p b tcb rest initproc code w1 w2 w3 w2 k Hb Hip Hic Hpc Hkn Hnd) as (_ & Hz & Hor & Hin & Hoth).
  assert (Hsame : ∀ q, q ≠ p → (λ qb, tasks (pcb_proc qb)) <$> pcbs s4 !! q = (λ qb, tasks (pcb_proc qb)) <$> pcbs s !! q).
  { intros q Hq. change (pcbs s4) with (pcbs (set_kernel w2 s4)).
    destruct (decide (q ∈ children b)) as [Hc|Hc]; [unfold s4; rewrite (Hor q Hc); by destruct (pcbs s !! q)|].
    destruct (decide (q = initproc)) as [->|Hi]; [unfold s4; rewrite Hin; by destruct (pcbs s !! initproc)|]. unfold s4. by rewrite Hoth. }
  assert (Hone : ∀ (l l' : list ProcessControlBlock) q, (λ qb, tasks (pcb_proc qb)) <$> l !! q = (λ qb, tasks (pcb_proc qb)) <$> l' !! q →
    ∀ qb, l !! q = Some qb → ∃ qb', l' !! q = Some qb' ∧ tasks (pcb_proc qb) = tasks (pcb_proc qb')).
  { intros l l' q El qb E. rewrite E in El. destruct (l' !! q) as [qb'|]; [|done]. exists qb'. split; [done|]. by injection El. }
  split.
  - intros (q & qb & Hq & Hx). destruct (decide (q = p)) as [->|Hne].
    + change (pcbs s4) with (pcbs (set_kernel w2 s4)) in Hq. unfold s4 in Hq. rewrite Hz in Hq. injection Hq as <-. by apply not_elem_of_nil in Hx.
    + destruct (Hone _ _ q (Hsame q Hne) qb Hq) as (qb' & Hq' & E). exists q, qb'. by rewrite <- E.
  - intros (q & qb & Hne & Hq & Hx). destruct (Hone _ _ q (eq_sym (Hsame q Hne)) qb Hq) as (qb' & Hq' & E). exists q, qb'. by rewrite <- E.
Qed.

Lemma state4_referenced w1 w2 w3 k x :
  let s4 := state4 s t p b tcb rest initproc code w1 w2 w3 k in
  task_referenced x s4 = true ↔
    parked x (sys_kern s) = true ∨ x ∈ foldl (λ q t, remove_first t q) (ready_queue (sys_kern s)) (t :: omap id rest) ∨ t = x ∨
    x ∈ timer_task <$> filter (λ e, timer_task e ∉ t :: omap id rest) (timers (sys_kern s)) ∨
    x ∈ blocked (set_timers [] (sys_kern s)) ∨
    ∃ q qb, q ≠ p ∧ pcbs s !! q = Some qb ∧ Some x ∈ tasks (pcb_proc qb).
Proof.
  intros s4. rewrite task_referenced_true. unfold s4. rewrite state4_refers. cbn [sys_kern state4 state3 set_threads].
  destruct (quit_facts (t :: omap id rest) (stopped t (sys_kern s))) as (H1 & H2 & H3 & H4 & H5 & H6).
  rewrite H1, H2, H3, H4, H5, H6. cbn [stop_task current stopped set_stop set_current ready_queue timers].
  change (parked x (stopped t (sys_kern s))) with (parked x (sys_kern s)).
  change (blocked (set_timers [] (stopped t (sys_kern s)))) with (blocked (set_timers [] (sys_kern s))).
  assert (Some t = Some x ↔ t = x) as -> by naive_solver. assert (None = Some x ↔ False) as -> by done. tauto.
Qed.

(** For a task of another process the exit changes nothing. *)
Lemma others_referenced w1 w2 w3 k x : x ∉ t :: omap id rest →
  task_referenced x (state1 s t p b tcb code w1) = task_referenced x (state4 s t p b tcb rest initproc code w1 w2 w3 k).
Proof.
  intros Hx. destruct ready_pcb as [Hb Hlt]. apply eq_bool_prop_intro. rewrite !Is_true_true, state4_referenced, task_referenced_true.
  cbn [sys_kern state1 stop_task current stopped set_stop set_current ready_queue timers].
  change (parked x (stopped t (sys_kern s))) with (parked x (sys_kern s)).
  change (blocked (set_timers [] (stopped t (sys_kern s)))) with (blocked (set_timers [] (sys_kern s))).
  rewrite remove_all_other by done.
  assert (Ht : x ∈ timer_task <$> filter (λ e, timer_task e ∉ t :: omap id rest) (timers (sys_kern s)) ↔ x ∈ timer_task <$> timers (sys_kern s)).
  { rewrite !list_elem_of_fmap. setoid_rewrite list_elem_of_filter. naive_solver. }
  assert (Hp : (∃ q qb, pcbs (state1 s t p b tcb code w1) !! q = Some qb ∧ Some x ∈ tasks (pcb_proc qb)) ↔
    ∃ q qb, q ≠ p ∧ pcbs s !! q = Some qb ∧ Some x ∈ tasks (pcb_proc qb)).
  { cbn [pcbs state1]. setoid_rewrite list_lookup_insert_Some. rewrite ready_listed in Hx. split.
    - intros (q & qb & [(-> & <- & _)|[Hne Hq]] & Hin); [done|]. exists q, qb. by split; [apply not_eq_sym|].
    - intros (q & qb & Hne & Hq & Hin). exists q, qb. split; [right; by split; [apply not_eq_sym|]|done]. }
  rewrite Ht, Hp. assert (Some t = Some x ↔ t = x) as -> by naive_solver. assert (None = Some x ↔ False) as -> by done. tauto.
Qed.

(** The stacks that go are those of the two releases. *)
Lemma gone_released w1 w2 w3 w5 k i :
  let s4 := state4 s t p b tcb rest initproc code w1 w2 w3 k in
  gone_stack s (set_kernel w5 s4) rest i ↔
    released_stack (state1 s t p b tcb code w1) (option_list (stop_task (sys_kern s))) i ∨ released_stack s4 (t :: omap id rest) i.
Proof.
  intros s4. assert (E4 : ∀ x, stack_of s4 x = stack_of s x) by apply stack_of_state4. destruct ready_pcb as [Hb Hlt].
  unfold gone_stack, released_stack. setoid_rewrite E4. setoid_rewrite stack_of_state1. split.
  - intros (x & Hx & Href & Ei). change (task_referenced x (set_kernel w5 s4)) with (task_referenced x s4) in Href.
    destruct (decide (x ∈ t :: omap id rest)) as [Hin|Hin]; [right; by exists x|]. left. exists x.
    unfold s4 in Href. rewrite <- others_referenced in Href by done. split; [|done].
    destruct Hx as [Hx|Hx]; [destruct Hin; by right|]. rewrite Hx. by left.
  - intros [(x & Hx & Href & Ei)|(x & Hx & Href & Ei)]; exists x; change (task_referenced x (set_kernel w5 s4)) with (task_referenced x s4).
    + assert (Hin : x ∉ t :: omap id rest).
      { intros Hin. rewrite (referenced_in_process _ x p (with_space b w1)) in Href; [done|by apply list_lookup_insert_eq|by apply ready_listed]. }
      unfold s4. rewrite <- others_referenced by done. split; [|done]. right.
      destruct (stop_task (sys_kern s)) as [o|]; [|by apply not_elem_of_nil in Hx]. by apply list_elem_of_singleton in Hx as ->.
    + split; [|done]. left. apply elem_of_cons in Hx as [->|?]; [|done]. exfalso.
      assert (task_referenced t s4 = true) by (apply state4_referenced; tauto). congruence.
Qed.

(** What still refers to another thread of the process: a thread that waits refers to
    itself, and the object it waits for does. *)
Lemma leaked w1 w2 w3 k x :
  x ∈ omap id rest → NoDup (ready_queue (sys_kern s)) →
  (∀ q qb, q ≠ p → pcbs s !! q = Some qb → Some x ∉ tasks (pcb_proc qb)) →
  task_referenced x (state4 s t p b tcb rest initproc code w1 w2 w3 k) = true ↔
    parked x (sys_kern s) = true ∨ x ∈ blocked (set_timers [] (sys_kern s)).
Proof.
  intros Hx Hnd Hno. pose proof (er_nodup _ _ _ _ _ _ _ _ _ _ _ _ _ _ Hready) as Hd.
  assert (Hin : x ∈ t :: omap id rest) by (by right).
  assert (t ≠ x). { intros ->. cbn [fmap list_fmap] in Hd. apply NoDup_cons in Hd as [Hd _]. apply Hd. by apply list_elem_of_fmap_2. }
  rewrite state4_referenced. pose proof (remove_all_gone x _ _ Hnd Hin).
  assert (x ∉ timer_task <$> filter (λ e, timer_task e ∉ t :: omap id rest) (timers (sys_kern s))).
  { intros (e & -> & [He _]%list_elem_of_filter)%list_elem_of_fmap. done. }
  assert (¬ ∃ q qb, q ≠ p ∧ pcbs s !! q = Some qb ∧ Some x ∈ tasks (pcb_proc qb)) by (intros (q & qb & ? & ? & ?); by eapply Hno).
  tauto.
Qed.

(** The frames, the stacks and the areas of the kernel after both releases. *)
Lemma exit_kernel w1 w2 w3 w5 k mu1 mu3 klive2 klive5 :
  let s4 := state4 s t p b tcb rest initproc code w1 w2 w3 k in
  let s' := set_kernel w5 s4 in
  kernel_space w1 = sys_kernel_space s → kernel_space w3 = kernel_space w2 →
  sheds start (pcb_memory_set b) (memory_set w1) (sys_memory s) (memory w1) →
  sheds start (memory_set w1) (mkMS (page_table (pcb_memory_set b)) []) (memory w2) k →
  stacks_released start (state1 s t p b tcb code w1) (with_space b w1) (option_list (stop_task (sys_kern s))) mu1 klive klive2 w2 →
  stacks_released start s4 (zombie_of code (task_res_allocator w3) b) (t :: omap id rest) mu3 klive2 klive5 w5 →
  (∀ q, in_use start (frames (memory w5)) q ↔ in_use start (frames (sys_memory s)) q ∧ (q ∉ data_of (pcb_memory_set b)) ∧
    ¬ ∃ i, gone_stack s s' rest i ∧ q ∈ kernel_frames (sys_kernel_space s) i) ∧
  (∀ i, i ∈ klive5 ↔ i ∈ klive ∧ ¬ gone_stack s s' rest i) ∧
  (∀ i, ¬ gone_stack s s' rest i → kernel_area (kernel_space w5) i = kernel_area (sys_kernel_space s) i).
Proof.
  intros s4 s' Ek1 Ek3 Hs1 Hs2 [_ _ Hf1 Ha1 _ Hl1] [_ _ Hf2 Ha2 _ Hl2].
  cbn [sys_memory sys_kernel_space state1 state4 s4] in Hf1, Ha1, Hf2, Ha2. rewrite Ek1 in Hf1, Ha1. rewrite Ek3 in Hf2, Ha2.
  assert (Hg : ∀ i, gone_stack s s' rest i ↔ released_stack (state1 s t p b tcb code w1) (option_list (stop_task (sys_kern s))) i ∨
    released_stack s4 (t :: omap id rest) i) by apply gone_released.
  assert (Hsame : ∀ i, released_stack s4 (t :: omap id rest) i → kernel_area (kernel_space w2) i = kernel_area (sys_kernel_space s) i).
  { intros i (x & Hx & _ & Ex). apply Ha1. eapply first_spares; [exact Hx|]. by rewrite <- (stack_of_state4 w1 w2 w3 k). }
  split; [|split].
  - intros q. rewrite Hf2, (sd_use _ _ _ _ _ Hs2), Hf1, (sd_use _ _ _ _ _ Hs1). setoid_rewrite Hg.
    assert (q ∉ data_of (mkMS (page_table (pcb_memory_set b)) [])) by apply not_elem_of_nil.
    pose proof (sd_data _ _ _ _ _ Hs1 q). unfold kernel_frames in *. split.
    + intros [[[[? ?] Hn1] ?] Hn2]. split; [done|]. split; [tauto|]. intros (i & [Hi|Hi] & Hq); [eauto|]. apply Hn2. exists i.
      split; [done|]. by rewrite Hsame.
    + intros (? & ? & Hn). split; [split; [split; [tauto|]|tauto]|]; intros (i & Hi & Hq); apply Hn; exists i; [eauto|].
      split; [by right|]. by rewrite <- Hsame.
  - intros i. rewrite Hl2, Hl1, Hg. tauto.
  - intros i Hi. rewrite Hg in Hi. rewrite Ha2, Ha1; tauto.
Qed.
End ready.

Lemma exit_process_run start s t p b tcb r rest mu nu peak live klive initproc code :
  exit_ready start s t p b tcb r rest mu nu peak live klive initproc →
  ∃ s', exit_current_and_run_next initproc code s = Ok (Scheduled, s') ∧
    exit_done start s t p b tcb rest klive initproc code s'.
Proof.
  intros Hr. destruct (exit_first start s t p b tcb r rest mu nu peak live klive initproc code Hr) as
    (w1 & w2 & mu1 & nu2 & klive2 & E1 & E2 & Ek1 & Hw2 & Hs1 & Hinv & Hrel1).
  pose proof Hrel1 as [[Hms Hra] _ _ _ Hids Hlive].
  destruct (ready_pcb _ _ _ _ _ _ _ _ _ _ _ _ _ _ Hr) as [Hb Hlt].
  pose proof Hr as [Hrun Ht Hblk Hres Hmain Hndt _ _ _ _ Hst [Hpid Hpid2] (Hip & Hic & Hpc) [Hkn Hnd]].
  assert (Hp3 : pcbs (state3 s t p b tcb rest initproc code w1 w2) !! p = Some (exiting code w1 b))
    by (eapply (exit_pcbs s t p b tcb rest initproc code w1 w2 w2 w2 (memory w2)); done).
  destruct (exit_second start s t p b tcb r rest mu nu peak live klive initproc code Hr w1 w2 mu1 nu2 klive2 Hp3 Hw2 Hms Hra)
    as (w3 & w5 & k & mu3 & klive5 & E5 & E6 & E7 & Hs2 & Ek3 & Hrel); [by apply (sd_table _ _ _ _ _ Hs1)|done..| |].
  { intros x i Hx Ei. apply Hlive. split; [|by eapply first_spares].
    destruct (sk_block _ _ _ Hst x) as (xb & Exb & Hin); [apply elem_of_app; by right|]. unfold stack_of in Ei. rewrite Exb in Ei. by injection Ei as <-. }
  destruct (exit_pcbs s t p b tcb rest initproc code w1 w2 w3 w5 k Hb Hip Hic Hpc Hkn Hnd) as (_ & Hz & Hor & Hin & Hoth).
  destruct (exit_kernel start s t p b tcb r rest mu nu peak live klive initproc code Hr w1 w2 w3 w5 k mu1 mu3 klive2 klive5 Ek1 Ek3 Hs1 Hs2 Hrel1 Hrel)
    as (Hfr & Hkl & Har).
  set (s' := set_kernel w5 (state4 s t p b tcb rest initproc code w1 w2 w3 k)) in *. exists s'. split.
  - eapply (main_exit_run s t p b tcb r rest initproc code w1 w2 w3 w5 k (other_res s rest)); try done.
    + rewrite reparent_run; [reflexivity| |done|done]. intros c Hc. cbn [pcbs set_pcbs].
      rewrite list_lookup_insert_ne; [by apply Hkn|]. intros ->. apply elem_of_cons in Hc as [?|?]; done.
    + by eapply exit_collect.
  - pose proof Hrel as [[Hu1 Hu2] [nu' Hw'] _ _ Hid _]. split; try done.
    + by eexists.
    + exists mu3, nu', (task_res_allocator w5). cbn in Hu1. destruct w5. cbn in *. by subst.
    + by exists klive5.
    + unfold s'. rewrite (gone_released start s t p b tcb r rest mu nu peak live klive initproc code Hr).
      assert (Ek : stack_of s t = Some (kstack tcb)) by (unfold stack_of; by rewrite Hblk).
      intros [Hn|(x & Hx & Href & Ex)]; [revert Hn; eapply first_spares; [exact Hr|left|exact Ek]|].
      rewrite (stack_of_state4 start s t p b tcb r rest mu nu peak live klive initproc code Hr) in Ex.
      assert (x = t) as -> by (eapply (ready_stack start s t p b); [exact Hr|apply elem_of_app; by right|apply elem_of_app; right; left|done|done]).
      assert (Hyes : task_referenced t (state4 s t p b tcb rest initproc code w1 w2 w3 k) = true)
        by (eapply state4_referenced; [exact Hr|tauto]). congruence.
    + intros x Hx Hnr Hno. by eapply leaked.
Qed.

(** C10: when the main thread of a process exits, the process becomes a zombie with the
    exit code and without threads, files or data; its children belong to the first
    process, and no other process changes.  All data pages of the process are freed,
    and the kernel stacks of its other threads and of the task that stopped before, with
    their frames, as far as nothing refers to these tasks any more; no other frame and
    no other stack is freed, so that the page table and the kernel stack on which the
    code still runs are kept.  A thread that waits for a mutex, a semaphore, a condition
    variable or a timer, or that has been woken and has not run since, still refers to
    itself: its kernel stack is not freed.  The threads are out of the ready queue and
    of the timers, and the number of the process can no longer be found. *)
Theorem exit_spec start s t p b tcb r rest mu nu peak live klive initproc code :
  exit_ready start s t p b tcb r rest mu nu peak live klive initproc →
  ∃ s', exit_current_and_run_next initproc code s = Ok (Scheduled, s') ∧
    exit_done start s t p b tcb rest klive initproc code s'.
Proof. apply exit_process_run. Qed.
End exit.

(** ** Examples *)

(** The first process and a child with one thread and a child of its own. *)
Definition exit_pcb (w : world) : ProcessControlBlock :=
  mkPCB 1 false (memory_set w) (Some 0%nat) [2%nat] 0 [] 0 (mkRA 1 []) (mkProc [Some 0] [] [] [] false [] [] [[]] [[]] [[]] [[]]).
Definition exit_demo (w : world) : system unit :=
  mkSystem
    [mkPCB 0 false (mkMS (mkPT 0 []) []) None [1%nat] 0 [] 0 RA_new no_tables;
     exit_pcb w;
     mkPCB 2 false (mkMS (mkPT 0 []) []) (Some 1%nat) [] 0 [] 0 RA_new no_tables]
    {[0 := 0%nat; 1 := 1%nat; 2 := 2%nat]} (mkRA 3 []) (kernel_space w) (mkRA 1 []) (memory w)
    [mkTCB 0 (Some (mkRes 0 0x20000)) 9 None] [1%nat] (mkKernel [] None (Some 0) ∅ ∅ [] [] [] []) [] tt [].

Lemma exit_demo_ready :
  ∃ w mu kn, exit_ready 5 (exit_demo w) 0 1 (exit_pcb w) (mkTCB 0 (Some (mkRes 0 0x20000)) 9 None) (mkRes 0 0x20000) [] mu kn 1
    {[0]} {[0]} 0.
Proof.
  destruct solo_world as (w & mu & kn & q & Hw & _ & _ & Hn & Hpg & Hfr & Hkn). exists w, mu, kn.
  assert (Hone : ra_inv 1 {[0]} (mkRA 1 [])).
  { split; [done|]. split; [constructor|]. split; [by intros i ?%not_elem_of_nil|]. intros i. cbn.
    rewrite elem_of_singleton. pose proof (not_elem_of_nil i). split; [intros ->; split; [lia|done]|lia]. }
  split; cbn [exit_demo exit_pcb pcb_proc tasks sys_tcbs sys_kern stop_task children omap list_omap option_list app pid]; try done.
  - apply NoDup_singleton.
  - by intros x ?%not_elem_of_nil.
  - destruct Hw. by split.
  - split; [|split; [apply NoDup_singleton|split; [|done]]].
    + constructor; [|constructor]. split; cbn [tid ustack_base]; (lia || done).
    + intros x ->%list_elem_of_singleton. by apply elem_of_singleton.
  - destruct Hone as (? & ?). by split.
  - split; [|intros x y b b' ->%list_elem_of_singleton ->%list_elem_of_singleton; done].
    intros x ->%list_elem_of_singleton. eexists. split; [reflexivity|]. by apply elem_of_singleton.
  - split; [done|]. split; intros ?%list_elem_of_singleton; done.
  - split; [|apply NoDup_singleton]. intros c Hc. rewrite elem_of_cons, list_elem_of_singleton in Hc. destruct Hc as [-> | ->]; by eexists.
Qed.

Lemma exit_spec_witness :
  ∃ s s', exit_current_and_run_next 0 (-3) s = Ok (Scheduled, s') ∧ (pid2pcb s : gmap Z nat) !! 1 = Some 1%nat ∧
    pid2pcb (s' : system unit) !! 1 = None ∧ (parent <$> pcbs s' !! 2%nat) = Some (Some 0%nat).
Proof.
  destruct exit_demo_ready as (w & mu & kn & Hr). destruct (exit_spec _ _ _ _ _ _ _ _ _ _ _ _ _ _ (-3) Hr) as (s' & E & Hd).
  exists (exit_demo w), s'. split; [exact E|]. split; [done|]. destruct Hd as [_ Ho _ _ [Hp _] _ _ _ _ _ _ _]. split.
  - rewrite Hp. done.
  - rewrite (Ho 2%nat) by (apply list_elem_of_singleton; done). done.
Defined.

(** A process with two threads, of which the second runs. *)
Definition pair_pcb (w : world) : ProcessControlBlock :=
  mkPCB 1 false (memory_set w) (Some 0%nat) [] 0 [] 0 (task_res_allocator w) (t_proc (demo_sys false 1 w)).
Definition pair_demo (w : world) : system unit :=
  mkSystem [mkPCB 0 false (mkMS (mkPT 0 []) []) None [1%nat] 0 [] 0 RA_new no_tables; pair_pcb w]
    {[0 := 0%nat; 1 := 1%nat]} (mkRA 2 []) (kernel_space w) (kstack_allocator w) (memory w)
    (t_tcbs (demo_sys false 1 w)) [1%nat; 1%nat] (t_kern (demo_sys false 1 w)) [] tt [].

Lemma thread_exit_spec_witness :
  ∃ (s s' : system unit), exit_current_and_run_next 0 7 s = Ok (Scheduled, s') ∧ current (sys_kern s) = Some 1 ∧
    current (sys_kern s') = None ∧ (is_zombie <$> pcbs s' !! 1%nat) = Some false ∧
    sys_tcbs s' !! 1%nat = Some (exited (demo_second false) 7).
Proof.
  destruct (demo_threads false 1) as (w & mu & Hth & _).
  destruct (th_running _ _ _ _ _ _ Hth 1 (demo_second false) (mkRes 1 0x20000)) as (Hl & _ & _ & Hr);
    [apply demo_block; by right|done|].
  destruct (thread_exit_spec 0 7 (pair_demo w) 1 1 (pair_pcb w) (demo_second false) (mkRes 1 0x20000) 5 mu mu
    (2 ^ 24) (demo_live false))
    as (w' & mu' & E & _); try done.
  - destruct (th_world _ _ _ _ _ _ Hth). by split.
  - apply (th_tids _ _ _ _ _ _ Hth).
  - eexists (pair_demo w), _. split; [exact E|]. done.
Defined.
