(* ===== verification/ExecSpec.v ===== *)
(** * Exec (os/src/task/process.rs, os/src/syscall/process.rs)

    A process gets another program: the new address space, and the arguments on the
    new stack where the program looks for them. *)

From S2P Require Import Prelude Bytes BlockStore Address FrameAlloc PageTable MemorySet MemorySpec AddressSpace.
From S2P Require Import Ids TaskRes UserMem Files UserRange Pipe FileCalls Threads Sync SyncCalls ThreadCalls.
From S2P Require Import ThreadSpec Processes ProcessSpec ForkSpec ExitSpec.

(** ** Writing to a part of user memory *)

(** The byte of user memory at [va], and the bytes [bs] from [va] on. *)
Definition ubyte (k : kmem) (mu : gmap Z Z) (va : Z) : option Z := UserMem.cell (mem k) (vloc mu va).
Definition uholds (k : kmem) (mu : gmap Z Z) (va : Z) (bs : list Z) : Prop :=
  ∀ i b, bs !! i = Some b → ubyte k mu (va + Z.of_nat i) = Some b.

Section region.
(** A region of user memory that can be written. *)
Context (start : Z) (pt : PageTable) (mu : gmap Z Z) (lo hi : Z).

Record region (k : kmem) : Prop := {
  rg_rep : represents start k pt mu;
  rg_range : user_range k mu lo (hi - lo);
  rg_outside : outside_table pt mu lo (hi - lo);
}.

(** The bytes of the region at [va], [va + 1], .. are [bs], the others as before. *)
Record wrote (k k' : kmem) (P : Z → Prop) : Prop := {
  wr_region : region k';
  wr_frames : frames k' = frames k;
  wr_lengths : same_lengths (mem k) (mem k');
  wr_rest va : lo ≤ va < hi → ¬ P va → ubyte k' mu va = ubyte k mu va;
  wr_outside l : 0 ≤ l.2 → (∀ va, lo ≤ va < hi → l ≠ vloc mu va) → UserMem.cell (mem k') l = UserMem.cell (mem k) l;
}.

Lemma wrote_refl k P : region k → wrote k k P.
Proof. by split. Qed.

Lemma wrote_trans k1 k2 k3 (P Q R : Z → Prop) :
  wrote k1 k2 P → wrote k2 k3 Q → (∀ va, P va ∨ Q va → R va) → wrote k1 k3 R.
Proof.
  intros [R1 F1 L1 S1 O1] [R2 F2 L2 S2 O2] HR. split; [done|congruence|by eapply same_lengths_trans| |].
  - intros va Hva Hn. rewrite S2, S1; auto.
  - intros l Hl Hn. by rewrite O2, O1.
Qed.

(** What was written before stays, where it is not overwritten. *)
Lemma uholds_kept k k' P va bs :
  wrote k k' P → lo ≤ va → va + Z.of_nat (length bs) ≤ hi →
  (∀ x, va ≤ x < va + Z.of_nat (length bs) → ¬ P x) → uholds k mu va bs → uholds k' mu va bs.
Proof.
  intros Hw Hlo Hhi Hn Hu i b Hi. assert (Hlt : (i < length bs)%nat) by (by eapply lookup_lt_Some).
  rewrite (wr_rest _ _ _ Hw); [by apply Hu|lia|apply Hn; lia].
Qed.

(** The other pages of memory are as before. *)
Lemma wrote_page k k' P q :
  wrote k k' P → (∀ va, lo ≤ va < hi → (vloc mu va).1 ≠ q) → mem k' !! q = mem k !! q.
Proof.
  intros Hw Hq. pose proof (wr_lengths _ _ _ Hw q) as Hl. assert (Hc : ∀ o, UserMem.cell (mem k') (q, Z.of_nat o) = UserMem.cell (mem k) (q, Z.of_nat o)).
  { intros o. apply (wr_outside _ _ _ Hw); [cbn; lia|]. intros va Hva E. apply (Hq va Hva). by rewrite <- E. }
  unfold UserMem.cell in Hc. cbn [fst snd] in Hc. destruct (mem k' !! q) as [x|], (mem k !! q) as [y|]; try done.
  f_equal. apply list_eq. intros i. specialize (Hc i). cbn in Hc. by rewrite Nat2Z.id in Hc.
Qed.

Lemma translated_ref_region k va :
  region k → lo ≤ va < hi → translated_ref (token pt) va k = Ok (PTE_ppn (mu !!! (va / 4096)) * 4096 + va mod 4096, k).
Proof.
  intros [Hrep Hu _] Hva. pose proof (ur_ptr _ _ _ _ Hu). pose proof (ur_end _ _ _ _ Hu).
  destruct (ur_backed _ _ _ _ Hu va ltac:(lia)) as (b & Hb & _). unfold translated_ref. mstep.
  rewrite (translate_va_user start k pt mu Hrep va b) by (done || lia). cbn [unwrap]. by rewrite (lookup_total_correct _ _ _ Hb).
Qed.

(** An assignment in the region. *)
Lemma assign_region k va bs :
  region k → lo ≤ va → va + Z.of_nat (length bs) ≤ hi → bs ≠ [] → bytes bs → va mod 4096 + Z.of_nat (length bs) ≤ 4096 →
  ∃ k', write_ref (PTE_ppn (mu !!! (va / 4096)) * 4096 + va mod 4096) bs k = Ok (tt, k') ∧
    assign_user (token pt) va bs k = Ok (tt, k') ∧ wrote k k' (λ x, va ≤ x < va + Z.of_nat (length bs)) ∧ uholds k' mu va bs.
Proof.
  intros Hr Hlo Hhi Hne Hby Hfit. pose proof Hr as [Hrep Hu Hout].
  assert (Hpos : (0 < length bs)%nat) by (destruct bs; [done|simpl; lia]).
  destruct (user_store start k pt mu va bs Hrep) as (k' & E & Hrep' & Hf & Hs & Hc & Ho); try done.
  { eapply user_range_part; [..|exact Hu]; lia. } { apply Hout. lia. }
  exists k'. split; [|split; [done|split]].
  - unfold assign_user in E. erewrite bind_run in E by (apply translated_ref_region; [done|lia]). done.
  - assert (Hinj : ∀ x y, lo ≤ x < hi → lo ≤ y < hi → vloc mu x = vloc mu y → x = y).
    { intros x y Hx Hy [= Hp Hm]. pose proof (ur_own _ _ _ _ Hu x y ltac:(lia) ltac:(lia) Hp).
      rewrite (Z.div_mod x 4096), (Z.div_mod y 4096) by lia. congruence. }
    split; [split; [done|by eapply user_range_lengths|done]|done|done| |].
    + intros x Hx Hn. apply Ho; [by apply Z.mod_pos_bound|].
      intros (y & Ey & Hy%elem_of_seqZ)%list_elem_of_fmap. apply Hinj in Ey; [|lia|lia]. lia.
    + intros l Hl Hn. apply Ho; [done|]. intros (y & -> & Hy%elem_of_seqZ)%list_elem_of_fmap. apply (Hn y); [lia|done].
  - intros i b Hi. assert (Hlt : (i < length bs)%nat) by (by eapply lookup_lt_Some).
    apply (cells_lookup _ _ _ i _ _ Hc); [|done]. rewrite list_lookup_fmap, lookup_seqZ_lt by lia. done.
Qed.

Lemma uholds_cons k va b bs : ubyte k mu va = Some b → uholds k mu (va + 1) bs → uholds k mu va (b :: bs).
Proof.
  intros Hb Hbs [|i] c Hi; cbn in Hi; [injection Hi as <-; by rewrite Z.add_0_r|].
  replace (va + Z.of_nat (S i)) with (va + 1 + Z.of_nat i) by lia. by apply Hbs.
Qed.

(** A string and its terminating zero. *)
Lemma push_bytes_run bs : ∀ k p,
  region k → lo ≤ p → p + Z.of_nat (length bs) + 1 ≤ hi → bytes bs →
  ∃ k', push_bytes (token pt) p bs k = Ok (tt, k') ∧ wrote k k' (λ x, p ≤ x < p + Z.of_nat (length bs) + 1) ∧
    uholds k' mu p (bs ++ [0]).
Proof.
  induction bs as [|c bs IH]; intros k p Hr Hlo Hhi Hby; pose proof (ur_end _ _ _ _ (rg_range _ Hr)); pose proof (ur_ptr _ _ _ _ (rg_range _ Hr));
    assert (Hmod : 0 ≤ p mod 4096 < 4096) by (by apply Z.mod_pos_bound).
  - cbn [length] in *. destruct (assign_region k p [0] Hr) as (k' & _ & E & Hw & Hu); [done|cbn [length]; lia|done|by apply Forall_singleton|cbn [length]; lia|].
    exists k'. split; [done|]. split; [|done]. cbn [length] in Hw. by replace (p + Z.of_nat 0 + 1) with (p + Z.of_nat 1) by lia.
  - cbn [length] in *. apply Forall_cons in Hby as [Hc Hby].
    destruct (assign_region k p [c] Hr) as (k1 & _ & E1 & Hw1 & Hu1); [done|cbn [length]; lia|done|by apply Forall_singleton|cbn [length]; lia|].
    destruct (IH k1 (p + 1)) as (k' & E & Hw & Hu); [apply Hw1|lia|lia|done|].
    exists k'. split; [|split].
    + cbn [push_bytes]. erewrite bind_run by exact E1. by rewrite u64_small by lia.
    + eapply wrote_trans; [exact Hw1|exact Hw|]. cbn [length]. intros x. lia.
    + apply uholds_cons; [|done]. rewrite (wr_rest _ _ _ Hw); [|lia|lia]. rewrite <- (Z.add_0_r p). by apply (Hu1 0%nat).
Qed.

(** ** The arguments *)

(** Where the strings go, from the stack pointer down. *)
Fixpoint arg_ptrs (sp : Z) (args : list (list Z)) : list Z :=
  match args with
  | [] => []
  | a :: args => let sp := sp - Z.of_nat (length a + 1) in sp :: arg_ptrs sp args
  end.
(** How much room they take. *)
Definition args_size (args : list (list Z)) : Z := foldr (λ a n, Z.of_nat (length a + 1) + n) 0 args.

Lemma args_size_nonneg args : 0 ≤ args_size args.
Proof. induction args; cbn [args_size foldr] in *; [lia|]. unfold args_size in *. lia. Qed.

Lemma arg_ptrs_range args : ∀ sp j a ptr,
  args !! j = Some a → arg_ptrs sp args !! j = Some ptr → sp - args_size args ≤ ptr ∧ ptr + Z.of_nat (length a) + 1 ≤ sp.
Proof.
  induction args as [|a0 args IH]; intros sp [|j] a ptr Ha Hp; try done; cbn in Ha, Hp.
  - injection Ha as ->. injection Hp as <-. pose proof (args_size_nonneg args). unfold args_size in *. cbn [foldr]. lia.
  - destruct (IH _ _ _ _ Ha Hp). unfold args_size in *. cbn [foldr]. lia.
Qed.

(** The physical addresses of the argument vector. *)
Definition slots (argv : Z) (i n : nat) : list Z :=
  (λ j, PTE_ppn (mu !!! ((argv + 8 * Z.of_nat j) / 4096)) * 4096 + (argv + 8 * Z.of_nat j) mod 4096) <$> seq i n.

(** The strings and the pointers to them. *)
Lemma push_args_run args : ∀ k sp argv i,
  region k → argv mod 8 = 0 → lo ≤ sp - args_size args → sp ≤ argv → argv + 8 * Z.of_nat (i + length args) ≤ hi →
  Forall bytes args →
  ∃ k', push_args (token pt) sp (slots argv i (length args + 1)) args k = Ok (sp - args_size args, k') ∧
    wrote k k' (λ x, sp - args_size args ≤ x < sp ∨ argv + 8 * Z.of_nat i ≤ x < argv + 8 * Z.of_nat (i + length args)) ∧
    ∀ j a ptr, args !! j = Some a → arg_ptrs sp args !! j = Some ptr →
      uholds k' mu (argv + 8 * Z.of_nat (i + j)) (le_put 8 ptr) ∧ uholds k' mu ptr (a ++ [0]).
Proof.
  induction args as [|a args IH]; intros k sp argv i Hr Hal Hlo Hsp Hhi Hby.
  - exists k. cbn [push_args args_size foldr]. split; [by rewrite Z.sub_0_r|]. split; [by apply wrote_refl|done].
  - apply Forall_cons in Hby as [Ha Hby]. cbn [length] in *.
    assert (Hsz : args_size (a :: args) = Z.of_nat (length a + 1) + args_size args) by done.
    set (sp' := sp - Z.of_nat (length a + 1)). pose proof (args_size_nonneg args).
    pose proof (ur_end _ _ _ _ (rg_range _ Hr)). pose proof (ur_ptr _ _ _ _ (rg_range _ Hr)).
    assert (Hl8 : Z.of_nat (length (le_put 8 sp')) = 8) by (by rewrite length_le_put).
    destruct (assign_region k (argv + 8 * Z.of_nat i) (le_put 8 sp') Hr) as (k1 & E1 & _ & Hw1 & Hu1).
    { lia. } { lia. } { intros E. by rewrite E in Hl8. } { apply le_put_bytes. } { rewrite Hl8. Z.to_euclidean_division_equations; lia. }
    destruct (push_bytes_run a k1 sp') as (k2 & E2 & Hw2 & Hu2); [apply Hw1|lia|lia|done|].
    destruct (IH k2 sp' argv (S i)) as (k' & E & Hw & Hu); [apply Hw2|done|lia|lia|lia|done|].
    exists k'. split; [|split].
    + cbn [push_args]. rewrite u64_small by lia. fold sp'. change (length (a :: args)) with (S (length args)).
      change (slots argv i (S (length args) + 1)) with
        (PTE_ppn (mu !!! ((argv + 8 * Z.of_nat i) / 4096)) * 4096 + (argv + 8 * Z.of_nat i) mod 4096 :: slots argv (S i) (length args + 1)).
      erewrite bind_run by reflexivity. erewrite bind_run by exact E1. erewrite bind_run by exact E2.
      cbn [drop]. rewrite drop_0, E. do 2 f_equal. rewrite Hsz. unfold sp'. lia.
    + rewrite Hl8 in Hw1. eapply wrote_trans; [eapply wrote_trans; [exact Hw1|exact Hw2|intros x Hx; exact Hx]|exact Hw|].
      intros x. cbn beta. rewrite Hsz. unfold sp' in *. lia.
    + intros [|j] a' ptr Ha' Hptr; cbn in Ha', Hptr.
      * injection Ha' as <-. injection Hptr as <-. fold sp'. rewrite Nat.add_0_r. split.
        -- eapply uholds_kept; [exact Hw|lia|lia|intros x; rewrite Hl8; unfold sp' in *; lia|].
           eapply uholds_kept; [exact Hw2|lia|lia|intros x; rewrite Hl8; unfold sp' in *; lia|exact Hu1].
        -- assert (Hla : Z.of_nat (length (a ++ [0])) = Z.of_nat (length a) + 1) by (rewrite length_app; cbn [length]; lia).
           eapply uholds_kept; [exact Hw|lia|lia|intros x; rewrite Hla; unfold sp' in *; lia|exact Hu2].
      * replace (i + S j)%nat with (S i + j)%nat by lia. by apply Hu.
Qed.

Lemma argv_refs_run k argv l :
  region k → lo ≤ argv → (∀ a, a ∈ l → 0 ≤ a ∧ argv + 8 * a < hi) →
  argv_refs (token pt) argv l k = Ok ((λ a, PTE_ppn (mu !!! ((argv + 8 * a) / 4096)) * 4096 + (argv + 8 * a) mod 4096) <$> l, k).
Proof.
  intros Hr Hlo. pose proof (ur_end _ _ _ _ (rg_range _ Hr)). pose proof (ur_ptr _ _ _ _ (rg_range _ Hr)).
  induction l as [|a l IH]; intros Hl; [done|]. destruct (Hl a) as [Ha Hin]; [left|]. cbn [argv_refs fmap list_fmap].
  rewrite (u64_small (a * 8)), u64_small by lia. replace (argv + a * 8) with (argv + 8 * a) by lia.
  erewrite bind_run by (apply translated_ref_region; [done|lia]).
  erewrite bind_run by (apply IH; intros x Hx; apply Hl; by right). done.
Qed.

(** The argument vector, with its terminating null pointer, and the strings. *)
Definition arguments (k : kmem) (argv : Z) (args : list (list Z)) : Prop :=
  (∀ j a ptr, args !! j = Some a → arg_ptrs argv args !! j = Some ptr →
    uholds k mu (argv + 8 * Z.of_nat j) (le_put 8 ptr) ∧ uholds k mu ptr (a ++ [0])) ∧
  uholds k mu (argv + 8 * Z.of_nat (length args)) (le_put 8 0).

Lemma uholds_ext k k' va bs :
  (∀ x, lo ≤ x < hi → ubyte k' mu x = ubyte k mu x) → lo ≤ va → va + Z.of_nat (length bs) ≤ hi →
  uholds k mu va bs → uholds k' mu va bs.
Proof.
  intros He Hlo Hhi Hu i b Hi. assert (Hlt : (i < length bs)%nat) by (by eapply lookup_lt_Some).
  rewrite He by lia. by apply Hu.
Qed.

Lemma arguments_ext k k' argv args :
  (∀ x, lo ≤ x < hi → ubyte k' mu x = ubyte k mu x) → lo ≤ argv - args_size args →
  argv + 8 * (Z.of_nat (length args) + 1) ≤ hi → arguments k argv args → arguments k' argv args.
Proof.
  intros He Hlo Hhi [H1 H2]. pose proof (args_size_nonneg args). assert (Hl8 : ∀ z, Z.of_nat (length (le_put 8 z)) = 8) by (intros z; by rewrite length_le_put).
  split; [|eapply uholds_ext; [exact He|lia|rewrite Hl8; lia|exact H2]].
  intros j a ptr Ha Hp. destruct (H1 j a ptr Ha Hp) as [Hu1 Hu2]. destruct (arg_ptrs_range args argv j a ptr Ha Hp).
  assert (Hj : (j < length args)%nat) by (by eapply lookup_lt_Some).
  split; (eapply uholds_ext; [exact He|lia| |done]); [rewrite Hl8; lia|rewrite length_app; cbn [length]; lia].
Qed.

Lemma stack_args_run args k :
  let n := length args in let argv := hi - 8 * (Z.of_nat n + 1) in
  region k → hi mod 8 = 0 → Forall bytes args → lo ≤ argv - args_size args →
  ∃ k4 k5 last, argv_refs (token pt) argv (seqZ 0 (Z.of_nat n + 1)) k = Ok (slots argv 0 (n + 1), k) ∧
    idx (slots argv 0 (n + 1)) (Z.of_nat n) = Ok last ∧ write_ref last (le_put 8 0) k = Ok (tt, k4) ∧
    push_args (token pt) argv (slots argv 0 (n + 1)) args k4 = Ok (argv - args_size args, k5) ∧
    wrote k k5 (λ _, True) ∧ arguments k5 argv args.
Proof.
  intros n argv Hr Hal Hby Hlo. pose proof (args_size_nonneg args). pose proof (ur_end _ _ _ _ (rg_range _ Hr)).
  assert (Hargv : argv mod 8 = 0) by (unfold argv; Z.to_euclidean_division_equations; lia).
  assert (Hl8 : ∀ z, Z.of_nat (length (le_put 8 z)) = 8) by (intros z; by rewrite length_le_put).
  destruct (assign_region k (argv + 8 * Z.of_nat n) (le_put 8 0) Hr) as (k4 & E4 & _ & Hw4 & Hu4).
  { lia. } { rewrite Hl8. unfold argv. lia. } { done. } { apply le_put_bytes. } { rewrite Hl8. Z.to_euclidean_division_equations; lia. }
  destruct (push_args_run args k4 argv argv 0) as (k5 & E5 & Hw5 & Hu5); [apply Hw4|done|done|lia|cbn [Nat.add]; unfold argv, n; lia|done|].
  exists k4, k5. eexists. split; [|split; [|split; [exact E4|split; [exact E5|split]]]].
  - rewrite argv_refs_run; [|done|lia|intros x Hx%elem_of_seqZ; unfold argv; lia]. do 2 f_equal.
    unfold slots, seqZ. rewrite <- list_fmap_compose. replace (Z.to_nat (Z.of_nat n + 1)) with (n + 1)%nat by lia.
    apply list_fmap_ext. intros i x _. cbn. by rewrite Z.add_0_r.
  - unfold idx, slots. rewrite Nat2Z.id, list_lookup_fmap, lookup_seq_lt by lia. reflexivity.
  - eapply wrote_trans; [exact Hw4|exact Hw5|done].
  - split; [intros j a ptr Ha Hp; exact (Hu5 j a ptr Ha Hp)|].
    eapply uholds_kept; [exact Hw5|unfold argv in *; lia|rewrite Hl8; unfold argv, n in *; lia| |exact Hu4].
    intros x. rewrite Hl8. cbn [Nat.add]. unfold argv, n in *. lia.
Qed.
End region.

(** ** The new address space *)

Lemma drop_frames_nfree l : ∀ k k', drop_frames l k = Ok (tt, k') → nfree (frames k') = (length l + nfree (frames k))%nat.
Proof.
  induction l as [|p l IH]; intros k k' E; cbn [drop_frames] in E; [by injection E as <-|].
  unfold frame_dealloc, FA_dealloc in E. mstep. destruct ((_ <=? _) || _); [done|]. apply IH in E. rewrite E. cbn [frames]. unfold nfree.
  cbn [recycled FrameAlloc.current end_]. rewrite length_app. cbn [length]. lia.
Qed.

Lemma drop_areas_nfree l : ∀ k k', drop_areas l k = Ok (tt, k') → (nfree (frames k) ≤ nfree (frames k'))%nat.
Proof.
  induction l as [|a l IH]; intros k k' E; cbn [drop_areas] in E; [by injection E as <-|].
  mstep. destruct (drop_area a k) as [[[] k1]|] eqn:E1; [|done]. apply drop_frames_nfree in E1. apply IH in E. lia.
Qed.

Lemma MemorySet_drop_nfree ms k k' : MemorySet_drop ms k = Ok (tt, k') → (nfree (frames k) ≤ nfree (frames k'))%nat.
Proof.
  intros E. unfold MemorySet_drop in E. mstep. destruct (drop_frames _ k) as [[[] k1]|] eqn:E1; [|done].
  apply drop_frames_nfree in E1. apply drop_areas_nfree in E. lia.
Qed.

(** A loaded segment stays when its pages do. *)
Lemma loaded_ext input ms k mu ms' k' mu' ph :
  loaded input ms k mu ph → (∀ q, q ∈ data_of ms → q ∈ data_of ms') → (∀ v, v ∈ seg_vpns ph → mu' !! v = mu !! v) →
  (∀ q, q ∈ data_of ms → mem k' !! q = mem k !! q) → loaded input ms' k' mu' ph.
Proof.
  intros (ps & Hl & Hps & Hmap & Hc) Hd Hmu Hm. exists ps. split; [done|]. split; [auto|]. split.
  - intros i v q Hi Hq. rewrite Hmu by (by eapply list_elem_of_lookup_2). by eapply Hmap.
  - rewrite <- Hc. apply contents_ext. auto.
Qed.

(** The stack of a thread is a region that can be written. *)
Lemma stack_region start k ms mu r p1 p2 :
  res_ok r → space_ok start k ms mu → p1 ≠ p2 → p1 ∈ data_of ms → p2 ∈ data_of ms →
  mu !! stack_vpn r = Some (pte_for (2 + 4 + 16) p1) → mu !! (stack_vpn r + 1) = Some (pte_for (2 + 4 + 16) p2) →
  region start (page_table ms) mu (stack_vpn r * 4096) (stack_vpn r * 4096 + 0x2000) k ∧
  ∀ va, stack_vpn r * 4096 ≤ va < stack_vpn r * 4096 + 0x2000 → (vloc mu va).1 = p1 ∨ (vloc mu va).1 = p2.
Proof.
  intros Hr Hs Hne Hp1 Hp2 Hm1 Hm2. destruct (stack_va r Hr) as (_ & _ & _ & Hs0 & Hs1). pose proof Hr as [Ht Hb Ha Hroom].
  assert (Hend : stack_vpn r * 4096 + 0x2000 < 2 ^ 38) by (unfold stack_vpn; Z.to_euclidean_division_equations; lia).
  destruct (data_used _ _ _ _ Hs p1 Hp1) as [Hu1 Hn1]. destruct (data_used _ _ _ _ Hs p2 Hp2) as [Hu2 Hn2].
  destruct (used_page start k p1) as (Hb1 & pg1 & Ep1 & _); [apply (so_rep _ _ _ _ Hs)|done|].
  destruct (used_page start k p2) as (Hb2 & pg2 & Ep2 & _); [apply (so_rep _ _ _ _ Hs)|done|].
  assert (Hva : ∀ va, stack_vpn r * 4096 ≤ va < stack_vpn r * 4096 + 0x2000 →
    (va / 4096 = stack_vpn r ∧ mu !! (va / 4096) = Some (pte_for (2 + 4 + 16) p1)) ∨
    (va / 4096 = stack_vpn r + 1 ∧ mu !! (va / 4096) = Some (pte_for (2 + 4 + 16) p2))).
  { intros va Hv. assert (va / 4096 = stack_vpn r ∨ va / 4096 = stack_vpn r + 1) as [E|E] by (Z.to_euclidean_division_equations; lia);
      rewrite E; auto. }
  assert (Hppn : ∀ va, stack_vpn r * 4096 ≤ va < stack_vpn r * 4096 + 0x2000 →
    (va / 4096 = stack_vpn r ∧ PTE_ppn (mu !!! (va / 4096)) = p1) ∨ (va / 4096 = stack_vpn r + 1 ∧ PTE_ppn (mu !!! (va / 4096)) = p2)).
  { intros va [[E H]|[E H]]%Hva; [left|right]; (split; [done|]); rewrite (lookup_total_correct _ _ _ H); by apply pte_for_ppn. }
  split; [split; [apply Hs|split|]|]; [lia|lia|lia| | |..].
  - intros va Hv. destruct (Hva va ltac:(lia)) as [[_ H]|[_ H]]; eexists; (split; [exact H|]); rewrite pte_for_ppn by done; by eexists.
  - intros x y Hx Hy E. destruct (Hppn x ltac:(lia)) as [[? Ex]|[? Ex]], (Hppn y ltac:(lia)) as [[? Ey]|[? Ey]]; congruence.
  - intros va Hv. destruct (Hppn va ltac:(lia)) as [[_ ->]|[_ ->]]; done.
  - intros va Hv. destruct (Hppn va Hv) as [[_ E]|[_ E]]; [left|right]; exact E.
Qed.

(** Writing to data pages of the user keeps both spaces. *)
Lemma wrote_world start w mu nu lo hi k' P :
  world_ok start w mu nu → wrote start (page_table (memory_set w)) mu lo hi (memory w) k' P →
  (∀ va, lo ≤ va < hi → (vloc mu va).1 ∈ data_of (memory_set w)) →
  world_ok start (mkWorld (memory_set w) (task_res_allocator w) (kernel_space w) (kstack_allocator w) k') mu nu.
Proof.
  intros [Hu Hk Hsep] Hw Hloc. pose proof (rg_rep _ _ _ _ _ _ (wr_region _ _ _ _ _ _ _ _ Hw)) as Hrep.
  assert (Hfr := wr_frames _ _ _ _ _ _ _ _ Hw).
  split; cbn [memory memory_set kernel_space]; [| |done].
  - destruct Hu as [_ Ha Hp Hn Hu]. split; [done..|]. intros q Hq. rewrite Hfr. by apply Hu.
  - destruct Hk as [Hkr Ha Hp Hn Hku]. split; [|done..|intros q Hq; rewrite Hfr; by apply Hku].
    eapply represents_frame; [exact Hkr|apply Hrep|]. intros q Hq. split.
    + eapply wrote_page; [exact Hw|]. intros va Hva E. apply (Hsep q); [|by apply own_table]. apply elem_of_app. right. rewrite <- E. by apply Hloc.
    + rewrite Hfr. by apply Hku, own_table.
Qed.

Section exec.
Context {St : Type} (strampoline : Z) (ElfFile_new : list Z → option ElfFile) (user_sstatus trap_handler : Z).
Implicit Types s : system St.

(** What exec needs: one thread, the main thread; a program that can be loaded, with
    its stack outside of its segments; arguments that fit on the stack; memory for
    the new program while the old one is still there. *)
Record exec_ready (start : Z) s (b : ProcessControlBlock) (mu kn : gmap Z Z) (t : Z) (tcb : TaskControlBlock) (r : TaskUserRes)
    (elf_data : list Z) (elf : ElfFile) (phs : list ProgramHeader) (args : list (list Z)) : Prop := {
  ex_space : space_ok start (sys_memory s) (pcb_memory_set b) mu;
  ex_kernel : space_ok start (sys_memory s) (sys_kernel_space s) kn;
  ex_sep q : q ∈ own (pcb_memory_set b) → q ∉ own (sys_kernel_space s);
  ex_task : tasks (pcb_proc b) = [Some t];
  ex_block : sys_tcbs s !! Z.to_nat t = Some tcb;
  ex_res : res tcb = Some r;
  ex_main : tid r = 0;
  ex_file : ElfFile_new elf_data = Some elf;
  ex_elf : elf_ok strampoline elf phs;
  ex_stack : res_ok (mkRes 0 (stack_base phs));
  ex_clear v : stack_vpn (mkRes 0 (stack_base phs)) ≤ v < stack_vpn (mkRes 0 (stack_base phs)) + 2 →
    v ∉ loadable phs ≫= seg_vpns;
  ex_free : (12 + 3 * length (loadable phs ≫= seg_vpns) ≤ nfree (frames (sys_memory s)))%nat;
  ex_args : Forall bytes args;
  ex_fit : 8 * Z.of_nat (length args + 1) + args_size args ≤ 0x2000;
}.

(** The new program is loaded and the old one is gone. *)
Lemma exec_load start s b mu kn t tcb r elf_data elf phs args :
  exec_ready start s b mu kn t tcb r elf_data elf phs args →
  ∃ ms k1 k2 mu1, from_elf strampoline ElfFile_new elf_data (sys_memory s) = Ok ((ms, stack_base phs, elf_entry elf), k1) ∧
    MemorySet_drop (pcb_memory_set b) k1 = Ok (tt, k2) ∧ (9 ≤ nfree (frames k2))%nat ∧
    space_ok start k2 ms mu1 ∧ space_ok start k2 (sys_kernel_space s) kn ∧ (∀ q, q ∈ own ms → ¬ in_use start (frames (sys_memory s)) q) ∧
    Forall2 same_shape (seg_area <$> loadable phs) (areas ms) ∧
    Forall (loaded (elf_input elf) ms k2 mu1) (loadable phs) ∧ only_program strampoline phs mu1 ∧
    (∀ q, q ∈ own (pcb_memory_set b) → ¬ in_use start (frames k2) q) ∧
    (∀ q, in_use start (frames (sys_memory s)) q → q ∉ own (pcb_memory_set b) →
      in_use start (frames k2) q ∧ mem k2 !! q = mem (sys_memory s) !! q).
Proof.
  intros [Hs Hk Hsep _ _ _ _ Hfile Helf _ _ Hfree _ _].
  destruct (from_elf_run start (sys_memory s) strampoline ElfFile_new elf_data elf phs) as
    (ms & k1 & mu1 & fr & E1 & Hms & Hsh & Hld & Honly & Hown & Hlen & Hg); [apply (so_rep _ _ _ _ Hs)|done|done|lia|].
  assert (Hold : ∀ q, in_use start (frames (sys_memory s)) q → in_use start (frames k1) q ∧ mem k1 !! q = mem (sys_memory s) !! q).
  { intros q Hu. split; [apply (gr_use _ _ _ _ _ Hg); by right|]. apply (gr_mem _ _ _ _ _ Hg); [|apply not_elem_of_nil].
    intros Hf. by apply (gr_fresh _ _ _ _ _ Hg) in Hf as [_ ?]. }
  assert (Hnew : ∀ q, q ∈ own ms → ¬ in_use start (frames (sys_memory s)) q).
  { intros q Hq%Hown. by apply (gr_fresh _ _ _ _ _ Hg) in Hq as [_ ?]. }
  destruct (MemorySet_drop_run start k1 (pcb_memory_set b)) as (k2 & E2 & Hsh2); [apply (so_rep _ _ _ _ Hms)|apply Hs| |].
  { intros q Hq. by apply Hold, (so_used _ _ _ _ Hs). }
  pose proof (gr_free _ _ _ _ _ Hg) as Hgf. pose proof (MemorySet_drop_nfree _ _ _ E2) as Hnf.
  exists ms, k1, k2, mu1. split; [done|]. split; [done|]. split; [lia|]. split; [|split; [|split; [|split; [done|split; [|split; [done|split]]]]]].
  - eapply space_ok_shrinks; [exact Hms|exact Hsh2|]. intros q Hq. split; [apply not_elem_of_nil|]. intros Hin. by apply (Hnew q Hq), (so_used _ _ _ _ Hs).
  - eapply space_ok_shrinks; [eapply space_ok_grows; [exact Hk|exact Hg|intros ? _; apply not_elem_of_nil]|exact Hsh2|].
    intros q Hq. split; [apply not_elem_of_nil|]. intros Hin. by apply (Hsep q Hin).
  - exact Hnew.
  - eapply Forall_impl; [exact Hld|]. intros ph Hph. eapply loaded_ext; [exact Hph|done..|].
    intros q _. apply (sh_mem _ _ _ _ _ Hsh2), not_elem_of_nil.
  - intros q Hq. rewrite (sh_use _ _ _ _ _ Hsh2). tauto.
  - intros q Hu Hq. destruct (Hold q Hu) as [Hu1 Hm1]. rewrite (sh_use _ _ _ _ _ Hsh2), (sh_mem _ _ _ _ _ Hsh2); [done|apply not_elem_of_nil].
Qed.

(** The stack and the trap context fit next to the program. *)
Lemma exec_place input phs ms mu1 :
  let r := mkRes 0 (stack_base phs) in
  res_ok r → Forall (seg_ok input) (loadable phs) → only_program strampoline phs mu1 →
  (∀ v, stack_vpn r ≤ v < stack_vpn r + 2 → v ∉ loadable phs ≫= seg_vpns) →
  Forall2 same_shape (seg_area <$> loadable phs) (areas ms) → can_place ms mu1 r.
Proof.
  intros r Hr Hok Honly Hclear Hsh. destruct (stack_va r Hr) as (_ & _ & _ & Hs0 & Hs1). destruct (trap_va r Hr) as (_ & _ & _ & Ht).
  unfold tramp_vpn in Ht. assert (Hlow : ∀ v, v ∈ loadable phs ≫= seg_vpns → v < 2 ^ 26).
  { intros v (ph & Hv & Hph)%list_elem_of_bind. rewrite Forall_forall in Hok. by apply (seg_pages input ph (Hok ph Hph)). }
  assert (Hnone : ∀ v, (v ∉ loadable phs ≫= seg_vpns) → v < 2 ^ 27 - 1 → mu1 !! v = None).
  { intros v Hv Hlt. rewrite Honly by done. rewrite decide_False; [done|]. unfold tramp_vpn. lia. }
  split.
  - intros v Hv. apply Hnone; [by apply Hclear|lia].
  - apply Hnone; [|lia]. intros Hin%Hlow. lia.
  - intros a [i Hi]%list_elem_of_lookup. destruct (Forall2_lookup_r _ _ _ _ _ Hsh Hi) as (x & Hx & (Er & _)).
    rewrite list_lookup_fmap in Hx. apply fmap_Some in Hx as (ph & Hph & ->). apply list_elem_of_lookup_2 in Hph.
    rewrite Forall_forall in Hok. destruct (seg_pages input ph (Hok ph Hph)) as (_ & Hne & _ & _).
    assert (Hin : range_l (vpn_range a) ∈ loadable phs ≫= seg_vpns).
    { apply list_elem_of_bind. exists ph. split; [|done]. rewrite <- Er. unfold seg_vpns, area_vpns, vpns_of in *.
      apply elem_of_seqZ. destruct (decide (range_l (vpn_range (seg_area ph)) < range_r (vpn_range (seg_area ph)))); [lia|].
      exfalso. apply Hne. apply seqZ_nil. lia. }
    split; intros E; rewrite E in Hin; [by apply (Hclear (stack_vpn r)); [lia|]|apply Hlow in Hin; lia].
Qed.

(** A thread with its stack and its trap context in the new space. *)
Lemma exec_user start w mu1 kn r :
  res_ok r → world_ok start w mu1 kn → can_place (memory_set w) mu1 r → (9 ≤ nfree (frames (memory w)))%nat →
  ∃ p1 p2 p3 w' mu2, alloc_user_res r w = Ok (tt, w') ∧ world_ok start w' mu2 kn ∧ trap_cx_ppn r w' = Ok (p3, w') ∧
    thread_mapped r mu1 mu2 p1 p2 p3 ∧ p1 ∈ data_of (memory_set w') ∧ p2 ∈ data_of (memory_set w') ∧ p3 ∈ data_of (memory_set w') ∧
    NoDup [p1; p2; p3] ∧ (∀ q, in_use start (frames (memory w)) q → q ∉ [p1; p2; p3]) ∧
    (∀ q, q ∈ data_of (memory_set w) → q ∈ data_of (memory_set w')) ∧
    kernel_space w' = kernel_space w ∧ kstack_allocator w' = kstack_allocator w ∧ task_res_allocator w' = task_res_allocator w ∧
    MemorySet_token (memory_set w') = MemorySet_token (memory_set w) ∧
    (∀ q, in_use start (frames (memory w)) q → q ∉ pt_frames (page_table (memory_set w)) →
      in_use start (frames (memory w')) q ∧ mem (memory w') !! q = mem (memory w) !! q) ∧
    (∀ q, in_use start (frames (memory w')) q → in_use start (frames (memory w)) q ∨ q ∈ own (memory_set w')).
Proof.
  intros Hr [Hu Hk Hsep] Hplace Hn.
  destruct (alloc_user_res_run start w mu1 r Hr Hu Hplace Hn) as (p1 & p2 & p3 & k' & fr1 & fr2 & E & Hs & Hg & _).
  set (ms1 := pushed (memory_set w) (stack_area r) [p1; p2] fr1) in *. set (ms2 := pushed ms1 (trap_area r) [p3] fr2) in *.
  set (mu2 := pushed_map _ (trap_area r) [p3]) in *.
  destruct (pushed_own ms1 (trap_area r) [p3] fr2) as [Ho2 Hd2]; [by rewrite (trap_vpns r Hr)|done|done|].
  destruct (pushed_own (memory_set w) (stack_area r) [p1; p2] fr1) as [Ho1 Hd1]; [by rewrite (stack_vpns r Hr)|done|done|].
  cbn [taken map_type stack_area trap_area framed_area] in *.
  assert (Hsub : ∀ q, q ∈ data_of ms1 → q ∈ data_of ms2).
  { intros q. unfold ms2, pushed, data_of. cbn [areas]. rewrite bind_app, elem_of_app. tauto. }
  assert (Hsub1 : ∀ q, q ∈ data_of (memory_set w) → q ∈ data_of ms1).
  { intros q. unfold ms1, pushed, data_of. cbn [areas]. rewrite bind_app, elem_of_app. tauto. }
  assert (Hfresh : ∀ q, q ∈ [p1; p2] ++ fr1 ++ [p3] ++ fr2 → ¬ in_use start (frames (memory w)) q)
    by (intros q Hq; by apply (gr_fresh _ _ _ _ _ Hg)).
  assert (Hm : thread_mapped r mu1 mu2 p1 p2 p3) by (by apply placed_lookup).
  assert (Hp3 : p3 ∈ data_of ms2) by (apply Hd2; left).
  assert (Hb3 : 0 ≤ p3 < 2 ^ 44).
  { destruct (used_page start k' p3) as [? _]; [apply (so_rep _ _ _ _ Hs)| |done]. by apply (data_used _ _ _ _ Hs). }
  assert (Hown2 : ∀ q, q ∈ own ms2 ↔ q ∈ own (memory_set w) ∨ q ∈ [p1; p2] ++ fr1 ++ [p3] ++ fr2).
  { intros q. unfold ms2. rewrite Ho2. unfold ms1 at 1. rewrite Ho1. rewrite !elem_of_app. tauto. }
  exists p1, p2, p3, (with_user ms2 k' w), mu2. split; [exact E|].
  cbn [with_user memory memory_set kernel_space kstack_allocator task_res_allocator].
  split; [split; cbn [with_user memory memory_set kernel_space]|split; [|split; [exact Hm|]; split; [apply Hsub, Hd1; left|]; split; [apply Hsub, Hd1; right; left|]; split; [exact Hp3|]]].
  - exact Hs.
  - eapply space_ok_grows; [exact Hk|exact Hg|]. intros q Hq Hq'. by apply (Hsep q); apply own_table.
  - intros q [Hq|Hq]%Hown2 Hk'; [by apply (Hsep q)|]. by apply (Hfresh q Hq), (so_used _ _ _ _ Hk).
  - apply (trap_cx_ppn_run start (with_user ms2 k' w) mu2 r (2 + 4) p3); [exact Hr|exact Hs|apply Hm|by split|exact Hb3].
  - split; [|split; [|split; [intros q Hq; by apply Hsub, Hsub1|do 4 (split; [reflexivity|]); split]]].
    + eapply sublist_NoDup; [apply (gr_nodup _ _ _ _ _ Hg)|]. change [p1; p2; p3] with ([p1; p2] ++ [p3]).
      apply sublist_app; [reflexivity|]. apply sublist_inserts_l, sublist_inserts_r. reflexivity.
    + intros q Hq Hin. apply (Hfresh q); [|done]. change [p1; p2; p3] with ([p1; p2] ++ [p3]) in Hin.
      rewrite elem_of_app in Hin. rewrite !elem_of_app. tauto.
    + intros q Hq Hpt. split; [apply (gr_use _ _ _ _ _ Hg); by right|]. apply (gr_mem _ _ _ _ _ Hg); [|done].
      intros Hin. by apply (Hfresh q Hin).
    + intros q Hq. apply (gr_use _ _ _ _ _ Hg) in Hq as [Hq|Hq]; [right|by left]. apply Hown2. by right.
Qed.

(** ** The whole call *)

Definition exec_cx (s : system St) (entry sp argv : Z) (n : Z) (tcb : TaskControlBlock) : TrapContext :=
  let cx := app_init_context user_sstatus entry sp (MemorySet_token (sys_kernel_space s)) (KernelStack_get_top (kstack tcb)) trap_handler in
  mkTrapContext (<[11%nat := argv]> (<[10%nat := n]> (regs cx))) (sstatus cx) (sepc cx) (kernel_satp cx) (kernel_sp cx)
    (TaskRes.trap_handler cx).

(** The system with another program in [p]. *)
Definition after_exec s (p : nat) (b : ProcessControlBlock) (ms : MemorySet) (t : Z) (tcb : TaskControlBlock) (k : kmem) : system St :=
  mkSystem (<[p := set_memory_set ms b]> (pcbs s)) (pid2pcb s) (pid_allocator s) (sys_kernel_space s) (sys_kstacks s) k
    (<[Z.to_nat t := tcb]> (sys_tcbs s)) (owners s) (sys_kern s) (stack_refs s) (sys_disk s) (sys_files s).

Lemma in_world_value {A} s p b (m : M world A) a w :
  pcbs s !! p = Some b → m (t_world (process_view b s)) = Ok (a, w) →
  in_process p (in_world m) s = Ok (a, with_view p b (mkTsys (pcb_proc b) (sys_kern s) w (sys_tcbs s)) s).
Proof. intros Hb Hm. eapply in_process_run; [exact Hb|]. unfold in_world. by rewrite Hm. Qed.

Lemma exec_run s p b t tcb r elf_data args ms ub entry k1 k2 w' p3 argv_pas last k4 sp k5 k6 :
  let n := Z.of_nat (length args) in let r' := mkRes (tid r) ub in
  let argv := ustack_top ub (tid r) -ᵤ ((n +ᵤ 1) *ᵤ 8) in
  pcbs s !! p = Some b → tasks (pcb_proc b) = [Some t] → sys_tcbs s !! Z.to_nat t = Some tcb → res tcb = Some r →
  from_elf strampoline ElfFile_new elf_data (sys_memory s) = Ok ((ms, ub, entry), k1) →
  MemorySet_drop (pcb_memory_set b) k1 = Ok (tt, k2) →
  alloc_user_res r' (mkWorld ms (pcb_res_allocator b) (sys_kernel_space s) (sys_kstacks s) k2) = Ok (tt, w') →
  trap_cx_ppn r' w' = Ok (p3, w') →
  kernel_space w' = sys_kernel_space s → kstack_allocator w' = sys_kstacks s → task_res_allocator w' = pcb_res_allocator b →
  argv_refs (MemorySet_token ms) argv (seqZ 0 (n + 1)) (memory w') = Ok (argv_pas, memory w') →
  idx argv_pas n = Ok last → write_ref last (le_put 8 0) (memory w') = Ok (tt, k4) →
  push_args (MemorySet_token ms) argv argv_pas args k4 = Ok (sp, k5) →
  write_trap_cx p3 (exec_cx s entry (sp -ᵤ sp mod 8) argv n tcb) (mkWorld (memory_set w') (pcb_res_allocator b) (sys_kernel_space s) (sys_kstacks s) k5) =
    Ok (tt, mkWorld (memory_set w') (pcb_res_allocator b) (sys_kernel_space s) (sys_kstacks s) k6) →
  exec strampoline ElfFile_new user_sstatus trap_handler p elf_data args s =
    Ok (tt, after_exec s p b (memory_set w') t (mkTCB (kstack tcb) (Some r') p3 (exit_code tcb)) k6).
Proof.
  intros n r' argv Hb Ht Hblk Hres E1 E2 E3 E4 Hks Hkst Hra E5 E6 E7 E8 E9.
  assert (Hlt : (p < length (pcbs s))%nat) by (by eapply lookup_lt_Some).
  unfold exec. erewrite bind_run by (by apply get_pcb_run). rewrite Ht. erewrite bind_run by reflexivity.
  erewrite bind_run by (by apply on_memory_run). cbv zeta. cbn beta iota.
  erewrite bind_run by (by apply alter_pcb_run). erewrite bind_run by (apply on_memory_run; exact E2).
  erewrite bind_run; [|apply (main_task_run _ p (set_memory_set ms b) t []); [by apply list_lookup_insert_eq|exact Ht]].
  erewrite bind_run by (by apply get_task_block_run). erewrite bind_run; [|rewrite Hres; reflexivity].
  erewrite bind_run by (apply (in_world_value _ p (set_memory_set ms b)); [by apply list_lookup_insert_eq|exact E3]).
  state_eq. rewrite list_insert_insert_eq, Hks, Hkst, Hra.
  set (b2 := set_memory_set (memory_set w') b). set (s2 := after_exec s p b (memory_set w') t tcb (memory w')).
  assert (Hb2 : pcbs s2 !! p = Some b2) by (by apply list_lookup_insert_eq).
  assert (Hw' : t_world (process_view b2 s2) = w') by (destruct w'; cbn in *; by subst).
  match goal with |- ?f ?y = _ => transitivity (f s2); [apply (f_equal f); unfold s2, after_exec; by rewrite (list_insert_id (sys_tcbs s) _ tcb)|] end.
  erewrite bind_run by (apply (in_world_value _ p b2 _ _ w'); [exact Hb2|rewrite Hw'; exact E4]).
  match goal with |- ?f ?y = _ => transitivity (f s2);
    [apply (f_equal f); rewrite <- Hw'; exact (with_view_same s2 p b2 Hb2)|] end.
  erewrite bind_run by (eapply in_threads_run; [exact Hb2|reflexivity]).
  set (s3 := set_threads _ _ s2). cbv zeta.
  erewrite bind_run by (apply on_memory_same; exact E5). erewrite bind_run by (apply lift_run; exact E6).
  erewrite bind_run by (apply on_memory_run; exact E7). erewrite bind_run by (apply on_memory_run; exact E8).
  erewrite bind_run by reflexivity. cbv zeta.
  erewrite (in_world_value _ p b2); [|exact Hb2|exact E9].
  do 2 f_equal. unfold s3, s2, after_exec. state_eq. cbn. by rewrite !list_insert_insert_eq.
Qed.

(** The pages of the program are not those of the thread. *)
Lemma exec_pages input phs mu1 mu2 p1 p2 p3 v :
  let r := mkRes 0 (stack_base phs) in
  res_ok r → Forall (seg_ok input) (loadable phs) → (∀ v, stack_vpn r ≤ v < stack_vpn r + 2 → v ∉ loadable phs ≫= seg_vpns) →
  thread_mapped r mu1 mu2 p1 p2 p3 → v ∈ loadable phs ≫= seg_vpns → mu2 !! v = mu1 !! v.
Proof.
  intros r Hr Hok Hclear (_ & _ & _ & Hrest) Hv. destruct (trap_va r Hr) as (_ & _ & _ & Ht). unfold tramp_vpn in Ht.
  apply Hrest. pose proof Hv as (ph & Hv' & Hph)%list_elem_of_bind.
  rewrite Forall_forall in Hok. destruct (seg_pages input ph (Hok ph Hph)) as (_ & _ & _ & Hlow).
  specialize (Hlow v Hv'). destruct (decide (stack_vpn r ≤ v < stack_vpn r + 2)) as [Hin|Hout]; [by apply Hclear in Hin|].
  rewrite !not_elem_of_cons. split; [lia|]. split; [lia|]. split; [lia|]. apply not_elem_of_nil.
Qed.

(** What is there after exec. *)
Record exec_done (start : Z) s (b : ProcessControlBlock) (kn : gmap Z Z) (tcb : TaskControlBlock) (elf : ElfFile)
    (phs : list ProgramHeader) (args : list (list Z)) (ms' : MemorySet) (mu' : gmap Z Z) (p3 : Z) (k' : kmem) : Prop := {
  xe_space : space_ok start k' ms' mu';
  xe_kernel : space_ok start k' (sys_kernel_space s) kn;
  xe_loaded : Forall (loaded (elf_input elf) ms' k' mu') (loadable phs);
  xe_args : let argv := stack_base phs + 0x2000 - 8 * (Z.of_nat (length args) + 1) in
    arguments mu' k' argv args ∧
    (** the registers: entry point, stack pointer, number of arguments, argument vector *)
    mu' !! (2 ^ 27 - 2) = Some (pte_for (2 + 4) p3) ∧
    ∃ page sp, mem k' !! p3 = Some page ∧ sp = (argv - args_size args) / 8 * 8 ∧
      take 296 page = TrapContext_bytes (exec_cx s (elf_entry elf) sp argv (Z.of_nat (length args)) tcb);
  xe_gone q : q ∈ own (pcb_memory_set b) → in_use start (frames k') q → q ∈ own ms';
  xe_old q : in_use start (frames (sys_memory s)) q → q ∉ own (pcb_memory_set b) →
    in_use start (frames k') q ∧ mem k' !! q = mem (sys_memory s) !! q;
}.

(** The address of the stack. *)
Lemma stack_top phs :
  res_ok (mkRes 0 (stack_base phs)) →
  stack_vpn (mkRes 0 (stack_base phs)) * 4096 = stack_base phs ∧ ustack_top (stack_base phs) 0 = stack_base phs + 0x2000 ∧
  0 ≤ stack_base phs ∧ stack_base phs + 0x3000 ≤ 2 ^ 38 ∧ stack_base phs mod 4096 = 0.
Proof.
  intros [_ Hb Ha Hroom]. cbn [tid ustack_base] in *. split; [|split].
  - unfold stack_vpn. cbn [tid ustack_base]. Z.to_euclidean_division_equations; lia.
  - unfold ustack_top, ustack_bottom_from_tid. change (0 *ᵤ (PAGE_SIZE +ᵤ USER_STACK_SIZE)) with 0. change USER_STACK_SIZE with 0x2000.
    rewrite Z.add_0_r, (u64_small (stack_base phs)), u64_small by lia. done.
  - lia.
Qed.

(** The arguments on the stack, and the trap context. *)
Lemma exec_stack start w mu kn phs args p1 p2 p3 cx :
  let r := mkRes 0 (stack_base phs) in let n := Z.of_nat (length args) in
  let argv := stack_base phs + 0x2000 - 8 * (n + 1) in let at_ := λ k, with_user (memory_set w) k w in
  res_ok r → world_ok start w mu kn → mu !! stack_vpn r = Some (pte_for (2 + 4 + 16) p1) →
  mu !! (stack_vpn r + 1) = Some (pte_for (2 + 4 + 16) p2) → NoDup [p1; p2; p3] →
  p1 ∈ data_of (memory_set w) → p2 ∈ data_of (memory_set w) → p3 ∈ data_of (memory_set w) →
  Forall bytes args → 8 * (n + 1) + args_size args ≤ 0x2000 → length (regs cx) = 32%nat →
  ∃ pas last k4 k5 k6, argv_refs (MemorySet_token (memory_set w)) argv (seqZ 0 (n + 1)) (memory w) = Ok (pas, memory w) ∧
    idx pas n = Ok last ∧ write_ref last (le_put 8 0) (memory w) = Ok (tt, k4) ∧
    push_args (MemorySet_token (memory_set w)) argv pas args k4 = Ok (argv - args_size args, k5) ∧
    write_trap_cx p3 cx (at_ k5) = Ok (tt, at_ k6) ∧ world_ok start (at_ k6) mu kn ∧ arguments mu k6 argv args ∧
    (∃ page, mem k6 !! p3 = Some page ∧ take 296 page = TrapContext_bytes cx) ∧ frames k6 = frames (memory w) ∧
    ∀ q, (q ∉ [p1; p2; p3]) → mem k6 !! q = mem (memory w) !! q.
Proof.
  intros r n argv at_ Hr Hw Hm1 Hm2 Hnd Hp1 Hp2 Hp3 Hby Hfit Hcx. destruct (stack_top phs Hr) as (Hlo & _ & Hb0 & Hroom & Hal). fold r in Hlo.
  assert (p1 ≠ p2 ∧ p1 ≠ p3 ∧ p2 ≠ p3) as (Hne & Hne1 & Hne2).
  { apply NoDup_cons in Hnd as [H1 Hnd]. apply NoDup_cons in Hnd as [H2 _].
    split; [|split]; intros ->; [apply H1; left|apply H1; right; left|apply H2; left]. }
  destruct (stack_region start (memory w) (memory_set w) mu r p1 p2 Hr (wo_user _ _ _ _ Hw) Hne Hp1 Hp2 Hm1 Hm2) as [Hreg Hloc].
  rewrite Hlo in Hreg, Hloc.
  destruct (stack_args_run start (page_table (memory_set w)) mu (stack_base phs) (stack_base phs + 0x2000) args (memory w)) as
    (k4 & k5 & last & E5 & E6 & E7 & E8 & Hwr & Harg); [done|Z.to_euclidean_division_equations; lia|done|fold n; lia|].
  fold n argv in E5, E6, E7, E8, Harg.
  assert (Hw5 : world_ok start (at_ k5) mu kn).
  { eapply wrote_world; [exact Hw|exact Hwr|]. intros va Hva. destruct (Hloc va Hva) as [-> | ->]; done. }
  destruct (write_trap_cx_run start (at_ k5) mu kn p3 cx Hw5 Hp3 Hcx) as (k6 & page & E9 & Hw6 & Epg & Htk & Hrest & Hf6).
  cbn [memory at_ with_user] in Hf6, Hrest.
  eexists _, last, k4, k5, k6. do 4 (split; [done|]). split; [exact E9|]. split; [exact Hw6|]. split; [|split; [by exists page|split]].
  - eapply (arguments_ext mu (stack_base phs) (stack_base phs + 0x2000) k5); [|unfold argv; lia|unfold argv; lia|exact Harg].
    intros va Hva. unfold ubyte, UserMem.cell. rewrite Hrest; [done|]. destruct (Hloc va Hva) as [-> | ->]; done.
  - rewrite Hf6. by apply (wr_frames _ _ _ _ _ _ _ _ Hwr).
  - intros q Hq. rewrite !not_elem_of_cons in Hq. destruct Hq as (Hq1 & Hq2 & Hq3 & _). rewrite Hrest by done.
    eapply wrote_page; [exact Hwr|]. intros va Hva. destruct (Hloc va Hva) as [-> | ->]; congruence.
Qed.

(** C9: [exec] in a process with one thread replaces its program.  The segments of the
    file are loaded; on the stack are the strings of the arguments, each with its
    terminating zero, and above them the vector of pointers to them, which ends with
    a null pointer; the thread will start at the entry point with the number of
    arguments, the vector and an aligned stack pointer below the strings in its
    registers.  No frame of the old program is in use any more except for the new
    one, and nothing else that was in use is touched.  With any other number of
    thread slots the kernel panics. *)
Theorem exec_spec s p b start mu kn t tcb r elf_data elf phs args :
  pcbs s !! p = Some b →
  (length (tasks (pcb_proc b)) ≠ 1%nat → exec strampoline ElfFile_new user_sstatus trap_handler p elf_data args s = Fail Panic) ∧
  (exec_ready start s b mu kn t tcb r elf_data elf phs args →
   ∃ ms' mu' p3 k', exec strampoline ElfFile_new user_sstatus trap_handler p elf_data args s =
       Ok (tt, after_exec s p b ms' t (mkTCB (kstack tcb) (Some (mkRes 0 (stack_base phs))) p3 (exit_code tcb)) k') ∧
     exec_done start s b kn tcb elf phs args ms' mu' p3 k').
Proof.
  intros Hb. split.
  { intros Hn. unfold exec. mstep. rewrite (get_pcb_run s p b Hb), (proj2 (Z.eqb_neq _ _)) by lia. done. }
  intros Hr. destruct (exec_load start s b mu kn t tcb r elf_data elf phs args Hr) as
    (ms & k1 & k2 & mu1 & E1 & E2 & Hn & Hms & Hks & Hnew & Hsh & Hld & Honly & Hgone & Hold).
  pose proof Hr as [_ _ _ Ht Hblk Hres Hmain _ Helf Hstk Hclear _ Hargs Hfit].
  set (r' := mkRes 0 (stack_base phs)) in *. set (w := mkWorld ms (pcb_res_allocator b) (sys_kernel_space s) (sys_kstacks s) k2).
  assert (Hw : world_ok start w mu1 kn).
  { split; [done..|]. intros q Hq Hin. by apply (Hnew q Hq), (so_used _ _ _ _ (ex_kernel _ _ _ _ _ _ _ _ _ _ _ _ Hr)). }
  assert (Hplace : can_place ms mu1 r') by (eapply exec_place; [done|apply (ek_segs _ _ _ Helf)|done..]).
  destruct (exec_user start w mu1 kn r' Hstk Hw Hplace Hn) as (p1 & p2 & p3 & w' & mu2 & E3 & Hw' & E4 & Hmap & Hp1 & Hp2 & Hp3 & Hnd & Hfresh & Hdata
    & Eks & Ekst & Era & Etok & Hkeep & Huse).
  destruct (stack_top phs Hstk) as (_ & Htop & Hb0 & Hroom & Hal). pose proof (args_size_nonneg args).
  set (n := Z.of_nat (length args)). set (argv := stack_base phs + 0x2000 - 8 * (n + 1)). set (sp := argv - args_size args).
  assert (Hsp : u64 (sp - sp mod 8) = sp / 8 * 8).
  { pose proof (Z.div_mod sp 8 ltac:(lia)). pose proof (Z.mod_pos_bound sp 8 ltac:(lia)).
    rewrite u64_small by (unfold sp, argv, n in *; lia). lia. }
  destruct (exec_stack start w' mu2 kn phs args p1 p2 p3 (exec_cx s (elf_entry elf) (sp / 8 * 8) argv n tcb)) as
    (pas & last & k4 & k5 & k6 & E5 & E6 & E7 & E8 & E9 & Hw6 & Harg & Hpage & Hf6 & Hm6); try done; try apply Hmap; [unfold n; lia|].
  exists (memory_set w'), mu2, p3, k6. split.
  - rewrite Etok in E5, E8. fold n in E5, E6, E8. fold argv in E5, E8. fold sp in E8.
    assert (Eargv : u64 (ustack_top (stack_base phs) (tid r) - u64 (u64 (n + 1) * 8)) = argv).
    { rewrite Hmain, Htop, (u64_small (n + 1)), (u64_small ((n + 1) * 8)), u64_small by (unfold n in *; lia). unfold argv. lia. }
    assert (Hr' : r' = mkRes (tid r) (stack_base phs)) by (by rewrite Hmain). rewrite Hr' in E3, E4 |- *.
    eapply (exec_run s p b t tcb r elf_data args ms (stack_base phs) (elf_entry elf) k1 k2 w' p3 pas last k4 sp k5 k6); try done;
      fold n; rewrite ?Eargv; try done; try congruence.
    rewrite Hsp. unfold with_user in E9. by rewrite Eks, Ekst, Era in E9.
  - assert (Hmem : ∀ q, in_use start (frames k2) q → q ∉ pt_frames (page_table ms) → in_use start (frames k6) q ∧ mem k6 !! q = mem k2 !! q).
    { intros q Hu Hq. rewrite Hf6, Hm6 by (by apply Hfresh). by apply Hkeep. }
    split; [apply (wo_user _ _ _ _ Hw6)| | | | |].
    + change (sys_kernel_space s) with (kernel_space w). rewrite <- Eks. exact (wo_kernel _ _ _ _ Hw6).
    + apply Forall_forall. intros ph Hph. rewrite Forall_forall in Hld. eapply loaded_ext; [by apply Hld|exact Hdata| |].
      * intros v Hv. eapply exec_pages; [exact Hstk|apply (ek_segs _ _ _ Helf)|exact Hclear|exact Hmap|]. apply list_elem_of_bind. by exists ph.
      * intros q Hq. apply Hmem; by apply (data_used _ _ _ _ Hms).
    + cbv zeta. split; [exact Harg|]. split; [apply Hmap|]. destruct Hpage as (page & Epg & Htk). by exists page, (sp / 8 * 8).
    + intros q Hq Hu. rewrite Hf6 in Hu. destruct (Huse q Hu) as [Hu2|?]; [|done]. by destruct (Hgone q Hq).
    + intros q Hu Hq. destruct (Hold q Hu Hq) as [Hu2 <-]. apply Hmem; [done|]. intros Hin. by apply (Hnew q (own_table _ _ Hin)).
Qed.
End exec.

Lemma exec_spec_witness :
  ∃ (s : system unit) b ms mu p3 k, exec 0x80200000 (λ _, Some demo_elf) 32 0 0 [] [[104; 105]] s =
      Ok (tt, after_exec s 0 b ms 0 (mkTCB 7 (Some (mkRes 0 0x13000)) p3 None) k) ∧
    arguments mu k 0x14ff0 [[104; 105]].
Proof.
  destruct (demo_world RA_new RA_new) as (w & mu & [Hu Hk Hsep] & _ & _ & _ & Hn & _).
  destruct (exec_spec 0x80200000 (λ _, Some demo_elf) 32 0 (solo w 9) 0 _ 5 mu mu 0
    (mkTCB 7 (Some (mkRes 0 0x20000)) 9 None) (mkRes 0 0x20000) [] demo_elf [demo_header] [[104; 105]] eq_refl) as [_ He].
  destruct He as (ms & mu' & p3 & k & E & [_ _ _ [Harg _] _ _]).
  - split; cbn [sys_memory sys_kernel_space solo solo_pcb pcb_memory_set pcb_proc sys_kstacks pcbs]; try done.
    + exact demo_elf_ok.
    + change (loadable [demo_header] ≫= seg_vpns) with [16; 17]. change (stack_vpn (mkRes 0 (stack_base [demo_header]))) with 19.
      intros v Hv. rewrite !not_elem_of_cons. split; [lia|]. split; [lia|]. apply not_elem_of_nil.
    + change (loadable [demo_header] ≫= seg_vpns) with [16; 17]. cbn [length]. lia.
    + repeat constructor; lia.
  - exists (solo w 9). eexists _, ms, mu', p3, k. split; [exact E|exact Harg].
Defined.
