(* ===== verification/Traps.v ===== *)
(** * Traps and the dispatch of system calls (os/src/trap/mod.rs, syscall/mod.rs, timer.rs)

    The whole kernel as a machine: a trap of the current task runs the handler to
    the return to user mode or to the place where the processor is given away; a
    turn of the idle loop takes the next task and runs the rest of the call that
    task was in.  The calls of the other files work on their part of the state. *)

From S2P Require Import Prelude Bytes BlockStore Layout Efs Vfs Address FrameAlloc PageTable MemorySet MemorySpec.
From S2P Require Import Ids TaskRes UserMem Files Pipe FileCalls Threads Sync SyncCalls ThreadCalls Processes.

(** ** The clock *)

Definition CLOCK_FREQ : Z := 12500000.
Definition TICKS_PER_SEC : Z := 100.
Definition MSEC_PER_SEC : Z := 1000.
Definition MICRO_PER_SEC : Z := 1000000.

(** [time] is the register that counts the ticks. *)
Definition get_time_ms (time : Z) : Z := (time *ᵤ MSEC_PER_SEC) / CLOCK_FREQ.
Definition get_time_us (time : Z) : Z := (time *ᵤ MICRO_PER_SEC) / CLOCK_FREQ.

(** ** Numbers of system calls *)

Definition SYSCALL_OPENAT : Z := 56.
Definition SYSCALL_CLOSE : Z := 57.
Definition SYSCALL_READ : Z := 63.
Definition SYSCALL_WRITE : Z := 64.
Definition SYSCALL_UNLINKAT : Z := 35.
Definition SYSCALL_LINKAT : Z := 37.
Definition SYSCALL_FSTAT : Z := 80.
Definition SYSCALL_EXIT : Z := 93.
Definition SYSCALL_SLEEP : Z := 101.
Definition SYSCALL_YIELD : Z := 124.
Definition SYSCALL_KILL : Z := 129.
Definition SYSCALL_GETTIMEOFDAY : Z := 169.
Definition SYSCALL_GETPID : Z := 172.
Definition SYSCALL_GETTID : Z := 178.
Definition SYSCALL_FORK : Z := 220.
Definition SYSCALL_EXEC : Z := 221.
Definition SYSCALL_WAITPID : Z := 260.
Definition SYSCALL_SET_PRIORITY : Z := 140.
Definition SYSCALL_MUNMAP : Z := 215.
Definition SYSCALL_MMAP : Z := 222.
Definition SYSCALL_SPAWN : Z := 400.
Definition SYSCALL_DUP : Z := 24.
Definition SYSCALL_PIPE : Z := 59.
Definition SYSCALL_TASK_INFO : Z := 410.
Definition SYSCALL_THREAD_CREATE : Z := 460.
Definition SYSCALL_WAITTID : Z := 462.
Definition SYSCALL_MUTEX_CREATE : Z := 463.
Definition SYSCALL_MUTEX_LOCK : Z := 464.
Definition SYSCALL_MUTEX_UNLOCK : Z := 466.
Definition SYSCALL_SEMAPHORE_CREATE : Z := 467.
Definition SYSCALL_SEMAPHORE_UP : Z := 468.
Definition SYSCALL_ENABLE_DEADLOCK_DETECT : Z := 469.
Definition SYSCALL_SEMAPHORE_DOWN : Z := 470.
Definition SYSCALL_CONDVAR_CREATE : Z := 471.
Definition SYSCALL_CONDVAR_SIGNAL : Z := 472.
Definition SYSCALL_CONDVAR_WAIT : Z := 473.

(** ** State *)

(** Where a task continues that gave the processor away inside of the trap handler;
    the place in the kernel function is [saved].  [ref] is the reference to the
    process that the call has in a local variable. *)
Inductive pending_call :=
  | InTick                                   (** after a timer interrupt *)
  | InCall (ref : option nat)                (** in a call that will return 0 *)
  | InFile (p : nat) (w : waiting).          (** in [read] or [write] *)

(** [file_refs] are the references to open files in calls that wait, [next_trigger] is
    the time of the next timer interrupt. *)
Record machine (St : Type) := mkMachine {
  sys : system St;
  m_rings : list ring_obj;
  file_refs : list nat;
  m_console : list Z;
  m_printed : list Z;
  unfinished : gmap Z pending_call;
  next_trigger : Z;
}.
Arguments mkMachine {St}.
Arguments sys {St}.
Arguments m_rings {St}.
Arguments file_refs {St}.
Arguments m_console {St}.
Arguments m_printed {St}.
Arguments unfinished {St}.
Arguments next_trigger {St}.

(** How a piece of the kernel ends: with a value, at a switch to the idle loop, or
    with the machine switched off. *)
Inductive turn (A : Type) :=
  | Back (a : A)
  | Away
  | Halted (code : Z).
Arguments Back {A}.
Arguments Away {A}.
Arguments Halted {A}.

(** The causes of traps that the handler tells apart. *)
Inductive Trap :=
  | UserEnvCall
  | StoreFault | StorePageFault | InstructionFault | InstructionPageFault | LoadFault | LoadPageFault
  | IllegalInstruction
  | SupervisorTimer
  | OtherTrap.

#[export] Instance Trap_eq_dec : EqDecision Trap.
Proof. solve_decision. Defined.

(** The thread number of each task that has one. *)
Definition tids_of (l : list TaskControlBlock) : gmap Z Z :=
  list_to_map (omap (λ '(i, b), (λ r, (Z.of_nat i, tid r)) <$> res b) (zip (seq 0 (length l)) l)).

(** The open files that processes other than [p] refer to. *)
Definition other_tables (p : nat) (l : list ProcessControlBlock) : list nat :=
  omap id (concat (pcb_fd_table <$> delete p l)).

Section machine.
Context {St : Type}.
Implicit Types ma : machine St.

Definition set_sys s ma : machine St :=
  mkMachine s (m_rings ma) (file_refs ma) (m_console ma) (m_printed ma) (unfinished ma) (next_trigger ma).
Definition set_unfinished m ma : machine St :=
  mkMachine (sys ma) (m_rings ma) (file_refs ma) (m_console ma) (m_printed ma) m (next_trigger ma).
Definition set_kern (k : kernel) (s : system St) : system St :=
  mkSystem (pcbs s) (pid2pcb s) (pid_allocator s) (sys_kernel_space s) (sys_kstacks s) (sys_memory s) (sys_tcbs s)
    (owners s) k (stack_refs s) (sys_disk s) (sys_files s).
Definition set_stack_refs (l : list nat) (s : system St) : system St :=
  mkSystem (pcbs s) (pid2pcb s) (pid_allocator s) (sys_kernel_space s) (sys_kstacks s) (sys_memory s) (sys_tcbs s)
    (owners s) (sys_kern s) l (sys_disk s) (sys_files s).

(** ** The parts of the state that the calls work on *)

Definition in_system {A} (m : M (system St) A) : M (machine St) A := λ ma,
  '(a, s) ← m (sys ma); Ok (a, set_sys s ma).

Definition on_kern {A} (m : M kernel A) : M (machine St) A := in_system (λ s,
  '(a, k) ← m (sys_kern s); Ok (a, set_kern k s)).

(** The calls on files, with the table of the process [p]. *)
Definition file_view (p : nat) (b : ProcessControlBlock) ma : fsys St :=
  mkFsys (sys_disk (sys ma)) (sys_memory (sys ma)) (sys_files (sys ma)) (m_rings ma) (pcb_fd_table b)
    (file_refs ma ++ other_tables p (pcbs (sys ma))) (m_console ma) (m_printed ma).
Definition with_files (p : nat) (b : ProcessControlBlock) (f : fsys St) ma : machine St :=
  let s := sys ma in
  mkMachine
    (mkSystem (<[p := set_fd_table (fd_table f) b]> (pcbs s)) (pid2pcb s) (pid_allocator s) (sys_kernel_space s)
       (sys_kstacks s) (fs_ram f) (sys_tcbs s) (owners s) (sys_kern s) (stack_refs s) (fs_disk f) (files f))
    (rings f) (take (length (other_refs f) - length (other_tables p (pcbs s))) (other_refs f))
    (console f) (printed f) (unfinished ma) (next_trigger ma).
Definition in_files {A} (p : nat) (m : M (fsys St) A) : M (machine St) A := λ ma,
  b ← unwrap (pcbs (sys ma) !! p);
  '(a, f) ← m (file_view p b ma);
  Ok (a, with_files p b f ma).

(** The synchronisation calls of the process [p]. *)
Definition in_sync {A} (p : nat) (m : M ksys A) : M (machine St) A := in_system (λ s,
  b ← unwrap (pcbs s !! p);
  '(a, x) ← m (mkSys (pcb_proc b) (sys_kern s) (tids_of (sys_tcbs s)));
  Ok (a, set_kern (kern x) (set_pcbs (<[p := set_pcb_proc (proc x) b]> (pcbs s)) s))).

Definition the_task : M (machine St) Z :=
  o ← on_kern current_task;
  lift (unwrap o).

(** The task [t] is about to give the processor away. *)
Definition leave (t : Z) (c : pending_call) : M (machine St) unit :=
  puts (λ ma, set_unfinished (<[t := c]> (unfinished ma)) ma).

(** A local variable that refers to a process. *)
Definition push_ref (p : nat) : M (machine St) unit :=
  in_system (puts (λ s, set_stack_refs (p :: stack_refs s) s)).
Definition pop_ref (p : nat) : M (machine St) unit :=
  in_system (puts (λ s, set_stack_refs (drop_ref p (stack_refs s)) s)).

(** ** Trap contexts *)

(** The page with the trap context of the current task. *)
Definition current_trap_cx : M (machine St) Z :=
  t ← the_task;
  b ← in_system (get_task_block t);
  mret (tcb_trap_cx_ppn b).

(** The [i]th word of a trap context: the registers, then the status register and
    the program counter. *)
Definition read_trap_word (ppn i : Z) : M (machine St) Z :=
  bs ← in_system (on_memory (read_ref 8 (ppn * PAGE_SIZE + 8 * i)));
  mret (le_get bs).
Definition write_trap_word (ppn i x : Z) : M (machine St) unit :=
  in_system (write_trap_field ppn (8 * i) x).

(** ** System calls *)

Section code.
Context `{BlockStore St} {HH : Heap}.
(** The trampoline, the ELF parser, the status register, the address of the trap
    handler; the file system and its root; the first process; the fuel of the loops
    over strings of the user. *)
Context (strampoline : Z) (ElfFile_new : list Z → option ElfFile) (user_sstatus handler_va : Z).
Context (efs : EasyFileSystem) (root : Inode) (initproc : nat) (fuel : nat).

(** [args[0] as i32] *)
Definition i32 (x : Z) : Z := (x + 2 ^ 31) mod 2 ^ 32 - 2 ^ 31.

Definition value (m : M (machine St) Z) : M (machine St) (turn Z) :=
  r ← m; mret (Back r).

(** [sys_read] and [sys_write] keep [process] to their end. *)
Definition file_call (p : nat) (m : M (fsys St) call) : M (machine St) (turn Z) :=
  t ← the_task;
  c ← in_files p m;
  match c with
  | Done r => mret (Back r)
  | Waiting w =>
      push_ref p;;
      leave t (InFile p w);;
      on_kern (suspend_current_and_run_next AtUser);;
      mret Away
  end.

(** A call that may block; [ref] is the process if the call still has it. *)
Definition sync_call (p : nat) (ref : option nat) (m : M ksys (option Z)) : M (machine St) (turn Z) :=
  t ← the_task;
  o ← in_sync p m;
  match o with
  | Some r => mret (Back r)
  | None =>
      match ref with Some p => push_ref p | None => mret tt end;;
      leave t (InCall ref);;
      mret Away
  end.

(** A call that always gives the processor away. *)
Definition kernel_call (m : M kernel unit) : M (machine St) (turn Z) :=
  t ← the_task;
  on_kern m;;
  leave t (InCall None);;
  mret Away.

Definition exit_call {A} (code : Z) : M (machine St) (turn A) :=
  e ← in_system (exit_current_and_run_next initproc code);
  mret match e with
       | Scheduled => Away
       | Shutdown code => Halted code
       end.

Definition sys_exit (exit_code : Z) : M (machine St) (turn Z) := exit_call exit_code.
Definition sys_yield : M (machine St) (turn Z) := kernel_call (suspend_current_and_run_next AtUser).

Definition sys_task_info (ti : Z) : M (machine St) Z := mret (-1).
Definition sys_mmap (start len port : Z) : M (machine St) Z := mret (-1).
Definition sys_munmap (start len : Z) : M (machine St) Z := mret (-1).
Definition sys_spawn (path : Z) : M (machine St) Z := mret (-1).
Definition sys_set_priority (prio : Z) : M (machine St) Z := mret (-1).

Definition syscall (time id a0 a1 a2 a3 : Z) : M (machine St) (turn Z) :=
  p ← in_system current_process;
  b ← in_system (get_pcb p);
  let token := MemorySet_token (pcb_memory_set b) in
  if id =? SYSCALL_DUP then value (in_files p (sys_dup a0))
  else if id =? SYSCALL_LINKAT then value (in_files p (sys_linkat a1 a3))
  else if id =? SYSCALL_UNLINKAT then value (in_files p (sys_unlinkat a1))
  else if id =? SYSCALL_OPENAT then value (in_files p (sys_open efs root token fuel a1 (u32 a2)))
  else if id =? SYSCALL_CLOSE then value (in_files p (sys_close a0))
  else if id =? SYSCALL_PIPE then value (in_files p (sys_pipe token a0))
  else if id =? SYSCALL_READ then file_call p (sys_read token a0 a1 a2)
  else if id =? SYSCALL_WRITE then file_call p (sys_write efs token a0 a1 a2)
  else if id =? SYSCALL_FSTAT then value (in_files p (sys_fstat a0 a1))
  else if id =? SYSCALL_EXIT then sys_exit (i32 a0)
  else if id =? SYSCALL_SLEEP then kernel_call (sys_sleep (get_time_ms time) a0)
  else if id =? SYSCALL_YIELD then sys_yield
  else if id =? SYSCALL_GETPID then value (in_system sys_getpid)
  else if id =? SYSCALL_GETTID then value (in_system (in_process p sys_gettid))
  else if id =? SYSCALL_FORK then value (in_system (sys_fork strampoline))
  else if id =? SYSCALL_EXEC then
    value (in_system (sys_exec strampoline ElfFile_new user_sstatus handler_va efs root fuel a0 a1))
  else if id =? SYSCALL_WAITPID then value (in_system (sys_waitpid (i64 a0) a1))
  else if id =? SYSCALL_GETTIMEOFDAY then value (in_system (sys_get_time (get_time_us time) a0))
  else if id =? SYSCALL_MMAP then value (sys_mmap a0 a1 a2)
  else if id =? SYSCALL_MUNMAP then value (sys_munmap a0 a1)
  else if id =? SYSCALL_SET_PRIORITY then value (sys_set_priority (i64 a0))
  else if id =? SYSCALL_TASK_INFO then value (sys_task_info a0)
  else if id =? SYSCALL_SPAWN then value (sys_spawn a0)
  else if id =? SYSCALL_THREAD_CREATE then
    value (t ← in_system (in_process p (sys_thread_create user_sstatus handler_va a0 a1));
           in_system (puts (λ s, set_owners (owners s ++ [p]) s));; mret t)
  else if id =? SYSCALL_WAITTID then value (in_system (in_process p (sys_waittid a0)))
  else if id =? SYSCALL_MUTEX_CREATE then value (in_sync p (sys_mutex_create (a0 =? 1)))
  else if id =? SYSCALL_MUTEX_LOCK then sync_call p None (sys_mutex_lock a0)
  else if id =? SYSCALL_MUTEX_UNLOCK then value (in_sync p (sys_mutex_unlock a0))
  else if id =? SYSCALL_SEMAPHORE_CREATE then value (in_sync p (sys_semaphore_create a0))
  else if id =? SYSCALL_SEMAPHORE_UP then value (in_sync p (sys_semaphore_up a0))
  else if id =? SYSCALL_ENABLE_DEADLOCK_DETECT then value (in_sync p (sys_enable_deadlock_detect a0))
  else if id =? SYSCALL_SEMAPHORE_DOWN then sync_call p (Some p) (sys_semaphore_down a0)
  else if id =? SYSCALL_CONDVAR_CREATE then value (in_sync p sys_condvar_create)
  else if id =? SYSCALL_CONDVAR_SIGNAL then value (in_sync p (sys_condvar_signal a0))
  else if id =? SYSCALL_CONDVAR_WAIT then sync_call p (Some p) (sys_condvar_wait a0 a1;; mret None)
  else if id =? SYSCALL_KILL then value (in_system (sys_kill a0 (u32 a1)))
  else throw Panic.

(** ** Traps *)

(** The address of the trap context and the page table, for the code of the
    trampoline. *)
Definition trap_return : M (machine St) (turn (Z * Z)) :=
  t ← the_task;
  tcb ← in_system (get_task_block t);
  r ← lift (unwrap (res tcb));
  p ← in_system current_process;
  b ← in_system (get_pcb p);
  mret (Back (trap_cx_user_va r, MemorySet_token (pcb_memory_set b))).

(** The end of the trap handler. *)
Definition check_signals : M (machine St) (turn (Z * Z)) :=
  o ← in_system check_signals_of_current;
  match o with
  | Some errno => exit_call errno
  | None => trap_return
  end.

(** The result of a call goes to the trap context of the task that runs now. *)
Definition finish_call (r : Z) : M (machine St) (turn (Z * Z)) :=
  ppn ← current_trap_cx;
  write_trap_word ppn 10 (u64 r);;
  check_signals.

Definition user_env_call (time : Z) : M (machine St) (turn Z) :=
  ppn ← current_trap_cx;
  pc ← read_trap_word ppn 33;
  write_trap_word ppn 33 (pc +ᵤ 4);;
  id ← read_trap_word ppn 17;
  a0 ← read_trap_word ppn 10;
  a1 ← read_trap_word ppn 11;
  a2 ← read_trap_word ppn 12;
  a3 ← read_trap_word ppn 13;
  syscall time id a0 a1 a2 a3.

Definition set_next_trigger (time : Z) : M (machine St) unit :=
  puts (λ ma, mkMachine (sys ma) (m_rings ma) (file_refs ma) (m_console ma) (m_printed ma) (unfinished ma)
                (time +ᵤ CLOCK_FREQ / TICKS_PER_SEC)).

Definition trap_handler (time : Z) (cause : Trap) : M (machine St) (turn (Z * Z)) :=
  match cause with
  | UserEnvCall =>
      a ← user_env_call time;
      match a with
      | Back r => finish_call r
      | Away => mret Away
      | Halted code => mret (Halted code)
      end
  | StoreFault | StorePageFault | InstructionFault | InstructionPageFault | LoadFault | LoadPageFault =>
      in_system (current_add_signal SIGSEGV);;
      check_signals
  | IllegalInstruction =>
      in_system (current_add_signal SIGILL);;
      check_signals
  | SupervisorTimer =>
      set_next_trigger time;;
      on_kern (check_timer (get_time_ms time));;
      t ← the_task;
      leave t InTick;;
      on_kern (suspend_current_and_run_next AtUser);;
      mret Away
  | OtherTrap => throw Panic
  end.

(** One turn of the idle loop: the next task runs the rest of the kernel function it
    was in, or starts for the first time. *)
Definition idle : M (machine St) (turn (Z * Z)) :=
  o ← on_kern run_next;
  match o with
  | None => mret Away
  | Some (t, c) =>
      rest ← gets (λ ma, unfinished ma !! t);
      puts (λ ma, set_unfinished (delete t (unfinished ma)) ma);;
      match rest with
      | None => trap_return
      | Some InTick => check_signals
      | Some (InCall ref) =>
          locked ← match c with
                   | InSpinLock m | InWait _ m => on_kern (mutex_lock m)
                   | _ => mret true
                   end;
          if locked : bool then
            match ref with Some p => pop_ref p | None => mret tt end;;
            finish_call 0
          else leave t (InCall ref);; mret Away
      | Some (InFile p w) =>
          x ← in_files p (resume w);
          match x with
          | Done r => pop_ref p;; finish_call r
          | Waiting w =>
              leave t (InFile p w);;
              on_kern (suspend_current_and_run_next AtUser);;
              mret Away
          end
      end
  end.

(** ** Start *)

(** The lines between the two that [list_apps] prints; messages of the kernel itself
    are not in [m_printed]. *)
Definition list_apps : M (system St) (list (list Z)) := λ s,
  '(v, d) ← ls root (sys_disk s); Ok (v, set_disk d s).

(** ["ch8b_initproc"] *)
Definition INITPROC_NAME : list Z := [99; 104; 56; 98; 95; 105; 110; 105; 116; 112; 114; 111; 99].

Definition INITPROC : M (system St) nat :=
  o ← (λ s, '(o, d) ← open_file efs root INITPROC_NAME OpenFlags_RDONLY (sys_disk s); Ok (o, set_disk d s));
  inode ← lift (unwrap o);
  v ← (λ s, '((v, _), d) ← read_all inode (sys_disk s); Ok (v, set_disk d s));
  ProcessControlBlock_new strampoline ElfFile_new user_sstatus handler_va v.

(** The process is made when [INITPROC] is used for the first time. *)
Definition add_initproc : M (system St) unit :=
  INITPROC;; mret tt.

(** The end of [rust_main], from the setting of the timer to the idle loop; the names
    are those that [list_apps] prints. *)
Definition rust_main (time : Z) : M (machine St) (list (list Z)) :=
  set_next_trigger time;;
  names ← in_system list_apps;
  in_system add_initproc;;
  mret names.
End code.
End machine.
