(* ===== verification/TrapSpec.v ===== *)
(** * What traps do (os/src/trap/mod.rs, syscall/mod.rs)

    The way of a system call through the trap context of the current task, what
    faults and interrupts do, and the calls seen from the user's side. *)

From S2P Require Import Prelude Bytes BlockStore BlockCache BlockFile Bitmap Layout Efs Vfs Address FrameAlloc PageTable MemorySet MemorySpec.
From S2P Require Import AddressSpace Ids TaskRes UserMem Files UserRange FilesSpec Pipe FileCalls Threads Sync SyncSpec SyncCalls ThreadCalls.
From S2P Require Import Concurrency ThreadSpec Processes ProcessSpec ForkSpec ExitSpec Traps.

(** ** The clock *)

(** The microseconds since the start of the machine are right for the first
    18446744073709 ticks, which are seventeen days; then the multiplication wraps
    around and the clock starts again from 0.  The milliseconds, which the timers
    use, are right a thousand times longer. *)
Theorem clock_bounds time :
  0 ≤ time →
  (time ≤ 18446744073709 → get_time_us time = time * 2 / 25 ∧ get_time_ms time = time / 12500) ∧
  get_time_us 18446744073709 = 1475739525896 ∧ get_time_us 18446744073710 = 0 ∧
  (time < 2 ^ 64 / 1000 → get_time_ms time = time / 12500).
Proof.
  intros Ht. unfold get_time_us, get_time_ms, MICRO_PER_SEC, MSEC_PER_SEC, CLOCK_FREQ.
  assert (Hms : time < 2 ^ 64 / 1000 → u64 (time * 1000) / 12500000 = time / 12500).
  { intros Hlt. rewrite u64_small by (Z.to_euclidean_division_equations; lia).
    replace 12500000 with (12500 * 1000) by lia. by rewrite Z.div_mul_cancel_r by lia. }
  split; [|done]. intros Hle. split; [|apply Hms; Z.to_euclidean_division_equations; lia].
  rewrite u64_small by lia. replace (time * 1000000) with (time * 2 * 500000) by lia.
  replace 12500000 with (25 * 500000) by lia. by rewrite Z.div_mul_cancel_r by lia.
Qed.

Lemma clock_bounds_witness : get_time_us 12500000 = 1000000.
Proof. destruct (clock_bounds 12500000) as [Hs _]; [lia|]. destruct Hs as [-> _]; [lia|done]. Defined.

(** ** Lifting *)

Section lifting.
Context {St : Type}.
Implicit Types ma : machine St.

Lemma in_system_run {A} (m : M (system St) A) ma a s : m (sys ma) = Ok (a, s) → in_system m ma = Ok (a, set_sys s ma).
Proof. intros E. unfold in_system. mstep. by rewrite E. Qed.

Lemma in_system_same {A} (m : M (system St) A) ma a : m (sys ma) = Ok (a, sys ma) → in_system m ma = Ok (a, ma).
Proof. intros E. rewrite (in_system_run m ma a _ E). by destruct ma. Qed.

Lemma in_system_fail {A} (m : M (system St) A) ma f : m (sys ma) = Fail f → in_system m ma = Fail f.
Proof. intros E. unfold in_system. mstep. by rewrite E. Qed.

Lemma on_kern_run {A} (m : M kernel A) ma a k :
  m (sys_kern (sys ma)) = Ok (a, k) → on_kern m ma = Ok (a, set_sys (set_kern k (sys ma)) ma).
Proof. intros E. apply in_system_run. mstep. by rewrite E. Qed.

Lemma the_task_run ma t : current (sys_kern (sys ma)) = Some t → the_task ma = Ok (t, ma).
Proof. intros E. unfold the_task, on_kern, in_system, current_task. mstep. rewrite E. cbn [unwrap]. by destruct ma as [[]]. Qed.

(** ** Trap contexts *)

(** The [i]th word of a page. *)
Definition word_at (page : list Z) (i : Z) : Z := rd 8 (Z.to_nat (8 * i)) page.

(** The current task [t] has its trap context in the page [ppn]. *)
Record in_trap ma (t : Z) (tcb : TaskControlBlock) (page : list Z) : Prop := {
  it_task : current (sys_kern (sys ma)) = Some t;
  it_block : sys_tcbs (sys ma) !! Z.to_nat t = Some tcb;
  it_page : mem (sys_memory (sys ma)) !! tcb_trap_cx_ppn tcb = Some page;
  it_length : length page = 4096%nat;
  it_bytes : bytes page;
}.

Lemma current_trap_cx_run ma t tcb page : in_trap ma t tcb page → current_trap_cx ma = Ok (tcb_trap_cx_ppn tcb, ma).
Proof.
  intros H. unfold current_trap_cx. erewrite bind_run by (by eapply the_task_run, H).
  erewrite bind_run; [reflexivity|]. apply in_system_same, get_task_block_run, H.
Qed.

Lemma read_bytes_run k ppn page : mem k !! ppn = Some page → length page = 4096%nat → ∀ n off,
  0 ≤ off → off + Z.of_nat n ≤ 4096 → read_ref n (ppn * 4096 + off) k = Ok (slice (Z.to_nat off) n page, k).
Proof.
  intros Ep Hl. induction n as [|n IH]; intros off H0 Hn; [done|]. cbn [read_ref].
  assert (Hq : (ppn * 4096 + off) / 4096 = ppn ∧ (ppn * 4096 + off) mod 4096 = off).
  { rewrite Z.div_add_l, (Z.add_comm (ppn * 4096)), Z.mod_add, Z.div_small, Z.mod_small by lia. lia. }
  destruct Hq as [Hq Hr]. destruct (lookup_lt_is_Some_2 page (Z.to_nat off)) as [x Hx]; [lia|].
  assert (Eb : UserMem.read_byte (ppn * 4096 + off) k = Ok (x, k)).
  { unfold UserMem.read_byte, get_bytes_array, PAGE_SIZE, idx. mstep. rewrite Hq, Hr, Ep. cbn [unwrap]. by rewrite Hx. }
  erewrite bind_run by exact Eb. erewrite bind_run; [|rewrite <- Z.add_assoc; apply IH; lia]. mstep.
  do 2 f_equal. unfold slice. replace (Z.to_nat (off + 1)) with (S (Z.to_nat off)) by lia.
  rewrite (drop_S page x _ Hx). reflexivity.
Qed.

Lemma read_word_run ma t tcb page i :
  in_trap ma t tcb page → 0 ≤ i < 512 → read_trap_word (tcb_trap_cx_ppn tcb) i ma = Ok (word_at page i, ma).
Proof.
  intros H Hi. unfold read_trap_word. erewrite bind_run; [reflexivity|]. apply in_system_same, on_memory_same.
  apply (read_bytes_run _ _ page); [apply H|apply H|lia|lia].
Qed.

(** The machine with another trap context. *)
Definition set_page ma (ppn : Z) (page : list Z) : machine St :=
  let k := sys_memory (sys ma) in set_sys (set_memory (mkKmem (<[ppn := page]> (mem k)) (frames k)) (sys ma)) ma.
Definition put_word (i x : Z) (page : list Z) : list Z := wr 8 (Z.to_nat (8 * i)) x page.

Lemma write_word_run ma t tcb page i x :
  in_trap ma t tcb page → 0 ≤ i < 512 →
  write_trap_word (tcb_trap_cx_ppn tcb) i x ma = Ok (tt, set_page ma (tcb_trap_cx_ppn tcb) (put_word i x page)) ∧
  in_trap (set_page ma (tcb_trap_cx_ppn tcb) (put_word i x page)) t tcb (put_word i x page).
Proof.
  intros [Hc Hb Hp Hl Hy] Hi. split.
  - apply in_system_run, on_memory_run. apply write_field_run; rewrite ?length_le_put; (done || lia).
  - split; [done|done|apply lookup_insert_eq|..]; unfold put_word; [by rewrite length_wr by lia|by apply bytes_wr].
Qed.

Lemma word_put_eq i x page : length page = 4096%nat → 0 ≤ i < 512 → word_at (put_word i x page) i = u64 x.
Proof. intros Hl Hi. unfold word_at, put_word. by rewrite rd_wr_mod by lia. Qed.

Lemma word_put_ne i j x page : length page = 4096%nat → 0 ≤ i < 512 → 0 ≤ j < 512 → i ≠ j → word_at (put_word i x page) j = word_at page j.
Proof. intros Hl Hi Hj Hne. unfold word_at, put_word. apply rd_wr_ne; lia. Qed.

Lemma trap_word_range page i : length page = 4096%nat → bytes page → 0 ≤ i < 512 → 0 ≤ word_at page i < 2 ^ 64.
Proof. intros Hl Hb Hi. apply (rd_range 8); [lia|done]. Qed.

(** The page after the return to the instruction behind the call, and with the result. *)
Definition advanced (page : list Z) : list Z := put_word 33 (word_at page 33 +ᵤ 4) page.
Definition answered (r : Z) (page : list Z) : list Z := put_word 10 (u64 r) page.
End lifting.

Section handler.
Context {St : Type} `{BlockStore St} {HH : Heap}.
Context (strampoline : Z) (ElfFile_new : list Z → option ElfFile) (user_sstatus handler_va : Z).
Context (efs : EasyFileSystem) (root : Inode) (initproc : nat) (fuel : nat).
Implicit Types ma : machine St.

Local Abbreviation trap := (Traps.trap_handler strampoline ElfFile_new user_sstatus handler_va efs root initproc fuel).
Local Abbreviation call := (syscall strampoline ElfFile_new user_sstatus handler_va efs root initproc fuel).

Lemma user_env_call_run ma t tcb page time :
  in_trap ma t tcb page →
  user_env_call strampoline ElfFile_new user_sstatus handler_va efs root initproc fuel time ma =
    call time (word_at page 17) (word_at page 10) (word_at page 11) (word_at page 12) (word_at page 13)
      (set_page ma (tcb_trap_cx_ppn tcb) (advanced page)).
Proof.
  intros Ht. unfold user_env_call. erewrite bind_run by (by eapply current_trap_cx_run).
  erewrite bind_run by (by eapply read_word_run). fold (advanced page).
  destruct (write_word_run ma t tcb page 33 (word_at page 33 +ᵤ 4) Ht) as [E Ht']; [lia|]. fold (advanced page) in E, Ht'.
  erewrite bind_run by exact E. assert (Hl := it_length _ _ _ _ Ht).
  do 5 (erewrite bind_run by (eapply read_word_run; [exact Ht'|lia])).
  unfold advanced at 1 2 3 4 5. by rewrite !word_put_ne by (done || lia).
Qed.

Lemma finish_call_run ma t tcb page r :
  in_trap ma t tcb page →
  finish_call initproc r ma = check_signals initproc (set_page ma (tcb_trap_cx_ppn tcb) (answered r page)).
Proof.
  intros Ht. unfold finish_call. erewrite bind_run by (by eapply current_trap_cx_run).
  destruct (write_word_run ma t tcb page 10 (u64 r) Ht) as [E _]; [lia|]. by erewrite bind_run by exact E.
Qed.

Lemma trap_return_run ma t p b tcb r :
  running (sys ma) t p b → sys_tcbs (sys ma) !! Z.to_nat t = Some tcb → res tcb = Some r →
  trap_return ma = Ok (Back (trap_cx_user_va r, MemorySet_token (pcb_memory_set b)), ma).
Proof.
  intros Hrun Hb Hr. pose proof Hrun as (Hc & _ & Hp). unfold trap_return.
  erewrite bind_run by (by apply the_task_run). erewrite bind_run by (apply in_system_same, get_task_block_run, Hb).
  rewrite Hr. erewrite bind_run by reflexivity. erewrite bind_run by (eapply in_system_same, current_process_run, Hrun).
  by erewrite bind_run by (by apply in_system_same, get_pcb_run).
Qed.

Lemma check_signals_none ma t p b tcb r :
  running (sys ma) t p b → sys_tcbs (sys ma) !! Z.to_nat t = Some tcb → res tcb = Some r → check_error (signals b) = None →
  check_signals initproc ma = Ok (Back (trap_cx_user_va r, MemorySet_token (pcb_memory_set b)), ma).
Proof.
  intros Hrun Hb Hr Hs. pose proof Hrun as (_ & _ & Hp). unfold check_signals.
  erewrite bind_run; [|apply in_system_same; unfold check_signals_of_current].
  2:{ erewrite bind_run by (by eapply current_process_run). erewrite bind_run by (by apply get_pcb_run). reflexivity. }
  rewrite Hs. by eapply trap_return_run.
Qed.

(** The way of a call that comes back with [r] in a state in which the current task
    has no signals. *)
Lemma ecall_run ma t tcb page time r ma2 t2 p2 b2 tcb2 r2 page2 :
  in_trap ma t tcb page →
  call time (word_at page 17) (word_at page 10) (word_at page 11) (word_at page 12) (word_at page 13)
    (set_page ma (tcb_trap_cx_ppn tcb) (advanced page)) = Ok (Back r, ma2) →
  in_trap ma2 t2 tcb2 page2 → running (sys ma2) t2 p2 b2 → res tcb2 = Some r2 → check_error (signals b2) = None →
  trap time UserEnvCall ma = Ok (Back (trap_cx_user_va r2, MemorySet_token (pcb_memory_set b2)),
    set_page ma2 (tcb_trap_cx_ppn tcb2) (answered r page2)).
Proof.
  intros Ht E Ht2 Hrun Hr Hs. unfold trap_handler. erewrite bind_run; [|erewrite user_env_call_run by exact Ht; exact E].
  cbn beta iota. rewrite (finish_call_run _ _ _ _ _ Ht2). eapply check_signals_none; [exact Hrun|apply Ht2|exact Hr|exact Hs].
Qed.

(** ** The dispatch *)

(** The numbers that [syscall] knows. *)
Definition known_calls : list Z :=
  [24; 37; 35; 56; 57; 59; 63; 64; 80; 93; 101; 124; 172; 178; 220; 221; 260; 169; 222; 215; 140; 410; 400; 460; 462; 463;
   464; 466; 467; 468; 469; 470; 471; 472; 473; 129].

Lemma syscall_unknown time id a0 a1 a2 a3 ma p b t :
  running (sys ma) t p b → id ∉ known_calls → call time id a0 a1 a2 a3 ma = Fail Panic.
Proof.
  intros Hrun Hid. unfold syscall. erewrite bind_run by (eapply in_system_same, current_process_run, Hrun).
  erewrite bind_run by (apply in_system_same, get_pcb_run, Hrun). cbv zeta. unfold known_calls in Hid.
  repeat (apply not_elem_of_cons in Hid as [Hne Hid]; rewrite (proj2 (Z.eqb_neq id _)) by exact Hne; clear Hne). done.
Qed.

Lemma with_files_same p b ma : pcbs (sys ma) !! p = Some b → with_files p b (file_view p b ma) ma = ma.
Proof.
  intros Hb. unfold with_files, file_view. cbn [fd_table fs_ram fs_disk files rings other_refs console printed].
  rewrite length_app, Nat.add_sub, take_app_length. rewrite list_insert_id; [by destruct ma as [[]]|]. rewrite Hb. by destruct b.
Qed.

Lemma in_files_same {A} p b ma (m : M (fsys St) A) a :
  pcbs (sys ma) !! p = Some b → m (file_view p b ma) = Ok (a, file_view p b ma) → in_files p m ma = Ok (a, ma).
Proof. intros Hb E. unfold in_files. mstep. rewrite Hb. cbn [unwrap]. rewrite E. by rewrite with_files_same. Qed.

(** The calls that have a result and change nothing. *)
Definition plain_result (id : Z) (b : ProcessControlBlock) (r : TaskUserRes) : option Z :=
  if decide (id ∈ [35; 37; 80; 140; 215; 222; 400; 410]) then Some (-1)
  else if id =? 172 then Some (i64 (pid b))
  else if id =? 178 then Some (tid r)
  else None.

Lemma plain_call_run ma t p b tcb r page time id a0 a1 a2 a3 x :
  in_trap ma t tcb page → running (sys ma) t p b → res tcb = Some r → plain_result id b r = Some x →
  call time id a0 a1 a2 a3 ma = Ok (Back x, ma).
Proof.
  intros Ht Hrun Hr Hx. pose proof Hrun as (_ & _ & Hb). unfold syscall.
  erewrite bind_run by (eapply in_system_same, current_process_run, Hrun).
  erewrite bind_run by (by apply in_system_same, get_pcb_run). cbv zeta. unfold plain_result in Hx. case_decide as Hin.
  - injection Hx as <-. unfold value.
    repeat (apply elem_of_cons in Hin as [->|Hin]; [cbn;
      (erewrite bind_run; [reflexivity|]); solve [reflexivity|by eapply in_files_same]|]).
    by apply not_elem_of_nil in Hin.
  - destruct (Z.eqb_spec id 172) as [-> |_]; [|destruct (Z.eqb_spec id 178) as [-> |_]; [|done]]; injection Hx as <-; cbn; unfold value.
    + erewrite bind_run; [reflexivity|]. apply in_system_same. unfold sys_getpid.
      erewrite bind_run by (by eapply current_process_run). by erewrite bind_run by (by apply get_pcb_run).
    + erewrite bind_run; [reflexivity|]. apply in_system_same. erewrite in_process_run; [|exact Hb|].
      2:{ unfold sys_gettid, current_res, in_kernel, current_task, get_tcb. mstep. cbn [t_kern process_view].
          rewrite (it_task _ _ _ _ Ht). cbn [unwrap]. mstep. cbn [t_tcbs process_view]. rewrite (it_block _ _ _ _ Ht). cbn [unwrap].
          rewrite Hr. reflexivity. }
      do 2 f_equal. by apply with_view_same.
Qed.

(** C12: a system call goes through the trap context.  The number is in register 17;
    afterwards the result is in register 10, the program counter is behind the
    instruction, and every other register is as before: so for the numbers of the
    process and of the thread, and for the calls that are not implemented, which
    give -1; they change nothing else.  A number that no call has panics the
    kernel. *)
Theorem ecall_spec ma t p b tcb r page time :
  in_trap ma t tcb page → running (sys ma) t p b → res tcb = Some r → check_error (signals b) = None →
  let id := word_at page 17 in
  (id ∉ known_calls → trap time UserEnvCall ma = Fail Panic) ∧
  ∀ x, plain_result id b r = Some x →
    ∃ page', trap time UserEnvCall ma = Ok (Back (trap_cx_user_va r, MemorySet_token (pcb_memory_set b)),
        set_page ma (tcb_trap_cx_ppn tcb) page') ∧
      word_at page' 10 = u64 x ∧ word_at page' 33 = word_at page 33 +ᵤ 4 ∧
      ∀ i, 0 ≤ i < 512 → i ≠ 10 → i ≠ 33 → word_at page' i = word_at page i.
Proof.
  intros Ht Hrun Hr Hs id. assert (Hl := it_length _ _ _ _ Ht).
  destruct (write_word_run ma t tcb page 33 (word_at page 33 +ᵤ 4) Ht) as [_ Ht']; [lia|]. fold (advanced page) in Ht'.
  assert (Hl' := it_length _ _ _ _ Ht'). split.
  - intros Hid. unfold trap_handler. unfold mbind, M_bind. rewrite (user_env_call_run _ _ _ _ _ Ht).
    by erewrite syscall_unknown by (exact Hrun || exact Hid).
  - intros x Hx. exists (answered x (advanced page)). split.
    + erewrite ecall_run; [|exact Ht|eapply plain_call_run; [exact Ht'|exact Hrun|exact Hr|exact Hx]|exact Ht'|exact Hrun|done|done].
      do 2 f_equal. unfold set_page, set_sys, set_memory. cbn. by rewrite insert_insert_eq.
    + unfold answered. split; [|split; [|intros i Hi Hi1 Hi2]].
      * rewrite word_put_eq by (done || lia). apply u64_small, u64_range.
      * rewrite word_put_ne by (done || lia). unfold advanced. rewrite word_put_eq by (done || lia). apply u64_small, u64_range.
      * rewrite word_put_ne by (done || lia). unfold advanced. by rewrite word_put_ne by (done || lia).
Qed.

(** ** Faults *)

Definition fault_signal (cause : Trap) : option Z :=
  match cause with
  | StoreFault | StorePageFault | InstructionFault | InstructionPageFault | LoadFault | LoadPageFault => Some SIGSEGV
  | IllegalInstruction => Some SIGILL
  | _ => None
  end.

Definition signalled (p : nat) (b : ProcessControlBlock) (s : system St) : system St := set_pcbs (<[p := b]> (pcbs s)) s.

(** Signals do not matter for the exit. *)
Lemma exit_ready_signals start s t p b tcb r rest mu nu peak live klive f :
  exit_ready start s t p b tcb r rest mu nu peak live klive initproc →
  exit_ready start (signalled p (set_signals f b) s) t p (set_signals f b) tcb r rest mu nu peak live klive initproc.
Proof.
  intros [(Hc & Ho & Hb) Ht Hblk Hres Hmain Hnd Hk Hw Hd Hids [Hs1 Hs2] Hpid Hinit [Hkn Hcn]].
  split; try done; [|split; [|done]].
  - split; [done|]. split; [done|]. apply list_lookup_insert_eq. by eapply lookup_lt_Some.
  - intros c Hin. cbn [pcbs signalled set_pcbs]. destruct (decide (c = p)) as [-> |Hne].
    + rewrite list_lookup_insert_eq by (by eapply lookup_lt_Some). by eexists.
    + rewrite list_lookup_insert_ne by done. by apply Hkn.
Qed.

Lemma add_signal_run s t p b f :
  running s t p b → current_add_signal f s = Ok (tt, signalled p (set_signals (Z.lor (signals b) f) b) s).
Proof.
  intros Hrun. unfold current_add_signal. erewrite bind_run by (by eapply current_process_run).
  apply (alter_pcb_run s p (λ b, set_signals (Z.lor (signals b) f) b) b), Hrun.
Qed.

(** The end of the handler with a signal. *)
Lemma check_signals_run ma t p b code s' :
  running (sys ma) t p b → check_error (signals b) = Some code →
  exit_current_and_run_next initproc code (sys ma) = Ok (Scheduled, s') →
  check_signals initproc ma = Ok (Away, set_sys s' ma).
Proof.
  intros Hrun Hs E. pose proof Hrun as (_ & _ & Hb).
  unfold check_signals. erewrite bind_run; [|apply in_system_same; unfold check_signals_of_current].
  2:{ erewrite bind_run by (by eapply current_process_run). erewrite bind_run by (by apply get_pcb_run). reflexivity. }
  rewrite Hs. unfold exit_call. by erewrite bind_run by (by apply in_system_run).
Qed.

Lemma check_signals_exit ma start t p b tcb r rest mu nu peak live klive code :
  exit_ready start (sys ma) t p b tcb r rest mu nu peak live klive initproc → check_error (signals b) = Some code →
  ∃ s', check_signals initproc ma = Ok (Away, set_sys s' ma) ∧ exit_done start (sys ma) t p b tcb rest klive initproc code s'.
Proof.
  intros Hr Hs. pose proof (er_running _ _ _ _ _ _ _ _ _ _ _ _ _ _ Hr) as Hrun.
  destruct (exit_process_run start (sys ma) t p b tcb r rest mu nu peak live klive initproc code Hr) as (s' & E & Hd).
  exists s'. split; [|exact Hd]. by eapply check_signals_run.
Qed.

(** C38: [sys_kill] on a process number in use adds the signals to those pending, which is
    all that it changes, and returns 0; an unknown number or bits that are no signals
    give -1 and change nothing.  If there was a signal at all, then whenever a thread of
    the process comes to the check on the return to user mode with these signals still
    pending, it exits with a negative code and does not return to user mode.  The main
    thread ends the process this way; of another thread only the thread itself ends,
    and the process lives on. *)
Theorem kill_spec (s : system St) pid signal :
  match pid2pcb s !! pid with
  | Some p => ∀ b, pcbs s !! p = Some b →
      if Z.land signal 0x954 =? signal then
        sys_kill pid signal s = Ok (0, signalled p (set_signals (Z.lor (signals b) signal) b) s) ∧
        (signal ≠ 0 → ∀ ma t b' tcb r,
           running (sys ma) t p b' → Z.lor (signals b') signal = signals b' →
           sys_tcbs (sys ma) !! Z.to_nat t = Some tcb → res tcb = Some r →
           ∃ code, check_error (signals b') = Some code ∧ code < 0 ∧
             (∀ start rest mu nu peak live klive,
                exit_ready start (sys ma) t p b' tcb r rest mu nu peak live klive initproc →
                ∃ s', check_signals initproc ma = Ok (Away, set_sys s' ma) ∧
                  exit_done start (sys ma) t p b' tcb rest klive initproc code s') ∧
             ∀ start mu nu peak live, tid r ≠ 0 → world_ok start (t_world (process_view b' (sys ma))) mu nu →
               res_ok r → ra_inv peak live (pcb_res_allocator b') → tid r ∈ live →
               ∃ w mu', check_signals initproc ma =
                   Ok (Away, set_sys (with_view p b' (with_exit (process_view b' (sys ma)) t tcb code w) (sys ma)) ma) ∧
                 world_ok start w mu' nu ∧ res_gone start r (t_world (process_view b' (sys ma))) w mu mu')
      else sys_kill pid signal s = Ok (-1, s)
  | None => sys_kill pid signal s = Ok (-1, s)
  end.
Proof.
  unfold sys_kill, pid2process, SignalFlags_from_bits. mstep. change SignalFlags_all with 0x954.
  destruct (pid2pcb s !! pid) as [p|]; [|done]. intros b Hb. destruct (Z.eqb_spec (Z.land signal 0x954) signal) as [Hs|]; [|done].
  rewrite (alter_pcb_run s p _ b Hb). split; [done|]. intros Hne ma t b' tcb r Hrun Hp Hblk Hres.
  destruct (pending_signal _ _ Hs Hne Hp) as (code & Hc & Hneg). exists code. split; [done|]. split; [done|]. split.
  - intros. by eapply check_signals_exit.
  - intros start mu nu peak live Ht Hw Hr Hra Hl.
    destruct (TaskUserRes_drop_run start _ mu nu r peak live Hw Hr Hra Hl) as (w & mu' & E & Hw' & Hg & _).
    exists w, mu'. split; [|done]. eapply check_signals_run; [exact Hrun|exact Hc|]. by apply (thread_exit_run _ _ _ _ _ _ _ r).
Qed.

(** C11: a fault of the main thread of a process ends the process, and nothing else: the
    handler adds the signal, finds it before the return to user mode, and exits with
    its code, -11 for an access that the page table does not allow and -4 for an
    illegal instruction, if no other signal is pending.  The kernel goes on with the
    next task. *)
Theorem fault_kills ma start t p b tcb r rest mu nu peak live klive time cause f :
  fault_signal cause = Some f →
  exit_ready start (sys ma) t p b tcb r rest mu nu peak live klive initproc →
  let b' := set_signals (Z.lor (signals b) f) b in
  ∃ code s', trap time cause ma = Ok (Away, set_sys s' ma) ∧
    exit_done start (signalled p b' (sys ma)) t p b' tcb rest klive initproc code s' ∧
    code < 0 ∧ (signals b = 0 → code = if decide (cause = IllegalInstruction) then -4 else -11).
Proof.
  intros Hf Hr b'. pose proof (er_running _ _ _ _ _ _ _ _ _ _ _ _ _ _ Hr) as Hrun.
  apply (exit_ready_signals _ _ _ _ _ _ _ _ _ _ _ _ _ (Z.lor (signals b) f)) in Hr.
  assert (Hc : ∃ code, check_error (Z.lor (signals b) f) = Some code ∧ code < 0 ∧
    (signals b = 0 → code = if decide (cause = IllegalInstruction) then -4 else -11)).
  { destruct (check_error (Z.lor (signals b) f)) as [code|] eqn:E.
    - exists code. split; [done|]. split; [revert E; unfold check_error; repeat case_match; intros [= <-]; lia|].
      intros E0. rewrite E0, Z.lor_0_l in E. destruct cause; try discriminate Hf; injection Hf as <-; vm_compute in E; by injection E as <-.
    - exfalso. apply check_error_None in E. rewrite Z.land_lor_distr_l in E. apply Z.lor_eq_0_iff in E as [_ E].
      destruct cause; try discriminate Hf; injection Hf as <-; by vm_compute in E. }
  destruct Hc as (code & Hcode & Hneg & Hval).
  destruct (check_signals_exit (set_sys (signalled p b' (sys ma)) ma) start t p b' tcb r rest mu nu peak live klive code Hr Hcode)
    as (s' & E & Hd).
  exists code, s'. split; [|done].
  destruct cause; try discriminate Hf; injection Hf as <-; unfold trap_handler;
    (erewrite bind_run by (apply in_system_run, (add_signal_run _ _ _ _ _ Hrun)); exact E).
Qed.

(** ** Fork, from the side of the two processes *)

Lemma fork_ready_page start ma b mu kn t tcb r i page :
  fork_ready strampoline start (sys ma) b mu kn t tcb r i → tcb_trap_cx_ppn tcb ∈ data_of (pcb_memory_set b) →
  length page = 4096%nat → bytes page →
  fork_ready strampoline start (sys (set_page ma (tcb_trap_cx_ppn tcb) page)) b mu kn t tcb r i.
Proof.
  intros [Hs Hk Hsep Hf Htr Htp Hta Hbl Hre Hba Hks Hkb Hkf Hn Hc Ha] Hp Hl Hb.
  destruct (data_used _ _ _ _ Hs _ Hp) as [_ Hnt].
  split; try done; [by apply space_ok_write|]. apply space_ok_write; [done..|].
  intros Hin. apply (Hsep (tcb_trap_cx_ppn tcb)); [|by apply own_table]. apply elem_of_app. by right.
Qed.

(** The registers of the child, in terms of those of the parent at the call. *)
Record child_page (page page' : list Z) (kstack : Z) : Prop := {
  cp_result : word_at page' 10 = 0;
  cp_pc : word_at page' 33 = word_at page 33 +ᵤ 4;
  cp_stack : word_at page' 35 = u64 (KernelStack_get_top kstack);
  cp_other i : 0 ≤ i < 512 → i ≠ 10 → i ≠ 33 → i ≠ 35 → word_at page' i = word_at page i;
}.

Lemma child_page_run page i : length page = 4096%nat →
  child_page page (splice 80 (le_put 8 0) (splice 280 (le_put 8 (KernelStack_get_top i)) (advanced page))) i.
Proof.
  intros Hl. change (child_page page (put_word 10 0 (put_word 35 (KernelStack_get_top i) (put_word 33 (word_at page 33 +ᵤ 4) page))) i).
  assert (Hw : ∀ j x pg, length pg = 4096%nat → 0 ≤ j < 512 → length (put_word j x pg) = 4096%nat)
    by (intros; unfold put_word; rewrite length_wr; lia).
  split; [| | |intros j Hj H1 H2 H3].
  - rewrite word_put_eq by first [lia|repeat apply Hw; lia]. done.
  - rewrite !word_put_ne by first [lia|repeat apply Hw; lia]. rewrite word_put_eq by lia. apply u64_small, u64_range.
  - rewrite word_put_ne by first [lia|repeat apply Hw; lia]. by rewrite word_put_eq by first [lia|repeat apply Hw; lia].
  - by rewrite !word_put_ne by first [lia|repeat apply Hw; lia].
Qed.

(** The parent in the system after the fork. *)
Lemma after_fork_facts (s : system St) p b w2 ctcb k t tcb :
  running s t p b → sys_tcbs s !! Z.to_nat t = Some tcb →
  let s2 := after_fork s p b w2 ctcb k in
  ∃ b', running s2 t p b' ∧ sys_tcbs s2 !! Z.to_nat t = Some tcb ∧ signals b' = signals b ∧
    MemorySet_token (pcb_memory_set b') = MemorySet_token (pcb_memory_set b) ∧
    ready_queue (sys_kern s2) = ready_queue (sys_kern s) ++ [Z.of_nat (length (sys_tcbs s))] ∧
    sys_tcbs s2 !! Z.to_nat (Z.of_nat (length (sys_tcbs s))) = Some ctcb ∧ sys_memory s2 = k.
Proof.
  intros (Hc & Ho & Hb) Ht s2. unfold s2, after_fork. destruct (RA_alloc (pid_allocator s)) as [cpid pra].
  exists (set_children (children b ++ [length (pcbs s)]) b). unfold running.
  cbn [sys_kern owners pcbs sys_tcbs sys_memory current set_ready set_status ready_queue]. repeat split.
  - done.
  - by apply lookup_app_l_Some.
  - apply lookup_app_l_Some, list_lookup_insert_eq. by eapply lookup_lt_Some.
  - by apply lookup_app_l_Some.
  - rewrite Nat2Z.id. by apply lookup_last.
Qed.

(** C8: fork returns twice.  A process with one thread that calls it comes back with
    the number of the child in register 10; the child is ready to run, and will come
    back from the same call, at the same instruction, with 0 in register 10 and
    otherwise the registers of the parent, on a kernel stack of its own.  The memory
    of the child is a copy of that of the parent, and the parent's is unchanged. *)
Theorem fork_returns_twice ma t p b tcb r page start mu kn i time perm :
  in_trap ma t tcb page → running (sys ma) t p b → check_error (signals b) = None →
  fork_ready strampoline start (sys ma) b mu kn t tcb r i →
  mu !! (2 ^ 27 - 2) = Some (pte_for perm (tcb_trap_cx_ppn tcb)) → perm_ok perm →
  tcb_trap_cx_ppn tcb ∈ data_of (pcb_memory_set b) → word_at page 17 = 220 →
  let s1 := sys (set_page ma (tcb_trap_cx_ppn tcb) (advanced page)) in
  let cpid := (RA_alloc (pid_allocator (sys ma))).1 in
  ∃ ch nu w2 p' k' page' cpage, let ctcb := mkTCB i (Some (mkRes 0 (ustack_base r))) p' None in
    let ma' := set_page (set_sys (after_fork s1 p b w2 ctcb k') ma) (tcb_trap_cx_ppn tcb) page' in
    trap time UserEnvCall ma = Ok (Back (trap_cx_user_va r, MemorySet_token (pcb_memory_set b)), ma') ∧
    memory_set w2 = ch ∧ forked start s1 b mu nu ch ctcb k' ∧
    (word_at page' 10 = u64 (i64 cpid) ∧ word_at page' 33 = word_at page 33 +ᵤ 4 ∧
     ∀ j, 0 ≤ j < 512 → j ≠ 10 → j ≠ 33 → word_at page' j = word_at page j) ∧
    mem (sys_memory (sys ma')) !! p' = Some cpage ∧ child_page page cpage i ∧
    (let ct := Z.of_nat (length (sys_tcbs (sys ma))) in
     ready_queue (sys_kern (sys ma')) = ready_queue (sys_kern (sys ma)) ++ [ct] ∧
     sys_tcbs (sys ma') !! Z.to_nat ct = Some ctcb).
Proof.
  intros Ht Hrun Hs Hf Hmu Hperm Hown Hid s1 cpid. assert (Hl := it_length _ _ _ _ Ht).
  destruct (write_word_run ma t tcb page 33 (word_at page 33 +ᵤ 4) Ht) as [_ Ht']; [lia|]. fold (advanced page) in Ht'.
  pose proof (fork_ready_page start ma b mu kn t tcb r i (advanced page) Hf Hown (it_length _ _ _ _ Ht') (it_bytes _ _ _ _ Ht')) as Hf1.
  fold s1 in Hf1. destruct (sys_fork_run strampoline s1 t p b start mu kn t tcb r i Hrun) as [_ Hfork].
  destruct (Hfork Hf1) as (ch & nu & w2 & p' & k' & E & Hw2 & Hd). clear Hfork. cbv zeta in E, Hd.
  set (ctcb := mkTCB i (Some (mkRes 0 (ustack_base r))) p' None) in *. pose proof Hrun as (Hc & Ho & Hb).
  destruct Hd as [Hch Hpar Hsh Hcop (perm' & q & pg & Hperm' & Hq & Hmu' & Hnu & Epg & Ecp) Hfr Hnew Hold].
  assert (q = tcb_trap_cx_ppn tcb) as ->.
  { rewrite Hmu in Hmu'. injection Hmu' as Hpte. apply (f_equal PTE_ppn) in Hpte.
    assert (Hbd : ∀ x, x ∈ data_of (pcb_memory_set b) → 0 ≤ x < 2 ^ 44).
    { intros x Hx. destruct (used_page start (sys_memory (sys ma)) x) as [? _]; [apply (fr_space _ _ _ _ _ _ _ _ _ _ Hf)| |done].
      by apply (data_used _ _ _ _ (fr_space _ _ _ _ _ _ _ _ _ _ Hf)). }
    rewrite !pte_for_ppn in Hpte by auto. done. }
  pose proof (it_page _ _ _ _ Ht') as Epg'. fold s1 in Epg'. rewrite Epg' in Epg. injection Epg as <-.
  pose proof (fr_space _ _ _ _ _ _ _ _ _ _ Hf1) as Hs1. destruct (data_used _ _ _ _ Hs1 _ Hown) as [Huse Htab].
  assert (Hsep : tcb_trap_cx_ppn tcb ∉ pt_frames (page_table (sys_kernel_space s1))).
  { intros Hin. apply (fr_sep _ _ _ _ _ _ _ _ _ _ Hf1 (tcb_trap_cx_ppn tcb)); [apply elem_of_app; by right|by apply own_table]. }
  destruct (Hold _ Huse Hsep) as [_ Ekeep].
  assert (Hne : tcb_trap_cx_ppn tcb ≠ p') by (intros <-; by apply (Hnew _ Hfr)).
  destruct (after_fork_facts s1 p b w2 ctcb k' t tcb Hrun (it_block _ _ _ _ Ht')) as (b' & Hrun2 & Hblk2 & Hb'1 & Hb'2 & Hrq & Hlast & Hmem).
  set (ma2 := set_sys (after_fork s1 p b w2 ctcb k') ma).
  assert (Ht2 : in_trap ma2 t tcb (advanced page)).
  { split; [apply Hrun2|exact Hblk2| |apply Ht'|apply Ht']. cbn [sys ma2 set_sys]. by rewrite Hmem, Ekeep. }
  exists ch, nu, w2, p', k', (answered (i64 cpid) (advanced page)). eexists. split; [|split; [done|split; [|split; [|split; [|split; [|split]]]]]].
  - rewrite <- Hb'2. eapply (ecall_run ma t tcb page time (i64 cpid) ma2 t p b'); [exact Ht| |exact Ht2|exact Hrun2|apply Hf|by rewrite Hb'1].
    rewrite Hid. unfold syscall. erewrite bind_run by (eapply in_system_same, current_process_run, Hrun).
    erewrite bind_run by (by apply in_system_same, get_pcb_run). unfold value. cbn. by erewrite bind_run by (by apply in_system_run).
  - split; try done. by exists perm', (tcb_trap_cx_ppn tcb), (advanced page).
  - unfold answered. assert (Hl' := it_length _ _ _ _ Ht'). split; [|split; [|intros j Hj H1 H2]].
    + rewrite word_put_eq by (done || lia). apply u64_small, u64_range.
    + rewrite word_put_ne by (done || lia). unfold advanced. rewrite word_put_eq by (done || lia). apply u64_small, u64_range.
    + rewrite word_put_ne by (done || lia). unfold advanced. by rewrite word_put_ne by (done || lia).
  - cbn [sys set_page set_sys set_memory sys_memory mem]. rewrite lookup_insert_ne by exact Hne. fold ctcb. rewrite Hmem. exact Ecp.
  - by apply child_page_run.
  - exact Hrq.
  - exact Hlast.
Qed.
End handler.

(** ** Examples *)

(** The process of [solo] in a system call with the number [id]. *)
Definition solo_machine (w : world) (q : Z) (page : list Z) (id : Z) : machine unit :=
  set_page (mkMachine (solo w q) [] [] [] [] ∅ 0) q (put_word 17 id page).

Lemma solo_in_trap id : 0 ≤ id < 2 ^ 64 →
  ∃ w mu kn q page, in_trap (solo_machine w q page id) 0 (solo_tcb q) (put_word 17 id page) ∧
    word_at (put_word 17 id page) 17 = id ∧ mu !! (2 ^ 27 - 2) = Some (pte_for 6 q) ∧ q ∈ data_of (memory_set w) ∧
    fork_ready 0x80200000 5 (sys (solo_machine w q page id)) (solo_pcb w) mu kn 0 (solo_tcb q) (mkRes 0 0x20000) 0.
Proof.
  intros Hid. destruct solo_fork_ready as (w & mu & kn & q & Hmu & Hq & Hr).
  pose proof (fr_space _ _ _ _ _ _ _ _ _ _ Hr) as Hs. destruct (data_used _ _ _ _ Hs q Hq) as [Hu _].
  destruct (used_page 5 (memory w) q) as (_ & page & Ep & Hl & Hb); [apply Hs|done|].
  exists w, mu, kn, q, page. set (ma := mkMachine (solo w q) [] [] [] [] ∅ 0 : machine unit).
  assert (Ht : in_trap ma 0 (solo_tcb q) page) by (split; done).
  destruct (write_word_run ma 0 (solo_tcb q) page 17 id Ht) as [_ Ht']; [lia|].
  split; [exact Ht'|]. split; [rewrite word_put_eq by (done || lia); by apply u64_small|]. split; [done|]. split; [done|].
  apply (fork_ready_page 0x80200000 5 ma (solo_pcb w) mu kn 0 (solo_tcb q)); [exact Hr|exact Hq|apply Ht'|apply Ht'].
Qed.

(** A machine without a disk. *)
#[local] Instance no_disk : BlockStore unit := {|
  lock_block _ _ := Fail Panic; read_bytes _ _ _ _ := Fail Panic; write_bytes _ _ _ _ := Fail Panic;
  unlock_block _ s := s; sync_all _ := Fail Panic; view _ := ∅; held _ := ∅; store_wf _ := True; durable _ := True |}.
#[local] Existing Instance first_heap.
Definition no_efs : EasyFileSystem := mkEfs (mkBitmap 0 0) (mkBitmap 0 0) 0 0.
Definition no_root : Inode := mkInode 0 0.

Lemma ecall_spec_witness :
  ∃ (ma ma' : machine unit) satp, trap_handler 0 (λ _, None) 0 0 no_efs no_root 0 0 0 UserEnvCall ma = Ok (Back (0xffffffffffffe000, satp), ma').
Proof.
  destruct (solo_in_trap 172) as (w & mu & kn & q & page & Ht & Hid & _); [lia|].
  destruct (ecall_spec 0 (λ _, None) 0 0 no_efs no_root 0 0 _ 0 0 (solo_pcb w) (solo_tcb q) (mkRes 0 0x20000) _ 0 Ht) as [_ Hc];
    [by split|done|done|].
  destruct (Hc 0) as (page' & E & _); [by rewrite Hid|]. exists (solo_machine w q page 172). do 2 eexists. exact E.
Defined.

Lemma fork_returns_twice_witness :
  ∃ (ma ma' : machine unit) satp, trap_handler 0x80200000 (λ _, None) 0 0 no_efs no_root 0 0 0 UserEnvCall ma =
    Ok (Back (0xffffffffffffe000, satp), ma') ∧ ready_queue (sys_kern (sys ma')) = [1].
Proof.
  destruct (solo_in_trap 220) as (w & mu & kn & q & page & Ht & Hid & Hmu & Hq & Hr); [lia|].
  destruct (fork_returns_twice 0x80200000 (λ _, None) 0 0 no_efs no_root 0 0 _ 0 0 (solo_pcb w) (solo_tcb q) (mkRes 0 0x20000) _ 5 mu kn 0 0 6 Ht)
    as (ch & nu & w2 & p' & k' & page' & cpage & E & _ & _ & _ & _ & _ & Hq' & _); [by split|done|exact Hr|exact Hmu|done|exact Hq|exact Hid|].
  exists (solo_machine w q page 220). do 2 eexists. split; [exact E|exact Hq'].
Defined.

Lemma fault_kills_witness :
  ∃ (ma ma' : machine unit) b, trap_handler 0 (λ _, None) 0 0 no_efs no_root 0 0 0 LoadPageFault ma = Ok (Away, ma') ∧
    pcbs (sys ma') !! 1%nat = Some b ∧ is_zombie b = true ∧ pcb_exit_code b = -11.
Proof.
  destruct exit_demo_ready as (w & mu & kn & Hr). set (ma := mkMachine (exit_demo w) [] [] [] [] ∅ 0).
  destruct (fault_kills 0 (λ _, None) 0 0 no_efs no_root 0 0 ma 5 0 1 (exit_pcb w) _ _ _ mu kn 1 {[0]} {[0]} 0 LoadPageFault SIGSEGV eq_refl Hr)
    as (code & s' & E & Hd & _ & Hcode). rewrite Hcode in Hd by done. destruct (xd_zombie _ _ _ _ _ _ _ _ _ _ _ Hd) as [ra Hz].
  exists ma. do 2 eexists. split; [exact E|]. split; [exact Hz|]. done.
Defined.

Lemma kill_spec_witness :
  ∃ (s s1 : system unit) s' b, sys_kill 1 SIGINT s = Ok (0, s1) ∧ sys_kill 7 SIGINT s = Ok (-1, s) ∧
    check_signals 0 (mkMachine s1 [] [] [] [] ∅ 0) = Ok (Away, s') ∧
    pcbs (sys s') !! 1%nat = Some b ∧ is_zombie b = true ∧ pcb_exit_code b = -2.
Proof.
  destruct exit_demo_ready as (w & mu & kn & Hr). destruct (kill_spec 0 (exit_demo w) 1 SIGINT (exit_pcb w) eq_refl) as [E Hk].
  apply (exit_ready_signals 0 _ _ _ _ _ _ _ _ _ _ _ _ _ SIGINT) in Hr.
  destruct (Hk ltac:(done) (mkMachine (signalled 1 (set_signals SIGINT (exit_pcb w)) (exit_demo w)) [] [] [] [] ∅ 0) 0
    (set_signals SIGINT (exit_pcb w)) _ _ (er_running _ _ _ _ _ _ _ _ _ _ _ _ _ _ Hr) eq_refl eq_refl eq_refl) as (code & Hc & _ & He & _).
  destruct (He _ _ _ _ _ _ _ Hr) as (s' & Es & Hd). injection Hc as <-. destruct (xd_zombie _ _ _ _ _ _ _ _ _ _ _ Hd) as [ra Hz].
  exists (exit_demo w). do 3 eexists. split; [exact E|]. split; [exact (kill_spec 0 (exit_demo w) 7 SIGINT)|].
  split; [exact Es|]. split; [exact Hz|]. done.
Defined.
