(* ===== verification/KernelInv.v ===== *)
(** * The whole kernel keeps its tasks in order (os/src/trap/mod.rs and all it calls)

    Every task of the machine is at one place, running, ready or waiting, with the
    status of that place, whatever programs run and whatever they call.  The files
    below the traps are followed call by call; most of them do not touch the
    scheduler at all. *)

From S2P Require Import Prelude Hoare Bytes BlockStore Layout Efs Vfs Address FrameAlloc PageTable MemorySet MemorySpec.
From S2P Require Import Ids TaskRes UserMem Files Pipe FileCalls Threads Sync SyncSpec Concurrency SyncCalls ThreadCalls Processes ForkSpec Traps TrapSpec.

(** ** The scheduler *)

(** There are [n] tasks. *)
Record sched_inv (n : nat) (k : kernel) : Prop := {
  si_wf : sched_wf k;
  si_known t : t ∈ places k → 0 ≤ t < Z.of_nat n;
}.

Lemma moves_inv l n k k' : moves l k k' → sched_inv n k → sched_inv n k'.
Proof.
  intros Hm [Hwf Hk]. split; [by eapply moves_wf|]. intros t Ht. apply Hk. by rewrite <- (moves_places l k k' Hm).
Qed.

Lemma changes_inv n k es k' : changes k es k' → sched_inv n k → sched_inv n k'.
Proof.
  induction 1 as [|k es k1 es' k' Hc _ IH]; [done|]. intros Hi. apply IH.
  destruct (change_moves _ _ _ Hc) as (l & Hm & _). by eapply moves_inv.
Qed.

(** Tasks may go. *)
Lemma fewer_inv n k k' :
  places k' ⊆+ places k → (∀ st t, at_place k' st t → at_place k st t) → task_status k' = task_status k →
  sched_inv n k → sched_inv n k'.
Proof.
  intros Hp Ha Hs [[Hnd Hst] Hk]. split; [split|].
  - apply submseteq_Permutation in Hp as [l Hl]. rewrite Hl in Hnd. by apply NoDup_app in Hnd as [? _].
  - intros st t Hat. rewrite Hs. auto.
  - intros t Ht. apply Hk. by eapply elem_of_submseteq.
Qed.

(** More tasks may be known, and one that is nowhere gets a status. *)
Lemma sched_inv_new n t st k : (t ∉ places k) → sched_inv n k → sched_inv (S n) (set_status t st k).
Proof.
  intros Ht [[Hnd Hst] Hk]. split; [split; [done|]|].
  - intros st' t' Hat. assert (Hat' : at_place k st' t') by (by destruct st'). cbn [task_status set_status].
    rewrite lookup_insert_ne; [by apply Hst|]. intros <-. apply Ht, elem_of_places. by exists st'.
  - intros t' Ht'. specialize (Hk t' Ht'). lia.
Qed.

(** A new task becomes ready. *)
Lemma sched_inv_add n t k :
  (t ∉ places k) → 0 ≤ t < Z.of_nat n → task_status k !! t = Some Ready → sched_inv n k →
  sched_inv n (set_ready (ready_queue k ++ [t]) k).
Proof.
  intros Ht Hr Hs [[Hnd Hst] Hk].
  assert (Hp : places (set_ready (ready_queue k ++ [t]) k) ≡ₚ t :: places k).
  { unfold places. cbn [current ready_queue set_ready]. change (blocked (set_ready (ready_queue k ++ [t]) k)) with (blocked k).
    solve_Permutation. }
  split; [split|].
  - rewrite Hp. by constructor.
  - intros st t' Hat. destruct (decide (t' = t)) as [-> |Hne].
    + destruct st; cbn in Hat |- *; [done| |]; exfalso; apply Ht, elem_of_places; [by exists Running|by exists Blocked].
    + apply Hst. destruct st; cbn in Hat |- *; [|done|done]. apply elem_of_app in Hat as [?|?%list_elem_of_singleton]; done.
  - intros t'. rewrite Hp. intros [->|?]%elem_of_cons; auto.
Qed.

Lemma user_op_inv `{!Heap} n t op k es k' :
  current k = Some t → user_op t op k = Ok (es, k') → sched_inv n k → sched_inv n k'.
Proof. intros Hc E. eapply changes_inv. by eapply user_op_changes. Qed.


(** ** The state that matters *)

(** The scheduler, the number of tasks and of their owners. *)
Definition core {St} (s : system St) : kernel * nat * nat := (sys_kern s, length (sys_tcbs s), length (owners s)).

(** The order of the tasks, with the current task [o]. *)
Record sched_at (o : option Z) (n : nat) (k : kernel) : Prop := {
  sa_inv : sched_inv n k;
  sa_current : current k = o;
}.

Definition core_at (o : option Z) (c : kernel * nat * nat) : Prop := sched_at o c.1.2 c.1.1 ∧ c.2 = c.1.2.
Definition sys_at {St} (o : option Z) (s : system St) : Prop := core_at o (core s).

(** The same for the part that the threads of a process work on. *)
Definition tcore (t : tsys) : kernel * nat := (t_kern t, length (t_tcbs t)).

Section quiet.
Context {St : Type}.
Implicit Types s : system St.

(** Code that leaves the scheduler alone. *)
Definition quiet {A} (m : M (system St) A) : Prop := ∀ c, keeps (λ s, core s = c) m.

Lemma quiet_keeps {A} (m : M (system St) A) (Phi : kernel * nat * nat → Prop) : quiet m → keeps (λ s, Phi (core s)) m.
Proof. intros Hq s a s' HP E. by rewrite (Hq (core s) s a s' eq_refl E). Qed.

Lemma quiet_bind {A B} (m : M (system St) A) (f : A → M (system St) B) : quiet m → (∀ a, quiet (f a)) → quiet (m ≫= f).
Proof. intros Hm Hf c. apply keeps_bind; [apply Hm|]. intros a. apply Hf. Qed.

Lemma quiet_ret {A} (a : A) : quiet (mret a).
Proof. intros c. apply keeps_ret. Qed.
Lemma quiet_gets {A} (f : system St → A) : quiet (gets f).
Proof. intros c. apply keeps_gets. Qed.
Lemma quiet_lift {A} (r : result A) : quiet (lift r).
Proof. intros c. apply keeps_lift. Qed.
Lemma quiet_throw {A} f : quiet (throw (A:=A) f).
Proof. intros c. apply keeps_throw. Qed.
Lemma quiet_puts (f : system St → system St) : (∀ s, core (f s) = core s) → quiet (puts f).
Proof. intros Hf c. apply keeps_puts. intros s <-. apply Hf. Qed.

Lemma quiet_memory {A} (m : M kmem A) : quiet (on_memory m).
Proof. intros c s a s' <- E. unfold on_memory in E. mstep. destruct (m (sys_memory s)) as [[]|]; [|done]. by injection E as <- <-. Qed.

(** In the view of a process. *)
Lemma in_process_gives {A} p (m : M tsys A) k n o (Q : A → kernel * nat → Prop) :
  gives (λ t, tcore t = (k, n)) m (λ a t, Q a (tcore t)) →
  gives (λ s, core s = (k, n, o)) (in_process p m) (λ a s, ∃ k' n', core s = (k', n', o) ∧ Q a (k', n')).
Proof.
  intros Hm s a s' [= Hk Hn Ho] E. unfold in_process in E. mstep. destruct (pcbs s !! p) as [b|]; cbn [unwrap] in E; [|done].
  destruct (m (process_view b s)) as [[x t]|] eqn:E1; [|done]. injection E as <- <-.
  exists (t_kern t), (length (t_tcbs t)). split; [by unfold core; cbn; rewrite Ho|].
  assert (Hv : tcore (process_view b s) = (k, n)) by (unfold tcore; cbn; by rewrite Hk, Hn). exact (Hm _ _ _ Hv E1).
Qed.

Lemma quiet_process {A} p (m : M tsys A) : (∀ c, keeps (λ t, tcore t = c) m) → quiet (in_process p m).
Proof.
  intros Hm [[k n] o] s a s' Hs E.
  destruct (in_process_gives p m k n o (λ _ c, c = (k, n)) ltac:(apply Hm) s a s' Hs E) as (k' & n' & -> & [= -> ->]). done.
Qed.

Lemma tquiet_world {A} (m : M world A) c : keeps (λ t, tcore t = c) (in_world m).
Proof. intros s a s' <- E. unfold in_world in E. destruct (m (t_world s)) as [[]|]; [|done]. by injection E as <- <-. Qed.

Lemma tquiet_put t b c : keeps (λ t, tcore t = c) (put_tcb t b).
Proof.
  unfold put_tcb. apply gives_bind with (R := λ l x, tcore x = c ∧ l = t_tcbs x); [by apply gives_gets|].
  intros l. apply gives_puts. intros x [<- ->]. unfold tcore. cbn. by rewrite length_insert.
Qed.
End quiet.

#[export] Hint Resolve quiet_ret quiet_gets quiet_lift quiet_throw quiet_memory quiet_process tquiet_world tquiet_put : hoare.

(** Follows the structure of code that leaves the scheduler alone. *)
Ltac quiet_step :=
  match goal with
  | |- quiet (mbind _ _) => apply quiet_bind; [|intros ?]
  | |- quiet (let '(_, _) := ?x in _) => destruct x
  | |- quiet (match ?x with _ => _ end) => destruct x
  | |- quiet (if ?x then _ else _) => destruct x
  | |- quiet (puts _) => apply quiet_puts; intros ?; reflexivity
  | |- quiet _ => solve [eauto with hoare]
  end.
Ltac quiet_steps := repeat (cbv zeta; quiet_step).

(** ** Calls that leave the scheduler alone *)

Section calls.
Context {St : Type} (strampoline : Z) (ElfFile_new : list Z → option ElfFile) (user_sstatus handler_va : Z).

Lemma quiet_get_pcb p : quiet (St:=St) (get_pcb p).
Proof. unfold get_pcb. quiet_steps. Qed.
Lemma quiet_alter_pcb p f : quiet (St:=St) (alter_pcb p f).
Proof. unfold alter_pcb. apply quiet_bind; [apply quiet_get_pcb|]. intros b. by apply quiet_puts. Qed.
Lemma quiet_get_task_block t : quiet (St:=St) (get_task_block t).
Proof. unfold get_task_block. quiet_steps. Qed.
Lemma quiet_current_process : quiet (St:=St) current_process.
Proof. unfold current_process. quiet_steps. Qed.
#[local] Hint Resolve quiet_get_pcb quiet_alter_pcb quiet_get_task_block quiet_current_process : hoare.

Lemma quiet_pid_alloc : quiet (St:=St) pid_alloc.
Proof. intros c s a s' <- E. unfold pid_alloc in E. destruct (RA_alloc (pid_allocator s)). by injection E as <- <-. Qed.
Lemma quiet_pid_drop x : quiet (St:=St) (PidHandle_drop x).
Proof. intros c s a s' <- E. unfold PidHandle_drop in E. mstep. destruct (RA_dealloc _ x); [|done]. by injection E as <- <-. Qed.
Lemma quiet_insert_pid x p : quiet (St:=St) (insert_into_pid2process x p).
Proof. by apply quiet_puts. Qed.
Lemma quiet_remove_pid x : quiet (St:=St) (remove_from_pid2process x).
Proof. unfold remove_from_pid2process, pid2process. quiet_steps. Qed.
Lemma quiet_new_pcb b : quiet (St:=St) (new_pcb b).
Proof. unfold new_pcb. quiet_steps. Qed.
Lemma quiet_main_task p : quiet (St:=St) (main_task p).
Proof. unfold main_task. quiet_steps. Qed.
#[local] Hint Resolve quiet_pid_alloc quiet_pid_drop quiet_insert_pid quiet_remove_pid quiet_new_pcb quiet_main_task : hoare.

Lemma quiet_release p l : quiet (St:=St) (release_tasks p l).
Proof. induction l as [|t l IH]; cbn [release_tasks]; quiet_steps. Qed.
Lemma quiet_reparent p q l : quiet (St:=St) (reparent p q l).
Proof. induction l as [|c l IH]; cbn [reparent]; quiet_steps. Qed.
Lemma quiet_drop_res p l : quiet (St:=St) (drop_res p l).
Proof. induction l as [|r l IH]; cbn [drop_res]; quiet_steps. Qed.
#[local] Hint Resolve quiet_release quiet_reparent quiet_drop_res : hoare.

Lemma quiet_trap_field ppn off x : quiet (St:=St) (write_trap_field ppn off x).
Proof. apply quiet_memory. Qed.
Lemma quiet_exec p d args : quiet (St:=St) (exec strampoline ElfFile_new user_sstatus handler_va p d args).
Proof. unfold exec. quiet_steps. Qed.
Lemma quiet_getpid : quiet (St:=St) sys_getpid.
Proof. unfold sys_getpid. quiet_steps. Qed.
Lemma quiet_kill x sig : quiet (St:=St) (sys_kill x sig).
Proof. unfold sys_kill, pid2process. quiet_steps. Qed.
Lemma quiet_get_time us ts : quiet (St:=St) (sys_get_time us ts).
Proof. unfold sys_get_time. quiet_steps. Qed.
Lemma quiet_check_signals : quiet (St:=St) check_signals_of_current.
Proof. unfold check_signals_of_current. quiet_steps. Qed.
Lemma quiet_add_signal f : quiet (St:=St) (current_add_signal f).
Proof. unfold current_add_signal. quiet_steps. Qed.
Lemma quiet_disk {A} (m : M St A) : quiet (λ s, '(a, d) ← m (sys_disk s); Ok (a, set_disk d s)).
Proof. intros c s a s' <- E. mstep. destruct (m (sys_disk s)) as [[]|]; [|done]. by injection E as <- <-. Qed.
End calls.

#[export] Hint Resolve quiet_get_pcb quiet_alter_pcb quiet_get_task_block quiet_current_process quiet_pid_alloc quiet_pid_drop
  quiet_insert_pid quiet_remove_pid quiet_new_pcb quiet_main_task quiet_release quiet_reparent quiet_drop_res quiet_trap_field quiet_exec
  quiet_getpid quiet_kill quiet_get_time quiet_check_signals quiet_add_signal quiet_disk : hoare.

(** Passes over code that leaves the scheduler alone, with [Phi] about it. *)
Ltac pass Phi := cbv zeta; eapply gives_bind; [apply (quiet_keeps _ Phi); solve [quiet_steps]|intros ?; cbn beta].

(** ** New tasks *)

(** The task [t] exists, and is nowhere yet. *)
Record fresh (o : option Z) (t : Z) (c : kernel * nat * nat) : Prop := {
  fs_ok : core_at o c;
  fs_new : t ∉ places c.1.1;
  fs_range : 0 ≤ t < Z.of_nat c.1.2;
  fs_ready : task_status c.1.1 !! t = Some Ready;
}.

Lemma core_at_new c k n o t : core_at c (k, n, o) → t = Z.of_nat n → fresh c t (set_status t Ready k, S n, S o).
Proof.
  intros [[Hi Hc] Ho] ->. cbn in Hi, Hc, Ho. assert (Hn : Z.of_nat n ∉ places k) by (intros Hin; apply (si_known _ _ Hi) in Hin; lia).
  split; cbn [fst snd].
  - split; [split; [by apply sched_inv_new|exact Hc]|]. cbn. by f_equal.
  - done.
  - lia.
  - apply lookup_insert_eq.
Qed.

Lemma fresh_add c k n o t : fresh c t (k, n, o) → core_at c (set_ready (ready_queue k ++ [t]) k, n, o).
Proof. intros [[[Hi Hc] Ho] Hn Hr Hs]. split; [|done]. split; [by apply sched_inv_add|exact Hc]. Qed.

Lemma new_task_gives ub alloc k n :
  gives (λ x, tcore x = (k, n)) (new_task ub alloc)
    (λ t x, tcore x = (set_status t Ready k, S n) ∧ t = Z.of_nat n).
Proof.
  intros x t x' Hx E. unfold new_task, in_world, in_kernel, set_tcbs in E. mstep.
  destruct (TaskControlBlock_new ub alloc (t_world x)) as [[b w]|]; [|done]. injection E as <- <-.
  injection Hx as Hk Hn. unfold tcore. cbn. rewrite length_app, Hk, Hn. cbn. split; [|done]. f_equal. lia.
Qed.

Section tasks.
Context {St : Type} (strampoline : Z) (ElfFile_new : list Z → option ElfFile) (user_sstatus handler_va : Z) (c : option Z).
Implicit Types s : system St.

Lemma new_task_of_gives p ub alloc : gives (sys_at c) (new_task_of (St:=St) p ub alloc) (λ t s, fresh c t (core s)).
Proof.
  intros s t s' Hs E. unfold new_task_of in E. mstep. destruct (in_process p (new_task ub alloc) s) as [[t1 s1]|] eqn:E1; [|done].
  injection E as <- <-. destruct (core s) as [[k n] o] eqn:Ec.
  destruct (in_process_gives p _ k n o (λ t c, c = (set_status t Ready k, S n) ∧ t = Z.of_nat n) (new_task_gives ub alloc k n) s t1 s1 Ec E1) as (k' & n' & Hc & [= -> ->] & ->).
  unfold core in Hc |- *. injection Hc as Hk Hn Ho. cbn. rewrite length_app, Hk, Hn, Ho. replace (o + length [p])%nat with (S o) by (cbn; lia).
  apply core_at_new; [|done]. unfold sys_at in Hs. by rewrite Ec in Hs.
Qed.

Lemma add_task_gives p t : gives (λ s, fresh c t (core s)) (in_process (St:=St) p (in_kernel (add_task t))) (λ _, sys_at c).
Proof.
  intros s a s' Hs E. unfold in_process in E. mstep. destruct (pcbs s !! p) as [b|]; cbn [unwrap] in E; [|done].
  unfold in_kernel, add_task in E. mstep. injection E as <- <-. exact (fresh_add _ _ _ _ _ Hs).
Qed.

Lemma fork_gives p : gives (sys_at c) (fork (St:=St) strampoline p) (λ _, sys_at c).
Proof.
  unfold fork. do 9 (pass (core_at c)). eapply gives_bind; [apply new_task_of_gives|]. intros t.
  do 4 (pass (fresh c t)). eapply gives_bind; [apply add_task_gives|]. intros ?. by apply gives_ret.
Qed.

Lemma keeps_fork : keeps (sys_at c) (sys_fork (St:=St) strampoline).
Proof.
  unfold sys_fork. pass (core_at c). eapply gives_bind; [apply fork_gives|]. intros ch.
  do 4 (pass (core_at c)). by apply gives_ret.
Qed.

Lemma process_new_gives d : gives (sys_at c) (ProcessControlBlock_new (St:=St) strampoline ElfFile_new user_sstatus handler_va d) (λ _, sys_at c).
Proof.
  unfold ProcessControlBlock_new. pass (core_at c). destruct a as [[ms ub] entry]. pass (core_at c). pass (core_at c).
  eapply gives_bind; [apply (quiet_keeps _ (core_at c)); by apply quiet_puts|]. intros ?. pass (core_at c).
  eapply gives_bind; [apply new_task_of_gives|]. intros t. do 6 (pass (fresh c t)).
  eapply gives_bind; [apply add_task_gives|]. intros ?. by apply gives_ret.
Qed.

Lemma keeps_exec `{BlockStore St} efs root fuel path args :
  keeps (sys_at c) (sys_exec strampoline ElfFile_new user_sstatus handler_va efs root fuel path args).
Proof.
  apply (quiet_keeps _ (core_at c)). unfold sys_exec. quiet_steps.
  intros x s y s' <- E. mstep. destruct (read_all _ (sys_disk s)) as [[[? ?] ?]|]; [|done]. by injection E as <- <-.
Qed.
End tasks.

(** ** Exit and waiting *)

Lemma take_gives c n : gives (sched_at c n) take_current_task (λ o k, o = c ∧ sched_at None n k).
Proof.
  intros k o k' [Hi Hc] E. unfold take_current_task in E. mstep. injection E as <- <-. split; [done|]. split; [|done].
  revert Hi. apply fewer_inv; [|by intros []|done].
  unfold places. cbn [current ready_queue set_current option_list app]. by apply submseteq_inserts_l.
Qed.

Lemma remove_first_sub t q : remove_first t q ⊆+ q.
Proof. induction q as [|x q IH]; [done|]. cbn. case_match; [by apply submseteq_cons|by apply submseteq_skip]. Qed.

Lemma remove_first_elem t x q : x ∈ remove_first t q → x ∈ q.
Proof. intros Hx. eapply elem_of_submseteq; [exact Hx|apply remove_first_sub]. Qed.

Lemma keeps_remove_task c n t : keeps (sched_at c n) (remove_task t).
Proof.
  apply keeps_puts. intros k [Hi Hc]. split; [|done]. revert Hi. apply fewer_inv; [|intros [] x; cbn; [apply remove_first_elem|done|done]|done].
  unfold places. cbn [current ready_queue set_ready]. apply submseteq_app; [done|]. apply submseteq_app; [apply remove_first_sub|done].
Qed.

Lemma keeps_remove_timer c n t : keeps (sched_at c n) (remove_timer t).
Proof.
  apply keeps_puts. intros k [Hi Hc]. split; [|done]. revert Hi.
  assert (Hs : blocked (set_timers (filter (λ x, timer_task x ≠ t) (timers k)) k) ⊆+ blocked k).
  { unfold blocked. cbn [mutexes semaphores condvars timers set_timers]. do 3 (apply submseteq_app; [done|]).
    apply sublist_submseteq, fmap_sublist, sublist_filter. }
  apply fewer_inv; [|intros [] x; cbn; [done|done|intros Hx; by eapply elem_of_submseteq]|done].
  unfold places. apply submseteq_app; [done|]. by apply submseteq_app.
Qed.

Lemma keeps_stop c n t : keeps (sched_at c n) (add_stopping_task t).
Proof. apply keeps_puts. intros k [Hi Hc]. split; [|done]. revert Hi. by apply fewer_inv; [|intros []|]. Qed.

Section exit.
Context {St : Type}.

Lemma keeps_in_kernel {A} c p (m : M kernel A) : (∀ n, keeps (sched_at c n) m) → keeps (sys_at c) (in_process (St:=St) p (in_kernel m)).
Proof.
  intros Hm s a s' [Hi Ho] E. unfold in_process in E. mstep. destruct (pcbs s !! p) as [b|]; cbn [unwrap] in E; [|done].
  unfold in_kernel in E. cbn [t_kern process_view] in E. destruct (m (sys_kern s)) as [[x k]|] eqn:E1; [|done]. injection E as <- <-.
  split; [|done]. exact (Hm _ _ _ _ Hi E1).
Qed.

Lemma quiet_sys_at {A} c (m : M (system St) A) : quiet m → keeps (sys_at c) m.
Proof. apply (quiet_keeps m (core_at c)). Qed.
End exit.

#[export] Hint Resolve keeps_remove_task keeps_remove_timer keeps_stop keeps_in_kernel quiet_sys_at : hoare.

Section exits.
Context {St : Type}.

Lemma keeps_collect c p l : keeps (sys_at c) (collect_res (St:=St) p l).
Proof. induction l as [|[t|] l IH]; cbn [collect_res]; steps. Qed.
#[local] Hint Resolve keeps_collect : hoare.

Lemma take_current_gives c p : gives (sys_at c) (in_process (St:=St) p (in_kernel take_current_task)) (λ _, sys_at None).
Proof.
  intros s a s' [Hi Ho] E. unfold in_process in E. mstep. destruct (pcbs s !! p) as [b|]; cbn [unwrap] in E; [|done].
  unfold in_kernel in E. cbn [t_kern process_view] in E. destruct (take_current_task (sys_kern s)) as [[x k]|] eqn:E1; [|done].
  injection E as <- <-. split; [|done]. exact (proj2 (take_gives _ _ _ _ _ Hi E1)).
Qed.

Lemma exit_gives c initproc code : gives (sys_at c) (exit_current_and_run_next (St:=St) initproc code) (λ _, sys_at None).
Proof.
  unfold exit_current_and_run_next. pass (core_at c). eapply gives_bind; [apply take_current_gives|]. intros o.
  match goal with |- gives _ ?m _ => change (keeps (sys_at (St:=St) None) m) end. steps.
Qed.

Lemma keeps_waitpid c want ptr : keeps (sys_at c) (sys_waitpid (St:=St) want ptr).
Proof. unfold sys_waitpid, drop_pcb. steps. Qed.
End exits.

(** ** Synchronisation *)

(** The current task after a move. *)
Definition after_move (l : move) (c : option Z) : option Z :=
  match l with
  | Wake _ | Stay => c
  | Wait _ _ | Suspend _ _ => None
  | Run t => Some t
  end.

Lemma moves_sched l c n k k' : moves l k k' → sched_at c n k → sched_at (after_move l c) n k'.
Proof.
  intros Hm [Hi Hc]. split; [by eapply moves_inv|]. destruct l; cbn [moves after_move] in *; [destruct Hm as (-> & _); exact Hc|..];
    [apply Hm|apply Hm|apply Hm|destruct Hm as (-> & _); exact Hc].
Qed.

(** The task [t], if the call came back to it. *)
Definition still (t : Z) (b : bool) : option Z := if b then Some t else None.

Lemma mutex_lock_gives t n m : gives (sched_at (Some t) n) (mutex_lock m) (λ b, sched_at (still t b) n).
Proof.
  intros k b k' Hs E. pose proof Hs as [_ Hc]. destruct (mutexes k !! m) as [x|] eqn:Ex.
  2:{ unfold mutex_lock, get_mutex in E. mstep. by rewrite Ex in E. }
  destruct (mutex_lock_run m x k t Ex Hc) as (b' & k1 & E1 & Hr). rewrite E in E1. injection E1 as <- <-.
  destruct (is_locked x); [destruct x|]; destruct Hr as (-> & Hm & _); exact (moves_sched _ _ _ _ _ Hm Hs).
Qed.

Lemma keeps_unlock c n m : keeps (sched_at c n) (mutex_unlock m).
Proof.
  intros k [] k' [Hi Hc] E. destruct (mutex_unlock_changes 0 m k k' E) as [Hch Hcur]. split; [|congruence].
  by eapply changes_inv; [apply changes_one|].
Qed.

Lemma keeps_up c n s : keeps (sched_at c n) (sem_up s).
Proof.
  intros k [] k' Hs E. destruct (semaphores k !! s) as [x|] eqn:Ex; [|unfold sem_up, get_sem in E; mstep; by rewrite Ex in E].
  destruct (sem_up_run s x k Ex) as (k1 & E1 & Hr). rewrite E in E1. injection E1 as <-.
  destruct (_ <=? 0), (sem_queue x); destruct Hr as [Hm _]; exact (moves_sched _ _ _ _ _ Hm Hs).
Qed.

Lemma sem_down_gives t n s : gives (sched_at (Some t) n) (sem_down s) (λ b, sched_at (still t b) n).
Proof.
  intros k b k' Hs E. pose proof Hs as [_ Hc].
  destruct (semaphores k !! s) as [x|] eqn:Ex; [|unfold sem_down, get_sem in E; mstep; by rewrite Ex in E].
  destruct (sem_down_run s x k t Ex Hc) as (k1 & E1 & Hr). rewrite E in E1. injection E1 as -> <-.
  destruct (_ <? 0); destruct Hr as [Hm _]; exact (moves_sched _ _ _ _ _ Hm Hs).
Qed.

Lemma keeps_signal c n x : keeps (sched_at c n) (condvar_signal x).
Proof.
  intros k [] k' Hs E. destruct (condvars k !! x) as [q|] eqn:Ex; [|unfold condvar_signal, get_condvar in E; mstep; by rewrite Ex in E].
  destruct (condvar_signal_run x q k Ex) as (k1 & E1 & Hr). rewrite E in E1. injection E1 as <-.
  destruct q; [by subst|]. destruct Hr as [Hm _]. exact (moves_sched _ _ _ _ _ Hm Hs).
Qed.

Lemma condvar_wait_gives t n x m : gives (sched_at (Some t) n) (condvar_wait x m) (λ _, sched_at None n).
Proof.
  unfold condvar_wait. eapply gives_bind; [apply keeps_unlock|]. intros []. intros k [] k' Hs E. pose proof Hs as [_ Hc].
  unfold get_condvar, current_task in E. mstep. destruct (condvars k !! x) as [q|] eqn:Ex; cbn [unwrap] in E; [|done].
  rewrite Hc in E. cbn [unwrap] in E. destruct (condvar_enqueue_run x q k t (InWait x m) Ex Hc) as (k1 & E1 & Hm & _). mstep.
  rewrite E in E1. injection E1 as <-. exact (moves_sched _ _ _ _ _ Hm Hs).
Qed.

Lemma sleep_gives t n now ms : gives (sched_at (Some t) n) (sys_sleep now ms) (λ _, sched_at None n).
Proof.
  intros k [] k' Hs E. pose proof Hs as [_ Hc]. destruct (sys_sleep_run now ms k t Hc) as (k1 & E1 & Hm & _). rewrite E in E1.
  injection E1 as <-. exact (moves_sched _ _ _ _ _ Hm Hs).
Qed.

Lemma suspend_gives t n c : gives (sched_at (Some t) n) (suspend_current_and_run_next c) (λ _, sched_at None n).
Proof.
  intros k [] k' Hs E. pose proof Hs as [_ Hc]. destruct (suspend_run c k t Hc) as (k1 & E1 & Hm & _). rewrite E in E1.
  injection E1 as <-. exact (moves_sched _ _ _ _ _ Hm Hs).
Qed.

Lemma keeps_check_timer `{!Heap} c n now : keeps (sched_at c n) (check_timer now).
Proof.
  intros k [] k' [Hi Hc] E. unfold check_timer in E. mstep.
  destruct (check_timers_run (length (timers k)) now k) as (k1 & popped & E1 & Hw & _); [lia|]. rewrite E in E1. injection E1 as <-.
  destruct (wakes_changes _ _ _ Hw) as [Hch Hcur]. split; [by eapply changes_inv|congruence].
Qed.

Lemma run_next_gives n :
  gives (sched_at None n) run_next (λ o, sched_at (fst <$> o) n).
Proof.
  intros k o k' Hs E. pose proof Hs as [_ Hc]. pose proof (run_next_run k Hc) as Hr. destruct (ready_queue k) as [|t q].
  - rewrite E in Hr. by injection Hr as -> ->.
  - destruct Hr as (k1 & E1 & Hm & _). rewrite E in E1. injection E1 as -> <-. exact (moves_sched _ _ _ _ _ Hm Hs).
Qed.

(** New objects have no waiters. *)
Lemma sched_same c n k k' :
  current k' = current k → ready_queue k' = ready_queue k → blocked k' = blocked k → task_status k' = task_status k →
  sched_at c n k → sched_at c n k'.
Proof.
  intros Hc Hr Hb Hs [[[Hnd Hst] Hk] Hcur]. assert (Hp : places k' = places k) by (unfold places; by rewrite Hc, Hr, Hb).
  split; [split; [split|]|congruence].
  - by rewrite Hp.
  - intros st t Hat. rewrite Hs. apply Hst. destruct st; cbn in *; congruence.
  - intros t. rewrite Hp. apply Hk.
Qed.

Lemma keeps_new_mutex c n x :
  mutex_waiters x = [] → keeps (sched_at c n) (λ k, Ok (length (mutexes k), set_mutexes (mutexes k ++ [x]) k)).
Proof.
  intros Hx k a k' Hs [= <- <-]. revert Hs. apply sched_same; [done..| |done]. unfold blocked.
  cbn [mutexes semaphores condvars timers set_mutexes]. rewrite bind_app. cbn [mbind list_bind]. by rewrite Hx, !app_nil_r.
Qed.
Lemma keeps_new_sem c n x :
  sem_queue x = [] → keeps (sched_at c n) (λ k, Ok (length (semaphores k), set_semaphores (semaphores k ++ [x]) k)).
Proof.
  intros Hx k a k' Hs [= <- <-]. revert Hs. apply sched_same; [done..| |done]. unfold blocked.
  cbn [mutexes semaphores condvars timers set_semaphores]. rewrite bind_app. cbn [mbind list_bind]. by rewrite Hx, !app_nil_r.
Qed.
Lemma keeps_new_condvar c n : keeps (sched_at c n) (λ k, Ok (length (condvars k), set_condvars (condvars k ++ [Condvar_new]) k)).
Proof.
  intros k a k' Hs [= <- <-]. revert Hs. apply sched_same; [done..| |done]. unfold blocked.
  cbn [mutexes semaphores condvars timers set_condvars]. rewrite bind_app. cbn [mbind list_bind]. by rewrite !app_nil_r.
Qed.

(** The calls of a process. *)
Definition proc_at (c : option Z) (n : nat) (x : ksys) : Prop := sched_at c n (kern x).

Lemma on_kernel_gives {A} c n (m : M kernel A) (d : A → option Z) :
  gives (sched_at c n) m (λ a, sched_at (d a) n) → gives (proc_at c n) (on_kernel m) (λ a, proc_at (d a) n).
Proof.
  intros Hm x a x' Hx E. unfold on_kernel in E. destruct (m (kern x)) as [[y k]|] eqn:E1; [|done]. injection E as <- <-.
  exact (Hm _ _ _ Hx E1).
Qed.

Lemma keeps_on_kernel {A} c n (m : M kernel A) : keeps (sched_at c n) m → keeps (proc_at c n) (on_kernel m).
Proof. apply (on_kernel_gives c n m (λ _, c)). Qed.

Lemma keeps_put_proc c n p : keeps (proc_at c n) (put_proc p).
Proof. by apply keeps_puts. Qed.
Lemma keeps_get_proc c n : keeps (proc_at c n) get_proc.
Proof. apply keeps_gets. Qed.
Lemma keeps_current_task c n : keeps (sched_at c n) current_task.
Proof. apply keeps_gets. Qed.
#[export] Hint Resolve keeps_unlock keeps_up keeps_signal keeps_new_mutex keeps_new_sem keeps_new_condvar keeps_on_kernel
  keeps_put_proc keeps_get_proc keeps_current_task : hoare.

Lemma keeps_cur_tid c n : keeps (proc_at c n) cur_tid.
Proof. unfold cur_tid. steps. Qed.
#[export] Hint Resolve keeps_cur_tid : hoare.

Lemma keeps_mutex_create c n b : keeps (proc_at c n) (sys_mutex_create b).
Proof. unfold sys_mutex_create. steps. apply keeps_on_kernel, keeps_new_mutex. by destruct b. Qed.
Lemma keeps_mutex_unlock c n m : keeps (proc_at c n) (sys_mutex_unlock m).
Proof. unfold sys_mutex_unlock. steps. Qed.
Lemma keeps_sem_create c n x : keeps (proc_at c n) (sys_semaphore_create x).
Proof. unfold sys_semaphore_create. steps. Qed.
Lemma keeps_sem_up c n x : keeps (proc_at c n) (sys_semaphore_up x).
Proof. unfold sys_semaphore_up. steps. Qed.
Lemma keeps_condvar_create c n : keeps (proc_at c n) sys_condvar_create.
Proof. unfold sys_condvar_create. steps. Qed.
Lemma keeps_condvar_signal c n x : keeps (proc_at c n) (sys_condvar_signal x).
Proof. unfold sys_condvar_signal. steps. Qed.
Lemma keeps_detect c n x : keeps (proc_at c n) (sys_enable_deadlock_detect x).
Proof. unfold sys_enable_deadlock_detect. steps. Qed.

(** Whether the call has a result yet. *)
Definition returned {A} (t : Z) (o : option A) : option Z := still t (bool_decide (is_Some o)).

Lemma mutex_lock_call t n m : gives (proc_at (Some t) n) (sys_mutex_lock m) (λ o, proc_at (returned t o) n).
Proof.
  unfold sys_mutex_lock. eapply gives_bind; [apply keeps_get_proc|]. intros p. eapply gives_bind; [apply keeps_lift|]. intros x.
  eapply gives_bind; [apply keeps_cur_tid|]. intros tid. eapply gives_bind; [apply keeps_lift|]. intros [al ne].
  eapply gives_bind; [apply keeps_put_proc|]. intros ?. eapply gives_bind; [instantiate (1 := λ _, proc_at (Some t) n); change (keeps (proc_at (Some t) n) (if deadlock_detect p then lift (mutex_deadlock p m al ne) else mret false)); steps|].
  intros [|]; [by apply gives_ret|]. do 3 (eapply gives_bind; [apply keeps_lift|]; intros ?).
  eapply gives_bind; [apply keeps_put_proc|]. intros ?. eapply gives_bind; [apply (on_kernel_gives _ _ _ (still t)), mutex_lock_gives|].
  intros b. apply gives_ret. by destruct b.
Qed.

Lemma sem_down_call t n x : gives (proc_at (Some t) n) (sys_semaphore_down x) (λ o, proc_at (returned t o) n).
Proof.
  unfold sys_semaphore_down. eapply gives_bind; [apply keeps_get_proc|]. intros p. eapply gives_bind; [apply keeps_lift|]. intros s.
  eapply gives_bind; [apply keeps_cur_tid|]. intros tid. do 2 (eapply gives_bind; [apply keeps_lift|]; intros ?).
  eapply gives_bind; [instantiate (1 := λ _, proc_at (Some t) n); destruct (deadlock_detect p); [apply keeps_lift|apply keeps_ret]|].
  intros [st dead]. eapply gives_bind; [apply keeps_put_proc|]. intros ?. destruct dead; [by apply gives_ret|].
  eapply gives_bind; [apply keeps_lift|]. intros ?. eapply gives_bind; [instantiate (1 := λ _, proc_at (Some t) n)|].
  { match goal with |- gives _ ?m _ => change (keeps (proc_at (Some t) n) m) end. steps. }
  intros ?. eapply gives_bind; [apply (on_kernel_gives _ _ _ (still t)), sem_down_gives|]. intros b. apply gives_ret. by destruct b.
Qed.

Lemma condvar_wait_call t n x m : gives (proc_at (Some t) n) (sys_condvar_wait x m;; mret (@None Z)) (λ o, proc_at (returned t o) n).
Proof.
  apply (gives_bind _ _ (λ _, proc_at None n)); [|intros ?; by apply gives_ret]. unfold sys_condvar_wait. eapply gives_bind; [apply keeps_get_proc|]. intros p.
  do 2 (eapply gives_bind; [apply keeps_lift|]; intros ?). apply (on_kernel_gives _ _ _ (λ _, None)), condvar_wait_gives.
Qed.

(** ** Threads *)

Lemma tquiet_get t c : keeps (λ x, tcore x = c) (get_tcb t).
Proof. unfold get_tcb. steps. Qed.
Lemma tquiet_set_proc p c : keeps (λ x, tcore x = c) (set_proc p).
Proof. by apply keeps_puts. Qed.
Lemma tquiet_current c : keeps (λ x, tcore x = c) (in_kernel current_task).
Proof. intros x a x' <- E. by injection E as <- <-. Qed.
#[export] Hint Resolve tquiet_get tquiet_set_proc tquiet_current : hoare.

Lemma tquiet_release o c : keeps (λ x, tcore x = c) (release_slot o).
Proof. unfold release_slot. steps. Qed.
Lemma tquiet_res c : keeps (λ x, tcore x = c) current_res.
Proof. unfold current_res. steps. Qed.
#[export] Hint Resolve tquiet_release tquiet_res : hoare.

Lemma quiet_gettid {St} p : quiet (St:=St) (in_process p sys_gettid).
Proof. apply quiet_process. intros c. unfold sys_gettid. steps. Qed.
Lemma quiet_waittid {St} p x : quiet (St:=St) (in_process p (sys_waittid x)).
Proof. apply quiet_process. intros c. unfold sys_waittid. steps. Qed.
#[export] Hint Resolve quiet_gettid quiet_waittid : hoare.

Lemma thread_create_gives us hv entry arg k n :
  gives (λ x, tcore x = (k, n)) (sys_thread_create us hv entry arg)
    (λ _ x, tcore x = (let t := Z.of_nat n in let k := set_status t Ready k in set_ready (ready_queue k ++ [t]) k, S n)).
Proof.
  unfold sys_thread_create. eapply gives_bind; [apply tquiet_res|]. intros r. eapply gives_bind; [apply new_task_gives|]. intros t.
  eapply gives_bind.
  - instantiate (1 := λ _ x, tcore x = (set_ready (ready_queue k ++ [Z.of_nat n]) (set_status (Z.of_nat n) Ready k), S n)).
    intros x a x' [[= Hk Hn] ->] E. unfold in_kernel, add_task in E. mstep. injection E as <- <-. unfold tcore. cbn. by rewrite Hk, Hn.
  - intros ?. match goal with |- gives ?P ?m _ => change (keeps P m) end. steps.
Qed.

(** The calls of the machine. *)
Section machine.
Context {St : Type}.
Implicit Types ma : machine St.

Definition m_at (c : option Z) ma : Prop := sys_at c (sys ma).

Lemma in_system_gives {A} c (m : M (system St) A) (d : A → option Z) :
  gives (sys_at c) m (λ a, sys_at (d a)) → gives (m_at c) (in_system m) (λ a, m_at (d a)).
Proof.
  intros Hm ma a ma' Hs E. unfold in_system in E. mstep. destruct (m (sys ma)) as [[x s]|] eqn:E1; [|done].
  injection E as <- <-. exact (Hm _ _ _ Hs E1).
Qed.

Lemma keeps_in_system {A} c (m : M (system St) A) : keeps (sys_at c) m → keeps (m_at c) (in_system m).
Proof. apply (in_system_gives c m (λ _, c)). Qed.

Lemma on_kern_gives {A} c (m : M kernel A) (d : A → option Z) :
  (∀ n, gives (sched_at c n) m (λ a, sched_at (d a) n)) → gives (m_at c) (on_kern m) (λ a, m_at (d a)).
Proof.
  intros Hm. apply in_system_gives. intros s a s' [Hs Ho] E. mstep. destruct (m (sys_kern s)) as [[x k]|] eqn:E1; [|done].
  injection E as <- <-. split; [|done]. exact (Hm _ _ _ _ Hs E1).
Qed.

Lemma keeps_on_kern {A} c (m : M kernel A) : (∀ n, keeps (sched_at c n) m) → keeps (m_at c) (on_kern m).
Proof. apply (on_kern_gives c m (λ _, c)). Qed.

Lemma keeps_in_files {A} c p (m : M (fsys St) A) : keeps (m_at c) (in_files p m).
Proof.
  intros ma a ma' Hs E. unfold in_files in E. mstep. destruct (pcbs (sys ma) !! p) as [b|]; cbn [unwrap] in E; [|done].
  destruct (m (file_view p b ma)) as [[x f]|]; [|done]. injection E as <- <-. exact Hs.
Qed.

Lemma in_sync_gives {A} c p (m : M ksys A) (d : A → option Z) :
  (∀ n, gives (proc_at c n) m (λ a, proc_at (d a) n)) → gives (m_at c) (in_sync p m) (λ a, m_at (d a)).
Proof.
  intros Hm. apply in_system_gives. intros s a s' [Hs Ho] E. mstep. destruct (pcbs s !! p) as [b|]; cbn [unwrap] in E; [|done].
  match type of E with context [m ?v] => destruct (m v) as [[x y]|] eqn:E1; [|done] end.
  injection E as <- <-. split; [|done]. refine (Hm _ _ _ _ _ E1). exact Hs.
Qed.

Lemma keeps_in_sync {A} c p (m : M ksys A) : (∀ n, keeps (proc_at c n) m) → keeps (m_at c) (in_sync p m).
Proof. apply (in_sync_gives c p m (λ _, c)). Qed.

Lemma keeps_leave c t x : keeps (m_at c) (leave t x).
Proof. by apply keeps_puts. Qed.
Lemma keeps_trigger c time : keeps (m_at c) (set_next_trigger time).
Proof. by apply keeps_puts. Qed.
Lemma keeps_push c p : keeps (m_at c) (push_ref p).
Proof. apply keeps_in_system. by apply keeps_puts. Qed.
Lemma keeps_pop c p : keeps (m_at c) (pop_ref p).
Proof. apply keeps_in_system. by apply keeps_puts. Qed.
End machine.

#[export] Hint Resolve keeps_in_system keeps_on_kern keeps_in_files keeps_in_sync keeps_leave keeps_trigger keeps_push keeps_pop
  keeps_check_timer keeps_mutex_create keeps_mutex_unlock keeps_sem_create keeps_sem_up keeps_condvar_create keeps_condvar_signal
  keeps_detect keeps_waitpid keeps_exec keeps_fork : hoare.

(** ** Traps *)

(** The current task after a piece of the kernel that task [t] runs. *)
Definition after_turn {A} (t : Z) (r : turn A) : option Z :=
  match r with
  | Back _ => Some t
  | Away | Halted _ => None
  end.

Section serves.
Context {St : Type}.
Implicit Types ma : machine St.

(** Code of the kernel on behalf of the task [t]. *)
Definition serves {A} (t : Z) (m : M (machine St) (turn A)) : Prop := gives (m_at (Some t)) m (λ r, m_at (after_turn t r)).

Lemma serves_bind {A B} t (m : M (machine St) A) (f : A → M (machine St) (turn B)) :
  keeps (m_at (Some t)) m → (∀ a, serves t (f a)) → serves t (m ≫= f).
Proof. intros. by eapply gives_bind. Qed.

Lemma serves_back {A} t (a : A) : serves t (mret (Back a)).
Proof. by apply gives_ret. Qed.

Lemma serves_throw {A} t f : serves (A:=A) t (throw f).
Proof. apply gives_throw. Qed.

Lemma serves_value t (m : M (machine St) Z) : keeps (m_at (Some t)) m → serves t (value m).
Proof. intros Hm. apply serves_bind; [exact Hm|]. intros a. apply serves_back. Qed.

(** The task gives the processor away at the end. *)
Lemma away_gives {A} t (m : M (machine St) A) {B} (f : A → M (machine St) (turn B)) :
  gives (m_at (Some t)) m (λ _, m_at None) → (∀ a, gives (m_at None) (f a) (λ r ma, m_at None ma ∧ after_turn t r = None)) → serves t (m ≫= f).
Proof.
  intros Hm Hf. eapply gives_bind; [exact Hm|]. intros a. eapply gives_weaken; [apply Hf|done|]. by intros r ma [Hma ->].
Qed.

Lemma suspend_serves {B} t : serves (A:=B) t (on_kern (suspend_current_and_run_next AtUser);; mret Away).
Proof. apply away_gives; [apply (on_kern_gives _ _ (λ _, None)); intros n; apply suspend_gives|]. intros ?. by apply gives_ret. Qed.

Lemma keeps_the_task c : keeps (m_at c) (the_task (St:=St)).
Proof. unfold the_task. steps. Qed.
#[local] Hint Resolve keeps_the_task : hoare.

Lemma keeps_trap_cx c : keeps (m_at c) (current_trap_cx (St:=St)).
Proof. unfold current_trap_cx. steps. Qed.
Lemma keeps_read_word c ppn i : keeps (m_at c) (read_trap_word (St:=St) ppn i).
Proof. unfold read_trap_word. steps. Qed.
Lemma keeps_write_word c ppn i x : keeps (m_at c) (write_trap_word (St:=St) ppn i x).
Proof. unfold write_trap_word. steps. Qed.
#[local] Hint Resolve keeps_trap_cx keeps_read_word keeps_write_word : hoare.

Lemma file_call_serves t p m : serves t (file_call (St:=St) p m).
Proof.
  unfold file_call. do 2 (apply serves_bind; [eauto with hoare|]; intros ?). destruct a0; [apply serves_back|].
  do 2 (apply serves_bind; [eauto with hoare|]; intros ?). apply suspend_serves.
Qed.

Lemma sync_call_serves t p ref m :
  (∀ n, gives (proc_at (Some t) n) m (λ o, proc_at (returned t o) n)) → serves t (sync_call (St:=St) p ref m).
Proof.
  intros Hm. unfold sync_call. apply serves_bind; [eauto with hoare|]. intros t'.
  eapply gives_bind; [by apply (in_sync_gives _ _ _ (returned t))|]. intros [r|]; [by apply gives_ret|].
  eapply gives_bind; [instantiate (1 := λ _, m_at None); destruct ref; [apply keeps_push|apply keeps_ret]|]. intros ?.
  eapply gives_bind; [apply keeps_leave|]. intros ?. by apply gives_ret.
Qed.

Lemma kernel_call_serves t m : (∀ n, gives (sched_at (Some t) n) m (λ _, sched_at None n)) → serves t (kernel_call (St:=St) m).
Proof.
  intros Hm. unfold kernel_call. apply serves_bind; [eauto with hoare|]. intros t'.
  apply away_gives; [by apply (on_kern_gives _ _ (λ _, None))|]. intros ?.
  eapply gives_bind; [apply keeps_leave|]. intros ?. by apply gives_ret.
Qed.

Lemma exit_call_serves {A} t initproc code : serves t (exit_call (St:=St) (A:=A) initproc code).
Proof.
  unfold exit_call. apply away_gives; [apply (in_system_gives _ _ (λ _, None)), exit_gives|]. intros []; by apply gives_ret.
Qed.

Lemma keeps_thread_create c p us hv entry arg :
  keeps (m_at c) (t ← in_system (in_process (St:=St) p (sys_thread_create us hv entry arg));
                  in_system (puts (λ s, set_owners (owners s ++ [p]) s));; mret t).
Proof.
  intros ma a ma' Hs E. unfold in_system in E. mstep.
  destruct (in_process p (sys_thread_create us hv entry arg) (sys ma)) as [[t s]|] eqn:E1; [|done]. injection E as <- <-.
  destruct (core (sys ma)) as [[k n] o] eqn:Ec.
  destruct (in_process_gives p _ k n o (λ _ c, c = (_, S n)) (thread_create_gives us hv entry arg k n) _ _ _ Ec E1)
    as (k' & n' & Hc & [= -> ->]).
  injection Hc as Hk Hn Ho. unfold m_at, sys_at in Hs |- *. rewrite Ec in Hs.
  pose proof (fresh_add _ _ _ _ _ (core_at_new _ _ _ _ _ Hs eq_refl)) as Hf.
  unfold core. cbn. rewrite length_app, Hk, Hn, Ho. replace (o + length [p])%nat with (S o) by (cbn; lia). exact Hf.
Qed.

Lemma trap_return_serves t : serves t (trap_return (St:=St)).
Proof. unfold trap_return. do 5 (apply serves_bind; [eauto with hoare|]; intros ?). apply serves_back. Qed.

Lemma check_signals_serves t initproc : serves t (check_signals (St:=St) initproc).
Proof.
  unfold check_signals. apply serves_bind; [eauto with hoare|]. intros [errno|]; [apply exit_call_serves|apply trap_return_serves].
Qed.

Lemma finish_serves t initproc r : serves t (finish_call (St:=St) initproc r).
Proof. unfold finish_call. do 2 (apply serves_bind; [eauto with hoare|]; intros ?). apply check_signals_serves. Qed.

Section code.
Context `{BlockStore St} {HH : Heap}.
Context (strampoline : Z) (ElfFile_new : list Z → option ElfFile) (user_sstatus handler_va : Z).
Context (efs : EasyFileSystem) (root : Inode) (initproc : nat) (fuel : nat).

Lemma syscall_serves t time id a0 a1 a2 a3 :
  serves t (syscall strampoline ElfFile_new user_sstatus handler_va efs root initproc fuel time id a0 a1 a2 a3).
Proof.
  unfold syscall. do 2 (apply serves_bind; [eauto with hoare|]; intros ?). cbv zeta.
  repeat match goal with
    | |- serves _ (if ?b then _ else _) => destruct b
    | |- serves _ (value _) => apply serves_value; first [apply keeps_thread_create|eauto 6 with hoare]
    | |- serves _ (file_call _ _) => apply file_call_serves
    | |- serves _ (kernel_call _) => apply kernel_call_serves; intros n; first [apply sleep_gives|apply suspend_gives]
    | |- serves _ (sync_call _ _ _) =>
        apply sync_call_serves; intros n; first [apply mutex_lock_call|apply sem_down_call|apply condvar_wait_call]
    | |- serves _ (sys_exit _ _) => apply exit_call_serves
    | |- serves _ sys_yield => apply kernel_call_serves; intros n; apply suspend_gives
    | |- serves _ (throw _) => apply serves_throw
    end.
Qed.

Lemma user_env_call_serves t time :
  serves t (user_env_call strampoline ElfFile_new user_sstatus handler_va efs root initproc fuel time).
Proof. unfold user_env_call. do 8 (apply serves_bind; [eauto with hoare|]; intros ?). apply syscall_serves. Qed.

Lemma trap_serves t time cause :
  serves t (trap_handler strampoline ElfFile_new user_sstatus handler_va efs root initproc fuel time cause).
Proof.
  unfold trap_handler. destruct cause; [|solve [apply serves_bind; [eauto with hoare|]; intros ?; apply check_signals_serves]..| |].
  - eapply gives_bind; [apply user_env_call_serves|]. intros [r| |code]; cbn [after_turn];
      [apply finish_serves|by apply gives_ret|by apply gives_ret].
  - do 4 (apply serves_bind; [eauto with hoare|]; intros ?). apply suspend_serves.
  - apply serves_throw.
Qed.

(** The idle loop starts some task. *)
Lemma idle_gives :
  gives (m_at None) (idle initproc) (λ r ma, match r with Back _ => ∃ t, m_at (Some t) ma | _ => m_at None ma end).
Proof.
  unfold idle. eapply gives_bind; [apply (on_kern_gives _ _ (λ o, fst <$> o)); intros n; apply run_next_gives|].
  intros [[t c]|]; [|by apply gives_ret]. cbn [fmap option_fmap option_map fst].
  apply (gives_weaken (m_at (Some t)) _ _ _ (λ r, m_at (after_turn t r))); [|done|intros [] ma; cbn [after_turn]; eauto].
  apply serves_bind; [eauto with hoare|]. intros rest. apply serves_bind; [by apply keeps_puts|]. intros _.
  destruct rest as [[|ref|p w]|]; [apply check_signals_serves| | |apply trap_return_serves].
  - eapply gives_bind.
    { instantiate (1 := λ b, m_at (still t b)).
      destruct c; try (by apply gives_ret); apply (on_kern_gives _ _ (still t)); intros n; apply mutex_lock_gives. }
    intros [|]; cbn [still].
    + apply serves_bind; [destruct ref; eauto with hoare|]. intros ?. apply finish_serves.
    + eapply gives_bind; [apply keeps_leave|]. intros ?. by apply gives_ret.
  - apply serves_bind; [eauto with hoare|]. intros [r|w'].
    + apply serves_bind; [eauto with hoare|]. intros ?. apply finish_serves.
    + apply serves_bind; [eauto with hoare|]. intros ?. apply suspend_serves.
Qed.

(** ** Histories of the machine *)

(** In user mode, in the idle loop, or switched off. *)
Inductive mode := User (cx satp : Z) | Idle | Off.

Definition mode_of (r : turn (Z * Z)) : mode :=
  match r with
  | Back (cx, satp) => User cx satp
  | Away => Idle
  | Halted _ => Off
  end.

(** What happens: programs write to memory, characters arrive, a program traps, the
    idle loop makes a turn. *)
Inductive happens : mode * machine St → mode * machine St → Prop :=
  | ProgramWrites cx satp ma k : happens (User cx satp, ma) (User cx satp, set_sys (set_memory k (sys ma)) ma)
  | InputArrives mo ma l :
      happens (mo, ma) (mo, mkMachine (sys ma) (m_rings ma) (file_refs ma) l (m_printed ma) (unfinished ma) (next_trigger ma))
  | ProgramTraps cx satp ma time cause r ma' :
      trap_handler strampoline ElfFile_new user_sstatus handler_va efs root initproc fuel time cause ma = Ok (r, ma') →
      happens (User cx satp, ma) (mode_of r, ma')
  | IdleTurns ma r ma' : idle initproc ma = Ok (r, ma') → happens (Idle, ma) (mode_of r, ma').

(** A task is at one place, running, ready or waiting, at most, and has the status of
    that place; each task at a place has a control block and a process; a task is
    current if and only if a program runs. *)
Record tasks_in_order (x : mode * machine St) : Prop := {
  to_places : NoDup (places (sys_kern (sys x.2)));
  to_status st t : at_place (sys_kern (sys x.2)) st t → task_status (sys_kern (sys x.2)) !! t = Some st;
  to_block t : t ∈ places (sys_kern (sys x.2)) → ∃ tcb, sys_tcbs (sys x.2) !! Z.to_nat t = Some tcb;
  to_owner t : t ∈ places (sys_kern (sys x.2)) → ∃ p, owners (sys x.2) !! Z.to_nat t = Some p;
  to_counts : length (owners (sys x.2)) = length (sys_tcbs (sys x.2));
  to_range t : t ∈ places (sys_kern (sys x.2)) → 0 ≤ t;
  to_mode : match x.1 with
            | User _ _ => is_Some (current (sys_kern (sys x.2)))
            | Idle | Off => current (sys_kern (sys x.2)) = None
            end;
}.

Definition fits (mo : mode) ma : Prop :=
  match mo with
  | User _ _ => ∃ t, m_at (Some t) ma
  | Idle | Off => m_at None ma
  end.

Lemma fits_iff mo ma : tasks_in_order (mo, ma) ↔ fits mo ma.
Proof.
  split.
  - intros [Hn Hs Hb _ Hc Hr Hm]. cbn [fst snd] in *.
    assert (Hi : sched_inv (length (sys_tcbs (sys ma))) (sys_kern (sys ma))).
    { split; [done|]. intros t Ht. specialize (Hr t Ht). destruct (Hb t Ht) as [tcb E%lookup_lt_Some]. lia. }
    destruct mo; cbn [fits]; [destruct Hm as [t Ht]; exists t|..]; (split; [split; [exact Hi|done]|exact Hc]).
  - assert (Hg : ∀ c, m_at c ma → current (sys_kern (sys ma)) = c ∧
      (match mo with User _ _ => is_Some c | _ => c = None end → tasks_in_order (mo, ma))).
    { intros c [[[[Hn Hs] Hk] Hc] Ho]. cbn in Hn, Hs, Hk, Hc, Ho. split; [done|]. intros Hm. split; cbn [fst snd]; try done.
      - intros t Ht%Hk. apply lookup_lt_is_Some. lia.
      - intros t Ht%Hk. apply lookup_lt_is_Some. lia.
      - intros t Ht%Hk. lia.
      - by destruct mo; rewrite Hc. }
    destruct mo; cbn [fits]; [intros [t Ht]; apply (Hg _ Ht); eauto|intros Ht; by apply (Hg _ Ht)..].
Qed.

Lemma happens_fits x y : happens x y → fits x.1 x.2 → fits y.1 y.2.
Proof.
  intros Hh. destruct Hh as [cx satp ma k|mo ma l|cx satp ma time cause r ma' E|ma r ma' E]; cbn [fst snd]; [done|by destruct mo|..].
  - intros [t Ht]. pose proof (trap_serves t time cause ma r ma' Ht E) as Hr. destruct r as [[? ?]| |]; cbn in *; eauto.
  - intros Ht. pose proof (idle_gives ma r ma' Ht E) as Hr. by destruct r as [[? ?]| |].
Qed.

(** The machine as [rust_main] leaves it, when it started without tasks. *)
Definition no_tasks ma : Prop :=
  places (sys_kern (sys ma)) = [] ∧ sys_tcbs (sys ma) = [] ∧ owners (sys ma) = [].

Lemma keeps_rust_main time :
  keeps (m_at None) (rust_main strampoline ElfFile_new user_sstatus handler_va efs root time).
Proof.
  unfold rust_main, add_initproc, INITPROC, list_apps. apply keeps_bind; [apply keeps_trigger|intros _].
  apply keeps_bind; [apply keeps_in_system, quiet_sys_at, quiet_disk|intros names].
  apply keeps_bind; [apply keeps_in_system|intros ?; apply keeps_ret].
  apply keeps_bind; [|intros ?; apply keeps_ret]. apply keeps_bind; [apply quiet_sys_at, quiet_disk|intros o].
  apply keeps_bind; [apply keeps_lift|intros i]. apply keeps_bind; [apply quiet_sys_at|intros v; apply process_new_gives].
  intros x s y s' <- E. mstep. destruct (read_all _ (sys_disk s)) as [[[? ?] ?]|]; [|done]. by injection E as <- <-.
Qed.

Lemma boot_fits ma time names ma' :
  no_tasks ma → rust_main strampoline ElfFile_new user_sstatus handler_va efs root time ma = Ok (names, ma') → fits Idle ma'.
Proof.
  intros (Hp & Ht & Ho). apply keeps_rust_main. unfold m_at, sys_at, core. rewrite Ht, Ho. split; [|done]. split.
  - split; [split|]; cbn [fst snd].
    + rewrite Hp. constructor.
    + intros st t Hat. assert (Hin : t ∈ places (sys_kern (sys ma))) by (apply elem_of_places; by exists st).
      rewrite Hp in Hin. by apply not_elem_of_nil in Hin.
    + intros t. rewrite Hp. intros []%not_elem_of_nil.
  - cbn. unfold places in Hp. by destruct (Threads.current (sys_kern (sys ma))).
Qed.

(** C2: whatever programs do, the kernel keeps its tasks in order.  The start of the
    kernel makes the first process and leaves the tasks in order; and from there, in
    every state that the machine reaches by memory writes of programs, console input, traps with any
    cause and any registers (so every system call with any arguments, every fault and
    every timer interrupt) and turns of the idle loop, no task is at two places of
    the scheduler, the status of each task there is that of its place, all of them
    have their control block and their process, and the processor has a current task
    exactly when it is in user mode. *)
Theorem kernel_in_order :
  (∀ ma time names ma', no_tasks ma →
     rust_main strampoline ElfFile_new user_sstatus handler_va efs root time ma = Ok (names, ma') → tasks_in_order (Idle, ma')) ∧
  (∀ x y, tasks_in_order x → rtc happens x y → tasks_in_order y).
Proof.
  split; [intros ma time names ma' Hn E; apply fits_iff; by eapply boot_fits|]. intros x y Hx Hr. induction Hr as [|x y z Hh _ IH]; [done|]. apply IH. destruct x, y.
  apply fits_iff. apply fits_iff in Hx. exact (happens_fits _ _ Hh Hx).
Qed.
End code.
End serves.

(** ** Example *)

#[local] Existing Instance no_disk.
#[local] Existing Instance first_heap.

(** A process with two threads; the second has not run yet. *)
Definition pair_world : world := mkWorld (mkMS (mkPT 1 []) []) RA_new (mkMS (mkPT 2 []) []) RA_new (mkKmem ∅ FA_new).
Definition pair_machine : machine unit :=
  mkMachine
    (mkSystem [solo_pcb pair_world] {[0 := 0%nat]} (mkRA 1 []) (kernel_space pair_world) RA_new (memory pair_world)
       [solo_tcb 8; mkTCB 8 (Some (mkRes 1 0x20000)) 9 None] [0%nat; 0%nat]
       (mkKernel [1] None (Some 0) {[0 := Running; 1 := Ready]} ∅ [] [] [] []) [] tt [])
    [] [] [] [] ∅ 0.

Lemma pair_in_order cx satp : tasks_in_order (User cx satp, pair_machine).
Proof.
  apply fits_iff. exists 0. split; [|done]. split; [split; [split|]|done]; cbn.
  - by apply (bool_decide_unpack (NoDup [0; 1])).
  - intros [] t; cbn; [intros ->%list_elem_of_singleton|intros [= <-]|intros []%not_elem_of_nil]; reflexivity.
  - intros t [->|[->|[]%not_elem_of_nil]%elem_of_cons]%elem_of_cons; lia.
Qed.

(** A timer interrupt gives the processor to the second thread. *)
Lemma kernel_in_order_witness :
  ∃ cx satp ma,
    rtc (happens 0 (λ _, None) 0 0 no_efs no_root 0 0) (User 0 0, pair_machine) (User cx satp, ma) ∧
    tasks_in_order (User cx satp, ma) ∧ current (sys_kern (sys ma)) = Some 1 ∧ ready_queue (sys_kern (sys ma)) = [0].
Proof.
  destruct (trap_handler 0 (λ _, None) 0 0 no_efs no_root 0 0 1000 SupervisorTimer pair_machine) as [[r1 ma1]|] eqn:E1;
    vm_compute in E1; [injection E1 as Hr1 Hm1|discriminate E1].
  assert (E1 : trap_handler 0 (λ _, None) 0 0 no_efs no_root 0 0 1000 SupervisorTimer pair_machine = Ok (r1, ma1))
    by (subst; vm_compute; reflexivity).
  destruct (idle 0 ma1) as [[r2 ma2]|] eqn:E2; [|exfalso; subst; by vm_compute in E2].
  assert (Hr : rtc (happens 0 (λ _, None) 0 0 no_efs no_root 0 0) (User 0 0, pair_machine) (mode_of r2, ma2)).
  { eapply rtc_l; [by eapply ProgramTraps|]. rewrite <- Hr1. eapply rtc_l; [by eapply IdleTurns|]. apply rtc_refl. }
  pose proof (proj2 (kernel_in_order 0 (λ _, None) 0 0 no_efs no_root 0 0) _ _ (pair_in_order 0 0) Hr) as Ho.
  subst ma1. vm_compute in E2. injection E2 as <- <-. cbn [mode_of] in Hr, Ho. eauto 10.
Defined.
