(* ===== verification/Deadlock.v ===== *)
(** * The search for deadlocks (os/src/syscall/sync.rs)

    The search of [sys_semaphore_down] is shown to decide exactly whether the
    threads of a process can all finish in some order, each when the units that
    are free and those of the threads before it cover its need; the search of
    [sys_mutex_lock] is shown to be much weaker.  The bookkeeping of the two
    calls, and what it loses, is described by the last theorems. *)

From S2P Require Import Prelude Threads Sync SyncSpec SyncCalls.

(** ** Tables as functions *)

(** An entry of a table; entries that have not been pushed yet are 0. *)
Definition entry (table : list (list Z)) (i j : nat) : Z := default 0 (row ← table !! i; row !! j).

Definition total (alloc : nat → nat → Z) (l : list nat) (j : nat) : Z :=
  foldr (λ i s, alloc i j + s) 0 l.

Lemma total_app alloc l k j : total alloc (l ++ k) j = total alloc l j + total alloc k j.
Proof. unfold total. induction l as [|i l IH]; simpl; [done|]. rewrite IH. lia. Qed.

Lemma total_snoc alloc l i j : total alloc (l ++ [i]) j = total alloc l j + alloc i j.
Proof. rewrite total_app. unfold total at 2. simpl. lia. Qed.

Lemma total_perm alloc l k j : l ≡ₚ k → total alloc l j = total alloc k j.
Proof. unfold total. induction 1; simpl; lia. Qed.

Lemma total_nonneg alloc l j : (∀ i, 0 ≤ alloc i j) → 0 ≤ total alloc l j.
Proof. intros Ha. unfold total. induction l as [|i l IH]; simpl; [lia|]. specialize (Ha i). lia. Qed.

Lemma total_sub alloc l k j :
  (∀ i, 0 ≤ alloc i j) → NoDup l → (∀ i, i ∈ l → i ∈ k) → total alloc l j ≤ total alloc k j.
Proof.
  intros Ha Hnd Hin. destruct (submseteq_Permutation l k) as [r Hr]; [by apply NoDup_submseteq|].
  rewrite (total_perm _ _ _ _ Hr), total_app. pose proof (total_nonneg alloc r j Ha). lia.
Qed.

(** ** What a safe state is *)

Section safety.
(** [n] threads and [m] resources; the free units, the needs and the units in
    use. *)
Context (n m : nat) (avail : nat → Z) (need alloc : nat → nat → Z).

(** Each thread of the list can finish after the threads before it. *)
Definition finishes (order : list nat) : Prop :=
  ∀ k i j, order !! k = Some i → (j < m)%nat → need i j ≤ avail j + total alloc (take k order) j.

(** All threads can finish, in some order. *)
Definition safe : Prop := ∃ order, order ≡ₚ seq 0 n ∧ finishes order.

Lemma finishes_snoc l i :
  finishes l → (∀ j, (j < m)%nat → need i j ≤ avail j + total alloc l j) → finishes (l ++ [i]).
Proof.
  intros Hl Hi k i' j Hk Hj. destruct (decide (k < length l)%nat) as [Hlt|Hge].
  - rewrite lookup_app_l in Hk by done. rewrite take_app_le by lia. by apply Hl.
  - apply lookup_snoc_Some in Hk as [[? _]|[-> <-]]; [lia|].
    rewrite take_app_length. by apply Hi.
Qed.

(** If the threads of [done] can finish and no other thread can after them, the
    state is safe only when [done] has all threads. *)
Lemma finishes_stuck done :
  (∀ i j, 0 ≤ alloc i j) → NoDup done → (∀ i, i ∈ done → (i < n)%nat) → finishes done →
  (∀ i, (i < n)%nat → i ∉ done → ∃ j, (j < m)%nat ∧ avail j + total alloc done j < need i j) →
  safe ↔ ∀ i, (i < n)%nat → i ∈ done.
Proof.
  intros Ha Hnd Hlt Hf Hstuck. split.
  - intros (order & Hp & Ho) i Hi. destruct (decide (i ∈ done)) as [|Hni]; [done|exfalso].
    assert (Hall : Forall (λ x, x ∈ done) order ∨ ¬ Forall (λ x, x ∈ done) order)
      by (destruct (decide (Forall (λ x, x ∈ done) order)); auto).
    destruct Hall as [Hall|Hall].
    { rewrite Forall_forall in Hall. apply Hni, Hall. rewrite Hp. apply elem_of_seq. lia. }
    assert (Hfirst : ∃ k x, order !! k = Some x ∧ (x ∉ done) ∧ Forall (λ y, y ∈ done) (take k order)).
    { clear -Hall. induction order as [|y order IH]; [by destruct Hall|].
      destruct (decide (y ∈ done)) as [Hy|Hy]; [|by exists O, y].
      destruct IH as (k & x & Hk & Hx & Hpre); [by intros ?; apply Hall; constructor|].
      exists (S k), x. split; [done|]. split; [done|]. by constructor. }
    destruct Hfirst as (k & x & Hk & Hx & Hpre).
    assert (Hxn : (x < n)%nat).
    { apply list_elem_of_lookup_2 in Hk. rewrite Hp in Hk. apply elem_of_seq in Hk. lia. }
    destruct (Hstuck x Hxn Hx) as (j & Hj & Hlack). specialize (Ho k x j Hk Hj).
    assert (total alloc (take k order) j ≤ total alloc done j); [|lia].
    apply total_sub; [auto| |by rewrite Forall_forall in Hpre].
    eapply sublist_NoDup; [|apply sublist_take]. rewrite Hp. apply NoDup_seq.
  - intros Hall. exists done. split; [|done]. apply list.NoDup_Permutation; [done|apply NoDup_seq|].
    intros i. rewrite elem_of_seq. split; [intros ?%Hlt; lia|]. intros ?. apply Hall. lia.
Qed.
End safety.

(** ** The steps of the search *)

Lemma grow_lookup n row j : default 0 (grow n row !! j) = default 0 (row !! j).
Proof.
  unfold grow. destruct (decide (j < length row)%nat).
  - by rewrite lookup_app_l.
  - rewrite lookup_app_r, (lookup_ge_None_2 row) by lia. simpl.
    destruct (replicate _ 0 !! _) as [x|] eqn:E; [|done]. by apply lookup_replicate in E as [-> _].
Qed.

Lemma grow_length n row : length (grow n row) = max (length row) (Z.to_nat n).
Proof. unfold grow. rewrite length_app, length_replicate. lia. Qed.

Lemma entry_update table i row row' i' j :
  table !! i = Some row → entry (<[i := row']> table) i' j =
    if decide (i' = i) then default 0 (row' !! j) else entry table i' j.
Proof.
  intros Hi. unfold entry. case_decide as Hd.
  - subst. by rewrite list_lookup_insert_eq by (by eapply lookup_lt_Some).
  - by rewrite list_lookup_insert_ne.
Qed.

(** The rows of the second table are as long as those of the first. *)
Definition longer (table table' : list (list Z)) : Prop :=
  ∀ i row, table !! i = Some row → ∃ row', table' !! i = Some row' ∧ (length row ≤ length row')%nat.

Lemma longer_trans t1 t2 t3 : longer t1 t2 → longer t2 t3 → longer t1 t3.
Proof.
  intros H12 H23 i row Hi. destruct (H12 i row Hi) as (row2 & H2 & Hl2).
  destruct (H23 i row2 H2) as (row3 & H3 & Hl3). exists row3. split; [done|lia].
Qed.

Lemma longer_refl table : longer table table.
Proof. intros i row Hi. by exists row. Qed.

Lemma longer_insert table i row row' :
  table !! i = Some row → (length row ≤ length row')%nat → longer table (<[i := row']> table).
Proof.
  intros Hi Hl i' r Hr. destruct (decide (i' = i)) as [->|Hne].
  - exists row'. rewrite list_lookup_insert_eq by (by eapply lookup_lt_Some). simplify_eq. by split.
  - exists r. by rewrite list_lookup_insert_ne.
Qed.

Lemma longer_shrink table i row row' :
  table !! i = Some row → (length row' ≤ length row)%nat → longer (<[i := row']> table) table.
Proof.
  intros Hi Hl i' r [(<- & <- & _)|[? ?]]%list_lookup_insert_Some.
  - by exists row.
  - by exists r.
Qed.

Lemma grow_row_run table tid n :
  (tid < length table)%nat →
  ∃ table' row, grow_row table (Z.of_nat tid) n = Ok table' ∧ table' !! tid = Some row ∧
    length table' = length table ∧ (Z.to_nat n ≤ length row)%nat ∧ longer table table' ∧
    ∀ i j, entry table' i j = entry table i j.
Proof.
  intros Ht. destruct (lookup_lt_is_Some_2 _ _ Ht) as [row Hrow]. unfold grow_row.
  rewrite (idx_Ok _ _ row) by (by rewrite Nat2Z.id). mstep. rewrite upd_Ok, Nat2Z.id by lia.
  eexists _, (grow n row). split; [reflexivity|].
  split; [by apply list_lookup_insert_eq|]. split; [by rewrite length_insert|].
  split; [rewrite grow_length; lia|].
  split; [by apply (longer_insert _ _ row); [|rewrite grow_length; lia]|].
  intros i j. rewrite (entry_update _ _ row) by done.
  case_decide; [|done]. subst. rewrite grow_lookup. unfold entry. by rewrite Hrow.
Qed.

Lemma row_for_run table tid work :
  (tid < length table)%nat →
  ∃ table' row, row_for table (Z.of_nat tid) work = Ok (table', row) ∧
    length table' = length table ∧ longer table table' ∧
    (∀ i j, entry table' i j = entry table i j) ∧
    ∀ j, (j < length work)%nat → row !! j = Some (entry table tid j).
Proof.
  intros Ht. destruct work as [|w work].
  { exists table, []. split; [done|]. split; [done|]. split; [apply longer_refl|].
    split; [done|]. intros j Hj. simpl in Hj. lia. }
  cbn [row_for].
  destruct (grow_row_run table tid (Z.of_nat (length (w :: work))) Ht)
    as (table' & row & E & Hrow & Hlen & Hn & Hlg & He). rewrite E. mstep.
  rewrite (idx_Ok _ _ row) by (by rewrite Nat2Z.id). exists table', row. split; [done|].
  split; [done|]. split; [done|]. split; [done|]. intros j Hj. rewrite Nat2Z.id in Hn.
  destruct (lookup_lt_is_Some_2 row j) as [x Hx]; [lia|]. rewrite Hx, <- He. unfold entry.
  by rewrite Hrow; simpl; rewrite Hx.
Qed.

Lemma row_valid_spec work row :
  (length work ≤ length row)%nat →
  row_valid work row = true ↔
    ∀ j w x, work !! j = Some w → row !! j = Some x → x ≤ w.
Proof.
  revert row. induction work as [|w work IH]; intros [|x row] Hlen; try (simpl in Hlen; lia);
    cbn [row_valid]; [by split|by split|].
  rewrite andb_true_iff, negb_true_iff, Z.ltb_ge, IH by (simpl in Hlen; lia). split.
  - intros [Hx Hr] [|j] w' x' Hw Hx'; simpl in *; [congruence|by eapply Hr].
  - intros Hr. split; [by apply (Hr O)|]. intros j w' x'. apply (Hr (S j)).
Qed.

Lemma add_rows_lookup work row j w a :
  work !! j = Some w → row !! j = Some a → add_rows work row !! j = Some (w +ᵤ a).
Proof.
  revert row j. induction work as [|w' work IH]; intros [|a' row] [|j] Hw Ha; try done; simpl in *.
  - congruence.
  - by apply IH.
Qed.

Lemma add_rows_length work row : length (add_rows work row) = length work.
Proof. revert row. induction work as [|w work IH]; intros [|a row]; simpl; [done..|]. by rewrite IH. Qed.

(** ** The search decides safety *)

Section search.
Context (n m : nat) (avail : nat → Z) (need alloc : nat → nat → Z).
Context (Havail : ∀ j, 0 ≤ avail j) (Halloc : ∀ i j, 0 ≤ alloc i j).
(** There are fewer than 2^64 units of each resource. *)
Context (Hbound : ∀ j, avail j + total alloc (seq 0 n) j < 2 ^ 64).
(** The table of needs at the start of the search. *)
Context (ne0 : list (list Z)).

(** The threads of [done] have been marked, in this order. *)
Record search_inv (done : list nat) (st : search) : Prop := {
  si_nodup : NoDup done;
  si_lt : ∀ i, i ∈ done → (i < n)%nat;
  si_order : finishes m avail need alloc done;
  si_work : length (s_work st) = m ∧
    ∀ j, (j < m)%nat → s_work st !! j = Some (avail j + total alloc done j);
  si_finish : length (s_finish st) = n ∧
    ∀ i, (i < n)%nat → s_finish st !! i = Some (bool_decide (i ∈ done));
  si_ne : length (s_ne st) = n ∧ longer ne0 (s_ne st) ∧ ∀ i j, entry (s_ne st) i j = need i j;
  si_al : length (s_al st) = n ∧ ∀ i j, entry (s_al st) i j = alloc i j;
}.

(** [work] does not cover the need of [i]. *)
Definition stuck (done : list nat) (i : nat) : Prop :=
  ∃ j, (j < m)%nat ∧ avail j + total alloc done j < need i j.

Lemma covered_or_stuck done i :
  (∀ j, (j < m)%nat → need i j ≤ avail j + total alloc done j) ∨ stuck done i.
Proof.
  destruct (decide (Forall (λ j, need i j ≤ avail j + total alloc done j) (seq 0 m))) as [Hf|Hf].
  - left. intros j Hj. rewrite Forall_forall in Hf. apply Hf, elem_of_seq. lia.
  - right. apply not_Forall_Exists in Hf; [|apply _]. apply Exists_exists in Hf as (j & Hj & Hn).
    apply elem_of_seq in Hj. exists j. simpl in Hn. lia.
Qed.

Lemma row_valid_covered done st i row :
  search_inv done st → (∀ j, (j < m)%nat → row !! j = Some (need i j)) →
  row_valid (s_work st) row = true ↔ ∀ j, (j < m)%nat → need i j ≤ avail j + total alloc done j.
Proof.
  intros Hi Hrow. destruct (si_work _ _ Hi) as [Hlen Hw]. rewrite row_valid_spec.
  2:{ rewrite Hlen. destruct m as [|k]; [lia|]. specialize (Hrow k ltac:(lia)).
      apply lookup_lt_Some in Hrow. lia. }
  split.
  - intros Hv j Hj. by apply (Hv j); [apply Hw|apply Hrow].
  - intros Hc j w x Hjw Hjx. assert (Hj : (j < m)%nat) by (rewrite <- Hlen; by eapply lookup_lt_Some).
    rewrite Hw in Hjw by done. rewrite Hrow in Hjx by done. simplify_eq. by apply Hc.
Qed.

Lemma total_bound done i j :
  NoDup (done ++ [i]) → (∀ x, x ∈ done ++ [i] → (x < n)%nat) →
  avail j + total alloc (done ++ [i]) j < 2 ^ 64.
Proof.
  intros Hnd Hlt. eapply Z.le_lt_trans; [|apply (Hbound j)].
  apply Z.add_le_mono_l, total_sub; [auto|done|]. intros x Hx%Hlt. apply elem_of_seq. lia.
Qed.

(** Marking a thread whose need is covered. *)
Lemma search_mark done st i ne al row :
  search_inv done st → (i < n)%nat → i ∉ done →
  (∀ j, (j < m)%nat → need i j ≤ avail j + total alloc done j) →
  length ne = n → longer ne0 ne → (∀ i j, entry ne i j = need i j) →
  length al = n → (∀ i j, entry al i j = alloc i j) →
  (∀ j, (j < m)%nat → row !! j = Some (alloc i j)) →
  search_inv (done ++ [i])
    (mkSearch (add_rows (s_work st) row) (<[i := true]> (s_finish st)) al ne).
Proof.
  intros Hi Hin Hni Hc Hne1 Hlg Hne2 Hal1 Hal2 Hrow. destruct Hi as [Hnd Hlt Ho [Hw1 Hw2] [Hf1 Hf2] _ _].
  assert (Hnd' : NoDup (done ++ [i])).
  { apply NoDup_app. split; [done|]. split; [|apply NoDup_singleton].
    by intros x Hx ->%list_elem_of_singleton. }
  assert (Hlt' : ∀ x, x ∈ done ++ [i] → (x < n)%nat).
  { intros x [?| ->%list_elem_of_singleton]%elem_of_app; auto. }
  split; cbn [s_work s_finish s_ne s_al]; try done.
  - by apply finishes_snoc.
  - split; [by rewrite add_rows_length|]. intros j Hj.
    rewrite (add_rows_lookup _ _ _ _ _ (Hw2 j Hj) (Hrow j Hj)). f_equal.
    pose proof (total_bound done i j Hnd' Hlt') as Hb.
    pose proof (total_nonneg alloc done j (λ i, Halloc i j)). specialize (Havail j) as Hav.
    specialize (Halloc i j) as Hal. rewrite total_snoc in *. rewrite u64_small by lia. lia.
  - rewrite length_insert. split; [done|]. intros x Hx. destruct (decide (x = i)) as [->|Hne].
    + rewrite list_lookup_insert_eq by lia. f_equal. symmetry. apply bool_decide_eq_true.
      apply elem_of_app. right. by apply list_elem_of_singleton.
    + rewrite list_lookup_insert_ne, Hf2 by done. f_equal. apply bool_decide_ext.
      rewrite elem_of_app, list_elem_of_singleton. tauto.
Qed.

Lemma sem_pass_run ts done st b :
  search_inv done st → Forall (λ i, (i < n)%nat) ts →
  ∃ new st', sem_pass ts st b = Ok (st', b || negb (bool_decide (new = []))) ∧
    search_inv (done ++ new) st' ∧
    (new = [] → Forall (λ i, i ∈ done ∨ stuck done i) ts).
Proof.
  intros Hi Hts. revert done st b Hi. induction Hts as [|i ts Hlt _ IH]; intros done st b Hi.
  { exists [], st. rewrite app_nil_r, orb_false_r. by split_and!. }
  cbn [sem_pass]. destruct (si_ne _ _ Hi) as (Hn1 & Hlg0 & Hn2). destruct (si_al _ _ Hi) as [Ha1 Ha2].
  destruct (si_finish _ _ Hi) as [_ Hf]. destruct (si_work _ _ Hi) as [Hw _].
  destruct (row_for_run (s_ne st) i (s_work st)) as (ne & nrow & En & Hne1 & Hlg & Hne2 & Hnrow); [lia|].
  pose proof (longer_trans _ _ _ Hlg0 Hlg) as Hlg'.
  rewrite En. mstep. rewrite (idx_Ok _ _ (bool_decide (i ∈ done))) by (rewrite Nat2Z.id; auto).
  rewrite Hw in Hnrow.
  assert (Hcov := row_valid_covered done st i nrow Hi ltac:(intros j Hj; rewrite Hnrow, Hn2 by done; done)).
  assert (Hkeep : search_inv done (mkSearch (s_work st) (s_finish st) (s_al st) ne)).
  { destruct Hi. split; try done. cbn [s_ne]. split; [lia|]. split; [done|]. intros i' j. rewrite Hne2. apply Hn2. }
  destruct (decide (i ∈ done)) as [Hd|Hd].
  { rewrite bool_decide_true by done. cbn [negb andb].
    destruct (IH done _ b Hkeep) as (new & st' & E & Hi' & Hs). exists new, st'.
    split; [done|]. split; [done|]. intros Hnil. constructor; [by left|auto]. }
  rewrite bool_decide_false by done. cbn [negb andb].
  destruct (covered_or_stuck done i) as [Hc|Hst].
  - rewrite (proj2 Hcov Hc).
    destruct (row_for_run (s_al st) i (s_work st)) as (al & arow & Ea & Hal1 & _ & Hal2 & Harow); [lia|].
    rewrite Ea, upd_Ok, Nat2Z.id by (destruct (si_finish _ _ Hi); lia). rewrite Hw in Harow.
    assert (Hi' : search_inv (done ++ [i]) (mkSearch (add_rows (s_work st) arow)
      (<[i := true]> (s_finish st)) al ne)).
    { apply search_mark; try done; try lia.
      - intros i' j. rewrite Hne2. apply Hn2.
      - intros i' j. rewrite Hal2. apply Ha2.
      - intros j Hj. by rewrite Harow, Ha2. }
    destruct (IH _ _ true Hi') as (new & st' & E & Hi'' & _). exists (i :: new), st'.
    rewrite <- app_assoc in Hi''. split; [|by split]. rewrite E. by rewrite orb_true_r.
  - destruct (row_valid (s_work st) nrow) eqn:Ev.
    { exfalso. destruct Hst as (j & Hj & Hlack). pose proof (proj1 Hcov eq_refl j Hj). lia. }
    destruct (IH done _ b Hkeep) as (new & st' & E & Hi' & Hs). exists new, st'.
    split; [done|]. split; [done|]. intros Hnil. constructor; [by right|auto].
Qed.

Lemma search_done_length done st : search_inv done st → (length done ≤ n)%nat.
Proof.
  intros Hi. transitivity (length (seq 0 n)); [|by rewrite length_seq].
  apply submseteq_length, NoDup_submseteq; [apply Hi|].
  intros i Hin%(si_lt _ _ Hi). apply elem_of_seq. lia.
Qed.

Lemma forallb_finish done st :
  search_inv done st → forallb id (s_finish st) = true ↔ ∀ i, (i < n)%nat → i ∈ done.
Proof.
  intros Hi. destruct (si_finish _ _ Hi) as [Hl Hf]. rewrite forallb_forall. split.
  - intros Hall i Hlt. specialize (Hf i Hlt). apply list_elem_of_lookup_2, list_elem_of_In in Hf.
    apply Hall in Hf. by apply bool_decide_eq_true in Hf.
  - intros Hall b Hb. apply list_elem_of_In, list_elem_of_lookup in Hb as [i Hi'].
    assert (Hlt : (i < n)%nat) by (rewrite <- Hl; by eapply lookup_lt_Some).
    rewrite Hf in Hi' by done. injection Hi' as <-. apply bool_decide_eq_true. auto.
Qed.

(** The search ends, keeps the tables, and finds out whether the state is safe. *)
Lemma sem_search_run fuel done st :
  search_inv done st → (n - length done < fuel)%nat →
  ∃ done' st' dead, sem_search fuel n st = Ok (st', dead) ∧ search_inv done' st' ∧
    (dead = false ↔ safe n m avail need alloc).
Proof.
  revert done st. induction fuel as [|fuel IH]; intros done st Hi Hfuel; [lia|]. cbn [sem_search].
  destruct (sem_pass_run (seq 0 n) done st false Hi) as (new & st' & E & Hi' & Hs).
  { apply Forall_forall. intros i ?%elem_of_seq. lia. }
  rewrite E. mstep. destruct (decide (new = [])) as [->|Hnew].
  - rewrite bool_decide_true by done. cbn [orb negb]. rewrite app_nil_r in Hi'.
    exists done, st'. eexists. split; [reflexivity|]. split; [done|].
    rewrite negb_false_iff, (forallb_finish done) by done. symmetry.
    apply finishes_stuck; try apply Hi'; [done|]. intros i Hlt Hni. specialize (Hs eq_refl).
    rewrite Forall_forall in Hs. destruct (Hs i) as [?|?]; [apply elem_of_seq; lia|done|done].
  - rewrite bool_decide_false by done. cbn [orb negb].
    pose proof (search_done_length _ _ Hi') as Hle. rewrite length_app in Hle.
    assert (0 < length new)%nat by (destruct new; [done|simpl; lia]).
    destruct (IH (done ++ new) st' Hi') as (done' & st'' & dead & E' & Hi'' & Hd).
    { rewrite length_app. lia. }
    by exists done', st'', dead.
Qed.

Lemma search_start al av :
  length al = n → (∀ i j, entry al i j = alloc i j) →
  length ne0 = n → (∀ i j, entry ne0 i j = need i j) →
  length av = m → (∀ j, (j < m)%nat → av !! j = Some (avail j)) →
  search_inv [] (mkSearch av (replicate n false) al ne0).
Proof.
  intros Ha1 Ha2 Hn1 Hn2 Hm1 Hm2. split; cbn [s_work s_finish s_ne s_al]; try done.
  - constructor.
  - by intros i ?%not_elem_of_nil.
  - split; [done|]. intros j Hj. rewrite Hm2 by done. f_equal. unfold total. simpl. lia.
  - split; [apply length_replicate|]. intros i Hlt. rewrite lookup_replicate_2 by done.
    by rewrite bool_decide_false by (apply not_elem_of_nil).
  - split; [done|]. split; [apply longer_refl|done].
Qed.
End search.

(** The free units of a resource. *)
Definition units (av : list Z) (j : nat) : Z := default 0 (av !! j).

(** The books are right: there are a row of units in use and a row of needs for each
    thread, and the units of each resource, free and in use, are fewer than 2^64.  A
    unit given back by a thread that has none listed breaks this: its entry wraps
    around to 2^64 - 1, and with the unit that is free the sum is 2^64. *)
Record tables_ok (n : nat) (av : list Z) (al ne : list (list Z)) : Prop := {
  to_al : length al = n;
  to_ne : length ne = n;
  to_units : ∀ j, 0 ≤ units av j;
  to_alloc : ∀ i j, 0 ≤ entry al i j;
  to_bound : ∀ j, units av j + total (entry al) (seq 0 n) j < 2 ^ 64;
}.

Lemma sem_deadlock_run p al ne :
  tables_ok (length (tasks p)) (semaphore_available p) al ne →
  ∃ st dead, sem_deadlock p al ne = Ok (st, dead) ∧
    length (s_al st) = length (tasks p) ∧ length (s_ne st) = length (tasks p) ∧
    (∀ i j, entry (s_al st) i j = entry al i j) ∧ (∀ i j, entry (s_ne st) i j = entry ne i j) ∧
    longer ne (s_ne st) ∧
    (dead = false ↔ safe (length (tasks p)) (length (semaphore_available p))
       (units (semaphore_available p)) (entry ne) (entry al)).
Proof.
  intros [Ha Hn Hu Hal Hb].
  destruct (sem_search_run (length (tasks p)) (length (semaphore_available p))
    (units (semaphore_available p)) (entry ne) (entry al) Hu Hal Hb ne (S (length (tasks p))) []
    (mkSearch (semaphore_available p) (replicate (length (tasks p)) false) al ne))
    as (done & st & dead & E & [_ _ _ _ _ (Hn1 & Hlg & Hn2) [Ha1 Ha2]] & Hd).
  - apply search_start; try done. intros j Hj. unfold units.
    by destruct (lookup_lt_is_Some_2 _ _ Hj) as [x ->].
  - simpl. lia.
  - by exists st, dead.
Qed.

Lemma total_same (f g : nat → nat → Z) l j : (∀ k, k ∈ l → g k j = f k j) → total g l j = total f l j.
Proof.
  intros E. unfold total. induction l as [|k l IH]; cbn [foldr]; [done|].
  rewrite E, IH; [done| |apply list_elem_of_here]. intros k' Hk. by apply E, list_elem_of_further.
Qed.

Lemma total_change (f g : nat → nat → Z) l i j d :
  NoDup l → i ∈ l → (∀ k, k ≠ i → g k j = f k j) → g i j = f i j + d → total g l j = total f l j + d.
Proof.
  induction l as [|k l IH]; intros Hnd Hin Ho Hi; [by apply not_elem_of_nil in Hin|].
  apply NoDup_cons in Hnd as [Hk Hnd]. unfold total in *. cbn [foldr]. apply elem_of_cons in Hin as [->|Hin].
  - rewrite Hi. enough (total g l j = total f l j) as E by (unfold total in E; rewrite E; lia).
    apply total_same. intros k' Hk'. apply Ho. by intros ->.
  - rewrite (Ho k) by (by intros ->). rewrite IH by done. lia.
Qed.

Lemma total_entry alloc n i j : (∀ i, 0 ≤ alloc i j) → (i < n)%nat → alloc i j ≤ total alloc (seq 0 n) j.
Proof.
  intros Ha Hi. replace (alloc i j) with (total alloc [i] j) by (unfold total; cbn; lia).
  apply total_sub; [done|apply NoDup_singleton|]. intros x ->%list_elem_of_singleton. apply elem_of_seq. lia.
Qed.

(** A unit of resource [i] goes from the free ones to those in use by [tid] ([d] is 1),
    or back ([d] is -1). *)
Lemma tables_moved n av al ne al' ne' tid i a d :
  tables_ok n av al ne → (tid < n)%nat → av !! i = Some a → (d = 1 ∧ 1 ≤ a) ∨ (d = -1 ∧ 1 ≤ entry al tid i) →
  length al' = n → length ne' = n →
  (∀ i' j, entry al' i' j = if decide (i' = tid ∧ j = i) then u64 (entry al tid i + d) else entry al i' j) →
  tables_ok n (<[i := u64 (a + - d)]> av) al' ne'.
Proof.
  intros [H1 H2 Hu Ha Hb] Hlt Hav Hd Hl1 Hl2 He.
  assert (Ea : units av i = a) by (unfold units; by rewrite Hav).
  pose proof (Hb i) as Hbi. pose proof (total_entry (entry al) n tid i (λ x, Ha x i) Hlt) as Ht.
  pose proof (Hu i) as Hui. pose proof (Ha tid i) as Hai. rewrite Ea in *.
  assert (Eu : ∀ j, units (<[i := u64 (a + - d)]> av) j = if decide (j = i) then a - d else units av j).
  { intros j. unfold units. destruct (decide (j = i)) as [->|Hne].
    - rewrite list_lookup_insert_eq by (by eapply lookup_lt_Some). cbn [default]. apply u64_small. lia.
    - by rewrite list_lookup_insert_ne. }
  split; [done|done|..].
  - intros j. rewrite Eu. case_decide; [lia|done].
  - intros i' j. rewrite He. case_decide; [|done]. rewrite u64_small by lia. lia.
  - intros j. rewrite Eu. case_decide as Hj.
    + subst j. rewrite (total_change (entry al) (entry al') (seq 0 n) tid i d); [lia|apply NoDup_seq|apply elem_of_seq; lia|..].
      * intros k Hk. rewrite He. rewrite decide_False by tauto. done.
      * rewrite He, decide_True by done. apply u64_small. lia.
    + rewrite (total_same (entry al) (entry al')); [done|]. intros k _. rewrite He, decide_False by tauto. done.
Qed.

Lemma tables_same n av al ne al' ne' :
  tables_ok n av al ne → length al' = n → length ne' = n → (∀ i j, entry al' i j = entry al i j) → tables_ok n av al' ne'.
Proof.
  intros [H1 H2 Hu Ha Hb] Hl1 Hl2 He. split; [done|done|done|intros i j; by rewrite He|].
  intros j. rewrite (total_same (entry al) (entry al')); [done|]. intros k _. apply He.
Qed.

(** ** The system calls *)

Lemma add_row_run table tid row i d :
  table !! tid = Some row → (i < length row)%nat →
  ∃ table', add_row table (Z.of_nat tid) (Z.of_nat i) d = Ok table' ∧
    length table' = length table ∧
    longer table table' ∧ longer table' table ∧
    ∀ i' j, entry table' i' j =
      if decide (i' = tid ∧ j = i) then u64 (entry table tid i + d) else entry table i' j.
Proof.
  intros Hrow Hi. destruct (lookup_lt_is_Some_2 _ _ Hi) as [x Hx]. unfold add_row, add_at.
  rewrite (idx_Ok _ _ row) by (by rewrite Nat2Z.id). mstep.
  rewrite (idx_Ok _ _ x) by (by rewrite Nat2Z.id). rewrite upd_Ok, Nat2Z.id by lia.
  rewrite upd_Ok, Nat2Z.id by (rewrite ?Nat2Z.id; by eapply lookup_lt_Some).
  eexists. split; [reflexivity|]. split; [by rewrite length_insert|].
  split; [by apply (longer_insert _ _ row); [|rewrite length_insert]|].
  split; [by apply (longer_shrink _ _ row); [|rewrite length_insert]|].
  intros i' j. rewrite (entry_update _ _ row) by done.
  assert (He : entry table tid i = x) by (unfold entry; by rewrite Hrow; simpl; rewrite Hx).
  destruct (decide (i' = tid)) as [->|Hne]; [|by rewrite decide_False by tauto].
  destruct (decide (j = i)) as [->|Hne].
  - rewrite decide_True, list_lookup_insert_eq, He by done. done.
  - rewrite decide_False by tauto. rewrite list_lookup_insert_ne by done. unfold entry. by rewrite Hrow.
Qed.

Lemma add_at_run row i x d :
  row !! i = Some x → add_at row (Z.of_nat i) d = Ok (<[i := u64 (x + d)]> row).
Proof.
  intros Hx. unfold add_at. rewrite (idx_Ok _ _ x) by (by rewrite Nat2Z.id). mstep.
  by rewrite upd_Ok, Nat2Z.id by (rewrite ?Nat2Z.id; by eapply lookup_lt_Some).
Qed.

(** The current task, its thread, and the object that a call names. *)
Record caller (s : ksys) (t : Z) (tid : nat) : Prop := {
  c_current : current (kern s) = Some t;
  c_tid : tids s !! t = Some (Z.of_nat tid);
  c_lt : (tid < length (tasks (proc s)))%nat;
}.

Lemma cur_tid_run s t tid : caller s t tid → cur_tid s = Ok (Z.of_nat tid, s).
Proof.
  intros [Hc Ht _]. unfold cur_tid, on_kernel, current_task. mstep. rewrite Hc. cbn [unwrap].
  destruct s as [p k ts]. cbn [tids proc kern] in *. by rewrite Ht.
Qed.

Lemma slot_run {A} (l : list (option A)) i x :
  l !! i = Some (Some x) → slot l (Z.of_nat i) = Ok x.
Proof.
  intros Hx. unfold slot. by rewrite (idx_Ok _ _ (Some x)) by (by rewrite Nat2Z.id).
Qed.

(** The need of [tid] for resource [i] goes up by [d]. *)
Definition requested (ne : list (list Z)) (tid i : nat) (i' j : nat) : Z :=
  entry ne i' j + (if decide (i' = tid ∧ j = i) then 1 else 0).

Section request.
Context (s : ksys) (t : Z) (tid i : nat).
Context (Hcall : caller s t tid).
Context (Hln : length (semaphore_need (proc s)) = length (tasks (proc s))).
Context (Hneed : 0 ≤ entry (semaphore_need (proc s)) tid i < 2 ^ 64 - 1).

(** The request is entered in the table of needs. *)
Lemma request_run :
  ∃ ne1 ne2 row, grow_row (semaphore_need (proc s)) (Z.of_nat tid) (Z.of_nat i + 1) = Ok ne1 ∧
    add_row ne1 (Z.of_nat tid) (Z.of_nat i) 1 = Ok ne2 ∧ length ne2 = length (tasks (proc s)) ∧
    ne2 !! tid = Some row ∧ (i < length row)%nat ∧
    ∀ i' j, entry ne2 i' j = requested (semaphore_need (proc s)) tid i i' j.
Proof.
  pose proof (c_lt _ _ _ Hcall) as Hlt.
  destruct (grow_row_run (semaphore_need (proc s)) tid (Z.of_nat i + 1))
    as (ne1 & row & E1 & Hrow & Hl1 & Hr1 & _ & He1); [lia|].
  destruct (add_row_run ne1 tid row i 1 Hrow) as (ne2 & E2 & Hl2 & Hlg & _ & He2); [lia|].
  destruct (Hlg tid row Hrow) as (row2 & Hrow2 & Hlr).
  exists ne1, ne2, row2. split; [done|]. split; [done|]. split; [lia|]. split; [done|].
  split; [lia|]. intros i' j. rewrite He2. unfold requested. rewrite !He1.
  case_decide as Hd; [|lia]. destruct Hd as [-> ->]. rewrite u64_small by lia. done.
Qed.
End request.

(** The books of the process of a state are right. *)
Definition books_ok (s : ksys) : Prop :=
  tables_ok (length (tasks (proc s))) (semaphore_available (proc s)) (semaphore_allocation (proc s))
    (semaphore_need (proc s)).

Section down.
Context (s : ksys) (t : Z) (tid i : nat) (sem : nat) (x : Semaphore).
Context (Hcall : caller s t tid).
Context (Hslot : semaphore_list (proc s) !! i = Some (Some sem)).
Context (Hsem : semaphores (kern s) !! sem = Some x).
Context (Hav : (i < length (semaphore_available (proc s)))%nat).

(** The part of the call after the search: the units are booked if there are
    any, and the semaphore is taken or waited for. *)
Lemma book_run st p' :
  tables_ok (length (tasks (proc s))) (semaphore_available (proc s)) (s_al st) (s_ne st) →
  (∃ row, s_ne st !! tid = Some row ∧ (i < length row)%nat) →
  p' = set_sem_tables (semaphore_available (proc s)) (s_al st) (s_ne st) (proc s) →
  ∃ b s', (a ← lift (idx (semaphore_available (proc s)) (Z.of_nat i));
      (if 1 <=? a then
         av ← lift (add_at (semaphore_available (proc s)) (Z.of_nat i) (-1));
         al ← lift (grow_row (s_al st) (Z.of_nat tid) (Z.of_nat i + 1));
         al ← lift (add_row al (Z.of_nat tid) (Z.of_nat i) 1);
         ne ← lift (add_row (s_ne st) (Z.of_nat tid) (Z.of_nat i) (-1));
         put_proc (set_sem_tables av al ne (proc s))
       else mret tt);;
      b ← on_kernel (sem_down sem);
      mret (if b : bool then Some 0 else None)) (mkSys p' (kern s) (tids s)) =
        Ok (if b : bool then Some 0 else None, s') ∧
    sem_down sem (kern s) = Ok (b, kern s') ∧ books_ok s'.
Proof.
  intros Hok (row & Hrow & Hri) ->. destruct (lookup_lt_is_Some_2 _ _ Hav) as [a Ha].
  destruct (sem_down_run sem x (kern s) t Hsem (c_current _ _ _ Hcall)) as (k' & Ed & _).
  pose proof (c_lt _ _ _ Hcall) as Hlt. pose proof (to_al _ _ _ _ Hok) as Hal. pose proof (to_ne _ _ _ _ Hok) as Hne. mstep.
  rewrite (idx_Ok _ _ a) by (by rewrite Nat2Z.id).
  unfold put_proc, on_kernel. mstep. destruct (Z.leb_spec 1 a) as [Hle|Hgt].
  - rewrite (add_at_run _ _ a) by done.
    destruct (grow_row_run (s_al st) tid (Z.of_nat i + 1)) as (al & arow & E1 & Har & Hal1 & Hal2 & _ & He1); [lia|].
    destruct (add_row_run al tid arow i 1 Har) as (al' & E2 & Hl2 & _ & _ & He2); [lia|].
    destruct (add_row_run (s_ne st) tid row i (-1) Hrow Hri) as (ne' & E3 & Hl3 & _).
    rewrite E1, E2, E3. cbn [kern]. rewrite Ed. eexists _, _. split; [reflexivity|]. split; [reflexivity|].
    unfold books_ok. cbn [proc set_sem_tables tasks semaphore_available semaphore_allocation semaphore_need].
    eapply (tables_moved _ _ (s_al st) (s_ne st) al' ne' tid i a 1); [done|done|done|by left|lia|lia|].
    intros i' j. rewrite He2, !He1. done.
  - cbn [kern]. rewrite Ed. eexists _, _. by split.
Qed.
End down.

(** [sys_semaphore_up] of a thread: a unit more is available, and one less is
    listed as in use by the thread. *)
Lemma sys_semaphore_up_run s t tid i sem x a :
  caller s t tid → semaphore_list (proc s) !! i = Some (Some sem) →
  semaphores (kern s) !! sem = Some x → semaphore_available (proc s) !! i = Some a →
  length (semaphore_allocation (proc s)) = length (tasks (proc s)) →
  ∃ s', sys_semaphore_up (Z.of_nat i) s = Ok (0, s') ∧
    sem_up sem (kern s) = Ok (tt, kern s') ∧
    (∃ al', proc s' = set_sem_tables (<[i := u64 (a + 1)]> (semaphore_available (proc s))) al' (semaphore_need (proc s)) (proc s) ∧
      tids s' = tids s ∧ length al' = length (tasks (proc s)) ∧
      ∀ i' j, entry al' i' j = if decide (i' = tid ∧ j = i) then u64 (entry (semaphore_allocation (proc s)) tid i + -1)
        else entry (semaphore_allocation (proc s)) i' j) ∧
    (books_ok s → 1 ≤ entry (semaphore_allocation (proc s)) tid i → books_ok s').
Proof.
  intros Hcall Hslot Hsem Ha Hal. pose proof (c_lt _ _ _ Hcall) as Hlt.
  unfold sys_semaphore_up, get_proc, put_proc. mstep. rewrite (slot_run _ _ sem) by done.
  rewrite (cur_tid_run s t tid) by done. rewrite (add_at_run _ _ a) by done.
  destruct (grow_row_run (semaphore_allocation (proc s)) tid (Z.of_nat i + 1))
    as (al & row & E1 & Hrow & Hl1 & Hl & _ & He1); [lia|].
  destruct (add_row_run al tid row i (-1) Hrow) as (al' & E2 & Hl2 & _ & _ & He2); [lia|].
  rewrite E1, E2. unfold on_kernel. cbn [kern].
  destruct (sem_up_run sem x (kern s) Hsem) as (k' & Eu & _). rewrite Eu. eexists.
  split; [reflexivity|]. split; [done|]. assert (He : ∀ i' j, entry al' i' j =
    if decide (i' = tid ∧ j = i) then u64 (entry (semaphore_allocation (proc s)) tid i + -1) else entry (semaphore_allocation (proc s)) i' j)
    by (intros i' j; by rewrite He2, !He1).
  split; [exists al'; split_and!; [done|done|lia|done]|].
  intros Hok Hun. unfold books_ok. cbn [proc set_sem_tables tasks semaphore_available semaphore_allocation semaphore_need].
  apply (tables_moved _ _ (semaphore_allocation (proc s)) (semaphore_need (proc s)) al' _ tid i a (-1)); try done; [by right|lia|apply Hok].
Qed.

(** C17: with deadlock detection on, and as long as the books of the process are right,
    [sys_semaphore_down] fails with [-0xDEAD] exactly when, with the request counted,
    the threads cannot all finish: there is no order in which the free units plus those
    of the threads that finished before cover each thread's need.  The books are right
    ([books_ok]) when the units of each semaphore, free and listed as in use, are fewer
    than 2^64; the call keeps them right, and so does [sys_semaphore_up] of a thread
    that has a unit listed (but not of one that has none, see
    [unlisted_up_false_alarm]).  A failing call leaves the semaphores and the scheduler
    as they were, but the request stays in the table of needs; otherwise the call takes
    or waits for the semaphore. *)
Theorem semaphore_deadlock_detected s t tid i sem x :
  caller s t tid →
  semaphore_list (proc s) !! i = Some (Some sem) → semaphores (kern s) !! sem = Some x →
  (i < length (semaphore_available (proc s)))%nat → books_ok s →
  0 ≤ entry (semaphore_need (proc s)) tid i < 2 ^ 64 - 1 →
  deadlock_detect (proc s) = true →
  (∃ r s', sys_semaphore_down (Z.of_nat i) s = Ok (r, s') ∧ books_ok s' ∧
    (r = Some (-0xDEAD) ↔
      ¬ safe (length (tasks (proc s))) (length (semaphore_available (proc s)))
          (units (semaphore_available (proc s)))
          (requested (semaphore_need (proc s)) tid i) (entry (semaphore_allocation (proc s)))) ∧
    (r = Some (-0xDEAD) → kern s' = kern s ∧
      ∀ i' j, entry (semaphore_need (proc s')) i' j = requested (semaphore_need (proc s)) tid i i' j) ∧
    (r ≠ Some (-0xDEAD) → ∃ b, sem_down sem (kern s) = Ok (b, kern s') ∧
      r = if b : bool then Some 0 else None)) ∧
  (1 ≤ entry (semaphore_allocation (proc s)) tid i →
    ∃ s', sys_semaphore_up (Z.of_nat i) s = Ok (0, s') ∧ books_ok s').
Proof.
  intros Hcall Hslot Hsem Hav Hok Hneed Hdet. split.
  2:{ intros Hun. destruct (lookup_lt_is_Some_2 _ _ Hav) as [a Ha].
      destruct (sys_semaphore_up_run s t tid i sem x a Hcall Hslot Hsem Ha (to_al _ _ _ _ Hok)) as (s' & E & _ & _ & Hb).
      exists s'. split; [exact E|]. by apply Hb. }
  destruct (request_run s t tid i Hcall (to_ne _ _ _ _ Hok) Hneed) as (ne1 & ne2 & row & E1 & E2 & Hl2 & Hrow & Hri & He2).
  assert (Hok' : tables_ok (length (tasks (proc s))) (semaphore_available (proc s))
    (semaphore_allocation (proc s)) ne2) by (by apply (tables_same _ _ _ _ _ _ Hok); [apply Hok|..]).
  destruct (sem_deadlock_run (proc s) _ ne2 Hok') as (st & dead & Es & Hal & Hne & Hea & Hen & Hlg & Hd).
  pose proof (tables_same _ _ _ _ _ _ Hok' Hal Hne Hea) as Hst.
  assert (Hsafe : dead = false ↔ safe (length (tasks (proc s))) (length (semaphore_available (proc s)))
    (units (semaphore_available (proc s))) (requested (semaphore_need (proc s)) tid i)
    (entry (semaphore_allocation (proc s)))).
  { rewrite Hd. unfold safe, finishes. by setoid_rewrite He2. }
  unfold sys_semaphore_down, get_proc. mstep. rewrite (slot_run _ _ sem) by done.
  rewrite (cur_tid_run s t tid) by done. rewrite E1, E2, Hdet, Es.
  unfold put_proc at 1. mstep. destruct dead.
  - eexists _, _. split; [reflexivity|]. split; [exact Hst|]. cbn [kern proc semaphore_need set_sem_tables].
    split; [|split; [|done]].
    + split; [|done]. intros _ Hs. by apply Hsafe in Hs.
    + intros _. split; [done|]. intros i' j. by rewrite Hen.
  - assert (Hrow' : ∃ row, s_ne st !! tid = Some row ∧ (i < length row)%nat).
    { destruct (Hlg tid row Hrow) as (row' & ? & ?). exists row'. split; [done|lia]. }
    destruct (book_run s t tid i sem x Hcall Hsem Hav st _ Hst Hrow' eq_refl) as (b & s' & E & Ed & Hb).
    eexists _, s'. split; [exact E|]. split; [done|]. split; [|split].
    + split; [by destruct b|]. intros Hn. destruct Hn. by apply Hsafe.
    + by destruct b.
    + intros _. by exists b.
Qed.

(** ** The search of [sys_mutex_lock] *)

Lemma cell_run table tid i :
  (∃ row, table !! tid = Some row ∧ (i < length row)%nat) →
  cell table (Z.of_nat tid) (Z.of_nat i) = Ok (entry table tid i).
Proof.
  intros (row & Hrow & Hi). destruct (lookup_lt_is_Some_2 _ _ Hi) as [x Hx]. unfold cell, entry.
  rewrite (idx_Ok _ _ row) by (by rewrite Nat2Z.id). mstep.
  rewrite (idx_Ok _ _ x) by (by rewrite Nat2Z.id). by rewrite Hrow; simpl; rewrite Hx.
Qed.

(** The column [m] is there in the row of [tid]. *)
Definition has_column (table : list (list Z)) (m tid : nat) : Prop :=
  ∃ row, table !! tid = Some row ∧ (m < length row)%nat.

Lemma has_column_longer t1 t2 m tid : longer t1 t2 → has_column t1 m tid → has_column t2 m tid.
Proof.
  intros Hl (row & Hrow & Hm). destruct (Hl tid row Hrow) as (row' & ? & ?).
  exists row'. split; [done|lia].
Qed.

Section pass.
Context (al ne : list (list Z)) (m n : nat).
Context (Hne : ∀ i, (i < n)%nat → has_column ne m i) (Hal : ∀ i, (i < n)%nat → has_column al m i).

(** The pass always ends, and what it has found stays found. *)
Lemma mutex_pass_total ts work finish b :
  (∀ i, i ∈ ts → (i < n)%nat) → length finish = n → (m < length work)%nat →
  ∃ finish' b', mutex_pass ts (Z.of_nat m) al ne work finish b = Ok (finish', b') ∧
    (b = true → b' = true).
Proof.
  revert work finish b. induction ts as [|i ts IH]; intros work finish b Hts Hf Hw.
  { by exists finish, b. }
  cbn [mutex_pass]. assert (Hi : (i < n)%nat) by (apply Hts; set_solver).
  assert (Hts' : ∀ i, i ∈ ts → (i < n)%nat) by (intros; apply Hts; set_solver).
  destruct (lookup_lt_is_Some_2 finish i) as [f Hfi]; [lia|].
  destruct (lookup_lt_is_Some_2 work m Hw) as [w Hwm].
  rewrite (idx_Ok _ _ f) by (by rewrite Nat2Z.id). mstep. destruct f; [by apply IH|].
  rewrite cell_run by (by apply Hne). rewrite (idx_Ok _ _ w) by (by rewrite Nat2Z.id).
  destruct (_ <=? _); [|by apply IH]. rewrite cell_run by (by apply Hal).
  rewrite !upd_Ok, !Nat2Z.id by (rewrite ?Nat2Z.id; lia).
  destruct (IH (<[m:=w +ᵤ entry al i m]> work) (<[i:=true]> finish) true)
    as (finish' & b' & E & Hb); rewrite ?length_insert; try done.
  exists finish', b'. split; [done|]. intros _. by apply Hb.
Qed.

(** It finds a thread exactly when the need of one is covered by what is free
    before the first of them finishes. *)
Lemma mutex_pass_found ts work w :
  (∀ i, i ∈ ts → (i < n)%nat) → work !! m = Some w →
  ∃ finish b, mutex_pass ts (Z.of_nat m) al ne work (replicate n false) false = Ok (finish, b) ∧
    (b = true ↔ ∃ i, i ∈ ts ∧ entry ne i m ≤ w) ∧ (b = false → finish = replicate n false).
Proof.
  intros Hts Hw. induction ts as [|i ts IH].
  { exists (replicate n false), false. split; [done|]. split; [|done]. split; [done|].
    intros (i & Hi & _). by apply not_elem_of_nil in Hi. }
  cbn [mutex_pass]. assert (Hi : (i < n)%nat) by (apply Hts; set_solver).
  assert (Hm : (m < length work)%nat) by (by eapply lookup_lt_Some).
  rewrite (idx_Ok _ _ false) by (rewrite Nat2Z.id; by apply lookup_replicate_2). mstep.
  rewrite cell_run by (by apply Hne). rewrite (idx_Ok _ _ w) by (by rewrite Nat2Z.id).
  destruct (entry ne i m <=? w) eqn:Ele.
  - rewrite cell_run by (by apply Hal).
    rewrite !upd_Ok, !Nat2Z.id by (rewrite ?Nat2Z.id, ?length_replicate; lia).
    destruct (mutex_pass_total ts (<[m:=w +ᵤ entry al i m]> work) (<[i:=true]> (replicate n false)) true)
      as (finish' & b' & E & Hb); rewrite ?length_insert, ?length_replicate; try done.
    { intros; apply Hts; set_solver. }
    exists finish', b'. rewrite Hb in * by done. split; [done|]. split; [|done]. split; [|done].
    intros _. exists i. split; [set_solver|lia].
  - destruct IH as (finish & b & E & Hb & Hf); [intros; apply Hts; set_solver|].
    exists finish, b. split; [done|]. split; [|done]. rewrite Hb. set_unfold.
    split; [|intros (i' & [->|Hin] & ?); [lia|by exists i']].
    intros (i' & Hin & ?). exists i'. split; [by right|done].
Qed.

Lemma mutex_deadlock_run p a :
  length (tasks p) = n → (0 < n)%nat → mutex_available p !! m = Some a →
  ∃ dead, mutex_deadlock p (Z.of_nat m) al ne = Ok dead ∧
    (dead = true ↔ ∀ i, (i < n)%nat → a < entry ne i m).
Proof.
  intros Hn Hpos Ha. unfold mutex_deadlock. rewrite Hn.
  destruct (mutex_pass_found (seq 0 n) (mutex_available p) a) as (finish & b & E & Hb & Hf); [|done|].
  { intros i Hi%elem_of_seq. lia. }
  rewrite E. mstep. eexists. split; [reflexivity|]. destruct b; cbn [negb andb].
  - split; [done|]. intros Hall. destruct (proj1 Hb eq_refl) as (i & Hi%elem_of_seq & ?).
    specialize (Hall i ltac:(lia)). lia.
  - rewrite Hf by done. destruct n as [|n']; [lia|]. cbn. split; [|done]. intros _ i Hi.
    apply Z.lt_nge. intros Hle. discriminate (proj2 Hb). exists i. rewrite elem_of_seq. split; [lia|done].
Qed.
End pass.

(** The rows are extended together, so a column of the needs is one of the
    units in use. *)
Lemma entry_extend table i row k i' j :
  table !! i = Some row → entry (<[i := row ++ replicate k 0]> table) i' j = entry table i' j.
Proof.
  intros Hi. rewrite (entry_update _ _ row) by done. case_decide; [|done]. subst.
  unfold entry. rewrite Hi. simpl. rewrite lookup_app. destruct (row !! j) eqn:E; [done|].
  destruct (replicate k 0 !! _) eqn:Er; [|done]. apply lookup_replicate in Er as [-> _]. done.
Qed.

Lemma longer_insert_both t1 t2 i row1 row2 :
  longer t1 t2 → (i < length t2)%nat → (length row1 ≤ length row2)%nat →
  longer (<[i := row1]> t1) (<[i := row2]> t2).
Proof.
  intros Hl Hi Hr i' r Hi'. destruct (decide (i' = i)) as [->|Hne].
  - exists row2. rewrite list_lookup_insert_eq by done. split; [done|].
    by apply list_lookup_insert_Some in Hi' as [(_ & <- & _)|[? _]].
  - rewrite list_lookup_insert_ne in * by done. by apply Hl.
Qed.

Lemma extend_rows_run al ne tid m :
  (tid < length ne)%nat → length al = length ne → longer ne al →
  ∃ al' ne', extend_rows al ne (Z.of_nat tid) (Z.of_nat m + 1) = Ok (al', ne') ∧
    length al' = length al ∧ length ne' = length ne ∧ longer ne' al' ∧ longer ne ne' ∧
    has_column ne' m tid ∧ (∀ i j, entry al' i j = entry al i j) ∧
    (∀ i j, entry ne' i j = entry ne i j).
Proof.
  intros Ht Hlen Hl. destruct (lookup_lt_is_Some_2 _ _ Ht) as [row Hrow].
  destruct (Hl tid row Hrow) as (arow & Harow & Hle). unfold extend_rows.
  rewrite (idx_Ok ne _ row) by (by rewrite Nat2Z.id). mstep.
  destruct (_ =? 0)%nat eqn:Ek; [apply Nat.eqb_eq in Ek|apply Nat.eqb_neq in Ek].
  { exists al, ne. split; [done|]. split; [done|]. split; [done|]. split; [done|].
    split; [apply longer_refl|]. split; [|done]. exists row. split; [done|lia]. }
  rewrite (idx_Ok _ _ arow) by (by rewrite Nat2Z.id).
  rewrite !upd_Ok, !Nat2Z.id by (rewrite ?Nat2Z.id; lia).
  eexists _, _. split; [reflexivity|]. rewrite !length_insert. split; [done|]. split; [done|].
  split; [apply longer_insert_both; [done|lia|rewrite !length_app, !length_replicate; lia]|].
  split; [by apply (longer_insert _ _ row); [|rewrite length_app; lia]|]. split.
  { eexists. rewrite list_lookup_insert_eq by done. split; [reflexivity|].
    rewrite length_app, length_replicate. lia. }
  split; intros; by apply entry_extend.
Qed.

Lemma request_mutex_run ts tid m al ne :
  NoDup ts → (∀ i, i ∈ ts → (i < length ne)%nat) → length al = length ne → longer ne al →
  (tid ∈ ts → 0 ≤ entry ne tid m < 2 ^ 64 - 1) →
  ∃ al' ne', request_mutex ts (Z.of_nat tid) (Z.of_nat m) al ne = Ok (al', ne') ∧
    length al' = length al ∧ length ne' = length ne ∧ longer ne' al' ∧ longer ne ne' ∧
    (∀ i, i ∈ ts → has_column ne' m i) ∧ (∀ i j, entry al' i j = entry al i j) ∧
    (∀ i j, entry ne' i j = entry ne i j + (if decide (i = tid ∧ j = m ∧ tid ∈ ts) then 1 else 0)).
Proof.
  revert al ne. induction ts as [|t ts IH]; intros al ne Hnd Hts Hlen Hl Hb.
  { exists al, ne. split; [done|]. split; [done|]. split; [done|]. split; [done|].
    split; [apply longer_refl|]. split; [by intros i Hi%not_elem_of_nil|]. split; [done|].
    intros i j. rewrite decide_False; [lia|]. intros (_ & _ & Hi). by apply not_elem_of_nil in Hi. }
  apply NoDup_cons in Hnd as [Hnt Hnd]. cbn [request_mutex].
  destruct (extend_rows_run al ne t m) as (al1 & ne1 & E1 & Ha1 & Hn1 & Hl1 & Hg1 & Hc1 & Hea1 & Hen1);
    [apply Hts; set_solver|done|done|].
  rewrite E1. mstep.
  assert (∃ ne2, (if Z.of_nat tid =? Z.of_nat t then add_row ne1 (Z.of_nat t) (Z.of_nat m) 1
      else Ok ne1) = Ok ne2 ∧ length ne2 = length ne1 ∧ longer ne2 al1 ∧ longer ne1 ne2 ∧
      ∀ i j, entry ne2 i j = entry ne1 i j + (if decide (i = tid ∧ j = m ∧ tid = t) then 1 else 0))
    as (ne2 & E2 & Hn2 & Hl2 & Hg2 & Hen2).
  { destruct (Z.eqb_spec (Z.of_nat tid) (Z.of_nat t)) as [Heq|Hne].
    - apply Nat2Z.inj in Heq as <-. destruct Hc1 as (row & Hrow & Hm).
      destruct (add_row_run ne1 tid row m 1 Hrow Hm) as (ne2 & E2 & Hn2 & Hg2 & Hs2 & He2).
      exists ne2. split; [done|]. split; [done|]. split; [by eapply longer_trans|]. split; [done|].
      intros i j. rewrite He2. specialize (Hb ltac:(set_solver)). rewrite <- Hen1 in Hb.
      destruct (decide (i = tid ∧ j = m)) as [[-> ->]|Hd].
      + rewrite decide_True by done. apply u64_small. lia.
      + rewrite decide_False by tauto. lia.
    - exists ne1. split; [done|]. split; [done|]. split; [done|]. split; [apply longer_refl|].
      intros i j. rewrite decide_False; [lia|]. intros (_ & _ & ->). done. }
  rewrite E2. destruct (IH al1 ne2) as (al' & ne' & E & ? & ? & ? & Hg & Hc & Hea & Hen); try done.
  { intros i Hi. rewrite Hn2, Hn1. apply Hts. set_solver. }
  { congruence. }
  { intros Hin. rewrite Hen2, Hen1, decide_False by (intros (_ & _ & ->); done).
    rewrite Z.add_0_r. apply Hb. set_solver. }
  exists al', ne'. split; [done|]. split; [congruence|]. split; [congruence|]. split; [done|].
  split; [by do 2 (eapply longer_trans; [done|])|].
  split; [|split; [intros; by rewrite Hea|]].
  - intros i [->|Hi]%elem_of_cons; [|by apply Hc].
    eapply has_column_longer; [done|]. by eapply has_column_longer.
  - intros i j. rewrite Hen, Hen2, Hen1. destruct (decide (tid = t)) as [->|Hne].
    + rewrite (decide_False (P := _ ∧ _ ∧ t ∈ ts)) by tauto.
      repeat case_decide; set_solver by lia.
    + rewrite (decide_False (P := _ ∧ _ ∧ tid = t)) by tauto.
      repeat case_decide; set_solver by lia.
Qed.

Section lock.
Context (s : ksys) (t : Z) (tid i m : nat) (x : MutexObj) (a : Z).
Context (Hcall : caller s t tid).
Context (Hslot : mutex_list (proc s) !! i = Some (Some m)).
Context (Hmutex : mutexes (kern s) !! m = Some x).
Context (Ha : mutex_available (proc s) !! i = Some a).
Context (Hlne : length (mutex_need (proc s)) = length (tasks (proc s))).
Context (Hlal : length (mutex_allocation (proc s)) = length (tasks (proc s))).
Context (Hrows : longer (mutex_need (proc s)) (mutex_allocation (proc s))).
Context (Hneed : 0 ≤ entry (mutex_need (proc s)) tid i < 2 ^ 64 - 1).

Lemma sys_mutex_lock_run :
  deadlock_detect (proc s) = true →
  ∃ r s', sys_mutex_lock (Z.of_nat i) s = Ok (r, s') ∧
    (r = Some (-0xDEAD) ↔
      ∀ i', (i' < length (tasks (proc s)))%nat → a < requested (mutex_need (proc s)) tid i i' i) ∧
    (r = Some (-0xDEAD) → kern s' = kern s ∧
      mutex_available (proc s') = mutex_available (proc s) ∧
      ∀ i' j, entry (mutex_need (proc s')) i' j = requested (mutex_need (proc s)) tid i i' j) ∧
    (r ≠ Some (-0xDEAD) → mutex_available (proc s') = <[i := u64 (a + -1)]> (mutex_available (proc s)) ∧
      ∃ b, mutex_lock m (kern s) = Ok (b, kern s') ∧ r = if b : bool then Some 0 else None).
Proof.
  intros Hdet. pose proof (c_lt _ _ _ Hcall) as Hlt.
  destruct (request_mutex_run (seq 0 (length (tasks (proc s)))) tid i (mutex_allocation (proc s))
    (mutex_need (proc s))) as (al & ne & E & Hal & Hne & Hl & Hg & Hc & Hea & Hen); try done.
  { apply NoDup_seq. } { intros i' Hi'%elem_of_seq. lia. } { lia. }
  assert (Hcol : ∀ i', (i' < length (tasks (proc s)))%nat → has_column ne i i')
    by (intros i' Hi'; apply Hc, elem_of_seq; lia).
  assert (Hreq : ∀ i' j, entry ne i' j = requested (mutex_need (proc s)) tid i i' j).
  { intros i' j. rewrite Hen. unfold requested. f_equal. destruct (decide (i' = tid ∧ j = i)) as [[-> ->]|Hd].
    - rewrite decide_True; [done|]. split; [done|]. split; [done|]. apply elem_of_seq. lia.
    - rewrite decide_False; [done|]. tauto. }
  destruct (mutex_deadlock_run al ne i (length (tasks (proc s))) Hcol
    (λ i' Hi', has_column_longer _ _ _ _ Hl (Hcol i' Hi')) (proc s) a) as (dead & Ed & Hd); [done|lia|done|].
  unfold sys_mutex_lock, get_proc, put_proc. mstep. rewrite (slot_run _ _ m) by done.
  rewrite (cur_tid_run s t tid) by done. rewrite E, Hdet, Ed. setoid_rewrite Hreq in Hd. destruct dead.
  - eexists _, _. split; [reflexivity|]. cbn [kern proc mutex_available mutex_need set_mutex_tables].
    split; [|split; [|done]]; [|done]. split; [|done]. intros _. by apply Hd.
  - rewrite (add_at_run _ _ a) by done. destruct (Hcol tid Hlt) as (row & Hrow & Hri).
    destruct (Hl tid row Hrow) as (arow & Harow & Hle).
    destruct (add_row_run al tid arow i 1 Harow) as (al' & E1 & _); [lia|].
    destruct (add_row_run ne tid row i (-1) Hrow Hri) as (ne' & E2 & _). rewrite E1, E2.
    destruct (mutex_lock_run m x (kern s) t Hmutex (c_current _ _ _ Hcall)) as (b & k' & Eb & _).
    unfold on_kernel. cbn [kern]. rewrite Eb. eexists _, _. split; [reflexivity|].
    cbn [kern proc mutex_available mutex_need set_mutex_tables]. split; [|split; [by destruct b|]].
    + split; [by destruct b|]. intros Hall. by apply Hd in Hall.
    + intros _. split; [done|]. by exists b.
Qed.
End lock.

(** With deadlock detection on, [sys_mutex_lock] fails with [-0xDEAD] exactly
    when, with the request counted, every thread of the process needs more of
    this one mutex than is available.  A failing call leaves the mutexes and the
    scheduler as they were, but the request stays in the table of needs;
    otherwise the mutex is booked, locked or not, and then locked or waited for. *)
Theorem mutex_deadlock_search s t tid i m x a :
  caller s t tid →
  mutex_list (proc s) !! i = Some (Some m) → mutexes (kern s) !! m = Some x →
  mutex_available (proc s) !! i = Some a →
  length (mutex_need (proc s)) = length (tasks (proc s)) →
  length (mutex_allocation (proc s)) = length (tasks (proc s)) →
  longer (mutex_need (proc s)) (mutex_allocation (proc s)) →
  0 ≤ entry (mutex_need (proc s)) tid i < 2 ^ 64 - 1 →
  deadlock_detect (proc s) = true →
  ∃ r s', sys_mutex_lock (Z.of_nat i) s = Ok (r, s') ∧
    (r = Some (-0xDEAD) ↔
      ∀ i', (i' < length (tasks (proc s)))%nat → a < requested (mutex_need (proc s)) tid i i' i) ∧
    (r = Some (-0xDEAD) → kern s' = kern s ∧
      mutex_available (proc s') = mutex_available (proc s) ∧
      ∀ i' j, entry (mutex_need (proc s')) i' j = requested (mutex_need (proc s)) tid i i' j) ∧
    (r ≠ Some (-0xDEAD) → mutex_available (proc s') = <[i := u64 (a + -1)]> (mutex_available (proc s)) ∧
      ∃ b, mutex_lock m (kern s) = Ok (b, kern s') ∧ r = if b : bool then Some 0 else None).
Proof. apply sys_mutex_lock_run. Qed.

(** C30: the search of [sys_mutex_lock] misses the simplest deadlock.  When the
    mutex is held (by anybody, the caller included), and some other thread of
    the process does not ask for it, the call does not fail: the caller goes to
    the end of the wait queue, and [mutex_available], which is 0, wraps
    around. *)
Theorem self_deadlock_missed s t tid i m q i' :
  caller s t tid →
  mutex_list (proc s) !! i = Some (Some m) →
  mutexes (kern s) !! m = Some (MutexBlocking true q) →
  mutex_available (proc s) !! i = Some 0 →
  length (mutex_need (proc s)) = length (tasks (proc s)) →
  length (mutex_allocation (proc s)) = length (tasks (proc s)) →
  longer (mutex_need (proc s)) (mutex_allocation (proc s)) →
  0 ≤ entry (mutex_need (proc s)) tid i < 2 ^ 64 - 1 →
  deadlock_detect (proc s) = true →
  (i' < length (tasks (proc s)))%nat → i' ≠ tid → entry (mutex_need (proc s)) i' i = 0 →
  ∃ s', sys_mutex_lock (Z.of_nat i) s = Ok (None, s') ∧
    mutexes (kern s') = <[m := MutexBlocking true (q ++ [t])]> (mutexes (kern s)) ∧
    current (kern s') = None ∧
    mutex_available (proc s') !! i = Some (2 ^ 64 - 1).
Proof.
  intros Hc Hs Hm Ha Hn Hal Hr Hb Hd Hi' Hne Hneed.
  destruct (sys_mutex_lock_run s t tid i m _ 0 Hc Hs Hm Ha Hn Hal Hr Hb Hd) as (r & s' & E & Hdead & _ & Hok).
  destruct (mutex_lock_run m _ (kern s) t Hm (c_current _ _ _ Hc)) as (b & k' & Eb & -> & Hmv & Ho).
  destruct Hok as (Hav & b & Eb' & ->).
  { intros ->. specialize (proj1 Hdead eq_refl i' Hi'). unfold requested.
    rewrite Hneed, decide_False by (intros [? _]; done). lia. }
  rewrite Eb in Eb'. injection Eb' as <- ->. exists s'. split; [done|].
  unfold objects in Ho. split; [congruence|]. split.
  - destruct Hmv as (_ & ? & _). done.
  - rewrite Hav. by rewrite list_lookup_insert_eq by (by eapply lookup_lt_Some).
Qed.

(** The search is off, or finds that all threads can finish. *)
Definition search_passes (s : ksys) (tid i : nat) : Prop :=
  deadlock_detect (proc s) = false ∨
  books_ok s ∧ safe (length (tasks (proc s))) (length (semaphore_available (proc s)))
    (units (semaphore_available (proc s))) (requested (semaphore_need (proc s)) tid i) (entry (semaphore_allocation (proc s))).

(** When no unit is listed as available, a call that passes the search books nothing
    but the need. *)
Lemma unbooked_down s t tid i sem x :
  caller s t tid → semaphore_list (proc s) !! i = Some (Some sem) → semaphores (kern s) !! sem = Some x →
  semaphore_available (proc s) !! i = Some 0 →
  length (semaphore_need (proc s)) = length (tasks (proc s)) →
  length (semaphore_allocation (proc s)) = length (tasks (proc s)) →
  0 ≤ entry (semaphore_need (proc s)) tid i < 2 ^ 64 - 1 → search_passes s tid i →
  ∃ b s1 al ne, sys_semaphore_down (Z.of_nat i) s = Ok (if b : bool then Some 0 else None, s1) ∧
    sem_down sem (kern s) = Ok (b, kern s1) ∧ tids s1 = tids s ∧
    proc s1 = set_sem_tables (semaphore_available (proc s)) al ne (proc s) ∧
    length al = length (tasks (proc s)) ∧ length ne = length (tasks (proc s)) ∧
    (∀ i' j, entry al i' j = entry (semaphore_allocation (proc s)) i' j) ∧
    (∀ i' j, entry ne i' j = requested (semaphore_need (proc s)) tid i i' j).
Proof.
  intros Hcall Hslot Hsem Ha Hln Hlal Hneed Hpass.
  destruct (request_run s t tid i Hcall Hln Hneed) as (ne1 & ne2 & row & E1 & E2 & Hl2 & _ & _ & He2).
  destruct (sem_down_run sem x (kern s) t Hsem (c_current _ _ _ Hcall)) as (k' & Ed & _).
  assert (Hs : ∃ st, (if deadlock_detect (proc s) then lift (sem_deadlock (proc s) (semaphore_allocation (proc s)) ne2)
      else mret (mkSearch [] [] (semaphore_allocation (proc s)) ne2, false)) s = Ok ((st, false), s) ∧
    length (s_al st) = length (tasks (proc s)) ∧ length (s_ne st) = length (tasks (proc s)) ∧
    (∀ i' j, entry (s_al st) i' j = entry (semaphore_allocation (proc s)) i' j) ∧ ∀ i' j, entry (s_ne st) i' j = entry ne2 i' j).
  { destruct Hpass as [->|[Hok Hsafe]]; [by eexists|]. destruct (deadlock_detect (proc s)); [|by eexists].
    destruct (sem_deadlock_run (proc s) (semaphore_allocation (proc s)) ne2) as (st & dead & Es & Hal & Hne & Hea & Hen & _ & Hd).
    { by apply (tables_same _ _ _ _ _ _ Hok). }
    assert (dead = false) as ->. { apply Hd. unfold safe, finishes in *. by setoid_rewrite He2. }
    exists st. unfold lift. by rewrite Es. }
  destruct Hs as (st & Es & Hal & Hne & Hea & Hen).
  unfold sys_semaphore_down, get_proc. mstep. rewrite (slot_run _ _ sem) by done.
  rewrite (cur_tid_run s t tid) by done. rewrite E1, E2. mstep. unfold mret, M_ret in Es. rewrite Es. unfold put_proc at 1. mstep.
  rewrite (idx_Ok _ _ 0) by (by rewrite Nat2Z.id). cbn [Z.leb Z.compare].
  unfold on_kernel. cbn [kern]. rewrite Ed. eexists _, _, (s_al st), (s_ne st). split; [reflexivity|].
  split_and!; try done. intros i' j. by rewrite Hen.
Qed.

Lemma on_kernel_run {A} (m : M kernel A) s a k : m (kern s) = Ok (a, k) → on_kernel m s = Ok (a, mkSys (proc s) k (tids s)).
Proof. intros E. unfold on_kernel. by rewrite E. Qed.

(** A turn of the idle loop that resumes a task at the end of a call. *)
Lemma idle_turn_resumes t q c k :
  ready_queue k = t :: q → default AtUser (saved k !! t) = c → match c with InSpinLock _ | InWait _ _ => False | _ => True end →
  idle_turn k = Ok (run_events t c, set_current (Some t) (set_status t Running (set_ready q k))).
Proof.
  intros Hq Hc Hr. unfold idle_turn, run_next, fetch_task. mstep. rewrite Hq. cbn [saved set_ready set_status set_current].
  rewrite Hc. by destruct c.
Qed.

(** The task [t] waits for the semaphore; [u] runs, gives it a unit and yields, and [t]
    is resumed.  The tables change only by the call of [u]. *)
Lemma given_and_resumed s t u tid' i sem :
  tids s !! u = Some (Z.of_nat tid') → (tid' < length (tasks (proc s)))%nat →
  current (kern s) = None → ready_queue (kern s) = [u] → default AtUser (saved (kern s) !! u) = AtUser → u ≠ t →
  saved (kern s) !! t = Some (InDown sem) →
  semaphore_list (proc s) !! i = Some (Some sem) → semaphores (kern s) !! sem = Some (mkSem (-1) [t]) →
  semaphore_available (proc s) !! i = Some 0 → length (semaphore_allocation (proc s)) = length (tasks (proc s)) →
  ∃ s', (on_kernel idle_turn;; sys_semaphore_up (Z.of_nat i);;
         on_kernel (suspend_current_and_run_next AtUser);; on_kernel idle_turn) s = Ok ([EvPassed t sem], s') ∧
    current (kern s') = Some t ∧ semaphores (kern s') !! sem = Some (mkSem 0 []) ∧ tids s' = tids s ∧
    ∃ al', proc s' = set_sem_tables (<[i := 1]> (semaphore_available (proc s))) al' (semaphore_need (proc s)) (proc s) ∧
      length al' = length (tasks (proc s)) ∧
      ∀ i' j, entry al' i' j = if decide (i' = tid' ∧ j = i) then u64 (entry (semaphore_allocation (proc s)) tid' i + -1)
        else entry (semaphore_allocation (proc s)) i' j.
Proof.
  intros Hu Hlt Hc Hready Hsu Hut Hst Hslot Hsem Ha Hal. assert (Hsl : (sem < length (semaphores (kern s)))%nat) by (by eapply lookup_lt_Some).
  pose proof (idle_turn_resumes u [] AtUser (kern s) Hready Hsu I) as I1.
  set (k1 := set_current (Some u) (set_status u Running (set_ready [] (kern s)))) in I1.
  destruct (sys_semaphore_up_run (mkSys (proc s) k1 (tids s)) u tid' i sem (mkSem (-1) [t]) 0)
    as (s2 & Eu & Ek & (al' & Ep & Et & Hl & He) & _); try done.
  destruct (sem_up_run sem (mkSem (-1) [t]) k1 Hsem) as (k2 & Ek' & Hm). cbn [kern] in Ek. rewrite Ek in Ek'. injection Ek' as <-.
  cbn in Hm. destruct Hm as [(Hc2 & Hr2 & _ & _ & Hs2) Ho]. injection Ho as _ Ho _ _.
  destruct (suspend_run AtUser (kern s2) u Hc2) as (k3 & Es & (_ & Hc3 & Hr3 & _ & _ & Hs3) & Ho3). injection Ho3 as _ Ho3 _ _.
  assert (I2 : idle_turn k3 = Ok ([EvPassed t sem], set_current (Some t) (set_status t Running (set_ready [u] k3)))).
  { apply (idle_turn_resumes t [u] (InDown sem)); [by rewrite Hr3, Hr2| |done]. rewrite Hs3, lookup_insert_ne, Hs2 by done.
    cbn [k1 saved set_current set_status set_ready]. by rewrite Hst. }
  exists (mkSys (proc s2) (set_current (Some t) (set_status t Running (set_ready [u] k3))) (tids s2)).
  split. { rewrite (bind_run _ _ _ _ _ (on_kernel_run idle_turn s _ _ I1)), (bind_run _ _ _ _ _ Eu),
    (bind_run _ _ _ _ _ (on_kernel_run _ s2 _ _ Es)). exact (on_kernel_run idle_turn (mkSys (proc s2) k3 (tids s2)) _ _ I2). }
  cbn [proc kern tids semaphores current set_current set_status set_ready].
  split; [done|]. split; [by rewrite Ho3, Ho, list_lookup_insert_eq|]. split; [done|]. by exists al'.
Qed.

(** C31: a thread that waits for a semaphore is never booked.  Thread [tid] of task [t]
    calls [sys_semaphore_down] when the semaphore has no unit and none is listed as
    available; deadlock detection is off, or its search passes.  The only other task
    that is ready, [u] of another thread of the process, runs, calls
    [sys_semaphore_up] and yields; [t] is resumed, and its [down] returns.  All
    this has entered the need of [t], which stays, and has not listed the unit
    that [t] got as in use; the unit that [u] gave is still listed as available.  When
    [t] gives the unit back, the table lists two units where the semaphore has one, and
    the entry of [t], which was 0, wraps around to [2 ^ 64 - 1]. *)
Theorem waiting_is_not_booked s t u tid tid' i sem :
  caller s t tid → tids s !! u = Some (Z.of_nat tid') → (tid' < length (tasks (proc s)))%nat → tid' ≠ tid →
  ready_queue (kern s) = [u] → default AtUser (saved (kern s) !! u) = AtUser → u ≠ t →
  semaphore_list (proc s) !! i = Some (Some sem) → semaphores (kern s) !! sem = Some (mkSem 0 []) →
  semaphore_available (proc s) !! i = Some 0 →
  length (semaphore_need (proc s)) = length (tasks (proc s)) →
  length (semaphore_allocation (proc s)) = length (tasks (proc s)) →
  0 ≤ entry (semaphore_need (proc s)) tid i < 2 ^ 64 - 1 → entry (semaphore_allocation (proc s)) tid i = 0 →
  search_passes s tid i →
  ∃ s1 s2 s3, sys_semaphore_down (Z.of_nat i) s = Ok (None, s1) ∧
    (on_kernel idle_turn;; sys_semaphore_up (Z.of_nat i);;
     on_kernel (suspend_current_and_run_next AtUser);; on_kernel idle_turn) s1 = Ok ([EvPassed t sem], s2) ∧
    current (kern s2) = Some t ∧ semaphores (kern s2) !! sem = Some (mkSem 0 []) ∧
    semaphore_available (proc s2) !! i = Some 1 ∧ entry (semaphore_allocation (proc s2)) tid i = 0 ∧
    entry (semaphore_need (proc s2)) tid i = entry (semaphore_need (proc s)) tid i + 1 ∧
    sys_semaphore_up (Z.of_nat i) s2 = Ok (0, s3) ∧ semaphores (kern s3) !! sem = Some (mkSem 1 []) ∧
    semaphore_available (proc s3) !! i = Some 2 ∧ entry (semaphore_allocation (proc s3)) tid i = 2 ^ 64 - 1.
Proof.
  intros Hcall Hu Hlt' Htid Hready Hsaved Hut Hslot Hsem Ha Hln Hlal Hneed Hal0 Hpass.
  assert (Hsl : (sem < length (semaphores (kern s)))%nat) by (by eapply lookup_lt_Some).
  assert (Hai : (i < length (semaphore_available (proc s)))%nat) by (by eapply lookup_lt_Some).
  destruct (unbooked_down s t tid i sem _ Hcall Hslot Hsem Ha Hln Hlal Hneed Hpass)
    as (b & s1 & al & ne & E1 & Ed & Et1 & Ep1 & Hl1 & Hn1 & Hea & Hen).
  destruct (sem_down_run sem _ (kern s) t Hsem (c_current _ _ _ Hcall)) as (k1 & Ed' & Hdown).
  rewrite Ed in Ed'. injection Ed' as -> Ek1. rewrite <- Ek1 in Hdown. cbn in E1, Hdown. clear Ed Ek1 k1.
  destruct Hdown as [(_ & Hc1 & Hr1 & _ & _ & Hsv1) Ho1]. injection Ho1 as _ Hs1 _ _. rewrite Hready in Hr1.
  destruct (given_and_resumed s1 t u tid' i sem) as (s2 & E2 & Hc2 & Hs2 & Et2 & al2 & Ep2 & Hl2 & He2); rewrite ?Ep1, ?Et1; try done.
  { by rewrite Hsv1, lookup_insert_ne. } { by rewrite Hsv1, lookup_insert_eq. } { by rewrite Hs1, list_lookup_insert_eq. }
  rewrite Ep1 in Ep2, He2. cbn [semaphore_allocation semaphore_available semaphore_need set_sem_tables] in Ep2, He2.
  assert (Hal2 : entry al2 tid i = 0) by (rewrite He2, decide_False by (intros [? _]; done); by rewrite Hea).
  destruct (sys_semaphore_up_run s2 t tid i sem (mkSem 0 []) 1) as (s3 & E3 & Ek3 & (al3 & Ep3 & _ & _ & He3) & _);
    rewrite ?Ep2; cbn; try done.
  { split; [done|by rewrite Et2, Et1; apply Hcall|]. rewrite Ep2. apply Hcall. }
  { by rewrite list_lookup_insert_eq. } { by rewrite Hl2, Ep1. }
  destruct (sem_up_run sem _ (kern s2) Hs2) as (k3 & Ek3' & Hup). rewrite Ek3 in Ek3'. injection Ek3' as <-. cbn in Hup.
  destruct Hup as [_ Ho3]. injection Ho3 as _ Hs3 _ _.
  exists s1, s2, s3. rewrite Ep3, Hs3, Ep2. cbn [semaphore_allocation semaphore_available semaphore_need set_sem_tables].
  split; [exact E1|]. split; [exact E2|]. split; [done|]. split; [done|].
  split; [by rewrite list_lookup_insert_eq|]. split; [done|].
  split; [rewrite Hen; unfold requested; by rewrite decide_True|]. split; [exact E3|].
  split; [apply list_lookup_insert_eq; by eapply lookup_lt_Some|].
  split; [by rewrite list_lookup_insert_eq by (by rewrite length_insert)|].
  rewrite He3, decide_True, Ep2 by done. cbn. by rewrite Hal2.
Qed.

(** ** Examples *)

(** A process of two threads (tasks 1 and 2), the first of them running, with a
    semaphore of one unit and a mutex. *)
Definition demo (ready : list Z) (c : option Z) (x : MutexObj) (y : Semaphore) (p : Process) : ksys :=
  mkSys p (mkKernel ready None c {[1 := Running; 2 := Ready]} ∅ [] [x] [y] []) {[1 := 0; 2 := 1]}.

(** Thread 0 has the semaphore, or the mutex, and asks for it again. *)
Definition one_unit : Process :=
  mkProc [Some 1; Some 2] [Some 0%nat] [Some 0%nat] [] true [0] [0] [[1]; [0]] [[1]; [0]] [[0]; [0]] [[0]; [0]].
Definition asks_again : ksys :=
  demo [2] (Some 1) (MutexBlocking true []) (mkSem 0 []) one_unit.

Lemma asks_again_caller : caller asks_again 1 0.
Proof. split; [done|done|]. cbn. lia. Qed.

Lemma asks_again_rows : longer (mutex_need (proc asks_again)) (mutex_allocation (proc asks_again)).
Proof.
  intros [|[|i]] row Hi; cbn in Hi; [| |done]; injection Hi as <-; eexists; (split; [reflexivity|]);
    cbn; lia.
Qed.

Lemma asks_again_tables :
  tables_ok 2 (semaphore_available (proc asks_again)) (semaphore_allocation (proc asks_again))
    (semaphore_need (proc asks_again)).
Proof.
  split; [done|done| | |].
  - by intros [|j]; vm_compute.
  - by intros [|[|i]] [|j]; vm_compute.
  - by intros [|j]; vm_compute.
Qed.

Lemma semaphore_deadlock_detected_witness :
  ∃ s', sys_semaphore_down 0 asks_again = Ok (Some (-0xDEAD), s') ∧
    ¬ safe 2 1 (units [0]) (requested [[0]; [0]] 0 0) (entry [[1]; [0]]).
Proof.
  destruct (semaphore_deadlock_detected asks_again 1 0 0 0 (mkSem 0 [])) as [(r & s' & E & _ & Hd & _) _];
    try reflexivity.
  - exact asks_again_caller.
  - cbn. lia.
  - exact asks_again_tables.
  - cbn. lia.
  - pose proof E as E'. vm_compute in E'. injection E' as <- _. exists s'. split; [exact E|].
    by apply Hd.
Defined.

Lemma mutex_deadlock_search_witness :
  ∃ r s', sys_mutex_lock 0 asks_again = Ok (r, s') ∧ r ≠ Some (-0xDEAD).
Proof.
  destruct (mutex_deadlock_search asks_again 1 0 0 0 (MutexBlocking true []) 0) as (r & s' & E & Hd & _);
    try reflexivity.
  - exact asks_again_caller.
  - exact asks_again_rows.
  - cbn. lia.
  - exists r, s'. split; [exact E|]. intros Hr. pose proof (proj1 Hd Hr 1%nat ltac:(cbn; lia)) as Hlt.
    by vm_compute in Hlt.
Defined.

Lemma self_deadlock_missed_witness :
  ∃ s', sys_mutex_lock 0 asks_again = Ok (None, s') ∧ mutexes (kern s') = [MutexBlocking true [1]].
Proof.
  destruct (self_deadlock_missed asks_again 1 0 0 0 [] 1) as (s' & E & Hm & _); try reflexivity.
  - exact asks_again_caller.
  - exact asks_again_rows.
  - cbn. lia.
  - cbn. lia.
  - lia.
  - exists s'. split; [exact E|exact Hm].
Defined.

(** Thread 1 waits for the unit that thread 0 has. *)
Definition one_waits : ksys :=
  demo [1] (Some 2) MutexBlocking_new (mkSem 0 [])
    (mkProc [Some 1; Some 2] [] [Some 0%nat] [] true [] [0] [] [[1]; [0]] [] [[0]; [0]]).

Lemma waiting_is_not_booked_witness :
  ∃ s1 s2 s3, sys_semaphore_down 0 one_waits = Ok (None, s1) ∧
    (on_kernel idle_turn;; sys_semaphore_up 0;;
     on_kernel (suspend_current_and_run_next AtUser);; on_kernel idle_turn) s1 = Ok ([EvPassed 2 0], s2) ∧
    sys_semaphore_up 0 s2 = Ok (0, s3) ∧ semaphore_available (proc s3) !! 0%nat = Some 2.
Proof.
  destruct (waiting_is_not_booked one_waits 2 1 1 0 0 0) as (s1 & s2 & s3 & E1 & E2 & _ & _ & _ & _ & _ & E3 & _ & Hav & _);
    try reflexivity.
  - split; [done|done|]. cbn. lia.
  - cbn. lia.
  - lia.
  - lia.
  - cbn. lia.
  - right. split; [exact asks_again_tables|]. exists [0%nat; 1%nat]. split; [done|].
    intros [|[|k]] i j Hk Hj; try discriminate Hk; injection Hk as <-; cbn in Hj;
      (destruct j as [|j]; [vm_compute; discriminate|lia]).
  - exists s1, s2, s3. split; [exact E1|]. split; [exact E2|]. split; [exact E3|exact Hav].
Defined.

(** Two threads without any unit listed, and no semaphore yet. *)
Definition fresh_pair : ksys :=
  mkSys (mkProc [Some 1; Some 2] [] [] [] false [] [] [[]; []] [[]; []] [[]; []] [[]; []])
    (mkKernel [2] None (Some 1) {[1 := Running; 2 := Ready]} ∅ [] [] [] []) {[1 := 0; 2 := 1]}.

(** An ordinary program on which the search raises a false alarm: detection is turned
    on, thread 0 creates a semaphore without units, gives it one and yields; thread 1
    asks for that unit.  The unit is free, so nobody would wait, but the entry of
    thread 0 has wrapped around, and adding it makes the free unit disappear. *)
Example unlisted_up_false_alarm :
  ∃ s1 s2, (sys_enable_deadlock_detect 1;; id ← sys_semaphore_create 0; sys_semaphore_up id;;
      on_kernel (suspend_current_and_run_next AtUser);; on_kernel idle_turn) fresh_pair = Ok ([], s1) ∧
    current (kern s1) = Some 2 ∧ semaphores (kern s1) = [mkSem 1 []] ∧ semaphore_available (proc s1) = [1] ∧
    semaphore_allocation (proc s1) = [[2 ^ 64 - 1]; [0]] ∧ semaphore_need (proc s1) = [[0]; [0]] ∧
    sys_semaphore_down 0 s1 = Ok (Some (-0xDEAD), s2).
Proof.
  eexists _, _. split; [vm_compute; reflexivity|]. split_and!; vm_compute; reflexivity.
Qed.
